(* ===== verification/_CoqProject ===== *)
-Q . S2P
Prelude.v
GoRuntime.v
Domain.v
AppErrors.v
ProxyStreamCircuit.v
InvalidAuthLimiter.v
AccountModelTransient.v
AccountRuntimeBlock.v
IdempotencyStore.v
Idempotency.v
SystemOperationLock.v
UserSubscription.v
KeywordMatcher.v
UsageBilling.v
BillingDB.v
BillingAllowance.v
CreativeRun.v
BillingLedger.v
BillingWallet.v
CreativeRunOutbox.v
CreativeRunFlow.v
CreativeRunLiveness.v
GoHeap.v
AdvancedScheduler.v
Transactions.v
Agents.v
PaymentOrder.v
RedeemCode.v
PaymentDB.v
PaymentGrants.v
SubscriptionChain.v
SubscriptionWindows.v
PaymentFulfillment.v
PaymentRefund.v
PaymentLifecycle.v
PaymentInvariant.v
PaymentSafety.v
SubscriptionSafety.v
RefundSafety.v
PaymentSystem.v
RefundOutcome.v
SubscriptionLifecycle.v
RedisStore.v
ConcurrencySlots.v
ConcurrencyService.v
SessionLimit.v
UserMessageQueue.v
AdmissionInvariant.v
AdmissionPrograms.v
AdmissionSystem.v
AdmissionOutcome.v
BatchImageQueue.v
BatchImage.v
BatchImageRequest.v
BatchImageIndex.v
BatchImageDB.v
BatchImageFlow.v
BatchImageInvariant.v
BatchImageSafety.v
BatchImageSubmit.v
BatchImageSystem.v
BatchImageOutcome.v
BatchImageSubmission.v
