(* ===== verification/Prelude.v ===== *)
(** * Verification of the core of TokenRouter

    TokenRouter ([backend/], Go) is a gateway that sells access to language and
    image models: it authenticates clients, chooses an upstream account,
    forwards the request, charges subscriptions and balances, and runs image
    tasks asynchronously.  This library models the parts of
    [backend/internal] that keep state and decide under concurrency, and proves
    what makes them correct.  Paths below are relative to [backend/internal].

    ** Files

    - [Prelude] (this file): results, tactics, hint databases, reachability of
      transition systems, and the list, option and integer lemmas of the rest.
    - [GoRuntime]: the part of Go and of its standard library that the code
      uses: fixed-width integers, [time], [strings], [strconv], binary64.
    - [Domain]: constants and the fields of [Account] that several parts read.
    - [AppErrors] ([pkg/errors]): application errors, wrapping, the HTTP answer.
    - [ProxyStreamCircuit] ([service/openai_proxy_stream_circuit.go]): the
      circuit breaker of each proxy.
    - [InvalidAuthLimiter] ([service/invalid_auth_abuse_limiter.go]): the
      limiter of invalid API-key attempts, by critical section.
    - [AccountModelTransient] ([service/openai_account_model_transient.go]):
      cool-downs of an account/model pair.
    - [AccountRuntimeBlock]
      ([service/openai_account_runtime_block_fastpath.go],
      [service/grok_credential_failure.go]): scheduling blocks, the rollback of
      a credential block, the 429 budget and the retry delay.
    - [IdempotencyStore] ([repository/idempotency_repo.go]): the table of
      idempotency records, one function per SQL statement.
    - [Idempotency] ([service/idempotency.go]): [Execute] as a program over the
      store, the clock and the action, and its concurrent executions.
    - [SystemOperationLock] ([service/system_operation_lock_service.go]): the
      lease of administrative operations, a client of the same store.
    - [UserSubscription] ([service/user_subscription.go],
      [service/subscription_service.go], [repository/user_subscription_repo.go]):
      the status of a subscription, its quota windows and their maintenance.
    - [KeywordMatcher] ([service/content_moderation_keyword_matcher.go]): the
      Aho-Corasick automaton of content moderation.
    - [UsageBilling] ([service/usage_billing.go]): the commands of charges and
      of holds, their fingerprints, and the plan of a settlement.
    - [BillingDB]: the tables of usage billing, NUMERIC arithmetic, transactions.
    - [BillingAllowance] ([repository/usage_billing_repo.go]): the statements on
      subscriptions, API keys, team members and account quotas.
    - [CreativeRun] ([service/creative_run.go], [service/creative_billing.go]):
      the rows, the transition graph, the public view and the billing commands
      of image tasks.
    - [BillingLedger] ([repository/usage_billing_repo.go],
      [repository/postgres_deadlock_retry.go]): the transactions [Apply],
      [ReserveBatchImageBalance], [CaptureBatchImageBalance] and
      [ReleaseBatchImageBalance].
    - [BillingWallet]: the abstract bank that the ledger refines.
    - [CreativeRunOutbox] ([repository/creative_run_outbox_repo.go]): the outbox
      table with its leases.
    - [CreativeRunFlow] ([repository/creative_run_repo.go],
      [service/creative_public.go], [service/creative_billing.go],
      [service/creative_worker.go], [service/creative_outbox_reconciler.go]):
      the operations of workers, reconciler and clients on a run, as programs
      whose statements interleave.
    - [CreativeRunLiveness]: progress of the worker.
    - [GoHeap]: Go's [container/heap] and its correctness.
    - [AdvancedScheduler] ([service/advanced_scheduler_core.go]): the feedback,
      the scores, and the order in which the accounts of a pool are tried.
    - [Transactions]: programs of database transactions, their concurrent
      executions with failures, and a rely/guarantee calculus for them.
    - [PaymentOrder] ([service/payment_amounts.go],
      [service/payment_order_provider_snapshot.go], [payment/currency.go],
      [payment/types.go], [ent/schema/payment_order.go]): the row of an order,
      currencies, the check of a notification against the provider.
    - [RedeemCode] ([service/redeem_code.go]): the status of a code.
    - [PaymentDB]: the tables of payments and the statements on them.
    - [PaymentGrants] ([service/redeem_service.go],
      [service/subscription_service.go]): redemption, assignment of a
      subscription, the rebate of an order.
    - [SubscriptionChain] ([service/subscription_service.go],
      [repository/user_subscription_repo.go]): revocation, restoration, change
      of the period, assignment to many users, the shift of later rows.
    - [SubscriptionWindows], [SubscriptionLifecycle]: those operations as maps on
      rows, the order of the windows of a chain, and what follows from it.
    - [PaymentFulfillment] ([service/payment_fulfillment.go]): notifications,
      the lease, fulfilment, retries.
    - [PaymentRefund] ([service/payment_refund.go]): the request of a user, the
      plan and the execution of a refund, the query of a pending one.
    - [PaymentLifecycle] ([service/payment_order.go],
      [service/payment_order_lifecycle.go]): creation, cancellation, expiry,
      reconciliation.
    - [PaymentInvariant], [PaymentSafety], [SubscriptionSafety], [RefundSafety],
      [PaymentSystem]: the invariant of the tables, its preservation by every
      program, and the concurrent system.
    - [RefundOutcome]: what refunds do, alone and interleaved.
    - [Agents]: the same calculus where a program may own a name.
    - [RedisStore]: keys, sorted sets, counters and strings of Redis with their
      expiry, and programs of calls to it.
    - [ConcurrencySlots] ([repository/concurrency_cache.go]),
      [ConcurrencyService] ([service/concurrency_service.go]): slots of
      accounts, users and keys, live and WebSocket leases, counters of waiting
      requests, the indexes of active accounts and users and their cleanup; one
      function per Lua script.
    - [SessionLimit] ([repository/session_limit_cache.go],
      [repository/rpm_cache.go]): sessions of an account, requests per minute.
    - [UserMessageQueue] ([repository/user_msg_queue_cache.go],
      [service/user_msg_queue_service.go]): the message lock of an account and
      the delay before the next message.
    - [AdmissionInvariant], [AdmissionPrograms], [AdmissionSystem]: what these
      promise as an invariant of the store, that every operation keeps it, and
      the concurrent system; [AdmissionOutcome]: what one attempt does.
    - [BatchImageQueue] ([repository/batch_image_queue.go]): the Redis queue of
      image jobs, one function per script or pipeline.
    - [BatchImage], [BatchImageRequest] ([service/batch_image.go],
      [service/batch_image_public.go]): the rows, the status graph, the public
      views and billing commands; the validation and expansion of a request.
    - [BatchImageIndex] ([service/batch_image_processor.go]): the parser of the
      output of a provider and its reconciliation with the submitted items.
    - [BatchImageDB] ([repository/batch_image_repo.go]): the tables of jobs,
      items and events, next to the ledger and the queue.
    - [BatchImageFlow] ([service/batch_image_public.go],
      [service/batch_image_billing_hold.go],
      [service/batch_image_settlement.go], [service/batch_image_processor.go],
      [service/batch_image_billing_recovery.go],
      [service/batch_image_cleanup.go], [service/batch_image_worker.go]): Submit,
      Cancel, the holds, settlement, indexing, the worker, recovery, cleanup.
    - [BatchImageInvariant], [BatchImageSafety], [BatchImageSubmit],
      [BatchImageSystem]: the invariant of the tables, its preservation by every
      service and by the submission that owns a job, the concurrent system.
    - [BatchImageOutcome], [BatchImageSubmission]: what indexing, settlement and
      submission do when undisturbed.

    The stores are the only shared state between parts: [SystemOperationLock]
    and [Idempotency] share the record table, [CreativeRunFlow] uses the outbox
    and sends the commands of [CreativeRun] to the ledger, whose answers are
    calls of its programs.  Payments have their own tables, with the redeem
    codes and the subscriptions that an order grants.  Image batches hold, capture
    and release money through the ledger of [BillingLedger]; their tables, the
    ledger and the queue are one state, and other users of the ledger are steps
    of its environment.  The parts that admit requests share one Redis server,
    whose clock is a field of it; slots, sessions and message locks also record
    there, for the proofs only, until when the code promised them ([granted]).
    The gateway consults
    [ProxyStreamCircuit], [AccountModelTransient] and [AccountRuntimeBlock] when
    it selects an account, and [InvalidAuthLimiter] before authentication;
    [AdvancedScheduler] orders the accounts that pass those filters, which are
    not modelled themselves.

    ** How the code is represented

    A definition has the name of the function or type it translates, and its
    branches in the order of the code.  A function returning [(T, error)] has
    type [result]; a nil pointer is [None]; an SQL statement is one function on
    the table, because PostgreSQL executes it atomically; code under a mutex is
    one atomic definition; a function that makes several calls is a program
    ([Prog]: a tree of calls and continuations) and its concurrent executions
    are the interleavings of those calls, where a call to a store or a service
    may also fail, before or after taking effect.  The payment programs are
    trees of whole transactions ([Transactions.Prog]): a transaction whose rows
    are locked is atomic.  Invariants are proved by
    induction on [reachable] (below).  Time is an argument.  Integers keep their
    width where the code can overflow ([wrap64], [wrapU32]); amounts are
    binary64.

    Third-party code is an argument with its documented behaviour as class laws:
    case mapping ([UnicodeCase]), UUIDs ([UUIDLib], [UUIDLaws]), JSON, hashing
    and redaction ([IdempotencyEnv]), the calendar of the server time zone
    ([CalendarLaws]), texts, digests and decimals ([BillingText]), the decimal
    conversion of the database driver ([SQLNumeric], [SQLNumericLaws]), the
    calendars of PostgreSQL and of Go ([SQLCalendar], [GoWeek]), case folding
    outside ASCII ([UnicodeFold]), the answers of payment providers and of the
    affiliate service ([Provider], [refundGateway], [paymentService]), the
    arithmetic of decimals ([DecimalLib]), the JSON of requests and results of
    image batches ([RequestJSON], [JSONDecoder]), the answers of image providers
    ([BatchImageProvider]), the iteration order of Go
    maps (an enumeration argument), random jitter and lease tokens.  Two
    submissions of image batches that run at the same time draw different
    identifiers ([unused]), and no other user of the ledger sends the release of
    an image batch ([outside]).  The pages of a Redis [SCAN] are arguments.  The
    limits and timeouts of admission do not change while a run lasts
    ([admissionConfig]), and all requests of a run have the prefix of one process;
    [second_process_exceeds_limit] shows why.

    ** What is proved

    - Creative runs.  [hold_settled_one_way]: a hold is never both captured and
      released, whatever interleaves and fails.  [concurrent_transitions_legal]:
      the statuses of a run always form a path of the transition graph.
      [worker_reaches_terminal]: with working calls the worker brings every run
      to a terminal status.  [settle_run_outcome], [fail_run_outcome]: the effect of a settlement and
      of a failure.  [run_lifecycle], [billing_requests_separate],
      [scope_normal_form]: the graph, the request identifiers, the scope.
      [outbox_lease_exclusive], [outbox_closed_final], [outbox_claim_oldest]:
      leases of the outbox.
    - The ledger.  [ledger_refines_wallets]: every run of the billing
      transactions is a run of an abstract bank, whose requests move one wallet
      once.  [wallet_conserved]: no money appears or disappears, and the frozen
      part never becomes negative.  [request_applied_once]: a repetition changes
      nothing.  [capture_plan_within_hold], [subscriptions_before_balance]: what
      a settlement takes and gives back.
    - Payments, for every interleaving of webhooks, users, administrators and
      background jobs with failures and crashes: [order_credited_once],
      [completed_order_granted], [order_subscribed_once], [order_rebated_once].
      [paid_order_completes], [payment_completes_order]: from every database
      that the system reaches, one undisturbed run completes a paid order.
      [create_overwrites_completion]: a completed order that becomes FAILED.
    - Refunds, in the same interleavings: [pending_refund_finalized_once];
      [execute_refund_outcome] and [query_refund_outcome]: what one undisturbed
      refund of a balance order does for each answer of the gateway.
      [order_refunded_twice]: a run in which the updates without a condition on
      the status let two refunds of one order take its whole amount.
    - Image batches, for every interleaving of submissions, workers, recovery,
      cancellations, deletions and cleanup with failures and crashes, beside any
      other use of the ledger: [job_only_moves_forward]; [completed_job_paid], a
      job is completed only after its hold was captured; [accepted_hold_kept], a
      hold is not returned while the job may still be delivered;
      [indexed_counts_add_up]; [refused_job_is_queued], no job is lost between
      the lists of the queue.  [accepted_request_within_limits]: the limits of a
      request.  [index_rebuilds_items]: indexing against a reference;
      [settle_outcome], [settlement_ends]: a settlement for every answer of the
      ledger, and its end.  [submit_outcome]: a submission for every answer of
      the ledger, of the account and of the provider.  [cancelled_hold_leaks]: a
      cancellation during a submission that leaves the money frozen for ever.
    - Admission, for every interleaving of its operations with failures, stopped
      processes and cleanup: [requests_within_limits], no more requests are
      admitted or wait than may; [message_lock_exclusive].  [slot_outcome]: an
      attempt, its release and the count; [crashed_slots_expire]: slots of
      stopped processes come free.  [generateRequestID_inj],
      [storeCached_bounded]: identifiers differ, the cache of loads is bounded.
      [second_process_exceeds_limit]: the start of another process removes slots
      that are in use.
    - Idempotency.  [idempotent_mutual_exclusion], [idempotent_at_most_once],
      [execute_then_replay], [execute_outcome], [delete_expired_spec]; and
      [expired_reclaim_race], a double execution the code allows after expiry.
    - The administrative lock: [system_lock_excludes], and
      [reclaimed_lock_never_renewed], a lease that is not renewed.
    - Subscriptions: [one_effective_subscription]: at most one subscription of
      a user and plan is effective at a time, when the operations of the chain
      do not overlap; [stale_extension_overlaps], [restored_extension_overlaps]
      show where the code needs this and where a restoration breaks it.
      [self_revocation_continues], [daily_usage_kept], [maintenance_idempotent],
      [status_lifecycle], [days_remaining_ceiling].
    - Moderation: [keyword_match_first], the automaton against the reference
      that tries every keyword in order.
    - Protection of accounts and proxies: [circuit_burst_trips],
      [circuit_isolation], [circuit_bounded], [limiter_ban], [limiter_tracked],
      [limiter_check_answer], [transient_escalation], [transient_bounded],
      [credential_rollback], [runtime_block_extends], [failover_bounded],
      [retry_delay_bounds].
    - Scheduling: [selection_order_is_best], the top-K selection with a heap
      against a full sort, and [selection_order_distinct], what is tried.
    - Errors: [wrapped_error_response], [internal_error_opaque].

    ** Fuel

    The loops of [KeywordMatcher] take the number of nodes or edges of the arena
    as fuel; [keyword_match_first] shows that no loop ever runs out of it, for
    every list of keywords and every text.  [itoaPositive] takes 20 for the at
    most 19 digits of an [int].  [GoHeap]'s sifts take the length of the heap,
    and the draw of [AdvancedScheduler] the size of the pool: the theorems of
    both show a complete result.  [toPaidLoop] and [markFailedLoop] take the
    number of attempts of the loops in the code (5 and 3).
    [listExpectedCustomIDs] takes the number of pages that hold the submitted
    items; [index_rebuilds_items] shows that it reads all of them, and
    [pages_suffice] that no interleaving makes it run out of pages.  [Reserve]
    takes the number of empty polls before its deadline, which is an argument of
    a round of the worker.  [formatDigits] takes 13 for the digits of 64 bits in
    base 36 ([read36_formatDigits]), [chunks] the length of its list, [refreshLoop]
    the ticks that a connection lasts.  Every other recursion is structural.

    ** Not modelled

    The merging of concurrent load queries and cached window costs of accounts,
    account selection around the scores, HTTP, SSE and WebSocket forwarding,
    conversions between provider dialects, HTTP handlers, payment providers, price
    tables, creation and pricing of creative runs, the choice of an account and
    the prices of image batches, their downloads and lists, authentication, settings, dashboards, generated persistence code and the
    front end: they are I/O, glue, third-party document formats, or planned
    extensions (account selection).  Metrics and logs never influence the modelled
    code and are left out. *)

From Stdlib Require Export ZArith Lia.
From stdpp Require Export base tactics numbers option list gmap fin_maps strings sorting.

#[local] Open Scope Z_scope.
#[global] Set Default Goal Selector "!".

(** ** Errors

    A Go function that returns [(T, error)] is modelled with [result]: [Ok v]
    is [(v, nil)] and [Err e] is [(_, e)]. *)

Inductive result (E A : Type) : Type :=
  | Ok (v : A)
  | Err (e : E).
Arguments Ok {E A} v.
Arguments Err {E A} e.

#[global] Instance result_ret {E} : MRet (result E) := fun A v => Ok v.
#[global] Instance result_bind {E} : MBind (result E) :=
  fun A B f m => match m with Ok v => f v | Err e => Err e end.

Definition is_ok {E A} (r : result E A) : bool :=
  match r with Ok _ => true | Err _ => false end.

(** The inversion of a successful bind. *)
Lemma bind_Ok {E A B} (m : result E A) (f : A → result E B) b :
  (m ≫= f) = Ok b → ∃ a, m = Ok a ∧ f a = Ok b.
Proof. destruct m as [a|e]; [intros H; by exists a | done]. Qed.

(** ** Tactics *)

(** Turn boolean tests of the code into propositions, in every hypothesis
    and in the goal. *)
Ltac zbool :=
  repeat match goal with
  | H : (_ && _) = true |- _ => apply andb_true_iff in H as [? ?]
  | H : (_ && _) = false |- _ => apply andb_false_iff in H
  | H : (_ || _) = true |- _ => apply orb_true_iff in H
  | H : (_ || _) = false |- _ => apply orb_false_iff in H as [? ?]
  | H : negb _ = true |- _ => apply negb_true_iff in H
  | H : negb _ = false |- _ => apply negb_false_iff in H
  | H : (_ <? _) = true |- _ => apply Z.ltb_lt in H
  | H : (_ <? _) = false |- _ => apply Z.ltb_ge in H
  | H : (_ <=? _) = true |- _ => apply Z.leb_le in H
  | H : (_ <=? _) = false |- _ => apply Z.leb_gt in H
  | H : (_ =? _) = true |- _ => apply Z.eqb_eq in H
  | H : (_ =? _) = false |- _ => apply Z.eqb_neq in H
  | H : bool_decide _ = true |- _ => apply bool_decide_eq_true in H
  | H : bool_decide _ = false |- _ => apply bool_decide_eq_false in H
  end.

(** Case analysis on the conditions of the goal, outermost first, with the
    tests turned into propositions. *)
Ltac cases_in_goal :=
  repeat (case_match; zbool; simplify_eq/=; try done).

(** Case analysis on every [match] of the context. *)
Ltac split_cases := repeat (case_match; simplify_eq/=; try done); zbool.

(** Close a goal of boolean arithmetic by reflection to [lia]. *)
Ltac blia := zbool; first [ lia | apply Z.ltb_lt; lia | apply Z.ltb_ge; lia
                          | apply Z.leb_le; lia | apply Z.leb_gt; lia
                          | apply Z.eqb_eq; lia | apply Z.eqb_neq; lia ].

Create HintDb go discriminated.

(** ** Go maps

    The order in which [for k, v := range m] visits a map is unspecified and
    may differ from one loop to the next.  A loop whose effect could depend on
    the order takes the order as an argument [iter], and its theorems hold for
    every order of the entries. *)

Class RangeOrder {K A} `{Countable K} (iter : gmap K A → list (K * A)) : Prop :=
  range_perm : ∀ m, iter m ≡ₚ map_to_list m.

#[global] Instance map_to_list_range {K A} `{Countable K} :
  RangeOrder (A := A) (map_to_list (K := K)).
Proof. intros m. reflexivity. Qed.

Section range_order.
Context {K A} `{Countable K} (iter : gmap K A → list (K * A)) `{!RangeOrder iter}.

Lemma elem_of_range m k x : (k, x) ∈ iter m ↔ m !! k = Some x.
Proof. rewrite <- elem_of_map_to_list. by rewrite (range_perm m). Qed.

Lemma range_nil m : iter m = [] → m = ∅.
Proof.
  intros Hn. apply map_to_list_empty_iff.
  by apply Permutation_nil; rewrite <- (range_perm m), Hn.
Qed.

Lemma length_range m : length (iter m) = size m.
Proof. rewrite <- length_map_to_list. by rewrite (range_perm m). Qed.
End range_order.

(** Deleting the entries that satisfy [P] while ranging over a map: the result
    does not depend on the order. *)
Definition delete_where {K A} `{Countable K} (P : A → bool) (m : gmap K A) : gmap K A :=
  filter (λ kv, P (snd kv) = false) m.

Section delete_where.
Context {K A} `{Countable K} (P : A → bool).
Implicit Types m : gmap K A.

Lemma lookup_delete_where m k x :
  delete_where P m !! k = Some x ↔ m !! k = Some x ∧ P x = false.
Proof. unfold delete_where. by rewrite map_lookup_filter_Some. Qed.

Lemma size_delete_where m : (size (delete_where P m) ≤ size m)%nat.
Proof.
  apply map_subseteq_size, map_subseteq_spec.
  intros k x. rewrite lookup_delete_where. by intros [].
Qed.
End delete_where.

(** [set_field eta r f v]: the record [r] with field [f] replaced by [v]. *)
Ltac set_field eta r f v :=
  let b := eval cbv beta delta [eta] in (eta r) in
  let p := eval pattern (f r) in b in
  lazymatch p with ?g _ => let t := eval cbv beta in (g v) in exact t end.

(** ** Lists *)

Lemma last_cons_default {A} (l : list A) a d : List.last (a :: l) d = List.last l a.
Proof.
  revert a d. induction l as [|b l IH]; intros a d; [done|].
  transitivity (List.last (b :: l) d); [done|]. by rewrite !IH.
Qed.

(** ** Sizes of finite maps, in [Z] *)

Definition zsize {K A} `{Countable K} (m : gmap K A) : Z := Z.of_nat (size m).

Section zsize.
Context {K A : Type} `{Countable K}.
Implicit Types m : gmap K A.

Lemma zsize_nonneg m : 0 <= zsize m.
Proof. unfold zsize. lia. Qed.

Lemma zsize_empty : zsize (∅ : gmap K A) = 0.
Proof. unfold zsize. by rewrite map_size_empty. Qed.

Lemma zsize_insert_None m k x : m !! k = None → zsize (<[k:=x]> m) = zsize m + 1.
Proof. intros E. unfold zsize. rewrite map_size_insert_None by done. lia. Qed.

Lemma zsize_insert_Some m k x : is_Some (m !! k) → zsize (<[k:=x]> m) = zsize m.
Proof. intros E. unfold zsize. by rewrite map_size_insert_Some. Qed.

Lemma zsize_insert_le m k x : zsize (<[k:=x]> m) <= zsize m + 1.
Proof.
  destruct (m !! k) eqn:E.
  - rewrite zsize_insert_Some by eauto. lia.
  - rewrite zsize_insert_None by done. lia.
Qed.

Lemma zsize_delete_Some m k : is_Some (m !! k) → zsize (delete k m) = zsize m - 1.
Proof.
  intros [y E]. unfold zsize.
  rewrite <- (insert_delete_id m k y E) at 2.
  rewrite map_size_insert_None by apply lookup_delete_eq. lia.
Qed.

Lemma zsize_delete_None m k : m !! k = None → zsize (delete k m) = zsize m.
Proof. intros E. by rewrite delete_id. Qed.

Lemma zsize_delete_le m k : zsize (delete k m) <= zsize m.
Proof.
  destruct (m !! k) eqn:E.
  - rewrite zsize_delete_Some by eauto. lia.
  - by rewrite zsize_delete_None.
Qed.

Lemma zsize_delete_where P m : zsize (delete_where P m) <= zsize m.
Proof. unfold zsize. pose proof (size_delete_where P m). lia. Qed.
End zsize.

#[export] Hint Resolve zsize_nonneg zsize_delete_le zsize_insert_le zsize_delete_where : go.

(** The total size of a list of maps. *)
Definition total_size {K A} `{Countable K} (l : list (gmap K A)) : Z :=
  foldr (λ m n, zsize m + n) 0 l.

Lemma total_size_insert {K A} `{Countable K} (l : list (gmap K A)) i m m' :
  l !! i = Some m → total_size (<[i := m']> l) = total_size l - zsize m + zsize m'.
Proof.
  revert i. induction l as [|m0 l IH]; intros [|i]; simpl; try done.
  - intros [= ->]. unfold total_size. simpl. lia.
  - intros Hi. unfold total_size in *. simpl. rewrite (IH i Hi). lia.
Qed.

Lemma total_size_repeat_empty {K A} `{Countable K} n :
  total_size (repeat (∅ : gmap K A) n) = 0.
Proof. induction n as [|n IH]; [done|]. unfold total_size in *. simpl. rewrite zsize_empty. lia. Qed.

Lemma total_size_nonneg {K A} `{Countable K} (l : list (gmap K A)) : 0 <= total_size l.
Proof.
  induction l as [|m l IH]; unfold total_size in *; simpl; [lia|].
  pose proof (zsize_nonneg m). lia.
Qed.

Lemma total_size_lookup {K A} `{Countable K} (l : list (gmap K A)) i m :
  l !! i = Some m → zsize m <= total_size l.
Proof.
  revert i. induction l as [|m0 l IH]; intros [|i]; simpl; try done; unfold total_size in *; simpl.
  - intros [= ->]. pose proof (total_size_nonneg l). unfold total_size in *. lia.
  - intros Hi%IH. pose proof (zsize_nonneg m0). lia.
Qed.

(** ** The state machine of a component

    [step s s'] is one operation of the component; [reachable] is its
    reflexive transitive closure from the initial states. *)

Section machine.
Context {S : Type} (init : S → Prop) (step : S → S → Prop).

Inductive reachable : S → Prop :=
  | reach_init s : init s → reachable s
  | reach_step s s' : reachable s → step s s' → reachable s'.

Lemma reachable_invariant (I : S → Prop) :
  (∀ s, init s → I s) →
  (∀ s s', I s → step s s' → I s') →
  ∀ s, reachable s → I s.
Proof. intros Hi Hs s Hr. induction Hr; eauto. Qed.
End machine.

(** ** Oldest entry of a list, as the eviction loops compute it

    The fold keeps the first entry of least age; it is the shared core of the
    eviction loops of the bounded in-memory tables. *)

Section oldest.
Context {X : Type} (age : X → Z).

Definition older (best : option X) (x : X) : option X :=
  match best with
  | None => Some x
  | Some b => if age x <? age b then Some x else Some b
  end.

Definition oldest_from (best : option X) (l : list X) : option X := foldl older best l.

Lemma oldest_from_spec l best r :
  oldest_from best l = Some r →
  (Some r = best ∨ r ∈ l) ∧
  (∀ x, x ∈ l → age r <= age x) ∧ (∀ b, best = Some b → age r <= age b).
Proof.
  revert best. induction l as [|x l IH]; simpl; intros best Hr.
  - subst best. split_and!; [by left | by intros ? ?%not_elem_of_nil | ].
    intros b [= <-]. lia.
  - destruct (IH _ Hr) as (Hin & Hall & Hbest).
    assert (Hb : ∀ y, older best x = Some y →
      (Some y = best ∨ y = x) ∧ age y <= age x ∧ (∀ b, best = Some b → age y <= age b)).
    { intros y. unfold older. destruct best as [b|].
      - destruct (age x <? age b) eqn:E; intros [= <-]; zbool.
        + split_and!; [by right | lia | intros ? [= <-]; lia].
        + split_and!; [by left | lia | intros ? [= <-]; lia].
      - intros [= <-]. split_and!; [by right | lia | done]. }
    destruct (older best x) as [y|] eqn:Ey.
    2:{ unfold older in Ey. destruct best; [destruct (_ <? _)|]; done. }
    destruct (Hb y eq_refl) as (Hy & Hyx & Hyb). specialize (Hbest y eq_refl).
    split_and!.
    + destruct Hin as [[= ->]|Hin]; [|by right; right].
      destruct Hy as [->| ->]; [by left | right; left].
    + intros z [-> | Hz]%elem_of_cons; [lia | by apply Hall].
    + intros b Hb'. specialize (Hyb b Hb'). lia.
Qed.

Lemma oldest_from_None l best : oldest_from best l = None → best = None ∧ l = [].
Proof.
  revert best. induction l as [|x l IH]; simpl; intros best Hr; [done|].
  apply IH in Hr as [Ho _]. unfold older in Ho.
  destruct best; [destruct (_ <? _)|]; done.
Qed.
End oldest.
