(* ===== verification/GoRuntime.v ===== *)
(** * The Go language and standard library, as far as the modelled code uses them

    Machine integers, [time.Time]/[time.Duration], the [strings] and [strconv]
    functions on byte strings, and IEEE-754 [float64].  These are models of the
    language and of its standard library, not of code of this repository: no
    definition here has an entry in the source map.

    - [int], [int64]: [Z], with [wrap64] after every operation that may leave
      the range; [uint32] and [uint64]: [Z] modulo a power of two.
    - [time.Time]: [Z], nanoseconds since 0001-01-01T00:00:00Z, so that the zero
      [time.Time] is [0] and [IsZero] is [t =? 0].  Readings of the monotonic
      and of the wall clock are not distinguished: one clock is passed in as
      the argument [now] of each operation.
    - [string] and [[]byte]: [string], a sequence of bytes.
    - [float64]: [spec_float], the executable binary64 specification of the
      standard library. *)

From Stdlib Require Export SpecFloat Ascii.
From stdpp Require Export pretty.
From S2P Require Import Prelude.
#[local] Open Scope Z_scope.

(** ** Machine integers *)

Definition maxInt64 : Z := 2 ^ 63 - 1.
Definition minInt64 : Z := - 2 ^ 63.

Definition in_int64 (z : Z) : Prop := minInt64 <= z <= maxInt64.

(** Two's complement wrap-around. *)
Definition wrap64 (z : Z) : Z := (z + 2 ^ 63) mod 2 ^ 64 - 2 ^ 63.
Definition wrap32 (z : Z) : Z := (z + 2 ^ 31) mod 2 ^ 32 - 2 ^ 31.
Definition wrapU64 (z : Z) : Z := z mod 2 ^ 64.
Definition wrapU32 (z : Z) : Z := z mod 2 ^ 32.

Lemma wrap64_id z : in_int64 z → wrap64 z = z.
Proof.
  unfold in_int64, minInt64, maxInt64, wrap64. intros Hz.
  rewrite Z.mod_small by lia. lia.
Qed.

Lemma wrap64_range z : in_int64 (wrap64 z).
Proof.
  unfold in_int64, minInt64, maxInt64, wrap64.
  pose proof (Z.mod_pos_bound (z + 2 ^ 63) (2 ^ 64)). lia.
Qed.

Lemma wrap32_id z : - 2 ^ 31 <= z < 2 ^ 31 → wrap32 z = z.
Proof. unfold wrap32. intros Hz. rewrite Z.mod_small by lia. lia. Qed.

Lemma wrapU32_id z : 0 <= z < 2 ^ 32 → wrapU32 z = z.
Proof. intros H. unfold wrapU32. by rewrite Z.mod_small. Qed.

Lemma wrapU64_id z : 0 <= z < 2 ^ 64 → wrapU64 z = z.
Proof. apply Z.mod_small. Qed.

(** Go's integer division truncates towards zero. *)
Definition goQuot (a b : Z) : Z := Z.quot a b.
Definition goRem (a b : Z) : Z := Z.rem a b.

(** ** Durations and times *)

Definition Duration := Z.
Definition Time := Z.

Definition Nanosecond : Z := 1.
Definition Millisecond : Z := 1000000.
Definition Second : Z := 1000000000.
Definition Microsecond : Z := 1000.
Definition Minute : Z := 60 * Second.
Definition Hour : Z := 60 * Minute.

Definition zeroTime : Time := 0.
Definition IsZero (t : Time) : bool := t =? 0.
Definition Before (t u : Time) : bool := t <? u.
Definition After (t u : Time) : bool := u <? t.
Definition Equal (t u : Time) : bool := t =? u.
Definition Add (t : Time) (d : Duration) : Time := t + d.

(** [Time.Sub] saturates at the extreme durations. *)
Definition Sub (t u : Time) : Duration := Z.max minInt64 (Z.min maxInt64 (t - u)).

(** Seconds between 0001-01-01 and 1970-01-01. *)
Definition unixToInternal : Z := 62135596800.
Definition Unix (t : Time) : Z := t / Second - unixToInternal.
Definition UnixNano (t : Time) : Z := wrap64 (t - unixToInternal * Second).
(** [time.Unix(0, ns)]. *)
Definition fromUnixNano (ns : Z) : Time := ns + unixToInternal * Second.

(** Comparing a saturated difference with a bound inside the duration range is
    comparing the exact difference. *)
Lemma Sub_gtb t u d : d < maxInt64 → minInt64 <= d → (d <? Sub t u) = (d <? t - u).
Proof. unfold Sub, maxInt64, minInt64. intros. apply eq_bool_prop_intro. rewrite !Is_true_true, !Z.ltb_lt. lia. Qed.

Lemma Sub_geb t u d : d <= maxInt64 → minInt64 < d → (d <=? Sub t u) = (d <=? t - u).
Proof. unfold Sub, maxInt64, minInt64. intros. apply eq_bool_prop_intro. rewrite !Is_true_true, !Z.leb_le. lia. Qed.

Lemma Sub_exact t u : in_int64 (t - u) → Sub t u = t - u.
Proof. unfold Sub, in_int64. lia. Qed.

Lemma Sub_pos t u : u < t → 0 < Sub t u.
Proof. unfold Sub, maxInt64, minInt64. lia. Qed.

Ltac unfold_time := unfold Before, After, Equal, Add, IsZero, zeroTime in *.

(** ** Byte strings *)

Definition byteOf (a : ascii) : N := N_of_ascii a.

Definition len (s : string) : Z := Z.of_nat (String.length s).

(** The prefix and suffix tests, and [strings.Contains]. *)
Definition HasPrefix (s p : string) : bool := String.prefix p s.
Definition TrimPrefix (s p : string) : string :=
  if HasPrefix s p then String.substring (String.length p) (String.length s - String.length p) s else s.

Fixpoint Contains (s sub : string) : bool :=
  HasPrefix s sub || match s with
                     | EmptyString => false
                     | String _ rest => Contains rest sub
                     end.

(** [strings.TrimSpace] strips Unicode white space: the ASCII spaces, U+0085,
    U+00A0 (two bytes in UTF-8) and U+1680, U+2000..U+200A, U+2028, U+2029,
    U+202F, U+205F, U+3000 (three bytes). *)
Definition space1 (b : N) : bool := ((9 <=? b) && (b <=? 13) || (b =? 32))%N.
Definition space2 (b1 b2 : N) : bool := ((b1 =? 194) && ((b2 =? 133) || (b2 =? 160)))%N.
Definition space3 (b1 b2 b3 : N) : bool :=
  ((b1 =? 225) && (b2 =? 154) && (b3 =? 128)
   || (b1 =? 226) && (b2 =? 128) && ((128 <=? b3) && (b3 <=? 138) || (b3 =? 168) || (b3 =? 169) || (b3 =? 175))
   || (b1 =? 226) && (b2 =? 129) && (b3 =? 159)
   || (b1 =? 227) && (b2 =? 128) && (b3 =? 128))%N.

(** [trimWith rev] strips from the head; with [rev] the bytes come reversed. *)
Fixpoint trimWith (rev : bool) (l : list ascii) : list ascii :=
  match l with
  | [] => []
  | a1 :: t1 =>
      if space1 (byteOf a1) then trimWith rev t1 else
      match t1 with
      | [] => l
      | a2 :: t2 =>
          if (if rev then space2 (byteOf a2) (byteOf a1) else space2 (byteOf a1) (byteOf a2))
          then trimWith rev t2 else
          match t2 with
          | [] => l
          | a3 :: t3 =>
              if (if rev then space3 (byteOf a3) (byteOf a2) (byteOf a1)
                  else space3 (byteOf a1) (byteOf a2) (byteOf a3))
              then trimWith rev t3 else l
          end
      end
  end.

Definition TrimSpace (s : string) : string :=
  String.string_of_list_ascii (rev (trimWith true (rev (trimWith false (String.list_ascii_of_string s))))).

(** An ASCII byte that is no space ends the trimming. *)
Definition solid (a : ascii) : Prop := (byteOf a <> 32 ∧ ¬ (9 <= byteOf a <= 13))%N ∧ (byteOf a < 128)%N.

Lemma list_ascii_app s1 s2 :
  String.list_ascii_of_string (s1 +:+ s2) = String.list_ascii_of_string s1 ++ String.list_ascii_of_string s2.
Proof. induction s1 as [|a s1 IH]; [done|]. cbn. by rewrite <- IH. Qed.

Lemma list_ascii_inj s1 s2 : String.list_ascii_of_string s1 = String.list_ascii_of_string s2 → s1 = s2.
Proof. intros E. rewrite <- (String.string_of_list_ascii_of_string s1), E. apply String.string_of_list_ascii_of_string. Qed.

Lemma trimWith_keep rev a l :
  solid a → trimWith rev (a :: l) = a :: l.
Proof.
  intros [Ha Hb]. cbn [trimWith]. replace (space1 (byteOf a)) with false.
  2: { symmetry. unfold space1. apply orb_false_iff. split; [apply andb_false_iff | apply N.eqb_neq; lia].
       destruct (N.leb_spec 9 (byteOf a)); [right | by left]. apply N.leb_gt. lia. }
  destruct l as [|b l]; [done|].
  replace (if rev then space2 (byteOf b) (byteOf a) else space2 (byteOf a) (byteOf b)) with false.
  2: { symmetry. unfold space2. destruct rev; apply andb_false_iff; [right | left; apply N.eqb_neq; lia].
       apply orb_false_iff. split; apply N.eqb_neq; lia. }
  destruct l as [|c l]; [done|].
  replace (if rev then space3 (byteOf c) (byteOf b) (byteOf a) else space3 (byteOf a) (byteOf b) (byteOf c)) with false; [done|].
  symmetry. unfold space3. destruct rev; repeat match goal with
    | |- context [(byteOf a =? ?n)%N] => replace (byteOf a =? n)%N with false by (symmetry; apply N.eqb_neq; lia)
    | |- context [(?n <=? byteOf a)%N] => replace (n <=? byteOf a)%N with false by (symmetry; apply N.leb_gt; lia)
    end; by rewrite ?andb_false_r.
Qed.

Lemma TrimSpace_solid s a body b :
  String.list_ascii_of_string s = a :: body ++ [b] → solid a → solid b → TrimSpace s = s.
Proof.
  intros E Ha Hb. unfold TrimSpace. apply list_ascii_inj. rewrite String.list_ascii_of_string_of_list_ascii, E.
  rewrite trimWith_keep by done. rewrite app_comm_cons, rev_app_distr. cbn [rev app]. rewrite trimWith_keep by done.
  cbn [rev]. by rewrite rev_app_distr, rev_involutive.
Qed.

(** [strings.ToLower]/[ToUpper]: byte-wise on ASCII strings (the standard
    library's fast path); outside ASCII the Unicode tables decide, which are an
    argument of the model. *)
Class UnicodeCase := { unicodeLower : string → string; unicodeUpper : string → string }.

Definition isASCII (s : string) : bool :=
  forallb (λ a, (byteOf a <? 128)%N) (String.list_ascii_of_string s).

Definition lowerByte (a : ascii) : ascii :=
  let b := byteOf a in if ((65 <=? b) && (b <=? 90))%N then ascii_of_N (b + 32) else a.
Definition upperByte (a : ascii) : ascii :=
  let b := byteOf a in if ((97 <=? b) && (b <=? 122))%N then ascii_of_N (b - 32) else a.

Definition mapBytes (f : ascii → ascii) (s : string) : string :=
  String.string_of_list_ascii (map f (String.list_ascii_of_string s)).

Definition ToLower `{UnicodeCase} (s : string) : string :=
  if isASCII s then mapBytes lowerByte s else unicodeLower s.
Definition ToUpper `{UnicodeCase} (s : string) : string :=
  if isASCII s then mapBytes upperByte s else unicodeUpper s.

(** The case tables of a program that only handles ASCII: for concrete runs. *)
#[local] Instance ascii_case : UnicodeCase := {| unicodeLower := id; unicodeUpper := id |}.

(** [strings.EqualFold] against a word of ASCII letters other than [s] (which
    also folds with the long s): equality of the lower-case forms. *)
Definition EqualFold `{UnicodeCase} (a b : string) : bool := String.eqb (ToLower a) (ToLower b).

(** [strings.Split(s, sep)] for a one-byte separator: never empty. *)
Fixpoint SplitByte (sep : ascii) (s : string) : list string :=
  match s with
  | "" => [""]
  | String a t =>
      if Ascii.eqb a sep then "" :: SplitByte sep t
      else match SplitByte sep t with
           | [] => [String a ""]
           | x :: r => String a x :: r
           end
  end.

Fixpoint JoinByte (sep : ascii) (l : list string) : string :=
  match l with
  | [] => ""
  | [x] => x
  | x :: r => x +:+ String sep (JoinByte sep r)
  end.

Lemma SplitByte_nonempty sep s : SplitByte sep s ≠ [].
Proof. destruct s as [|a t]; simpl; [done|]. destruct (Ascii.eqb a sep); [done|]. by destruct (SplitByte sep t). Qed.

(** Joining the pieces gives the string back. *)
Lemma JoinByte_SplitByte sep s : JoinByte sep (SplitByte sep s) = s.
Proof.
  induction s as [|a t IH]; [done|]. simpl.
  destruct (Ascii.eqb a sep) eqn:E.
  - apply Ascii.eqb_eq in E as ->. pose proof (SplitByte_nonempty sep t) as Hne.
    destruct (SplitByte sep t); [done|]. simpl in *. by rewrite <- IH.
  - destruct (SplitByte sep t) as [|x r]; simpl in *.
    + by rewrite <- IH.
    + destruct r; simpl in *; by rewrite <- IH.
Qed.

(** [strings.LastIndex(s, c)] for a one-byte string [c]: the prefix before the
    last occurrence, if there is one. *)
Fixpoint beforeLast (c : ascii) (s : string) : option string :=
  match s with
  | "" => None
  | String a t =>
      match beforeLast c t with
      | Some p => Some (String a p)
      | None => if Ascii.eqb a c then Some "" else None
      end
  end.

Lemma beforeLast_length c s p : beforeLast c s = Some p → (String.length p < String.length s)%nat.
Proof.
  revert p. induction s as [|a t IH]; simpl; intros p; [done|].
  destruct (beforeLast c t) as [q|] eqn:E.
  - intros [= <-]. specialize (IH q eq_refl). simpl. lia.
  - case_match; [intros [= <-]; simpl; lia | done].
Qed.

(** [utf8.ValidString]. *)
Definition contByte (lo hi : N) (a : ascii) : bool := ((lo <=? byteOf a) && (byteOf a <=? hi))%N.

Fixpoint validUTF8 (l : list ascii) : bool :=
  match l with
  | [] => true
  | a :: t1 =>
      let b := byteOf a in
      if (b <? 128)%N then validUTF8 t1 else
      if ((194 <=? b) && (b <=? 223))%N then
        match t1 with c :: t => contByte 128 191 c && validUTF8 t | [] => false end
      else if ((224 <=? b) && (b <=? 239))%N then
        let lo := if (b =? 224)%N then 160%N else 128%N in
        let hi := if (b =? 237)%N then 159%N else 191%N in
        match t1 with c :: d :: t => contByte lo hi c && contByte 128 191 d && validUTF8 t | _ => false end
      else if ((240 <=? b) && (b <=? 244))%N then
        let lo := if (b =? 240)%N then 144%N else 128%N in
        let hi := if (b =? 244)%N then 143%N else 191%N in
        match t1 with
        | c :: d :: e :: t => contByte lo hi c && contByte 128 191 d && contByte 128 191 e && validUTF8 t
        | _ => false
        end
      else false
  end.

Definition ValidString (s : string) : bool := validUTF8 (String.list_ascii_of_string s).

(** ** Decimal conversion *)

Definition digitOf (a : ascii) : option Z :=
  let b := byteOf a in
  if ((48 <=? b) && (b <=? 57))%N then Some (Z.of_N b - 48) else None.

Fixpoint parseDigits (acc : Z) (l : list ascii) : option Z :=
  match l with
  | [] => Some acc
  | a :: t => match digitOf a with Some d => parseDigits (acc * 10 + d) t | None => None end
  end.

(** [strconv.Atoi]: an optional sign, then at least one digit; out of the
    range of [int] is an error, as any other character is. *)
Definition Atoi (s : string) : option Z :=
  let '(neg, ds) :=
    match String.list_ascii_of_string s with
    | a :: t => if Ascii.eqb a "-" then (true, t) else if Ascii.eqb a "+" then (false, t) else (false, a :: t)
    | [] => (false, [])
    end in
  match ds with
  | [] => None
  | _ => match parseDigits 0 ds with
         | None => None
         | Some n => let v := if (neg : bool) then - n else n in
                     if (minInt64 <=? v) && (v <=? maxInt64) then Some v else None
         end
  end.

(** [strconv.Itoa] and [strconv.FormatInt(z, 10)]. *)
Definition Itoa (z : Z) : string := pretty z.

(** ** Floating point: IEEE-754 binary64 *)

Abbreviation float64 := spec_float.

Definition f64_zero : float64 := S754_zero false.
Definition f64_add : float64 → float64 → float64 := SFadd 53 1024.
Definition f64_sub : float64 → float64 → float64 := SFsub 53 1024.
Definition f64_mul : float64 → float64 → float64 := SFmul 53 1024.
Definition f64_div : float64 → float64 → float64 := SFdiv 53 1024.
Definition f64_lt : float64 → float64 → bool := SFltb.
Definition f64_le : float64 → float64 → bool := SFleb.
Definition f64_gt (x y : float64) : bool := SFltb y x.
Definition f64_ge (x y : float64) : bool := SFleb y x.
Definition f64_eq : float64 → float64 → bool := SFeqb.
Definition f64_isNaN (x : float64) : bool := match x with S754_nan => true | _ => false end.
Definition f64_isInf (x : float64) : bool := match x with S754_infinity _ => true | _ => false end.
(** Conversion of an integer: correctly rounded. *)
Definition f64_of_Z (z : Z) : float64 := binary_normalize 53 1024 z 0 false.
(** [math.Max]. *)
Definition f64_max (x y : float64) : float64 :=
  if (f64_isInf x && f64_gt x f64_zero) || (f64_isInf y && f64_gt y f64_zero) then S754_infinity false
  else if f64_isNaN x || f64_isNaN y then S754_nan
  else if f64_eq x f64_zero && f64_eq y f64_zero then match x with S754_zero true => y | _ => x end
  else if f64_gt x y then x else y.

(** [math.Min]. *)
Definition f64_min (x y : float64) : float64 :=
  if (f64_isInf x && f64_lt x f64_zero) || (f64_isInf y && f64_lt y f64_zero) then S754_infinity true
  else if f64_isNaN x || f64_isNaN y then S754_nan
  else if f64_eq x f64_zero && f64_eq y f64_zero then match x with S754_zero true => x | _ => y end
  else if f64_lt x y then x else y.

(** [math.Round]: to the nearest integer, half away from zero. *)
Definition f64_round (x : float64) : float64 :=
  match x with
  | S754_finite s m e =>
      if 0 <=? e then x else
      let n := (Zpos m + 2 ^ (- e - 1)) / 2 ^ (- e) in
      if n =? 0 then S754_zero s else f64_of_Z (if s then - n else n)
  | _ => x
  end.

(** Conversion of a finite float inside the range of [int]: truncation. *)
Definition f64_trunc (x : float64) : Z :=
  match x with
  | S754_finite s m e =>
      let a := if 0 <=? e then Zpos m * 2 ^ e else Zpos m / 2 ^ (- e) in if s then - a else a
  | _ => 0
  end.

(** [Duration.Seconds]. *)
Definition Seconds (d : Duration) : float64 :=
  f64_add (f64_of_Z (goQuot d Second)) (f64_div (f64_of_Z (goRem d Second)) (f64_of_Z Second)).

(** The calendar of the configured time zone ([time.Local] is set to it at start
    up): midnight of the day of an instant, and the same wall clock one day later
    ([AddDate(0, 0, 1)]).  The zone tables are data of the platform; the laws are
    those of any zone: midnights are fixed points, later instants have later or
    equal midnights, and a day is shorter than two times 24 hours. *)
Class Calendar := {
  StartOfDay : Time → Time;
  NextDay : Time → Time;
}.

Class CalendarLaws `{Calendar} : Prop := {
  StartOfDay_le t : StartOfDay t <= t;
  StartOfDay_midnight t : StartOfDay (StartOfDay t) = StartOfDay t;
  StartOfDay_mono t u : t <= u → StartOfDay t <= StartOfDay u;
  StartOfDay_short t : t < StartOfDay t + 48 * Hour;
}.

(** A zone with a fixed offset from UTC. *)
Definition fixedZone (offset : Duration) : Calendar := {|
  StartOfDay t := (t + offset) / (24 * Hour) * (24 * Hour) - offset;
  NextDay t := t + 24 * Hour |}.

Lemma fixedZone_laws offset : @CalendarLaws (fixedZone offset).
Proof.
  assert (H24 : 0 < 24 * Hour) by done. assert (H48 : 48 * Hour = 2 * (24 * Hour)) by done.
  split; cbn [StartOfDay fixedZone]; intros; rewrite ?H48; set (day := 24 * Hour) in *.
  - pose proof (Z.mul_div_le (t + offset) day). lia.
  - rewrite Z.sub_add, Z.div_mul by lia. done.
  - pose proof (Z.div_le_mono (t + offset) (u + offset) day). nia.
  - pose proof (Z.mod_pos_bound (t + offset) day). pose proof (Z.div_mod (t + offset) day). lia.
Qed.

(** ** Comparisons of floats *)

Lemma f64_compare_flip x y c : SFcompare x y = Some c → SFcompare y x = Some (CompOpp c).
Proof.
  assert (Hm : ∀ m m', Pos.compare_cont Eq m' m = CompOpp (Pos.compare_cont Eq m m'))
    by (intros; apply (Pos.compare_antisym m m')).
  destruct x as [[]|[]| |[] m e], y as [[]|[]| |[] m' e']; simpl; try (by intros [= <-]);
    intros [= <-]; rewrite (Z.compare_antisym e e'); destruct (Z.compare e e') eqn:E; simpl; try done;
    f_equal; by rewrite (Hm m m'), ?CompOpp_involutive.
Qed.

Lemma f64_compare_refl x c : SFcompare x x = Some c → c = Eq.
Proof.
  intros H. pose proof (f64_compare_flip x x c H) as H'. rewrite H in H'. injection H' as H'. by destruct c.
Qed.

Lemma f64_lt_asym x y : f64_lt x y = true → f64_lt y x = false.
Proof.
  unfold f64_lt, SFltb. destruct (SFcompare x y) as [[]|] eqn:E; try done. intros _.
  by rewrite (f64_compare_flip _ _ _ E).
Qed.

Lemma f64_gt_not_le x y : f64_gt x y = true → f64_le x y = false.
Proof.
  unfold f64_gt, f64_le, SFltb, SFleb. destruct (SFcompare y x) as [c|] eqn:E; [|done].
  rewrite (f64_compare_flip _ _ _ E). by destruct c.
Qed.

Lemma f64_lt_irrefl x : f64_lt x x = false.
Proof. destruct (f64_lt x x) eqn:E; [|done]. by rewrite f64_lt_asym in E. Qed.

(** [math.Min] is never above its arguments (a NaN is not above anything). *)
Lemma f64_min_l x y : f64_gt (f64_min x y) x = false.
Proof.
  unfold f64_min, f64_gt. destruct (_ || _) eqn:Ei; [by destruct x as [[]|[]| |[] ? ?]|].
  destruct (f64_isNaN x || f64_isNaN y) eqn:En; [by destruct x|].
  destruct (f64_eq x f64_zero && f64_eq y f64_zero) eqn:Ez.
  - zbool. destruct x as [[]|[]| |[] ? ?], y as [[]|[]| |[] ? ?]; done.
  - destruct (f64_lt x y) eqn:E; [apply f64_lt_irrefl|done].
Qed.
Lemma f64_min_r x y : f64_gt (f64_min x y) y = false.
Proof.
  unfold f64_min, f64_gt. destruct (_ || _) eqn:Ei; [by destruct y as [[]|[]| |[] ? ?]|].
  destruct (f64_isNaN x || f64_isNaN y) eqn:En; [by destruct y|].
  destruct (f64_eq x f64_zero && f64_eq y f64_zero) eqn:Ez.
  - zbool. destruct x as [[]|[]| |[] ? ?], y as [[]|[]| |[] ? ?]; done.
  - destruct (f64_lt x y) eqn:E; [by apply f64_lt_asym | apply f64_lt_irrefl].
Qed.

(** A minimum is one of the arguments, or a NaN. *)
Lemma f64_min_cases x y : f64_min x y = x ∨ f64_min x y = y ∨ f64_min x y = S754_nan.
Proof.
  unfold f64_min. destruct (_ || _) eqn:Ei.
  { destruct x as [[]|[]| |[] ? ?]; auto; destruct y as [[]|[]| |[] ? ?]; auto; discriminate. }
  destruct (f64_isNaN x || f64_isNaN y); [auto|].
  destruct (f64_eq x f64_zero && f64_eq y f64_zero); [|destruct (f64_lt x y); auto].
  destruct x as [[]|[]| |[] ? ?]; auto.
Qed.

Lemma f64_min_spent x y : f64_gt y f64_zero = false → f64_gt (f64_min x y) f64_zero = false.
Proof.
  unfold f64_min, f64_gt. destruct y as [[]|[]| |[] ? ?]; try done; intros _.
  all: destruct x as [[]|[]| |[] ? ?]; cbn; try done.
  all: repeat case_match; done.
Qed.

Lemma f64_min_spent_l x y : f64_gt x f64_zero = false → f64_gt (f64_min x y) f64_zero = false.
Proof.
  unfold f64_min, f64_gt. destruct x as [[]|[]| |[] ? ?]; try done; intros _.
  all: destruct y as [[]|[]| |[] ? ?]; cbn; try done.
  all: repeat case_match; done.
Qed.

(** [x - x] is zero, or a NaN. *)
Lemma f64_sub_self x : f64_sub x x = f64_zero ∨ f64_sub x x = S754_nan.
Proof.
  destruct x as [[]|[]| |s m e]; try (by left); try (by right).
  left. unfold f64_sub, SFsub. by rewrite Z.sub_diag.
Qed.

Lemma f64_lt_irrefl_zero : f64_lt f64_zero f64_zero = false.
Proof. reflexivity. Qed.

(** ** Examples *)

Example trim_example : TrimSpace "  a b	" = "a b". Proof. reflexivity. Qed.
Example lower_example : ToLower "AbC-9" = "abc-9". Proof. reflexivity. Qed.
Example split_example : SplitByte "/" "a//b" = ["a"; ""; "b"]. Proof. reflexivity. Qed.
Example atoi_example : Atoi "-042" = Some (-42). Proof. reflexivity. Qed.
Example atoi_range : Atoi "9223372036854775808" = None. Proof. reflexivity. Qed.
Example itoa_example : Itoa (-120) = "-120". Proof. reflexivity. Qed.
Example seconds_example : f64_trunc (Seconds (7 * Second + 999999999)) = 7. Proof. vm_compute. reflexivity. Qed.
Example round_example : map f64_trunc (map f64_round [f64_div (f64_of_Z 5) (f64_of_Z 2); f64_div (f64_of_Z (-7)) (f64_of_Z 2); f64_div (f64_of_Z 1) (f64_of_Z 3)]) = [3; -4; 0].
Proof. reflexivity. Qed.
Example f64_example : f64_lt (f64_sub (f64_of_Z 1) (f64_of_Z 3)) f64_zero = true. Proof. reflexivity. Qed.
