(* ===== verification/Domain.v ===== *)
(** * Shared domain data

    The constants of [backend/internal/domain/constants.go] the components use
    and the part of the [Account] struct ([backend/internal/service/account.go])
    that their operations read. *)

From S2P Require Import Prelude GoRuntime.
#[local] Open Scope Z_scope.

Definition StatusActive : string := "active".
Definition StatusExpired : string := "expired".

Definition PlatformAnthropic : string := "anthropic".
Definition PlatformOpenAI : string := "openai".
Definition PlatformGemini : string := "gemini".
Definition PlatformAntigravity : string := "antigravity".
Definition PlatformGrok : string := "grok".
Definition PlatformQoder : string := "qoder".
Definition PlatformKimi : string := "kimi".
Definition PlatformZhipu : string := "zhipu".
Definition PlatformDeepseek : string := "deepseek".

Definition AccountTypeOAuth : string := "oauth".
Definition AccountTypeSetupToken : string := "setup-token".
Definition AccountTypeAPIKey : string := "apikey".
Definition AccountTypeBedrock : string := "bedrock".

Definition SubscriptionStatusActive : string := "active".
Definition SubscriptionStatusPending : string := "pending".
Definition SubscriptionStatusExpired : string := "expired".
Definition SubscriptionStatusSuspended : string := "suspended".

(** Equality of Go strings. *)
Definition eqs (a b : string) : bool := String.eqb a b.

Lemma eqs_true a b : eqs a b = true ↔ a = b.
Proof. apply String.eqb_eq. Qed.

Lemma eqs_false a b : eqs a b = false ↔ a ≠ b.
Proof. apply String.eqb_neq. Qed.

Lemma eqs_refl a : eqs a a = true.
Proof. by apply eqs_true. Qed.

(** The account, restricted to the fields read here; a pointer field is an
    [option]. *)
Record Account := mkAccount {
  ID : Z;
  Platform : string;
  Type_ : string;
  ProxyID : option Z;
  ParentAccountID : option Z;
  Priority : Z;
  SessionWindowEnd : option Time;
}.

Definition isOpenAIAccount (account : option Account) : bool :=
  match account with
  | None => false
  | Some a => eqs (Platform a) PlatformOpenAI || eqs (Platform a) PlatformGrok
  end.

Definition isGrokOAuthAccount (account : option Account) : bool :=
  match account with
  | None => false
  | Some a => eqs (Platform a) PlatformGrok && eqs (Type_ a) AccountTypeOAuth
  end.

Definition IsShadow (account : option Account) : bool :=
  match account with
  | None => false
  | Some a => bool_decide (is_Some (ParentAccountID a))
  end.

Definition IsOpenAI (a : Account) : bool := eqs (Platform a) PlatformOpenAI.

Definition IsOpenAIOAuthLike (account : option Account) : bool :=
  match account with
  | None => false
  | Some a => IsOpenAI a && (eqs (Type_ a) AccountTypeOAuth || eqs (Type_ a) AccountTypeSetupToken)
  end.

Definition isOpenAIOAuthAccount (account : option Account) : bool := IsOpenAIOAuthLike account.
