(* ===== verification/AppErrors.v ===== *)
(** * Application errors

    [backend/internal/pkg/errors]: the error type that decides the HTTP
    response.  A Go error is a [goError]: an [*ApplicationError] or any other
    error with what its [Unwrap] returns (a list, so that [errors.Join] is
    covered); a nil error is [None] of [option goError]. *)

From S2P Require Import Prelude GoRuntime.
#[local] Open Scope Z_scope.

Definition UnknownCode : Z := 500.
Definition UnknownReason : string := "".
Definition UnknownMessage : string := "internal error".

(** A nil metadata map is [None]. *)
Record Status := mkStatus {
  Code_ : Z;
  Reason_ : string;
  Message_ : string;
  Metadata : option (gmap string string);
}.

Inductive goError : Type :=
  | AppErr (e : ApplicationError)
  | OtherErr (text : string) (wrapped : list goError)
with ApplicationError : Type :=
  | mkAppError (status : Status) (cause : option goError).

Definition statusOf (e : ApplicationError) : Status := match e with mkAppError s _ => s end.
Definition causeOf (e : ApplicationError) : option goError := match e with mkAppError _ c => c end.

(** [errors.As(err, **ApplicationError)]: depth first through the wrapped errors. *)
Fixpoint asApplicationError (err : goError) : option ApplicationError :=
  match err with
  | AppErr e => Some e
  | OtherErr _ wrapped =>
      (fix first (l : list goError) : option ApplicationError :=
         match l with
         | [] => None
         | x :: r => match asApplicationError x with Some e => Some e | None => first r end
         end) wrapped
  end.

Definition New (code : Z) (reason message : string) : ApplicationError :=
  mkAppError (mkStatus (wrap32 code) reason message None) None.

Definition Unwrap (e : ApplicationError) : option goError := causeOf e.

Definition Is (e : ApplicationError) (err : option goError) : bool :=
  match err with
  | None => false
  | Some err =>
      match asApplicationError err with
      | Some se => (Code_ (statusOf se) =? Code_ (statusOf e)) && String.eqb (Reason_ (statusOf se)) (Reason_ (statusOf e))
      | None => false
      end
  end.

(** The copy has a map of its own with the same entries. *)
Definition Clone (err : option ApplicationError) : option ApplicationError :=
  match err with
  | None => None
  | Some e => Some (mkAppError (mkStatus (Code_ (statusOf e)) (Reason_ (statusOf e)) (Message_ (statusOf e))
                                  (Metadata (statusOf e))) (causeOf e))
  end.

Definition WithCause (e : ApplicationError) (cause : option goError) : ApplicationError :=
  mkAppError (statusOf e) cause.

Definition WithMetadata (e : ApplicationError) (md : option (gmap string string)) : ApplicationError :=
  mkAppError (mkStatus (Code_ (statusOf e)) (Reason_ (statusOf e)) (Message_ (statusOf e)) md) (causeOf e).

Definition FromError (err : option goError) : option ApplicationError :=
  match err with
  | None => None
  | Some err =>
      match asApplicationError err with
      | Some se => Some se
      | None => Some (WithCause (New UnknownCode UnknownReason UnknownMessage) (Some err))
      end
  end.

Definition StatusOK : Z := 200.

Definition Code (err : option goError) : Z :=
  match FromError err with None => StatusOK | Some e => Code_ (statusOf e) end.
Definition Reason (err : option goError) : string :=
  match FromError err with None => UnknownReason | Some e => Reason_ (statusOf e) end.
Definition Message (err : option goError) : string :=
  match FromError err with None => "" | Some e => Message_ (statusOf e) end.

Definition ToHTTP (err : option goError) : Z * Status :=
  match FromError err with
  | None => (StatusOK, mkStatus StatusOK "" "" None)
  | Some appErr => (Code_ (statusOf appErr), statusOf appErr)
  end.

Definition BadRequest (reason message : string) := New 400 reason message.
Definition IsBadRequest (err : option goError) : bool := Code err =? 400.
Definition TooManyRequests (reason message : string) := New 429 reason message.
Definition IsTooManyRequests (err : option goError) : bool := Code err =? 429.
Definition Unauthorized (reason message : string) := New 401 reason message.
Definition IsUnauthorized (err : option goError) : bool := Code err =? 401.
Definition Forbidden (reason message : string) := New 403 reason message.
Definition IsForbidden (err : option goError) : bool := Code err =? 403.
Definition NotFound (reason message : string) := New 404 reason message.
Definition IsNotFound (err : option goError) : bool := Code err =? 404.
Definition Conflict (reason message : string) := New 409 reason message.
Definition IsConflict (err : option goError) : bool := Code err =? 409.
Definition InternalServer (reason message : string) := New 500 reason message.
Definition IsInternalServer (err : option goError) : bool := Code err =? 500.
Definition ServiceUnavailable (reason message : string) := New 503 reason message.
Definition IsServiceUnavailable (err : option goError) : bool := Code err =? 503.
Definition GatewayTimeout (reason message : string) := New 504 reason message.
Definition IsGatewayTimeout (err : option goError) : bool := Code err =? 504.
Definition ClientClosed (reason message : string) := New 499 reason message.
Definition IsClientClosed (err : option goError) : bool := Code err =? 499.

(** [errors.Is(err, target)] for an application error as target: some error of
    the chain has its code and reason. *)
Fixpoint errorsIs (target : ApplicationError) (err : goError) : bool :=
  match err with
  | AppErr (mkAppError s c) =>
      (Code_ s =? Code_ (statusOf target)) && String.eqb (Reason_ s) (Reason_ (statusOf target))
      || match c with Some e => errorsIs target e | None => false end
  | OtherErr _ wrapped => existsb (errorsIs target) wrapped
  end.

(** ** Lemmas *)

(** Errors wrapped, level by level, in errors of other types. *)
Inductive wraps (e : goError) : goError → Prop :=
  | wraps_here : wraps e e
  | wraps_in text before x after :
      Forall (λ y, asApplicationError y = None) before → wraps e x →
      wraps e (OtherErr text (before ++ x :: after)).

Lemma asApplicationError_app text before l :
  Forall (λ y, asApplicationError y = None) before →
  asApplicationError (OtherErr text (before ++ l)) = asApplicationError (OtherErr text l).
Proof.
  induction 1 as [|y before Hy _ IH]; [done|].
  rewrite <- IH. cbn. by rewrite Hy.
Qed.

Lemma wraps_as e err : wraps (AppErr e) err → asApplicationError err = Some e.
Proof.
  induction 1 as [|text before x after Hb _ IH]; [done|].
  rewrite asApplicationError_app by done. cbn. by rewrite IH.
Qed.

Lemma wraps_ToHTTP e err : wraps (AppErr e) err → ToHTTP (Some err) = (Code_ (statusOf e), statusOf e).
Proof. intros Hw. unfold ToHTTP, FromError. by rewrite (wraps_as e err Hw). Qed.

Lemma Is_refl e err : wraps (AppErr e) err → Is e (Some err) = true.
Proof. intros Hw. unfold Is. rewrite (wraps_as e err Hw), Z.eqb_refl. apply String.eqb_refl. Qed.

(** ** Properties *)

(** The HTTP response of an application error survives any wrapping: under
    arbitrary layers of other errors (with siblings that hold no application
    error before it) the status code, reason, message and metadata are those
    of the error, attaching a cause changes none of them, and [Is] still
    recognises it. *)
Theorem wrapped_error_response e err cause :
  wraps (AppErr (WithCause e cause)) err →
  ToHTTP (Some err) = (Code_ (statusOf e), statusOf e) ∧ Is e (Some err) = true ∧
  Reason (Some err) = Reason_ (statusOf e) ∧ Message (Some err) = Message_ (statusOf e).
Proof.
  intros Hw. split_and!.
  - by rewrite (wraps_ToHTTP _ _ Hw).
  - by apply (Is_refl (WithCause e cause)).
  - unfold Reason, FromError. by rewrite (wraps_as _ _ Hw).
  - unfold Message, FromError. by rewrite (wraps_as _ _ Hw).
Qed.

(** An error without an application error inside becomes the generic 500
    response: neither its text nor anything it wraps reaches the body. *)
Theorem internal_error_opaque err :
  asApplicationError err = None →
  ToHTTP (Some err) = (UnknownCode, mkStatus UnknownCode UnknownReason UnknownMessage None).
Proof. intros Hn. unfold ToHTTP, FromError. by rewrite Hn. Qed.

(** ** Witnesses *)

Lemma wrapped_error_response_witness :
  fst (ToHTTP (Some (OtherErr "get user" [OtherErr "close rows" [];
         AppErr (WithCause (NotFound "USER_NOT_FOUND" "user not found") (Some (OtherErr "no rows" [])))]))) = 404.
Proof.
  exact (f_equal fst (proj1 (wrapped_error_response (NotFound "USER_NOT_FOUND" "user not found") _
    (Some (OtherErr "no rows" [])) (wraps_in _ "get user" [OtherErr "close rows" []] _ []
      ltac:(by repeat constructor) (wraps_here _))))).
Defined.

Lemma internal_error_opaque_witness :
  Message_ (snd (ToHTTP (Some (OtherErr "password=hunter2" [])))) = "internal error".
Proof. rewrite (internal_error_opaque (OtherErr "password=hunter2" [])); reflexivity. Defined.
