(* ===== verification/ProxyStreamCircuit.v ===== *)
(** * The per-proxy stream circuit breaker

    [backend/internal/service/openai_proxy_stream_circuit.go]: an in-process,
    bounded table that counts stream disconnects per proxy, quarantines a proxy
    that reaches the threshold inside the observation window and lets it back
    when the quarantine expires.

    The mutex serialises [recordFailure], [recordSuccess], [isBlocked] and
    [activeBlockCount]: each is one atomic step on the state [circuit].  A nil
    [*openAIProxyStreamCircuit] is [None]. *)

From S2P Require Import Prelude GoRuntime Domain.
#[local] Open Scope Z_scope.

Definition defaultOpenAIProxyStreamFailureThreshold : Z := 2.
Definition defaultOpenAIProxyStreamFailureWindow : Duration := Minute.
Definition defaultOpenAIProxyStreamQuarantineTTL : Duration := 10 * Minute.
Definition defaultOpenAIProxyStreamCircuitMaxEntries : Z := 4096.
Definition defaultOpenAIProxyStreamFailureCollapse : Duration := 3 * Second.
Definition openAIProxyStreamFailOpenLogInterval : Duration := 5 * Second.

Record openAIProxyStreamCircuitSettings := mkSettings {
  disabled : bool;
  failureThreshold : Z;
  failureWindow : Duration;
  quarantineTTL : Duration;
  collapseInterval : Duration;
  maxEntries : Z;
}.

Record openAIProxyStreamCircuitEntry := mkEntry {
  failureCount : Z;
  windowStart : Time;
  lastFailureAt : Time;
  blockedUntil : Time;
  lastTouched : Time;
}.

Definition zeroEntry : openAIProxyStreamCircuitEntry := mkEntry 0 zeroTime zeroTime zeroTime zeroTime.

Record openAIProxyStreamCircuit := mkCircuit {
  settings : openAIProxyStreamCircuitSettings;
  entries : gmap Z openAIProxyStreamCircuitEntry;
}.

(** The configuration fields read by the resolver. *)
Record circuitConfig := mkCircuitConfig {
  cfgDisabled : bool;
  cfgFailureThreshold : Z;
  cfgWindowSeconds : Z;
  cfgTTLSeconds : Z;
}.

(** [cfg = None] is a nil service or a nil configuration. *)
Definition resolveOpenAIProxyStreamCircuitSettings (cfg : option circuitConfig)
    : openAIProxyStreamCircuitSettings :=
  match cfg with
  | None =>
      mkSettings false defaultOpenAIProxyStreamFailureThreshold defaultOpenAIProxyStreamFailureWindow
        defaultOpenAIProxyStreamQuarantineTTL defaultOpenAIProxyStreamFailureCollapse
        defaultOpenAIProxyStreamCircuitMaxEntries
  | Some cfg =>
      mkSettings (cfgDisabled cfg)
        (if 0 <? cfgFailureThreshold cfg then cfgFailureThreshold cfg
         else defaultOpenAIProxyStreamFailureThreshold)
        (if 0 <? cfgWindowSeconds cfg then wrap64 (cfgWindowSeconds cfg * Second)
         else defaultOpenAIProxyStreamFailureWindow)
        (if 0 <? cfgTTLSeconds cfg then wrap64 (cfgTTLSeconds cfg * Second)
         else defaultOpenAIProxyStreamQuarantineTTL)
        defaultOpenAIProxyStreamFailureCollapse
        defaultOpenAIProxyStreamCircuitMaxEntries
  end.

Definition newOpenAIProxyStreamCircuit (s : openAIProxyStreamCircuitSettings)
    : openAIProxyStreamCircuit :=
  mkCircuit
    (mkSettings (disabled s)
       (if failureThreshold s <=? 0 then defaultOpenAIProxyStreamFailureThreshold else failureThreshold s)
       (if failureWindow s <=? 0 then defaultOpenAIProxyStreamFailureWindow else failureWindow s)
       (if quarantineTTL s <=? 0 then defaultOpenAIProxyStreamQuarantineTTL else quarantineTTL s)
       (if collapseInterval s <? 0 then 0 else collapseInterval s)
       (if maxEntries s <=? 0 then defaultOpenAIProxyStreamCircuitMaxEntries else maxEntries s))
    ∅.

(** The two halves of the eviction test: an observation nobody touched for a
    window, and a quarantine that has run out. *)
Definition staleObservation (window : Duration) (now : Time) (e : openAIProxyStreamCircuitEntry) : bool :=
  IsZero (blockedUntil e) && (window <? Sub now (lastTouched e)).
Definition expiredQuarantine (now : Time) (e : openAIProxyStreamCircuitEntry) : bool :=
  negb (IsZero (blockedUntil e)) && negb (Before now (blockedUntil e)).

(** The eviction loop's running minimum: [oldestProxyID == 0] is its "none yet". *)
Definition oldestStep (acc : Z * Time) (kv : Z * openAIProxyStreamCircuitEntry) : Z * Time :=
  if (fst acc =? 0) || Before (lastTouched (snd kv)) (snd acc)
  then (fst kv, lastTouched (snd kv)) else acc.

Definition ensureCapacityLocked (iter : gmap Z openAIProxyStreamCircuitEntry → list (Z * openAIProxyStreamCircuitEntry))
    (c : openAIProxyStreamCircuit) (now : Time) : openAIProxyStreamCircuit :=
  if zsize (entries c) <? maxEntries (settings c) then c else
  let es := delete_where (λ e, staleObservation (failureWindow (settings c)) now e
                               || expiredQuarantine now e) (entries c) in
  let c := mkCircuit (settings c) es in
  if zsize (entries c) <? maxEntries (settings c) then c else
  let oldestProxyID := fst (foldl oldestStep (0, zeroTime) (iter (entries c))) in
  if 0 <? oldestProxyID then mkCircuit (settings c) (delete oldestProxyID (entries c)) else c.

Definition putEntry (c : openAIProxyStreamCircuit) (proxyID : Z) (e : openAIProxyStreamCircuitEntry)
    : openAIProxyStreamCircuit :=
  mkCircuit (settings c) (<[proxyID := e]> (entries c)).

Definition touch (e : openAIProxyStreamCircuitEntry) (now : Time) : openAIProxyStreamCircuitEntry :=
  mkEntry (failureCount e) (windowStart e) (lastFailureAt e) (blockedUntil e) now.

(** The window roll-over of [recordFailure]. *)
Definition rollWindow (window : Duration) (e : openAIProxyStreamCircuitEntry) (now : Time)
    : openAIProxyStreamCircuitEntry :=
  if IsZero (windowStart e) || Before now (windowStart e) || (window <? Sub now (windowStart e))
  then mkEntry 0 now (lastFailureAt e) zeroTime (lastTouched e)
  else e.

(** The test that folds the failures of one broken connection into one. *)
Definition collapsed (interval : Duration) (e : openAIProxyStreamCircuitEntry) (now : Time) : bool :=
  (0 <? interval) && negb (IsZero (lastFailureAt e))
  && (0 <=? Sub now (lastFailureAt e)) && (Sub now (lastFailureAt e) <? interval).

(** [recordFailure]: the new state, whether this failure tripped the breaker,
    and the end of the quarantine (the zero time if there is none). *)
Definition recordFailure (iter : gmap Z openAIProxyStreamCircuitEntry → list (Z * openAIProxyStreamCircuitEntry))
    (c : option openAIProxyStreamCircuit) (proxyID : Z) (now : Time)
    : option openAIProxyStreamCircuit * (bool * Time) :=
  match c with
  | None => (None, (false, zeroTime))
  | Some c =>
    if disabled (settings c) || (proxyID <=? 0) then (Some c, (false, zeroTime)) else
    let exists_ := bool_decide (is_Some (entries c !! proxyID)) in
    let entry := default zeroEntry (entries c !! proxyID) in
    if exists_ && Before now (blockedUntil entry)
    then (Some (putEntry c proxyID (touch entry now)), (false, blockedUntil entry)) else
    let c := if exists_ then c else ensureCapacityLocked iter c now in
    let entry := rollWindow (failureWindow (settings c)) entry now in
    if collapsed (collapseInterval (settings c)) entry now
    then (Some (putEntry c proxyID (touch entry now)), (false, zeroTime)) else
    let count := wrap64 (failureCount entry + 1) in
    let tripped := failureThreshold (settings c) <=? count in
    let blocked := if tripped then Add now (quarantineTTL (settings c)) else blockedUntil entry in
    let entry := mkEntry count (windowStart entry) now blocked now in
    (Some (putEntry c proxyID entry), (tripped, blocked))
  end.

Definition recordSuccess (c : option openAIProxyStreamCircuit) (proxyID : Z)
    : option openAIProxyStreamCircuit * bool :=
  match c with
  | None => (None, false)
  | Some c =>
    if proxyID <=? 0 then (Some c, false) else
    match entries c !! proxyID with
    | None => (Some c, false)
    | Some _ => (Some (mkCircuit (settings c) (delete proxyID (entries c))), true)
    end
  end.

Definition isBlocked (c : option openAIProxyStreamCircuit) (proxyID : Z) (now : Time)
    : option openAIProxyStreamCircuit * bool :=
  match c with
  | None => (None, false)
  | Some c =>
    if disabled (settings c) || (proxyID <=? 0) then (Some c, false) else
    match entries c !! proxyID with
    | None => (Some c, false)
    | Some e =>
      if IsZero (blockedUntil e) then (Some c, false) else
      if negb (Before now (blockedUntil e))
      then (Some (mkCircuit (settings c) (delete proxyID (entries c))), false)
      else (Some c, true)
    end
  end.

Definition activeBlockCount (c : option openAIProxyStreamCircuit) (now : Time) : Z :=
  match c with
  | None => 0
  | Some c =>
    if disabled (settings c) then 0 else
    zsize (filter (λ kv, negb (IsZero (blockedUntil (snd kv))) && Before now (blockedUntil (snd kv)) = true)
             (entries c))
  end.

Definition openAIProxyStreamCircuitProxyID (account : option Account) : Z * bool :=
  match account with
  | None => (0, false)
  | Some a =>
    if negb (eqs (Platform a) PlatformOpenAI) then (0, false) else
    match ProxyID a with
    | None => (0, false)
    | Some p => if p <=? 0 then (0, false) else (p, true)
    end
  end.

(** The classes of stream error the disconnect handler distinguishes. *)
Inductive streamError := Canceled | DeadlineExceeded | OtherError.

(** [recordOpenAIProxyStreamDisconnect] up to its log line; [streamErr = None]
    is a nil error. *)
Definition recordOpenAIProxyStreamDisconnect
    (iter : gmap Z openAIProxyStreamCircuitEntry → list (Z * openAIProxyStreamCircuitEntry))
    (c : option openAIProxyStreamCircuit) (account : option Account)
    (streamErr : option streamError) (now : Time) : option openAIProxyStreamCircuit :=
  let '(proxyID, ok) := openAIProxyStreamCircuitProxyID account in
  if negb ok then c else
  match streamErr with
  | None | Some Canceled | Some DeadlineExceeded => c
  | Some OtherError => fst (recordFailure iter c proxyID now)
  end.

Definition clearOpenAIProxyStreamDisconnect (c : option openAIProxyStreamCircuit) (account : option Account)
    : option openAIProxyStreamCircuit :=
  let '(proxyID, ok) := openAIProxyStreamCircuitProxyID account in
  if negb ok then c else fst (recordSuccess c proxyID).

(** [bypassed] is the fail-open mark the second scheduling attempt carries in
    its context. *)
Definition isOpenAIProxyStreamQuarantined (c : option openAIProxyStreamCircuit) (bypassed : bool)
    (account : option Account) (now : Time) : option openAIProxyStreamCircuit * bool :=
  let '(proxyID, ok) := openAIProxyStreamCircuitProxyID account in
  if negb ok then (c, false) else
  if bypassed then (c, false) else
  isBlocked c proxyID now.

(** The rate limit of the fail-open warning: [last] is the atomic cell with the
    time of the last warning; the answer says whether this call logs. *)
Definition logOpenAIProxyStreamQuarantineFailOpen (last : Z) (now : Time) : Z * bool :=
  let now := UnixNano now in
  if wrap64 (now - last) <? openAIProxyStreamFailOpenLogInterval then (last, false) else (now, true).

(** ** Capacity *)

Section capacity.
Context (iter : gmap Z openAIProxyStreamCircuitEntry → list (Z * openAIProxyStreamCircuitEntry))
        `{!RangeOrder iter}.

Definition positive_ids (es : gmap Z openAIProxyStreamCircuitEntry) : Prop :=
  ∀ k, is_Some (es !! k) → 0 < k.

Definition lastTouchedOf (kv : Z * openAIProxyStreamCircuitEntry) : Time := lastTouched (snd kv).

(** The running minimum of the code, with its numeric "none yet", is the
    generic oldest-entry fold as long as the identifiers are positive. *)
Definition minimum_of (acc : Z * Time) (best : option (Z * openAIProxyStreamCircuitEntry)) : Prop :=
  match best with
  | None => fst acc = 0
  | Some kv => acc = (fst kv, lastTouchedOf kv) ∧ 0 < fst kv
  end.

Lemma oldestStep_minimum l acc best :
  (∀ kv, kv ∈ l → 0 < fst kv) → minimum_of acc best →
  minimum_of (foldl oldestStep acc l) (oldest_from lastTouchedOf best l).
Proof.
  revert acc best. induction l as [|kv l IH]; intros acc best Hpos Hm; simpl; [done|].
  apply IH; [by intros; apply Hpos, list_elem_of_further|].
  assert (0 < fst kv) by (apply Hpos, list_elem_of_here).
  unfold oldestStep, older. destruct best as [b|]; simpl in Hm.
  - destruct Hm as [-> Hb]. simpl. rewrite (proj2 (Z.eqb_neq _ _)) by lia. simpl.
    unfold Before. fold (lastTouchedOf kv).
    destruct (lastTouchedOf kv <? lastTouchedOf b) eqn:E; split; done || lia.
  - rewrite Hm. simpl. by split.
Qed.

(** What one run of the eviction keeps and drops. *)
Lemma ensureCapacityLocked_spec c now :
  positive_ids (entries c) → 0 < maxEntries (settings c) →
  zsize (entries c) <= maxEntries (settings c) →
  let c' := ensureCapacityLocked iter c now in
  settings c' = settings c ∧
  zsize (entries c') < maxEntries (settings c) ∧
  (∀ k e, entries c' !! k = Some e → entries c !! k = Some e) ∧
  (∀ k e, entries c !! k = Some e → entries c' !! k = None →
     maxEntries (settings c) <= zsize (entries c) ∧
     (staleObservation (failureWindow (settings c)) now e || expiredQuarantine now e = true ∨
      ∀ k' e', entries c' !! k' = Some e' → lastTouched e <= lastTouched e')).
Proof.
  intros Hpos Hmax Hsz. unfold ensureCapacityLocked.
  destruct (zsize (entries c) <? maxEntries (settings c)) eqn:E1; zbool.
  { split_and!; [done | lia | done | naive_solver]. }
  set (P := λ e, _ || _). set (es := delete_where P (entries c)). cbn [settings entries].
  assert (Hes : ∀ k e, es !! k = Some e ↔ entries c !! k = Some e ∧ P e = false).
  { intros k e. apply lookup_delete_where. }
  assert (Hsub : ∀ k e, es !! k = Some e → entries c !! k = Some e).
  { intros k e He. by apply Hes in He as []. }
  assert (Hdrop : ∀ k e, entries c !! k = Some e → es !! k = None → P e = true).
  { intros k e He Hn. destruct (P e) eqn:EP; [done|].
    by rewrite (proj2 (Hes k e)) in Hn. }
  destruct (zsize es <? maxEntries (settings c)) eqn:E2; zbool; cbn [settings entries].
  { split_and!; [done | lia | done |]. intros k e He Hn. split; [lia|]. left. by eapply Hdrop. }
  assert (Hpes : ∀ kv, kv ∈ iter es → 0 < fst kv).
  { intros [k e] Hin. apply (elem_of_range iter) in Hin. apply Hpos. eauto. }
  pose proof (oldestStep_minimum (iter es) (0, zeroTime) None Hpes eq_refl) as Hm.
  destruct (oldest_from lastTouchedOf None (iter es)) as [[k0 e0]|] eqn:Eo; simpl in Hm.
  2:{ apply oldest_from_None in Eo as [_ Hn%(range_nil iter)]. rewrite Hn, zsize_empty in E2. lia. }
  destruct Hm as [-> Hk0]. simpl. rewrite (proj2 (Z.ltb_lt _ _)) by done. cbn [settings entries].
  destruct (oldest_from_spec _ _ _ _ Eo) as ([?|Hin] & Hall & _); [done|].
  apply (elem_of_range iter) in Hin as Hk. split_and!; [done | | |].
  - rewrite zsize_delete_Some by eauto. pose proof (zsize_delete_where P (entries c)).
    fold es in H. lia.
  - intros k e [_ He]%lookup_delete_Some. by apply Hsub.
  - intros k e He Hn. split; [lia|]. apply lookup_delete_None in Hn as [->|Hn].
    + destruct (es !! k) as [e1|] eqn:Ek; [|left; by eapply Hdrop].
      right. intros k' e' [_ Hk']%lookup_delete_Some.
      apply Hsub in Ek as Ek'. rewrite He in Ek'. injection Ek' as ->.
      apply (elem_of_range iter) in Hk'. injection Hk as ->. exact (Hall _ Hk').
    + left. by eapply Hdrop.
Qed.
End capacity.

(** ** Invariant *)

Record wf (c : openAIProxyStreamCircuit) : Prop := {
  wf_threshold : 0 < failureThreshold (settings c);
  wf_window : 0 < failureWindow (settings c);
  wf_ttl : 0 < quarantineTTL (settings c);
  wf_collapse : 0 <= collapseInterval (settings c);
  wf_max : 0 < maxEntries (settings c);
  wf_size : zsize (entries c) <= maxEntries (settings c);
  wf_ids : positive_ids (entries c);
}.

(** One operation of the circuit, at any time and for any proxy. *)
Inductive step : openAIProxyStreamCircuit → openAIProxyStreamCircuit → Prop :=
  | step_failure iter c proxyID now c' r :
      RangeOrder iter → recordFailure iter (Some c) proxyID now = (Some c', r) → step c c'
  | step_success c proxyID c' r :
      recordSuccess (Some c) proxyID = (Some c', r) → step c c'
  | step_isBlocked c proxyID now c' r :
      isBlocked (Some c) proxyID now = (Some c', r) → step c c'.

Definition initial (c : openAIProxyStreamCircuit) : Prop := ∃ s, c = newOpenAIProxyStreamCircuit s.

Lemma initial_wf c : initial c → wf c.
Proof.
  intros [s ->]. split; cbn [settings entries newOpenAIProxyStreamCircuit failureThreshold failureWindow
    quarantineTTL collapseInterval maxEntries]; unfold defaultOpenAIProxyStreamFailureThreshold,
    defaultOpenAIProxyStreamFailureWindow, defaultOpenAIProxyStreamQuarantineTTL,
    defaultOpenAIProxyStreamCircuitMaxEntries, Minute, Second; try (case_match; zbool; lia).
  - rewrite zsize_empty. case_match; zbool; lia.
  - intros k [e He]. by rewrite lookup_empty in He.
Qed.

Lemma putEntry_wf c k e :
  wf c → 0 < k → (is_Some (entries c !! k) ∨ zsize (entries c) < maxEntries (settings c)) →
  wf (putEntry c k e).
Proof.
  intros [] Hk Hroom. split; cbn [settings entries putEntry]; try done.
  - destruct Hroom as [Hs|Hlt]; [by rewrite zsize_insert_Some|].
    pose proof (zsize_insert_le (entries c) k e). lia.
  - intros k' [e' He']. destruct (decide (k = k')) as [<-|]; [done|].
    rewrite lookup_insert_ne in He' by done. eauto.
Qed.

Lemma delete_wf c k : wf c → wf (mkCircuit (settings c) (delete k (entries c))).
Proof.
  intros []. split; cbn [settings entries]; try done.
  - pose proof (zsize_delete_le (entries c) k). lia.
  - intros k' [e [_ He]%lookup_delete_Some]. eauto.
Qed.

Lemma ensureCapacityLocked_wf iter `{!RangeOrder iter} c now :
  wf c → wf (ensureCapacityLocked iter c now).
Proof.
  intros Hwf. pose proof Hwf as [].
  destruct (ensureCapacityLocked_spec iter c now) as (Hset & Hlt & Hsub & _); [done..|].
  split; rewrite ?Hset; try done; [lia|].
  intros k [e He]. apply Hsub in He. eauto.
Qed.

Lemma step_wf c c' : wf c → step c c' → wf c'.
Proof.
  intros Hwf Hs. revert Hwf.
  destruct Hs as [iter c0 k now c0' r Hiter Hrun|c0 k c0' r Hrun|c0 k now c0' r Hrun]; intros Hwf;
    unfold recordFailure, recordSuccess, isBlocked in Hrun.
  - destruct (disabled (settings c0) || (k <=? 0)) eqn:E; [by simplify_eq/=|]. zbool.
    destruct (entries c0 !! k) as [e|] eqn:Ek.
    + rewrite bool_decide_true in Hrun by eauto. cbn [andb default from_option id] in Hrun.
      repeat case_match; simplify_eq; apply putEntry_wf; eauto.
    + rewrite bool_decide_false in Hrun by apply is_Some_None. cbn [andb default] in Hrun.
      pose proof (ensureCapacityLocked_wf iter c0 now Hwf) as Hwf'.
      destruct (ensureCapacityLocked_spec iter c0 now) as (Hset & Hlt & _); [apply Hwf..|].
      repeat case_match; simplify_eq; apply putEntry_wf; try done; right; by rewrite Hset.
  - repeat case_match; simplify_eq; try done. by apply delete_wf.
  - repeat case_match; simplify_eq; try done. by apply delete_wf.
Qed.

Lemma reachable_wf c : reachable initial step c → wf c.
Proof. apply reachable_invariant; eauto using initial_wf, step_wf. Qed.

(** ** Counting a burst of failures *)

(** The failures of [proxyID] at the times [ts], one after the other; the
    answers say which of them tripped the breaker. *)
Fixpoint failures (iter : gmap Z openAIProxyStreamCircuitEntry → list (Z * openAIProxyStreamCircuitEntry))
    (c : option openAIProxyStreamCircuit) (proxyID : Z) (ts : list Time)
    : option openAIProxyStreamCircuit * list bool :=
  match ts with
  | [] => (c, [])
  | t :: ts =>
      let '(c, (tripped, _)) := recordFailure iter c proxyID t in
      let '(c, rs) := failures iter c proxyID ts in
      (c, tripped :: rs)
  end.

(** Failures after the first one of a window [t0]: far enough apart not to be
    folded together, and all inside the window. *)
Fixpoint spaced (s : openAIProxyStreamCircuitSettings) (t0 prev : Time) (ts : list Time) : Prop :=
  match ts with
  | [] => True
  | t :: ts => prev + collapseInterval s <= t ∧ t <= t0 + failureWindow s ∧ spaced s t0 t ts
  end.

(** The settings are inside the range of their machine types. *)
Record in_range (s : openAIProxyStreamCircuitSettings) : Prop := {
  ir_threshold : failureThreshold s <= maxInt64;
  ir_window : failureWindow s < maxInt64;
  ir_collapse : collapseInterval s <= maxInt64;
}.

(** The entry of a proxy that failed [k] times in the window [t0], last at [t]. *)
Definition counted (s : openAIProxyStreamCircuitSettings) (k : Z) (t0 t : Time)
    : openAIProxyStreamCircuitEntry :=
  mkEntry k t0 t (if failureThreshold s <=? k then t + quarantineTTL s else zeroTime) t.

Lemma counted_below s k t0 t :
  k < failureThreshold s → counted s k t0 t = mkEntry k t0 t zeroTime t.
Proof. intros. unfold counted. by rewrite (proj2 (Z.leb_gt (failureThreshold s) k)) by lia. Qed.

Lemma not_collapsed s k t0 t t' :
  in_range s → t + collapseInterval s <= t' → collapsed (collapseInterval s) (mkEntry k t0 t zeroTime t) t' = false.
Proof.
  intros [] Hgap. unfold collapsed. cbn [lastFailureAt]. apply not_true_iff_false.
  intros Hc. zbool. unfold Sub, maxInt64, minInt64 in *. lia.
Qed.

Lemma rollWindow_inside s k t0 t t' :
  in_range s → 0 < failureWindow s → 0 < t0 <= t' → t' <= t0 + failureWindow s →
  rollWindow (failureWindow s) (mkEntry k t0 t zeroTime t) t' = mkEntry k t0 t zeroTime t.
Proof.
  intros [] Hw Ht Hwin. unfold rollWindow. cbn [windowStart]. unfold_time.
  rewrite (proj2 (Z.eqb_neq t0 0)), (proj2 (Z.ltb_ge t' t0)) by lia.
  rewrite Sub_gtb by (unfold maxInt64, minInt64 in *; lia).
  by rewrite (proj2 (Z.ltb_ge _ (t' - t0))) by lia.
Qed.

Lemma tracked_failure iter c proxyID k t0 t t' :
  wf c → in_range (settings c) → disabled (settings c) = false → 0 < proxyID →
  entries c !! proxyID = Some (counted (settings c) k t0 t) →
  0 <= k < failureThreshold (settings c) → 0 < t0 <= t →
  t + collapseInterval (settings c) <= t' → t' <= t0 + failureWindow (settings c) →
  recordFailure iter (Some c) proxyID t' =
    (Some (putEntry c proxyID (counted (settings c) (k + 1) t0 t')),
     (failureThreshold (settings c) <=? k + 1,
      if failureThreshold (settings c) <=? k + 1 then t' + quarantineTTL (settings c) else zeroTime)).
Proof.
  intros [] Hir Hd Hp He Hk Ht Hgap Hwin. rewrite counted_below in He by lia. unfold recordFailure.
  rewrite Hd, He, (proj2 (Z.leb_gt proxyID 0)) by lia. cbn [orb default from_option id].
  rewrite bool_decide_true by eauto. cbn [blockedUntil andb].
  replace (Before t' zeroTime) with false by (symmetry; unfold_time; apply Z.ltb_ge; lia).
  rewrite rollWindow_inside by (done || lia).
  rewrite not_collapsed by done. cbn [failureCount windowStart blockedUntil lastFailureAt].
  destruct Hir. rewrite wrap64_id by (unfold in_int64, maxInt64, minInt64 in *; lia). done.
Qed.

Lemma fresh_failure iter `{!RangeOrder iter} c proxyID t :
  wf c → in_range (settings c) → disabled (settings c) = false → 0 < proxyID →
  entries c !! proxyID = None → 0 < t →
  ∃ c', wf c' ∧ settings c' = settings c ∧
    entries c' !! proxyID = Some (counted (settings c) 1 t t) ∧
    recordFailure iter (Some c) proxyID t =
      (Some c', (failureThreshold (settings c) <=? 1,
         if failureThreshold (settings c) <=? 1 then t + quarantineTTL (settings c) else zeroTime)).
Proof.
  intros Hwf [] Hd Hp He Ht. unfold recordFailure.
  rewrite Hd, He, (proj2 (Z.leb_gt proxyID 0)) by lia.
  rewrite bool_decide_false by apply is_Some_None. cbn [orb andb default].
  pose proof (ensureCapacityLocked_wf iter c t Hwf) as Hwf'.
  destruct (ensureCapacityLocked_spec iter c t) as (Hset & Hlt & _); [apply Hwf..|].
  set (c1 := ensureCapacityLocked iter c t) in *. rewrite Hset.
  unfold rollWindow, zeroEntry. cbn [windowStart lastFailureAt lastTouched].
  change (IsZero zeroTime) with true. cbn [orb]. unfold collapsed. cbn [lastFailureAt].
  change (IsZero zeroTime) with true. cbn [negb]. rewrite andb_false_r. cbn [andb failureCount windowStart blockedUntil].
  change (wrap64 (0 + 1)) with 1.
  exists (putEntry c1 proxyID (counted (settings c) 1 t t)). split_and!; [|done|apply lookup_insert_eq|done].
  apply putEntry_wf; [done..|]. right. by rewrite Hset.
Qed.

Lemma burst_counts iter c proxyID ts t0 t k n :
  wf c → in_range (settings c) → disabled (settings c) = false → 0 < proxyID →
  entries c !! proxyID = Some (counted (settings c) k t0 t) →
  0 <= k → 0 < t0 <= t → spaced (settings c) t0 t ts →
  length ts = S n → k + Z.of_nat (S n) = failureThreshold (settings c) →
  ∃ c', settings c' = settings c ∧
    entries c' !! proxyID = Some (counted (settings c) (failureThreshold (settings c)) t0 (List.last ts t)) ∧
    failures iter (Some c) proxyID ts = (Some c', repeat false n ++ [true]).
Proof.
  revert c t k n. induction ts as [|t' ts IH]; intros c t k n Hwf Hir Hd Hp He Hk Ht Hs Hlen Hn; [done|].
  destruct Hs as (Hgap & Hwin & Hs). simpl in Hlen. injection Hlen as Hlen.
  pose proof (wf_collapse c Hwf).
  cbn [failures]. rewrite (tracked_failure iter c proxyID k t0 t t') by (done || lia).
  destruct n as [|n].
  - destruct ts; [|done]. rewrite (proj2 (Z.leb_le _ (k + 1))) by lia.
    exists (putEntry c proxyID (counted (settings c) (k + 1) t0 t')). split_and!; [done| |done].
    cbn. rewrite lookup_insert_eq. do 2 f_equal. lia.
  - rewrite (proj2 (Z.leb_gt _ (k + 1))) by lia.
    destruct (IH (putEntry c proxyID (counted (settings c) (k + 1) t0 t')) t' (k + 1) n)
      as (c' & Hset & Hc' & Hf); cbn [settings entries putEntry];
      try (done || lia).
    + apply putEntry_wf; eauto.
    + apply lookup_insert_eq.
    + exists c'. cbn [settings putEntry] in Hset, Hc'. split_and!; [done| |].
      * by rewrite last_cons_default.
      * by rewrite Hf.
Qed.

Lemma isBlocked_counted c proxyID t0 t now :
  disabled (settings c) = false → 0 < proxyID → 0 < t → 0 < quarantineTTL (settings c) →
  entries c !! proxyID = Some (counted (settings c) (failureThreshold (settings c)) t0 t) →
  snd (isBlocked (Some c) proxyID now) = (now <? t + quarantineTTL (settings c)).
Proof.
  intros Hd Hp Ht Httl He. unfold isBlocked.
  rewrite Hd, He, (proj2 (Z.leb_gt proxyID 0)) by lia. cbn [orb].
  unfold counted. cbn [blockedUntil]. rewrite Z.leb_refl. unfold_time.
  rewrite (proj2 (Z.eqb_neq _ 0)) by lia.
  by destruct (now <? t + quarantineTTL (settings c)).
Qed.

(** ** Properties *)

(** C40: in every reachable circuit the table holds at most [maxEntries]
    proxies, all with a positive identifier. *)
Theorem circuit_bounded c :
  reachable initial step c →
  zsize (entries c) <= maxEntries (settings c) ∧ positive_ids (entries c).
Proof. intros Hr%reachable_wf. split; apply Hr. Qed.

Lemma spaced_last s t0 prev ts :
  0 <= collapseInterval s → spaced s t0 prev ts → prev <= List.last ts prev.
Proof.
  intros Hc. revert prev. induction ts as [|t ts IH]; intros prev; cbn [spaced]; [simpl; lia|].
  intros (Hgap & _ & Hs).
  specialize (IH t Hs). rewrite last_cons_default. lia.
Qed.

(** A proxy with no record that fails [failureThreshold] times, far enough
    apart to count separately and inside one window, trips the breaker at the
    last of these failures and at none before; it is then quarantined exactly
    until the quarantine time after that failure. *)
Theorem circuit_burst_trips iter `{!RangeOrder iter} c proxyID t0 ts :
  reachable initial step c → in_range (settings c) →
  disabled (settings c) = false → 0 < proxyID → entries c !! proxyID = None →
  0 < t0 → spaced (settings c) t0 t0 ts →
  Z.of_nat (length (t0 :: ts)) = failureThreshold (settings c) →
  ∃ c', failures iter (Some c) proxyID (t0 :: ts)
          = (Some c', repeat false (length ts) ++ [true]) ∧
        ∀ now, snd (isBlocked (Some c') proxyID now)
               = (now <? List.last ts t0 + quarantineTTL (settings c)).
Proof.
  intros Hwf%reachable_wf Hir Hd Hp He Ht Hs Hlen.
  destruct (fresh_failure iter c proxyID t0) as (c1 & Hwf1 & Hset1 & He1 & Hr1); [done..|].
  cbn [failures]. rewrite Hr1. pose proof (wf_ttl c Hwf).
  destruct ts as [|t1 ts].
  - assert (Hth : failureThreshold (settings c) = 1) by (simpl in Hlen; lia).
    rewrite Hth. exists c1. split; [done|]. intros now. simpl. rewrite <- Hset1.
    eapply isBlocked_counted; rewrite ?Hset1; try done. by rewrite Hth.
  - change (length (t0 :: t1 :: ts)) with (S (S (length ts))) in Hlen.
    rewrite (proj2 (Z.leb_gt _ 1)) by lia.
    destruct (burst_counts iter c1 proxyID (t1 :: ts) t0 t0 1 (length ts)) as (c' & Hset & Hc' & Hf);
      rewrite ?Hset1; try (done || lia).
    rewrite Hf. exists c'. split; [done|]. intros now. rewrite <- Hset1, <- Hset.
    pose proof (spaced_last _ _ _ _ (wf_collapse c Hwf) Hs).
    eapply isBlocked_counted; rewrite ?Hset, ?Hset1; try done; [lia|].
    rewrite Hc', Hset1. done.
Qed.

Definition circuit_example : openAIProxyStreamCircuit :=
  newOpenAIProxyStreamCircuit (resolveOpenAIProxyStreamCircuitSettings None).

Lemma circuit_example_reachable : reachable initial step circuit_example.
Proof. apply reach_init. by eexists. Qed.

Lemma circuit_bounded_witness : zsize (entries circuit_example) <= 4096 ∧ positive_ids (entries circuit_example).
Proof. apply (circuit_bounded circuit_example). exact circuit_example_reachable. Defined.

Lemma circuit_burst_trips_witness :
  ∃ c', failures map_to_list (Some circuit_example) 7 [100 * Second; 104 * Second]
          = (Some c', [false; true]) ∧
        ∀ now, snd (isBlocked (Some c') 7 now) = (now <? 704 * Second).
Proof.
  apply (circuit_burst_trips map_to_list circuit_example 7 (100 * Second) [104 * Second]);
    [exact circuit_example_reachable | split; vm_compute; congruence | vm_compute; reflexivity ..
    | vm_compute; repeat split; congruence | vm_compute; reflexivity].
Defined.

(** a failure of one proxy leaves the record of every other proxy alone,
    except when the table is full and the proxy is new: then a dropped record
    was an untouched observation, an expired quarantine, or the least recently
    touched record. *)
Theorem circuit_isolation iter `{!RangeOrder iter} c p q now c' r :
  reachable initial step c → q ≠ p →
  recordFailure iter (Some c) p now = (Some c', r) →
  entries c' !! q = entries c !! q ∨
  (entries c !! p = None ∧ maxEntries (settings c) <= zsize (entries c) ∧ entries c' !! q = None ∧
   ∃ e, entries c !! q = Some e ∧
     (staleObservation (failureWindow (settings c)) now e || expiredQuarantine now e = true ∨
      ∀ k' e', k' ≠ p → entries c' !! k' = Some e' → lastTouched e <= lastTouched e')).
Proof.
  intros Hwf%reachable_wf Hqp. unfold recordFailure.
  destruct (disabled (settings c) || (p <=? 0)) eqn:E; [intros [= <- _]; by left|]. zbool.
  destruct (entries c !! p) as [e|] eqn:Ep.
  - rewrite bool_decide_true by eauto. cbn [andb default from_option id].
    intros Hrun. left. repeat case_match; simplify_eq; cbn; by rewrite lookup_insert_ne.
  - rewrite bool_decide_false by apply is_Some_None. cbn [andb default].
    destruct (ensureCapacityLocked_spec iter c now) as (Hset & _ & Hsub & Hev); [apply Hwf..|].
    set (c1 := ensureCapacityLocked iter c now) in *.
    intros Hrun.
    assert (Hq : ∀ k, k ≠ p → entries c' !! k = entries c1 !! k).
    { intros k Hk. repeat case_match; simplify_eq; cbn; by rewrite lookup_insert_ne. }
    rewrite (Hq q) by done. destruct (entries c !! q) as [e|] eqn:Eq.
    + destruct (entries c1 !! q) as [e1|] eqn:Eq1; [left; apply Hsub in Eq1; congruence|].
      destruct (Hev q e Eq Eq1) as [Hfull Hwhy]. right. split_and!; [done..|].
      exists e. split; [done|]. destruct Hwhy as [?|Hold]; [by left|right].
      intros k' e' Hk'. rewrite Hq by done. apply Hold.
    + left. destruct (entries c1 !! q) as [e1|] eqn:Eq1; [|done]. apply Hsub in Eq1. congruence.
Qed.

Lemma circuit_isolation_witness :
  let r := recordFailure map_to_list (Some circuit_example) 7 (100 * Second) in
  ∃ c', fst r = Some c' ∧
    (entries c' !! 8 = entries circuit_example !! 8 ∨
     (entries circuit_example !! 7 = None ∧ 4096 <= zsize (entries circuit_example) ∧ entries c' !! 8 = None ∧
      ∃ e, entries circuit_example !! 8 = Some e ∧
        (staleObservation (60 * Second) (100 * Second) e || expiredQuarantine (100 * Second) e = true ∨
         ∀ k' e', k' ≠ 7 → entries c' !! k' = Some e' → lastTouched e <= lastTouched e'))).
Proof.
  eexists. split; [vm_compute; reflexivity|].
  eapply (circuit_isolation map_to_list circuit_example 7 8 (100 * Second));
    [exact circuit_example_reachable | done | vm_compute; reflexivity].
Defined.
