(* ===== verification/InvalidAuthLimiter.v ===== *)
(** * The limiter of invalid API-key attempts

    [backend/internal/service/invalid_auth_abuse_limiter.go]: per-client failure
    counters in sixteen mutex-protected shards, a global bound on the number of
    tracked clients, and one overflow counter for the clients that do not fit.

    The code holds one shard's mutex (or the overflow's) at a time and keeps its
    totals in atomics, so calls interleave at the boundaries of these critical
    sections.  Each critical section is one definition ([claimCleanup],
    [sweepShard], [checkShard], [recordShard], [recordOverflow],
    [checkOverflow]); [check] and [record] compose them as the code does, and
    the relation [step] lets any section of any call run at any moment.  The
    atomics are also read by sections of other shards that run at the same
    time: the release of an expired record ([dropExpired]) is a step of its own,
    so that a section of another shard can take the freed capacity in between.
    The compare-and-swap loop of [reserveEntry] is its successful iteration. *)

From S2P Require Import Prelude GoRuntime.
#[local] Open Scope Z_scope.

Definition invalidAuthAbuseShardCount : Z := 16.

Record invalidAuthAbuseEntry := mkEntry {
  failures : Z;
  windowStart : Time;
  blockedUntil : Time;
}.

(** The overflow record has the same three fields. *)
Definition invalidAuthOverflow := invalidAuthAbuseEntry.
Definition zeroOverflow : invalidAuthOverflow := mkEntry 0 zeroTime zeroTime.

Record limits := mkLimits {
  threshold : Z;
  window : Duration;
  block : Duration;
  capacity : Z;
}.

(** The atomic cells. *)
Record atomics := mkAtomics {
  tracked : Z;
  recorded : Z;
  blocked : Z;
  rejected : Z;
  expired : Z;
  overflowed : Z;
  globalBlocked : Z;
  cleanupNext : Z;
  cleanupCursor : Z;
}.

Record invalidAuthAbuseLimiter := mkLimiter {
  lim : limits;
  shards : list (gmap string invalidAuthAbuseEntry);
  overflow : invalidAuthOverflow;
  cells : atomics;
}.

(** [atomic.Add] on the signed total and on the unsigned counters. *)
Definition addTracked (d : Z) (a : atomics) : atomics :=
  mkAtomics (wrap64 (tracked a + d)) (recorded a) (blocked a) (rejected a) (expired a)
    (overflowed a) (globalBlocked a) (cleanupNext a) (cleanupCursor a).
Definition addRecorded (a : atomics) : atomics :=
  mkAtomics (tracked a) (wrapU64 (recorded a + 1)) (blocked a) (rejected a) (expired a)
    (overflowed a) (globalBlocked a) (cleanupNext a) (cleanupCursor a).
Definition addBlocked (a : atomics) : atomics :=
  mkAtomics (tracked a) (recorded a) (wrapU64 (blocked a + 1)) (rejected a) (expired a)
    (overflowed a) (globalBlocked a) (cleanupNext a) (cleanupCursor a).
Definition addRejected (a : atomics) : atomics :=
  mkAtomics (tracked a) (recorded a) (blocked a) (wrapU64 (rejected a + 1)) (expired a)
    (overflowed a) (globalBlocked a) (cleanupNext a) (cleanupCursor a).
Definition addExpired (n : Z) (a : atomics) : atomics :=
  mkAtomics (tracked a) (recorded a) (blocked a) (rejected a) (wrapU64 (expired a + n))
    (overflowed a) (globalBlocked a) (cleanupNext a) (cleanupCursor a).
Definition addOverflowed (a : atomics) : atomics :=
  mkAtomics (tracked a) (recorded a) (blocked a) (rejected a) (expired a)
    (wrapU64 (overflowed a + 1)) (globalBlocked a) (cleanupNext a) (cleanupCursor a).
Definition addGlobalBlocked (a : atomics) : atomics :=
  mkAtomics (tracked a) (recorded a) (blocked a) (rejected a) (expired a)
    (overflowed a) (wrapU64 (globalBlocked a + 1)) (cleanupNext a) (cleanupCursor a).
Definition setCleanup (next cursor : Z) (a : atomics) : atomics :=
  mkAtomics (tracked a) (recorded a) (blocked a) (rejected a) (expired a)
    (overflowed a) (globalBlocked a) next cursor.

Definition withCells (l : invalidAuthAbuseLimiter) (f : atomics → atomics) : invalidAuthAbuseLimiter :=
  mkLimiter (lim l) (shards l) (overflow l) (f (cells l)).

Record abuseConfig := mkAbuseConfig {
  Enabled : bool;
  Threshold : Z;
  WindowSeconds : Z;
  BlockSeconds : Z;
  Capacity : Z;
}.

(** [cfg = None] is a nil configuration, and the answer [None] a nil limiter. *)
Definition newInvalidAuthAbuseLimiter (cfg : option abuseConfig) : option invalidAuthAbuseLimiter :=
  match cfg with
  | None => None
  | Some c =>
    if negb (Enabled c) then None else
    if (Threshold c <=? 0) || (WindowSeconds c <=? 0) || (BlockSeconds c <=? 0) || (Capacity c <=? 0)
    then None else
    Some (mkLimiter
      (mkLimits (Threshold c) (wrap64 (WindowSeconds c * Second)) (wrap64 (BlockSeconds c * Second)) (Capacity c))
      (repeat ∅ (Z.to_nat invalidAuthAbuseShardCount)) zeroOverflow
      (mkAtomics 0 0 0 0 0 0 0 0 0))
  end.

(** FNV-1a over the bytes of the key, modulo the number of shards. *)
Definition fnvStep (hash : Z) (a : ascii) : Z :=
  wrapU32 (Z.lxor hash (Z.of_N (byteOf a)) * 16777619).
Definition shard (clientKey : string) : nat :=
  Z.to_nat (foldl fnvStep 2166136261 (String.list_ascii_of_string clientKey) mod invalidAuthAbuseShardCount).

Definition entryExpired (l : limits) (e : invalidAuthAbuseEntry) (now : Time) : bool :=
  negb (After (blockedUntil e) now) && negb (After (windowStart e) now)
  && negb (Before now (Add (windowStart e) (window l))).

Definition getShard (l : invalidAuthAbuseLimiter) (i : nat) : gmap string invalidAuthAbuseEntry :=
  default ∅ (shards l !! i).
Definition putShard (l : invalidAuthAbuseLimiter) (i : nat) (m : gmap string invalidAuthAbuseEntry)
    : invalidAuthAbuseLimiter :=
  mkLimiter (lim l) (<[i := m]> (shards l)) (overflow l) (cells l).

(** [reserveEntry]: take one unit of the global capacity, if there is one. *)
Definition reserveEntry (l : invalidAuthAbuseLimiter) : option invalidAuthAbuseLimiter :=
  if capacity (lim l) <=? tracked (cells l) then None
  else Some (withCells l (addTracked 1)).

(** [maybeCleanupAtCapacity], first half: at capacity, at most once per 100 ms,
    one caller takes the next shard. *)
Definition claimCleanup (l : invalidAuthAbuseLimiter) (now : Time) : invalidAuthAbuseLimiter * option nat :=
  if tracked (cells l) <? capacity (lim l) then (l, None) else
  if UnixNano now <? cleanupNext (cells l) then (l, None) else
  let cursor := wrapU32 (cleanupCursor (cells l) + 1) in
  (withCells l (setCleanup (UnixNano (Add now (100 * Millisecond))) cursor),
   Some (Z.to_nat (wrapU32 (cursor - 1) mod invalidAuthAbuseShardCount))).

(** Second half: the sweep of that shard, under its mutex. *)
Definition sweepShard (l : invalidAuthAbuseLimiter) (i : nat) (now : Time) : invalidAuthAbuseLimiter :=
  let m := getShard l i in
  let m' := delete_where (λ e, entryExpired (lim l) e now) m in
  let n := zsize m - zsize m' in
  withCells (putShard l i m') (λ a, addExpired n (addTracked (- n) a)).

Definition maybeCleanupAtCapacity (l : invalidAuthAbuseLimiter) (now : Time) : invalidAuthAbuseLimiter :=
  match claimCleanup l now with
  | (l, None) => l
  | (l, Some i) => sweepShard l i now
  end.

(** The removal of an expired record that both critical sections begin with. *)
Definition dropExpired (l : invalidAuthAbuseLimiter) (clientKey : string) (now : Time)
    : invalidAuthAbuseLimiter * option invalidAuthAbuseEntry :=
  let m := getShard l (shard clientKey) in
  match m !! clientKey with
  | Some e =>
      if entryExpired (lim l) e now
      then (withCells (putShard l (shard clientKey) (delete clientKey m))
              (λ a, addExpired 1 (addTracked (-1) a)), None)
      else (l, Some e)
  | None => (l, None)
  end.

(** The answer of the critical section of [check]. *)
Inductive shardVerdict :=
  | ClientBlocked (retry : Duration)
  | ClientKnown
  | ClientUnknown.

Definition checkShard (l : invalidAuthAbuseLimiter) (clientKey : string) (now : Time)
    : invalidAuthAbuseLimiter * shardVerdict :=
  let '(l, entry) := dropExpired l clientKey now in
  match entry with
  | Some e => if After (blockedUntil e) now then (l, ClientBlocked (Sub (blockedUntil e) now)) else (l, ClientKnown)
  | None => (l, ClientUnknown)
  end.

Definition checkOverflow (l : invalidAuthAbuseLimiter) (now : Time) : Duration * bool :=
  if After (blockedUntil (overflow l)) now then (Sub (blockedUntil (overflow l)) now, true) else (0, false).

Definition check (l : option invalidAuthAbuseLimiter) (clientKey : string) (now : Time)
    : option invalidAuthAbuseLimiter * (Duration * bool) :=
  match l with
  | None => (None, (0, false))
  | Some l =>
    if String.eqb clientKey "" then (Some l, (0, false)) else
    let l := maybeCleanupAtCapacity l now in
    let '(l, verdict) := checkShard l clientKey now in
    match verdict with
    | ClientBlocked retry => (Some (withCells l addRejected), (retry, true))
    | ClientKnown => (Some l, (0, false))
    | ClientUnknown =>
        if capacity (lim l) <=? tracked (cells l) then
          let '(retry, isBlocked) := checkOverflow l now in
          if isBlocked then (Some (withCells l (λ a, addGlobalBlocked (addRejected a))), (retry, true))
          else (Some l, (0, false))
        else (Some l, (0, false))
    end
  end.

(** Counting one failure in a record: the window roll-over, the increment, and
    the block when the threshold is reached (the flag). *)
Definition countFailure (l : limits) (rolled : bool) (e : invalidAuthAbuseEntry) (now : Time)
    : invalidAuthAbuseEntry * bool :=
  let e := if rolled then mkEntry 0 now (blockedUntil e) else e in
  let n := wrap64 (failures e + 1) in
  if threshold l <=? n
  then let until := Add now (block l) in (mkEntry 0 until until, true)
  else (mkEntry n (windowStart e) (blockedUntil e), false).

Definition recordOverflow (l : invalidAuthAbuseLimiter) (now : Time) : invalidAuthAbuseLimiter :=
  let l := withCells l addOverflowed in
  let o := overflow l in
  if After (blockedUntil o) now then l else
  let rolled := IsZero (windowStart o) || negb (Before now (Add (windowStart o) (window (lim l)))) in
  let '(o, hit) := countFailure (lim l) rolled o now in
  let l := mkLimiter (lim l) (shards l) o (cells l) in
  if hit then withCells l addBlocked else l.

(** The critical section of [record]; the flag says that the client did not fit
    and goes to the overflow counter. *)
Definition recordShard (l : invalidAuthAbuseLimiter) (clientKey : string) (now : Time)
    : invalidAuthAbuseLimiter * bool :=
  let '(l, entry) := dropExpired l clientKey now in
  let reserved :=
    match entry with
    | Some e => Some (l, e)
    | None => match reserveEntry l with
              | None => None
              | Some l => Some (l, mkEntry 0 now zeroTime)
              end
    end in
  match reserved with
  | None => (l, true)
  | Some (l, e) =>
      let put e l := putShard l (shard clientKey) (<[clientKey := e]> (getShard l (shard clientKey))) in
      if After (blockedUntil e) now then (put e l, false) else
      let rolled := After (windowStart e) now || negb (Before now (Add (windowStart e) (window (lim l)))) in
      let '(e, hit) := countFailure (lim l) rolled e now in
      let l := put e l in
      (if hit then withCells l addBlocked else l, false)
  end.

Definition record (l : option invalidAuthAbuseLimiter) (clientKey : string) (now : Time)
    : option invalidAuthAbuseLimiter :=
  match l with
  | None => None
  | Some l =>
    if String.eqb clientKey "" then Some l else
    let l := withCells l addRecorded in
    let l := maybeCleanupAtCapacity l now in
    let '(l, full) := recordShard l clientKey now in
    Some (if full then recordOverflow l now else l)
  end.

Record InvalidAuthAbuseHealth := mkHealth {
  hEnabled : bool;
  hTracked : Z;
  hCapacity : Z;
  hRecorded : Z;
  hBlocks : Z;
  hRejected : Z;
  hExpired : Z;
  hOverflowed : Z;
  hGlobalBlocked : Z;
}.

(** [InvalidAuthAbuseHealth] of the service: all zero without a limiter. *)
Definition health (l : option invalidAuthAbuseLimiter) : InvalidAuthAbuseHealth :=
  match l with
  | None => mkHealth false 0 0 0 0 0 0 0 0
  | Some l => let a := cells l in
      mkHealth true (tracked a) (capacity (lim l)) (recorded a) (blocked a) (rejected a)
        (expired a) (overflowed a) (globalBlocked a)
  end.

(** ** Invariant under every interleaving of the critical sections *)

Record inv (l : invalidAuthAbuseLimiter) : Prop := {
  inv_shards : length (shards l) = Z.to_nat invalidAuthAbuseShardCount;
  inv_tracked : tracked (cells l) = total_size (shards l);
  inv_capacity : tracked (cells l) <= capacity (lim l);
  inv_range : capacity (lim l) <= maxInt64;
  inv_home : ∀ i m k e, shards l !! i = Some m → m !! k = Some e → shard k = i;
}.

Inductive step (l : invalidAuthAbuseLimiter) : invalidAuthAbuseLimiter → Prop :=
  | step_claim now : step l (fst (claimCleanup l now))
  | step_sweep i now : step l (sweepShard l i now)
  | step_drop clientKey now : step l (fst (dropExpired l clientKey now))
  | step_check clientKey now : step l (fst (checkShard l clientKey now))
  | step_record clientKey now : step l (fst (recordShard l clientKey now))
  | step_overflow now : step l (recordOverflow l now)
  | step_recorded : step l (withCells l addRecorded)
  | step_rejected : step l (withCells l addRejected)
  | step_globalBlocked : step l (withCells l addGlobalBlocked).

(** The initial limiters; the configuration fields are values of type [int]. *)
Definition initial (l : invalidAuthAbuseLimiter) : Prop :=
  ∃ cfg, newInvalidAuthAbuseLimiter (Some cfg) = Some l ∧ in_int64 (Capacity cfg).

Lemma shard_bound k : (shard k < Z.to_nat invalidAuthAbuseShardCount)%nat.
Proof.
  unfold shard, invalidAuthAbuseShardCount.
  match goal with |- context [?h mod 16] => pose proof (Z.mod_pos_bound h 16) end. lia.
Qed.

Lemma initial_inv l : initial l → inv l.
Proof.
  intros (cfg & Hnew & Hcap). unfold newInvalidAuthAbuseLimiter in Hnew.
  repeat case_match; simplify_eq. zbool. split; cbn [shards lim cells tracked capacity].
  - by rewrite repeat_length.
  - by rewrite total_size_repeat_empty.
  - lia.
  - unfold in_int64 in Hcap. lia.
  - intros i m k e Hm He. apply list_elem_of_lookup_2, list_elem_of_In, repeat_spec in Hm as ->.
    by rewrite lookup_empty in He.
Qed.

Section inv.
Context (l : invalidAuthAbuseLimiter) (Hinv : inv l).

Lemma inv_getShard i : (i < Z.to_nat invalidAuthAbuseShardCount)%nat → shards l !! i = Some (getShard l i).
Proof.
  intros Hi. unfold getShard. destruct (shards l !! i) as [m|] eqn:E; [done|].
  apply lookup_ge_None in E. rewrite (inv_shards l Hinv) in E. lia.
Qed.

(** Replacing a shard and moving [tracked] by the difference of the sizes. *)
Lemma inv_putShard i m d a' :
  (i < Z.to_nat invalidAuthAbuseShardCount)%nat →
  zsize m = zsize (getShard l i) + d →
  tracked a' = wrap64 (tracked (cells l) + d) →
  tracked (cells l) + d <= capacity (lim l) →
  (∀ k e, m !! k = Some e → shard k = i) →
  inv (mkLimiter (lim l) (<[i := m]> (shards l)) (overflow l) a').
Proof.
  intros Hi Hsz Ha Hcap Hk. pose proof (inv_getShard i Hi) as Hg.
  pose proof Hinv as []. pose proof (total_size_insert _ _ _ m Hg) as Ht.
  pose proof (total_size_nonneg (<[i := m]> (shards l))) as Hnn.
  assert (Ha' : tracked a' = tracked (cells l) + d).
  { rewrite Ha. apply wrap64_id. unfold in_int64, minInt64 in *. lia. }
  split; cbn [shards lim cells tracked].
  - by rewrite length_insert.
  - rewrite Ha', Ht. lia.
  - lia.
  - done.
  - intros j m' k e [(-> & <- & _)|[? Hj]]%list_lookup_insert_Some He; eauto.
Qed.

(** Steps that change only other cells, the overflow record or the clean-up
    cursor. *)
Lemma inv_same o a' :
  tracked a' = tracked (cells l) → inv (mkLimiter (lim l) (shards l) o a').
Proof. pose proof Hinv as []. intros Ha. split; cbn [shards lim cells]; rewrite ?Ha; done. Qed.

Lemma inv_dropExpired k now : inv (fst (dropExpired l k now)).
Proof.
  unfold dropExpired. repeat case_match; cbn [fst]; try exact Hinv.
  apply (inv_putShard _ _ (-1)); [apply shard_bound| | done | |].
  - rewrite zsize_delete_Some by eauto. lia.
  - pose proof (inv_capacity l Hinv). lia.
  - intros k' e' [_ He']%lookup_delete_Some.
    eapply (inv_home l Hinv); [|done]. apply inv_getShard, shard_bound.
Qed.
End inv.

Lemma inv_sweepShard l i now : inv l → inv (sweepShard l i now).
Proof.
  intros Hinv. unfold sweepShard.
  destruct (decide (i < Z.to_nat invalidAuthAbuseShardCount)%nat) as [Hi|Hi].
  - set (m' := delete_where _ _).
    apply (inv_putShard l Hinv _ _ (zsize m' - zsize (getShard l i))); [done|lia| | |].
    + cbn. f_equal. lia.
    + pose proof (zsize_delete_where (λ e, entryExpired (lim l) e now) (getShard l i)).
      pose proof (inv_capacity l Hinv). unfold m'. lia.
    + intros k e [He _]%lookup_delete_where.
      eapply (inv_home l Hinv); [|done]. by apply inv_getShard.
  - unfold putShard, withCells. cbn [shards lim overflow cells].
    assert (Hg : getShard l i = ∅).
    { unfold getShard. rewrite lookup_ge_None_2; [done|]. rewrite (inv_shards l Hinv). lia. }
    rewrite list_insert_ge by (rewrite (inv_shards l Hinv); lia).
    apply inv_same; [done|]. cbn [addExpired addTracked tracked]. rewrite Hg.
    assert (H0 : delete_where (λ e, entryExpired (lim l) e now) (∅ : gmap string _) = ∅).
    { apply map_empty. intros k. apply eq_None_not_Some. intros [e [He _]%lookup_delete_where].
      by rewrite lookup_empty in He. }
    rewrite H0, Z.sub_diag, Z.opp_0, Z.add_0_r. apply wrap64_id. pose proof Hinv as [].
    pose proof (total_size_nonneg (shards l)). unfold in_int64, minInt64. lia.
Qed.

Lemma dropExpired_shape l k now l' e :
  dropExpired l k now = (l', e) →
  lim l' = lim l ∧ overflow l' = overflow l ∧ getShard l' (shard k) !! k = e.
Proof.
  unfold dropExpired. intros H. repeat case_match; simplify_eq; try done.
  split_and!; [done..|]. unfold withCells, putShard, getShard. cbn [shards].
  destruct (decide (shard k < length (shards l))%nat).
  - rewrite list_lookup_insert_eq by done. apply lookup_delete_eq.
  - rewrite list_insert_ge by lia. rewrite (lookup_ge_None_2 (shards l)) by lia. done.
Qed.

Lemma inv_recordShard l k now : inv l → inv (fst (recordShard l k now)).
Proof.
  intros Hinv. unfold recordShard. pose proof (inv_dropExpired l Hinv k now) as Hinv1.
  destruct (dropExpired l k now) as [l1 entry] eqn:Ed. cbn [fst] in Hinv1.
  apply dropExpired_shape in Ed as (_ & _ & Hentry).
  assert (Hput : ∀ e (f : atomics → atomics),
    (tracked (f (cells l1)) = tracked (cells l1)) →
    is_Some entry →
    inv (mkLimiter (lim l1) (<[shard k := <[k := e]> (getShard l1 (shard k))]> (shards l1)) (overflow l1)
           (f (cells l1)))).
  { intros e f Hf [e0 He0].
    apply (inv_putShard l1 Hinv1 _ _ 0); [apply shard_bound| | | |].
    - rewrite zsize_insert_Some; [lia|]. rewrite Hentry. eauto.
    - rewrite Hf, Z.add_0_r. symmetry. apply wrap64_id. pose proof Hinv1 as [].
      pose proof (total_size_nonneg (shards l1)). unfold in_int64, minInt64. lia.
    - pose proof (inv_capacity _ Hinv1). lia.
    - intros k' e' [[-> _]|[? He']]%lookup_insert_Some; [done|].
      eapply (inv_home _ Hinv1); [|done]. apply inv_getShard, shard_bound; done. }
  destruct entry as [e|].
  - destruct (After (blockedUntil e) now); cbn [fst]; [by apply (Hput e id); eauto|].
    destruct (countFailure _ _ _ _) as [e' hit]. destruct hit; cbn [fst];
      [by apply (Hput e' addBlocked); eauto|by apply (Hput e' id); eauto].
  - unfold reserveEntry. destruct (capacity (lim l1) <=? tracked (cells l1)) eqn:Ecap; zbool; [exact Hinv1|].
    assert (Hnew : ∀ e (f : atomics → atomics),
      (∀ a, tracked (f a) = tracked a) →
      inv (mkLimiter (lim l1) (<[shard k := <[k := e]> (getShard l1 (shard k))]> (shards l1)) (overflow l1)
             (f (addTracked 1 (cells l1))))).
    { intros e f Hf. apply (inv_putShard l1 Hinv1 _ _ 1); [apply shard_bound| | | |].
      - by apply zsize_insert_None.
      - by rewrite Hf.
      - lia.
      - intros k' e' [[-> _]|[? He']]%lookup_insert_Some; [done|].
        eapply (inv_home _ Hinv1); [|done]. apply inv_getShard, shard_bound; done. }
    cbn [blockedUntil]. destruct (After zeroTime now); cbn [fst]; [by apply (Hnew _ id)|].
    destruct (countFailure _ _ _ _) as [e' hit]. destruct hit; cbn [fst];
      [by apply (Hnew _ addBlocked)|by apply (Hnew _ id)].
Qed.

Lemma step_inv l l' : inv l → step l l' → inv l'.
Proof.
  intros Hinv Hs. destruct Hs.
  - unfold claimCleanup. repeat case_match; try exact Hinv. by apply inv_same.
  - by apply inv_sweepShard.
  - by apply inv_dropExpired.
  - unfold checkShard. pose proof (inv_dropExpired l Hinv clientKey now).
    destruct (dropExpired l clientKey now) as [l1 []]; cbn [fst] in *; [by case_match|done].
  - by apply inv_recordShard.
  - unfold recordOverflow. cbn [withCells overflow lim].
    case_match; [by apply inv_same|]. destruct (countFailure _ _ _ _) as [o hit].
    destruct hit; by apply (inv_same l Hinv).
  - by apply inv_same.
  - by apply inv_same.
  - by apply inv_same.
Qed.

Lemma reachable_inv l : reachable initial step l → inv l.
Proof. apply reachable_invariant; eauto using initial_inv, step_inv. Qed.

(** ** The record of one client *)

Definition entryOf (l : invalidAuthAbuseLimiter) (k : string) : option invalidAuthAbuseEntry :=
  getShard l (shard k) !! k.

Lemma entryOf_sweepShard l i k e now :
  entryOf l k = Some e → entryExpired (lim l) e now = false →
  entryOf (sweepShard l i now) k = Some e.
Proof.
  unfold entryOf, sweepShard, withCells, putShard, getShard. cbn [shards]. intros He Hx.
  destruct (decide (i = shard k)) as [->|Hne].
  - destruct (decide (shard k < length (shards l))%nat).
    + rewrite list_lookup_insert_eq by done. cbn [default from_option id]. by apply lookup_delete_where.
    + by rewrite list_insert_ge by lia.
  - by rewrite list_lookup_insert_ne.
Qed.

Lemma entryOf_cleanup l k e now :
  entryOf l k = Some e → entryExpired (lim l) e now = false →
  entryOf (maybeCleanupAtCapacity l now) k = Some e ∧ lim (maybeCleanupAtCapacity l now) = lim l.
Proof.
  intros He Hx. unfold maybeCleanupAtCapacity, claimCleanup. repeat case_match; simplify_eq; try done.
  split; [|done]. by apply entryOf_sweepShard.
Qed.

Lemma entryOf_dropExpired l k e now :
  entryOf l k = Some e → entryExpired (lim l) e now = false → dropExpired l k now = (l, Some e).
Proof. unfold entryOf, dropExpired. intros -> Hx. by rewrite Hx. Qed.

Lemma entryOf_putShard l k e a o :
  inv l →
  entryOf (mkLimiter (lim l) (<[shard k := <[k := e]> (getShard l (shard k))]> (shards l)) o a) k = Some e.
Proof.
  intros Hinv. unfold entryOf, getShard at 1. cbn [shards].
  rewrite list_lookup_insert_eq by (rewrite (inv_shards l Hinv); apply shard_bound).
  apply lookup_insert_eq.
Qed.

Lemma inv_cleanup l now : inv l → inv (maybeCleanupAtCapacity l now).
Proof.
  intros Hinv. unfold maybeCleanupAtCapacity.
  pose proof (step_inv _ _ Hinv (step_claim l now)) as H1.
  destruct (claimCleanup l now) as [l1 [i|]]; cbn [fst] in H1; [by apply inv_sweepShard|done].
Qed.

Lemma inv_record l k now l' : inv l → record (Some l) k now = Some l' → inv l'.
Proof.
  intros Hinv. unfold record. case_match; [by intros [= <-]|].
  pose proof (inv_cleanup _ now (inv_same l Hinv (overflow l) (addRecorded (cells l)) eq_refl)) as H1.
  fold (withCells l addRecorded) in H1.
  pose proof (inv_recordShard _ k now H1) as H2.
  destruct (recordShard _ _ _) as [l2 full]; cbn [fst] in H2. intros [= <-].
  destruct full; [|done]. apply (step_inv _ _ H2). constructor.
Qed.

(** A failure of a client with a live record that is not blocked. *)
Lemma record_known l k e now :
  inv l → k ≠ "" → entryOf l k = Some e → entryExpired (lim l) e now = false →
  After (blockedUntil e) now = false →
  ∃ l', record (Some l) k now = Some l' ∧ inv l' ∧ lim l' = lim l ∧
    entryOf l' k = Some (fst (countFailure (lim l)
      (After (windowStart e) now || negb (Before now (Add (windowStart e) (window (lim l))))) e now)).
Proof.
  intros Hinv Hk He Hx Hb.
  assert (∃ l', record (Some l) k now = Some l') as [l' Hl'].
  { unfold record. case_match; [by eexists|]. destruct (recordShard _ _ _). by eexists. }
  exists l'. pose proof (inv_record _ _ _ _ Hinv Hl') as Hinv'. split; [done|]. split; [done|].
  unfold record in Hl'. rewrite (proj2 (String.eqb_neq k "") Hk) in Hl'.
  destruct (entryOf_cleanup (withCells l addRecorded) k e now) as [He1 Hlim1]; [done..|].
  pose proof (inv_cleanup _ now (inv_same l Hinv (overflow l) (addRecorded (cells l)) eq_refl)) as Hinv1.
  fold (withCells l addRecorded) in Hinv1. cbn [withCells lim] in Hlim1.
  set (l1 := maybeCleanupAtCapacity _ _) in *. unfold recordShard in Hl'.
  rewrite (entryOf_dropExpired l1 k e now) in Hl' by (rewrite ?Hlim1; done). cbn iota in Hl'.
  rewrite Hb, Hlim1 in Hl'. destruct (countFailure _ _ _ _) as [e' hit]. cbn [fst].
  destruct hit; simplify_eq; (split; [by cbn; rewrite ?Hlim1|]);
    unfold putShard, withCells; cbn [shards lim overflow cells]; by apply (entryOf_putShard l1).
Qed.

(** The first failure of a client without a record, below capacity. *)
Lemma record_fresh l k now :
  inv l → k ≠ "" → entryOf l k = None → tracked (cells l) < capacity (lim l) → 0 <= now →
  ∃ l', record (Some l) k now = Some l' ∧ inv l' ∧ lim l' = lim l ∧
    entryOf l' k = Some (fst (countFailure (lim l) (negb (Before now (Add now (window (lim l)))))
                                (mkEntry 0 now zeroTime) now)).
Proof.
  intros Hinv Hk He Hcap Hnow.
  assert (∃ l', record (Some l) k now = Some l') as [l' Hl'].
  { unfold record. case_match; [by eexists|]. destruct (recordShard _ _ _). by eexists. }
  exists l'. pose proof (inv_record _ _ _ _ Hinv Hl') as Hinv'. split; [done|]. split; [done|].
  unfold record in Hl'. rewrite (proj2 (String.eqb_neq k "") Hk) in Hl'.
  assert (Hc : maybeCleanupAtCapacity (withCells l addRecorded) now = withCells l addRecorded).
  { unfold maybeCleanupAtCapacity, claimCleanup. cbn [withCells cells lim addRecorded tracked].
    by rewrite (proj2 (Z.ltb_lt _ _)) by lia. }
  rewrite Hc in Hl'. set (l1 := withCells l addRecorded) in *.
  assert (Hinv1 : inv l1) by (by apply (inv_same l Hinv)).
  unfold recordShard, dropExpired in Hl'. unfold entryOf in He.
  replace (getShard l1 (shard k) !! k) with (None : option invalidAuthAbuseEntry) in Hl' by (by rewrite <- He).
  unfold reserveEntry in Hl'. rewrite (proj2 (Z.leb_gt (capacity (lim l1)) _)) in Hl' by (cbn; lia).
  cbn [blockedUntil windowStart] in Hl'. replace (After zeroTime now) with false in Hl'
    by (symmetry; unfold_time; apply Z.ltb_ge; lia).
  replace (After now now) with false in Hl' by (symmetry; unfold_time; apply Z.ltb_irrefl).
  cbn [orb] in Hl'. cbn [withCells lim l1] in Hl'.
  destruct (countFailure _ _ _ _) as [e' hit]. cbn [fst].
  injection Hl' as <-.
  destruct hit; (split; [done|]);
    unfold putShard, withCells; cbn [shards lim overflow cells]; by apply (entryOf_putShard l1).
Qed.

Lemma check_known l k e now :
  inv l → k ≠ "" → entryOf l k = Some e → entryExpired (lim l) e now = false →
  snd (check (Some l) k now) =
    if After (blockedUntil e) now then (Sub (blockedUntil e) now, true) else (0, false).
Proof.
  intros Hinv Hk He Hx. unfold check. rewrite (proj2 (String.eqb_neq k "") Hk).
  destruct (entryOf_cleanup l k e now He Hx) as [He1 Hlim1].
  unfold checkShard. rewrite (entryOf_dropExpired _ k e now) by (rewrite ?Hlim1; done).
  by destruct (After (blockedUntil e) now).
Qed.

(** A client without a record, or with an expired one, below capacity. *)
Lemma check_unknown l k now :
  inv l → k ≠ "" → tracked (cells l) < capacity (lim l) →
  (∀ e, entryOf l k = Some e → entryExpired (lim l) e now = true) →
  snd (check (Some l) k now) = (0, false).
Proof.
  intros Hinv Hk Hcap Hx. unfold check. rewrite (proj2 (String.eqb_neq k "") Hk).
  unfold maybeCleanupAtCapacity, claimCleanup. rewrite (proj2 (Z.ltb_lt _ _) Hcap).
  unfold checkShard, dropExpired. unfold entryOf in Hx.
  destruct (getShard l (shard k) !! k) as [e|].
  - rewrite (Hx e eq_refl). cbn [withCells putShard lim cells].
    pose proof (inv_tracked l Hinv). pose proof (inv_range l Hinv).
    pose proof (total_size_nonneg (shards l)).
    rewrite (proj2 (Z.leb_gt _ _)); [done|]. cbn [addExpired addTracked tracked].
    rewrite wrap64_id by (unfold in_int64, minInt64, maxInt64 in *; lia). lia.
  - by rewrite (proj2 (Z.leb_gt _ _) Hcap).
Qed.

(** A positive answer carries a positive retry time. *)
Lemma check_retry_pos l k now :
  snd (snd (check l k now)) = true → 0 < fst (snd (check l k now)).
Proof.
  unfold check, checkShard, checkOverflow. intros H.
  repeat case_match; simplify_eq/=; try done; apply Sub_pos; by unfold_time; zbool.
Qed.

(** ** A burst of failures of one client *)

Definition recordAll (l : option invalidAuthAbuseLimiter) (k : string) (ts : list Time) :=
  foldl (λ l t, record l k t) l ts.

Section burst.
Context (l : invalidAuthAbuseLimiter) (k : string) (t0 : Time).
Context (Hinv : inv l) (Hk : k ≠ "") (Hfresh : entryOf l k = None).
Context (Hcap : tracked (cells l) < capacity (lim l)) (Ht0 : 0 <= t0).
Context (Hthr : threshold (lim l) <= maxInt64) (Hwin : 0 < window (lim l)).

Abbreviation inWindow := (λ t : Time, t0 <= t < t0 + window (lim l)).

(** Within the window a failure below the threshold only counts. *)
Lemma countFailure_below n w b now :
  0 <= n → n + 1 < threshold (lim l) →
  fst (countFailure (lim l) false (mkEntry n w b) now) = mkEntry (n + 1) w b.
Proof.
  intros H0 Hlt. unfold countFailure. cbn [failures windowStart blockedUntil].
  rewrite wrap64_id by (unfold in_int64, minInt64, maxInt64 in *; lia).
  by rewrite (proj2 (Z.leb_gt _ _) Hlt).
Qed.

(** The failure that reaches it blocks. *)
Lemma countFailure_hit n w b now :
  0 <= n → n + 1 = threshold (lim l) →
  fst (countFailure (lim l) false (mkEntry n w b) now) =
    mkEntry 0 (now + block (lim l)) (now + block (lim l)).
Proof.
  intros H0 Hlt. unfold countFailure. cbn [failures windowStart blockedUntil].
  rewrite wrap64_id by (unfold in_int64, minInt64, maxInt64 in *; lia).
  by rewrite (proj2 (Z.leb_le _ _)) by lia.
Qed.

Lemma live_in_window n now : inWindow now → entryExpired (lim l) (mkEntry n t0 zeroTime) now = false.
Proof.
  intros Hn. unfold entryExpired. cbn [blockedUntil windowStart]. unfold_time.
  rewrite (proj2 (Z.ltb_lt now (t0 + window (lim l)))) by lia. by rewrite andb_false_r.
Qed.

Lemma not_rolled now : inWindow now →
  (After t0 now || negb (Before now (Add t0 (window (lim l))))) = false.
Proof. intros Hn. unfold_time. rewrite (proj2 (Z.ltb_ge now t0)), (proj2 (Z.ltb_lt now (t0 + window (lim l)))) by lia. done. Qed.

Lemma not_blocked now : inWindow now → After zeroTime now = false.
Proof. intros Hn. unfold_time. apply Z.ltb_ge. lia. Qed.

Lemma record_first :
  ∃ l', record (Some l) k t0 = Some l' ∧ inv l' ∧ lim l' = lim l ∧
    entryOf l' k = Some (fst (countFailure (lim l) false (mkEntry 0 t0 zeroTime) t0)).
Proof.
  destruct (record_fresh l k t0 Hinv Hk Hfresh Hcap Ht0) as (l' & Hr & Hi & Hl & He).
  exists l'. split_and!; try done. rewrite He. do 3 f_equal.
  unfold_time. by rewrite (proj2 (Z.ltb_lt t0 (t0 + window (lim l)))) by lia.
Qed.

Lemma record_prefix ts :
  Forall inWindow ts → 1 + Z.of_nat (length ts) < threshold (lim l) →
  ∃ l', recordAll (Some l) k (t0 :: ts) = Some l' ∧ inv l' ∧ lim l' = lim l ∧
    entryOf l' k = Some (mkEntry (1 + Z.of_nat (length ts)) t0 zeroTime).
Proof.
  induction ts as [|t ts IH] using rev_ind; intros Hts Hlt.
  - destruct record_first as (l' & Hr & Hi & Hl & He). exists l'. split_and!; try done.
    rewrite He. f_equal. cbn [length] in *. rewrite countFailure_below by lia. done.
  - rewrite length_app in *. cbn [length] in *. apply Forall_app in Hts as [Hts [Ht _]%Forall_cons].
    destruct IH as (l1 & Hr & Hi & Hl & He); [done|lia|].
    destruct (record_known l1 k _ t Hi Hk He) as (l' & Hr' & Hi' & Hl' & He').
    { rewrite Hl. apply live_in_window, Ht. }
    { apply not_blocked, Ht. }
    exists l'. split_and!; [| done | congruence |].
    + unfold recordAll in *. rewrite app_comm_cons, foldl_app, Hr. done.
    + rewrite He'. cbn [windowStart]. rewrite Hl, not_rolled by done.
      rewrite countFailure_below by lia. do 2 f_equal. lia.
Qed.

Lemma record_burst ts t :
  Forall inWindow ts → inWindow t → 2 + Z.of_nat (length ts) = threshold (lim l) →
  ∃ l', recordAll (Some l) k (t0 :: ts ++ [t]) = Some l' ∧ inv l' ∧ lim l' = lim l ∧
    entryOf l' k = Some (mkEntry 0 (t + block (lim l)) (t + block (lim l))).
Proof.
  intros Hts Ht Hn. destruct (record_prefix ts Hts) as (l1 & Hr & Hi & Hl & He); [lia|].
  destruct (record_known l1 k _ t Hi Hk He) as (l' & Hr' & Hi' & Hl' & He').
  { rewrite Hl. apply live_in_window, Ht. }
  { apply not_blocked, Ht. }
  exists l'. split_and!; [| done | congruence |].
  - unfold recordAll in *. rewrite app_comm_cons, foldl_app, Hr. done.
  - rewrite He'. cbn [windowStart]. rewrite Hl, not_rolled by done. f_equal. apply countFailure_hit; lia.
Qed.
End burst.

(** ** Properties *)

(** Under every interleaving of the critical sections of any number of
    concurrent calls, the atomic total is exactly the number of records in the
    sixteen shards and never exceeds the capacity, every record is in the shard
    its key hashes to, and the whole calls [check] and [record] are themselves
    sequences of such steps. *)
Theorem limiter_tracked l :
  reachable initial step l →
  tracked (cells l) = total_size (shards l) ∧ total_size (shards l) <= capacity (lim l) ∧
  (∀ i m k e, shards l !! i = Some m → m !! k = Some e → shard k = i) ∧
  (∀ k now l', record (Some l) k now = Some l' → reachable initial step l') ∧
  (∀ k now l', fst (check (Some l) k now) = Some l' → reachable initial step l').
Proof.
  intros Hr. pose proof (reachable_inv l Hr) as [Hs Ht Hc _ Hh].
  assert (Hcl : ∀ l now, reachable initial step l → reachable initial step (maybeCleanupAtCapacity l now)).
  { intros l0 now H0. unfold maybeCleanupAtCapacity.
    pose proof (reach_step _ _ _ _ H0 (step_claim l0 now)) as H1.
    destruct (claimCleanup l0 now) as [l1 [i|]]; [|done].
    eapply reach_step; [exact H1|constructor]. }
  split_and!; [done|lia|done| |].
  - intros k now l'. unfold record. case_match; [by intros [= <-]|].
    pose proof (Hcl _ now (reach_step _ _ _ _ Hr (step_recorded l))) as H1.
    pose proof (reach_step _ _ _ _ H1 (step_record _ k now)) as H2.
    destruct (recordShard _ _ _) as [l2 []]; intros [= <-]; [|done].
    eapply reach_step; [exact H2|constructor].
  - intros k now l'. unfold check. case_match; [by intros [= <-]|].
    pose proof (reach_step _ _ _ _ (Hcl _ now Hr) (step_check _ k now)) as H1.
    destruct (checkShard _ _ _) as [l1 v]; cbn [fst] in H1.
    assert (H2 : reachable initial step (withCells l1 addRejected)) by (eapply reach_step; [exact H1|constructor]).
    assert (H3 : reachable initial step (withCells (withCells l1 addRejected) addGlobalBlocked))
      by (eapply reach_step; [exact H2|constructor]).
    repeat case_match; cbn [fst]; intros [= <-]; done.
Qed.

(** [threshold] failures of a new client inside one window, while there is
    room in the table, ban it: after any smaller number of them the client is
    let through, from the last one on it is refused with exactly the time left
    until [block] has passed, and when the block ends it is let through again. *)
Theorem limiter_ban l k (t0 : Time) (ts : list Time) (t : Time) :
  reachable initial step l → k ≠ "" → entryOf l k = None →
  tracked (cells l) < capacity (lim l) → 0 <= t0 →
  threshold (lim l) <= maxInt64 → 0 < window (lim l) → 0 < block (lim l) →
  Forall (λ t : Time, t0 <= t < t0 + window (lim l)) (ts ++ [t]) →
  2 + Z.of_nat (length ts) = threshold (lim l) →
  (∀ n now, (n <= length ts)%nat → t0 <= now < t0 + window (lim l) →
     snd (check (recordAll (Some l) k (t0 :: take n ts)) k now) = (0, false)) ∧
  (∀ now, now < t + block (lim l) →
     snd (check (recordAll (Some l) k (t0 :: ts ++ [t])) k now) = (Sub (t + block (lim l)) now, true)) ∧
  (∀ now, t + block (lim l) <= now < t + block (lim l) + window (lim l) →
     snd (check (recordAll (Some l) k (t0 :: ts ++ [t])) k now) = (0, false)).
Proof.
  intros Hr Hk Hf Hcap Ht0 Hthr Hwin Hblk [Hts [Ht _]%Forall_cons]%Forall_app Hn.
  pose proof (reachable_inv l Hr) as Hinv. split_and!.
  - intros n now Hle Hnow.
    destruct (record_prefix l k t0 Hinv Hk Hf Hcap Ht0 Hthr Hwin (take n ts)) as (l' & -> & Hi & Hl & He).
    { by apply Forall_take. }
    { rewrite length_take. lia. }
    rewrite (check_known l' k _ now Hi Hk He) by (rewrite Hl; by apply (live_in_window l t0)).
    cbn [blockedUntil]. by rewrite (not_blocked l t0).
  - intros now Hnow.
    destruct (record_burst l k t0 Hinv Hk Hf Hcap Ht0 Hthr Hwin ts t Hts Ht Hn) as (l' & -> & Hi & Hl & He).
    rewrite (check_known l' k _ now Hi Hk He); cbn [blockedUntil];
      unfold entryExpired; cbn [blockedUntil windowStart]; unfold_time;
      by rewrite (proj2 (Z.ltb_lt _ _) Hnow).
  - intros now Hnow.
    destruct (record_burst l k t0 Hinv Hk Hf Hcap Ht0 Hthr Hwin ts t Hts Ht Hn) as (l' & -> & Hi & Hl & He).
    rewrite (check_known l' k _ now Hi Hk He); cbn [blockedUntil];
      unfold entryExpired; cbn [blockedUntil windowStart]; unfold_time; rewrite ?Hl.
    + by rewrite (proj2 (Z.ltb_ge now (t + block (lim l)))) by lia.
    + rewrite (proj2 (Z.ltb_lt now (t + block (lim l) + window (lim l)))) by lia. by rewrite andb_false_r.
Qed.

(** The answer of [check] for one client: a live record alone decides (the
    shared overflow block never refuses a client that has one), a client
    without one is let through while there is room in the table, and every
    refusal carries a positive retry time. *)
Theorem limiter_check_answer l k now :
  reachable initial step l → k ≠ "" →
  (∀ e, entryOf l k = Some e → entryExpired (lim l) e now = false →
     snd (check (Some l) k now) =
       if After (blockedUntil e) now then (Sub (blockedUntil e) now, true) else (0, false)) ∧
  (tracked (cells l) < capacity (lim l) →
   (∀ e, entryOf l k = Some e → entryExpired (lim l) e now = true) →
     snd (check (Some l) k now) = (0, false)) ∧
  (snd (snd (check (Some l) k now)) = true → 0 < fst (snd (check (Some l) k now))).
Proof.
  intros Hr Hk. pose proof (reachable_inv l Hr) as Hinv. split_and!.
  - intros e. by apply check_known.
  - by apply check_unknown.
  - apply check_retry_pos.
Qed.

(** ** Witnesses *)

Definition cfg1 : abuseConfig := mkAbuseConfig true 3 60 600 2.
Definition limiter1 : invalidAuthAbuseLimiter :=
  mkLimiter (mkLimits 3 (60 * Second) (600 * Second) 2)
    (repeat ∅ (Z.to_nat invalidAuthAbuseShardCount)) zeroOverflow (mkAtomics 0 0 0 0 0 0 0 0 0).

Lemma limiter1_reachable : reachable initial step limiter1.
Proof. apply reach_init. exists cfg1. split; [reflexivity|]. split; cbn; unfold minInt64, maxInt64; lia. Qed.

Lemma limiter_tracked_witness :
  tracked (cells (fst (recordShard limiter1 "10.0.0.1" (5 * Second)))) = 1.
Proof.
  transitivity (total_size (shards (fst (recordShard limiter1 "10.0.0.1" (5 * Second)))));
    [apply (limiter_tracked (fst (recordShard limiter1 "10.0.0.1" (5 * Second))))|vm_compute; reflexivity].
  eapply reach_step; [apply limiter1_reachable|constructor].
Defined.

Lemma limiter_ban_witness :
  snd (check (recordAll (Some limiter1) "10.0.0.1" (5 * Second :: [6 * Second] ++ [7 * Second]))
         "10.0.0.1" (8 * Second)) = (599 * Second, true).
Proof.
  destruct (limiter_ban limiter1 "10.0.0.1" (5 * Second) [6 * Second] (7 * Second) limiter1_reachable)
    as (_ & Hb & _); [vm_compute; done..| | |].
  - repeat constructor; vm_compute; done.
  - vm_compute; done.
  - rewrite Hb; vm_compute; done.
Defined.

Lemma limiter_check_answer_witness :
  snd (check (Some limiter1) "10.0.0.1" (8 * Second)) = (0, false).
Proof.
  refine (proj1 (proj2 (limiter_check_answer limiter1 "10.0.0.1" (8 * Second) limiter1_reachable _)) _ _);
    vm_compute; done.
Defined.
