(* ===== verification/AccountModelTransient.v ===== *)
(** * Transient failures of an account/model pair

    [backend/internal/service/openai_account_model_transient.go]: a bounded
    table from (account, model) to a failure streak; the first failure only
    counts, the second starts a short cool-down and the third and later ones a
    long one, until a success deletes the record.

    Every method holds the mutex of the state for its whole body, so each is
    one atomic definition; [None] is the nil receiver.  [clock] is the value of
    [time.Now()], used when the caller passes the zero time. *)

From S2P Require Import Prelude GoRuntime.
#[local] Open Scope Z_scope.

Definition openAIModelTransientStreakTTL : Duration := 30 * Minute.
Definition openAIModelTransientShortCooldown : Duration := 10 * Second.
Definition openAIModelTransientLongCooldown : Duration := 45 * Second.
Definition openAIModelTransientDefaultMax : Z := 4096.
Definition openAIModelTransientMaxModelBytes : Z := 512.

(** [openAIAccountModelKey]: account identifier and model. *)
Abbreviation openAIAccountModelKey := (Z * string)%type (only parsing).

Record openAIAccountModelTransientEntry := mkEntry {
  failureStreak : Z;
  lastFailure : Time;
  blockUntil : Time;
  lastTouched : Time;
}.
Definition zeroEntry := mkEntry 0 zeroTime zeroTime zeroTime.

Record openAIAccountModelTransientDecision := mkDecision {
  FailureStreak : Z;
  Cooldown : Duration;
  BlockUntil : Time;
}.
Definition zeroDecision := mkDecision 0 0 zeroTime.

Record openAIAccountModelTransientState := mkState {
  entries : gmap openAIAccountModelKey openAIAccountModelTransientEntry;
  maxEntries : Z;
}.

Definition newOpenAIAccountModelTransientState (maxEntries : Z) : openAIAccountModelTransientState :=
  mkState ∅ (if maxEntries <=? 0 then openAIModelTransientDefaultMax else maxEntries).

Section transient.
Context `{UnicodeCase}.

Definition normalizeOpenAIAccountModelTransientModel (model : string) : string :=
  let model := TrimSpace model in
  if openAIModelTransientMaxModelBytes <? len model then "" else ToLower model.

Definition openAIAccountModelTransientKey (accountID : Z) (model : string) : option openAIAccountModelKey :=
  let model := normalizeOpenAIAccountModelTransientModel model in
  if (accountID <=? 0) || String.eqb model "" then None else Some (accountID, model).

(** [evictOldestLocked]; [iter] is the order in which the loop ranges. *)
Definition evictOldestLocked
    (iter : gmap openAIAccountModelKey openAIAccountModelTransientEntry →
            list (openAIAccountModelKey * openAIAccountModelTransientEntry))
    (s : openAIAccountModelTransientState) : openAIAccountModelTransientState :=
  if zsize (entries s) <? maxEntries s then s else
  match oldest_from (λ kv, lastTouched (snd kv)) None (iter (entries s)) with
  | Some (oldestKey, _) => mkState (delete oldestKey (entries s)) (maxEntries s)
  | None => s
  end.

(** The switch of [recordFailure]. *)
Definition cooldownOf (streak : Z) : Duration :=
  if 3 <=? streak then openAIModelTransientLongCooldown
  else if streak =? 2 then openAIModelTransientShortCooldown
  else 0.

Definition recordFailure
    (iter : gmap openAIAccountModelKey openAIAccountModelTransientEntry →
            list (openAIAccountModelKey * openAIAccountModelTransientEntry))
    (s : option openAIAccountModelTransientState) (accountID : Z) (model : string) (now clock : Time)
    : option openAIAccountModelTransientState * openAIAccountModelTransientDecision :=
  match openAIAccountModelTransientKey accountID model, s with
  | Some key, Some s =>
      let now := if IsZero now then clock else now in
      let s := mkState (entries s)
                 (if maxEntries s <=? 0 then openAIModelTransientDefaultMax else maxEntries s) in
      let exists_ := bool_decide (is_Some (entries s !! key)) in
      let entry := default zeroEntry (entries s !! key) in
      let s := if exists_ then s else evictOldestLocked iter s in
      let streak :=
        if negb exists_ || IsZero (lastFailure entry)
           || (openAIModelTransientStreakTTL <? Sub now (lastFailure entry))
           || Before now (lastFailure entry)
        then 0 else failureStreak entry in
      let streak := wrap64 (streak + 1) in
      let cooldown := cooldownOf streak in
      let until := if 0 <? cooldown then Add now cooldown else zeroTime in
      (Some (mkState (<[key := mkEntry streak now until now]> (entries s)) (maxEntries s)),
       mkDecision streak cooldown until)
  | _, _ => (s, zeroDecision)
  end.

Definition recordSuccess (s : option openAIAccountModelTransientState) (accountID : Z) (model : string)
    : option openAIAccountModelTransientState :=
  match openAIAccountModelTransientKey accountID model, s with
  | Some key, Some s => Some (mkState (delete key (entries s)) (maxEntries s))
  | _, _ => s
  end.

Definition isBlocked (s : option openAIAccountModelTransientState) (accountID : Z) (model : string)
    (now clock : Time) : option openAIAccountModelTransientState * bool :=
  match openAIAccountModelTransientKey accountID model, s with
  | Some key, Some st =>
      let now := if IsZero now then clock else now in
      match entries st !! key with
      | None => (s, false)
      | Some entry =>
          if negb (IsZero (lastFailure entry))
             && (openAIModelTransientStreakTTL <? Sub now (lastFailure entry))
          then (Some (mkState (delete key (entries st)) (maxEntries st)), false)
          else
            let entry := mkEntry (failureStreak entry) (lastFailure entry) (blockUntil entry) now in
            (Some (mkState (<[key := entry]> (entries st)) (maxEntries st)),
             negb (IsZero (blockUntil entry)) && Before now (blockUntil entry))
      end
  | _, _ => (s, false)
  end.

Definition size_ (s : option openAIAccountModelTransientState) : Z :=
  match s with None => 0 | Some s => zsize (entries s) end.

(** ** Lemmas *)

Section proofs.
Context (iter : gmap openAIAccountModelKey openAIAccountModelTransientEntry →
                list (openAIAccountModelKey * openAIAccountModelTransientEntry)) `{!RangeOrder iter}.

(** The eviction makes room by dropping one least recently touched record. *)
Lemma evictOldestLocked_spec s :
  0 < maxEntries s → zsize (entries s) <= maxEntries s →
  let s' := evictOldestLocked iter s in
  maxEntries s' = maxEntries s ∧ zsize (entries s') < maxEntries s ∧
  (∀ k e, entries s' !! k = Some e → entries s !! k = Some e) ∧
  (∀ k e, entries s !! k = Some e → entries s' !! k = None →
     zsize (entries s) = maxEntries s ∧
     ∀ k' e', entries s !! k' = Some e' → lastTouched e <= lastTouched e').
Proof.
  intros Hmax Hsz. unfold evictOldestLocked.
  destruct (zsize (entries s) <? maxEntries s) eqn:E; zbool; [split_and!; [done..|naive_solver]|].
  destruct (oldest_from _ None _) as [[k e]|] eqn:Eo.
  - apply oldest_from_spec in Eo as ([?|Hin] & Hmin & _); [done|].
    apply elem_of_range in Hin; [|done]. cbn [entries maxEntries snd] in *. split_and!.
    + done.
    + rewrite zsize_delete_Some by eauto. lia.
    + intros k' e' [_ ?]%lookup_delete_Some. done.
    + intros k' e' Hk' Hd. destruct (decide (k = k')) as [->|Hne].
      * split; [lia|]. intros k2 e2 H2. simplify_eq.
        apply (Hmin (k2, e2)), elem_of_range; done.
      * rewrite lookup_delete_ne in Hd by done. congruence.
  - apply oldest_from_None in Eo as [_ Hnil]. apply range_nil in Hnil; [|done].
    rewrite Hnil, zsize_empty in E. lia.
Qed.

Lemma recordFailure_key s id m now clock key :
  openAIAccountModelTransientKey id m = Some key → 0 < maxEntries s → now ≠ 0 →
  ∃ s', fst (recordFailure iter (Some s) id m now clock) = Some s' ∧
    maxEntries s' = maxEntries s ∧
    let d := snd (recordFailure iter (Some s) id m now clock) in
    entries s' !! key = Some (mkEntry (FailureStreak d) now (BlockUntil d) now) ∧
    Cooldown d = cooldownOf (FailureStreak d) ∧
    BlockUntil d = (if 0 <? Cooldown d then now + Cooldown d else zeroTime) ∧
    FailureStreak d = wrap64 (1 +
      match entries s !! key with
      | Some e => if IsZero (lastFailure e) || (openAIModelTransientStreakTTL <? Sub now (lastFailure e))
                     || Before now (lastFailure e) then 0 else failureStreak e
      | None => 0
      end).
Proof.
  intros Hk Hmax Hnow. unfold recordFailure. rewrite Hk.
  rewrite (proj2 (Z.leb_gt _ _) Hmax). assert (IsZero now = false) as -> by by apply Z.eqb_neq.
  eexists. split; [done|]. cbn [fst snd entries maxEntries FailureStreak Cooldown BlockUntil].
  split_and!.
  - case_match; [done|]. unfold evictOldestLocked. repeat case_match; done.
  - by rewrite lookup_insert_eq.
  - done.
  - done.
  - destruct s as [es mx]. cbn [entries]. destruct (es !! key) as [e|]; cbn [default from_option].
    + rewrite bool_decide_eq_true_2 by eauto. cbn [negb orb]. by rewrite Z.add_comm.
    + by rewrite bool_decide_eq_false_2 by (by intros [? ?]).
Qed.

(** Failures that follow each other within the time to live. *)
Fixpoint chain (t : Time) (ts : list Time) : Prop :=
  match ts with
  | [] => True
  | u :: ts => t <= u <= t + openAIModelTransientStreakTTL ∧ chain u ts
  end.

Fixpoint failAll (s : option openAIAccountModelTransientState) (id : Z) (m : string) (clock : Time)
    (d : openAIAccountModelTransientDecision) (ts : list Time) :=
  match ts with
  | [] => (s, d)
  | t :: ts => let '(s, d) := recordFailure iter s id m t clock in failAll s id m clock d ts
  end.

Lemma chain_gap t u : t <= u <= t + openAIModelTransientStreakTTL →
  (openAIModelTransientStreakTTL <? Sub u t) = false ∧ Before u t = false.
Proof.
  intros Hu. unfold Before. rewrite Sub_gtb by (vm_compute; done).
  split; [apply Z.ltb_ge|apply Z.ltb_ge]; lia.
Qed.

Lemma failAll_streak s id m clock key n t d ts :
  openAIAccountModelTransientKey id m = Some key → 0 < maxEntries s →
  0 < t → 1 <= n → n + Z.of_nat (length ts) <= maxInt64 →
  (∃ b, entries s !! key = Some (mkEntry n t b t) ∧ d = mkDecision n (cooldownOf n) b ∧
        b = if 0 <? cooldownOf n then t + cooldownOf n else zeroTime) →
  chain t ts →
  ∃ s' last, fst (failAll (Some s) id m clock d ts) = Some s' ∧ last = List.last ts t ∧ 0 < last ∧
    maxEntries s' = maxEntries s ∧
    let n' := n + Z.of_nat (length ts) in
    let b' := if 0 <? cooldownOf n' then last + cooldownOf n' else zeroTime in
    entries s' !! key = Some (mkEntry n' last b' last) ∧
    snd (failAll (Some s) id m clock d ts) = mkDecision n' (cooldownOf n') b'.
Proof.
  intros Hk. revert s n t d. induction ts as [|u ts IH]; intros s n t d Hmax Ht Hn Hlen (b & He & -> & Hb) Hc.
  - exists s, t. cbv zeta. cbn [length fst snd failAll List.last].
    change (Z.of_nat 0) with 0. rewrite Z.add_0_r.
    subst b. done.
  - destruct Hc as [Hu Hc]. cbn [length] in Hlen.
    destruct (recordFailure_key s id m u clock key Hk Hmax ltac:(lia)) as (s1 & Hs1 & Hm1 & He1 & Hcd & Hbu & Hst).
    cbn [failAll]. destruct (recordFailure iter (Some s) id m u clock) as [s1' d1]. cbn [fst snd] in *. subst s1'.
    rewrite He in Hst. cbn [lastFailure failureStreak] in Hst.
    destruct (chain_gap t u Hu) as [Hg1 Hg2]. rewrite Hg1, Hg2 in Hst.
    unfold IsZero in Hst. rewrite (proj2 (Z.eqb_neq t 0)) in Hst by lia. cbn [orb] in Hst.
    rewrite wrap64_id in Hst by (unfold in_int64, minInt64, maxInt64 in *; lia).
    destruct (IH s1 (n + 1) u d1) as (s' & last & Hf & Hl & Hpos & Hmx & He' & Hd').
    + lia.
    + lia.
    + lia.
    + lia.
    + exists (BlockUntil d1). destruct d1 as [st cd bu]; cbn in *. subst.
      split_and!; [|f_equal; [lia|f_equal; lia]|].
      * rewrite He1. do 2 f_equal. lia.
      * by rewrite (Z.add_comm n 1).
    + done.
    + exists s', last. split_and!; [done| |done|by rewrite Hmx|..].
      * rewrite Hl. symmetry. apply last_cons_default.
      * rewrite He'. cbn [length]. replace (n + 1 + Z.of_nat (length ts)) with (n + Z.of_nat (S (length ts))) by lia. done.
      * rewrite Hd'. cbn [length]. replace (n + 1 + Z.of_nat (length ts)) with (n + Z.of_nat (S (length ts))) by lia. done.
Qed.

Lemma failAll_fresh s id m clock key t d ts :
  openAIAccountModelTransientKey id m = Some key → 0 < maxEntries s →
  entries s !! key = None → 0 < t → chain t ts → 1 + Z.of_nat (length ts) <= maxInt64 →
  ∃ s' last, fst (failAll (Some s) id m clock d (t :: ts)) = Some s' ∧ last = List.last ts t ∧ 0 < last ∧
    maxEntries s' = maxEntries s ∧
    let n' := 1 + Z.of_nat (length ts) in
    let b' := if 0 <? cooldownOf n' then last + cooldownOf n' else zeroTime in
    entries s' !! key = Some (mkEntry n' last b' last) ∧
    snd (failAll (Some s) id m clock d (t :: ts)) = mkDecision n' (cooldownOf n') b'.
Proof.
  intros Hk Hmax He Ht Hc Hlen.
  destruct (recordFailure_key s id m t clock key Hk Hmax ltac:(lia)) as (s1 & Hs1 & Hm1 & He1 & Hcd & Hbu & Hst).
  cbn [failAll]. destruct (recordFailure iter (Some s) id m t clock) as [s1' d1]. cbn [fst snd] in *. subst s1'.
  rewrite He in Hst. rewrite wrap64_id in Hst by (unfold in_int64, minInt64, maxInt64 in *; lia).
  rewrite <- Hm1. apply failAll_streak; try done; try lia.
  exists (BlockUntil d1). destruct d1 as [st cd bu]; cbn in *. by subst.
Qed.

Lemma cooldownOf_bounds n : 1 <= n → 0 <= cooldownOf n <= openAIModelTransientLongCooldown.
Proof.
  intros Hn. unfold cooldownOf, openAIModelTransientLongCooldown, openAIModelTransientShortCooldown, Second.
  repeat case_match; lia.
Qed.

(** ** The table *)

Inductive step (s : openAIAccountModelTransientState) : openAIAccountModelTransientState → Prop :=
  | step_failure s' id m now clock :
      fst (recordFailure iter (Some s) id m now clock) = Some s' → step s s'
  | step_success s' id m : recordSuccess (Some s) id m = Some s' → step s s'
  | step_query s' id m now clock : fst (isBlocked (Some s) id m now clock) = Some s' → step s s'.

Definition bounded (s : openAIAccountModelTransientState) : Prop :=
  0 < maxEntries s ∧ zsize (entries s) <= maxEntries s ∧
  ∀ k e, entries s !! k = Some e → 0 < fst k ∧ snd k ≠ "".

Lemma key_valid id m k : openAIAccountModelTransientKey id m = Some k → 0 < fst k ∧ snd k ≠ "".
Proof.
  unfold openAIAccountModelTransientKey. case_match; [done|]. intros [= <-]. zbool.
  split; [cbn; lia|]. by apply String.eqb_neq.
Qed.

Lemma bounded_insert s k e :
  bounded s → 0 < fst k → snd k ≠ "" →
  (is_Some (entries s !! k) ∨ zsize (entries s) < maxEntries s) →
  bounded (mkState (<[k := e]> (entries s)) (maxEntries s)).
Proof.
  intros (Hm & Hz & Hv) Hk1 Hk2 Hroom. split_and!; cbn [entries maxEntries].
  - done.
  - destruct Hroom as [Hs|Hlt]; [rewrite zsize_insert_Some by done; lia|].
    pose proof (zsize_insert_le (entries s) k e). lia.
  - intros k' e' [[<- _]|[_ He']]%lookup_insert_Some; eauto.
Qed.

Lemma bounded_delete s k : bounded s → bounded (mkState (delete k (entries s)) (maxEntries s)).
Proof.
  intros (Hm & Hz & Hv). split_and!; cbn [entries maxEntries]; [done| |].
  - pose proof (zsize_delete_le (entries s) k). lia.
  - intros k' e' [_ He']%lookup_delete_Some. eauto.
Qed.

Lemma bounded_evict s : bounded s →
  bounded (evictOldestLocked iter s) ∧
  zsize (entries (evictOldestLocked iter s)) < maxEntries (evictOldestLocked iter s).
Proof.
  intros (Hm & Hz & Hv). destruct (evictOldestLocked_spec s Hm Hz) as (Em & Ez & Es & _).
  rewrite Em. split; [split_and!; [lia|lia|]|done]. intros k e He. eauto.
Qed.

Lemma step_bounded s s' : bounded s → step s s' → bounded s'.
Proof.
  intros Hb [s1' id m now clock Hs|s1' id m Hs|s1' id m now clock Hs].
  - unfold recordFailure in Hs. destruct (openAIAccountModelTransientKey id m) as [k|] eqn:Ek; [|by simplify_eq/=].
    apply key_valid in Ek as [Hk1 Hk2]. cbn [fst] in Hs. injection Hs as <-.
    rewrite (proj2 (Z.leb_gt _ _)) by apply Hb. destruct s as [es mx]. cbn [entries maxEntries] in *.
    case_bool_decide as Hex.
    + apply (bounded_insert (mkState es mx)); eauto.
    + destruct (bounded_evict _ Hb). apply bounded_insert; eauto.
  - unfold recordSuccess in Hs. case_match; simplify_eq; [by apply bounded_delete|done].
  - unfold isBlocked in Hs. destruct (openAIAccountModelTransientKey id m) as [k|] eqn:Ek; [|by simplify_eq/=].
    apply key_valid in Ek as [Hk1 Hk2].
    destruct (entries s !! k) as [e|] eqn:Ee; [|cbn in Hs; by injection Hs as <-].
    case_match; simplify_eq/=; [by apply bounded_delete|].
    apply bounded_insert; eauto.
Qed.

Lemma reachable_bounded n s :
  reachable (λ s, s = newOpenAIAccountModelTransientState n) step s → bounded s.
Proof.
  apply reachable_invariant; [|by eauto using step_bounded].
  intros ? ->. unfold newOpenAIAccountModelTransientState, bounded. cbn [entries maxEntries].
  change (zsize ∅) with 0. split_and!; [case_match; zbool; [done|lia]|case_match; zbool; [done|lia]|].
  intros k e He. by rewrite lookup_empty in He.
Qed.

(** No operation changes the limit. *)
Lemma step_maxEntries s s' : bounded s → step s s' → maxEntries s' = maxEntries s.
Proof.
  intros (Hm & Hz & _) [s1 id m now clock Hs|s1 id m Hs|s1 id m now clock Hs].
  - unfold recordFailure in Hs. rewrite (proj2 (Z.leb_gt _ _) Hm) in Hs.
    destruct (openAIAccountModelTransientKey id m); injection Hs as <-; [|done]. cbn [maxEntries].
    case_match; [done|].
    by destruct (evictOldestLocked_spec (mkState (entries s) (maxEntries s)) Hm Hz) as [-> _].
  - unfold recordSuccess in Hs. destruct (openAIAccountModelTransientKey id m); by injection Hs as <-.
  - unfold isBlocked in Hs. repeat case_match; by injection Hs as <-.
Qed.

Lemma reachable_maxEntries n s :
  reachable (λ s, s = newOpenAIAccountModelTransientState n) step s →
  maxEntries s = if n <=? 0 then openAIModelTransientDefaultMax else n.
Proof.
  induction 1 as [? ->|s1 s2 Hr IH Hs]; [done|].
  rewrite <- IH. apply step_maxEntries; [by eapply reachable_bounded|done].
Qed.
End proofs.
End transient.
Arguments chain : simpl never.

(** ** Properties *)

(** Consecutive failures of a pair without a record escalate: the n-th one
    reports the streak n and a cool-down of 0, 10 seconds (n = 2) or 45 seconds
    (n >= 3); from then on the pair is refused exactly until the cool-down has
    passed, and a success clears it. *)
Theorem transient_escalation `{UnicodeCase} iter `{!RangeOrder iter} s id m clock key t ts d :
  openAIAccountModelTransientKey id m = Some key → 0 < maxEntries s → entries s !! key = None →
  0 < t → chain t ts → 1 + Z.of_nat (length ts) <= maxInt64 →
  ∃ s', fst (failAll iter (Some s) id m clock d (t :: ts)) = Some s' ∧
    let n := 1 + Z.of_nat (length ts) in
    let last := List.last ts t in
    FailureStreak (snd (failAll iter (Some s) id m clock d (t :: ts))) = n ∧
    Cooldown (snd (failAll iter (Some s) id m clock d (t :: ts))) =
      (if n =? 1 then 0 else if n =? 2 then 10 * Second else 45 * Second) ∧
    (∀ now, last <= now → snd (isBlocked (Some s') id m now clock) = (now <? last + cooldownOf n)) ∧
    (∀ now, snd (isBlocked (recordSuccess (Some s') id m) id m now clock) = false).
Proof.
  intros Hk Hmax He Ht Hc Hlen.
  destruct (failAll_fresh iter s id m clock key t d ts Hk Hmax He Ht Hc Hlen)
    as (s' & last & Hs' & -> & Hpos & _ & He' & Hd). cbv zeta in *.
  exists s'. split_and!; [done|by rewrite Hd|..].
  - rewrite Hd. unfold cooldownOf, openAIModelTransientLongCooldown, openAIModelTransientShortCooldown. cbn [Cooldown].
    repeat case_match; zbool; try done; lia.
  - intros now Hnow. unfold isBlocked. rewrite Hk.
    assert (IsZero now = false) as -> by (apply Z.eqb_neq; lia). rewrite He'. cbn [lastFailure blockUntil].
    pose proof (cooldownOf_bounds (1 + Z.of_nat (length ts)) ltac:(lia)) as Hcd.
    set (cd := cooldownOf _) in *. rewrite Sub_gtb by (vm_compute; done). unfold_time.
    destruct (openAIModelTransientStreakTTL <? _) eqn:E; zbool.
    + rewrite andb_true_r, (proj2 (Z.eqb_neq (List.last ts t) 0)) by lia. cbn [negb snd].
      symmetry. apply Z.ltb_ge. unfold openAIModelTransientStreakTTL, openAIModelTransientLongCooldown, Minute, Second in *. lia.
    + rewrite andb_false_r. cbn [snd]. destruct (0 <? cd) eqn:Ecd; zbool.
      * by rewrite (proj2 (Z.eqb_neq (List.last ts t + cd) 0)) by lia.
      * cbn. symmetry. apply Z.ltb_ge. lia.
  - intros now. unfold recordSuccess. rewrite Hk. unfold isBlocked. rewrite Hk. cbn [entries].
    by rewrite lookup_delete_eq.
Qed.

(** in every reachable table the number of records is within the limit and
    the keys are valid, and a failure of one pair disturbs another pair only by
    evicting it, which happens only when the table is full and only to a least
    recently touched record. *)
Theorem transient_bounded `{UnicodeCase} iter `{!RangeOrder iter} n s :
  reachable (λ s, s = newOpenAIAccountModelTransientState n) (step iter) s →
  zsize (entries s) <= (if n <=? 0 then openAIModelTransientDefaultMax else n) ∧
  (∀ k e, entries s !! k = Some e → 0 < fst k ∧ snd k ≠ "") ∧
  ∀ id m now clock s' k e,
    fst (recordFailure iter (Some s) id m now clock) = Some s' →
    openAIAccountModelTransientKey id m ≠ Some k → entries s !! k = Some e →
    entries s' !! k = Some e ∨
    (entries s' !! k = None ∧ zsize (entries s) = maxEntries s ∧
     ∀ k' e', entries s !! k' = Some e' → lastTouched e <= lastTouched e').
Proof.
  intros Hr. pose proof (reachable_bounded iter n s Hr) as (Hm & Hz & Hv). split_and!; [|done|].
  - by rewrite <- (reachable_maxEntries iter n s Hr).
  - intros id m now clock s' k e Hs Hk He. unfold recordFailure in Hs.
    destruct (openAIAccountModelTransientKey id m) as [k0|]; [|simplify_eq/=; by left].
    rewrite (proj2 (Z.leb_gt _ _) Hm) in Hs. cbn [fst] in Hs. injection Hs as <-.
    cbn [entries]. rewrite lookup_insert_ne by congruence.
    case_bool_decide; [by left|].
    destruct (evictOldestLocked_spec iter (mkState (entries s) (maxEntries s)) Hm Hz) as (_ & _ & Hsub & Hev).
    destruct (entries (evictOldestLocked _ _) !! k) as [e'|] eqn:E.
    + apply Hsub in E. left. cbn in E. congruence.
    + right. split; [done|]. by apply (Hev k e).
Qed.

(** ** Witnesses *)

#[local] Instance ascii_only : UnicodeCase := ascii_case.

Lemma transient_escalation_witness :
  ∃ s', fst (failAll map_to_list (Some (newOpenAIAccountModelTransientState 8)) 7 " GPT-5 " 0 zeroDecision
               [100 * Second; 101 * Second; 103 * Second]) = Some s' ∧
    snd (isBlocked (Some s') 7 "gpt-5" (120 * Second) 0) = true.
Proof.
  destruct (transient_escalation map_to_list (newOpenAIAccountModelTransientState 8) 7 " GPT-5 " 0 (7, "gpt-5")
    (100 * Second) [101 * Second; 103 * Second] zeroDecision) as (s' & Hs & _ & _ & Hb & _);
    [reflexivity|reflexivity|reflexivity|reflexivity| |vm_compute; done|].
  - unfold chain. cbn. unfold openAIModelTransientStreakTTL, Minute, Second. lia.
  - exists s'. split; [exact Hs|]. exact (Hb (120 * Second) ltac:(vm_compute; done)).
Defined.

Lemma transient_bounded_witness :
  zsize (entries (newOpenAIAccountModelTransientState 8)) <= 8.
Proof. apply (transient_bounded map_to_list 8). by apply reach_init. Defined.
