(* ===== verification/AccountRuntimeBlock.v ===== *)
(** * Runtime scheduling blocks and the 429 budget of OpenAI/Grok accounts

    [backend/internal/service/openai_account_runtime_block_fastpath.go] and the
    credential rollback of [grok_credential_failure.go].

    The maps of the gateway that this code keeps per account are the fields of
    [gateway].  Each handler takes the mutex of its account, and every writer of
    [openaiAccountRuntimeBlockUntil] holds it, so a handler is one atomic
    definition (the compare-and-swap loop of [blockAccountSchedulingLocked]
    succeeds in its first round) and concurrent calls are the interleavings of
    [step].  [now] is the reading of the clock inside the handler; the results
    of classifying the upstream response ([disposition], [resetAt], the parsed
    Retry-After) and the configured fall-back cool-down are arguments. *)

From S2P Require Import Prelude GoRuntime Domain.
#[local] Open Scope Z_scope.

Definition openAIOAuth429FallbackCooldown : Duration := 5 * Second.
Definition openAIOAuth429RetryWindow : Duration := 2 * Minute.
Definition openAIOAuth429RetryDelay : Duration := 500 * Millisecond.
Definition openAIOAuth429MaxRetryDelay : Duration := 8 * Second.
Definition openAIOAuth429MaxAccountAttempts : Z := 3.
Definition openAIStopSchedulingBridgeCooldown : Duration := 2 * Minute.
Definition openAIOAuth429StormWindow : Duration := 10 * Second.
Definition openAIOAuth429StormMaxAccountSwitches : Z := 1.

Definition StatusTooManyRequests : Z := 429.

Inductive openAIOAuth429Disposition :=
  | openAIOAuth429Transient
  | openAIOAuth429Quota5h
  | openAIOAuth429Quota7d
  | openAIOAuth429QuotaReset.

Definition isTransient (d : openAIOAuth429Disposition) : bool :=
  match d with openAIOAuth429Transient => true | _ => false end.

Record gateway := mkGateway {
  blockUntil : gmap Z Time;
  generation : gmap Z Z;
  sequence : Z;
  retryStartedAt : gmap Z Time;
  windowStartUnixNano : Z;
  windowCount : Z;
}.

Definition setBlock (s : gateway) (id : Z) (t : Time) : gateway :=
  mkGateway (<[id := t]> (blockUntil s)) (generation s) (sequence s) (retryStartedAt s)
    (windowStartUnixNano s) (windowCount s).
Definition delBlock (s : gateway) (id : Z) : gateway :=
  mkGateway (delete id (blockUntil s)) (generation s) (sequence s) (retryStartedAt s)
    (windowStartUnixNano s) (windowCount s).
(** Store the next value of the global sequence as the account's generation. *)
Definition bumpGeneration (s : gateway) (id : Z) : gateway :=
  let g := wrapU64 (sequence s + 1) in
  mkGateway (blockUntil s) (<[id := g]> (generation s)) g (retryStartedAt s)
    (windowStartUnixNano s) (windowCount s).
Definition setRetry (s : gateway) (m : gmap Z Time) : gateway :=
  mkGateway (blockUntil s) (generation s) (sequence s) m (windowStartUnixNano s) (windowCount s).
Definition setWindow (s : gateway) (start count : Z) : gateway :=
  mkGateway (blockUntil s) (generation s) (sequence s) (retryStartedAt s) start count.

(** ** The handlers *)

Definition effectiveUntil (until now : Time) : Time :=
  if IsZero until || negb (After until now) then Add now openAIStopSchedulingBridgeCooldown else until.

Definition blockAccountSchedulingLocked (s : gateway) (id : Z) (until now : Time) : gateway * (Z * bool) :=
  let s := bumpGeneration s id in
  let g := sequence s in
  let until := effectiveUntil until now in
  match blockUntil s !! id with
  | None => (setBlock s id until, (g, true))
  | Some current =>
      if IsZero current then (setBlock s id until, (g, true))
      else if negb (After until current) then (s, (g, false))
      else (setBlock s id until, (g, true))
  end.

Definition BlockAccountScheduling (s : gateway) (account : option Account) (until now : Time) : gateway :=
  match account with
  | Some a => if isOpenAIAccount account then fst (blockAccountSchedulingLocked s (ID a) until now) else s
  | None => s
  end.

Definition ClearAccountSchedulingBlock (s : gateway) (accountID : Z) : gateway :=
  if accountID <=? 0 then s else
  bumpGeneration (setRetry (delBlock s accountID) (delete accountID (retryStartedAt s))) accountID.

Definition isOpenAIAccountRuntimeBlocked (s : gateway) (account : option Account) (now : Time) : gateway * bool :=
  match account with
  | None => (s, false)
  | Some a =>
      if negb (isOpenAIAccount account) then (s, false) else
      match blockUntil s !! ID a with
      | None => (s, false)
      | Some cooldownUntil =>
          if IsZero cooldownUntil then (bumpGeneration (delBlock s (ID a)) (ID a), false)
          else if Before now cooldownUntil then (s, true)
          else (bumpGeneration (delBlock s (ID a)) (ID a), false)
      end
  end.

(** The credential block returns a closure that undoes it: [None] is the closure
    that does nothing, [Some r] what the other closure captured. *)
Record rollback := mkRollback {
  rbAccount : Z;
  installedGeneration : Z;
  installedUntil : Time;
  before : option Time;
}.

Definition blockGrokCredentialRuntime (s : gateway) (account : option Account) (until now : Time)
    : gateway * option rollback :=
  match account with
  | None => (s, None)
  | Some a =>
      let before := blockUntil s !! ID a in
      let '(s', (g, changed)) := blockAccountSchedulingLocked s (ID a) until now in
      match blockUntil s' !! ID a with
      | Some installed =>
          if negb changed then (s', None) else
          match before with
          | Some b => if Equal b installed then (s', None) else (s', Some (mkRollback (ID a) g installed before))
          | None => (s', Some (mkRollback (ID a) g installed before))
          end
      | None => (s', None)
      end
  end.

Definition runRollback (s : gateway) (r : option rollback) : gateway :=
  match r with
  | None => s
  | Some r =>
      match generation s !! rbAccount r with
      | None => s
      | Some g =>
          if negb (g =? installedGeneration r) then s else
          match blockUntil s !! rbAccount r with
          | None => s
          | Some current =>
              if negb (Equal current (installedUntil r)) then s else
              match before r with
              | Some b => bumpGeneration (setBlock s (rbAccount r) b) (rbAccount r)
              | None => bumpGeneration (delBlock s (rbAccount r)) (rbAccount r)
              end
          end
      end
  end.

(** ** The 429 retry window *)

Definition recordOpenAIOAuth429 (s : gateway) (now : Time) : gateway :=
  let windowStart := windowStartUnixNano s in
  if (windowStart =? 0) || (openAIOAuth429StormWindow <=? Sub now (fromUnixNano windowStart))
  then setWindow s (UnixNano now) 1
  else setWindow s windowStart (wrap64 (windowCount s + 1)).

(** Starts the window of the account if it has none. *)
Definition openAIOAuth429RetryWindowActive (s : gateway) (account : option Account) (now : Time) : gateway * bool :=
  match account with
  | None => (s, false)
  | Some a =>
      if negb (isOpenAIOAuthAccount account) || IsShadow account then (s, false) else
      match retryStartedAt s !! ID a with
      | Some startedAt => (s, Before now (Add startedAt openAIOAuth429RetryWindow))
      | None => (setRetry s (<[ID a := now]> (retryStartedAt s)), Before now (Add now openAIOAuth429RetryWindow))
      end
  end.

Definition openAIOAuth429RetryDeadline (s : gateway) (account : option Account) : Time :=
  match account with
  | None => zeroTime
  | Some a =>
      if negb (isOpenAIOAuthAccount account) || IsShadow account then zeroTime else
      match retryStartedAt s !! ID a with
      | None => zeroTime
      | Some startedAt => Add startedAt openAIOAuth429RetryWindow
      end
  end.

Definition markOpenAIOAuth429RateLimited (s : gateway) (account : option Account)
    (disposition : openAIOAuth429Disposition) (resetAt : option Time)
    (fallback : option Duration) (now : Time) : gateway :=
  match account with
  | None => s
  | Some a =>
      if negb (isOpenAIOAuthAccount account) then s else
      if IsShadow account then s else
      let s := recordOpenAIOAuth429 s now in
      let '(s, retrying) :=
        if isTransient disposition then openAIOAuth429RetryWindowActive s account now else (s, false) in
      if retrying then s else
      let fallbackUntil :=
        match fallback with
        | Some cooldown => if 0 <? cooldown then Add now cooldown else Add now openAIOAuth429FallbackCooldown
        | None => Add now openAIOAuth429FallbackCooldown
        end in
      let cooldownUntil :=
        match resetAt with
        | Some t => if After t now then t else fallbackUntil
        | None => fallbackUntil
        end in
      let s := BlockAccountScheduling s account cooldownUntil now in
      setRetry s (delete (ID a) (retryStartedAt s))
  end.

Definition shouldRetryOpenAIOAuth429OnSameAccountWithResponse (s : gateway) (account : option Account)
    (statusCode : Z) (shouldDisable : bool) (disposition : openAIOAuth429Disposition) (now : Time)
    : gateway * bool :=
  if shouldDisable || negb (statusCode =? StatusTooManyRequests) || negb (isOpenAIOAuthAccount account)
     || IsShadow account
  then (s, false) else
  if negb (isTransient disposition) then (s, false) else
  let '(s, blocked) := isOpenAIAccountRuntimeBlocked s account now in
  if blocked then (s, false) else openAIOAuth429RetryWindowActive s account now.

Definition ShouldRetryOpenAIOAuth429 (s : gateway) (account : option Account)
    (disposition : openAIOAuth429Disposition) (now : Time) : gateway * bool :=
  if negb (isOpenAIOAuthAccount account) || IsShadow account then (s, false) else
  let '(s, blocked) := isOpenAIAccountRuntimeBlocked s account now in
  if blocked then (s, false) else
  if negb (isTransient disposition) then (s, false) else
  openAIOAuth429RetryWindowActive s account now.

(** [retryAfter]: the parsed Retry-After time, if the response has one. *)
Definition openAIOAuth429SameAccountRetryDelay (retryAfter : option Time) (deadline now : Time) : Duration :=
  let delay := match retryAfter with
               | Some resetAt => if After resetAt now then Sub resetAt now else openAIOAuth429RetryDelay
               | None => openAIOAuth429RetryDelay
               end in
  let delay := if openAIOAuth429MaxRetryDelay <? delay then openAIOAuth429MaxRetryDelay else delay in
  let remaining := Sub deadline now in
  let delay := if negb (IsZero deadline) && (remaining <? delay) then remaining else delay in
  if delay <? 0 then 0 else delay.

(** [state = None] is a caller without the per-request state. *)
Definition ShouldStopOpenAIOAuth429Failover (account : option Account) (statusCode failedSwitches : Z)
    (state : option bool) : option bool * bool :=
  if failedSwitches <? openAIOAuth429StormMaxAccountSwitches then (state, false) else
  if default false state then (state, true) else
  if isGrokOAuthAccount account then
    match state with
    | None => (state, (statusCode =? StatusTooManyRequests) && (2 <=? failedSwitches))
    | Some pending => (Some (if statusCode =? StatusTooManyRequests then true else pending), false)
    end
  else
  if negb (statusCode =? StatusTooManyRequests) || negb (isOpenAIOAuthAccount account) then (state, false) else
  (state, openAIOAuth429MaxAccountAttempts <=? failedSwitches).

(** ** Interleavings

    One step per handler; the 64-bit sequence number is assumed not to wrap
    around (it counts calls). *)

Inductive op :=
  | OpBlock (account : option Account) (until now : Time)
  | OpClear (accountID : Z)
  | OpQuery (account : option Account) (now : Time)
  | OpCredential (account : option Account) (until now : Time)
  | OpRollback (r : option rollback)
  | OpRecord429 (now : Time)
  | OpRetryWindow (account : option Account) (now : Time)
  | OpForgetWindow (accountID : Z).

Definition runOp (s : gateway) (o : op) : gateway :=
  match o with
  | OpBlock account until now => BlockAccountScheduling s account until now
  | OpClear accountID => ClearAccountSchedulingBlock s accountID
  | OpQuery account now => fst (isOpenAIAccountRuntimeBlocked s account now)
  | OpCredential account until now => fst (blockGrokCredentialRuntime s account until now)
  | OpRollback r => runRollback s r
  | OpRecord429 now => recordOpenAIOAuth429 s now
  | OpRetryWindow account now => fst (openAIOAuth429RetryWindowActive s account now)
  | OpForgetWindow accountID => setRetry s (delete accountID (retryStartedAt s))
  end.

Inductive step (s : gateway) : gateway → Prop :=
  | step_op o : sequence s + 1 < 2 ^ 64 → step s (runOp s o).

Definition emptyGateway : gateway := mkGateway ∅ ∅ 0 ∅ 0 0.

Record generations_ok (s : gateway) : Prop := {
  sequence_nonneg : 0 <= sequence s;
  generation_le : ∀ a g, generation s !! a = Some g → g <= sequence s;
}.

(** What one handler does to account [a]: nothing, or it leaves a fresh
    generation behind. *)
Definition touch (a : Z) (s s' : gateway) : Prop :=
  (blockUntil s' !! a = blockUntil s !! a ∧ generation s' !! a = generation s !! a ∧ sequence s <= sequence s') ∨
  (generation s' !! a = Some (sequence s') ∧ sequence s' = sequence s + 1).

Lemma touch_same a s s' :
  blockUntil s' = blockUntil s → generation s' = generation s → sequence s' = sequence s → touch a s s'.
Proof. intros Hb Hg Hs. left. rewrite Hb, Hg, Hs. split_and!; [done..|lia]. Qed.

Section no_wrap.
Context (s : gateway) (Hok : 0 <= sequence s) (Hwrap : sequence s + 1 < 2 ^ 64).

Lemma bump_sequence id s1 : sequence s1 = sequence s → sequence (bumpGeneration s1 id) = sequence s + 1.
Proof. intros Hs. cbn. rewrite Hs. apply wrapU64_id. lia. Qed.

Lemma touch_bump a id s1 :
  generation s1 = generation s → sequence s1 = sequence s →
  (a ≠ id → blockUntil s1 !! a = blockUntil s !! a) → touch a s (bumpGeneration s1 id).
Proof.
  intros Hg Hs Hb. destruct (decide (a = id)) as [->|Hne].
  - right. split; [|by apply bump_sequence]. cbn. by rewrite lookup_insert_eq.
  - left. rewrite (bump_sequence id s1 Hs). cbn. rewrite lookup_insert_ne by done. rewrite Hg.
    split_and!; [by apply Hb|done|lia].
Qed.

Lemma touch_setBlock a id t s1 : touch a s s1 → (a = id → generation s1 !! a = Some (sequence s1) ∧ sequence s1 = sequence s + 1) →
  touch a s (setBlock s1 id t).
Proof.
  intros [H1|H1] Hid; [|by right].
  destruct (decide (a = id)) as [Ha|Hne]; [right; by apply Hid|].
  left. cbn. by rewrite lookup_insert_ne by done.
Qed.

Lemma touch_block a id until now : touch a s (fst (blockAccountSchedulingLocked s id until now)).
Proof.
  assert (H1 : touch a s (bumpGeneration s id)) by (by apply touch_bump).
  assert (H2 : ∀ t, touch a s (setBlock (bumpGeneration s id) id t)).
  { intros t. apply touch_setBlock; [done|]. intros ->. split; [cbn; apply lookup_insert_eq|by apply bump_sequence]. }
  unfold blockAccountSchedulingLocked. repeat case_match; cbn [fst]; done.
Qed.

Lemma touch_op a o : touch a s (runOp s o).
Proof.
  assert (Hdel : ∀ id, touch a s (bumpGeneration (delBlock s id) id)).
  { intros id. apply touch_bump; [done..|]. intros Hne. cbn. by rewrite lookup_delete_ne. }
  destruct o as [acc until now|id|acc now|acc until now|r|now|acc now|id]; cbn [runOp].
  - unfold BlockAccountScheduling. repeat case_match; [apply touch_block|by apply touch_same..].
  - unfold ClearAccountSchedulingBlock. case_match; [by apply touch_same|].
    apply touch_bump; [done..|]. intros Hne. cbn. by rewrite lookup_delete_ne.
  - unfold isOpenAIAccountRuntimeBlocked. repeat case_match; cbn [fst]; by first [apply Hdel|apply touch_same].
  - unfold blockGrokCredentialRuntime. destruct acc as [ac|]; [|by apply touch_same].
    pose proof (touch_block a (ID ac) until now) as Hb.
    destruct (blockAccountSchedulingLocked _ _ _ _) as [s' [g ch]]. by repeat case_match.
  - unfold runRollback. repeat case_match; try (by apply touch_same); [|apply Hdel].
    apply touch_bump; [done..|]. intros Hne. cbn. by rewrite lookup_insert_ne.
  - unfold recordOpenAIOAuth429. case_match; by apply touch_same.
  - unfold openAIOAuth429RetryWindowActive. repeat case_match; by apply touch_same.
  - by apply touch_same.
Qed.
End no_wrap.

Lemma touch_ok s s' : generations_ok s → (∀ a, touch a s s') → generations_ok s'.
Proof.
  intros [H0 Hg] Ht. split.
  - destruct (Ht 0) as [(_ & _ & ?)|[_ ?]]; lia.
  - intros a g Ha. destruct (Ht a) as [(_ & Hga & ?)|[Hga ?]].
    + rewrite Hga in Ha. specialize (Hg a g Ha). lia.
    + simplify_eq. lia.
Qed.

Lemma step_touch s s' a : generations_ok s → step s s' → touch a s s' ∧ generations_ok s'.
Proof.
  intros Hok [o Hw]. assert (Ht : ∀ a, touch a s (runOp s o)) by (intros b; by apply touch_op, Hw; apply Hok).
  split; [done|]. by eapply touch_ok.
Qed.

(** Once the generation of [a] has moved past [g], it never is [g] again. *)
Definition past (a g : Z) (s : gateway) : Prop := ∃ g', generation s !! a = Some g' ∧ g < g'.

Lemma step_past s s' a g : generations_ok s → step s s' → past a g s → past a g s' ∧ generations_ok s'.
Proof.
  intros Hok Hs (g' & Hg' & Hlt). destruct (step_touch s s' a Hok Hs) as [Ht Hok']. split; [|done].
  pose proof (generation_le s Hok a g' Hg').
  destruct Ht as [(_ & Hga & _)|[Hga ?]]; [exists g'; by rewrite Hga|exists (sequence s'); split; [done|lia]].
Qed.

Lemma steps_past s s' a g : rtc step s s' → generations_ok s → past a g s → past a g s'.
Proof.
  induction 1 as [|s s1 s' Hs _ IH]; intros Hok Hp; [done|].
  destruct (step_past s s1 a g Hok Hs Hp). auto.
Qed.

Lemma steps_ok s s' a g : rtc step s s' → generations_ok s → generation s !! a = Some g →
  generations_ok s' ∧ (generation s' !! a = Some g ∨ past a g s').
Proof.
  intros Hs. revert g. induction Hs as [|s s1 s' Hs _ IH]; intros g Hok Hg; [by auto|].
  destruct (step_touch s s1 a Hok Hs) as [Ht Hok1].
  destruct Ht as [(_ & Hga & _)|[Hga Hseq]].
  - apply IH; [done|]. by rewrite Hga.
  - pose proof (generation_le s Hok a g Hg) as Hle.
    destruct (IH _ Hok1 Hga) as [Hok' [Hg'|(g' & Hg' & Hlt)]]; (split; [done|right]).
    + exists (sequence s1). split; [done|lia].
    + exists g'. split; [done|lia].
Qed.

Lemma past_rollback s r : past (rbAccount r) (installedGeneration r) s → runRollback s (Some r) = s.
Proof.
  intros (g & Hg & Hlt). unfold runRollback. rewrite Hg.
  by rewrite (proj2 (Z.eqb_neq _ _)) by lia.
Qed.

Lemma reachable_ok s : reachable (λ s, s = emptyGateway) step s → generations_ok s.
Proof.
  apply reachable_invariant.
  - intros ? ->. split; [done|]. intros a g Hg. cbn in Hg. by rewrite lookup_empty in Hg.
  - intros s1 s2 Hok Hs. by destruct (step_touch s1 s2 0 Hok Hs).
Qed.

(** ** Lemmas on one account's block *)

(** The later of the present block, if there is one, and the new one. *)
Definition extendedUntil (current : option Time) (u : Time) : Time :=
  match current with
  | Some c => if IsZero c then u else Z.max c u
  | None => u
  end.

Lemma block_spec s id until now :
  blockUntil (fst (blockAccountSchedulingLocked s id until now)) =
    <[id := extendedUntil (blockUntil s !! id) (effectiveUntil until now)]> (blockUntil s).
Proof.
  unfold blockAccountSchedulingLocked, extendedUntil. cbn [bumpGeneration blockUntil].
  destruct (blockUntil s !! id) as [c|] eqn:E; [|done].
  destruct (IsZero c) eqn:Ez; [done|]. unfold After.
  destruct (c <? effectiveUntil until now) eqn:El; cbn [negb]; zbool; cbn.
  - by rewrite Z.max_r by lia.
  - rewrite Z.max_l by lia. by rewrite insert_id.
Qed.

Lemma effectiveUntil_after until now : 0 <= now → now < effectiveUntil until now.
Proof.
  intros Hn. unfold effectiveUntil, After, IsZero, Add, openAIStopSchedulingBridgeCooldown, Minute, Second.
  repeat case_match; zbool; lia.
Qed.

(** ** Properties *)

(** [BlockAccountScheduling] never shortens a block: afterwards the account
    is refused exactly until the later of the block it had and the new one (two
    minutes when the requested end is unset or past), and no other account's
    block changes. *)
Theorem runtime_block_extends s a until now :
  isOpenAIAccount (Some a) = true → 0 <= now →
  let s' := BlockAccountScheduling s (Some a) until now in
  let u := effectiveUntil until now in
  let deadline := extendedUntil (blockUntil s !! ID a) u in
  (∀ t, snd (isOpenAIAccountRuntimeBlocked s' (Some a) t) = (t <? deadline)) ∧
  u <= deadline ∧ now < deadline ∧
  (∀ id, id ≠ ID a → blockUntil s' !! id = blockUntil s !! id).
Proof.
  intros Ha Hn. cbv zeta. unfold BlockAccountScheduling. rewrite Ha.
  pose proof (block_spec s (ID a) until now) as Hb.
  pose proof (effectiveUntil_after until now Hn).
  assert (effectiveUntil until now <= extendedUntil (blockUntil s !! ID a) (effectiveUntil until now))
    by (unfold extendedUntil; repeat case_match; lia).
  set (d := extendedUntil _ _) in *.
  split_and!.
  - intros t. assert (Hd : d ≠ 0) by lia. unfold isOpenAIAccountRuntimeBlocked. rewrite Ha, Hb, lookup_insert_eq. cbn [negb].
    unfold IsZero. rewrite (proj2 (Z.eqb_neq d 0) Hd). unfold Before.
    by destruct (t <? d).
  - done.
  - lia.
  - intros id Hid. by rewrite Hb, lookup_insert_ne.
Qed.

(** The rollback of a credential block is exact and never undoes anyone
    else's work: run at once it restores the blocks as they were; run after any
    interleaving of other handlers in which some step changed the block of the
    account (even if a later one changed it back), it does nothing. *)
Theorem credential_rollback s account until now s1 r :
  reachable (λ s, s = emptyGateway) step s → sequence s + 1 < 2 ^ 64 → 0 <= now →
  blockGrokCredentialRuntime s account until now = (s1, Some r) →
  blockUntil (runRollback s1 (Some r)) = blockUntil s ∧
  (∀ s2 s3 s4, rtc step s1 s2 → step s2 s3 → rtc step s3 s4 →
     blockUntil s3 !! rbAccount r ≠ blockUntil s2 !! rbAccount r →
     runRollback s4 (Some r) = s4).
Proof.
  intros Hr Hw Hn Hc. pose proof (reachable_ok s Hr) as Hok.
  destruct (step_touch s s1 (rbAccount r) Hok) as [_ Hok1].
  { pose proof (step_op s (OpCredential account until now) Hw) as Hs. cbn [runOp] in Hs. by rewrite Hc in Hs. }
  unfold blockGrokCredentialRuntime in Hc. destruct account as [a|]; [|done].
  pose proof (block_spec s (ID a) until now) as Hb.
  assert (Hgen : generation (fst (blockAccountSchedulingLocked s (ID a) until now)) !! ID a =
                 Some (fst (snd (blockAccountSchedulingLocked s (ID a) until now)))).
  { unfold blockAccountSchedulingLocked. repeat case_match; cbn; apply lookup_insert_eq. }
  destruct (blockAccountSchedulingLocked s (ID a) until now) as [s' [g ch]]. cbn [fst snd] in *.
  rewrite Hb, lookup_insert_eq in Hc.
  set (d := extendedUntil _ _) in *.
  assert (Hsr : s' = s1 ∧ r = mkRollback (ID a) g d (blockUntil s !! ID a)).
  { repeat case_match; simplify_eq; done. }
  destruct Hsr as [-> ->]. cbn [rbAccount]. split.
  - unfold runRollback. cbn [rbAccount installedGeneration installedUntil before].
    rewrite Hgen, Z.eqb_refl, Hb, lookup_insert_eq. cbn [negb]. unfold Equal. rewrite Z.eqb_refl. cbn [negb].
    destruct (blockUntil s !! ID a) as [b|] eqn:E; cbn; rewrite Hb.
    + rewrite insert_insert_eq. by apply insert_id.
    + by apply delete_insert_id.
  - intros s2 s3 s4 H12 H23 H34 Hne.
    destruct (steps_ok s1 s2 (ID a) g H12 Hok1 Hgen) as [Hok2 Hg2].
    destruct (step_touch s2 s3 (ID a) Hok2 H23) as [Ht Hok3].
    apply past_rollback. cbn. apply (steps_past s3); [done..|].
    destruct Ht as [[? _]|[Hg3 Hseq]]; [done|]. exists (sequence s3). split; [done|].
    destruct Hg2 as [Hg2|(g' & Hg2 & ?)]; pose proof (generation_le s2 Hok2 _ _ Hg2); lia.
Qed.

(** the delay before retrying on the same account is never negative, at
    most eight seconds, never runs past the deadline of the retry window, and
    honours a Retry-After time that fits. *)
Theorem retry_delay_bounds retryAfter deadline now :
  let d := openAIOAuth429SameAccountRetryDelay retryAfter deadline now in
  0 <= d <= openAIOAuth429MaxRetryDelay ∧
  (deadline ≠ zeroTime → d <= Z.max 0 (deadline - now)) ∧
  (∀ t, retryAfter = Some t → now < t <= now + openAIOAuth429MaxRetryDelay →
     deadline = zeroTime ∨ t <= deadline → d = t - now).
Proof.
  assert (H8 : openAIOAuth429MaxRetryDelay = 8000000000) by done.
  assert (H5 : openAIOAuth429RetryDelay = 500000000) by done.
  cbv zeta. unfold openAIOAuth429SameAccountRetryDelay. rewrite H8, H5. unfold After, IsZero, zeroTime.
  pose proof (Sub_pos : ∀ t u, u < t → 0 < Sub t u) as Hpos.
  assert (Hsub : ∀ t u, Sub t u <= Z.max minInt64 (t - u)) by (intros; unfold Sub; lia).
  unfold minInt64 in Hsub. split_and!.
  - destruct retryAfter as [t|]; repeat case_match; zbool; lia.
  - destruct retryAfter as [t|]; repeat case_match; zbool; lia.
  - intros Hd. pose proof (Hsub deadline now). rewrite (proj2 (Z.eqb_neq deadline 0)) by done. cbn [negb andb].
    repeat case_match; zbool; lia.
  - intros t -> Ht Hdl. rewrite (proj2 (Z.ltb_lt now t)) by lia.
    rewrite (Sub_exact t now) by (unfold in_int64, minInt64, maxInt64; lia).
    rewrite (proj2 (Z.ltb_ge 8000000000 _)) by lia.
    destruct Hdl as [->|Hdl]; cbn [negb andb Z.eqb].
    + by rewrite (proj2 (Z.ltb_ge (t - now) 0)) by lia.
    + assert (Hs : (Sub deadline now <? t - now) = false) by (unfold Sub, minInt64, maxInt64; apply Z.ltb_ge; lia).
      rewrite Hs, andb_false_r. by rewrite (proj2 (Z.ltb_ge (t - now) 0)) by lia.
Qed.

(** The answers of the consecutive fail-over questions of one request. *)
Fixpoint failoverAnswers (state : option bool) (switches : Z) (failures : list (Account * Z)) : list bool :=
  match failures with
  | [] => []
  | (a, status) :: rest =>
      let '(state, stop) := ShouldStopOpenAIOAuth429Failover (Some a) status switches state in
      stop :: failoverAnswers state (switches + 1) rest
  end.

Lemma stop_pending a status n : 1 <= n → ShouldStopOpenAIOAuth429Failover a status n (Some true) = (Some true, true).
Proof. intros Hn. unfold ShouldStopOpenAIOAuth429Failover, openAIOAuth429StormMaxAccountSwitches. by rewrite (proj2 (Z.ltb_ge n 1)). Qed.

Lemma stop_429 a n state :
  1 <= n → isGrokOAuthAccount (Some a) = true ∨ isOpenAIOAuthAccount (Some a) = true → state ≠ Some true →
  ShouldStopOpenAIOAuth429Failover (Some a) StatusTooManyRequests n state =
    if isGrokOAuthAccount (Some a)
    then match state with None => (None, 2 <=? n) | Some _ => (Some true, false) end
    else (state, openAIOAuth429MaxAccountAttempts <=? n).
Proof.
  intros Hn Ha Hs. unfold ShouldStopOpenAIOAuth429Failover, openAIOAuth429StormMaxAccountSwitches.
  rewrite (proj2 (Z.ltb_ge n 1)) by done. rewrite Z.eqb_refl.
  destruct (isGrokOAuthAccount (Some a)) eqn:E; [by destruct state as [[]|]|].
  destruct Ha as [?|Ha]; [done|]. rewrite Ha. by destruct state as [[]|].
Qed.

(** a request whose every failure is a 429 of an OAuth account (OpenAI or
    Grok, in any mix) stops switching accounts: by its third failure without the
    per-request state or when the third account is not a Grok one, and by the
    fourth failure, whatever it is, otherwise; with the state, the failure after
    a first Grok 429 stops at once. *)
Theorem failover_bounded state a1 a2 a3 a4 status4 :
  (∀ a, a ∈ [a1; a2; a3] → isGrokOAuthAccount (Some a) = true ∨ isOpenAIOAuthAccount (Some a) = true) →
  let q := StatusTooManyRequests in
  (state = None ∨ isGrokOAuthAccount (Some a3) = false → true ∈ failoverAnswers state 1 [(a1, q); (a2, q); (a3, q)]) ∧
  true ∈ failoverAnswers state 1 [(a1, q); (a2, q); (a3, q); (a4, status4)] ∧
  (∀ pending status2, state = Some pending → isGrokOAuthAccount (Some a1) = true →
     true ∈ failoverAnswers state 1 [(a1, q); (a2, status2)]).
Proof.
  intros Ha. cbv zeta.
  pose proof (Ha a1 ltac:(set_solver)) as H1. pose proof (Ha a2 ltac:(set_solver)) as H2.
  pose proof (Ha a3 ltac:(set_solver)) as H3.
  destruct (decide (state = Some true)) as [->|Hs].
  { cbn [failoverAnswers]. rewrite !stop_pending by lia. split_and!; [by left..|].
    intros pending status2 _ _. rewrite !stop_pending by lia. by left. }
  cbn [failoverAnswers]. rewrite (stop_429 a1) by (lia || done).
  destruct (isGrokOAuthAccount (Some a1)); [destruct state as [p|]|].
  - rewrite !stop_pending by lia. split_and!; [right; by left..|].
    intros pending status2 _ _. rewrite !stop_pending by lia. right. by left.
  - rewrite (stop_429 a2) by (lia || done).
    destruct (isGrokOAuthAccount (Some a2)); [split_and!; [right; by left..|done]|].
    rewrite (stop_429 a3) by (lia || done).
    destruct (isGrokOAuthAccount (Some a3)); (split_and!; [right; right; by left..|done]).
  - rewrite (stop_429 a2) by (lia || done).
    destruct (isGrokOAuthAccount (Some a2)); [destruct state as [p|]|].
    + rewrite !stop_pending by lia. split_and!; [right; right; by left..|done].
    + split_and!; [right; by left..|done].
    + rewrite (stop_429 a3) by (lia || done).
      destruct (isGrokOAuthAccount (Some a3)) eqn:E3; [destruct state as [p|]|].
      * rewrite !stop_pending by lia. split_and!; [by intros [?|?]|right; right; right; by left|done].
      * split_and!; [right; right; by left..|done].
      * split_and!; [right; right; by left..|done].
Qed.

(** ** Witnesses *)

Definition openaiAccount : Account := mkAccount 7 PlatformOpenAI AccountTypeOAuth None None 0 None.
Definition grokAccount : Account := mkAccount 9 PlatformGrok AccountTypeOAuth None None 0 None.

Lemma runtime_block_extends_witness :
  snd (isOpenAIAccountRuntimeBlocked
    (BlockAccountScheduling emptyGateway (Some openaiAccount) zeroTime (100 * Second)) (Some openaiAccount) (150 * Second))
  = true.
Proof.
  rewrite (proj1 (runtime_block_extends emptyGateway openaiAccount zeroTime (100 * Second) eq_refl ltac:(vm_compute; done)));
    vm_compute; done.
Defined.

Definition blocked9 : gateway := fst (blockGrokCredentialRuntime emptyGateway (Some grokAccount) (300 * Second) (100 * Second)).
Definition rollback9 : rollback := mkRollback 9 1 (300 * Second) None.

Lemma credential_rollback_witness : runRollback (ClearAccountSchedulingBlock blocked9 9) (Some rollback9) =
  ClearAccountSchedulingBlock blocked9 9.
Proof.
  refine (proj2 (credential_rollback emptyGateway (Some grokAccount) (300 * Second) (100 * Second) blocked9 rollback9
    _ _ _ _) blocked9 _ _ _ _ _ _).
  - by apply reach_init.
  - vm_compute; done.
  - vm_compute; done.
  - vm_compute; reflexivity.
  - reflexivity.
  - apply (step_op blocked9 (OpClear 9)). vm_compute; done.
  - reflexivity.
  - vm_compute; done.
Defined.

Lemma failover_bounded_witness :
  true ∈ failoverAnswers (Some false) 1
    [(openaiAccount, StatusTooManyRequests); (grokAccount, StatusTooManyRequests); (openaiAccount, StatusTooManyRequests)].
Proof.
  apply (failover_bounded (Some false) openaiAccount grokAccount openaiAccount openaiAccount 500); [|by right].
  intros a Ha. repeat (apply elem_of_cons in Ha as [->|Ha]; [vm_compute; by auto|]). by apply elem_of_nil in Ha.
Defined.

Lemma retry_delay_bounds_witness :
  openAIOAuth429SameAccountRetryDelay (Some (103 * Second)) (200 * Second) (100 * Second) = 3 * Second.
Proof.
  apply (proj2 (proj2 (retry_delay_bounds (Some (103 * Second)) (200 * Second) (100 * Second))) (103 * Second) eq_refl).
  - vm_compute. split; [done|discriminate].
  - right. vm_compute. discriminate.
Defined.
