(* ===== verification/IdempotencyStore.v ===== *)
(** * The table of idempotency records

    [backend/internal/repository/idempotency_repo.go]: every method is one SQL
    statement, which PostgreSQL executes atomically, so each is one function on
    the table.  [rows] is the table by primary key, [keyIndex] its unique index
    on (scope, idempotency_key_hash), and [nextID] the sequence of the primary
    key; [dbNow] is the database's [NOW()]. *)

From S2P Require Import Prelude GoRuntime.
#[local] Open Scope Z_scope.

Definition IdempotencyStatusProcessing : string := "processing".
Definition IdempotencyStatusSucceeded : string := "succeeded".
Definition IdempotencyStatusFailedRetryable : string := "failed_retryable".

Record IdempotencyRecord := mkRecord {
  ID : Z;
  Scope : string;
  IdempotencyKeyHash : string;
  RequestFingerprint : string;
  Status : string;
  ResponseStatus : option Z;
  ResponseBody : option string;
  ErrorReason : option string;
  LockedUntil : option Time;
  ExpiresAt : Time;
  CreatedAt : Time;
  UpdatedAt : Time;
}.

Record table := mkTable {
  rows : gmap Z IdempotencyRecord;
  keyIndex : gmap (string * string) Z;
  nextID : Z;
}.

Definition emptyTable : table := mkTable ∅ ∅ 1.

Definition keyOf (r : IdempotencyRecord) : string * string := (Scope r, IdempotencyKeyHash r).

(** INSERT ... ON CONFLICT DO NOTHING RETURNING id: the new identifier, or
    [None] when the key exists. *)
Definition CreateProcessing (t : table) (record : IdempotencyRecord) (dbNow : Time) : table * option Z :=
  match keyIndex t !! keyOf record with
  | Some _ => (t, None)
  | None =>
      let id := nextID t in
      let row := mkRecord id (Scope record) (IdempotencyKeyHash record) (RequestFingerprint record) (Status record)
                   None None None (LockedUntil record) (ExpiresAt record) dbNow dbNow in
      (mkTable (<[id := row]> (rows t)) (<[keyOf record := id]> (keyIndex t)) (id + 1), Some id)
  end.

Definition GetByScopeAndKeyHash (t : table) (scope keyHash : string) : option IdempotencyRecord :=
  match keyIndex t !! (scope, keyHash) with
  | None => None
  | Some id => rows t !! id
  end.

(** An UPDATE of the row [id] guarded by [cond]; the flag is [affected > 0]. *)
Definition updateRow (t : table) (id : Z) (cond : IdempotencyRecord → bool)
    (f : IdempotencyRecord → IdempotencyRecord) : table * bool :=
  match rows t !! id with
  | Some r => if cond r then (mkTable (<[id := f r]> (rows t)) (keyIndex t) (nextID t), true) else (t, false)
  | None => (t, false)
  end.

Definition TryReclaim (t : table) (id : Z) (fromStatus : string) (now newLockedUntil newExpiresAt dbNow : Time)
    : table * bool :=
  updateRow t id
    (λ r, String.eqb (Status r) fromStatus
          && match LockedUntil r with None => true | Some l => l <=? now end)
    (λ r, mkRecord (ID r) (Scope r) (IdempotencyKeyHash r) (RequestFingerprint r) IdempotencyStatusProcessing
            (ResponseStatus r) (ResponseBody r) None (Some newLockedUntil) newExpiresAt (CreatedAt r) dbNow).

Definition ExtendProcessingLock (t : table) (id : Z) (requestFingerprint : string)
    (newLockedUntil newExpiresAt dbNow : Time) : table * bool :=
  updateRow t id
    (λ r, String.eqb (Status r) IdempotencyStatusProcessing
          && String.eqb (RequestFingerprint r) requestFingerprint)
    (λ r, mkRecord (ID r) (Scope r) (IdempotencyKeyHash r) (RequestFingerprint r) (Status r)
            (ResponseStatus r) (ResponseBody r) (ErrorReason r) (Some newLockedUntil) newExpiresAt (CreatedAt r) dbNow).

Definition MarkSucceeded (t : table) (id responseStatus : Z) (responseBody : string) (expiresAt dbNow : Time) : table :=
  fst (updateRow t id (λ _, true)
    (λ r, mkRecord (ID r) (Scope r) (IdempotencyKeyHash r) (RequestFingerprint r) IdempotencyStatusSucceeded
            (Some responseStatus) (Some responseBody) None None expiresAt (CreatedAt r) dbNow)).

Definition MarkFailedRetryable (t : table) (id : Z) (errorReason : string) (lockedUntil expiresAt dbNow : Time) : table :=
  fst (updateRow t id (λ _, true)
    (λ r, mkRecord (ID r) (Scope r) (IdempotencyKeyHash r) (RequestFingerprint r) IdempotencyStatusFailedRetryable
            (ResponseStatus r) (ResponseBody r) (Some errorReason) (Some lockedUntil) expiresAt (CreatedAt r) dbNow)).

(** DeleteExpired: the victims are the expired rows, oldest expiry first (rows
    with equal expiry in the order of the sort), up to the limit. *)
Definition expiresLe (a b : Z * IdempotencyRecord) : Prop := ExpiresAt (snd a) <= ExpiresAt (snd b).
#[export] Instance expiresLe_dec a b : Decision (expiresLe a b) := Z_le_dec _ _.

Definition victims (t : table) (now : Time) (limit : Z) : list (Z * IdempotencyRecord) :=
  take (Z.to_nat limit)
    (merge_sort expiresLe (filter (λ kv, ExpiresAt (snd kv) <= now) (map_to_list (rows t)))).

Definition deleteRow (t : table) (kv : Z * IdempotencyRecord) : table :=
  mkTable (delete (fst kv) (rows t)) (delete (keyOf (snd kv)) (keyIndex t)) (nextID t).

Definition DeleteExpired (t : table) (now : Time) (limit : Z) : table * Z :=
  let limit := if limit <=? 0 then 500 else limit in
  let vs := victims t now limit in
  (foldl deleteRow t vs, Z.of_nat (length vs)).

(** ** The integrity of the table *)

Record table_ok (t : table) : Prop := {
  index_row : ∀ k id, keyIndex t !! k = Some id ↔ ∃ r, rows t !! id = Some r ∧ keyOf r = k;
  row_id : ∀ id r, rows t !! id = Some r → ID r = id ∧ 0 < id < nextID t;
}.

Lemma emptyTable_ok : table_ok emptyTable.
Proof.
  split; cbn.
  - intros k id. rewrite lookup_empty. split; [done|]. intros (r & Hr & _). by rewrite lookup_empty in Hr.
  - intros id r Hr. by rewrite lookup_empty in Hr.
Qed.

Lemma nextID_fresh t : table_ok t → rows t !! nextID t = None.
Proof.
  intros [_ Hr]. destruct (rows t !! nextID t) as [r|] eqn:E; [|done].
  destruct (Hr _ _ E). lia.
Qed.

Lemma CreateProcessing_ok t record dbNow :
  0 < nextID t → table_ok t → table_ok (fst (CreateProcessing t record dbNow)).
Proof.
  intros Hpos Hok. unfold CreateProcessing. destruct (keyIndex t !! keyOf record) as [?|] eqn:E; [done|].
  pose proof (nextID_fresh t Hok) as Hf. destruct Hok as [Hi Hr]. split; cbn [fst rows keyIndex nextID].
  - intros k id. destruct (decide (id = nextID t)) as [->|Hne].
    + rewrite (lookup_insert_eq (rows t)). split.
      * intros [[<- _]|[? Hk]]%lookup_insert_Some; [eexists; by split|].
        apply Hi in Hk as (r & ? & _). congruence.
      * intros (r & [= <-] & <-). apply lookup_insert_eq.
    + rewrite (lookup_insert_ne (rows t)) by done. rewrite <- Hi. destruct (decide (k = keyOf record)) as [->|Hk].
      * rewrite lookup_insert_eq, E. split; [|done]. intros [= ?]. congruence.
      * by rewrite lookup_insert_ne.
  - intros id r [[<- <-]|[? Hid]]%lookup_insert_Some; [cbn; lia|].
    destruct (Hr _ _ Hid). lia.
Qed.

Lemma updateRow_ok t id cond f :
  (∀ r, keyOf (f r) = keyOf r ∧ ID (f r) = ID r) → table_ok t → table_ok (fst (updateRow t id cond f)).
Proof.
  intros Hf Hok. unfold updateRow. destruct (rows t !! id) as [r|] eqn:E; [|done].
  destruct (cond r); [|done]. destruct Hok as [Hi Hr], (Hf r) as [Hk HID]. split; cbn [fst rows keyIndex nextID].
  - intros k id'. rewrite Hi. destruct (decide (id' = id)) as [->|Hne].
    + rewrite lookup_insert_eq, E. split; intros (r' & [= <-] & <-); eexists; (split; [done|congruence]).
    + by rewrite lookup_insert_ne.
  - intros id' r' [[<- <-]|[? Hid]]%lookup_insert_Some; [rewrite HID|]; eauto.
Qed.

Lemma deleteRow_ok t kv : rows t !! fst kv = Some (snd kv) → table_ok t → table_ok (deleteRow t kv).
Proof.
  intros Hkv [Hi Hr]. destruct kv as [id r]. cbn [fst snd] in *. split; cbn [rows keyIndex nextID deleteRow fst snd].
  - intros k id'. destruct (decide (k = keyOf r)) as [->|Hk].
    + rewrite lookup_delete_eq. split; [done|]. intros (r' & [Hne Hr']%lookup_delete_Some & Hk').
      assert (keyIndex t !! keyOf r = Some id) by (apply Hi; eauto).
      assert (keyIndex t !! keyOf r = Some id') by (apply Hi; eauto). congruence.
    + rewrite lookup_delete_ne by done. rewrite Hi. split; intros (r' & Hr' & Hk'); exists r'; (split; [|done]).
      * rewrite lookup_delete_ne; [done|]. intros ->. congruence.
      * by apply lookup_delete_Some in Hr' as [_ ?].
  - intros id' r' [_ ?]%lookup_delete_Some. eauto.
Qed.

Lemma lookup_foldl_deleteRow vs t id :
  rows (foldl deleteRow t vs) !! id = if decide (id ∈ vs.*1) then None else rows t !! id.
Proof.
  revert t. induction vs as [|[i r] vs IH]; intros t; [done|]. cbn [foldl]. rewrite IH. cbn.
  destruct (decide (id ∈ vs.*1)) as [Hin|Hin].
  - rewrite decide_True by (by right). done.
  - destruct (decide (id = i)) as [->|Hne].
    + rewrite decide_True by left. apply lookup_delete_eq.
    + rewrite decide_False by (by intros [?|?]%elem_of_cons). by rewrite lookup_delete_ne.
Qed.

Lemma foldl_deleteRow_ok vs t :
  NoDup vs.*1 → Forall (λ kv, rows t !! fst kv = Some (snd kv)) vs → table_ok t → table_ok (foldl deleteRow t vs).
Proof.
  revert t. induction vs as [|kv vs IH]; intros t Hnd Hall Hok; [done|].
  apply NoDup_cons in Hnd as [Hnin Hnd]. apply Forall_cons in Hall as [Hkv Hall]. cbn [foldl].
  apply IH; [done| |by apply deleteRow_ok].
  apply Forall_forall. intros kv' Hin. rewrite Forall_forall in Hall. cbn.
  rewrite lookup_delete_ne; [by apply Hall|]. intros E. apply Hnin. rewrite E. by apply list_elem_of_fmap_2.
Qed.

#[export] Instance expiresLe_total : Total expiresLe.
Proof. intros a b. unfold expiresLe. lia. Qed.
#[export] Instance expiresLe_trans : Transitive expiresLe.
Proof. intros a b c. unfold expiresLe. lia. Qed.

Section victims.
Context (t : table) (now : Time) (limit : Z).

Abbreviation expired := (filter (λ kv, ExpiresAt (snd kv) <= now) (map_to_list (rows t))).

Lemma elem_of_victims kv : kv ∈ victims t now limit → rows t !! fst kv = Some (snd kv) ∧ ExpiresAt (snd kv) <= now.
Proof.
  unfold victims. intros Hin. apply (subseteq_take (Z.to_nat limit)) in Hin.
  rewrite (merge_sort_Permutation expiresLe) in Hin. apply list_elem_of_filter in Hin as [He Hin].
  destruct kv as [k v]. by apply elem_of_map_to_list in Hin.
Qed.

Lemma NoDup_victims : NoDup (victims t now limit).*1.
Proof.
  unfold victims. rewrite fmap_take. eapply sublist_NoDup; [|apply sublist_take].
  rewrite (merge_sort_Permutation expiresLe). eapply sublist_NoDup; [apply (NoDup_fst_map_to_list (rows t))|].
  apply fmap_sublist, sublist_filter.
Qed.

Lemma victims_oldest kv kv' :
  kv ∈ victims t now limit → kv' ∈ map_to_list (rows t) → kv' ∉ victims t now limit →
  ExpiresAt (snd kv) <= ExpiresAt (snd kv').
Proof.
  intros Hin Hin' Hnin. destruct (decide (ExpiresAt (snd kv') <= now)) as [He|He].
  2:{ apply elem_of_victims in Hin as [_ ?]. lia. }
  unfold victims in *. set (l := merge_sort _ _) in *.
  assert (Hl : kv' ∈ l).
  { unfold l. rewrite (merge_sort_Permutation expiresLe). apply list_elem_of_filter; by split. }
  rewrite <- (take_drop (Z.to_nat limit) l) in Hl. apply elem_of_app in Hl as [?|Hd]; [done|].
  assert (Hs : StronglySorted expiresLe l) by (unfold l; apply (StronglySorted_merge_sort expiresLe); apply _).
  rewrite <- (take_drop (Z.to_nat limit) l) in Hs.
  exact (StronglySorted_app_1_elem_of expiresLe _ _ _ _ Hs Hin Hd).
Qed.
End victims.

Lemma DeleteExpired_ok t now limit : table_ok t → table_ok (fst (DeleteExpired t now limit)).
Proof.
  intros Hok. unfold DeleteExpired. cbn [fst]. apply foldl_deleteRow_ok; [apply NoDup_victims| |done].
  apply Forall_forall. intros kv Hkv. by apply elem_of_victims in Hkv as [? _].
Qed.

Lemma zsize_foldl_deleteRow vs t :
  NoDup vs.*1 → Forall (λ kv, rows t !! fst kv = Some (snd kv)) vs →
  zsize (rows (foldl deleteRow t vs)) = zsize (rows t) - Z.of_nat (length vs).
Proof.
  revert t. induction vs as [|kv vs IH]; intros t Hnd Hall; cbn [foldl length]; [lia|].
  apply NoDup_cons in Hnd as [Hnin Hnd]. apply Forall_cons in Hall as [Hkv Hall].
  rewrite IH; [|done|].
  - cbn. rewrite zsize_delete_Some by eauto. lia.
  - apply Forall_forall. intros kv' Hin. rewrite Forall_forall in Hall. cbn.
    rewrite lookup_delete_ne; [by apply Hall|]. intros E. apply Hnin. rewrite E. by apply list_elem_of_fmap_2.
Qed.

(** An expired row that is not a victim: the limit was reached. *)
Lemma victims_full t now limit id r :
  0 <= limit → rows t !! id = Some r → ExpiresAt r <= now → id ∉ (victims t now limit).*1 →
  Z.of_nat (length (victims t now limit)) = limit.
Proof.
  intros Hl Hr He Hn. unfold victims in *. set (l := merge_sort _ _) in *.
  rewrite length_take. destruct (decide (length l <= Z.to_nat limit)%nat) as [Hle|Hle]; [|lia].
  exfalso. apply Hn. rewrite take_ge by done.
  change id with (fst (id, r)). apply list_elem_of_fmap_2.
  unfold l. rewrite (merge_sort_Permutation expiresLe). apply list_elem_of_filter. split; [done|].
  by apply elem_of_map_to_list.
Qed.

(** ** Property *)

(** the cleanup deletes only expired records, at most the limit (500 when it
    is not positive), never a record while one that expires earlier survives,
    reports the number of deletions, and leaves the unique index exact. *)
Theorem delete_expired_spec t now limit :
  table_ok t →
  let t' := fst (DeleteExpired t now limit) in
  let n := if limit <=? 0 then 500 else limit in
  table_ok t' ∧
  zsize (rows t') = zsize (rows t) - snd (DeleteExpired t now limit) ∧
  snd (DeleteExpired t now limit) <= n ∧
  (∀ id r, rows t' !! id = Some r → rows t !! id = Some r) ∧
  (∀ id r, rows t !! id = Some r → rows t' !! id = None →
     ExpiresAt r <= now ∧ ∀ id' r', rows t' !! id' = Some r' → ExpiresAt r <= ExpiresAt r') ∧
  (∀ id r, rows t' !! id = Some r → ExpiresAt r <= now → snd (DeleteExpired t now limit) = n).
Proof.
  intros Hok t' n. pose proof (DeleteExpired_ok t now limit Hok) as Hok'.
  assert (Hn : 0 <= n) by (unfold n; case_match; zbool; lia).
  unfold t' in *. unfold DeleteExpired in *. cbn [fst snd] in *. fold n in Hok' |- *.
  set (vs := victims t now n) in *.
  assert (Hnd : NoDup vs.*1) by apply NoDup_victims.
  assert (Hvs : Forall (λ kv, rows t !! fst kv = Some (snd kv)) vs).
  { apply Forall_forall. intros kv Hkv. by apply elem_of_victims in Hkv as [? _]. }
  split_and!; [done|by apply zsize_foldl_deleteRow| | | |].
  - unfold vs, victims. rewrite length_take. lia.
  - intros id r. rewrite lookup_foldl_deleteRow. by case_decide.
  - intros id r Hr. rewrite lookup_foldl_deleteRow. case_decide as Hin; [intros _|congruence].
    apply list_elem_of_fmap in Hin as ([id0 r0] & -> & Hin). cbn in Hr.
    destruct (elem_of_victims _ _ _ _ Hin) as [Hr0 He]. cbn in Hr0, He. simplify_eq. split; [done|].
    intros id' r'. rewrite lookup_foldl_deleteRow. case_decide as Hn'; [done|]. intros Hr'.
    apply (victims_oldest t now n (id0, r) (id', r')); [done|by apply elem_of_map_to_list|].
    intros Hv. apply Hn'. by apply (list_elem_of_fmap_2 fst _ (id', r')).
  - intros id r. rewrite lookup_foldl_deleteRow. case_decide as Hn'; [done|]. intros Hr He.
    by apply (victims_full t now n id r).
Qed.

(** ** Witness *)

Definition record1 : IdempotencyRecord :=
  mkRecord 0 "s" "h" "f" IdempotencyStatusProcessing None None None (Some 5) 10 0 0.
Definition table1 : table := fst (CreateProcessing emptyTable record1 0).

Lemma delete_expired_spec_witness : zsize (rows (fst (DeleteExpired table1 10 0))) = 0.
Proof.
  rewrite (proj1 (proj2 (delete_expired_spec table1 10 0
    (CreateProcessing_ok emptyTable record1 0 eq_refl emptyTable_ok)))).
  vm_compute. reflexivity.
Defined.
