(* ===== verification/Idempotency.v ===== *)
(** * Idempotent execution of write requests

    [backend/internal/service/idempotency.go].  [Execute] interacts with the
    store, the clock and the caller's function; it is a program [Prog] over
    these calls, in the order and with the early returns of the code.  A single
    request is run by [runProg]; concurrent requests are a pool of programs over
    one table whose calls interleave ([step]), every store call being one SQL
    statement (IdempotencyStore.v) that may also fail, before or after taking
    effect.

    Metrics and audit logs are not modelled.  JSON encoding, the redaction of
    stored bodies and SHA-256 are arguments ([IdempotencyEnv]). *)

From S2P Require Import Prelude GoRuntime AppErrors IdempotencyStore.
#[local] Open Scope Z_scope.

Class IdempotencyEnv := {
  Payload : Type;
  Data : Type;
  (** [json.Marshal], [None] for an error, and [json.Unmarshal] into [any]. *)
  marshalPayload : Payload → option string;
  marshalData : Data → option string;
  unmarshalData : string → result goError Data;
  (** [map[string]any{}]. *)
  emptyObject : Data;
  RedactText : string → string;
  (** [hex.EncodeToString(sha256.Sum256(s))]. *)
  sha256Hex : string → string;
}.

Definition ErrIdempotencyKeyRequired := BadRequest "IDEMPOTENCY_KEY_REQUIRED" "idempotency key is required".
Definition ErrIdempotencyKeyInvalid := BadRequest "IDEMPOTENCY_KEY_INVALID" "idempotency key is invalid".
Definition ErrIdempotencyKeyConflict := Conflict "IDEMPOTENCY_KEY_CONFLICT" "idempotency key reused with different payload".
Definition ErrIdempotencyInProgress := Conflict "IDEMPOTENCY_IN_PROGRESS" "idempotent request is still processing".
Definition ErrIdempotencyRetryBackoff := Conflict "IDEMPOTENCY_RETRY_BACKOFF" "idempotent request is in retry backoff window".
Definition ErrIdempotencyStoreUnavail := ServiceUnavailable "IDEMPOTENCY_STORE_UNAVAILABLE" "idempotency store unavailable".
Definition ErrIdempotencyInvalidPayload := BadRequest "IDEMPOTENCY_PAYLOAD_INVALID" "failed to normalize request payload".

Record IdempotencyConfig := mkConfig {
  DefaultTTL : Duration;
  SystemOperationTTL : Duration;
  ProcessingTimeout : Duration;
  FailedRetryBackoff : Duration;
  MaxStoredResponseLen : Z;
  ObserveOnly : bool;
}.

Definition DefaultIdempotencyConfig : IdempotencyConfig :=
  mkConfig (24 * Hour) (1 * Hour) (30 * Second) (5 * Second) (64 * 1024) true.

(** The process-wide default coordinator is the argument [coordinator]. *)
Definition DefaultWriteIdempotencyTTL (coordinator : option IdempotencyConfig) : Duration :=
  match coordinator with
  | Some cfg => if 0 <? DefaultTTL cfg then DefaultTTL cfg else DefaultTTL DefaultIdempotencyConfig
  | None => DefaultTTL DefaultIdempotencyConfig
  end.
Definition DefaultSystemOperationIdempotencyTTL (coordinator : option IdempotencyConfig) : Duration :=
  match coordinator with
  | Some cfg => if 0 <? SystemOperationTTL cfg then SystemOperationTTL cfg else SystemOperationTTL DefaultIdempotencyConfig
  | None => SystemOperationTTL DefaultIdempotencyConfig
  end.

(** The code tests runes; a byte outside 33..126 is exactly a rune outside it
    (every byte of a non-ASCII sequence decodes to a rune above 126). *)
Definition printableByte (a : ascii) : bool := ((33 <=? byteOf a) && (byteOf a <=? 126))%N.

Definition NormalizeIdempotencyKey (raw : string) : result goError string :=
  let key := TrimSpace raw in
  if String.eqb key "" then Ok "" else
  if 128 <? len key then Err (AppErr ErrIdempotencyKeyInvalid) else
  if forallb printableByte (String.list_ascii_of_string key) then Ok key
  else Err (AppErr ErrIdempotencyKeyInvalid).

(** The loop of [truncateUTF8]. *)
Fixpoint shrinkToValid (s : string) (n : nat) : string :=
  match n with
  | O => ""
  | S m => if ValidString (String.substring 0 n s) then String.substring 0 n s else shrinkToValid s m
  end.

Definition truncateUTF8 (s : string) (maxBytes : Z) : string :=
  if (maxBytes <=? 0) || (len s <=? maxBytes) then s else shrinkToValid s (Z.to_nat maxBytes).

Definition conflictWithRetryAfter (base : ApplicationError) (lockedUntil : option Time) (now : Time) : goError :=
  match lockedUntil with
  | None => AppErr base
  | Some l =>
      let sec := f64_trunc (Seconds (Sub l now)) in
      let sec := if sec <=? 0 then 1 else sec in
      AppErr (WithMetadata base (Some {[ "retry_after" := Itoa sec ]}))
  end.

Definition RetryAfterSecondsFromError (err : option goError) : Z :=
  match err with
  | None => 0
  | Some err =>
      match asApplicationError err with
      | None => 0
      | Some appErr =>
          match Metadata (statusOf appErr) with
          | None => 0
          | Some md =>
              let v := TrimSpace (default "" (md !! "retry_after")) in
              if String.eqb v "" then 0 else
              match Atoi v with
              | None => 0
              | Some seconds => if seconds <=? 0 then 0 else seconds
              end
          end
      end
  end.

Section coordinator.
Context `{UnicodeCase} `{IdempotencyEnv}.

Definition HashIdempotencyKey (key : string) : string := sha256Hex key.

Definition newline : string := String (ascii_of_nat 10) "".

Definition BuildIdempotencyFingerprint (method route actorScope : string) (payload : Payload) : result goError string :=
  let method := if String.eqb method "" then "POST" else method in
  let route := if String.eqb route "" then "/" else route in
  let actorScope := if String.eqb actorScope "" then "anonymous" else actorScope in
  match marshalPayload payload with
  | None => Err (AppErr ErrIdempotencyInvalidPayload)
  | Some raw => Ok (sha256Hex (ToUpper method +:+ newline +:+ route +:+ newline +:+ actorScope +:+ newline +:+ raw))
  end.

Record IdempotencyExecuteOptions := mkOptions {
  oScope : string;
  ActorScope : string;
  Method : string;
  Route : string;
  IdempotencyKey : string;
  oPayload : Payload;
  TTL : Duration;
  RequireKey : bool;
}.

Record IdempotencyExecuteResult := mkResult {
  rData : Data;
  Replayed : bool;
}.

(** A coordinator with a nil repository has [hasRepo = false]. *)
Record IdempotencyCoordinator := mkCoordinator {
  hasRepo : bool;
  cfg : IdempotencyConfig;
}.

Definition marshalStoredResponse (c : IdempotencyCoordinator) (data : Data) : result goError string :=
  match marshalData data with
  | None => Err (OtherErr "json" [])
  | Some raw =>
      let redacted := RedactText raw in
      let max := MaxStoredResponseLen (cfg c) in
      Ok (if (0 <? max) && (max <? len redacted) then truncateUTF8 redacted max +:+ "...(truncated)" else redacted)
  end.

Definition decodeStoredResponse (stored : option string) : result goError Data :=
  match stored with
  | None => Ok emptyObject
  | Some s => if String.eqb (TrimSpace s) "" then Ok emptyObject else unmarshalData s
  end.

(** ** Programs over the store, the clock and the executor *)

Inductive call : Type → Type :=
  | CNow : call Time
  | CCreate (record : IdempotencyRecord) : call (result goError (option Z))
  | CGet (scope keyHash : string) : call (result goError (option IdempotencyRecord))
  | CReclaim (id : Z) (fromStatus : string) (now newLockedUntil newExpiresAt : Time) : call (result goError bool)
  | CExtend (id : Z) (requestFingerprint : string) (newLockedUntil newExpiresAt : Time) : call (result goError bool)
  | CSucceeded (id responseStatus : Z) (responseBody : string) (expiresAt : Time) : call (result goError unit)
  | CFailed (id : Z) (errorReason : string) (lockedUntil expiresAt : Time) : call (result goError unit)
  | CExecute : call (result goError Data).

Inductive Prog (A : Type) : Type :=
  | Ret (a : A)
  | Do {R : Type} (c : call R) (k : R → Prog A).
Arguments Ret {A} a.
Arguments Do {A R} c k.

Fixpoint bindProg {A B} (f : A → Prog B) (p : Prog A) : Prog B :=
  match p with
  | Ret a => f a
  | Do c k => Do c (λ r, bindProg f (k r))
  end.
#[local] Instance prog_ret : MRet Prog := @Ret.
#[local] Instance prog_bind : MBind Prog := @bindProg.

Definition storeUnavail {A} (cause : option goError) : Prog (result goError A) :=
  Ret (Err (AppErr (WithCause ErrIdempotencyStoreUnavail cause))).
Definition fail {A} (e : ApplicationError) : Prog (result goError A) := Ret (Err (AppErr e)).

(** How a request gets past the store: it owns the record, or the stored
    response answers it. *)
Inductive admission :=
  | Owner (recordID : Z)
  | Replay (data : Data).

(** The parameters of one call of [Execute] once they are computed. *)
Record attempt := mkAttempt {
  aScope : string;
  aKeyHash : string;
  aFingerprint : string;
  aNow : Time;
  aLockedUntil : Time;
  aExpiresAt : Time;
}.

(** The switch over the status of an existing record. *)
Definition admitByStatus (a : attempt) (existing : IdempotencyRecord) : Prog (result goError admission) :=
  if String.eqb (Status existing) IdempotencyStatusSucceeded then
    match decodeStoredResponse (ResponseBody existing) with
    | Err e => storeUnavail (Some e)
    | Ok data => Ret (Ok (Replay data))
    end
  else if String.eqb (Status existing) IdempotencyStatusProcessing then
    Ret (Err (conflictWithRetryAfter ErrIdempotencyInProgress (LockedUntil existing) (aNow a)))
  else if String.eqb (Status existing) IdempotencyStatusFailedRetryable then
    if match LockedUntil existing with Some l => After l (aNow a) | None => false end then
      Ret (Err (conflictWithRetryAfter ErrIdempotencyRetryBackoff (LockedUntil existing) (aNow a)))
    else
      taken ← Do (CReclaim (ID existing) IdempotencyStatusFailedRetryable (aNow a) (aLockedUntil a) (aExpiresAt a)) Ret;
      match taken with
      | Err e => storeUnavail (Some e)
      | Ok false => Ret (Err (conflictWithRetryAfter ErrIdempotencyInProgress (LockedUntil existing) (aNow a)))
      | Ok true => Ret (Ok (Owner (ID existing)))
      end
  else fail ErrIdempotencyKeyConflict.

(** An existing record that is expired is reclaimed, or read again when another
    request was faster. *)
Definition admitExisting (a : attempt) (existing : IdempotencyRecord) : Prog (result goError admission) :=
  if negb (String.eqb (RequestFingerprint existing) (aFingerprint a)) then fail ErrIdempotencyKeyConflict else
  if negb (After (ExpiresAt existing) (aNow a)) then
    taken ← Do (CReclaim (ID existing) (Status existing) (aNow a) (aLockedUntil a) (aExpiresAt a)) Ret;
    match taken with
    | Err e => storeUnavail (Some e)
    | Ok true => Ret (Ok (Owner (ID existing)))
    | Ok false =>
        latest ← Do (CGet (aScope a) (aKeyHash a)) Ret;
        match latest with
        | Err e => storeUnavail (Some e)
        | Ok None => storeUnavail None
        | Ok (Some latest) =>
            if negb (String.eqb (RequestFingerprint latest) (aFingerprint a)) then fail ErrIdempotencyKeyConflict
            else admitByStatus a latest
        end
    end
  else admitByStatus a existing.

Definition admitRequest (a : attempt) : Prog (result goError admission) :=
  let record := mkRecord 0 (aScope a) (aKeyHash a) (aFingerprint a) IdempotencyStatusProcessing
                  None None None (Some (aLockedUntil a)) (aExpiresAt a) zeroTime zeroTime in
  owner ← Do (CCreate record) Ret;
  match owner with
  | Err e => storeUnavail (Some e)
  | Ok (Some id) => Ret (Ok (Owner id))
  | Ok None =>
      existing ← Do (CGet (aScope a) (aKeyHash a)) Ret;
      match existing with
      | Err e => storeUnavail (Some e)
      | Ok None => storeUnavail None
      | Ok (Some existing) => admitExisting a existing
      end
  end.

(** From the check of [record.ID] to the end of [Execute]. *)
Definition runOwned (c : IdempotencyCoordinator) (id : Z) (expiresAt : Time) : Prog (result goError IdempotencyExecuteResult) :=
  if id =? 0 then storeUnavail None else
  data ← Do CExecute Ret;
  match data with
  | Err execErr =>
      now ← Do CNow Ret;
      let backoffUntil := Add now (FailedRetryBackoff (cfg c)) in
      let reason := if String.eqb (Reason (Some execErr)) "" then "EXECUTION_FAILED" else Reason (Some execErr) in
      _ ← Do (CFailed id reason backoffUntil expiresAt) Ret;
      Ret (Err execErr)
  | Ok data =>
      match marshalStoredResponse c data with
      | Err e => storeUnavail (Some e)
      | Ok storedBody =>
          marked ← Do (CSucceeded id 200 storedBody expiresAt) Ret;
          match marked with
          | Err e => storeUnavail (Some e)
          | Ok _ => Ret (Ok (mkResult data false))
          end
      end
  end.

Definition effectiveTTL (c : IdempotencyCoordinator) (opts : IdempotencyExecuteOptions) : Duration :=
  if TTL opts <=? 0 then DefaultTTL (cfg c) else TTL opts.

(** [hasExecutor] is [execute != nil]. *)
Definition Execute (c : IdempotencyCoordinator) (opts : IdempotencyExecuteOptions) (hasExecutor : bool)
    : Prog (result goError IdempotencyExecuteResult) :=
  if negb hasExecutor then fail (InternalServer "IDEMPOTENCY_EXECUTOR_NIL" "idempotency executor is nil") else
  match NormalizeIdempotencyKey (IdempotencyKey opts) with
  | Err e => Ret (Err e)
  | Ok key =>
    if String.eqb key "" then
      if RequireKey opts && negb (ObserveOnly (cfg c)) then fail ErrIdempotencyKeyRequired
      else data ← Do CExecute Ret; Ret (match data with Err e => Err e | Ok d => Ok (mkResult d false) end)
    else
    if negb (hasRepo c) then fail ErrIdempotencyStoreUnavail else
    if String.eqb (oScope opts) "" then fail (BadRequest "IDEMPOTENCY_SCOPE_REQUIRED" "idempotency scope is required") else
    match BuildIdempotencyFingerprint (Method opts) (Route opts) (ActorScope opts) (oPayload opts) with
    | Err e => Ret (Err e)
    | Ok fingerprint =>
        now ← Do CNow Ret;
        let expiresAt := Add now (effectiveTTL c opts) in
        let a := mkAttempt (oScope opts) (HashIdempotencyKey key) fingerprint now
                   (Add now (ProcessingTimeout (cfg c))) expiresAt in
        admission ← admitRequest a;
        match admission with
        | Err e => Ret (Err e)
        | Ok (Replay data) => Ret (Ok (mkResult data true))
        | Ok (Owner id) => runOwned c id expiresAt
        end
    end
  end.

(** ** One request at a time *)

(** [executor n] is the outcome of the n-th execution of the caller's function,
    and [runs] their number so far; the store answers without failures. *)
Record world := mkWorld {
  tbl : table;
  clock : Time;
  runs : nat;
  executor : nat → result goError Data;
}.

Definition setTable (w : world) (t : table) : world := mkWorld t (clock w) (runs w) (executor w).

Definition runCall {R} (w : world) (c : call R) : R * world :=
  match c in call R return R * world with
  | CNow => (clock w, w)
  | CCreate record =>
      let '(t, id) := CreateProcessing (tbl w) record (clock w) in (Ok id, setTable w t)
  | CGet scope keyHash => (Ok (GetByScopeAndKeyHash (tbl w) scope keyHash), w)
  | CReclaim id fromStatus now newLockedUntil newExpiresAt =>
      let '(t, taken) := TryReclaim (tbl w) id fromStatus now newLockedUntil newExpiresAt (clock w) in
      (Ok taken, setTable w t)
  | CExtend id fingerprint newLockedUntil newExpiresAt =>
      let '(t, ok) := ExtendProcessingLock (tbl w) id fingerprint newLockedUntil newExpiresAt (clock w) in
      (Ok ok, setTable w t)
  | CSucceeded id status body expiresAt =>
      (Ok tt, setTable w (MarkSucceeded (tbl w) id status body expiresAt (clock w)))
  | CFailed id reason lockedUntil expiresAt =>
      (Ok tt, setTable w (MarkFailedRetryable (tbl w) id reason lockedUntil expiresAt (clock w)))
  | CExecute => (executor w (runs w), mkWorld (tbl w) (clock w) (S (runs w)) (executor w))
  end.

Fixpoint runProg {A} (w : world) (p : Prog A) : A * world :=
  match p with
  | Ret a => (a, w)
  | Do c k => let '(r, w) := runCall w c in runProg w (k r)
  end.

Lemma runProg_bind {A B} (p : Prog A) (f : A → Prog B) w :
  runProg w (p ≫= f) = let '(a, w) := runProg w p in runProg w (f a).
Proof.
  revert w. induction p as [a|R c k IH]; intros w; [done|].
  cbn. destruct (runCall w c) as [r w']. apply IH.
Qed.

(** A request that reaches the store. *)
Section request.
Context (c : IdempotencyCoordinator) (opts : IdempotencyExecuteOptions) (key fp : string).
Context (Hkey : NormalizeIdempotencyKey (IdempotencyKey opts) = Ok key) (Hne : key ≠ "").
Context (Hrepo : hasRepo c = true) (Hscope : oScope opts ≠ "").
Context (Hfp : BuildIdempotencyFingerprint (Method opts) (Route opts) (ActorScope opts) (oPayload opts) = Ok fp).

Abbreviation kh := (HashIdempotencyKey key).

Definition attemptAt (now : Time) : attempt :=
  mkAttempt (oScope opts) kh fp now (now + ProcessingTimeout (cfg c)) (now + effectiveTTL c opts).

Lemma Execute_unfold :
  Execute c opts true =
    (now ← Do CNow Ret;
     admission ← admitRequest (attemptAt now);
     match admission with
     | Err e => Ret (Err e)
     | Ok (Replay data) => Ret (Ok (mkResult data true))
     | Ok (Owner id) => runOwned c id (now + effectiveTTL c opts)
     end).
Proof.
  unfold Execute. rewrite Hkey, (proj2 (String.eqb_neq key "") Hne), Hrepo.
  rewrite (proj2 (String.eqb_neq (oScope opts) "") Hscope), Hfp. done.
Qed.

Lemma runOwned_runs w id e : id ≠ 0 → runs (snd (runProg w (runOwned c id e))) = S (runs w).
Proof.
  intros Hid. unfold runOwned. rewrite (proj2 (Z.eqb_neq id 0) Hid). cbn.
  destruct (executor w (runs w)) as [d|err]; [|done].
  destruct (marshalStoredResponse c d); done.
Qed.

Lemma admit_fresh w :
  keyIndex (tbl w) !! (oScope opts, kh) = None →
  ∃ t, runProg w (admitRequest (attemptAt (clock w))) = (Ok (Owner (nextID (tbl w))), setTable w t).
Proof. intros Hn. unfold admitRequest. cbn. unfold CreateProcessing, keyOf. cbn. rewrite Hn. by eexists. Qed.

Lemma admit_existing w r :
  GetByScopeAndKeyHash (tbl w) (oScope opts) kh = Some r →
  runProg w (admitRequest (attemptAt (clock w))) = runProg w (admitExisting (attemptAt (clock w)) r).
Proof.
  intros Hr. unfold admitRequest. cbn. unfold CreateProcessing, keyOf. cbn.
  unfold GetByScopeAndKeyHash in Hr. destruct (keyIndex (tbl w) !! (oScope opts, kh)) as [id|] eqn:E; [|done].
  assert (setTable w (tbl w) = w) as -> by by destruct w.
  cbn. unfold GetByScopeAndKeyHash. by rewrite E, Hr.
Qed.

Lemma run_Execute w :
  runProg w (Execute c opts true) =
    let '(admission, w') := runProg w (admitRequest (attemptAt (clock w))) in
    match admission with
    | Err e => (Err e, w')
    | Ok (Replay data) => (Ok (mkResult data true), w')
    | Ok (Owner id) => runProg w' (runOwned c id (clock w + effectiveTTL c opts))
    end.
Proof.
  rewrite Execute_unfold, runProg_bind. cbn [runProg runCall]. rewrite runProg_bind.
  destruct (runProg w (admitRequest _)) as [[[id|d]|e] w']; done.
Qed.
End request.

(** The reclaim of a record that is not locked, by nobody else's leave. *)
Lemma reclaim_taken w a r :
  rows (tbl w) !! ID r = Some r → (∀ l, LockedUntil r = Some l → l <= aNow a) →
  ∃ t, runCall w (CReclaim (ID r) (Status r) (aNow a) (aLockedUntil a) (aExpiresAt a)) = (Ok true, setTable w t).
Proof.
  intros Hr Hl. cbn. unfold TryReclaim, updateRow. rewrite Hr, String.eqb_refl. cbn [andb].
  destruct (LockedUntil r) as [l|]; [|by eexists].
  rewrite (proj2 (Z.leb_le l (aNow a))) by (by apply Hl). by eexists.
Qed.

Lemma lockActive_false r now :
  (∀ l, LockedUntil r = Some l → l <= now) → match LockedUntil r with Some l => After l now | None => false end = false.
Proof. intros Hl. destruct (LockedUntil r) as [l|]; [|done]. apply Z.ltb_ge. by apply Hl. Qed.

Lemma Get_row t scope keyHash r : table_ok t → GetByScopeAndKeyHash t scope keyHash = Some r →
  rows t !! ID r = Some r ∧ 0 < ID r ∧ keyOf r = (scope, keyHash).
Proof.
  intros [Hi Hr]. unfold GetByScopeAndKeyHash. destruct (keyIndex t !! (scope, keyHash)) as [id|] eqn:E; [|done].
  intros Hrow. destruct (Hr id r Hrow) as [-> ?]. apply Hi in E as (r' & Hr' & Hk). simplify_eq.
  split_and!; [done|lia|done].
Qed.

(** Every call keeps the table's integrity. *)
Lemma updateRow_nextID t id cond f : nextID (fst (updateRow t id cond f)) = nextID t.
Proof. unfold updateRow. by repeat case_match. Qed.

Lemma runCall_ok {R} w (c : call R) :
  table_ok (tbl w) → 0 < nextID (tbl w) →
  table_ok (tbl (snd (runCall w c))) ∧ 0 < nextID (tbl (snd (runCall w c))).
Proof.
  intros Hok Hpos. destruct c; cbn; try done.
  - pose proof (CreateProcessing_ok (tbl w) record (clock w) Hpos Hok) as H1.
    destruct (CreateProcessing _ _ _) as [t id] eqn:E. cbn. split; [done|].
    unfold CreateProcessing in E. case_match; simplify_eq; cbn; lia.
  - unfold TryReclaim. match goal with |- context [updateRow ?t ?i ?c ?f] =>
      pose proof (updateRow_nextID t i c f); assert (table_ok (fst (updateRow t i c f))) by (by apply updateRow_ok) end.
    destruct (updateRow _ _ _ _). cbn in *. split; [done|lia].
  - unfold ExtendProcessingLock. match goal with |- context [updateRow ?t ?i ?c ?f] =>
      pose proof (updateRow_nextID t i c f); assert (table_ok (fst (updateRow t i c f))) by (by apply updateRow_ok) end.
    destruct (updateRow _ _ _ _). cbn in *. split; [done|lia].
  - unfold MarkSucceeded. rewrite updateRow_nextID. split; [by apply updateRow_ok|done].
  - unfold MarkFailedRetryable. rewrite updateRow_nextID. split; [by apply updateRow_ok|done].
Qed.

Lemma runProg_ok {A} (p : Prog A) w :
  table_ok (tbl w) → 0 < nextID (tbl w) →
  table_ok (tbl (snd (runProg w p))) ∧ 0 < nextID (tbl (snd (runProg w p))).
Proof.
  revert w. induction p as [a|R c k IH]; intros w Hok Hpos; [done|].
  cbn. destruct (runCall_ok w c Hok Hpos). destruct (runCall w c) as [r w']. by apply IH.
Qed.

(** ** Concurrent requests

    A pool of requests over one table.  [answers] allows every store call to
    fail, without effect or after it; the executor may answer anything. *)

Definition storeAnswers {A} (t t' : table) (v : A) (r : result goError A) (after : table) : Prop :=
  (r = Ok v ∧ after = t') ∨ (∃ e, r = Err e ∧ (after = t ∨ after = t')).

Definition answers {R} (now dbNow : Time) (t : table) (c : call R) : R → table → Prop :=
  match c in call R return R → table → Prop with
  | CNow => λ r t', r = now ∧ t' = t
  | CCreate record =>
      storeAnswers t (fst (CreateProcessing t record dbNow)) (snd (CreateProcessing t record dbNow))
  | CGet scope keyHash => storeAnswers t t (GetByScopeAndKeyHash t scope keyHash)
  | CReclaim id fromStatus n l e =>
      storeAnswers t (fst (TryReclaim t id fromStatus n l e dbNow)) (snd (TryReclaim t id fromStatus n l e dbNow))
  | CExtend id fingerprint l e =>
      storeAnswers t (fst (ExtendProcessingLock t id fingerprint l e dbNow))
        (snd (ExtendProcessingLock t id fingerprint l e dbNow))
  | CSucceeded id status body e => storeAnswers t (MarkSucceeded t id status body e dbNow) tt
  | CFailed id reason l e => storeAnswers t (MarkFailedRetryable t id reason l e dbNow) tt
  | CExecute => λ _ t', t' = t
  end.

(** The key a request works on. *)
Definition requestKey (c : IdempotencyCoordinator) (opts : IdempotencyExecuteOptions) : option (string * string) :=
  match NormalizeIdempotencyKey (IdempotencyKey opts) with
  | Ok key => if String.eqb key "" then None else Some (oScope opts, HashIdempotencyKey key)
  | Err _ => None
  end.

Record request := mkRequest {
  key : option (string * string);
  prog : Prog (result goError IdempotencyExecuteResult);
}.

Record system := mkSystem {
  sTable : table;
  sClock : Time;
  pool : list request;
}.

(** The caller's function is running for the request. *)
Definition executing (q : request) : Prop := ∃ k, prog q = Do CExecute k.

Section window.
Context (lo hi : Time).

(** Requests whose records live to the end of the window. *)
Inductive step (s : system) : system → Prop :=
  | step_start c opts hasExecutor :
      hi <= lo + effectiveTTL c opts →
      step s (mkSystem (sTable s) (sClock s) (pool s ++ [mkRequest (requestKey c opts) (Execute c opts hasExecutor)]))
  | step_tick now : sClock s <= now < hi → step s (mkSystem (sTable s) now (pool s))
  | step_call i key R (c : call R) k r dbNow t' :
      pool s !! i = Some (mkRequest key (Do c k)) →
      answers (sClock s) dbNow (sTable s) c r t' →
      step s (mkSystem t' (sClock s) (<[i := mkRequest key (k r)]> (pool s)))
  | step_cleanup now limit :
      now <= sClock s → step s (mkSystem (fst (DeleteExpired (sTable s) now limit)) (sClock s) (pool s)).

(** The window opens on a table none of whose records expires in it. *)
Definition opening (s : system) : Prop :=
  table_ok (sTable s) ∧ 0 < nextID (sTable s) ∧ lo <= sClock s < hi ∧ pool s = [] ∧
  (∀ id r, rows (sTable s) !! id = Some r → hi <= ExpiresAt r).

(** *** The protocol of one request, as a type-state of its program *)

Inductive phase :=
  | Idle
  | Known (id : Z)
  | Owning (id : Z).

Definition follows {R} (key : string * string) (c : call R) (ph : phase) (K : R → phase → Prop) : Prop :=
  match c in call R return (R → phase → Prop) → Prop with
  | CNow => λ K, ∀ t, lo <= t < hi → K t ph
  | CCreate record => λ K,
      ph = Idle ∧ keyOf record = key ∧ Status record = IdempotencyStatusProcessing ∧ hi <= ExpiresAt record ∧
      (∀ id, K (Ok (Some id)) (Owning id)) ∧ K (Ok None) Idle ∧ (∀ e, K (Err e) Idle)
  | CGet scope keyHash => λ K,
      (ph = Idle ∧ (scope, keyHash) = key) ∧ K (Ok None) Idle ∧ (∀ e, K (Err e) Idle) ∧
      (∀ r, hi <= ExpiresAt r → K (Ok (Some r)) (Known (ID r)))
  | CReclaim id fromStatus n l e => λ K,
      ph = Known id ∧ fromStatus = IdempotencyStatusFailedRetryable ∧ hi <= e ∧
      K (Ok true) (Owning id) ∧ K (Ok false) ph ∧ (∀ e, K (Err e) Idle)
  | CExtend _ _ _ _ => λ _, False
  | CSucceeded id status body e => λ K, ph = Owning id ∧ hi <= e ∧ (∀ r, K r Idle)
  | CFailed id reason l e => λ K, ph = Owning id ∧ hi <= e ∧ (∀ r, K r Idle)
  | CExecute => λ K, (∃ id, ph = Owning id) ∧ (∀ r, K r ph)
  end K.

Fixpoint protocol {A} (key : string * string) (ph : phase) (p : Prog A) : Prop :=
  match p with
  | Ret _ => True
  | Do c k => follows key c ph (λ r ph', protocol key ph' (k r))
  end.
(** A request without a key never calls the store. *)
Definition storeless {R} (c : call R) : bool := match c with CExecute => true | _ => false end.

Fixpoint keyless {A} (p : Prog A) : Prop :=
  match p with
  | Ret _ => True
  | Do c k => storeless c = true ∧ ∀ r, keyless (k r)
  end.

Definition wellBehaved (ph : phase) (q : request) : Prop :=
  match key q with
  | Some k => protocol k ph (prog q)
  | None => keyless (prog q)
  end.

Lemma admitByStatus_protocol {B} a r k (f : result goError admission → Prog B) :
  hi <= aExpiresAt a →
  (∀ d, protocol k (Known (ID r)) (f (Ok (Replay d)))) →
  (protocol k (Owning (ID r)) (f (Ok (Owner (ID r))))) →
  (∀ ph e, protocol k ph (f (Err e))) →
  protocol k (Known (ID r)) (admitByStatus a r ≫= f).
Proof.
  intros He Hd Ho Hf. unfold admitByStatus.
  destruct (String.eqb _ IdempotencyStatusSucceeded); [by destruct (decodeStoredResponse _); cbn|].
  destruct (String.eqb _ IdempotencyStatusProcessing); [apply Hf|].
  destruct (String.eqb _ IdempotencyStatusFailedRetryable); [|apply Hf].
  match goal with |- context [if ?b then _ else _] => destruct b end; [apply Hf|].
  cbn. split_and!; [done..|exact Ho|apply Hf|]. intros e. apply Hf.
Qed.

Lemma runOwned_protocol c id e k : hi <= e → protocol k (Owning id) (runOwned c id e).
Proof.
  intros He. unfold runOwned. case_match; [done|]. cbn. split; [by eexists|].
  intros [d|err]; cbn.
  - destruct (marshalStoredResponse c d); cbn; [|done]. split_and!; [done..|]. by intros [|].
  - intros t _. cbn. by split_and!.
Qed.

Lemma Execute_protocol c opts b k :
  requestKey c opts = Some k → hi <= lo + effectiveTTL c opts → protocol k Idle (Execute c opts b).
Proof.
  unfold requestKey, Execute. intros Hk Httl. destruct b; cbn [negb]; [|done].
  destruct (NormalizeIdempotencyKey _) as [key0|e]; [|done].
  destruct (String.eqb key0 ""); [done|]. injection Hk as <-.
  destruct (hasRepo c); cbn [negb]; [|done]. destruct (String.eqb (oScope opts) ""); [done|].
  destruct (BuildIdempotencyFingerprint _ _ _ _) as [fp|e]; [|done].
  cbn. intros now Hnow. unfold Add.
  refine (conj eq_refl (conj eq_refl (conj eq_refl (conj _ (conj _ (conj _ _)))))); [lia| | |done].
  - intros id. apply runOwned_protocol. lia.
  - cbn. split_and!; [done..|]. intros r Hr. unfold admitExisting.
    destruct (negb (String.eqb _ _)); [done|]. cbn [aNow].
    assert (After (ExpiresAt r) now = true) as -> by (apply Z.ltb_lt; lia). cbn [negb].
    apply admitByStatus_protocol; cbn; [lia|done| |done].
    apply runOwned_protocol. lia.
Qed.

Lemma Execute_keyless c opts b : requestKey c opts = None → keyless (Execute c opts b).
Proof.
  unfold requestKey, Execute. intros Hk. destruct b; cbn [negb]; [|done].
  destruct (NormalizeIdempotencyKey _) as [key0|e]; [|done].
  destruct (String.eqb key0 ""); [|done]. by case_match; cbn.
Qed.

Lemma Execute_wellBehaved c opts b :
  hi <= lo + effectiveTTL c opts → wellBehaved Idle (mkRequest (requestKey c opts) (Execute c opts b)).
Proof.
  intros Httl. unfold wellBehaved. cbn. destruct (requestKey c opts) as [k|] eqn:E.
  - by apply Execute_protocol.
  - by apply Execute_keyless.
Qed.

(** *** The invariant of the pool *)

Definition phaseOk (t : table) (ph : phase) (q : request) : Prop :=
  match ph with
  | Idle => True
  | Known id => ∃ r, rows t !! id = Some r ∧ key q = Some (keyOf r)
  | Owning id => ∃ r, rows t !! id = Some r ∧ key q = Some (keyOf r) ∧ Status r = IdempotencyStatusProcessing
  end.

Definition tableOk (t : table) : Prop :=
  table_ok t ∧ 0 < nextID t ∧ ∀ id r, rows t !! id = Some r → hi <= ExpiresAt r.

Definition unique (phases : list phase) : Prop :=
  ∀ i j id, phases !! i = Some (Owning id) → phases !! j = Some (Owning id) → i = j.

Definition inv (s : system) : Prop :=
  tableOk (sTable s) ∧ lo <= sClock s < hi ∧
  ∃ phases, Forall2 (λ ph q, wellBehaved ph q ∧ phaseOk (sTable s) ph q) phases (pool s) ∧ unique phases.

(** A change of the table that leaves alone every row outside [P]. *)
Definition touches (P : Z → Prop) (t t' : table) : Prop :=
  tableOk t' ∧ (∀ id, ¬ P id → ∀ r, rows t !! id = Some r → rows t' !! id = Some r) ∧
  (∀ id r, rows t !! id = Some r → ∃ r', rows t' !! id = Some r' ∧ keyOf r' = keyOf r).

Lemma phaseOk_touches P t t' ph q :
  touches P t t' → (∀ id, ph = Owning id → ¬ P id) → phaseOk t ph q → phaseOk t' ph q.
Proof.
  intros (_ & Hsame & Hkey) HP. destruct ph as [|id|id]; cbn; [done| |].
  - intros (r & Hr & Hk). destruct (Hkey id r Hr) as (r' & ? & Hk'). exists r'. by rewrite Hk'.
  - intros (r & Hr & Hk & Hs). exists r. split; [|done]. apply Hsame; [by apply HP|done].
Qed.

Lemma inv_call s i q ph q' ph' t' P phases :
  Forall2 (λ ph q, wellBehaved ph q ∧ phaseOk (sTable s) ph q) phases (pool s) → unique phases →
  lo <= sClock s < hi → pool s !! i = Some q → phases !! i = Some ph →
  touches P (sTable s) t' → (∀ j id, j ≠ i → phases !! j = Some (Owning id) → ¬ P id) →
  wellBehaved ph' q' → phaseOk t' ph' q' →
  (∀ id, ph' = Owning id → ph = ph' ∨ P id) →
  inv (mkSystem t' (sClock s) (<[i := q']> (pool s))).
Proof.
  intros Hall Huniq Hclk Hq Hph Ht HP Hwb Hok Hown. split; [apply Ht|]. split; [done|].
  exists (<[i := ph']> phases). cbn [sTable pool]. split.
  - apply Forall2_same_length_lookup. rewrite !length_insert.
    split; [by eapply Forall2_length|]. intros j p r.
    intros [(<- & <- & _)|[Hne Hp]]%list_lookup_insert_Some [(? & <- & _)|[? Hr]]%list_lookup_insert_Some; try done.
    destruct (Forall2_lookup_lr _ _ _ _ _ _ Hall Hp Hr) as [Hw Hpo]. split; [done|].
    apply (phaseOk_touches P (sTable s)); [done| |done]. intros id ->. by apply (HP j).
  - intros j1 j2 id [(<- & -> & _)|[Hne1 H1]]%list_lookup_insert_Some
      [(? & ? & _)|[Hne2 H2]]%list_lookup_insert_Some; simplify_eq; try done.
    + destruct (Hown id eq_refl) as [->|HPid]; [by eapply Huniq|]. by destruct (HP j2 id).
    + destruct (Hown id eq_refl) as [->|HPid]; [by eapply Huniq|]. by destruct (HP j1 id).
    + by eapply Huniq.
Qed.
(** *** What each statement does to the table *)

Lemma touches_refl P t : tableOk t → touches P t t.
Proof. intros Hok. split; [done|]. split; by eauto. Qed.

Lemma touches_create t record dbNow :
  tableOk t → hi <= ExpiresAt record → touches (λ id, id = nextID t) t (fst (CreateProcessing t record dbNow)).
Proof.
  intros Hok He. pose proof Hok as (Htok & Hpos & Hexp).
  pose proof (nextID_fresh t Htok) as Hf. pose proof (CreateProcessing_ok t record dbNow Hpos Htok) as Hok'.
  unfold CreateProcessing in *. destruct (keyIndex t !! keyOf record); [by apply touches_refl|].
  cbn [fst] in *. split; [split; [exact Hok'|split; [cbn; lia|]]|split]; cbn.
  - intros id r [[_ <-]|[_ Hr]]%lookup_insert_Some; [done|by eauto].
  - intros id _ r Hr. rewrite lookup_insert_ne; [done|]. intros <-. congruence.
  - intros id r Hr. exists r. rewrite lookup_insert_ne; [done|]. intros <-. congruence.
Qed.

Lemma touches_update t id cond f :
  tableOk t → (∀ r, keyOf (f r) = keyOf r ∧ IdempotencyStore.ID (f r) = IdempotencyStore.ID r) →
  (∀ r, hi <= ExpiresAt (f r)) → touches (λ i, i = id) t (fst (updateRow t id cond f)).
Proof.
  intros Hok Hf He. pose proof Hok as (Htok & Hpos & Hexp).
  pose proof (updateRow_ok t id cond f Hf Htok) as Hok'.
  unfold updateRow in *. destruct (rows t !! id) as [r|] eqn:E; [|by apply touches_refl].
  destruct (cond r); [|by apply touches_refl]. cbn [fst] in *.
  split; [split; [exact Hok'|split; [cbn; lia|]]|split]; cbn.
  - intros id' r' [[_ <-]|[_ Hr]]%lookup_insert_Some; by eauto.
  - intros id' Hne r' Hr. by rewrite lookup_insert_ne.
  - intros id' r' Hr. destruct (decide (id' = id)) as [->|Hne].
    + rewrite lookup_insert_eq. simplify_eq. eexists. split; [done|apply Hf].
    + rewrite lookup_insert_ne by done. eauto.
Qed.

Lemma touches_reclaim t id from n l e dbNow :
  tableOk t → hi <= e → touches (λ i, i = id) t (fst (TryReclaim t id from n l e dbNow)).
Proof. intros Hok He. by apply touches_update. Qed.

Lemma reclaim_row t id from n l e dbNow r :
  rows t !! id = Some r → snd (TryReclaim t id from n l e dbNow) = true →
  Status r = from ∧ ∃ r', rows (fst (TryReclaim t id from n l e dbNow)) !! id = Some r' ∧
    keyOf r' = keyOf r ∧ Status r' = IdempotencyStatusProcessing.
Proof.
  intros Hr. unfold TryReclaim, updateRow. rewrite Hr.
  match goal with |- context [if ?b then _ else _] => destruct b eqn:Hc end; cbn [fst snd rows]; [|done].
  intros _. apply andb_true_iff in Hc as [Hc _]. apply String.eqb_eq in Hc. split; [done|].
  eexists. split; [apply lookup_insert_eq|done].
Qed.

Lemma reclaim_false t id from n l e dbNow :
  snd (TryReclaim t id from n l e dbNow) = false → fst (TryReclaim t id from n l e dbNow) = t.
Proof. unfold TryReclaim, updateRow. by repeat case_match. Qed.

Lemma DeleteExpired_none t now limit :
  (∀ id r, rows t !! id = Some r → now < ExpiresAt r) → fst (DeleteExpired t now limit) = t.
Proof.
  intros Hexp. unfold DeleteExpired. cbn [fst].
  destruct (victims t now _) as [|kv vs] eqn:E; [done|]. exfalso.
  destruct (elem_of_victims t now (if limit <=? 0 then 500 else limit) kv) as [Hr He]; [rewrite E; by left|].
  specialize (Hexp _ _ Hr). lia.
Qed.

(** An owner's row is in processing, so it is not one that can be reclaimed. *)
Lemma owner_not_failed s phases i id r :
  Forall2 (λ ph q, wellBehaved ph q ∧ phaseOk (sTable s) ph q) phases (pool s) →
  phases !! i = Some (Owning id) → rows (sTable s) !! id = Some r → Status r = IdempotencyStatusProcessing.
Proof.
  intros Hall Hph Hr. destruct (Forall2_lookup_l _ _ _ _ _ Hall Hph) as (q & _ & _ & r' & Hr' & _ & Hs).
  congruence.
Qed.
Section one_call.
Context (s : system) (i : nat) (ky : string * string) (ph : phase) (phases : list phase).
Context (Htab : tableOk (sTable s)) (Hclk : lo <= sClock s < hi).
Context (Hall : Forall2 (λ ph q, wellBehaved ph q ∧ phaseOk (sTable s) ph q) phases (pool s)).
Context (Huniq : unique phases) (Hph : phases !! i = Some ph).

(** The program's call is answered without a change of the table. *)
Lemma call_unchanged q p' ph' :
  pool s !! i = Some q → key q = Some ky → protocol ky ph' p' →
  phaseOk (sTable s) ph' (mkRequest (Some ky) p') → (∀ id, ph' = Owning id → ph = ph') →
  inv (mkSystem (sTable s) (sClock s) (<[i := mkRequest (Some ky) p']> (pool s))).
Proof.
  intros Hq Hk Hp Hok Hown. apply (inv_call s i q ph _ ph' _ (λ _, False) phases); try done.
  - by apply touches_refl.
  - by auto.
  - intros id Hid. left. by eapply Hown.
Qed.

(** The program owns the row it updates. *)
Lemma call_owned q p' id cond f :
  pool s !! i = Some q → ph = Owning id → protocol ky Idle p' →
  (∀ r, keyOf (f r) = keyOf r ∧ IdempotencyStore.ID (f r) = IdempotencyStore.ID r) → (∀ r, hi <= ExpiresAt (f r)) →
  inv (mkSystem (fst (updateRow (sTable s) id cond f)) (sClock s) (<[i := mkRequest (Some ky) p']> (pool s))).
Proof.
  intros Hq Eph Hp Hf He.
  apply (inv_call s i q ph _ Idle _ (λ id', id' = id) phases); try done.
  - by apply touches_update.
  - intros j id' Hj Hpj ->. apply Hj. apply (Huniq j i id); [done|]. by rewrite Hph, Eph.
Qed.

Lemma call_create q record dbNow r t' k :
  pool s !! i = Some q → key q = Some ky → protocol ky ph (Do (CCreate record) k) →
  answers (sClock s) dbNow (sTable s) (CCreate record) r t' →
  inv (mkSystem t' (sClock s) (<[i := mkRequest (Some ky) (k r)]> (pool s))).
Proof.
  intros Hq Hkq (_ & Hkey & Hst & He & Ko & Kn & Ke) Ha.
  pose proof (touches_create (sTable s) record dbNow Htab He) as Ht.
  assert (Hfree : ∀ j id, j ≠ i → phases !! j = Some (Owning id) → id ≠ nextID (sTable s)).
  { intros j id _ Hj ->. destruct (Forall2_lookup_l _ _ _ _ _ Hall Hj) as (q' & _ & _ & r' & Hr' & _).
    rewrite nextID_fresh in Hr'; [done|apply Htab]. }
  destruct Ha as [[-> ->]|(e & -> & [-> | ->])].
  - unfold CreateProcessing in Ht |- *. destruct (keyIndex (sTable s) !! keyOf record) as [id|] eqn:E; cbn [fst snd] in *.
    + by apply (call_unchanged q _ Idle).
    + apply (inv_call s i q ph _ (Owning (nextID (sTable s))) _ (λ id, id = nextID (sTable s)) phases); try done.
      * cbn. apply Ko.
      * cbn. eexists. split; [apply lookup_insert_eq|]. cbn. split; [|done]. by rewrite <- Hkey.
      * intros id [= <-]. by right.
  - apply (call_unchanged q _ Idle); try done; apply Ke.
  - apply (inv_call s i q ph _ Idle _ (λ id, id = nextID (sTable s)) phases); try done; apply Ke.
Qed.

Lemma call_reclaim q id from n l e dbNow r t' k :
  pool s !! i = Some q → key q = Some ky → phaseOk (sTable s) ph q → protocol ky ph (Do (CReclaim id from n l e) k) →
  answers (sClock s) dbNow (sTable s) (CReclaim id from n l e) r t' →
  inv (mkSystem t' (sClock s) (<[i := mkRequest (Some ky) (k r)]> (pool s))).
Proof.
  intros Hq Hkq Hpo (Eph & -> & He & Kt & Kf & Ke) Ha.
  pose proof Hpo as Hpo'. rewrite Eph in Hpo'. destruct Hpo' as (row & Hrow & Hkr).
  pose proof (touches_reclaim (sTable s) id IdempotencyStatusFailedRetryable n l e dbNow Htab He) as Ht.
  pose proof (reclaim_row (sTable s) id IdempotencyStatusFailedRetryable n l e dbNow row Hrow) as Hrec.
  pose proof (reclaim_false (sTable s) id IdempotencyStatusFailedRetryable n l e dbNow) as Hfalse.
  set (tr := TryReclaim _ _ _ _ _ _ _) in *.
  assert (Hfree : snd tr = true → ∀ j id', j ≠ i → phases !! j = Some (Owning id') → id' ≠ id).
  { intros Ht' j id' _ Hj ->. destruct (Hrec Ht') as [Hs _].
    rewrite (owner_not_failed s phases j id row Hall Hj Hrow) in Hs. done. }
  assert (Hk0 : phaseOk (sTable s) (Known id) (mkRequest (Some ky) (k r))).
  { exists row. split; [done|]. cbn. congruence. }
  destruct (snd tr) eqn:Etr.
  - destruct Ha as [[-> ->]|(er & -> & [-> | ->])]; fold tr.
    + apply (inv_call s i q ph _ (Owning id) _ (λ id', id' = id) phases); try done; [by apply Hfree| | |].
      * cbn [wellBehaved key prog]. unfold wellBehaved. cbn. fold tr. rewrite Etr. apply Kt.
      * destruct (Hrec eq_refl) as (_ & r' & Hr' & Hk' & Hs'). exists r'. split; [done|]. cbn. split; [congruence|done].
      * intros id' [= <-]. by right.
    + apply (call_unchanged q _ Idle); try done; apply Ke.
    + apply (inv_call s i q ph _ Idle _ (λ id', id' = id) phases); try done; [by apply Hfree|apply Ke].
  - specialize (Hfalse eq_refl).
    destruct Ha as [[-> ->]|(er & -> & [-> | ->])]; fold tr; rewrite ?Hfalse.
    + apply (call_unchanged q _ ph); try done; [rewrite Etr; apply Kf|by rewrite Eph].
    + apply (call_unchanged q _ Idle); try done; apply Ke.
    + apply (call_unchanged q _ Idle); try done; apply Ke.
Qed.
End one_call.

Lemma pool_step_inv s s' : inv s → step s s' → inv s'.
Proof.
  intros (Htab & Hclk & phases & Hall & Huniq) Hs.
  destruct Hs as [c opts b Httl|now Hnow|i ky R c k r dbNow t' Hq Ha|now limit Hnow].
  - split; [done|]. split; [done|]. exists (phases ++ [Idle]). split.
    + apply Forall2_app; [done|]. constructor; [|constructor]. split; [by apply Execute_wellBehaved|done].
    + intros i j id. rewrite !lookup_app_Some, !list_lookup_singleton_Some.
      intros [Hi|(_ & _ & ?)] [Hj|(_ & _ & ?)]; try done. by eapply Huniq.
  - split; [done|]. split; [cbn; lia|]. by exists phases.
  - destruct (Forall2_lookup_r _ _ _ _ _ Hall Hq) as (ph & Hph & Hw & Hpo). unfold wellBehaved in Hw. cbn [key prog] in Hw.
    destruct ky as [ky|].
    2:{ destruct Hw as [Hc Hk]. destruct c; try done. cbn in Ha. subst t'.
        apply (inv_call s i (mkRequest None (Do CExecute k)) ph _ ph _ (λ _, False) phases); try done.
        - by apply touches_refl.
        - by auto.
        - apply Hk.
        - by left. }
    destruct c.
    + destruct Ha as [-> ->]. apply (call_unchanged s i ky ph phases Htab Hclk Hall Huniq Hph _ _ ph Hq); try done.
      by apply Hw.
    + by eapply call_create.
    + destruct Hw as ([-> Hky] & Kn & Ke & Ks).
      assert (t' = sTable s) as -> by (by destruct Ha as [[_ ->]|(e & _ & [-> | ->])]).
      destruct Ha as [[-> _]|(e & -> & _)].
      * destruct (GetByScopeAndKeyHash _ _ _) as [row|] eqn:E.
        -- destruct (Get_row _ _ _ _ (proj1 Htab) E) as (Hrow & _ & Hk').
           apply (call_unchanged s i ky Idle phases Htab Hclk Hall Huniq Hph _ _ (Known (IdempotencyStore.ID row)) Hq); try done.
           ++ apply Ks. destruct Htab as (_ & _ & He). by eapply He.
           ++ exists row. split; [done|]. cbn. congruence.
        -- by apply (call_unchanged s i ky Idle phases Htab Hclk Hall Huniq Hph _ _ Idle Hq).
      * apply (call_unchanged s i ky Idle phases Htab Hclk Hall Huniq Hph _ _ Idle Hq); try done; apply Ke.
    + by eapply call_reclaim.
    + by destruct Hw.
    + destruct Hw as (-> & He & Hk). destruct Ha as [[-> ->]|(e & -> & [-> | ->])].
      * by apply (call_owned s i ky (Owning id) phases Htab Hclk Hall Huniq Hph _ _ _ _ _ Hq).
      * by apply (call_unchanged s i ky (Owning id) phases Htab Hclk Hall Huniq Hph _ _ Idle Hq).
      * by apply (call_owned s i ky (Owning id) phases Htab Hclk Hall Huniq Hph _ _ _ _ _ Hq).
    + destruct Hw as (-> & He & Hk). destruct Ha as [[-> ->]|(e & -> & [-> | ->])].
      * by apply (call_owned s i ky (Owning id) phases Htab Hclk Hall Huniq Hph _ _ _ _ _ Hq).
      * by apply (call_unchanged s i ky (Owning id) phases Htab Hclk Hall Huniq Hph _ _ Idle Hq).
      * by apply (call_owned s i ky (Owning id) phases Htab Hclk Hall Huniq Hph _ _ _ _ _ Hq).
    + destruct Hw as [_ Hk]. cbn in Ha. subst t'.
      apply (call_unchanged s i ky ph phases Htab Hclk Hall Huniq Hph _ _ ph Hq); try done; apply Hk.
  - rewrite DeleteExpired_none; [by split; [|split; [|by exists phases]]|].
    intros id r Hr. destruct Htab as (_ & _ & He). specialize (He id r Hr). lia.
Qed.

Lemma pool_reachable_inv s : reachable opening step s → inv s.
Proof.
  apply reachable_invariant; [|by eauto using pool_step_inv].
  intros s0 (Hok & Hpos & Hclk & Hp & He). split; [done|]. split; [done|].
  exists []. rewrite Hp. split; [constructor|]. by intros i j id.
Qed.

Lemma executing_owns s phases i q ky :
  Forall2 (λ ph q, wellBehaved ph q ∧ phaseOk (sTable s) ph q) phases (pool s) →
  pool s !! i = Some q → key q = Some ky → executing q →
  ∃ id r, phases !! i = Some (Owning id) ∧ rows (sTable s) !! id = Some r ∧ keyOf r = ky ∧
    Status r = IdempotencyStatusProcessing.
Proof.
  intros Hall Hq Hk [k Hp]. destruct (Forall2_lookup_r _ _ _ _ _ Hall Hq) as (ph & Hph & Hw & Hpo).
  unfold wellBehaved in Hw. rewrite Hk, Hp in Hw. destruct Hw as [[id ->] _].
  destruct Hpo as (r & Hr & Hkr & Hs). exists id, r. split_and!; [done..|congruence|done].
Qed.
(** A record that has succeeded is final in the window. *)
Lemma succeeded_stays s s' id r :
  inv s → step s s' → rows (sTable s) !! id = Some r → Status r = IdempotencyStatusSucceeded →
  rows (sTable s') !! id = Some r.
Proof.
  intros (Htab & Hclk & phases & Hall & Huniq) Hs Hr Hsucc.
  destruct Hs as [c opts b Httl|now Hnow|i ky R c k r0 dbNow t' Hq Ha|now limit Hnow]; [done|done| |].
  2:{ rewrite DeleteExpired_none; [done|]. intros id' r' Hr'. destruct Htab as (_ & _ & He).
      specialize (He id' r' Hr'). lia. }
  destruct (Forall2_lookup_r _ _ _ _ _ Hall Hq) as (ph & Hph & Hw & Hpo). unfold wellBehaved in Hw. cbn [key prog] in Hw.
  assert (Hown : ∀ id' (cond : IdempotencyRecord → bool) f, ph = Owning id' →
    rows (fst (updateRow (sTable s) id' cond f)) !! id = Some r).
  { intros id' cond f ->. destruct Hpo as (r' & Hr' & _ & Hs'). unfold updateRow. rewrite Hr'.
    destruct (cond r'); [|done]. cbn. rewrite lookup_insert_ne; [done|]. intros <-. simplify_eq. by rewrite Hsucc in Hs'. }
  cbn [sTable]. destruct ky as [ky|]; [|by destruct Hw as [Hc _]; destruct c; cbn in Ha; subst].
  destruct c; cbn in Ha.
  - by destruct Ha as [_ ->].
  - destruct Hw as (_ & _ & _ & He & _).
    destruct (touches_create (sTable s) record dbNow Htab He) as (_ & Hsame & _).
    assert (id ≠ nextID (sTable s)).
    { intros ->. rewrite nextID_fresh in Hr; [done|apply Htab]. }
    destruct Ha as [[_ ->]|(e & _ & [-> | ->])]; auto.
  - by destruct Ha as [[_ ->]|(e & _ & [-> | ->])].
  - destruct Hw as (_ & -> & _).
    assert (Hsame : rows (fst (TryReclaim (sTable s) id0 IdempotencyStatusFailedRetryable now newLockedUntil newExpiresAt dbNow)) !! id = Some r).
    { destruct (decide (id0 = id)) as [->|Hne].
      - rewrite reclaim_false; [done|]. apply not_true_iff_false. intros Ht.
        apply (reclaim_row _ _ _ _ _ _ _ _ Hr) in Ht as [Hs' _].
        by rewrite Hsucc in Hs'.
      - unfold TryReclaim, updateRow. repeat case_match; cbn; try done; by rewrite lookup_insert_ne. }
    destruct Ha as [[_ ->]|(e & _ & [-> | ->])]; done.
  - by destruct Hw.
  - destruct Hw as (-> & _ & _). destruct Ha as [[_ ->]|(e & _ & [-> | ->])]; [|done|]; by apply Hown.
  - destruct Hw as (-> & _ & _). destruct Ha as [[_ ->]|(e & _ & [-> | ->])]; [|done|]; by apply Hown.
  - by subst.
Qed.

Lemma succeeded_final s s' id r :
  rtc step s s' → inv s → rows (sTable s) !! id = Some r → Status r = IdempotencyStatusSucceeded →
  inv s' ∧ rows (sTable s') !! id = Some r.
Proof.
  induction 1 as [|s s1 s' Hs _ IH]; intros Hi Hr Hsucc; [done|].
  apply IH; [by eapply pool_step_inv|by eapply succeeded_stays|done].
Qed.
End window.

(** ** Properties *)

(** C23: while no record expires (a window no longer than the time to live of
    any request in it), whatever the interleaving of the store calls of any
    number of requests and whichever calls fail before or after taking effect,
    two requests with the same scope and key never execute at the same time,
    and while one executes the record is in processing. *)
Theorem idempotent_mutual_exclusion lo hi s i j qi qj k :
  reachable (opening lo hi) (step lo hi) s →
  pool s !! i = Some qi → pool s !! j = Some qj → key qi = Some k → key qj = Some k →
  executing qi →
  (executing qj → i = j) ∧
  ∃ id r, rows (sTable s) !! id = Some r ∧ keyOf r = k ∧ Status r = IdempotencyStatusProcessing.
Proof.
  intros Hr Hqi Hqj Hki Hkj Hei.
  destruct (pool_reachable_inv lo hi s Hr) as (((Hidx & Hrow) & _) & _ & phases & Hall & Huniq).
  destruct (executing_owns _ _ s phases i qi k Hall Hqi Hki Hei) as (id & r & Hpi & Hri & Hk & Hs).
  split; [|by exists id, r]. intros Hej.
  destruct (executing_owns _ _ s phases j qj k Hall Hqj Hkj Hej) as (id' & r' & Hpj & Hrj & Hk' & _).
  apply (Huniq i j id); [done|]. rewrite Hpj. do 2 f_equal.
  assert (keyIndex (sTable s) !! k = Some id) by (apply Hidx; eauto).
  assert (keyIndex (sTable s) !! k = Some id') by (apply Hidx; eauto). congruence.
Qed.

(** C26: in such a window, once a request's success is recorded no request with
    that scope and key ever executes again: the record with its stored response
    stays as it is and every later state has nobody executing for the key. *)
Theorem idempotent_at_most_once lo hi s s' id r q :
  reachable (opening lo hi) (step lo hi) s → rtc (step lo hi) s s' →
  rows (sTable s) !! id = Some r → Status r = IdempotencyStatusSucceeded →
  rows (sTable s') !! id = Some r ∧ (q ∈ pool s' → key q = Some (keyOf r) → ¬ executing q).
Proof.
  intros Hr Hs Hrow Hsucc.
  destruct (succeeded_final lo hi s s' id r Hs (pool_reachable_inv lo hi s Hr) Hrow Hsucc) as [Hinv Hrow'].
  split; [done|]. intros [i Hq]%list_elem_of_lookup Hk He.
  destruct Hinv as (((Hidx & _) & _) & _ & phases & Hall & _).
  destruct (executing_owns _ _ s' phases i q (keyOf r) Hall Hq Hk He) as (id' & r' & _ & Hr' & Hk' & Hst).
  assert (keyIndex (sTable s') !! keyOf r = Some id) by (apply Hidx; eauto).
  assert (keyIndex (sTable s') !! keyOf r = Some id') by (apply Hidx; eauto). simplify_eq.
  by rewrite Hsucc in Hst.
Qed.

(** What one request does, by the record it finds: without one it executes;
    with another fingerprint it is a conflict; a live record that succeeded is
    replayed, one in processing or in back-off is a conflict with a retry time,
    all without executing and without changing the store; a failed record past
    its back-off, or an expired record that is not locked, is executed again. *)
Theorem execute_outcome c opts ky fp w :
  NormalizeIdempotencyKey (IdempotencyKey opts) = Ok ky → ky ≠ "" → hasRepo c = true → oScope opts ≠ "" →
  BuildIdempotencyFingerprint (Method opts) (Route opts) (ActorScope opts) (oPayload opts) = Ok fp →
  table_ok (tbl w) → 0 < nextID (tbl w) →
  let out := runProg w (Execute c opts true) in
  let now := clock w in
  (keyIndex (tbl w) !! (oScope opts, HashIdempotencyKey ky) = None → runs (snd out) = S (runs w)) ∧
  ∀ r, GetByScopeAndKeyHash (tbl w) (oScope opts) (HashIdempotencyKey ky) = Some r →
    let unlocked := ∀ l, LockedUntil r = Some l → l <= now in
    (RequestFingerprint r ≠ fp → out = (Err (AppErr ErrIdempotencyKeyConflict), w)) ∧
    (RequestFingerprint r = fp → now < ExpiresAt r →
       (Status r = IdempotencyStatusSucceeded →
          out = (match decodeStoredResponse (ResponseBody r) with
                 | Ok d => Ok (mkResult d true)
                 | Err e => Err (AppErr (WithCause ErrIdempotencyStoreUnavail (Some e)))
                 end, w)) ∧
       (Status r = IdempotencyStatusProcessing →
          out = (Err (conflictWithRetryAfter ErrIdempotencyInProgress (LockedUntil r) now), w)) ∧
       (Status r = IdempotencyStatusFailedRetryable → (∃ l, LockedUntil r = Some l ∧ now < l) →
          out = (Err (conflictWithRetryAfter ErrIdempotencyRetryBackoff (LockedUntil r) now), w)) ∧
       (Status r = IdempotencyStatusFailedRetryable → unlocked → runs (snd out) = S (runs w))) ∧
    (RequestFingerprint r = fp → ExpiresAt r <= now → unlocked → runs (snd out) = S (runs w)).
Proof.
  intros Hkey Hne Hrepo Hscope Hfp Hok Hpos out now.
  pose proof (run_Execute c opts ky fp Hkey Hne Hrepo Hscope Hfp w) as Hrun. fold out in Hrun.
  assert (Howner : ∀ id t, id ≠ 0 → runProg w (admitRequest (attemptAt c opts ky fp now)) = (Ok (Owner id), setTable w t) →
    runs (snd out) = S (runs w)).
  { intros id t Hid Hadm. unfold now in Hadm. rewrite Hrun, Hadm. by rewrite runOwned_runs. }
  split.
  { intros Hn. destruct (admit_fresh c opts ky fp w Hn) as [t Ht]. apply (Howner (nextID (tbl w)) t ltac:(lia) Ht). }
  intros r Hr unlocked. destruct (Get_row _ _ _ _ Hok Hr) as (Hrow & Hid & _).
  pose proof (admit_existing c opts ky fp w r Hr) as Hadm. fold now in Hadm, Hrun.
  rewrite Hadm in Hrun, Howner. clear Hadm. unfold admitExisting in Hrun, Howner.
  cbn [aFingerprint aNow attemptAt] in Hrun, Howner. split_and!.
  - intros Hf. rewrite (proj2 (String.eqb_neq _ _) Hf) in Hrun. done.
  - intros <- Hexp. rewrite String.eqb_refl in Hrun, Howner.
    assert (After (ExpiresAt r) now = true) as Haf by by apply Z.ltb_lt.
    rewrite Haf in Hrun, Howner. cbn [negb] in Hrun, Howner. unfold admitByStatus in Hrun, Howner.
    split_and!; intros Hst; rewrite Hst in Hrun, Howner; cbn in Hrun, Howner.
    + destruct (decodeStoredResponse (ResponseBody r)); by cbn in Hrun.
    + done.
    + intros (l & Hl & Hlt). rewrite Hl in Hrun |- *.
      assert (After l now = true) as Hal by by apply Z.ltb_lt. rewrite Hal in Hrun. done.
    + intros Hun. rewrite (lockActive_false r now Hun) in Howner.
      destruct (reclaim_taken w (attemptAt c opts ky (RequestFingerprint r) now) r Hrow Hun) as [t Ht].
      rewrite Hst in Ht. apply (Howner (IdempotencyStore.ID r) t ltac:(lia)).
      cbn [mbind prog_bind bindProg runProg]. cbn [aNow aLockedUntil aExpiresAt attemptAt] in Ht |- *. by rewrite Ht.
  - intros <- Hexp Hun. rewrite String.eqb_refl in Howner.
    assert (After (ExpiresAt r) now = false) as Haf by by apply Z.ltb_ge.
    rewrite Haf in Howner. cbn [negb] in Howner.
    destruct (reclaim_taken w (attemptAt c opts ky (RequestFingerprint r) now) r Hrow Hun) as [t Ht].
    apply (Howner (IdempotencyStore.ID r) t ltac:(lia)).
    cbn [mbind prog_bind bindProg runProg]. cbn [aNow aLockedUntil aExpiresAt attemptAt] in Ht |- *. by rewrite Ht.
Qed.
(** C30: execute-then-replay: a request whose key is new executes once and
    returns the fresh result; the same request, at any later moment before the
    record expires and in any world that still has the resulting table, returns
    the decoded stored response, marked as replayed, without executing and
    without touching the store. *)
Theorem execute_then_replay c opts ky fp w d body d' :
  NormalizeIdempotencyKey (IdempotencyKey opts) = Ok ky → ky ≠ "" → hasRepo c = true → oScope opts ≠ "" →
  BuildIdempotencyFingerprint (Method opts) (Route opts) (ActorScope opts) (oPayload opts) = Ok fp →
  0 < nextID (tbl w) → keyIndex (tbl w) !! (oScope opts, HashIdempotencyKey ky) = None →
  executor w (runs w) = Ok d → marshalStoredResponse c d = Ok body → decodeStoredResponse (Some body) = Ok d' →
  let '(out, w1) := runProg w (Execute c opts true) in
  out = Ok (mkResult d false) ∧ runs w1 = S (runs w) ∧
  ∀ w2, tbl w2 = tbl w1 → clock w2 < clock w + effectiveTTL c opts →
    runProg w2 (Execute c opts true) = (Ok (mkResult d' true), w2).
Proof.
  intros Hkey Hne Hrepo Hscope Hfp Hpos Hn Hex Hm Hd.
  rewrite (run_Execute c opts ky fp Hkey Hne Hrepo Hscope Hfp w).
  unfold admitRequest. cbn [mbind prog_bind bindProg runProg runCall]. unfold CreateProcessing, keyOf.
  cbn [Scope IdempotencyKeyHash aScope aKeyHash attemptAt]. rewrite Hn. cbn [runProg].
  unfold runOwned. rewrite (proj2 (Z.eqb_neq (nextID (tbl w)) 0)) by lia.
  cbn [mbind prog_bind bindProg runProg runCall]. cbn [setTable executor runs tbl]. rewrite Hex, Hm.
  cbn [mbind prog_bind bindProg runProg runCall setTable tbl clock runs executor].
  split; [done|]. split; [done|]. intros w2 Ht Hclk.
  rewrite (run_Execute c opts ky fp Hkey Hne Hrepo Hscope Hfp w2).
  erewrite (admit_existing c opts ky fp w2).
  2:{ rewrite Ht. unfold GetByScopeAndKeyHash, MarkSucceeded, updateRow. cbn [rows keyIndex fst].
      rewrite lookup_insert_eq. cbn [fst rows keyIndex]. rewrite (lookup_insert_eq (keyIndex (tbl w))). apply lookup_insert_eq. }
  unfold admitExisting. cbn [RequestFingerprint aFingerprint attemptAt aNow ExpiresAt]. rewrite String.eqb_refl.
  unfold After, Add. rewrite (proj2 (Z.ltb_lt _ _) Hclk). cbn [negb].
  unfold admitByStatus. cbn [Status ResponseBody]. rewrite Hd. reflexivity.
Qed.
End coordinator.
Arguments Ret {_ A} a.
Arguments Do {_ A R} c k.

(** ** A reclaim that races with another one

    The guard of the reclaim statement does not look at the expiry: a request
    that has read an expired record can still take it after another request has
    reclaimed it, executed and stored a fresh success. *)

(** Run [n] calls of a program and leave the rest. *)
Fixpoint runCalls `{IdempotencyEnv} {A} (n : nat) (w : world) (p : Prog A) : Prog A * world :=
  match n, p with
  | S n, Do c k => let '(r, w) := runCall w c in runCalls n w (k r)
  | _, _ => (p, w)
  end.

(** An environment of strings: payloads and results are stored as they are. *)
#[local] Instance stringEnv : IdempotencyEnv := {|
  Payload := string; Data := string;
  marshalPayload := Some; marshalData := Some; unmarshalData := Ok;
  emptyObject := "{}"; RedactText := id; sha256Hex := id |}.
#[local] Instance asciiOnly : UnicodeCase := ascii_case.

Definition coordinator1 : IdempotencyCoordinator := mkCoordinator true DefaultIdempotencyConfig.
Definition options1 : IdempotencyExecuteOptions :=
  mkOptions "admin.users.create" "admin:1" "POST" "/users" "key-1" "payload" 0 true.
Definition fingerprint1 : string :=
  "POST" +:+ newline +:+ "/users" +:+ newline +:+ "admin:1" +:+ newline +:+ "payload".
Definition expiredRow : IdempotencyRecord :=
  mkRecord 1 "admin.users.create" "key-1" fingerprint1 IdempotencyStatusSucceeded
    (Some 200) (Some "old") None None (100 * Second) 0 0.
Definition raceWorld : world :=
  mkWorld (mkTable {[ 1 := expiredRow ]} {[ ("admin.users.create", "key-1") := 1 ]} 2) (100 * Second) 0 (λ n, Ok "new").


(** ** Witnesses *)

Definition emptyWorld : world := mkWorld emptyTable (50 * Second) 0 (λ n, Ok "created").

Lemma execute_outcome_witness : runs (snd (runProg emptyWorld (Execute coordinator1 options1 true))) = 1%nat.
Proof.
  refine (proj1 (execute_outcome coordinator1 options1 "key-1" fingerprint1 emptyWorld _ _ _ _ _ _ _) _);
    try done. apply emptyTable_ok.
Defined.

Lemma execute_then_replay_witness :
  let '(out, w1) := runProg emptyWorld (Execute coordinator1 options1 true) in
  out = Ok (mkResult "created" false) ∧ runs w1 = 1%nat ∧
  ∀ w2, tbl w2 = tbl w1 → clock w2 < 50 * Second + 24 * Hour →
    runProg w2 (Execute coordinator1 options1 true) = (Ok (mkResult "created" true), w2).
Proof.
  exact (execute_then_replay coordinator1 options1 "key-1" fingerprint1 emptyWorld "created" "created" "created"
    eq_refl ltac:(done) eq_refl ltac:(done) eq_refl eq_refl eq_refl eq_refl eq_refl eq_refl).
Defined.

(** Two requests with the same key start; the first one executes. *)
Definition lo1 : Time := 0.
Definition hi1 : Time := 24 * Hour.
Definition start1 : request := mkRequest (requestKey coordinator1 options1) (Execute coordinator1 options1 true).
Definition system0 : system := mkSystem emptyTable 0 [].

Definition callOne (s : system) (i : nat) : system :=
  match pool s !! i with
  | Some (mkRequest ky (Do c k)) =>
      let '(r, w) := runCall (mkWorld (sTable s) (sClock s) 0 (λ _, Ok "created")) c in
      mkSystem (tbl w) (sClock s) (<[i := mkRequest ky (k r)]> (pool s))
  | _ => s
  end.

Lemma runCall_answers {R} w (c : call R) : answers (clock w) (clock w) (tbl w) c (fst (runCall w c)) (tbl (snd (runCall w c))).
Proof.
  destruct c; cbn; try done.
  - destruct (CreateProcessing _ _ _); by left.
  - by left.
  - destruct (TryReclaim _ _ _ _ _ _ _); by left.
  - destruct (ExtendProcessingLock _ _ _ _ _ _); by left.
  - by left.
  - by left.
Qed.

Lemma callOne_reachable lo hi s i :
  reachable (opening lo hi) (step lo hi) s → reachable (opening lo hi) (step lo hi) (callOne s i).
Proof.
  intros Hr. unfold callOne. destruct (pool s !! i) as [[ky [a|R c k]]|] eqn:E; [done| |done].
  set (w := mkWorld _ _ _ _). pose proof (runCall_answers w c) as Ha.
  destruct (runCall w c) as [r w']. cbn [fst snd] in Ha.
  eapply reach_step; [done|]. by eapply step_call.
Qed.

Definition system1 : system :=
  callOne (callOne (mkSystem emptyTable 0 [start1; start1]) 0) 0.

Lemma system1_reachable : reachable (opening lo1 hi1) (step lo1 hi1) system1.
Proof.
  apply callOne_reachable, callOne_reachable.
  apply (reach_step _ _ (mkSystem emptyTable 0 [start1]) _).
  - apply (reach_step _ _ system0 _).
    + apply reach_init. split_and!; try done; apply emptyTable_ok.
    + apply (step_start lo1 hi1 system0 coordinator1 options1 true). vm_compute. done.
  - apply (step_start lo1 hi1 (mkSystem emptyTable 0 [start1]) coordinator1 options1 true). vm_compute. done.
Qed.

Definition first1 : request := default start1 (pool system1 !! 0%nat).

Lemma idempotent_mutual_exclusion_witness :
  ∃ id r, rows (sTable system1) !! id = Some r ∧ keyOf r = ("admin.users.create", "key-1") ∧
    Status r = IdempotencyStatusProcessing.
Proof.
  refine (proj2 (idempotent_mutual_exclusion lo1 hi1 system1 0 1
    first1 start1 ("admin.users.create", "key-1") system1_reachable _ _ _ _ _)).
  - reflexivity.
  - reflexivity.
  - reflexivity.
  - reflexivity.
  - eexists. reflexivity.
Defined.

Definition system2 : system := callOne (callOne system1 0) 0.

Lemma idempotent_at_most_once_witness : ¬ executing start1.
Proof.
  refine (proj2 (idempotent_at_most_once lo1 hi1 system2 system2 1
    (mkRecord 1 "admin.users.create" "key-1" fingerprint1 IdempotencyStatusSucceeded (Some 200) (Some "created")
       None None (24 * Hour) 0 0) start1 _ (rtc_refl _ _) _ _) _ _).
  - apply callOne_reachable, callOne_reachable, system1_reachable.
  - vm_compute. reflexivity.
  - reflexivity.
  - right. left.
  - reflexivity.
Defined.
