(* ===== verification/SystemOperationLock.v ===== *)
(** * The global lock of administrative operations

    [backend/internal/service/system_operation_lock_service.go]: a lease kept in
    one record of the idempotency store.  [Acquire] and [Release] are programs
    over the store calls; [renewOnce] is one round of the renewal goroutine, and
    its answer says whether the goroutine goes on. *)

From S2P Require Import Prelude GoRuntime AppErrors IdempotencyStore Idempotency.
#[local] Open Scope Z_scope.

Definition systemOperationLockScope : string := "admin.system.operations.global_lock".
Definition systemOperationLockKey : string := "global-system-operation-lock".

Definition ErrSystemOperationBusy := Conflict "SYSTEM_OPERATION_BUSY" "another system operation is in progress".

Record SystemOperationLock := mkLock {
  recordID : Z;
  operationID : string;
}.

Definition OperationID (l : option SystemOperationLock) : string :=
  match l with None => "" | Some l => operationID l end.

Record SystemOperationLockService := mkService {
  lease : Duration;
  renewInterval : Duration;
  ttl : Duration;
}.

Definition NewSystemOperationLockService (c : IdempotencyConfig) : SystemOperationLockService :=
  let lease := if ProcessingTimeout c <=? 0 then 30 * Second else ProcessingTimeout c in
  let renewInterval := goQuot lease 3 in
  let renewInterval := if renewInterval <? Second then Second else renewInterval in
  mkService lease renewInterval (if SystemOperationTTL c <=? 0 then Hour else SystemOperationTTL c).

Definition busyError (operationID : string) (lockedUntil : option Time) (now : Time) : goError :=
  let md : gmap string string := if String.eqb operationID "" then ∅ else {[ "operation_id" := operationID ]} in
  let md := match lockedUntil with
            | None => md
            | Some l => let sec := f64_trunc (Seconds (Sub l now)) in
                        <[ "retry_after" := Itoa (if sec <=? 0 then 1 else sec) ]> md
            end in
  if zsize md =? 0 then AppErr ErrSystemOperationBusy else AppErr (WithMetadata ErrSystemOperationBusy (Some md)).

Section lock.
Context `{UnicodeCase} `{IdempotencyEnv}.

#[local] Instance prog_ret : MRet Prog := @Ret _.
#[local] Instance prog_bind : MBind Prog := fun A B => bindProg.

Definition lockHash : string := HashIdempotencyKey systemOperationLockKey.

(** [s = None] is a nil service or repository. *)
Definition Acquire (s : option SystemOperationLockService) (operationID : string) : Prog (result goError SystemOperationLock) :=
  match s with
  | None => fail ErrIdempotencyStoreUnavail
  | Some s =>
    if String.eqb operationID "" then fail (BadRequest "SYSTEM_OPERATION_ID_REQUIRED" "operation id is required") else
    now ← Do CNow Ret;
    let expiresAt := Add now (ttl s) in
    let lockedUntil := Add now (lease s) in
    owner ← Do (CCreate (mkRecord 0 systemOperationLockScope lockHash operationID IdempotencyStatusProcessing
                           None None None (Some lockedUntil) expiresAt zeroTime zeroTime)) Ret;
    let acquired (id : Z) := if id =? 0 then storeUnavail None else Ret (Ok (mkLock id operationID)) in
    match owner with
    | Err e => storeUnavail (Some e)
    | Ok (Some id) => acquired id
    | Ok None =>
        existing ← Do (CGet systemOperationLockScope lockHash) Ret;
        match existing with
        | Err e => storeUnavail (Some e)
        | Ok None => storeUnavail None
        | Ok (Some existing) =>
            if String.eqb (Status existing) IdempotencyStatusProcessing
               && match LockedUntil existing with Some l => After l now | None => false end
            then Ret (Err (busyError (RequestFingerprint existing) (LockedUntil existing) now))
            else
              reclaimed ← Do (CReclaim (IdempotencyStore.ID existing) (Status existing) now lockedUntil expiresAt) Ret;
              match reclaimed with
              | Err e => storeUnavail (Some e)
              | Ok true => acquired (IdempotencyStore.ID existing)
              | Ok false =>
                  latest ← Do (CGet systemOperationLockScope lockHash) Ret;
                  match latest with
                  | Ok (Some latest) => Ret (Err (busyError (RequestFingerprint latest) (LockedUntil latest) now))
                  | _ => fail ErrSystemOperationBusy
                  end
              end
        end
    end
  end.

Definition quote : string := String (ascii_of_nat 34) "".
Definition releasedBody (operationID : string) : string :=
  "{" +:+ quote +:+ "operation_id" +:+ quote +:+ ":" +:+ quote +:+ operationID +:+ quote +:+ ","
      +:+ quote +:+ "released" +:+ quote +:+ ":true}".

Definition Release (s : option SystemOperationLockService) (lock : option SystemOperationLock)
    (succeeded : bool) (failureReason : string) : Prog (result goError unit) :=
  match s, lock with
  | Some s, Some lock =>
      now ← Do CNow Ret;
      let expiresAt := Add now (ttl s) in
      if succeeded then Do (CSucceeded (recordID lock) 200 (releasedBody (operationID lock)) expiresAt) Ret
      else
        let reason := if String.eqb failureReason "" then "SYSTEM_OPERATION_FAILED" else failureReason in
        later ← Do CNow Ret;
        Do (CFailed (recordID lock) reason later expiresAt) Ret
  | _, _ => Ret (Ok tt)
  end.

(** One tick of the renewal loop: [false] ends it. *)
Definition renewOnce (s : SystemOperationLockService) (lock : SystemOperationLock) : Prog bool :=
  now ← Do CNow Ret;
  ok ← Do (CExtend (recordID lock) (operationID lock) (Add now (lease s)) (Add now (ttl s))) Ret;
  Ret (match ok with Err _ => true | Ok b => b end).

(** ** Lemmas *)

(** The record of the lock in the table. *)
Definition lockRow (t : table) : option IdempotencyRecord := GetByScopeAndKeyHash t systemOperationLockScope lockHash.

(** A record under an unexpired lock, whatever its status: busy. *)
Lemma Acquire_held s op w r l :
  op ≠ "" → table_ok (tbl w) → lockRow (tbl w) = Some r → LockedUntil r = Some l → clock w < l →
  runProg w (Acquire (Some s) op) = (Err (busyError (RequestFingerprint r) (Some l) (clock w)), w).
Proof.
  intros Hop Hok Hr Hl Hlt. destruct (Get_row _ _ _ _ Hok Hr) as (Hrow & _ & _).
  unfold Acquire. rewrite (proj2 (String.eqb_neq op "") Hop). unfold lockRow, GetByScopeAndKeyHash in Hr.
  destruct (keyIndex (tbl w) !! (systemOperationLockScope, lockHash)) as [id|] eqn:E; [|done].
  cbn [mbind prog_bind bindProg runProg runCall]. unfold CreateProcessing, keyOf. cbn [Scope IdempotencyKeyHash].
  rewrite E. assert (setTable w (tbl w) = w) as Hw by by destruct w. rewrite Hw.
  cbn [mbind prog_bind bindProg runProg runCall]. unfold GetByScopeAndKeyHash at 1. rewrite E, Hr, Hl.
  unfold After. rewrite (proj2 (Z.ltb_lt _ _) Hlt), andb_true_r.
  destruct (String.eqb (Status r) IdempotencyStatusProcessing); [done|].
  cbn [mbind prog_bind bindProg runProg runCall].
  assert (TryReclaim (tbl w) (IdempotencyStore.ID r) (Status r) (clock w) (Add (clock w) (lease s))
            (Add (clock w) (ttl s)) (clock w) = (tbl w, false)) as ->.
  { unfold TryReclaim, updateRow. rewrite Hrow, Hl, (proj2 (Z.leb_gt l (clock w)) Hlt). by rewrite andb_false_r. }
  cbn [runProg]. rewrite Hw. cbn [mbind prog_bind bindProg runProg runCall].
  unfold GetByScopeAndKeyHash. by rewrite E, Hr, Hl.
Qed.

Lemma Acquire_fresh s op w :
  op ≠ "" → 0 < nextID (tbl w) → keyIndex (tbl w) !! (systemOperationLockScope, lockHash) = None →
  ∃ w' r, runProg w (Acquire (Some s) op) = (Ok (mkLock (nextID (tbl w)) op), w') ∧ clock w' = clock w ∧
    lockRow (tbl w') = Some r ∧ rows (tbl w') !! nextID (tbl w) = Some r ∧
    Status r = IdempotencyStatusProcessing ∧ RequestFingerprint r = op ∧
    LockedUntil r = Some (clock w + lease s).
Proof.
  intros Hop Hpos Hn. unfold Acquire. rewrite (proj2 (String.eqb_neq op "") Hop).
  cbn [mbind prog_bind bindProg runProg runCall]. unfold CreateProcessing, keyOf. cbn [Scope IdempotencyKeyHash].
  rewrite Hn. rewrite (proj2 (Z.eqb_neq (nextID (tbl w)) 0)) by lia. cbn [runProg].
  eexists _, _. split; [done|]. unfold lockRow, GetByScopeAndKeyHash. cbn.
  rewrite (lookup_insert_eq (keyIndex (tbl w))), lookup_insert_eq. done.
Qed.

(** A record that is not held: it is reclaimed, and keeps its fingerprint. *)
Lemma Acquire_reclaim s op w r :
  op ≠ "" → table_ok (tbl w) → lockRow (tbl w) = Some r → (∀ l, LockedUntil r = Some l → l <= clock w) →
  ∃ w' r', runProg w (Acquire (Some s) op) = (Ok (mkLock (IdempotencyStore.ID r) op), w') ∧ clock w' = clock w ∧
    lockRow (tbl w') = Some r' ∧ rows (tbl w') !! IdempotencyStore.ID r = Some r' ∧
    Status r' = IdempotencyStatusProcessing ∧ RequestFingerprint r' = RequestFingerprint r ∧
    LockedUntil r' = Some (clock w + lease s).
Proof.
  intros Hop Hok Hr Hl. destruct (Get_row _ _ _ _ Hok Hr) as (Hrow & Hid & Hkey).
  unfold Acquire. rewrite (proj2 (String.eqb_neq op "") Hop).
  unfold lockRow, GetByScopeAndKeyHash in Hr.
  destruct (keyIndex (tbl w) !! (systemOperationLockScope, lockHash)) as [id|] eqn:E; [|done].
  assert (id = IdempotencyStore.ID r) as -> by (symmetry; by apply (row_id _ Hok)).
  cbn [mbind prog_bind bindProg runProg runCall]. unfold CreateProcessing, keyOf. cbn [Scope IdempotencyKeyHash].
  rewrite E. assert (setTable w (tbl w) = w) as -> by by destruct w.
  cbn [mbind prog_bind bindProg runProg runCall]. unfold GetByScopeAndKeyHash. rewrite E, Hr.
  rewrite (lockActive_false r (clock w) Hl), andb_false_r.
  cbn [mbind prog_bind bindProg runProg runCall]. unfold TryReclaim, updateRow. rewrite Hr, String.eqb_refl.
  assert (match LockedUntil r with None => true | Some l => l <=? clock w end = true) as ->.
  { destruct (LockedUntil r) as [l|]; [|done]. apply Z.leb_le. by apply Hl. }
  cbn [andb runProg]. rewrite (proj2 (Z.eqb_neq (IdempotencyStore.ID r) 0)) by lia. cbn [runProg].
  eexists _, _. split; [done|]. unfold lockRow, GetByScopeAndKeyHash. cbn. rewrite E, lookup_insert_eq. done.
Qed.

Lemma renewOnce_spec s lock w r :
  rows (tbl w) !! recordID lock = Some r → Status r = IdempotencyStatusProcessing →
  let '(goesOn, w') := runProg w (renewOnce s lock) in
  goesOn = String.eqb (RequestFingerprint r) (operationID lock) ∧
  if goesOn then ∃ r', rows (tbl w') !! recordID lock = Some r' ∧ keyIndex (tbl w') = keyIndex (tbl w) ∧
      Status r' = Status r ∧ RequestFingerprint r' = RequestFingerprint r ∧ LockedUntil r' = Some (clock w + lease s)
  else w' = w.
Proof.
  intros Hr Hst. unfold renewOnce. cbn [mbind prog_bind bindProg runProg runCall].
  unfold ExtendProcessingLock, updateRow. rewrite Hr, Hst. cbn [String.eqb].
  change (String.eqb IdempotencyStatusProcessing IdempotencyStatusProcessing) with true. cbn [andb].
  destruct (String.eqb (RequestFingerprint r) (operationID lock)); cbn [runProg].
  - split; [done|]. eexists. cbn. split; [apply lookup_insert_eq|done].
  - split; [done|]. by destruct w.
Qed.

(** ** Properties *)

(** The lease excludes: when one operation has acquired the lock, every
    attempt of any operation to acquire it before the lease ends is refused as
    busy and changes nothing; and while the holder of a lock it created keeps
    renewing, each renewal succeeds and moves the end of the exclusion. *)
Theorem system_lock_excludes s op w lock w1 :
  table_ok (tbl w) → 0 < nextID (tbl w) → op ≠ "" →
  runProg w (Acquire (Some s) op) = (Ok lock, w1) →
  (∀ op' w2, op' ≠ "" → tbl w2 = tbl w1 → clock w2 < clock w + lease s →
     ∃ e, runProg w2 (Acquire (Some s) op') = (Err e, w2) ∧ Is ErrSystemOperationBusy (Some e) = true) ∧
  (keyIndex (tbl w) !! (systemOperationLockScope, lockHash) = None →
   ∀ w2, tbl w2 = tbl w1 →
     let '(goesOn, w3) := runProg w2 (renewOnce s lock) in
     goesOn = true ∧
     ∀ op' w4, op' ≠ "" → tbl w4 = tbl w3 → clock w4 < clock w2 + lease s →
       ∃ e, runProg w4 (Acquire (Some s) op') = (Err e, w4) ∧ Is ErrSystemOperationBusy (Some e) = true).
Proof.
  intros Hok Hpos Hop Hacq.
  pose proof (runProg_ok (Acquire (Some s) op) w Hok Hpos) as [Hok1 Hpos1]. rewrite Hacq in Hok1, Hpos1. cbn [snd] in *.
  assert (Hbusy : ∀ o l n, Is ErrSystemOperationBusy (Some (busyError o l n)) = true).
  { intros o l n. unfold busyError. by repeat case_match. }
  destruct (keyIndex (tbl w) !! (systemOperationLockScope, lockHash)) as [id|] eqn:E.
  - split; [|done]. destruct (proj1 (index_row _ Hok _ _) E) as (r & Hr & _).
    assert (Hlock : lockRow (tbl w) = Some r) by (unfold lockRow, GetByScopeAndKeyHash; by rewrite E).
    assert (Hl : ∀ l, LockedUntil r = Some l → l <= clock w).
    { intros l Hl. apply Z.nlt_ge. intros Hlt. by rewrite (Acquire_held s op w r l Hop Hok Hlock Hl Hlt) in Hacq. }
    destruct (Acquire_reclaim s op w r Hop Hok Hlock Hl) as (w' & r' & Hrun & Hclk & Hlock' & _ & _ & _ & Hl').
    rewrite Hrun in Hacq. injection Hacq as _ ->. intros op' w2 Hop' Ht2 Hlt.
    eexists. split; [|apply Hbusy]. by apply (Acquire_held s op' w2 r'); rewrite ?Ht2.
  - destruct (Acquire_fresh s op w Hop Hpos E) as (w' & r' & Hrun & Hclk & Hlock' & Hrow & Hst & Hfp & Hl').
    rewrite Hrun in Hacq. injection Hacq as <- ->. split.
    + intros op' w2 Hop' Ht2 Hlt. eexists. split; [|apply Hbusy]. by apply (Acquire_held s op' w2 r'); rewrite ?Ht2.
    + intros _ w2 Ht2. pose proof (renewOnce_spec s (mkLock (nextID (tbl w)) op) w2 r') as Hren.
      rewrite Ht2 in Hren. specialize (Hren Hrow Hst).
      assert (H2 : table_ok (tbl w2) ∧ 0 < nextID (tbl w2)) by by rewrite Ht2.
      pose proof (runProg_ok (renewOnce s (mkLock (nextID (tbl w)) op)) w2 (proj1 H2) (proj2 H2)) as [Hok3 _].
      destruct (runProg w2 _) as [goesOn w3]. cbn [snd operationID recordID] in *. destruct Hren as [-> Hren].
      rewrite Hfp, String.eqb_refl in *. split; [done|]. destruct Hren as (r3 & Hr3 & Hk3 & _ & Hf3 & Hl3).
      intros op' w4 Hop' Ht4 Hlt. eexists. split; [|apply Hbusy].
      apply (Acquire_held s op' w4 r3); rewrite ?Ht4; try done.
      unfold lockRow, GetByScopeAndKeyHash in *. rewrite Hk3.
      destruct (keyIndex (tbl w1) !! _) as [id|] eqn:Eid; [|done].
      assert (id = nextID (tbl w)) as ->; [|done].
      destruct (row_id _ Hok1 _ _ Hlock') as [Hi1 _]. destruct (row_id _ Hok1 _ _ Hrow) as [Hi2 _]. congruence.
Qed.

(** A reclaimed lock keeps the fingerprint of the operation that created the
    record, so the renewal of its new holder is refused at once and the renewal
    goroutine ends: the lock lapses after one lease however long the operation
    runs. *)
Theorem reclaimed_lock_never_renewed s op w r :
  table_ok (tbl w) → op ≠ "" → lockRow (tbl w) = Some r → (∀ l, LockedUntil r = Some l → l <= clock w) →
  RequestFingerprint r ≠ op →
  let '(acquired, w1) := runProg w (Acquire (Some s) op) in
  ∃ lock, acquired = Ok lock ∧ ∀ w2, tbl w2 = tbl w1 → runProg w2 (renewOnce s lock) = (false, w2).
Proof.
  intros Hok Hop Hlock Hl Hne.
  destruct (Acquire_reclaim s op w r Hop Hok Hlock Hl) as (w1 & r' & -> & _ & _ & Hrow & Hst & Hfp & _).
  eexists. split; [done|]. intros w2 Ht2.
  pose proof (renewOnce_spec s (mkLock (IdempotencyStore.ID r) op) w2 r') as Hren. rewrite Ht2 in Hren.
  specialize (Hren Hrow Hst). destruct (runProg w2 _) as [goesOn w3]. cbn [operationID] in Hren.
  rewrite Hfp, (proj2 (String.eqb_neq _ _) Hne) in Hren. by destruct Hren as [-> ->].
Qed.
End lock.

(** ** Witnesses *)

#[local] Instance stringEnv : IdempotencyEnv := {|
  Payload := string; Data := string;
  marshalPayload := Some; marshalData := Some; unmarshalData := Ok;
  emptyObject := "{}"; RedactText := id; sha256Hex := id |}.
#[local] Instance asciiOnly : UnicodeCase := ascii_case.

Definition service1 : SystemOperationLockService := NewSystemOperationLockService DefaultIdempotencyConfig.
Definition world0 : world := mkWorld emptyTable (50 * Second) 0 (λ n, Ok "").
Definition world1 : world := snd (runProg world0 (Acquire (Some service1) "backup-1")).

Lemma system_lock_excludes_witness :
  ∃ e, runProg world1 (Acquire (Some service1) "upgrade-2") = (Err e, world1) ∧ Is ErrSystemOperationBusy (Some e) = true.
Proof.
  refine (proj1 (system_lock_excludes service1 "backup-1" world0 (mkLock 1 "backup-1") world1
    emptyTable_ok eq_refl _ _) "upgrade-2" world1 _ eq_refl _).
  - done.
  - reflexivity.
  - done.
  - reflexivity.
Defined.

(** The second operation runs past its lease and a third one gets in. *)
Example two_holders :
  let released := snd (runProg world1 (Release (Some service1) (Some (mkLock 1 "backup-1")) true "")) in
  let at_ t w := mkWorld (tbl w) (t * Second) (runs w) (executor w) in
  let '(second, w2) := runProg (at_ 100 released) (Acquire (Some service1) "upgrade-2") in
  let '(goesOn, w3) := runProg (at_ 110 w2) (renewOnce service1 (mkLock 1 "upgrade-2")) in
  let '(third, w4) := runProg (at_ 130 w3) (Acquire (Some service1) "restore-3") in
  second = Ok (mkLock 1 "upgrade-2") ∧ goesOn = false ∧ third = Ok (mkLock 1 "restore-3").
Proof. vm_compute. done. Qed.

Definition released1 : world := snd (runProg world1 (Release (Some service1) (Some (mkLock 1 "backup-1")) true "")).

Lemma reclaimed_lock_never_renewed_witness :
  fst (runProg (snd (runProg released1 (Acquire (Some service1) "upgrade-2")))
         (renewOnce service1 (mkLock 1 "upgrade-2"))) = false.
Proof.
  pose proof (reclaimed_lock_never_renewed service1 "upgrade-2" released1
    (mkRecord 1 systemOperationLockScope lockHash "backup-1" IdempotencyStatusSucceeded (Some 200)
       (Some (releasedBody "backup-1")) None None (50 * Second + Hour) (50 * Second) (50 * Second))) as Hr.
  assert (Hok : table_ok (tbl released1)).
  { unfold released1, world1. apply runProg_ok; apply runProg_ok; done || apply emptyTable_ok. }
  specialize (Hr Hok ltac:(done) eq_refl ltac:(done) ltac:(done)).
  destruct (runProg released1 (Acquire (Some service1) "upgrade-2")) as [acquired w1] eqn:E.
  destruct Hr as (lock & -> & Hr). cbn [snd].
  assert (lock = mkLock 1 "upgrade-2") as <-.
  { assert (Ha : fst (runProg released1 (Acquire (Some service1) "upgrade-2")) = Ok (mkLock 1 "upgrade-2")) by reflexivity.
    rewrite E in Ha. by injection Ha. }
  by rewrite (Hr w1 eq_refl).
Defined.
