(* ===== verification/UserSubscription.v ===== *)
(** * Subscriptions: status, quota windows and usage

    [backend/internal/service/user_subscription.go], the window maintenance of
    [subscription_service.go] and the statements of
    [repository/user_subscription_repo.go] it runs.  A pointer field is an
    [option]; money is binary64.  [now] is the clock reading of the caller. *)

From S2P Require Import Prelude GoRuntime Domain AppErrors.
#[local] Open Scope Z_scope.

Definition subscriptionDailyWindow : Duration := 24 * Hour.
Definition subscriptionWeeklyWindow : Duration := 7 * 24 * Hour.
Definition subscriptionMonthlyWindow : Duration := 30 * 24 * Hour.
Definition SubscriptionStatusRevoked : string := "revoked".

Record UserSubscription := mkSubscription {
  StartsAt : Time;
  ExpiresAt : Time;
  sStatus : string;
  DailyWindowStart : option Time;
  WeeklyWindowStart : option Time;
  MonthlyWindowStart : option Time;
  DailyLimitUSD : option float64;
  WeeklyLimitUSD : option float64;
  MonthlyLimitUSD : option float64;
  DailyUsageUSD : float64;
  WeeklyUsageUSD : float64;
  MonthlyUsageUSD : float64;
  DeletedAt : option Time;
}.

Definition setDaily (s : UserSubscription) (start : option Time) (used : float64) : UserSubscription :=
  mkSubscription (StartsAt s) (ExpiresAt s) (sStatus s) start (WeeklyWindowStart s) (MonthlyWindowStart s)
    (DailyLimitUSD s) (WeeklyLimitUSD s) (MonthlyLimitUSD s) used (WeeklyUsageUSD s) (MonthlyUsageUSD s) (DeletedAt s).
Definition setWeekly (s : UserSubscription) (start : option Time) (used : float64) : UserSubscription :=
  mkSubscription (StartsAt s) (ExpiresAt s) (sStatus s) (DailyWindowStart s) start (MonthlyWindowStart s)
    (DailyLimitUSD s) (WeeklyLimitUSD s) (MonthlyLimitUSD s) (DailyUsageUSD s) used (MonthlyUsageUSD s) (DeletedAt s).
Definition setMonthly (s : UserSubscription) (start : option Time) (used : float64) : UserSubscription :=
  mkSubscription (StartsAt s) (ExpiresAt s) (sStatus s) (DailyWindowStart s) (WeeklyWindowStart s) start
    (DailyLimitUSD s) (WeeklyLimitUSD s) (MonthlyLimitUSD s) (DailyUsageUSD s) (WeeklyUsageUSD s) used (DeletedAt s).

Record SubscriptionWindowActivation := mkActivation {
  Daily : bool;
  Weekly : bool;
  Monthly : bool;
}.
Definition Any (a : SubscriptionWindowActivation) : bool := Daily a || Weekly a || Monthly a.

(** ** Status *)

Definition notDeleted (s : UserSubscription) : bool := match DeletedAt s with None => true | Some _ => false end.

Definition IsActive (s : UserSubscription) (now : Time) : bool :=
  notDeleted s && eqs (sStatus s) SubscriptionStatusActive && negb (Before now (StartsAt s)) && Before now (ExpiresAt s).

Definition IsPending (s : option UserSubscription) (now : Time) : bool :=
  match s with
  | None => false
  | Some s => notDeleted s && eqs (sStatus s) SubscriptionStatusPending && Before now (StartsAt s)
  end.

Definition EffectiveStatus (s : option UserSubscription) (now : Time) : string :=
  match s with
  | None => SubscriptionStatusExpired
  | Some s =>
      if negb (notDeleted s) then SubscriptionStatusRevoked else
      if negb (After (ExpiresAt s) now) then SubscriptionStatusExpired else
      if Before now (StartsAt s) then SubscriptionStatusPending else
      if eqs (sStatus s) SubscriptionStatusSuspended then SubscriptionStatusSuspended
      else SubscriptionStatusActive
  end.

Definition IsEffective (s : option UserSubscription) (now : Time) : bool :=
  match s with
  | None => false
  | Some u => negb (Before now (StartsAt u)) && Before now (ExpiresAt u)
              && eqs (EffectiveStatus s now) SubscriptionStatusActive
  end.

Definition IsExpired (s : UserSubscription) (now : Time) : bool := negb (After (ExpiresAt s) now).

Definition daysRemainingAt (s : UserSubscription) (now : Time) : Z :=
  let remaining := Sub (ExpiresAt s) now in
  if remaining <=? 0 then 0 else
  let days := goQuot remaining subscriptionDailyWindow in
  if negb (goRem remaining subscriptionDailyWindow =? 0) then wrap64 (days + 1) else days.

Definition IsWindowActivated (s : UserSubscription) : bool :=
  match DailyWindowStart s, WeeklyWindowStart s, MonthlyWindowStart s with
  | None, None, None => false
  | _, _, _ => true
  end.

(** ** Limits *)

Definition positiveSubscriptionLimit (limit : option float64) : bool :=
  match limit with None => false | Some l => f64_gt l f64_zero end.

Definition finitePositiveSubscriptionLimit (limit : option float64) : bool :=
  positiveSubscriptionLimit limit
  && match limit with None => false | Some l => negb (f64_isNaN l) && negb (f64_isInf l) end.

Definition valueOrZeroLimit (value : option float64) : float64 := default f64_zero value.

Definition HasQuotaLimit (s : UserSubscription) : bool :=
  positiveSubscriptionLimit (DailyLimitUSD s) || positiveSubscriptionLimit (WeeklyLimitUSD s)
  || positiveSubscriptionLimit (MonthlyLimitUSD s).

Definition hasFiniteOuterQuotaLimit (s : UserSubscription) (duration : Duration) : bool :=
  if duration =? subscriptionDailyWindow then
    positiveSubscriptionLimit (WeeklyLimitUSD s) || positiveSubscriptionLimit (MonthlyLimitUSD s)
  else if duration =? subscriptionWeeklyWindow then positiveSubscriptionLimit (MonthlyLimitUSD s)
  else false.

Definition CanStartFullQuotaWindow (s : UserSubscription) (windowStart : Time) (duration : Duration) : bool :=
  if IsZero (ExpiresAt s) || (duration <=? 0) || negb (Before windowStart (ExpiresAt s)) then false
  else negb (After (Add windowStart duration) (ExpiresAt s)).

Definition canStartQuotaWindow (s : UserSubscription) (windowStart : Time) (duration : Duration) : bool :=
  if IsZero (ExpiresAt s) || negb (Before windowStart (ExpiresAt s)) then false
  else CanStartFullQuotaWindow s windowStart duration || hasFiniteOuterQuotaLimit s duration.

Definition checkLimit (limit : option float64) (used additionalCost : float64) : bool :=
  match limit with
  | None => true
  | Some l => if f64_le l f64_zero then true else f64_le (f64_add used additionalCost) l
  end.
Definition CheckDailyLimit (s : UserSubscription) := checkLimit (DailyLimitUSD s) (DailyUsageUSD s).
Definition CheckWeeklyLimit (s : UserSubscription) := checkLimit (WeeklyLimitUSD s) (WeeklyUsageUSD s).
Definition CheckMonthlyLimit (s : UserSubscription) := checkLimit (MonthlyLimitUSD s) (MonthlyUsageUSD s).
Definition CheckAllLimits (s : UserSubscription) (additionalCost : float64) : bool * bool * bool :=
  (CheckDailyLimit s additionalCost, CheckWeeklyLimit s additionalCost, CheckMonthlyLimit s additionalCost).

Definition remainingWindowAmount (limit : option float64) (used : float64) : option float64 :=
  match limit with
  | None => None
  | Some l =>
      if f64_le l f64_zero then None else
      let remaining := f64_sub l used in
      Some (if f64_lt remaining f64_zero then f64_zero else remaining)
  end.

(** The loop keeps the least value seen, [None] before the first one. *)
Definition minRemainingStep (best : option float64) (value : option float64) : option float64 :=
  match value with
  | None => best
  | Some v => match best with
              | None => Some v
              | Some b => if f64_lt v b then Some v else Some b
              end
  end.
Definition minRemainingWindowAmount (values : list (option float64)) : float64 :=
  default f64_zero (foldl minRemainingStep None values).

Definition RemainingDailyUSD (s : UserSubscription) := remainingWindowAmount (DailyLimitUSD s) (DailyUsageUSD s).
Definition RemainingWeeklyUSD (s : UserSubscription) := remainingWindowAmount (WeeklyLimitUSD s) (WeeklyUsageUSD s).
Definition RemainingMonthlyUSD (s : UserSubscription) := remainingWindowAmount (MonthlyLimitUSD s) (MonthlyUsageUSD s).
Definition AvailableQuotaUSD (s : UserSubscription) : float64 :=
  minRemainingWindowAmount [RemainingDailyUSD s; RemainingWeeklyUSD s; RemainingMonthlyUSD s].

(** The first level with a finite positive limit decides. *)
Fixpoint firstQuota (quotas : list (option float64 * float64)) : bool :=
  match quotas with
  | [] => false
  | (limit, used) :: rest =>
      if finitePositiveSubscriptionLimit limit then f64_ge used (valueOrZeroLimit limit) else firstQuota rest
  end.
Definition HighestQuotaExhausted (s : option UserSubscription) : bool :=
  match s with
  | None => false
  | Some s => firstQuota [(MonthlyLimitUSD s, MonthlyUsageUSD s); (WeeklyLimitUSD s, WeeklyUsageUSD s);
                          (DailyLimitUSD s, DailyUsageUSD s)]
  end.

(** ** Quota windows *)

Section windows.
Context `{Calendar}.

Definition HasOneTimeDailyQuota (s : UserSubscription) : bool :=
  if IsZero (StartsAt s) || IsZero (ExpiresAt s) then false
  else negb (After (ExpiresAt s) (NextDay (StartsAt s))).

Definition WindowActivationAt (s : option UserSubscription) (now : Time) : SubscriptionWindowActivation :=
  match s with
  | None => mkActivation false false false
  | Some s =>
      if negb (HasQuotaLimit s) || Before now (StartsAt s) || negb (Before now (ExpiresAt s))
      then mkActivation false false false else
      let windowStart := StartOfDay now in
      mkActivation
        (positiveSubscriptionLimit (DailyLimitUSD s) && bool_decide (DailyWindowStart s = None)
         && (HasOneTimeDailyQuota s || canStartQuotaWindow s windowStart subscriptionDailyWindow))
        (positiveSubscriptionLimit (WeeklyLimitUSD s) && bool_decide (WeeklyWindowStart s = None)
         && canStartQuotaWindow s windowStart subscriptionWeeklyWindow)
        (positiveSubscriptionLimit (MonthlyLimitUSD s) && bool_decide (MonthlyWindowStart s = None)
         && canStartQuotaWindow s windowStart subscriptionMonthlyWindow)
  end.

Definition NeedsWindowActivationAt (s : option UserSubscription) (now : Time) : bool := Any (WindowActivationAt s now).

Definition automaticDailyWindowStartAt (s : UserSubscription) (now : Time) : option Time :=
  match DailyWindowStart s with
  | None => None
  | Some start =>
      if IsZero (ExpiresAt s) || negb (Before now (ExpiresAt s)) then None else
      if HasOneTimeDailyQuota s then None else
      let today := StartOfDay now in
      if negb (After today (StartOfDay start)) then None else
      if negb (canStartQuotaWindow s today subscriptionDailyWindow) then None else Some today
  end.

Definition NeedsDailyResetAt (s : UserSubscription) (now : Time) : bool :=
  match automaticDailyWindowStartAt s now with Some _ => true | None => false end.

(** The weekly and the monthly test differ in the window only. *)
Definition needsResetAt (s : UserSubscription) (start : option Time) (window : Duration) (now : Time) : bool :=
  match start with
  | None => false
  | Some start =>
      if IsZero (ExpiresAt s) || negb (Before now (ExpiresAt s)) then false else
      if Before now (Add start window) then false else
      canStartQuotaWindow s (StartOfDay now) window
  end.
Definition NeedsWeeklyResetAt (s : UserSubscription) := needsResetAt s (WeeklyWindowStart s) subscriptionWeeklyWindow.
Definition NeedsMonthlyResetAt (s : UserSubscription) := needsResetAt s (MonthlyWindowStart s) subscriptionMonthlyWindow.

Definition DailyResetTime (s : UserSubscription) : option Time :=
  match DailyWindowStart s with
  | None => None
  | Some start =>
      if HasOneTimeDailyQuota s then Some (ExpiresAt s) else
      let t := NextDay (StartOfDay start) in
      Some (if canStartQuotaWindow s t subscriptionDailyWindow then t else ExpiresAt s)
  end.
Definition resetTime (s : UserSubscription) (start : option Time) (window : Duration) : option Time :=
  match start with
  | None => None
  | Some start => let t := Add start window in
                  Some (if canStartQuotaWindow s t window then t else ExpiresAt s)
  end.
Definition WeeklyResetTime (s : UserSubscription) := resetTime s (WeeklyWindowStart s) subscriptionWeeklyWindow.
Definition MonthlyResetTime (s : UserSubscription) := resetTime s (MonthlyWindowStart s) subscriptionMonthlyWindow.
End windows.

(** ** The statements of the repository, on the row of one subscription *)

Definition ActivateWindows (row : UserSubscription) (start : Time) (a : SubscriptionWindowActivation) : UserSubscription :=
  let row := if Daily a then setDaily row (Some start) (DailyUsageUSD row) else row in
  let row := if Weekly a then setWeekly row (Some start) (WeeklyUsageUSD row) else row in
  if Monthly a then setMonthly row (Some start) (MonthlyUsageUSD row) else row.

Definition ResetUsageWindows (row : UserSubscription) (resetDaily resetWeekly resetMonthly : bool) (start : Time)
    : UserSubscription :=
  let row := if resetDaily then setDaily row (Some start) f64_zero else row in
  let row := if resetWeekly then setWeekly row (Some start) f64_zero else row in
  if resetMonthly then setMonthly row (Some start) f64_zero else row.

(** The conditional resets: the WHERE clause compares the window start. *)
Definition ResetDailyUsage (row : UserSubscription) (expected : option Time) (start : Time) : UserSubscription :=
  if bool_decide (DailyWindowStart row = expected) then setDaily row (Some start) f64_zero else row.
Definition ResetWeeklyUsage (row : UserSubscription) (expected : option Time) (start : Time) : UserSubscription :=
  if bool_decide (WeeklyWindowStart row = expected) then setWeekly row (Some start) f64_zero else row.
Definition ResetMonthlyUsage (row : UserSubscription) (expected : option Time) (start : Time) : UserSubscription :=
  if bool_decide (MonthlyWindowStart row = expected) then setMonthly row (Some start) f64_zero else row.

Definition IncrementUsage (row : UserSubscription) (costUSD : float64) : UserSubscription :=
  if notDeleted row then
    setMonthly (setWeekly (setDaily row (DailyWindowStart row) (f64_add (DailyUsageUSD row) costUSD))
      (WeeklyWindowStart row) (f64_add (WeeklyUsageUSD row) costUSD))
      (MonthlyWindowStart row) (f64_add (MonthlyUsageUSD row) costUSD)
  else row.

(** ** The service *)

Definition subscriptionWindowLimitExceeded (limit : option float64) (used additionalCost : float64) : bool :=
  match limit with
  | None => false
  | Some l =>
      if f64_le l f64_zero then false else
      if f64_eq additionalCost f64_zero then f64_ge used l
      else f64_gt (f64_add used additionalCost) l
  end.

Definition ErrSubscriptionNotFound := NotFound "SUBSCRIPTION_NOT_FOUND" "subscription not found".
Definition ErrSubscriptionExpired := Forbidden "SUBSCRIPTION_EXPIRED" "subscription has expired".
Definition ErrSubscriptionSuspended := Forbidden "SUBSCRIPTION_SUSPENDED" "subscription is suspended".
Definition ErrSubscriptionInvalid := Forbidden "SUBSCRIPTION_INVALID" "subscription is invalid or expired".
Definition ErrDailyLimitExceeded := TooManyRequests "DAILY_LIMIT_EXCEEDED" "daily usage limit exceeded".
Definition ErrWeeklyLimitExceeded := TooManyRequests "WEEKLY_LIMIT_EXCEEDED" "weekly usage limit exceeded".
Definition ErrMonthlyLimitExceeded := TooManyRequests "MONTHLY_LIMIT_EXCEEDED" "monthly usage limit exceeded".

Definition checkSubscriptionUsageLimits (sub : UserSubscription) (additionalCost : float64) : option ApplicationError :=
  if subscriptionWindowLimitExceeded (DailyLimitUSD sub) (DailyUsageUSD sub) additionalCost then Some ErrDailyLimitExceeded else
  if subscriptionWindowLimitExceeded (WeeklyLimitUSD sub) (WeeklyUsageUSD sub) additionalCost then Some ErrWeeklyLimitExceeded else
  if subscriptionWindowLimitExceeded (MonthlyLimitUSD sub) (MonthlyUsageUSD sub) additionalCost then Some ErrMonthlyLimitExceeded else
  None.

Section service.
Context `{Calendar}.

(** [CheckAndActivateWindow]: the decision is taken on the caller's snapshot
    [sub], the statement runs on the row. *)
Definition CheckAndActivateWindow (row : UserSubscription) (sub : UserSubscription) (now : Time) : UserSubscription :=
  let activation := WindowActivationAt (Some sub) now in
  if negb (Any activation) then row else ActivateWindows row (StartOfDay now) activation.

Definition resetDailyStep (row sub : UserSubscription) (now : Time) : UserSubscription * UserSubscription :=
  match automaticDailyWindowStartAt sub now with
  | Some start => (ResetDailyUsage row (DailyWindowStart sub) start, setDaily sub (Some start) f64_zero)
  | None => (row, sub)
  end.
Definition resetWeeklyStep (row sub : UserSubscription) (now : Time) : UserSubscription * UserSubscription :=
  if NeedsWeeklyResetAt sub now
  then (ResetWeeklyUsage row (WeeklyWindowStart sub) (StartOfDay now), setWeekly sub (Some (StartOfDay now)) f64_zero)
  else (row, sub).
Definition resetMonthlyStep (row sub : UserSubscription) (now : Time) : UserSubscription * UserSubscription :=
  if NeedsMonthlyResetAt sub now
  then (ResetMonthlyUsage row (MonthlyWindowStart sub) (StartOfDay now), setMonthly sub (Some (StartOfDay now)) f64_zero)
  else (row, sub).

(** [checkAndResetWindowsAt]: the row and the caller's snapshot afterwards. *)
Definition checkAndResetWindowsAt (row sub : UserSubscription) (now : Time) : UserSubscription * UserSubscription :=
  let '(row, sub) := resetDailyStep row sub now in
  let '(row, sub) := resetWeeklyStep row sub now in
  resetMonthlyStep row sub now.

Definition EnsureWindowMaintenance (row sub : UserSubscription) (now : Time) : UserSubscription :=
  fst (checkAndResetWindowsAt (CheckAndActivateWindow row sub now) sub now).

(** The precheck: whether maintenance is needed, and the refusal; the caller's
    snapshot is updated in place. *)
Definition ValidateAndCheckLimits (sub : UserSubscription) (now : Time)
    : UserSubscription * bool * option ApplicationError :=
  let status := EffectiveStatus (Some sub) now in
  if eqs status SubscriptionStatusExpired then (sub, false, Some ErrSubscriptionExpired) else
  if eqs status SubscriptionStatusSuspended then (sub, false, Some ErrSubscriptionSuspended) else
  if eqs status SubscriptionStatusPending then (sub, false, Some ErrSubscriptionInvalid) else
  if eqs status SubscriptionStatusRevoked then (sub, false, Some ErrSubscriptionNotFound) else
  let '(sub, needs) := if NeedsDailyResetAt sub now then (setDaily sub (DailyWindowStart sub) f64_zero, true) else (sub, false) in
  let '(sub, needs) := if NeedsWeeklyResetAt sub now then (setWeekly sub (WeeklyWindowStart sub) f64_zero, true) else (sub, needs) in
  let '(sub, needs) := if NeedsMonthlyResetAt sub now then (setMonthly sub (MonthlyWindowStart sub) f64_zero, true) else (sub, needs) in
  let needs := if NeedsWindowActivationAt (Some sub) now then true else needs in
  (sub, needs, checkSubscriptionUsageLimits sub f64_zero).

(** ** Concurrent maintenance and charging of one subscription

    Every request works on a snapshot it read at some time; the statements of
    different requests interleave on the row. *)

Inductive operation :=
  | OpActivate (snapshot : UserSubscription) (now : Time)
  | OpResetDaily (snapshot : UserSubscription) (now : Time)
  | OpResetWeekly (snapshot : UserSubscription) (now : Time)
  | OpResetMonthly (snapshot : UserSubscription) (now : Time)
  | OpCharge (costUSD : float64) (now : Time).

Definition opTime (o : operation) : Time :=
  match o with
  | OpActivate _ t | OpResetDaily _ t | OpResetWeekly _ t | OpResetMonthly _ t | OpCharge _ t => t
  end.

Definition runOperation (row : UserSubscription) (o : operation) : UserSubscription :=
  match o with
  | OpActivate sub now => CheckAndActivateWindow row sub now
  | OpResetDaily sub now => fst (resetDailyStep row sub now)
  | OpResetWeekly sub now => fst (resetWeeklyStep row sub now)
  | OpResetMonthly sub now => fst (resetMonthlyStep row sub now)
  | OpCharge costUSD _ => IncrementUsage row costUSD
  end.

Definition charges (ops : list operation) : list float64 :=
  omap (λ o, match o with OpCharge costUSD _ => Some costUSD | _ => None end) ops.

(** The statements touch neither the limits nor the dates. *)
Lemma IncrementUsage_live row cost : DeletedAt row = None →
  DailyUsageUSD (IncrementUsage row cost) = f64_add (DailyUsageUSD row) cost ∧
  WeeklyUsageUSD (IncrementUsage row cost) = f64_add (WeeklyUsageUSD row) cost ∧
  MonthlyUsageUSD (IncrementUsage row cost) = f64_add (MonthlyUsageUSD row) cost ∧
  DailyWindowStart (IncrementUsage row cost) = DailyWindowStart row ∧
  WeeklyWindowStart (IncrementUsage row cost) = WeeklyWindowStart row ∧
  MonthlyWindowStart (IncrementUsage row cost) = MonthlyWindowStart row ∧
  DeletedAt (IncrementUsage row cost) = None.
Proof. intros Hd. unfold IncrementUsage, notDeleted. rewrite Hd. by split_and!. Qed.

(** Which windows an activation writes. *)
Lemma CheckAndActivateWindow_spec row sub now :
  let a := WindowActivationAt (Some sub) now in
  let row' := CheckAndActivateWindow row sub now in
  DailyWindowStart row' = (if Daily a then Some (StartOfDay now) else DailyWindowStart row) ∧
  WeeklyWindowStart row' = (if Weekly a then Some (StartOfDay now) else WeeklyWindowStart row) ∧
  MonthlyWindowStart row' = (if Monthly a then Some (StartOfDay now) else MonthlyWindowStart row) ∧
  DailyUsageUSD row' = DailyUsageUSD row ∧ WeeklyUsageUSD row' = WeeklyUsageUSD row ∧
  MonthlyUsageUSD row' = MonthlyUsageUSD row ∧ DeletedAt row' = DeletedAt row.
Proof.
  unfold CheckAndActivateWindow, ActivateWindows.
  set (a := WindowActivationAt (Some sub) now). destruct a as [[] [] []]; cbn; by split_and!.
Qed.

(** A daily reset only ever moves the window to a later day. *)
Lemma resetDailyStep_spec `{!CalendarLaws} row sub now :
  let row' := fst (resetDailyStep row sub now) in
  (row' = row) ∨
  (DailyWindowStart row' = Some (StartOfDay now) ∧ DailyUsageUSD row' = f64_zero ∧
   ∃ start, DailyWindowStart row = Some start ∧ StartOfDay start < StartOfDay now).
Proof.
  unfold resetDailyStep. destruct (automaticDailyWindowStartAt sub now) as [new|] eqn:E; [|by left].
  cbn [fst]. unfold ResetDailyUsage. case_bool_decide as Heq; [|by left]. right.
  unfold automaticDailyWindowStartAt in E. destruct (DailyWindowStart sub) as [start|]; [|done].
  repeat (case_match; [done|]). injection E as <-. cbn. split_and!; [done..|].
  exists start. split; [done|]. rename select (negb (After _ _) = false) into Ha.
  apply negb_false_iff, Z.ltb_lt in Ha. done.
Qed.

Lemma other_steps_daily row sub now :
  (DailyWindowStart (fst (resetWeeklyStep row sub now)) = DailyWindowStart row ∧
   DailyUsageUSD (fst (resetWeeklyStep row sub now)) = DailyUsageUSD row) ∧
  (DailyWindowStart (fst (resetMonthlyStep row sub now)) = DailyWindowStart row ∧
   DailyUsageUSD (fst (resetMonthlyStep row sub now)) = DailyUsageUSD row).
Proof.
  unfold resetWeeklyStep, resetMonthlyStep, ResetWeeklyUsage, ResetMonthlyUsage.
  repeat case_match; by split_and!.
Qed.

Lemma DeletedAt_kept row o : DeletedAt (runOperation row o) = DeletedAt row.
Proof.
  destruct o as [sub now|sub now|sub now|sub now|cost now]; cbn [runOperation].
  - apply CheckAndActivateWindow_spec.
  - unfold resetDailyStep, ResetDailyUsage. by repeat case_match.
  - unfold resetWeeklyStep, ResetWeeklyUsage. by repeat case_match.
  - unfold resetMonthlyStep, ResetMonthlyUsage. by repeat case_match.
  - unfold IncrementUsage. by case_match.
Qed.

Lemma daily_step `{!CalendarLaws} row o day :
  DeletedAt row = None → DailyWindowStart row = Some day → StartOfDay day = day → StartOfDay (opTime o) = day →
  DailyWindowStart (runOperation row o) = Some day ∧
  DailyUsageUSD (runOperation row o) = foldl f64_add (DailyUsageUSD row) (charges [o]).
Proof.
  intros Hd Hs Hm Ht. destruct o as [sub now|sub now|sub now|sub now|cost now]; cbn [runOperation opTime charges omap] in *.
  - destruct (CheckAndActivateWindow_spec row sub now) as (Hw & _ & _ & Hu & _). rewrite Hw, Hu, Ht. by case_match.
  - destruct (resetDailyStep_spec row sub now) as [-> |(_ & _ & start & Hst & Hlt)]; [done|].
    simplify_eq. lia.
  - destruct (other_steps_daily row sub now) as [[-> ->] _]. done.
  - destruct (other_steps_daily row sub now) as [_ [-> ->]]. done.
  - destruct (IncrementUsage_live row cost Hd) as (-> & _ & _ & -> & _). done.
Qed.

Lemma charges_cons o ops : charges (o :: ops) = charges [o] ++ charges ops.
Proof. by destruct o. Qed.

(** The weekly (monthly) reset never fires on a window that has not elapsed. *)
Lemma needsResetAt_false s start window now :
  now < start + window → needsResetAt s (Some start) window now = false.
Proof.
  intros Hn. unfold needsResetAt, Before, Add. rewrite (proj2 (Z.ltb_lt now (start + window))) by lia.
  by repeat case_match.
Qed.
End service.

(** ** Properties *)

(** Within one calendar day no usage is lost: once the daily window of a
    live subscription has been advanced to that day, after any interleaving of
    window activations and daily, weekly and monthly resets decided on
    arbitrary stale snapshots and of charges, the daily usage is exactly the
    usage at the start plus every charge, and the window is still that day's. *)
Theorem daily_usage_kept `{CalendarLaws} row day ops :
  DeletedAt row = None → DailyWindowStart row = Some day → StartOfDay day = day →
  Forall (λ o, StartOfDay (opTime o) = day) ops →
  DailyUsageUSD (foldl runOperation row ops) = foldl f64_add (DailyUsageUSD row) (charges ops) ∧
  DailyWindowStart (foldl runOperation row ops) = Some day.
Proof.
  intros Hd Hs Hm Hops. revert row Hd Hs. induction Hops as [|o ops Ho _ IH]; intros row Hd Hs; [done|].
  destruct (daily_step row o day Hd Hs Hm Ho) as [Hs' Hu'].
  cbn [foldl]. destruct (IH (runOperation row o)) as [Hu Hw]; [by rewrite DeletedAt_kept|done|].
  split; [|done]. by rewrite Hu, Hu', (charges_cons o ops), foldl_app.
Qed.

Lemma needsReset_today `{CalendarLaws} s now now' window :
  48 * Hour <= window → StartOfDay now' = StartOfDay now →
  needsResetAt s (Some (StartOfDay now)) window now' = false.
Proof.
  intros Hw Hd. apply needsResetAt_false. pose proof (StartOfDay_short now') as Hs. rewrite Hd in Hs. lia.
Qed.

(** The limits and dates that the tests read. *)
Definition sameTerms (a b : UserSubscription) : Prop :=
  StartsAt a = StartsAt b ∧ ExpiresAt a = ExpiresAt b ∧ DailyLimitUSD a = DailyLimitUSD b ∧
  WeeklyLimitUSD a = WeeklyLimitUSD b ∧ MonthlyLimitUSD a = MonthlyLimitUSD b.

Lemma canStart_sameTerms a b t d : sameTerms a b → canStartQuotaWindow a t d = canStartQuotaWindow b t d.
Proof.
  intros (_ & He & _ & Hw & Hm). unfold canStartQuotaWindow, CanStartFullQuotaWindow, hasFiniteOuterQuotaLimit.
  by rewrite He, Hw, Hm.
Qed.

Lemma needsResetAt_sameTerms `{Calendar} a b start w now :
  sameTerms a b → needsResetAt a start w now = needsResetAt b start w now.
Proof.
  intros Ht. unfold needsResetAt. destruct start; [|done].
  rewrite (canStart_sameTerms a b _ _ Ht). by destruct Ht as (_ & -> & _).
Qed.

Lemma automatic_sameTerms `{Calendar} a b now :
  sameTerms a b → DailyWindowStart a = DailyWindowStart b →
  automaticDailyWindowStartAt a now = automaticDailyWindowStartAt b now.
Proof.
  intros Ht Hd. unfold automaticDailyWindowStartAt, HasOneTimeDailyQuota. rewrite Hd.
  destruct (DailyWindowStart b); [|done]. rewrite (canStart_sameTerms a b _ _ Ht).
  by destruct Ht as (-> & -> & _).
Qed.

(** What each step leaves in the caller's snapshot. *)
Lemma resetDailyStep_snd `{Calendar} row sub now :
  let s := snd (resetDailyStep row sub now) in
  sameTerms s sub ∧ WeeklyWindowStart s = WeeklyWindowStart sub ∧ MonthlyWindowStart s = MonthlyWindowStart sub ∧
  DailyWindowStart s = (if NeedsDailyResetAt sub now then Some (StartOfDay now) else DailyWindowStart sub).
Proof.
  unfold resetDailyStep, NeedsDailyResetAt. destruct (automaticDailyWindowStartAt sub now) as [start|] eqn:E.
  - assert (start = StartOfDay now) as ->.
    { unfold automaticDailyWindowStartAt in E. repeat case_match; by simplify_eq. }
    by cbn.
  - by cbn.
Qed.

Lemma resetWeeklyStep_snd `{Calendar} row sub now :
  let s := snd (resetWeeklyStep row sub now) in
  sameTerms s sub ∧ DailyWindowStart s = DailyWindowStart sub ∧ MonthlyWindowStart s = MonthlyWindowStart sub ∧
  WeeklyWindowStart s = (if NeedsWeeklyResetAt sub now then Some (StartOfDay now) else WeeklyWindowStart sub).
Proof. unfold resetWeeklyStep. by destruct (NeedsWeeklyResetAt sub now). Qed.

Lemma resetMonthlyStep_snd `{Calendar} row sub now :
  let s := snd (resetMonthlyStep row sub now) in
  sameTerms s sub ∧ DailyWindowStart s = DailyWindowStart sub ∧ WeeklyWindowStart s = WeeklyWindowStart sub ∧
  MonthlyWindowStart s = (if NeedsMonthlyResetAt sub now then Some (StartOfDay now) else MonthlyWindowStart sub).
Proof. unfold resetMonthlyStep. by destruct (NeedsMonthlyResetAt sub now). Qed.

Lemma sameTerms_trans a b c : sameTerms a b → sameTerms b c → sameTerms a c.
Proof. unfold sameTerms. intros (-> & -> & -> & -> & ->) ?. done. Qed.

(** What a maintenance run at [now] leaves of each window. *)
Lemma maintenance_windows `{Calendar} row sub now :
  let s := snd (checkAndResetWindowsAt row sub now) in
  sameTerms s sub ∧
  DailyWindowStart s = (if NeedsDailyResetAt sub now then Some (StartOfDay now) else DailyWindowStart sub) ∧
  WeeklyWindowStart s = (if NeedsWeeklyResetAt sub now then Some (StartOfDay now) else WeeklyWindowStart sub) ∧
  MonthlyWindowStart s = (if NeedsMonthlyResetAt sub now then Some (StartOfDay now) else MonthlyWindowStart sub).
Proof.
  unfold checkAndResetWindowsAt.
  destruct (resetDailyStep_snd row sub now) as (T1 & W1 & M1 & D1).
  destruct (resetDailyStep row sub now) as [r1 s1]. cbn [snd] in *.
  destruct (resetWeeklyStep_snd r1 s1 now) as (T2 & D2 & M2 & W2).
  destruct (resetWeeklyStep r1 s1 now) as [r2 s2]. cbn [snd] in *.
  destruct (resetMonthlyStep_snd r2 s2 now) as (T3 & D3 & W3 & M3).
  pose proof (sameTerms_trans _ _ _ T2 T1) as T21. pose proof (sameTerms_trans _ _ _ T3 T21) as T31.
  unfold NeedsWeeklyResetAt, NeedsMonthlyResetAt in *.
  rewrite (needsResetAt_sameTerms s1 sub _ _ _ T1), W1 in W2.
  rewrite (needsResetAt_sameTerms s2 sub _ _ _ T21), M2, M1 in M3.
  split; [exact T31|]. split_and!; [congruence|congruence|done].
Qed.

(** Window maintenance is idempotent for the rest of the day: after
    [checkAndResetWindowsAt] no window needs a reset at that moment any more,
    and the windows it has moved start at the midnight of the day, before the
    expiry of the subscription, and need no reset at any moment of that day. *)
Theorem maintenance_idempotent `{CalendarLaws} row sub now now' :
  StartOfDay now' = StartOfDay now →
  let sub' := snd (checkAndResetWindowsAt row sub now) in
  (NeedsDailyResetAt sub' now = false ∧ NeedsWeeklyResetAt sub' now = false ∧ NeedsMonthlyResetAt sub' now = false) ∧
  (NeedsDailyResetAt sub now = true →
     DailyWindowStart sub' = Some (StartOfDay now) ∧ NeedsDailyResetAt sub' now' = false ∧ StartOfDay now < ExpiresAt sub') ∧
  (NeedsWeeklyResetAt sub now = true →
     WeeklyWindowStart sub' = Some (StartOfDay now) ∧ NeedsWeeklyResetAt sub' now' = false ∧ StartOfDay now < ExpiresAt sub') ∧
  (NeedsMonthlyResetAt sub now = true →
     MonthlyWindowStart sub' = Some (StartOfDay now) ∧ NeedsMonthlyResetAt sub' now' = false ∧ StartOfDay now < ExpiresAt sub').
Proof.
  intros Hday sub'. destruct (maintenance_windows row sub now) as (Ht & Hd & Hw & Hm). fold sub' in Ht, Hd, Hw, Hm.
  assert (H7 : 48 * Hour <= subscriptionWeeklyWindow) by (by vm_compute).
  assert (H30 : 48 * Hour <= subscriptionMonthlyWindow) by (by vm_compute).
  assert (Hdaily : ∀ t, DailyWindowStart sub' = Some (StartOfDay now) → StartOfDay t = StartOfDay now → NeedsDailyResetAt sub' t = false).
  { intros t Hs Et. unfold NeedsDailyResetAt, automaticDailyWindowStartAt. rewrite Hs, Et, StartOfDay_midnight.
    unfold After. rewrite Z.ltb_irrefl. by repeat case_match. }
  assert (Hexp : ∀ start w, needsResetAt sub start w now = true → StartOfDay now < ExpiresAt sub').
  { intros start w Hn. destruct Ht as (_ & -> & _). pose proof (StartOfDay_le now). unfold needsResetAt in Hn.
    destruct start; [|done]. case_match; [done|]. zbool. rename select (Before now (ExpiresAt sub) = true) into Hb.
    apply Z.ltb_lt in Hb. lia. }
  split_and!.
  - destruct (NeedsDailyResetAt sub now) eqn:E; [by apply Hdaily|].
    unfold NeedsDailyResetAt. by rewrite (automatic_sameTerms sub' sub now Ht Hd).
  - unfold NeedsWeeklyResetAt in *. destruct (needsResetAt sub (WeeklyWindowStart sub) _ now) eqn:E; rewrite Hw.
    + by apply needsReset_today.
    + by rewrite (needsResetAt_sameTerms sub' sub _ _ _ Ht).
  - unfold NeedsMonthlyResetAt in *. destruct (needsResetAt sub (MonthlyWindowStart sub) _ now) eqn:E; rewrite Hm.
    + by apply needsReset_today.
    + by rewrite (needsResetAt_sameTerms sub' sub _ _ _ Ht).
  - intros E. rewrite E in Hd. split_and!; [done|by apply Hdaily|].
    unfold NeedsDailyResetAt, automaticDailyWindowStartAt in E. destruct Ht as (_ & -> & _).
    pose proof (StartOfDay_le now). destruct (DailyWindowStart sub); [|done]. case_match; [|done].
    case_match; [done|]. zbool. rename select (Before now (ExpiresAt sub) = true) into Hb.
    apply Z.ltb_lt in Hb. lia.
  - intros E. rewrite E in Hw. unfold NeedsWeeklyResetAt in *. rewrite Hw. split_and!; [done|by apply needsReset_today|].
    by eapply Hexp.
  - intros E. rewrite E in Hm. unfold NeedsMonthlyResetAt in *. rewrite Hm. split_and!; [done|by apply needsReset_today|].
    by eapply Hexp.
Qed.

(** The order of the states of a subscription's life. *)
Definition lifeStage (status : string) : Z :=
  if eqs status SubscriptionStatusPending then 0
  else if eqs status SubscriptionStatusActive || eqs status SubscriptionStatusSuspended then 1
  else 2.

(** A subscription that is not edited only moves forward in time: pending,
    then active (or suspended), then expired; it is active, in the view shown to
    clients, exactly while it is effective, and an [IsActive] subscription is
    effective. *)
Theorem status_lifecycle s now now' :
  (now <= now' → lifeStage (EffectiveStatus s now) <= lifeStage (EffectiveStatus s now')) ∧
  (IsEffective s now = eqs (EffectiveStatus s now) SubscriptionStatusActive) ∧
  (∀ u, s = Some u → IsActive u now = true → IsEffective s now = true) ∧
  (∀ u, s = Some u → IsPending s now = true → StartsAt u < ExpiresAt u →
     EffectiveStatus s now = SubscriptionStatusPending).
Proof.
  destruct s as [u|]; [|done]. unfold IsEffective, IsActive, IsPending, EffectiveStatus, After, Before.
  split_and!.
  - intros Hle. destruct (notDeleted u); cbn [negb]; [|done].
    destruct (now <? ExpiresAt u) eqn:E1; destruct (now' <? ExpiresAt u) eqn:E2; cbn [negb]; zbool; try lia; try done;
    destruct (now <? StartsAt u) eqn:E3; destruct (now' <? StartsAt u) eqn:E4; zbool; try lia; try done;
    destruct (eqs _ _); by vm_compute.
  - destruct (notDeleted u); cbn [negb]; [|by rewrite andb_false_r].
    destruct (now <? ExpiresAt u); cbn [negb]; [|by rewrite andb_false_r].
    by destruct (now <? StartsAt u).
  - intros u' [= <-] Ha. zbool. destruct (notDeleted u); [|done]. cbn [negb].
    rename select (eqs _ _ = true) into Hs. apply eqs_true in Hs. rewrite Hs.
    by rewrite (proj2 (Z.ltb_ge now (StartsAt u))), (proj2 (Z.ltb_lt now (ExpiresAt u))).
  - intros u' [= <-] Hp Hlt. zbool. destruct (notDeleted u); [|done]. cbn [negb].
    repeat case_match; zbool; try lia; done.
Qed.

(** The number of days shown is the remaining time rounded up to whole days,
    and zero exactly when nothing remains. *)
Theorem days_remaining_ceiling s now :
  in_int64 (ExpiresAt s - now) →
  let d := daysRemainingAt s now in
  (d = 0 ↔ ExpiresAt s <= now) ∧
  (now < ExpiresAt s → (d - 1) * subscriptionDailyWindow < ExpiresAt s - now <= d * subscriptionDailyWindow).
Proof.
  intros Hr. unfold daysRemainingAt. rewrite (Sub_exact _ _ Hr). set (r := ExpiresAt s - now) in *.
  assert (Hday : subscriptionDailyWindow = 86400000000000) by done. rewrite Hday. unfold goQuot, goRem.
  destruct (r <=? 0) eqn:E; zbool; [split; [split; unfold r in *; lia|unfold r in *; lia]|].
  rewrite Z.quot_div_nonneg, Z.rem_mod_nonneg by lia.
  pose proof (Z.div_mod r 86400000000000 ltac:(lia)). pose proof (Z.mod_pos_bound r 86400000000000 ltac:(lia)).
  unfold in_int64, minInt64, maxInt64 in Hr.
  destruct (r mod 86400000000000 =? 0) eqn:Em; cbn [negb]; zbool.
  - split; [split; unfold r in *; lia|unfold r in *; lia].
  - rewrite wrap64_id by (unfold in_int64, minInt64, maxInt64; lia). split; [split; unfold r in *; lia|unfold r in *; lia].
Qed.

(** ** Witnesses: a zone at UTC+8 *)

#[local] Instance shanghai : Calendar := fixedZone (8 * Hour).
#[local] Instance shanghai_laws : CalendarLaws := fixedZone_laws (8 * Hour).

Definition dayN (n : Z) : Time := n * (24 * Hour) - 8 * Hour.
Definition subscription1 : UserSubscription :=
  mkSubscription (dayN 10) (dayN 40) SubscriptionStatusActive (Some (dayN 12)) (Some (dayN 10)) None
    (Some (f64_of_Z 10)) (Some (f64_of_Z 50)) None (f64_of_Z 3) (f64_of_Z 3) f64_zero None.
Definition stale1 : UserSubscription := setDaily subscription1 (Some (dayN 11)) (f64_of_Z 9).

Lemma daily_usage_kept_witness :
  DailyUsageUSD (foldl runOperation subscription1
    [OpCharge (f64_of_Z 2) (dayN 12 + Hour); OpResetDaily stale1 (dayN 12 + 2 * Hour);
     OpCharge (f64_of_Z 1) (dayN 12 + 3 * Hour)]) = f64_of_Z 6.
Proof.
  rewrite (proj1 (@daily_usage_kept shanghai shanghai_laws subscription1 (dayN 12)
    [OpCharge (f64_of_Z 2) (dayN 12 + Hour); OpResetDaily stale1 (dayN 12 + 2 * Hour);
     OpCharge (f64_of_Z 1) (dayN 12 + 3 * Hour)] eq_refl eq_refl ltac:(vm_compute; reflexivity)
    ltac:(repeat constructor; vm_compute; reflexivity))).
  vm_compute. reflexivity.
Defined.

Lemma maintenance_idempotent_witness :
  NeedsWeeklyResetAt (snd (checkAndResetWindowsAt subscription1 subscription1 (dayN 17 + Hour))) (dayN 17 + 5 * Hour) = false.
Proof.
  refine (proj1 (proj2 (proj1 (proj2 (proj2 (@maintenance_idempotent shanghai shanghai_laws subscription1 subscription1 (dayN 17 + Hour)
    (dayN 17 + 5 * Hour) _))) _))).
  - vm_compute. reflexivity.
  - vm_compute. reflexivity.
Defined.

Lemma days_remaining_ceiling_witness : daysRemainingAt subscription1 (dayN 40) = 0.
Proof.
  apply (proj2 (proj1 (days_remaining_ceiling subscription1 (dayN 40) ltac:(vm_compute; by split)))). vm_compute. done.
Defined.

Lemma status_lifecycle_witness :
  lifeStage (EffectiveStatus (Some subscription1) (dayN 9)) <= lifeStage (EffectiveStatus (Some subscription1) (dayN 41)).
Proof. apply (status_lifecycle (Some subscription1) (dayN 9) (dayN 41)). vm_compute. done. Defined.
