(* ===== verification/KeywordMatcher.v ===== *)
(** * The keyword matcher of content moderation

    [service/content_moderation_keyword_matcher.go]: a compact Aho-Corasick
    automaton.  [newContentModerationKeywordMatcher] builds a trie whose edges
    are linked lists in an arena, computes the failure links breadth first, and
    then compresses the edges into sorted slices; [Match] walks the text with a
    binary search at each state.

    A Go index out of range panics: [index] returns [None] there and the whole
    computation is in the [option] monad, so a result [Some _] says that nothing
    panicked and that no loop ran out of fuel.  The main theorem states that
    building and matching never panic and agree with the obvious reference,
    [matchBlockedKeyword], which tries [strings.Contains] with every keyword in
    the configured order. *)

From S2P Require Import Prelude GoRuntime.

#[local] Open Scope Z_scope.

(** ** Data *)

Record contentModerationKeywordNode := Node {
  failure : Z;
  bestKeyword : Z;
  edgeStart : Z;
  edgeCount : Z;
}.

Record contentModerationKeywordEdge := Edge { target : Z; label : ascii }.

Record contentModerationKeywordBuildEdge := BuildEdge {
  buildTarget : Z;
  nextSibling : Z;
  buildLabel : ascii;
}.

Record contentModerationKeywordMatcher := Matcher {
  nodes : list contentModerationKeywordNode;
  edges : list contentModerationKeywordEdge;
  rootTransitions : list Z;
  keywords : list string;
}.

(** [l[i]] and [l[i] = x], with a panic out of range. *)
Definition index {A} (l : list A) (i : Z) : option A :=
  if i <? 0 then None else l !! Z.to_nat i.
Definition store {A} (l : list A) (i : Z) (x : A) : option (list A) :=
  _ ← index l i; Some (<[Z.to_nat i := x]> l).

Definition zlen {A} (l : list A) : Z := Z.of_nat (length l).

(** ** The trie *)

Definition newContentModerationKeywordNode : contentModerationKeywordNode := Node 0 (-1) 0 0.

Definition contentModerationKeywordBuildFirstEdge (node : contentModerationKeywordNode) : Z :=
  if edgeStart node =? 0 then -1 else wrap32 (wrapU32 (edgeStart node - 1)).

(** The loop of [contentModerationKeywordBuildTransition] along the siblings. *)
Fixpoint transitionFrom (fuel : nat) (bes : list contentModerationKeywordBuildEdge)
    (edgeIndex : Z) (lbl : ascii) : option Z :=
  if edgeIndex <? 0 then Some (-1) else
  match fuel with
  | O => None
  | S fuel =>
      edge ← index bes edgeIndex;
      if bool_decide (buildLabel edge = lbl) then Some (buildTarget edge)
      else transitionFrom fuel bes (nextSibling edge) lbl
  end.

Definition contentModerationKeywordBuildTransition (ns : list contentModerationKeywordNode)
    (bes : list contentModerationKeywordBuildEdge) (state : Z) (lbl : ascii) : option Z :=
  if (state <? 0) || (zlen ns <=? state) then Some (-1) else
  node ← index ns state;
  transitionFrom (length bes) bes (contentModerationKeywordBuildFirstEdge node) lbl.

(** One byte of a keyword: follow the edge or add a node and an edge. *)
Definition insertByte (ns : list contentModerationKeywordNode)
    (bes : list contentModerationKeywordBuildEdge) (state : Z) (lbl : ascii)
    : option (list contentModerationKeywordNode * list contentModerationKeywordBuildEdge * Z) :=
  next ← contentModerationKeywordBuildTransition ns bes state lbl;
  if next <? 0 then
    let next := wrap32 (zlen ns) in
    let ns := ns ++ [newContentModerationKeywordNode] in
    node ← index ns state;
    let bes := bes ++ [BuildEdge next (contentModerationKeywordBuildFirstEdge node) lbl] in
    ns ← store ns state (Node (failure node) (bestKeyword node) (wrapU32 (zlen bes)) (edgeCount node));
    Some (ns, bes, next)
  else Some (ns, bes, next).

Fixpoint insertBytes (ns : list contentModerationKeywordNode)
    (bes : list contentModerationKeywordBuildEdge) (state : Z) (bytes : list ascii)
    : option (list contentModerationKeywordNode * list contentModerationKeywordBuildEdge * Z) :=
  match bytes with
  | [] => Some (ns, bes, state)
  | lbl :: bytes => '(ns, bes, state) ← insertByte ns bes state lbl; insertBytes ns bes state bytes
  end.

(** Lines 62-64: the first keyword that ends at a node keeps it. *)
Definition markKeyword (ns : list contentModerationKeywordNode) (state keywordIndex : Z)
    : option (list contentModerationKeywordNode) :=
  node ← index ns state;
  if (bestKeyword node <? 0) || (wrap32 keywordIndex <? bestKeyword node)
  then store ns state (Node (failure node) (wrap32 keywordIndex) (edgeStart node) (edgeCount node))
  else Some ns.

Section matcher.
Context `{UnicodeCase}.

Definition lowerBytes (s : string) : list ascii := String.list_ascii_of_string (ToLower s).

Fixpoint insertKeywords (ns : list contentModerationKeywordNode)
    (bes : list contentModerationKeywordBuildEdge) (keywordIndex : Z) (kws : list string)
    : option (list contentModerationKeywordNode * list contentModerationKeywordBuildEdge) :=
  match kws with
  | [] => Some (ns, bes)
  | keyword :: kws =>
      if bool_decide (keyword = "") then insertKeywords ns bes (keywordIndex + 1) kws else
      '(ns, bes, state) ← insertBytes ns bes 0 (lowerBytes keyword);
      ns ← markKeyword ns state keywordIndex;
      insertKeywords ns bes (keywordIndex + 1) kws
  end.

(** ** Failure links *)

(** The edges the sibling loops visit, in order. *)
Fixpoint siblings (fuel : nat) (bes : list contentModerationKeywordBuildEdge) (edgeIndex : Z)
    : option (list contentModerationKeywordBuildEdge) :=
  if edgeIndex <? 0 then Some [] else
  match fuel with
  | O => None
  | S fuel =>
      edge ← index bes edgeIndex;
      rest ← siblings fuel bes (nextSibling edge);
      Some (edge :: rest)
  end.

Definition siblingsOf (bes : list contentModerationKeywordBuildEdge)
    (node : contentModerationKeywordNode) : option (list contentModerationKeywordBuildEdge) :=
  siblings (length bes) bes (contentModerationKeywordBuildFirstEdge node).

Definition minKeywordIndex (left right : Z) : Z :=
  if left <? 0 then right
  else if (right <? 0) || (left <? right) then left
  else right.

(** Lines 85-89: follow the failure links until one has the transition. *)
Fixpoint fallbackFrom (fuel : nat) (ns : list contentModerationKeywordNode)
    (bes : list contentModerationKeywordBuildEdge) (fail : Z) (lbl : ascii) : option Z :=
  fallback ← contentModerationKeywordBuildTransition ns bes fail lbl;
  if (fallback <? 0) && negb (fail =? 0) then
    match fuel with
    | O => None
    | S fuel => node ← index ns fail; fallbackFrom fuel ns bes (failure node) lbl
    end
  else Some fallback.

(** Lines 83-97: the body of the sibling loop for one edge of [state]. *)
Definition linkChild (ns : list contentModerationKeywordNode)
    (bes : list contentModerationKeywordBuildEdge) (state : Z) (edge : contentModerationKeywordBuildEdge)
    : option (list contentModerationKeywordNode) :=
  node ← index ns state;
  fallback ← fallbackFrom (length ns) ns bes (failure node) (buildLabel edge);
  child ← index ns (buildTarget edge);
  let child := if 0 <=? fallback
               then Node fallback (bestKeyword child) (edgeStart child) (edgeCount child) else child in
  ns ← store ns (buildTarget edge) child;
  failNode ← index ns (failure child);
  store ns (buildTarget edge)
    (Node (failure child) (minKeywordIndex (bestKeyword child) (bestKeyword failNode))
       (edgeStart child) (edgeCount child)).

Fixpoint linkChildren (ns : list contentModerationKeywordNode)
    (bes : list contentModerationKeywordBuildEdge) (state : Z) (es : list contentModerationKeywordBuildEdge)
    : option (list contentModerationKeywordNode) :=
  match es with
  | [] => Some ns
  | edge :: es => ns ← linkChild ns bes state edge; linkChildren ns bes state es
  end.

(** The loop over the queue; [queue] holds the unvisited part of the slice. *)
Fixpoint linkLoop (fuel : nat) (ns : list contentModerationKeywordNode)
    (bes : list contentModerationKeywordBuildEdge) (queue : list Z)
    : option (list contentModerationKeywordNode) :=
  match queue with
  | [] => Some ns
  | state :: queue =>
      match fuel with
      | O => None
      | S fuel =>
          node ← index ns state;
          es ← siblingsOf bes node;
          ns ← linkChildren ns bes state es;
          linkLoop fuel ns bes (queue ++ map buildTarget es)
      end
  end.

(** Lines 73-78: the transitions of the root and the initial queue. *)
Fixpoint rootTable (table : list Z) (es : list contentModerationKeywordBuildEdge) : list Z :=
  match es with
  | [] => table
  | edge :: es => rootTable (<[N.to_nat (byteOf (buildLabel edge)) := buildTarget edge]> table) es
  end.

(** ** Compression of the edges *)

(** Lines 111-119: one step of the insertion sort.  [sorted] is the sorted part
    of [outgoing], read from its right end, as the inner loop shifts it. *)
Fixpoint insertEdge (current : contentModerationKeywordEdge) (sorted : list contentModerationKeywordEdge)
    : list contentModerationKeywordEdge :=
  match sorted with
  | [] => [current]
  | e :: rest =>
      if (byteOf (label current) <? byteOf (label e))%N then e :: insertEdge current rest
      else current :: sorted
  end.

Definition sortEdges (es : list contentModerationKeywordEdge) : list contentModerationKeywordEdge :=
  rev (foldl (fun sorted current => insertEdge current sorted) [] es).

(** [outgoing] is an array of 256 edges: a longer list would panic. *)
Definition outgoingEdges (es : list contentModerationKeywordBuildEdge)
    : option (list contentModerationKeywordEdge) :=
  if 256 <? zlen es then None
  else Some (sortEdges (map (fun e => Edge (buildTarget e) (buildLabel e)) es)).

Fixpoint compress (ns : list contentModerationKeywordNode) (bes : list contentModerationKeywordBuildEdge)
    (out : list contentModerationKeywordEdge)
    : option (list contentModerationKeywordNode * list contentModerationKeywordEdge) :=
  match ns with
  | [] => Some ([], out)
  | node :: ns =>
      es ← siblingsOf bes node;
      outgoing ← outgoingEdges es;
      '(ns, final) ← compress ns bes (out ++ outgoing);
      Some (Node (failure node) (bestKeyword node) (wrapU32 (zlen out)) (zlen outgoing mod 2 ^ 16) :: ns, final)
  end.

(** ** Building; the inner [None] is the [nil] matcher *)

Definition newContentModerationKeywordMatcher (kws : list string)
    : option (option contentModerationKeywordMatcher) :=
  if bool_decide (kws = []) then Some None else
  '(ns, bes) ← insertKeywords [newContentModerationKeywordNode] [] 0 kws;
  if zlen ns =? 1 then Some None else
  root ← index ns 0;
  rootEdges ← siblingsOf bes root;
  let table := rootTable (replicate 256 0) rootEdges in
  ns ← linkLoop (length ns) ns bes (map buildTarget rootEdges);
  '(ns, es) ← compress ns bes [];
  Some (Some (Matcher ns es table kws)).

(** ** Matching *)

(** Lines 211-221: the binary search in the slice of a node. *)
Fixpoint searchEdge (fuel : nat) (es : list contentModerationKeywordEdge) (left right : Z) (lbl : ascii)
    : option Z :=
  if left <? right then
    match fuel with
    | O => None
    | S fuel =>
        let middle := left + goQuot (right - left) 2 in
        edge ← index es middle;
        if (byteOf (label edge) <? byteOf lbl)%N then searchEdge fuel es (middle + 1) right lbl
        else searchEdge fuel es left middle lbl
    end
  else Some left.

Definition next (m : contentModerationKeywordMatcher) (state : Z) (lbl : ascii) : option Z :=
  if state =? 0 then rootTransitions m !! N.to_nat (byteOf lbl) else
  if (state <? 0) || (zlen (nodes m) <=? state) then Some 0 else
  node ← index (nodes m) state;
  let fin := edgeStart node + edgeCount node in
  left ← searchEdge (Z.to_nat (edgeCount node)) (edges m) (edgeStart node) fin lbl;
  if left <? fin then
    edge ← index (edges m) left;
    Some (if bool_decide (label edge = lbl) then target edge else 0)
  else Some 0.

(** Lines 181-191: the state after one byte of the text. *)
Fixpoint advance (fuel : nat) (m : contentModerationKeywordMatcher) (state : Z) (lbl : ascii) : option Z :=
  nxt ← next m state lbl;
  if negb (nxt =? 0) then Some nxt
  else if state =? 0 then Some 0
  else match fuel with
       | O => None
       | S fuel => node ← index (nodes m) state; advance fuel m (failure node) lbl
       end.

(** The scan of the text; 0 is the early return, which no later hit can beat. *)
Fixpoint scan (m : contentModerationKeywordMatcher) (state best : Z) (text : list ascii) : option Z :=
  match text with
  | [] => Some best
  | lbl :: text =>
      state ← advance (length (nodes m)) m state lbl;
      node ← index (nodes m) state;
      let best := minKeywordIndex best (bestKeyword node) in
      if best =? 0 then Some 0 else scan m state best text
  end.

Definition Match (m : option contentModerationKeywordMatcher) (text : string) : option (string * bool) :=
  match m with
  | None => Some (""%string, false)
  | Some m =>
      if bool_decide (text = ""%string) || (zlen (nodes m) =? 0) || (zlen (keywords m) =? 0)
      then Some (""%string, false) else
      best ← scan m 0 (-1) (lowerBytes text);
      if best =? 0 then keyword ← index (keywords m) 0; Some (keyword, true)
      else if (best <? 0) || (zlen (keywords m) <=? best) then Some (""%string, false)
      else keyword ← index (keywords m) best; Some (keyword, true)
  end.

(** ** The reference: [matchBlockedKeyword] of [content_moderation.go] *)

Fixpoint firstContained (lower : string) (kws : list string) : string * bool :=
  match kws with
  | [] => (""%string, false)
  | kw :: kws =>
      if bool_decide (kw = ""%string) then firstContained lower kws
      else if Contains lower (ToLower kw) then (kw, true)
      else firstContained lower kws
  end.

Definition matchBlockedKeyword (text : string) (kws : list string) : string * bool :=
  if bool_decide (text = ""%string) || bool_decide (kws = []) then (""%string, false)
  else firstContained (ToLower text) kws.
End matcher.

(** ** Lemmas on indexing *)

Section index.
Context {A : Type}.
Implicit Types (l k : list A) (i j : Z) (x y : A).

Lemma index_Some l i x : index l i = Some x ↔ 0 <= i ∧ l !! Z.to_nat i = Some x.
Proof. unfold index. case_match eqn:E; zbool; split; [done | lia | auto | by intros []]. Qed.

Lemma index_range l i x : index l i = Some x → 0 <= i < zlen l.
Proof. intros [? ?%lookup_lt_Some]%index_Some. unfold zlen. lia. Qed.

Lemma index_is_Some l i : 0 <= i < zlen l → ∃ x, index l i = Some x.
Proof.
  intros Hi. destruct (lookup_lt_is_Some_2 l (Z.to_nat i)) as [x Hx]; [unfold zlen in Hi; lia|].
  exists x. apply index_Some. split; [lia | done].
Qed.

Lemma index_elem l i x : index l i = Some x → x ∈ l.
Proof. intros [_ H]%index_Some. by eapply list_elem_of_lookup_2. Qed.

Lemma elem_index l x : x ∈ l → ∃ i, index l i = Some x.
Proof.
  intros [n Hn]%list_elem_of_lookup. exists (Z.of_nat n). apply index_Some.
  rewrite Nat2Z.id. split; [lia | done].
Qed.

Lemma index_app_l l k i x : index l i = Some x → index (l ++ k) i = Some x.
Proof. rewrite !index_Some. intros [? ?]. split; [done | by apply lookup_app_l_Some]. Qed.

Lemma index_app_new l x : index (l ++ [x]) (zlen l) = Some x.
Proof.
  apply index_Some. unfold zlen. rewrite Nat2Z.id. split; [lia|].
  by rewrite list_lookup_middle.
Qed.

Lemma index_app_inv l x i y :
  index (l ++ [x]) i = Some y → index l i = Some y ∨ (i = zlen l ∧ y = x).
Proof.
  intros [Hi Hl]%index_Some. apply lookup_app_Some in Hl as [Hl|[Hge Hl]].
  - left. by apply index_Some.
  - right. apply list_lookup_singleton_Some in Hl as [Hl <-]. unfold zlen. split; [lia | done].
Qed.

Lemma zlen_app l k : zlen (l ++ k) = zlen l + zlen k.
Proof. unfold zlen. rewrite length_app. lia. Qed.

Lemma zlen_snoc l x : zlen (l ++ [x]) = zlen l + 1.
Proof. apply zlen_app. Qed.

Lemma store_Some l i x y : index l i = Some y → store l i x = Some (<[Z.to_nat i := x]> l).
Proof. intros H. unfold store. by rewrite H. Qed.

Lemma index_store_eq l i x y : index l i = Some y → index (<[Z.to_nat i := x]> l) i = Some x.
Proof.
  rewrite !index_Some. intros [? H%lookup_lt_Some]. split; [done|].
  by rewrite list_lookup_insert_eq.
Qed.

Lemma index_store_ne l i j x : 0 <= i → i ≠ j → index (<[Z.to_nat i := x]> l) j = index l j.
Proof.
  intros Hi Hij. unfold index. destruct (j <? 0) eqn:Hj; [done|]. zbool.
  rewrite list_lookup_insert_ne; [done | lia].
Qed.

Lemma index_inj l i j x : NoDup l → index l i = Some x → index l j = Some x → i = j.
Proof.
  intros Hd [? Hi]%index_Some [? Hj]%index_Some.
  pose proof (NoDup_lookup _ _ _ _ Hd Hi Hj). lia.
Qed.
End index.

Lemma index_fmap {A B} (f : A → B) (l : list A) i : index (f <$> l) i = f <$> index l i.
Proof. unfold index. case_match; [done | apply list_lookup_fmap]. Qed.

Lemma zlen_fmap {A B} (f : A → B) (l : list A) : zlen (f <$> l) = zlen l.
Proof. unfold zlen. by rewrite length_fmap. Qed.

(** ** The trie as a set of paths

    [paths] lists the string that leads to each node; [shape] says that the
    edge arena and the first edges of the nodes represent it. *)

Inductive chain (bes : list contentModerationKeywordBuildEdge)
    : Z → list contentModerationKeywordBuildEdge → Prop :=
  | chain_nil i : i < 0 → chain bes i []
  | chain_cons i e es :
      0 <= i → index bes i = Some e → nextSibling e < i →
      chain bes (nextSibling e) es → chain bes i (e :: es).

Definition firstEdge (start : Z) : Z := if start =? 0 then -1 else wrap32 (wrapU32 (start - 1)).

Lemma buildFirstEdge_start nd : contentModerationKeywordBuildFirstEdge nd = firstEdge (edgeStart nd).
Proof. reflexivity. Qed.

Definition childAt (paths : list (list ascii)) (p : list ascii) (c : ascii) (j : Z) : Prop :=
  index paths j = Some (p ++ [c]) ∨ (j = -1 ∧ p ++ [c] ∉ paths).

Record shape (starts : list Z) (bes : list contentModerationKeywordBuildEdge)
    (paths : list (list ascii)) : Prop := {
  shape_len : zlen starts = zlen paths;
  shape_small : zlen paths <= 2 ^ 31;
  shape_edges : zlen bes + 1 = zlen paths;
  shape_root : index paths 0 = Some [];
  shape_nodup : NoDup paths;
  shape_parent : ∀ j p c, index paths j = Some (p ++ [c]) → ∃ i, i < j ∧ index paths i = Some p;
  shape_chain : ∀ i p, index paths i = Some p →
    ∃ st es, index starts i = Some st ∧ chain bes (firstEdge st) es ∧ NoDup (buildLabel <$> es) ∧
      (∀ e, e ∈ es → index paths (buildTarget e) = Some (p ++ [buildLabel e])) ∧
      (∀ j c, index paths j = Some (p ++ [c]) → ∃ e, e ∈ es ∧ buildTarget e = j ∧ buildLabel e = c);
}.

Lemma chain_app bes l i es : chain bes i es → chain (bes ++ l) i es.
Proof.
  induction 1; [by constructor|].
  econstructor; [done | by apply index_app_l | done | done].
Qed.

Lemma chain_lt bes i es : chain bes i es → i < zlen bes.
Proof. destruct 1; [unfold zlen; lia|]. apply index_range in H0. lia. Qed.

Lemma chain_siblings bes i es : chain bes i es →
  ∀ fuel, i + 1 <= Z.of_nat fuel → siblings fuel bes i = Some es.
Proof.
  induction 1 as [i Hi|i e es Hi He Hn Hc IH]; intros fuel Hf.
  - destruct fuel; simpl; (destruct (i <? 0) eqn:E; [done | zbool; lia]).
  - destruct fuel as [|fuel]; [lia|]. simpl.
    destruct (i <? 0) eqn:E; [zbool; lia|]. rewrite He. simpl.
    rewrite IH by lia. done.
Qed.

Fixpoint edgeTo (es : list contentModerationKeywordBuildEdge) (c : ascii) : Z :=
  match es with
  | [] => -1
  | e :: es => if bool_decide (buildLabel e = c) then buildTarget e else edgeTo es c
  end.

Lemma chain_transition bes i es c : chain bes i es →
  ∀ fuel, i + 1 <= Z.of_nat fuel → transitionFrom fuel bes i c = Some (edgeTo es c).
Proof.
  induction 1 as [i Hi|i e es Hi He Hn Hc IH]; intros fuel Hf.
  - destruct fuel; simpl; (destruct (i <? 0) eqn:E; [done | zbool; lia]).
  - destruct fuel as [|fuel]; [lia|]. simpl.
    destruct (i <? 0) eqn:E; [zbool; lia|]. rewrite He. simpl.
    case_bool_decide; [done|]. apply IH. lia.
Qed.

Lemma edgeTo_elem es e : NoDup (buildLabel <$> es) → e ∈ es → edgeTo es (buildLabel e) = buildTarget e.
Proof.
  induction es as [|e' es IH]; simpl; intros Hd He; [by apply not_elem_of_nil in He|].
  apply NoDup_cons in Hd as [Hn Hd]. apply elem_of_cons in He as [->|He].
  - by rewrite bool_decide_true.
  - rewrite bool_decide_false; [by apply IH|]. intros Heq. apply Hn. rewrite Heq.
    by apply list_elem_of_fmap_2.
Qed.

Lemma edgeTo_miss es c : (∀ e, e ∈ es → buildLabel e ≠ c) → edgeTo es c = -1.
Proof.
  induction es as [|e es IH]; simpl; intros Hn; [done|].
  rewrite bool_decide_false by (apply Hn; left). apply IH. intros e' He'. apply Hn. by right.
Qed.

Section shape.
Context (starts : list Z) (bes : list contentModerationKeywordBuildEdge) (paths : list (list ascii)).
Context (Hs : shape starts bes paths).

Lemma path_inj i j p : index paths i = Some p → index paths j = Some p → i = j.
Proof. apply index_inj, (shape_nodup _ _ _ Hs). Qed.

Lemma path_prefix p q : p ++ q ∈ paths → p ∈ paths.
Proof.
  induction q as [|c q IH] using rev_ind; [by rewrite app_nil_r|].
  rewrite app_assoc. intros [j Hj]%elem_index.
  destruct (shape_parent _ _ _ Hs _ _ _ Hj) as (i & _ & Hi). by apply IH, (index_elem _ i).
Qed.

(** The depth of a node is at most its index. *)
Lemma path_depth j p : index paths j = Some p → Z.of_nat (length p) <= j.
Proof.
  revert j. induction p as [|c p IH] using rev_ind; intros j Hj.
  - apply index_range in Hj. simpl. lia.
  - destruct (shape_parent _ _ _ Hs _ _ _ Hj) as (i & Hij & Hi%IH). rewrite length_app. simpl. lia.
Qed.

Lemma path_depth_lt p : p ∈ paths → (length p < length paths)%nat.
Proof.
  intros [j Hj]%elem_index. pose proof (path_depth _ _ Hj). apply index_range in Hj.
  unfold zlen in Hj. lia.
Qed.

Lemma root_elem : [] ∈ paths.
Proof. eapply index_elem, (shape_root _ _ _ Hs). Qed.

Lemma root_index i : index paths i = Some [] → i = 0.
Proof. intros Hi. eapply path_inj; [exact Hi | apply (shape_root _ _ _ Hs)]. Qed.

Lemma edgeTo_childAt i p st es c :
  index paths i = Some p →
  (∀ e, e ∈ es → index paths (buildTarget e) = Some (p ++ [buildLabel e])) →
  (∀ j c, index paths j = Some (p ++ [c]) → ∃ e, e ∈ es ∧ buildTarget e = j ∧ buildLabel e = c) →
  NoDup (buildLabel <$> es) →
  index starts i = Some st → childAt paths p c (edgeTo es c).
Proof.
  intros Hi Ht Hall Hd _. destruct (decide (p ++ [c] ∈ paths)) as [Hin|Hout].
  - left. apply elem_index in Hin as [j Hj]. destruct (Hall _ _ Hj) as (e & He & <- & <-).
    by rewrite edgeTo_elem.
  - right. split; [|done]. apply edgeTo_miss. intros e He <-. apply Hout.
    by eapply index_elem, Ht.
Qed.
End shape.

(** [transition] of a node with path [p] finds the node of [p ++ [c]]. *)
Lemma transition_spec ns bes paths i p c :
  shape (edgeStart <$> ns) bes paths → index paths i = Some p →
  ∃ j, contentModerationKeywordBuildTransition ns bes i c = Some j ∧ childAt paths p c j.
Proof.
  intros Hs Hi. pose proof (shape_chain _ _ _ Hs _ _ Hi) as (st & es & Hst & Hc & Hd & Ht & Hall).
  exists (edgeTo es c). split.
  - pose proof (index_range _ _ _ Hi) as Hr. pose proof (shape_len _ _ _ Hs) as Hl.
    rewrite zlen_fmap in Hl. rewrite index_fmap in Hst.
    unfold contentModerationKeywordBuildTransition.
    destruct (index ns i) as [nd|]; [|done]. injection Hst as <-.
    destruct (i <? 0) eqn:E1; zbool; [lia|]. destruct (zlen ns <=? i) eqn:E2; zbool; [lia|]. simpl.
    rewrite buildFirstEdge_start.
    eapply chain_transition; [exact Hc|]. apply chain_lt in Hc. unfold zlen in Hc. lia.
  - by eapply edgeTo_childAt.
Qed.

Lemma siblingsOf_chain bes nd es : chain bes (firstEdge (edgeStart nd)) es → siblingsOf bes nd = Some es.
Proof.
  intros Hc. unfold siblingsOf. rewrite buildFirstEdge_start. eapply chain_siblings; [exact Hc|].
  apply chain_lt in Hc. unfold zlen in Hc. lia.
Qed.

(** ** Building the trie *)

(** The least index that satisfies [P], or -1. *)
Definition isBest (P : Z → Prop) (b : Z) : Prop :=
  (b = -1 ∧ ∀ k, ¬ P k) ∨ (0 <= b ∧ P b ∧ ∀ k, P k → b <= k).

Lemma isBest_iff (P Q : Z → Prop) b : (∀ k, P k ↔ Q k) → isBest P b → isBest Q b.
Proof.
  intros He [[-> H]|(Hb & HP & H)]; [left|right].
  - split; [done|]. intros k. rewrite <- He. apply H.
  - split; [done|]. split; [by apply He|]. intros k. rewrite <- He. apply H.
Qed.

Lemma minKeywordIndex_spec (P Q : Z → Prop) a b :
  isBest P a → isBest Q b → isBest (λ k, P k ∨ Q k) (minKeywordIndex a b).
Proof.
  unfold minKeywordIndex. intros [[-> HP]|(Ha & HPa & HP)] HQ.
  - rewrite (proj2 (Z.ltb_lt (-1) 0)) by lia. eapply isBest_iff; [|exact HQ].
    intros k. specialize (HP k). tauto.
  - rewrite (proj2 (Z.ltb_ge a 0)) by lia. destruct HQ as [[-> HQ]|(Hb & HQb & HQ)].
    + simpl. right. split; [done|]. split; [by left|]. intros k [Hk|Hk]; [by apply HP | by apply HQ in Hk].
    + rewrite (proj2 (Z.ltb_ge b 0)) by lia. simpl. right. destruct (a <? b) eqn:E; zbool.
      * split; [done|]. split; [by left|]. intros k [Hk%HP|Hk%HQ]; lia.
      * split; [done|]. split; [by right|]. intros k [Hk%HP|Hk%HQ]; lia.
Qed.

(** [trie ns bes paths K]: the build nodes represent [paths], no failure link is
    set, and each node carries the least index [k] whose word is its path,
    [K k p]. *)
Record trie (ns : list contentModerationKeywordNode) (bes : list contentModerationKeywordBuildEdge)
    (paths : list (list ascii)) (K : Z → list ascii → Prop) : Prop := {
  trie_shape : shape (edgeStart <$> ns) bes paths;
  trie_words : ∀ k p, K k p → p ∈ paths;
  trie_nodes : ∀ i p nd, index paths i = Some p → index ns i = Some nd →
    failure nd = 0 ∧ isBest (λ k, K k p) (bestKeyword nd);
}.

Lemma trie_zlen ns bes paths K : trie ns bes paths K → zlen ns = zlen paths.
Proof. intros Ht. pose proof (shape_len _ _ _ (trie_shape _ _ _ _ Ht)) as H. by rewrite zlen_fmap in H. Qed.

Lemma trie_node ns bes paths K i p :
  trie ns bes paths K → index paths i = Some p → ∃ nd, index ns i = Some nd.
Proof.
  intros Ht Hi. apply index_is_Some. rewrite (trie_zlen _ _ _ _ Ht). by eapply index_range.
Qed.

Lemma NoDup_snoc {A} (l : list A) x : NoDup l → x ∉ l → NoDup (l ++ [x]).
Proof.
  intros Hd Hx. apply NoDup_app. split; [done|]. split; [|apply NoDup_singleton].
  intros y Hy ->%list_elem_of_singleton. by apply Hx.
Qed.

(** The shape after a node for [p ++ [c]] is added below node [i]. *)
Lemma shape_grow starts bes paths i p c st :
  shape starts bes paths → zlen paths < 2 ^ 31 → index paths i = Some p → p ++ [c] ∉ paths →
  index starts i = Some st →
  shape (<[Z.to_nat i := zlen paths]> (starts ++ [0]))
    (bes ++ [BuildEdge (zlen paths) (firstEdge st) c]) (paths ++ [p ++ [c]]).
Proof.
  intros Hs Hsm Hi Hout Hst.
  pose proof (index_range _ _ _ Hi) as Hir. pose proof (shape_edges _ _ _ Hs) as He.
  assert (Hfe : firstEdge (zlen paths) = zlen bes).
  { unfold firstEdge. destruct (zlen paths =? 0) eqn:E; zbool; [lia|].
    rewrite wrapU32_id, wrap32_id by lia. lia. }
  destruct (shape_chain _ _ _ Hs _ _ Hi) as (st' & es & Hst' & Hc & Hd & Ht & Hall).
  rewrite Hst in Hst'. injection Hst' as <-.
  assert (Hnew : index (starts ++ [0]) i = Some st) by by apply index_app_l.
  constructor.
  - unfold zlen. rewrite length_insert, !length_app. simpl.
    pose proof (shape_len _ _ _ Hs) as Hl. unfold zlen in Hl. lia.
  - rewrite zlen_snoc. lia.
  - rewrite !zlen_snoc. lia.
  - apply index_app_l, (shape_root _ _ _ Hs).
  - apply NoDup_snoc; [apply (shape_nodup _ _ _ Hs) | done].
  - intros j q d [Hj|[-> Hq]]%index_app_inv.
    + destruct (shape_parent _ _ _ Hs _ _ _ Hj) as (k & Hk & Hkp). exists k. split; [done|].
      by apply index_app_l.
    + apply app_inj_tail in Hq as [-> ->]. exists i. split; [lia | by apply index_app_l].
  - intros j q Hj. destruct (decide (j = i)) as [->|Hji].
    + apply index_app_inv in Hj as [Hj|[-> _]]; [|lia]. rewrite Hi in Hj. injection Hj as <-.
      exists (zlen paths), (BuildEdge (zlen paths) (firstEdge st) c :: es).
      split; [by eapply index_store_eq|]. split; [|split; [|split]].
      * rewrite Hfe. econstructor; [unfold zlen; lia | apply index_app_new | |]; simpl.
        -- by eapply chain_lt.
        -- by apply chain_app.
      * simpl. apply NoDup_cons. split; [|done]. intros (e & Hec & Hein)%list_elem_of_fmap.
        apply Hout. rewrite Hec. by eapply index_elem, Ht.
      * intros e [->|Hin]%elem_of_cons; simpl; [apply index_app_new | by apply index_app_l, Ht].
      * intros j d [Hj|[-> Hq]]%index_app_inv.
        -- destruct (Hall _ _ Hj) as (e & Hin & ? & ?). exists e. split; [by right | done].
        -- apply app_inv_head in Hq as [= ->]. eexists. split; [by left | done].
    + rewrite (index_store_ne _ i j) by lia.
      apply index_app_inv in Hj as [Hj|[-> ->]].
      * destruct (shape_chain _ _ _ Hs _ _ Hj) as (st2 & es2 & Hst2 & Hc2 & Hd2 & Ht2 & Hall2).
        exists st2, es2. split; [by apply index_app_l|]. split; [by apply chain_app|]. split; [done|].
        split; [intros e Hin; by apply index_app_l, Ht2|].
        intros k d [Hk|[-> Hq]]%index_app_inv; [by apply Hall2|].
        exfalso. apply app_inj_tail in Hq as [-> ->]. apply Hji. by eapply path_inj.
      * exists 0, []. split.
        { rewrite <- (shape_len _ _ _ Hs). apply index_app_new. }
        split; [constructor; unfold firstEdge; simpl; lia|]. split; [constructor|].
        split; [by intros e He'%not_elem_of_nil|].
        intros k d [Hk|[-> Hq]]%index_app_inv.
        -- exfalso. apply Hout. by eapply path_prefix, index_elem.
        -- apply (f_equal length) in Hq. rewrite !length_app in Hq. simpl in Hq. lia.
Qed.

Lemma insertByte_spec ns bes paths K i p c :
  trie ns bes paths K → zlen paths < 2 ^ 31 → index paths i = Some p →
  ∃ ns' bes' paths' j, insertByte ns bes i c = Some (ns', bes', j) ∧ trie ns' bes' paths' K ∧
    index paths' j = Some (p ++ [c]) ∧ zlen paths' <= zlen paths + 1.
Proof.
  intros Ht Hsm Hi. pose proof (trie_shape _ _ _ _ Ht) as Hs. pose proof (trie_zlen _ _ _ _ Ht) as Hl.
  destruct (transition_spec _ _ _ _ _ c Hs Hi) as (j & Hj & [Hc|[-> Hout]]); unfold insertByte; rewrite Hj; simpl.
  { pose proof (index_range _ _ _ Hc). rewrite (proj2 (Z.ltb_ge j 0)) by lia.
    exists ns, bes, paths, j. split; [done|]. split; [done|]. split; [done | lia]. }
  destruct (trie_node _ _ _ _ _ _ Ht Hi) as [nd Hnd].
  assert (Hnd' : index (ns ++ [newContentModerationKeywordNode]) i = Some nd) by by apply index_app_l.
  rewrite Hnd'. simpl. erewrite store_Some by exact Hnd'. simpl.
  pose proof (index_range _ _ _ Hi) as Hr. pose proof (shape_edges _ _ _ Hs) as He.
  assert (Hj1 : wrap32 (zlen ns) = zlen paths) by (rewrite Hl; apply wrap32_id; lia).
  rewrite zlen_snoc, He, wrapU32_id by lia. rewrite Hj1.
  exists (<[Z.to_nat i := Node (failure nd) (bestKeyword nd) (zlen paths) (edgeCount nd)]>
            (ns ++ [newContentModerationKeywordNode])),
         (bes ++ [BuildEdge (zlen paths) (contentModerationKeywordBuildFirstEdge nd) c]),
         (paths ++ [p ++ [c]]), (zlen paths).
  split; [done|]. split; [|split; [apply index_app_new | rewrite zlen_snoc; lia]].
  constructor.
  - rewrite list_fmap_insert, fmap_app. simpl. rewrite buildFirstEdge_start.
    apply shape_grow; try done. rewrite index_fmap, Hnd. done.
  - intros k q Hk%(trie_words _ _ _ _ Ht). apply elem_of_app. by left.
  - intros k q nd' Hk Hn. destruct (decide (k = i)) as [->|Hki].
    + rewrite (index_store_eq _ _ _ _ Hnd') in Hn. injection Hn as <-. simpl.
      apply index_app_inv in Hk as [Hk|[-> _]]; [|lia]. by eapply trie_nodes.
    + rewrite (index_store_ne _ i k) in Hn by lia. apply index_app_inv in Hn as [Hn|[-> ->]].
      * apply index_app_inv in Hk as [Hk|[-> _]]; [by eapply trie_nodes|].
        apply index_range in Hn. lia.
      * simpl. split; [done|]. left. split; [done|]. intros w Hw%(trie_words _ _ _ _ Ht).
        apply index_app_inv in Hk as [Hk|[_ ->]]; [apply index_range in Hk; lia | done].
Qed.

Lemma insertBytes_spec bytes : ∀ ns bes paths K i p,
  trie ns bes paths K → zlen paths + zlen bytes <= 2 ^ 31 → index paths i = Some p →
  ∃ ns' bes' paths' j, insertBytes ns bes i bytes = Some (ns', bes', j) ∧ trie ns' bes' paths' K ∧
    index paths' j = Some (p ++ bytes) ∧ zlen paths' <= zlen paths + zlen bytes.
Proof.
  induction bytes as [|c bytes IH]; intros ns bes paths K i p Ht Hsm Hi.
  - exists ns, bes, paths, i. rewrite app_nil_r. split; [done|]. split; [done|]. split; [done|]. unfold zlen. simpl. lia.
  - assert (Hlc : zlen (c :: bytes) = zlen bytes + 1) by (unfold zlen; simpl; lia).
    assert (0 <= zlen bytes) by (unfold zlen; lia).
    destruct (insertByte_spec _ _ _ _ _ _ c Ht ltac:(lia) Hi) as (ns1 & bes1 & paths1 & j & E & Ht1 & Hj & Hz).
    destruct (IH _ _ _ _ _ _ Ht1 ltac:(lia) Hj) as (ns2 & bes2 & paths2 & j2 & E2 & Ht2 & Hj2 & Hz2).
    exists ns2, bes2, paths2, j2. simpl. rewrite E. simpl. rewrite E2. split; [done|]. split; [done|].
    rewrite <- app_assoc in Hj2. split; [done | lia].
Qed.

Lemma trie_mark ns bes paths K i p k :
  trie ns bes paths K → index paths i = Some p → 0 <= k < 2 ^ 31 → (∀ k' q, K k' q → k' < k) →
  ∃ ns', markKeyword ns i k = Some ns' ∧ trie ns' bes paths (λ k' q, K k' q ∨ (k' = k ∧ q = p)).
Proof.
  intros Ht Hi Hk HK. destruct (trie_node _ _ _ _ _ _ Ht Hi) as [nd Hnd].
  pose proof (index_range _ _ _ Hi) as Hr.
  destruct (trie_nodes _ _ _ _ Ht _ _ _ Hi Hnd) as [Hf Hb].
  unfold markKeyword. rewrite Hnd. simpl. rewrite wrap32_id by lia.
  assert (Hwords : ∀ k' q, K k' q ∨ k' = k ∧ q = p → q ∈ paths).
  { intros k' q [Hq|[_ ->]]; [by eapply trie_words | by eapply index_elem]. }
  assert (Hother : ∀ j q nd', j ≠ i → index paths j = Some q → index ns j = Some nd' →
    failure nd' = 0 ∧ isBest (λ k', K k' q ∨ k' = k ∧ q = p) (bestKeyword nd')).
  { intros j q nd' Hji Hj Hn. destruct (trie_nodes _ _ _ _ Ht _ _ _ Hj Hn) as [? Hb'].
    split; [done|]. eapply isBest_iff; [|exact Hb']. intros k'. split; [by left|].
    intros [?|[_ ->]]; [done|]. exfalso. apply Hji. by eapply (path_inj _ _ _ (trie_shape _ _ _ _ Ht)). }
  destruct ((bestKeyword nd <? 0) || (k <? bestKeyword nd)) eqn:E.
  - erewrite store_Some by exact Hnd. eexists. split; [done|]. constructor; [|done|].
    + rewrite list_fmap_insert. simpl. rewrite list_insert_id; [apply (trie_shape _ _ _ _ Ht)|].
      rewrite list_lookup_fmap. apply index_Some in Hnd as [_ ->]. done.
    + intros j q nd' Hj Hn. destruct (decide (j = i)) as [->|Hji].
      * rewrite (index_store_eq _ _ _ _ Hnd) in Hn. injection Hn as <-. simpl. split; [done|].
        rewrite Hi in Hj. injection Hj as <-. destruct Hb as [[Hb1 Hb]|(Hb0 & Hb & _)].
        -- right. split; [lia|]. split; [by right|]. intros k' [Hk'|[-> _]]; [by apply Hb in Hk' | lia].
        -- apply HK in Hb. apply orb_true_iff in E as [E|E]; zbool; lia.
      * rewrite (index_store_ne _ i j) in Hn by lia. by eapply Hother.
  - exists ns. split; [done|]. zbool. constructor; [apply (trie_shape _ _ _ _ Ht) | done |].
    intros j q nd' Hj Hn. destruct (decide (j = i)) as [->|Hji]; [|by eapply Hother].
    rewrite Hi in Hj. injection Hj as <-. rewrite Hnd in Hn. injection Hn as <-. split; [done|].
    destruct Hb as [[Hb1 _]|(Hb0 & Hb & Hmin)]; [lia|].
    right. split; [done|]. split; [by left|]. intros k' [Hk'|[-> _]]; [by apply Hmin | lia].
Qed.

Section keywords.
Context `{UnicodeCase}.

(** Keyword number [k] is not empty and its lower-case bytes are [p]. *)
Definition wordAt (kws : list string) (k : Z) (p : list ascii) : Prop :=
  ∃ s, index kws k = Some s ∧ s ≠ ""%string ∧ lowerBytes s = p.

Lemma wordAt_snoc kws s k p :
  wordAt (kws ++ [s]) k p ↔ wordAt kws k p ∨ (k = zlen kws ∧ s ≠ ""%string ∧ lowerBytes s = p).
Proof.
  split.
  - intros (t & [Ht|[-> ->]]%index_app_inv & Hne & Hp); [left; by exists t | by right].
  - intros [(t & Ht & Hne & Hp)|(-> & Hne & Hp)].
    + exists t. split; [by apply index_app_l | done].
    + exists s. split; [apply index_app_new | done].
Qed.

Fixpoint totalBytes (kws : list string) : Z :=
  match kws with [] => 0 | s :: kws => zlen (lowerBytes s) + totalBytes kws end.

Lemma trie_equiv ns bes paths (K K' : Z → list ascii → Prop) :
  (∀ k p, K k p ↔ K' k p) → trie ns bes paths K → trie ns bes paths K'.
Proof.
  intros He Ht. constructor; [apply (trie_shape _ _ _ _ Ht) | |].
  - intros k p Hk. eapply (trie_words _ _ _ _ Ht), He, Hk.
  - intros i p nd Hi Hn. destruct (trie_nodes _ _ _ _ Ht _ _ _ Hi Hn) as [? Hb]. split; [done|].
    eapply isBest_iff; [|exact Hb]. intros k. apply He.
Qed.

Lemma insertKeywords_spec kws : ∀ done ns bes paths,
  trie ns bes paths (wordAt done) → zlen paths + totalBytes kws <= 2 ^ 31 → zlen done + zlen kws <= 2 ^ 31 →
  ∃ ns' bes' paths', insertKeywords ns bes (zlen done) kws = Some (ns', bes') ∧
    trie ns' bes' paths' (wordAt (done ++ kws)).
Proof.
  induction kws as [|s kws IH]; intros dn ns bes paths Ht Hb Hz; simpl.
  - exists ns, bes, paths. by rewrite app_nil_r.
  - simpl in Hb. assert (Hl : zlen (s :: kws) = zlen kws + 1) by (unfold zlen; simpl; lia).
    assert (0 <= zlen kws ∧ 0 <= zlen (lowerBytes s) ∧ 0 <= totalBytes kws ∧ 0 <= zlen dn) as (?&?&?&?).
    { split; [unfold zlen; lia|]. split; [unfold zlen; lia|]. split; [|unfold zlen; lia].
      clear. induction kws; simpl; unfold zlen in *; lia. }
    rewrite (cons_middle s dn kws), app_assoc. rewrite <- (zlen_snoc dn s).
    case_bool_decide as Hs.
    + apply (IH _ _ _ paths); [|lia|rewrite zlen_snoc; lia]. eapply trie_equiv; [|exact Ht].
      intros k p. rewrite wordAt_snoc. intuition congruence.
    + destruct (insertBytes_spec (lowerBytes s) _ _ _ _ 0 [] Ht) as (ns1 & bes1 & paths1 & j & E & Ht1 & Hj & Hz1);
        [lia | apply (shape_root _ _ _ (trie_shape _ _ _ _ Ht)) |].
      rewrite E. simpl. simpl in Hj.
      destruct (trie_mark _ _ _ _ _ _ (zlen dn) Ht1 Hj) as (ns2 & E2 & Ht2); [lia| |].
      { intros k q (t & Hk%index_range & _). lia. }
      rewrite E2. simpl. apply (IH _ _ _ paths1); [|lia|rewrite zlen_snoc; lia].
      eapply trie_equiv; [|exact Ht2]. intros k p. rewrite wordAt_snoc. simpl. intuition congruence.
Qed.

Lemma trie_init : trie [newContentModerationKeywordNode] [] [[]] (wordAt []).
Proof.
  assert (Hk : ∀ k p, ¬ wordAt [] k p).
  { intros k p (s & Hi%index_range & _). unfold zlen in Hi. simpl in Hi. lia. }
  constructor.
  - constructor; try done.
    + apply NoDup_singleton.
    + intros j p c [_ Hj]%index_Some. apply list_lookup_singleton_Some in Hj as [_ Hj]. by destruct p.
    + intros i p [Hi0 Hi]%index_Some. apply list_lookup_singleton_Some in Hi as [Hi <-].
      exists 0, []. replace i with 0 by lia. split; [done|]. split; [by constructor|].
      split; [constructor|]. split; [by intros e He%not_elem_of_nil|].
      intros j c [_ Hj]%index_Some. by apply list_lookup_singleton_Some in Hj as [_ Hj].
  - intros k p Hw. by apply Hk in Hw.
  - intros i p nd _ [_ Hn]%index_Some. apply list_lookup_singleton_Some in Hn as [_ <-].
    split; [done|]. left. split; [done|]. intros k. apply Hk.
Qed.
End keywords.

(** ** Failure links

    [longest paths w q]: [q] is the longest suffix of [w] that is a path. *)

Definition longest (paths : list (list ascii)) (w q : list ascii) : Prop :=
  q ∈ paths ∧ q `suffix_of` w ∧ ∀ r, r ∈ paths → r `suffix_of` w → r `suffix_of` q.

(** [stepTo paths q c j]: node [j] is reached from the longest suffix [r] of [q]
    that has a transition on [c]; -1 when none has. *)
Definition stepTo (paths : list (list ascii)) (q : list ascii) (c : ascii) (j : Z) : Prop :=
  (∃ r, index paths j = Some (r ++ [c]) ∧ r `suffix_of` q ∧
        ∀ r', r' `suffix_of` q → r' ++ [c] ∈ paths → r' `suffix_of` r)
  ∨ (j = -1 ∧ ∀ r', r' `suffix_of` q → r' ++ [c] ∉ paths).

Lemma suffix_cons_cases {A} (r : list A) a w : r `suffix_of` a :: w → r = a :: w ∨ r `suffix_of` w.
Proof. intros [[|b k] Hk]; [by left|]. injection Hk as <- ->. right. by exists k. Qed.

Lemma suffix_snoc_cases {A} (r w : list A) c :
  r `suffix_of` w ++ [c] → r = [] ∨ ∃ r', r = r' ++ [c] ∧ r' `suffix_of` w.
Proof.
  intros [k Hk]. destruct r as [|d r _] using rev_ind; [by left|]. right.
  rewrite app_assoc in Hk. apply app_inj_tail in Hk as [-> ->]. exists r. split; [done|]. by exists k.
Qed.

Section links.
Context (starts : list Z) (bes : list contentModerationKeywordBuildEdge) (paths : list (list ascii)).
Context (Hs : shape starts bes paths).

Lemma stepTo_here q c j : index paths j = Some (q ++ [c]) → stepTo paths q c j.
Proof. intros Hj. left. exists q. split; [done|]. split; [done|]. by intros. Qed.

Lemma stepTo_root c : [c] ∉ paths → stepTo paths [] c (-1).
Proof. intros Hc. right. split; [done|]. by intros r' ->%suffix_nil_inv. Qed.

(** Following one failure link keeps the answer. *)
Lemma stepTo_fail a q0 q c j :
  longest paths q0 q → (a :: q0) ++ [c] ∉ paths → stepTo paths q c j → stepTo paths (a :: q0) c j.
Proof.
  intros (Hq & Hqs & Hmax) Hout Hst.
  assert (Hsub : ∀ r', r' `suffix_of` a :: q0 → r' ++ [c] ∈ paths → r' `suffix_of` q).
  { intros r' Hr' Hin. apply Hmax; [by eapply path_prefix|].
    apply suffix_cons_cases in Hr' as [->|Hr']; [by apply Hout in Hin | done]. }
  destruct Hst as [(r & Hj & Hr & Hall)|[-> Hnone]].
  - left. exists r. split; [done|]. split.
    + apply suffix_cons_r. by etransitivity.
    + intros r' Hr' Hin. apply Hall; [by apply Hsub | done].
  - right. split; [done|]. intros r' Hr' Hin. eapply Hnone; [by apply Hsub | done].
Qed.

Lemma longest_step w q c j :
  longest paths w q → stepTo paths q c j →
  ∃ i q', i = (if 0 <=? j then j else 0) ∧ index paths i = Some q' ∧ longest paths (w ++ [c]) q'.
Proof.
  intros (Hq & Hqs & Hmax) [(r & Hj & Hr & Hall)|[-> Hnone]].
  - pose proof (index_range _ _ _ Hj). rewrite (proj2 (Z.leb_le 0 j)) by lia.
    exists j, (r ++ [c]). split; [done|]. split; [done|]. split; [by eapply index_elem|]. split.
    + apply suffix_app. by etransitivity.
    + intros t Ht [->|(t' & -> & Ht')]%suffix_snoc_cases; [apply suffix_nil|].
      apply suffix_app, Hall; [|done]. apply Hmax; [by eapply path_prefix | done].
  - exists 0, []. split; [done|]. split; [apply (shape_root _ _ _ Hs)|].
    split; [by eapply root_elem|]. split; [apply suffix_nil|].
    intros t Ht [->|(t' & -> & Ht')]%suffix_snoc_cases; [done|]. exfalso.
    eapply Hnone; [|exact Ht]. apply Hmax; [by eapply path_prefix | done].
Qed.

Lemma longest_nil : longest paths [] [].
Proof. split; [by eapply root_elem|]. split; [done|]. by intros. Qed.

Lemma longest_length w q : longest paths w q → (length q <= length w)%nat.
Proof. intros (_ & Hq & _). by apply suffix_length. Qed.
End links.

(** What the finished automaton says of node [i] with path [p]. *)
Definition final (paths : list (list ascii)) (K : Z → list ascii → Prop)
    (ns : list contentModerationKeywordNode) (i : Z) (p : list ascii) : Prop :=
  ∃ nd q, index ns i = Some nd ∧ index paths (failure nd) = Some q ∧ longest paths (tail p) q ∧
    isBest (λ k, ∃ w, K k w ∧ w `suffix_of` p) (bestKeyword nd).

(** The nodes of [D] are final, the others as the trie left them. *)
Record linked (D : list Z) (ns : list contentModerationKeywordNode)
    (bes : list contentModerationKeywordBuildEdge) (paths : list (list ascii))
    (K : Z → list ascii → Prop) : Prop := {
  linked_shape : shape (edgeStart <$> ns) bes paths;
  linked_words : ∀ k p, K k p → p ∈ paths;
  linked_final : ∀ i p, i ∈ D → index paths i = Some p → final paths K ns i p;
  linked_fresh : ∀ i p nd, i ∉ D → index paths i = Some p → index ns i = Some nd →
    failure nd = 0 ∧ isBest (λ k, K k p) (bestKeyword nd);
}.

Lemma linked_node D ns bes paths K i p :
  linked D ns bes paths K → index paths i = Some p → ∃ nd, index ns i = Some nd.
Proof.
  intros Hl Hi. apply index_is_Some. pose proof (shape_len _ _ _ (linked_shape _ _ _ _ _ Hl)) as H.
  rewrite zlen_fmap in H. rewrite H. by eapply index_range.
Qed.

Lemma fallbackFrom_spec ns bes paths c :
  shape (edgeStart <$> ns) bes paths →
  ∀ fuel q i, index paths i = Some q → (length q <= fuel)%nat →
  (∀ r k, (length r <= length q)%nat → index paths k = Some r →
     ∃ nd q', index ns k = Some nd ∧ index paths (failure nd) = Some q' ∧ longest paths (tail r) q') →
  ∃ j, fallbackFrom fuel ns bes i c = Some j ∧ stepTo paths q c j.
Proof.
  intros Hs. induction fuel as [|fuel IH]; intros q i Hi Hf Hfin;
    destruct (transition_spec _ _ _ _ _ c Hs Hi) as (j & Hj & Hc); simpl; rewrite Hj; simpl;
    (destruct Hc as [Hc|[-> Hout]];
      [pose proof (index_range _ _ _ Hc); rewrite (proj2 (Z.ltb_ge j 0)) by lia;
       exists j; split; [done|]; by apply stepTo_here|]); simpl.
  - destruct q; [|simpl in Hf; lia]. pose proof (root_index _ _ _ Hs _ Hi) as ->. simpl.
    exists (-1). split; [done|]. by apply stepTo_root.
  - destruct (decide (i = 0)) as [->|Hi0].
    + rewrite (shape_root _ _ _ Hs) in Hi. injection Hi as <-. simpl.
      exists (-1). split; [done|]. by apply stepTo_root.
    + rewrite (proj2 (Z.eqb_neq i 0)) by done. simpl.
      destruct q as [|a q0]; [by pose proof (root_index _ _ _ Hs _ Hi)|].
      destruct (Hfin _ _ (le_n _) Hi) as (nd & q' & Hnd & Hq' & Hlong). rewrite Hnd. simpl in *.
      pose proof (longest_length _ _ _ Hlong).
      destruct (IH _ _ Hq') as (j & Ej & Hst); [lia | |].
      { intros r k Hr. apply Hfin. lia. }
      exists j. split; [done|]. by eapply stepTo_fail.
Qed.

Lemma linkChild_spec D ns bes paths K i p e :
  linked D ns bes paths K → p ≠ [] → index paths i = Some p →
  (∀ j q, index paths j = Some q → (length q <= length p)%nat → j ∈ D) →
  index paths (buildTarget e) = Some (p ++ [buildLabel e]) → buildTarget e ∉ D →
  ∃ ns', linkChild ns bes i e = Some ns' ∧ linked (buildTarget e :: D) ns' bes paths K.
Proof.
  intros Hl Hp Hi HD Ht HtD. pose proof (linked_shape _ _ _ _ _ Hl) as Hs.
  assert (Hfin : ∀ j q, index paths j = Some q → (length q <= length p)%nat → final paths K ns j q).
  { intros j q Hj Hq. apply (linked_final _ _ _ _ _ Hl); [by eapply HD | done]. }
  destruct (Hfin _ _ Hi (le_n _)) as (nd & q & Hnd & Hq & Hlong & _).
  pose proof (longest_length _ _ _ Hlong) as Hlq.
  assert (Htl : (length (tail p) < length p)%nat) by (destruct p; [done | simpl; lia]).
  unfold linkChild. rewrite Hnd. simpl.
  destruct (fallbackFrom_spec ns bes paths (buildLabel e) Hs (length ns) q (failure nd) Hq)
    as (j & Ej & Hst).
  { assert (Hq' : (length q < length paths)%nat).
    { eapply (path_depth_lt _ _ _ Hs), index_elem, Hq. }
    pose proof (shape_len _ _ _ Hs) as Hz. rewrite zlen_fmap in Hz. unfold zlen in Hz. lia. }
  { intros r k Hr Hk. destruct (Hfin _ _ Hk ltac:(lia)) as (nd' & q' & ? & ? & ? & _). by exists nd', q'. }
  rewrite Ej. simpl. destruct (linked_node _ _ _ _ _ _ _ Hl Ht) as [child Hch]. rewrite Hch. simpl.
  destruct (linked_fresh _ _ _ _ _ Hl _ _ _ HtD Ht Hch) as [Hf0 Hb0].
  destruct (longest_step _ _ _ Hs _ _ _ _ Hlong Hst) as (f & q' & Hf & Hq' & Hlong').
  set (child1 := if 0 <=? j then _ else _).
  assert (Hc1 : failure child1 = f ∧ bestKeyword child1 = bestKeyword child ∧ edgeStart child1 = edgeStart child).
  { unfold child1. rewrite Hf. destruct (0 <=? j); done. }
  destruct Hc1 as (Hc1 & Hc2 & Hc3).
  assert (HfD : f ∈ D).
  { eapply HD; [exact Hq'|]. pose proof (longest_length _ _ _ Hlong') as Hll.
    rewrite length_app in Hll. simpl in Hll. lia. }
  assert (Hne : buildTarget e ≠ f) by (intros Heq; by rewrite Heq in HtD).
  pose proof (index_range _ _ _ Ht) as Hr.
  erewrite store_Some by exact Hch. simpl. rewrite Hc1, index_store_ne by lia.
  destruct (linked_final _ _ _ _ _ Hl _ _ HfD Hq') as (fnd & ? & Hfnd & _ & _ & Hfb).
  rewrite Hfnd. simpl. erewrite store_Some by (eapply index_store_eq, Hch).
  rewrite list_insert_insert_eq. eexists. split; [done|].
  assert (Htail : tail (p ++ [buildLabel e]) = tail p ++ [buildLabel e]) by by destruct p.
  constructor.
  - rewrite list_fmap_insert. simpl. rewrite Hc3, list_insert_id; [done|].
    rewrite list_lookup_fmap. apply index_Some in Hch as [_ ->]. done.
  - apply (linked_words _ _ _ _ _ Hl).
  - intros k r Hk Hkr. destruct (decide (k = buildTarget e)) as [->|Hke].
    + rewrite Ht in Hkr. injection Hkr as <-. eexists _, q'. split; [by eapply index_store_eq|]. simpl.
      split; [done|]. rewrite Htail. split; [done|]. rewrite Hc2.
      eapply isBest_iff; [|by apply minKeywordIndex_spec]. intros w. split.
      * intros [Hw|(v & Hv & Hvs)]; [by eexists|]. exists v. split; [done|].
        destruct Hlong' as (_ & Hq's & _). etransitivity; [exact Hvs|]. etransitivity; [exact Hq's|].
        apply suffix_app. destruct p; [done|]. simpl. by apply suffix_cons_r.
      * intros (v & Hv & Hvs). destruct (decide (v = p ++ [buildLabel e])) as [->|Hvp]; [by left|].
        right. exists v. split; [done|]. destruct Hlong' as (_ & _ & Hmax).
        apply Hmax; [by eapply (linked_words _ _ _ _ _ Hl)|]. destruct p as [|a p]; [done|].
        simpl in *. by apply suffix_cons_cases in Hvs as [Hvs|Hvs].
    + apply elem_of_cons in Hk as [->|Hk]; [done|].
      destruct (linked_final _ _ _ _ _ Hl _ _ Hk Hkr) as (nd' & r' & Hn & H').
      exists nd', r'. by rewrite index_store_ne by lia.
  - intros k r nd' [Hk1 Hk2]%not_elem_of_cons Hkr. rewrite index_store_ne by (done || lia).
    by apply (linked_fresh _ _ _ _ _ Hl).
Qed.

Lemma linked_equiv D D' ns bes paths K :
  (∀ x, x ∈ D ↔ x ∈ D') → linked D ns bes paths K → linked D' ns bes paths K.
Proof.
  intros He Hl. constructor; [apply Hl | apply Hl | |].
  - intros i p Hi. by apply (linked_final _ _ _ _ _ Hl), He.
  - intros i p nd Hi. apply (linked_fresh _ _ _ _ _ Hl). by rewrite He.
Qed.

Lemma linkChildren_spec es : ∀ D ns bes paths K i p,
  linked D ns bes paths K → p ≠ [] → index paths i = Some p →
  (∀ j q, index paths j = Some q → (length q <= length p)%nat → j ∈ D) →
  (∀ e, e ∈ es → index paths (buildTarget e) = Some (p ++ [buildLabel e]) ∧ buildTarget e ∉ D) →
  NoDup (buildTarget <$> es) →
  ∃ ns', linkChildren ns bes i es = Some ns' ∧ linked (D ++ (buildTarget <$> es)) ns' bes paths K.
Proof.
  induction es as [|e es IH]; intros D ns bes paths K i p Hl Hp Hi HD Hes Hd.
  - exists ns. rewrite app_nil_r. done.
  - simpl in Hd. apply NoDup_cons in Hd as [Hn Hd].
    destruct (Hes e) as [Ht HtD]; [by left|].
    destruct (linkChild_spec _ _ _ _ _ _ _ _ Hl Hp Hi HD Ht HtD) as (ns1 & E & Hl1).
    destruct (IH _ _ _ _ _ _ _ Hl1 Hp Hi) as (ns2 & E2 & Hl2).
    + intros j q Hj Hq. right. by eapply HD.
    + intros e' He'. destruct (Hes e') as [Ht' HtD']; [by right|]. split; [done|].
      intros [Heq|?]%elem_of_cons; [|done]. apply Hn. rewrite <- Heq. by apply list_elem_of_fmap_2.
    + done.
    + exists ns2. simpl. rewrite E. simpl. split; [done|].
      eapply linked_equiv; [|exact Hl2]. intros x. simpl. rewrite elem_of_cons, !elem_of_app, elem_of_cons. tauto.
Qed.

Lemma children_nodup paths p es :
  NoDup paths → NoDup (buildLabel <$> es) →
  (∀ e, e ∈ es → index paths (buildTarget e) = Some (p ++ [buildLabel e])) → NoDup (buildTarget <$> es).
Proof.
  intros Hp. induction es as [|e es IH]; simpl; intros Hd Ht; [constructor|].
  apply NoDup_cons in Hd as [Hn Hd]. apply NoDup_cons. split.
  - intros (e' & Heq & He')%list_elem_of_fmap. apply Hn.
    pose proof (Ht e ltac:(by left)) as H1. pose proof (Ht e' ltac:(by right)) as H2.
    rewrite Heq, H2 in H1. injection H1 as H1. apply app_inv_head in H1 as [= H3]. rewrite <- H3.
    by apply list_elem_of_fmap_2.
  - apply IH; [done|]. intros e' He'. apply Ht. by right.
Qed.

Definition atDepth (paths : list (list ascii)) (d : nat) (i : Z) : Prop :=
  ∃ p, index paths i = Some p ∧ length p = d.

(** The state of the breadth-first search: [V] are the visited nodes, [B1] the
    rest of the current level, [B2] the next level. *)
Record level (V B1 B2 : list Z) (d : nat) (paths : list (list ascii)) : Prop := {
  level_root : 0 ∈ V;
  level_nodup : NoDup (V ++ B1 ++ B2);
  level_valid : ∀ i, i ∈ V → ∃ p, index paths i = Some p;
  level_pos : (0 < d)%nat;
  level_now : ∀ i, i ∈ B1 → atDepth paths d i;
  level_next : ∀ i, i ∈ B2 → atDepth paths (S d) i;
  level_closed : ∀ i p c, index paths i = Some (p ++ [c]) →
    i ∈ V ++ B1 ++ B2 ↔ ∃ j, j ∈ V ∧ index paths j = Some p;
}.

Section levels.
Context (starts : list Z) (bes : list contentModerationKeywordBuildEdge) (paths : list (list ascii)).
Context (Hs : shape starts bes paths).

(** Everything up to the current depth has been queued. *)
Lemma level_queued V B1 B2 d p : level V B1 B2 d paths → (length p <= d)%nat →
  ∀ i, index paths i = Some p → i ∈ V ++ B1 ++ B2.
Proof.
  intros Hq. induction p as [|c p IH] using rev_ind; intros Hlen i Hi.
  - pose proof (root_index _ _ _ Hs _ Hi) as ->. apply elem_of_app. left. by apply Hq.
  - rewrite length_app in Hlen. simpl in Hlen.
    destruct (shape_parent _ _ _ Hs _ _ _ Hi) as (j & _ & Hj).
    eapply (level_closed _ _ _ _ _ Hq); [exact Hi|]. exists j. split; [|done].
    specialize (IH ltac:(lia) _ Hj). apply elem_of_app in IH as [?|[Hb|Hb]%elem_of_app]; [done| |]; exfalso.
    + apply (level_now _ _ _ _ _ Hq) in Hb as (q & Hq' & Hlq). rewrite Hj in Hq'. injection Hq' as <-. lia.
    + apply (level_next _ _ _ _ _ Hq) in Hb as (q & Hq' & Hlq). rewrite Hj in Hq'. injection Hq' as <-. lia.
Qed.

(** An empty queue means that every node was visited. *)
Lemma level_done V d p : level V [] [] d paths → ∀ i, index paths i = Some p → i ∈ V.
Proof.
  intros Hq. induction p as [|c p IH] using rev_ind; intros i Hi.
  - pose proof (root_index _ _ _ Hs _ Hi) as ->. by apply Hq.
  - destruct (shape_parent _ _ _ Hs _ _ _ Hi) as (j & _ & Hj).
    pose proof (level_closed _ _ _ _ _ Hq _ _ _ Hi) as Hc. rewrite !app_nil_r in Hc. apply Hc.
    exists j. split; [by apply IH | done].
Qed.

Lemma level_shift V B2 d : level V [] B2 d paths → level V B2 [] (S d) paths.
Proof.
  intros Hq. destruct Hq as [? Hn ? ? ? ? Hc]. simpl in *.
  constructor; try done; rewrite ?app_nil_r; try done; [lia|]. by intros i ?%not_elem_of_nil.
Qed.

Lemma level_visit V x B1 B2 d p es :
  level V (x :: B1) B2 d paths → index paths x = Some p → NoDup (buildLabel <$> es) →
  (∀ e, e ∈ es → index paths (buildTarget e) = Some (p ++ [buildLabel e])) →
  (∀ j c, index paths j = Some (p ++ [c]) → ∃ e, e ∈ es ∧ buildTarget e = j ∧ buildLabel e = c) →
  (∀ e, e ∈ es → buildTarget e ∉ V ++ (x :: B1) ++ B2) ∧
  level (V ++ [x]) B1 (B2 ++ (buildTarget <$> es)) d paths.
Proof.
  intros Hq Hx Hd Ht Hall. pose proof (level_nodup _ _ _ _ _ Hq) as Hn.
  assert (HxV : x ∉ V).
  { intros HV. apply NoDup_app in Hn as (_ & Hn & _). eapply Hn; [exact HV|]. by left. }
  assert (Hnew : ∀ e, e ∈ es → buildTarget e ∉ V ++ (x :: B1) ++ B2).
  { intros e He Hin. apply (level_closed _ _ _ _ _ Hq _ _ _ (Ht _ He)) in Hin as (j & HjV & Hj).
    by rewrite (path_inj _ _ _ Hs _ _ _ Hj Hx) in HjV. }
  split; [done|].
  assert (Hassoc : (V ++ [x]) ++ B1 ++ B2 ++ (buildTarget <$> es) = (V ++ (x :: B1) ++ B2) ++ (buildTarget <$> es)).
  { by rewrite <- !app_assoc. }
  assert (Hdx : length p = d).
  { destruct (level_now _ _ _ _ _ Hq x) as (q & Hq' & <-); [by left|]. rewrite Hx in Hq'. by injection Hq' as <-. }
  constructor.
  - apply elem_of_app. left. by apply Hq.
  - rewrite Hassoc. apply NoDup_app. split; [done|]. split.
    + intros y Hy (e & -> & He)%list_elem_of_fmap. by eapply Hnew.
    + eapply children_nodup; [apply (shape_nodup _ _ _ Hs) | done | done].
  - intros i [?| ->%list_elem_of_singleton]%elem_of_app; [by apply Hq | by exists p].
  - by apply Hq.
  - intros i Hi. apply (level_now _ _ _ _ _ Hq). by right.
  - intros i [Hi|(e & -> & He)%list_elem_of_fmap]%elem_of_app; [by apply Hq|].
    eexists. split; [by apply Ht|]. rewrite length_app. simpl. lia.
  - intros i q c Hi. rewrite Hassoc, elem_of_app, (level_closed _ _ _ _ _ Hq _ _ _ Hi). split.
    + intros [(j & Hj & Hjq)|(e & -> & He)%list_elem_of_fmap].
      * exists j. split; [apply elem_of_app; by left | done].
      * exists x. split; [apply elem_of_app; right; by left|].
        rewrite (Ht _ He) in Hi. injection Hi as Hi. by apply app_inj_tail in Hi as [-> _].
    + intros (j & [Hj| ->%list_elem_of_singleton]%elem_of_app & Hjq); [left; by exists j|]. right.
      rewrite Hx in Hjq. injection Hjq as <-. destruct (Hall _ _ Hi) as (e & He & <- & _).
      by apply list_elem_of_fmap_2.
Qed.

(** The visited and queued nodes are distinct nodes of the trie. *)
Lemma level_size V B1 B2 d : level V B1 B2 d paths → (length (V ++ B1 ++ B2) <= length paths)%nat.
Proof.
  intros Hq. pose proof (level_nodup _ _ _ _ _ Hq) as Hn.
  assert (Hv : ∀ i, i ∈ V ++ B1 ++ B2 → ∃ p, index paths i = Some p).
  { intros i [Hi|[Hi|Hi]%elem_of_app]%elem_of_app.
    - by eapply level_valid.
    - destruct (level_now _ _ _ _ _ Hq _ Hi) as (q & ? & _). by exists q.
    - destruct (level_next _ _ _ _ _ Hq _ Hi) as (q & ? & _). by exists q. }
  revert Hn Hv. generalize (V ++ B1 ++ B2). intros l Hn Hv.
  rewrite <- (length_fmap Z.to_nat l), <- (length_seq (length paths) 0).
  apply submseteq_length, NoDup_submseteq.
  - apply NoDup_fmap_2_strong; [|done]. intros x y Hx Hy Hxy.
    destruct (Hv _ Hx) as [? ?%index_range]. destruct (Hv _ Hy) as [? ?%index_range]. lia.
  - intros n (i & -> & Hi)%list_elem_of_fmap. destruct (Hv _ Hi) as [? Hr%index_range].
    unfold zlen in Hr. apply elem_of_seq. lia.
Qed.
End levels.

(** One turn of the loop over the queue. *)
Lemma linkLoop_visit V x B1 B2 d ns bes paths K :
  linked (V ++ (x :: B1) ++ B2) ns bes paths K → level V (x :: B1) B2 d paths →
  ∃ nd es ns', index ns x = Some nd ∧ siblingsOf bes nd = Some es ∧ linkChildren ns bes x es = Some ns' ∧
    linked ((V ++ [x]) ++ B1 ++ (B2 ++ map buildTarget es)) ns' bes paths K ∧
    level (V ++ [x]) B1 (B2 ++ map buildTarget es) d paths.
Proof.
  intros Hl Hq. pose proof (linked_shape _ _ _ _ _ Hl) as Hs.
  destruct (level_now _ _ _ _ _ Hq x) as (p & Hx & Hlen); [by left|].
  destruct (shape_chain _ _ _ Hs _ _ Hx) as (st & es & Hst & Hc & Hd & Ht & Hall).
  destruct (level_visit _ _ _ Hs _ _ _ _ _ _ _ Hq Hx Hd Ht Hall) as [Hnew Hq'].
  destruct (linked_node _ _ _ _ _ _ _ Hl Hx) as [nd Hnd].
  rewrite index_fmap, Hnd in Hst. injection Hst as <-.
  assert (Hne : p ≠ []) by (intros ->; pose proof (level_pos _ _ _ _ _ Hq); simpl in Hlen; lia).
  destruct (linkChildren_spec es _ _ _ _ _ _ _ Hl Hne Hx) as (ns1 & E1 & Hl1).
  - intros j q Hj Hjq. eapply (level_queued _ _ _ Hs); [exact Hq | | exact Hj]. lia.
  - intros e He. split; [by apply Ht | by apply Hnew].
  - eapply children_nodup; [apply (shape_nodup _ _ _ Hs) | done | done].
  - exists nd, es, ns1. split; [done|]. split; [by apply siblingsOf_chain|]. split; [done|]. split; [|done].
    eapply linked_equiv; [|exact Hl1]. intros y. fold (buildTarget <$> es).
    rewrite !elem_of_app, elem_of_cons, list_elem_of_singleton. tauto.
Qed.

Lemma linkLoop_spec fuel : ∀ V B1 B2 d ns bes paths K,
  linked (V ++ B1 ++ B2) ns bes paths K → level V B1 B2 d paths →
  (length paths <= fuel + length V)%nat →
  ∃ ns', linkLoop fuel ns bes (B1 ++ B2) = Some ns' ∧ shape (edgeStart <$> ns') bes paths ∧
    (∀ k p, K k p → p ∈ paths) ∧ ∀ i p, index paths i = Some p → final paths K ns' i p.
Proof.
  assert (Hdone : ∀ fuel V d ns bes paths K,
    linked (V ++ [] ++ []) ns bes paths K → level V [] [] d paths →
    ∃ ns', linkLoop fuel ns bes ([] ++ []) = Some ns' ∧ shape (edgeStart <$> ns') bes paths ∧
      (∀ k p, K k p → p ∈ paths) ∧ ∀ i p, index paths i = Some p → final paths K ns' i p).
  { intros fl V d ns bes paths K Hl Hq. exists ns. pose proof (linked_shape _ _ _ _ _ Hl) as Hs.
    split; [by destruct fl|]. split; [done|]. split; [apply Hl|].
    intros i p Hi. apply (linked_final _ _ _ _ _ Hl); [|done].
    rewrite !app_nil_r. by eapply level_done. }
  induction fuel as [|fuel IH]; intros V B1 B2 d ns bes paths K Hl Hq Hf.
  - pose proof (level_size _ _ _ _ _ Hq) as Hsz. rewrite !length_app in Hsz.
    destruct B1; [|simpl in Hsz; lia]. destruct B2; [|simpl in Hsz; lia]. by eapply Hdone.
  - assert (Hstep : ∀ V x B1 B2 d, linked (V ++ (x :: B1) ++ B2) ns bes paths K → level V (x :: B1) B2 d paths →
      (length paths <= S fuel + length V)%nat →
      ∃ ns', linkLoop (S fuel) ns bes ((x :: B1) ++ B2) = Some ns' ∧ shape (edgeStart <$> ns') bes paths ∧
        (∀ k p, K k p → p ∈ paths) ∧ ∀ i p, index paths i = Some p → final paths K ns' i p).
    { clear V B1 B2 d Hl Hq Hf. intros V x B1 B2 d Hl Hq Hf.
      destruct (linkLoop_visit _ _ _ _ _ _ _ _ _ Hl Hq) as (nd & es & ns1 & E1 & E2 & E3 & Hl1 & Hq1).
      simpl. rewrite E1. simpl. rewrite E2. simpl. rewrite E3. simpl. rewrite <- app_assoc.
      eapply IH; [exact Hl1 | exact Hq1|]. rewrite length_app. simpl. lia. }
    destruct B1 as [|x B1]; [|by eapply Hstep].
    destruct B2 as [|x B2]; [by eapply Hdone|].
    pose proof (level_shift _ _ _ _ Hq) as Hq'. pose proof (Hstep V x B2 [] (S d)) as Hgo.
    rewrite !app_nil_r in Hgo. by apply Hgo; [rewrite !app_nil_r in *|..].
Qed.

(** ** The initial queue and the root table *)

Definition nextAt (paths : list (list ascii)) (p : list ascii) (c : ascii) (n : Z) : Prop :=
  index paths n = Some (p ++ [c]) ∨ (n = 0 ∧ p ++ [c] ∉ paths).

Lemma start_linked ns bes paths K es :
  trie ns bes paths K → (∀ k p, K k p → p ≠ []) →
  (∀ e, e ∈ es → index paths (buildTarget e) = Some [buildLabel e]) →
  linked ([0] ++ map buildTarget es ++ []) ns bes paths K.
Proof.
  intros Ht HK Hes. pose proof (trie_shape _ _ _ _ Ht) as Hs.
  constructor; [done | apply (trie_words _ _ _ _ Ht) | |].
  2: { intros i p nd _. apply (trie_nodes _ _ _ _ Ht). }
  intros i p Hi Hip. destruct (trie_node _ _ _ _ _ _ Ht Hip) as [nd Hnd].
  destruct (trie_nodes _ _ _ _ Ht _ _ _ Hip Hnd) as [Hf Hb].
  assert (Hp : p = [] ∨ ∃ c, p = [c]).
  { rewrite app_nil_r in Hi. apply elem_of_cons in Hi as [->|(e & -> & He)%list_elem_of_fmap].
    - left. rewrite (shape_root _ _ _ Hs) in Hip. congruence.
    - right. rewrite (Hes _ He) in Hip. injection Hip as <-. by eexists. }
  exists nd, []. rewrite Hf. split; [done|]. split; [apply (shape_root _ _ _ Hs)|]. split.
  - destruct Hp as [->|[c ->]]; by eapply longest_nil.
  - eapply isBest_iff; [|exact Hb]. intros k. split; [intros Hk; by exists p|].
    intros (w & Hw & Hsuf). pose proof (HK _ _ Hw) as Hne.
    destruct Hp as [->|[c ->]]; [by apply suffix_nil_inv in Hsuf|].
    apply suffix_cons_cases in Hsuf as [->|Hsuf]; [done|]. by apply suffix_nil_inv in Hsuf.
Qed.

Lemma start_level starts bes paths es :
  shape starts bes paths → NoDup (buildLabel <$> es) →
  (∀ e, e ∈ es → index paths (buildTarget e) = Some ([] ++ [buildLabel e])) →
  (∀ j c, index paths j = Some ([] ++ [c]) → ∃ e, e ∈ es ∧ buildTarget e = j ∧ buildLabel e = c) →
  level [0] (map buildTarget es) [] 1 paths.
Proof.
  intros Hs Hd Ht Hall. pose proof (children_nodup _ _ _ (shape_nodup _ _ _ Hs) Hd Ht) as Hn.
  assert (Hroot : ∀ j, index paths j = Some [] → j = 0) by apply (root_index _ _ _ Hs).
  constructor; rewrite ?app_nil_r.
  - by left.
  - simpl. apply NoDup_cons. split; [|done]. intros (e & He0 & He)%list_elem_of_fmap.
    pose proof (Ht _ He) as Hte. rewrite <- He0, (shape_root _ _ _ Hs) in Hte. done.
  - intros i ->%list_elem_of_singleton. exists []. apply (shape_root _ _ _ Hs).
  - lia.
  - intros i (e & -> & He)%list_elem_of_fmap. eexists. split; [by apply Ht | done].
  - by intros i ?%not_elem_of_nil.
  - intros i p c Hi. simpl. rewrite elem_of_cons. split.
    + intros [->|(e & -> & He)%list_elem_of_fmap].
      * rewrite (shape_root _ _ _ Hs) in Hi. injection Hi as Hi. by destruct p.
      * exists 0. split; [by left|]. rewrite (Ht _ He) in Hi. injection Hi as Hi.
        apply (app_inj_tail [] p) in Hi as [<- _]. apply (shape_root _ _ _ Hs).
    + intros (j & ->%list_elem_of_singleton & Hj). rewrite (shape_root _ _ _ Hs) in Hj. injection Hj as <-.
      right. destruct (Hall _ _ Hi) as (e & He & <- & _). by apply list_elem_of_fmap_2.
Qed.

Lemma byteOf_inj a b : byteOf a = byteOf b → a = b.
Proof. unfold byteOf. intros E. rewrite <- (ascii_N_embedding a), <- (ascii_N_embedding b). by rewrite E. Qed.

Lemma byteOf_lt a : (byteOf a < 256)%N.
Proof. apply N_ascii_bounded. Qed.

Lemma rootTable_length es : ∀ t, length (rootTable t es) = length t.
Proof. induction es as [|e es IH]; intros t; simpl; [done|]. by rewrite IH, length_insert. Qed.

Lemma rootTable_lookup es c : ∀ t, NoDup (buildLabel <$> es) → length t = 256%nat →
  (∀ e, e ∈ es → buildLabel e = c → rootTable t es !! N.to_nat (byteOf c) = Some (buildTarget e)) ∧
  ((∀ e, e ∈ es → buildLabel e ≠ c) → rootTable t es !! N.to_nat (byteOf c) = t !! N.to_nat (byteOf c)).
Proof.
  induction es as [|e es IH]; intros t Hd Ht; simpl; [split; [by intros ? ?%not_elem_of_nil | done]|].
  simpl in Hd. apply NoDup_cons in Hd as [Hn Hd].
  destruct (IH (<[N.to_nat (byteOf (buildLabel e)):=buildTarget e]> t) Hd) as [Hhit Hmiss]; [by rewrite length_insert|].
  pose proof (byteOf_lt c). split.
  - intros e' [->|He']%elem_of_cons <-; [|by apply Hhit]. rewrite Hmiss.
    + apply list_lookup_insert_eq. lia.
    + intros e'' He'' Heq. apply Hn. rewrite <- Heq. by apply list_elem_of_fmap_2.
  - intros Hall. rewrite Hmiss by (intros e' He'; apply Hall; by right).
    apply list_lookup_insert_ne. intros Heq. apply N2Nat.inj, byteOf_inj in Heq.
    by apply (Hall e); [left|].
Qed.

Lemma rootTable_spec paths es c :
  NoDup (buildLabel <$> es) →
  (∀ e, e ∈ es → index paths (buildTarget e) = Some ([] ++ [buildLabel e])) →
  (∀ j c, index paths j = Some ([] ++ [c]) → ∃ e, e ∈ es ∧ buildTarget e = j ∧ buildLabel e = c) →
  ∃ n, rootTable (replicate 256 0) es !! N.to_nat (byteOf c) = Some n ∧ nextAt paths [] c n.
Proof.
  intros Hd Ht Hall. destruct (rootTable_lookup es c (replicate 256 0) Hd eq_refl) as [Hhit Hmiss].
  destruct (decide ([c] ∈ paths)) as [Hin|Hout].
  - apply elem_index in Hin as [j Hj]. destruct (Hall _ _ Hj) as (e & He & <- & Hc).
    exists (buildTarget e). split; [by apply Hhit | by left].
  - exists 0. split; [|by right]. rewrite Hmiss.
    + pose proof (byteOf_lt c). apply lookup_replicate_2. lia.
    + intros e He Hc. apply Hout. rewrite <- Hc. by eapply index_elem, Ht.
Qed.

(** ** Compression *)

Definition descending (l : list contentModerationKeywordEdge) : Prop :=
  StronglySorted (λ a b, (byteOf (label b) <= byteOf (label a))%N) l.

Lemma insertEdge_perm e l : insertEdge e l ≡ₚ e :: l.
Proof.
  induction l as [|x l IH]; simpl; [done|]. case_match; [|done]. rewrite IH. by constructor.
Qed.

Lemma insertEdge_sorted e l : descending l → descending (insertEdge e l).
Proof.
  unfold descending. induction l as [|x l IH]; simpl; intros Hd; [by repeat constructor|].
  apply StronglySorted_inv in Hd as [Hd Hx].
  destruct (N.ltb_spec (byteOf (label e)) (byteOf (label x))) as [Hlt|Hge].
  - constructor; [by apply IH|]. rewrite insertEdge_perm. constructor; [lia | done].
  - constructor; [by constructor|]. constructor; [lia|]. eapply Forall_impl; [exact Hx|].
    intros y Hy. simpl in Hy. lia.
Qed.

Lemma sortEdges_spec l : sortEdges l ≡ₚ l ∧ descending (rev (sortEdges l)).
Proof.
  unfold sortEdges. rewrite rev_involutive.
  assert (Hg : ∀ acc, descending acc →
    foldl (λ s c, insertEdge c s) acc l ≡ₚ l ++ acc ∧ descending (foldl (λ s c, insertEdge c s) acc l)).
  { induction l as [|e l IH]; intros acc Ha; simpl; [done|].
    destruct (IH _ (insertEdge_sorted e acc Ha)) as [Hp Hd]. split; [|done].
    rewrite Hp, insertEdge_perm. by rewrite <- Permutation_middle. }
  destruct (Hg [] (SSorted_nil _)) as [Hp Hd]. split; [|done].
  rewrite <- Permutation_rev, Hp. by rewrite app_nil_r.
Qed.

(** The slice [es[lo..hi)] holds the transitions of path [p], by label. *)
Record slice (paths : list (list ascii)) (p : list ascii) (es : list contentModerationKeywordEdge)
    (lo hi : Z) : Prop := {
  slice_range : 0 <= lo <= hi ∧ hi <= zlen es;
  slice_sorted : ∀ a b x y, lo <= a <= b → b < hi → index es a = Some x → index es b = Some y →
    (byteOf (label x) <= byteOf (label y))%N;
  slice_child : ∀ k e, lo <= k < hi → index es k = Some e → index paths (target e) = Some (p ++ [label e]);
  slice_all : ∀ j c, index paths j = Some (p ++ [c]) →
    ∃ k e, lo <= k < hi ∧ index es k = Some e ∧ target e = j ∧ label e = c;
}.

Lemma index_app_at {A} (l k : list A) i : 0 <= i → index (l ++ k) (zlen l + i) = index k i.
Proof.
  intros Hi. unfold index, zlen. rewrite (proj2 (Z.ltb_ge i 0)), (proj2 (Z.ltb_ge (_ + i) 0)) by lia.
  rewrite lookup_app_r by lia. f_equal. lia.
Qed.

Lemma index_app_lt {A} (l k : list A) i : i < zlen l → index (l ++ k) i = index l i.
Proof.
  intros Hi. unfold index, zlen in *. case_match; zbool; [done|]. apply lookup_app_l. lia.
Qed.

Lemma slice_app paths p es lo hi more : slice paths p es lo hi → slice paths p (es ++ more) lo hi.
Proof.
  intros [Hr Hs Hc Ha].
  assert (Hi : ∀ k, k < hi → index (es ++ more) k = index es k) by (intros; apply index_app_lt; lia).
  constructor.
  - rewrite zlen_app. unfold zlen at 2. lia.
  - intros a b x y Hab Hb. rewrite !Hi by lia. by apply Hs.
  - intros k e Hk. rewrite Hi by lia. by apply Hc.
  - intros j c Hj. destruct (Ha _ _ Hj) as (k & e & Hk & He & ?). exists k, e. rewrite Hi by lia. done.
Qed.

Lemma descending_index l a b x y :
  descending (rev l) → 0 <= a <= b → index l a = Some x → index l b = Some y →
  (byteOf (label x) <= byteOf (label y))%N.
Proof.
  intros Hd Hab Hx Hy. destruct (decide (a = b)) as [->|Hne]; [rewrite Hx in Hy; injection Hy as ->; lia|].
  apply index_Some in Hx as [_ Hx]. apply index_Some in Hy as [_ Hy].
  revert a b Hab Hne Hx Hy. induction l as [|e l IH]; intros a b Hab Hne Hx Hy; [done|].
  unfold descending in Hd. simpl in Hd. apply StronglySorted_app in Hd as (Hd & Hdl & _).
  destruct (Z.to_nat b) as [|n] eqn:Eb; [lia|]. simpl in Hy.
  destruct (Z.to_nat a) as [|m] eqn:Ea; simpl in Hx.
  - injection Hx as <-. eapply (Hd y e); [|by left].
    rewrite <- Permutation_rev. by eapply list_elem_of_lookup_2.
  - apply (IH Hdl (a - 1) (b - 1)); [lia | lia | |].
    + by replace (Z.to_nat (a - 1)) with m by lia.
    + by replace (Z.to_nat (b - 1)) with n by lia.
Qed.

Lemma NoDup_labels_256 (es : list contentModerationKeywordBuildEdge) :
  NoDup (buildLabel <$> es) → zlen es <= 256.
Proof.
  intros Hd.
  assert (Hn : NoDup ((λ a, N.to_nat (byteOf a)) <$> (buildLabel <$> es))).
  { apply NoDup_fmap_2_strong; [|done]. intros x y _ _ Hxy. by apply byteOf_inj, N2Nat.inj. }
  assert (Hsub : (length ((λ a, N.to_nat (byteOf a)) <$> (buildLabel <$> es)) <= length (seq 0 256))%nat).
  { apply submseteq_length, NoDup_submseteq; [done|]. intros n (a & -> & _)%list_elem_of_fmap.
    apply elem_of_seq. pose proof (byteOf_lt a). lia. }
  rewrite !length_fmap, length_seq in Hsub. unfold zlen. lia.
Qed.

(** The outgoing edges of a node, as a slice of the edges emitted so far. *)
Lemma outgoing_slice paths p out es :
  NoDup (buildLabel <$> es) →
  (∀ e, e ∈ es → index paths (buildTarget e) = Some (p ++ [buildLabel e])) →
  (∀ j c, index paths j = Some (p ++ [c]) → ∃ e, e ∈ es ∧ buildTarget e = j ∧ buildLabel e = c) →
  ∃ o, outgoingEdges es = Some o ∧ zlen o = zlen es ∧ (target <$> o) ≡ₚ (buildTarget <$> es) ∧
    slice paths p (out ++ o) (zlen out) (zlen out + zlen o).
Proof.
  intros Hd Ht Hall. unfold outgoingEdges.
  rewrite (proj2 (Z.ltb_ge 256 (zlen es))) by by apply NoDup_labels_256.
  set (l := map _ es). destruct (sortEdges_spec l) as [Hp Hsort].
  exists (sortEdges l). split; [done|].
  assert (Hlen : zlen (sortEdges l) = zlen es) by (unfold zlen; rewrite Hp; unfold l; by rewrite length_map).
  assert (Hin : ∀ e, e ∈ sortEdges l ↔ ∃ b, b ∈ es ∧ e = Edge (buildTarget b) (buildLabel b)).
  { intros e. rewrite Hp. unfold l. rewrite list_elem_of_fmap. split; intros (b & ? & ?); by exists b. }
  assert (0 <= zlen out ∧ 0 <= zlen es) by (unfold zlen; lia).
  split; [done|]. split.
  { rewrite Hp. unfold l. fold (fmap (M := list) (λ e, Edge (buildTarget e) (buildLabel e)) es).
    rewrite <- list_fmap_compose. done. }
  assert (Hat : ∀ k, zlen out <= k → index (out ++ sortEdges l) k = index (sortEdges l) (k - zlen out)).
  { intros k Hk. rewrite <- (index_app_at out (sortEdges l) (k - zlen out)) by lia.
    by replace (zlen out + (k - zlen out)) with k by lia. }
  constructor.
  - rewrite zlen_app. lia.
  - intros a b x y Hab Hb. rewrite !Hat by lia. intros Hx Hy.
    eapply (descending_index (sortEdges l) (a - zlen out) (b - zlen out)); [done | lia | done | done].
  - intros k e Hk. rewrite Hat by lia. intros (b & Hb & ->)%index_elem%Hin. by apply Ht.
  - intros j c Hj. destruct (Hall _ _ Hj) as (b & Hb & <- & <-).
    destruct (elem_index (sortEdges l) (Edge (buildTarget b) (buildLabel b))) as [k Hk].
    { apply Hin. by exists b. }
    pose proof (index_range _ _ _ Hk) as Hkr. exists (zlen out + k). eexists.
    rewrite Hat by lia. replace (zlen out + k - zlen out) with k by lia.
    split; [lia|]. split; [exact Hk | done].
Qed.

(** The emitted edges lead to distinct children of the nodes before [i]. *)
Record emitted (paths : list (list ascii)) (i : Z) (out : list contentModerationKeywordEdge) : Prop := {
  emitted_nodup : NoDup (target <$> out);
  emitted_child : ∀ t, t ∈ target <$> out → ∃ j p c, j < i ∧ index paths j = Some p ∧ index paths t = Some (p ++ [c]);
}.

Lemma emitted_size paths i out : emitted paths i out → zlen out <= zlen paths.
Proof.
  intros [Hd Hc]. unfold zlen. rewrite <- (length_fmap target).
  rewrite <- (length_fmap Z.to_nat), <- (length_seq (length paths) 0).
  apply inj_le, submseteq_length, NoDup_submseteq.
  - apply NoDup_fmap_2_strong; [|done]. intros x y Hx Hy Hxy.
    destruct (Hc _ Hx) as (? & ? & ? & _ & _ & ?%index_range).
    destruct (Hc _ Hy) as (? & ? & ? & _ & _ & ?%index_range). lia.
  - intros n (t & -> & Ht)%list_elem_of_fmap. destruct (Hc _ Ht) as (? & ? & ? & _ & _ & Hr%index_range).
    unfold zlen in Hr. apply elem_of_seq. lia.
Qed.

Lemma emitted_app starts bes paths i p out o es :
  shape starts bes paths → emitted paths i out → index paths i = Some p → NoDup (buildTarget <$> es) →
  (∀ e, e ∈ es → index paths (buildTarget e) = Some (p ++ [buildLabel e])) →
  (target <$> o) ≡ₚ (buildTarget <$> es) → emitted paths (i + 1) (out ++ o).
Proof.
  intros Hs [Hd Hc] Hi Hdt Ht Hp.
  assert (Ho : ∀ t, t ∈ target <$> o → ∃ c, index paths t = Some (p ++ [c])).
  { intros t. rewrite Hp. intros (e & -> & He)%list_elem_of_fmap. by eexists; apply Ht. }
  constructor; rewrite fmap_app.
  - apply NoDup_app. split; [done|]. split; [|by rewrite Hp].
    intros t Ht1 Ht2. destruct (Hc _ Ht1) as (j & q & c & Hj & Hjq & Htq). destruct (Ho _ Ht2) as [c' Htp].
    rewrite Htq in Htp. injection Htp as Hq. apply app_inj_tail in Hq as [-> _].
    pose proof (path_inj _ _ _ Hs _ _ _ Hjq Hi). lia.
  - intros t [Hto|Hto]%elem_of_app.
    + destruct (Hc _ Hto) as (j & q & c & Hj & ?). exists j, q, c. split; [lia | done].
    + destruct (Ho _ Hto) as [c Htc]. exists i, p, c. split; [lia | done].
Qed.

Lemma compress_spec bes paths starts ns : ∀ i out,
  shape starts bes paths → 0 <= i → emitted paths i out →
  (∀ k nd, index ns k = Some nd → index starts (i + k) = Some (edgeStart nd)) →
  ∃ ns' more, compress ns bes out = Some (ns', out ++ more) ∧ zlen ns' = zlen ns ∧
    ∀ k nd p, index ns k = Some nd → index paths (i + k) = Some p →
      ∃ nd', index ns' k = Some nd' ∧ failure nd' = failure nd ∧ bestKeyword nd' = bestKeyword nd ∧
        slice paths p (out ++ more) (edgeStart nd') (edgeStart nd' + edgeCount nd').
Proof.
  induction ns as [|nd ns IH]; intros i out Hs Hi0 He Hst.
  - exists [], []. rewrite app_nil_r. split; [done|]. split; [done|].
    intros k nd p Hk%index_range. unfold zlen in Hk. simpl in Hk. lia.
  - pose proof (Hst 0 nd eq_refl) as H0. rewrite Z.add_0_r in H0.
    destruct (index_is_Some paths i) as [p Hp].
    { rewrite <- (shape_len _ _ _ Hs). by eapply index_range. }
    destruct (shape_chain _ _ _ Hs _ _ Hp) as (st & es & Hst' & Hc & Hd & Ht & Hall).
    rewrite H0 in Hst'. injection Hst' as <-. simpl. rewrite (siblingsOf_chain _ _ _ Hc). simpl.
    destruct (outgoing_slice paths p out es Hd Ht Hall) as (o & Eo & Hzo & Hpo & Hsl). rewrite Eo. simpl.
    pose proof (children_nodup _ _ _ (shape_nodup _ _ _ Hs) Hd Ht) as Hdt.
    pose proof (emitted_app _ _ _ _ _ _ _ _ Hs He Hp Hdt Ht Hpo) as He'.
    destruct (IH (i + 1) (out ++ o) Hs ltac:(lia) He') as (ns' & more & E & Hz & Hns).
    { intros k nd' Hk. pose proof (index_range _ _ _ Hk). replace (i + 1 + k) with (i + (k + 1)) by lia.
      apply Hst. rewrite (Z.add_comm k 1). change (nd :: ns) with ([nd] ++ ns).
      rewrite <- Hk. apply (index_app_at [nd]). lia. }
    rewrite E. simpl. eexists _, (o ++ more). rewrite <- app_assoc. split; [done|].
    split; [unfold zlen in *; simpl; lia|].
    intros k nd' q Hk Hq. pose proof (index_range _ _ _ Hk) as Hkr. destruct (decide (k = 0)) as [->|Hk0].
    + injection Hk as <-. rewrite Z.add_0_r, Hp in Hq. injection Hq as <-.
      eexists. split; [done|]. simpl. split; [done|]. split; [done|].
      pose proof (emitted_size _ _ _ He). pose proof (shape_small _ _ _ Hs).
      pose proof (NoDup_labels_256 _ Hd). assert (0 <= zlen out ∧ 0 <= zlen es) by (unfold zlen; lia).
      rewrite wrapU32_id, Z.mod_small by lia. rewrite app_assoc. by apply slice_app.
    + rewrite app_assoc. replace k with (zlen [nd] + (k - 1)) in Hk by (unfold zlen; simpl; lia).
      change (nd :: ns) with ([nd] ++ ns) in Hk. rewrite index_app_at in Hk by lia.
      destruct (Hns (k - 1) nd' q Hk) as (nd2 & Hn2 & ?); [by replace (i + 1 + (k - 1)) with (i + k) by lia|].
      exists nd2. split; [|done]. rewrite <- Hn2. replace k with (1 + (k - 1)) at 1 by lia.
      match goal with |- index (?a :: ?b) _ = _ => apply (index_app_at [a] b) end. lia.
Qed.

(** ** Matching *)

Lemma searchEdge_spec paths p es lo hi lbl :
  slice paths p es lo hi → ∀ fuel left right,
  lo <= left <= right → right <= hi → right - left <= Z.of_nat fuel →
  (∀ k e, lo <= k < left → index es k = Some e → (byteOf (label e) < byteOf lbl)%N) →
  (∀ k e, right <= k < hi → index es k = Some e → (byteOf lbl <= byteOf (label e))%N) →
  ∃ l, searchEdge fuel es left right lbl = Some l ∧ lo <= l <= hi ∧
    (∀ k e, lo <= k < l → index es k = Some e → (byteOf (label e) < byteOf lbl)%N) ∧
    (∀ k e, l <= k < hi → index es k = Some e → (byteOf lbl <= byteOf (label e))%N).
Proof.
  intros [Hr Hsort _ _]. induction fuel as [|fuel IH]; intros left right Hl Hrt Hf Hlow Hhigh.
  { exists left. simpl. rewrite (proj2 (Z.ltb_ge left right)) by lia. split; [done|]. split; [lia|].
    split; [done|]. intros k e Hk. apply Hhigh. lia. }
  simpl. destruct (left <? right) eqn:E; zbool.
  2:{ exists left. split; [done|]. split; [lia|]. split; [done|]. intros k e Hk. apply Hhigh. lia. }
  assert (Hq : 0 <= goQuot (right - left) 2 < right - left).
  { unfold goQuot. Z.to_euclidean_division_equations. lia. }
  set (middle := left + goQuot (right - left) 2) in *.
  destruct (index_is_Some es middle) as [e He]; [lia|]. rewrite He. simpl.
  destruct (N.ltb_spec (byteOf (label e)) (byteOf lbl)) as [Hlt|Hge].
  - apply IH; [lia | lia | lia | | done].
    intros k x Hk Hx. pose proof (Hsort k middle x e ltac:(lia) ltac:(lia) Hx He). lia.
  - apply IH; [lia | lia | lia | done |].
    intros k x Hk Hx. pose proof (Hsort middle k e x ltac:(lia) ltac:(lia) He Hx). lia.
Qed.

(** The finished automaton: what [Match] relies on. *)
Record automaton (m : contentModerationKeywordMatcher) (starts : list Z)
    (bes : list contentModerationKeywordBuildEdge) (paths : list (list ascii))
    (K : Z → list ascii → Prop) : Prop := {
  auto_shape : shape starts bes paths;
  auto_zlen : zlen (nodes m) = zlen paths;
  auto_words : ∀ k p, K k p → p ∈ paths ∧ p ≠ [];
  auto_final : ∀ i p, index paths i = Some p → final paths K (nodes m) i p;
  auto_root : ∀ c, ∃ n, rootTransitions m !! N.to_nat (byteOf c) = Some n ∧ nextAt paths [] c n;
  auto_slice : ∀ i p nd, index paths i = Some p → index (nodes m) i = Some nd →
    slice paths p (edges m) (edgeStart nd) (edgeStart nd + edgeCount nd);
}.

Lemma next_spec m starts bes paths K i p c :
  automaton m starts bes paths K → index paths i = Some p →
  ∃ n, next m i c = Some n ∧ nextAt paths p c n.
Proof.
  intros Ha Hi. pose proof (auto_shape _ _ _ _ _ Ha) as Hs. pose proof (index_range _ _ _ Hi) as Hir.
  unfold next. destruct (i =? 0) eqn:E0; zbool.
  { subst i. rewrite (shape_root _ _ _ Hs) in Hi. injection Hi as <-. apply (auto_root _ _ _ _ _ Ha). }
  rewrite (proj2 (Z.ltb_ge i 0)), (proj2 (Z.leb_gt (zlen (nodes m)) i)) by (rewrite ?(auto_zlen _ _ _ _ _ Ha); lia).
  simpl. destruct (auto_final _ _ _ _ _ Ha _ _ Hi) as (nd & q & Hnd & _). rewrite Hnd. simpl.
  pose proof (auto_slice _ _ _ _ _ Ha _ _ _ Hi Hnd) as Hsl. destruct (slice_range _ _ _ _ _ Hsl) as [Hr1 Hr2].
  destruct (searchEdge_spec _ _ _ _ _ c Hsl (Z.to_nat (edgeCount nd)) (edgeStart nd) (edgeStart nd + edgeCount nd))
    as (l & El & Hl & Hlow & Hhigh); [lia | lia | lia | intros; lia | intros; lia |].
  rewrite El. simpl.
  assert (Hmiss : (∀ k e, edgeStart nd <= k < edgeStart nd + edgeCount nd → index (edges m) k = Some e → label e ≠ c) →
    p ++ [c] ∉ paths).
  { intros Hno [j Hj]%elem_index. destruct (slice_all _ _ _ _ _ Hsl _ _ Hj) as (k & e & Hk & He & _ & Hc).
    by apply (Hno k e). }
  destruct (l <? edgeStart nd + edgeCount nd) eqn:El2; zbool.
  - destruct (index_is_Some (edges m) l) as [e He]; [lia|]. rewrite He. simpl. eexists. split; [done|].
    case_bool_decide as Hc.
    + left. rewrite <- Hc. eapply (slice_child _ _ _ _ _ Hsl); [|exact He]. lia.
    + right. split; [done|]. apply Hmiss. intros k x Hk Hx Hxc. rewrite <- Hxc in *.
      destruct (decide (k < l)) as [Hkl|Hkl]; [specialize (Hlow k x ltac:(lia) Hx); lia|].
      pose proof (slice_sorted _ _ _ _ _ Hsl l k e x ltac:(lia) ltac:(lia) He Hx).
      pose proof (Hhigh l e ltac:(lia) He). apply Hc, byteOf_inj. lia.
  - exists 0. split; [done|]. right. split; [done|]. apply Hmiss. intros k x Hk Hx Hxc. rewrite <- Hxc in *.
    specialize (Hlow k x ltac:(lia) Hx). lia.
Qed.

Lemma nextAt_zero starts bes paths p c n :
  shape starts bes paths → nextAt paths p c n → (n = 0 ∧ p ++ [c] ∉ paths) ∨ (n ≠ 0 ∧ index paths n = Some (p ++ [c])).
Proof.
  intros Hs [Hn|?]; [right|by left]. split; [|done]. intros ->.
  rewrite (shape_root _ _ _ Hs) in Hn. injection Hn as Hn. by destruct p.
Qed.

Lemma advance_spec m starts bes paths K c :
  automaton m starts bes paths K →
  ∀ fuel q i, index paths i = Some q → (length q <= fuel)%nat →
  ∃ j, advance fuel m i c = Some (if 0 <=? j then j else 0) ∧ stepTo paths q c j.
Proof.
  intros Ha. pose proof (auto_shape _ _ _ _ _ Ha) as Hs.
  induction fuel as [|fuel IH]; intros q i Hi Hf;
    destruct (next_spec _ _ _ _ _ _ _ c Ha Hi) as (n & En & Hn); simpl; rewrite En; simpl;
    (destruct (nextAt_zero _ _ _ _ _ _ Hs Hn) as [[-> Hout]|[Hn0 Hn1]];
     [|rewrite (proj2 (Z.eqb_neq n 0)) by done; simpl; exists n;
       rewrite (proj2 (Z.leb_le 0 n)) by (apply index_range in Hn1; lia);
       split; [done|]; by apply stepTo_here]); simpl.
  - destruct q; [|simpl in Hf; lia]. pose proof (root_index _ _ _ Hs _ Hi) as ->. simpl.
    exists (-1). split; [done|]. by apply stepTo_root.
  - destruct (decide (i = 0)) as [->|Hi0].
    + rewrite (shape_root _ _ _ Hs) in Hi. injection Hi as <-. simpl.
      exists (-1). split; [done|]. by apply stepTo_root.
    + rewrite (proj2 (Z.eqb_neq i 0)) by done.
      destruct q as [|a q0]; [by pose proof (root_index _ _ _ Hs _ Hi)|].
      destruct (auto_final _ _ _ _ _ Ha _ _ Hi) as (nd & q' & Hnd & Hq' & Hlong & _). rewrite Hnd. simpl in *.
      pose proof (longest_length _ _ _ Hlong).
      destruct (IH _ _ Hq') as (j & Ej & Hst); [lia|].
      exists j. split; [done|]. by eapply stepTo_fail.
Qed.

(** [w] occurs in [t]. *)
Definition occurs (w t : list ascii) : Prop := ∃ a b, t = a ++ w ++ b.

Lemma occurs_snoc w t c : occurs w (t ++ [c]) ↔ occurs w t ∨ w `suffix_of` t ++ [c].
Proof.
  split.
  - intros (a & b & Hab). destruct b as [|d b _] using rev_ind.
    + right. exists a. by rewrite app_nil_r in Hab.
    + left. rewrite !app_assoc in Hab. apply app_inj_tail in Hab as [-> _]. exists a, b. by rewrite app_assoc.
  - intros [(a & b & ->)|[a Ha]].
    + exists a, (b ++ [c]). by rewrite <- !app_assoc.
    + exists a, []. by rewrite app_nil_r.
Qed.

Lemma occurs_app w t u : occurs w t → occurs w (t ++ u).
Proof. intros (a & b & ->). exists a, (b ++ u). by rewrite <- !app_assoc. Qed.

Lemma scan_spec m starts bes paths K u :
  automaton m starts bes paths K → ∀ t q i best,
  index paths i = Some q → longest paths t q → isBest (λ k, ∃ w, K k w ∧ occurs w t) best →
  (∀ k w, K k w → 0 <= k) →
  ∃ b, scan m i best u = Some b ∧ isBest (λ k, ∃ w, K k w ∧ occurs w (t ++ u)) b.
Proof.
  intros Ha. pose proof (auto_shape _ _ _ _ _ Ha) as Hs.
  induction u as [|c u IH]; intros t q i best Hi Hlong Hb HK; simpl.
  { exists best. rewrite app_nil_r. done. }
  destruct (advance_spec _ _ _ _ _ c Ha (length (nodes m)) q i Hi) as (j & Ej & Hst).
  { pose proof (auto_zlen _ _ _ _ _ Ha) as Hz. pose proof (path_depth_lt _ _ _ Hs q (index_elem _ _ _ Hi)).
    unfold zlen in Hz. lia. }
  rewrite Ej. simpl. destruct (longest_step _ _ _ Hs _ _ _ _ Hlong Hst) as (f & q' & <- & Hq' & Hlong').
  destruct (auto_final _ _ _ _ _ Ha _ _ Hq') as (nd & ? & Hnd & _ & _ & Hbn). rewrite Hnd. simpl.
  assert (Hbest : isBest (λ k, ∃ w, K k w ∧ occurs w (t ++ [c])) (minKeywordIndex best (bestKeyword nd))).
  { eapply isBest_iff; [|apply minKeywordIndex_spec; [exact Hb | exact Hbn]]. intros k. split.
    - intros [(w & Hw & Ho)|(w & Hw & Ho)]; exists w; (split; [done|]); apply occurs_snoc; [by left|].
      right. destruct Hlong' as (_ & Hs' & _). by etransitivity.
    - intros (w & Hw & [Ho|Ho]%occurs_snoc); [left; by exists w|]. right. exists w. split; [done|].
      destruct Hlong' as (_ & _ & Hmax). apply Hmax; [|done]. by apply (auto_words _ _ _ _ _ Ha) in Hw as [? _]. }
  replace (t ++ c :: u) with ((t ++ [c]) ++ u) by by rewrite <- app_assoc.
  destruct (minKeywordIndex best (bestKeyword nd) =? 0) eqn:E0; zbool; [|by eapply IH].
  rewrite E0 in Hbest. exists 0. split; [done|]. right. split; [done|].
  destruct Hbest as [[? _]|(_ & (w & Hw & Ho) & _)]; [done|].
  split; [exists w; split; [done | by apply occurs_app]|]. intros k (v & Hv & _). by eapply HK.
Qed.

(** ** The matcher is the first keyword contained in the text *)

(** [unicode.ToLower] maps every rune to a rune, so a non-empty string never
    becomes empty. *)
Class LowerLaws `{UnicodeCase} : Prop := lower_nonempty : ∀ s, s ≠ ""%string → unicodeLower s ≠ ""%string.

Lemma HasPrefix_spec p : ∀ s,
  HasPrefix s p = true ↔ ∃ b, String.list_ascii_of_string s = String.list_ascii_of_string p ++ b.
Proof.
  unfold HasPrefix. induction p as [|a p IH]; intros s; simpl.
  { split; [intros _; by eexists|]. intros _. by destruct s. }
  destruct s as [|a' s]; simpl; [split; [done | by intros [? ?]]|].
  destruct (ascii_dec a a') as [->|Hne].
  - rewrite IH. split; intros [b Hb]; exists b; [by rewrite Hb | by injection Hb].
  - split; [done|]. intros [b Hb]. by injection Hb as -> _.
Qed.

Lemma Contains_spec s p :
  Contains s p = true ↔ occurs (String.list_ascii_of_string p) (String.list_ascii_of_string s).
Proof.
  induction s as [|c s IH]; cbn [Contains String.list_ascii_of_string];
    rewrite orb_true_iff, HasPrefix_spec; simpl.
  - split; [intros [[b Hb]|?]; [by exists [], b | done]|].
    intros (a & b & Hab). left. exists b. symmetry in Hab. by apply app_eq_nil in Hab as [-> Hab].
  - rewrite IH. split.
    + intros [[b Hb]|(a & b & Hab)]; [by exists [], b | exists (c :: a), b]. simpl. by rewrite Hab.
    + intros ([|d a] & b & Hab); [left; by exists b|]. right. injection Hab as -> Hab. by exists a, b.
Qed.

#[export] Instance occurs_dec w t : Decision (occurs w t).
Proof.
  destruct (Contains (String.string_of_list_ascii t) (String.string_of_list_ascii w)) eqn:E; [left|right];
    [|intros Ho]; pose proof (Contains_spec (String.string_of_list_ascii t) (String.string_of_list_ascii w)) as Hc;
    rewrite !String.list_ascii_of_string_of_list_ascii in Hc; [by apply Hc|].
  apply Hc in Ho. congruence.
Defined.

Lemma isBest_unique P a b : isBest P a → isBest P b → a = b.
Proof.
  intros [[-> Ha]|(Ha0 & HPa & Ha)] [[-> Hb]|(Hb0 & HPb & Hb)]; [done | by apply Ha in HPb | by apply Hb in HPa |].
  apply Ha in HPb. apply Hb in HPa. lia.
Qed.

Section correct.
Context `{HU : UnicodeCase} `{!LowerLaws}.

Lemma lowerBytes_nonempty s : s ≠ ""%string → lowerBytes s ≠ [].
Proof.
  intros Hs. unfold lowerBytes, ToLower. destruct (isASCII s).
  - destruct s; [done|]. unfold mapBytes. by rewrite String.list_ascii_of_string_of_list_ascii.
  - pose proof (lower_nonempty s Hs) as Hl. by destruct (unicodeLower s).
Qed.

Definition hit (kws : list string) (t : list ascii) (k : Z) : Prop := ∃ w, wordAt kws k w ∧ occurs w t.

Lemma firstContained_spec lower kws :
  (∀ k, ¬ hit kws (String.list_ascii_of_string lower) k) ∧ firstContained lower kws = (""%string, false) ∨
  ∃ k kw, index kws k = Some kw ∧ isBest (hit kws (String.list_ascii_of_string lower)) k ∧
    firstContained lower kws = (kw, true).
Proof.
  set (t := String.list_ascii_of_string lower).
  assert (Hcons : ∀ kw kws k, hit (kw :: kws) t k ↔
    (k = 0 ∧ kw ≠ ""%string ∧ occurs (lowerBytes kw) t) ∨ (0 < k ∧ hit kws t (k - 1))).
  { intros kw l k. assert (Hshift : 0 < k → index (kw :: l) k = index l (k - 1)).
    { intros Hk. rewrite <- (index_app_at [kw] l (k - 1)) by lia. f_equal. unfold zlen. simpl. lia. }
    split.
    - intros (w & (s & Hi & Hne & <-) & Ho). pose proof (index_range _ _ _ Hi).
      destruct (decide (k = 0)) as [->|Hk].
      + injection Hi as ->. by left.
      + right. split; [lia|]. rewrite Hshift in Hi by lia. exists (lowerBytes s). split; [by exists s | done].
    - intros [(-> & Hne & Ho)|(Hk & w & (s & Hi & Hs) & Ho)].
      + exists (lowerBytes kw). split; [by exists kw | done].
      + exists w. split; [|done]. exists s. by rewrite Hshift. }
  induction kws as [|kw kws IH]; simpl.
  { left. split; [|done]. intros k (w & (s & Hi%index_range & _) & _). unfold zlen in Hi. simpl in Hi. lia. }
  destruct (decide (kw ≠ ""%string ∧ occurs (lowerBytes kw) t)) as [[Hne Ho]|Hno].
  - right. exists 0, kw. split; [done|]. split.
    + right. split; [lia|]. split; [apply Hcons; by left|]. intros k [(-> & _)|(Hk & _)]%Hcons; lia.
    + rewrite bool_decide_false by done. unfold lowerBytes in Ho. apply Contains_spec in Ho. by rewrite Ho.
  - assert (Hskip : (if bool_decide (kw = ""%string) then firstContained lower kws
      else if Contains lower (ToLower kw) then (kw, true) else firstContained lower kws) = firstContained lower kws).
    { case_bool_decide as Hk; [done|]. destruct (Contains lower (ToLower kw)) eqn:E; [|done].
      exfalso. apply Hno. split; [done|]. by apply Contains_spec. }
    rewrite Hskip. destruct IH as [[Hn ->]|(k & s & Hi & Hb & ->)]; [left | right].
    + split; [|done]. intros k [(-> & ?)|(_ & Hk)]%Hcons; [by apply Hno | by apply Hn in Hk].
    + exists (k + 1), s. pose proof (index_range _ _ _ Hi).
      split; [rewrite <- Hi; replace (k + 1) with (zlen [kw] + k) by (unfold zlen; simpl; lia);
              apply (index_app_at [kw] kws); lia|]. split; [|done].
      destruct Hb as [[? _]|(Hk0 & Hk & Hmin)]; [lia|]. right. split; [lia|].
      split; [apply Hcons; right; split; [lia|]; by replace (k + 1 - 1) with k by lia|].
      intros k' [(_ & ?)|(Hk' & Hh)]%Hcons; [by exfalso; apply Hno|]. apply Hmin in Hh. lia.
Qed.
Lemma firstContained_none lower kws :
  (∀ k, ¬ hit kws (String.list_ascii_of_string lower) k) → firstContained lower kws = (""%string, false).
Proof.
  intros Hno. destruct (firstContained_spec lower kws) as [[_ ?]|(k & kw & Hi%index_range & Hb & _)]; [done|].
  destruct Hb as [[-> _]|(_ & Hk & _)]; [lia | by apply Hno in Hk].
Qed.

(** The sizes that fit the [int32] indices of the automaton. *)
Definition fits (kws : list string) : Prop := totalBytes kws + 1 <= 2 ^ 31 ∧ zlen kws <= 2 ^ 31.

(** Compression after the failure links gives the automaton. *)
Lemma compress_automaton ns bes paths K table kws :
  shape (edgeStart <$> ns) bes paths → (∀ k p, K k p → p ∈ paths ∧ p ≠ []) →
  (∀ i p, index paths i = Some p → final paths K ns i p) →
  (∀ c, ∃ n, table !! N.to_nat (byteOf c) = Some n ∧ nextAt paths [] c n) →
  ∃ ns' es, compress ns bes [] = Some (ns', es) ∧ automaton (Matcher ns' es table kws) (edgeStart <$> ns) bes paths K.
Proof.
  intros Hs HK Hfin Htable.
  destruct (compress_spec bes paths _ ns 0 [] Hs ltac:(lia)) as (ns' & es & E & Hz & Hns).
  - constructor; [constructor|]. by intros t Ht%not_elem_of_nil.
  - intros k nd Hk. rewrite index_fmap, Z.add_0_l, Hk. done.
  - pose proof (shape_len _ _ _ Hs) as Hl. rewrite zlen_fmap in Hl.
    exists ns', es. split; [done|]. constructor; simpl; [done | lia | done | | done |].
    + intros i p Hi. destruct (Hfin _ _ Hi) as (nd & q & Hnd & Hq & Hlong & Hb).
      destruct (Hns i nd p Hnd Hi) as (nd' & Hnd' & Hf & Hbk & _).
      exists nd', q. by rewrite Hf, Hbk.
    + intros i p nd' Hi Hnd'. destruct (Hfin _ _ Hi) as (nd & q & Hnd & _).
      destruct (Hns i nd p Hnd Hi) as (nd2 & Hnd2 & _ & _ & Hsl).
      rewrite Hnd' in Hnd2. by injection Hnd2 as <-.
Qed.

Lemma build_spec kws : fits kws →
  (newContentModerationKeywordMatcher kws = Some None ∧ ∀ k w, ¬ wordAt kws k w) ∨
  ∃ m starts bes paths, newContentModerationKeywordMatcher kws = Some (Some m) ∧ keywords m = kws ∧
    automaton m starts bes paths (wordAt kws).
Proof.
  intros [Hb Hz]. unfold newContentModerationKeywordMatcher. case_bool_decide as Hnil.
  { left. split; [done|]. subst. intros k w (s & Hi%index_range & _). unfold zlen in Hi. simpl in Hi. lia. }
  assert (HK : ∀ k w, wordAt kws k w → w ≠ []).
  { intros k w (s & _ & Hs & <-). by apply lowerBytes_nonempty. }
  destruct (insertKeywords_spec kws [] [newContentModerationKeywordNode] [] [[]]) as (ns & bes & paths & E & Ht);
    [apply trie_init | unfold zlen; simpl; lia | unfold zlen in *; simpl; lia|].
  simpl in Ht. change (zlen []) with 0 in E. rewrite E. simpl.
  pose proof (trie_shape _ _ _ _ Ht) as Hs. pose proof (trie_zlen _ _ _ _ Ht) as Hzl.
  destruct (zlen ns =? 1) eqn:E1; zbool.
  { left. split; [done|]. intros k w Hw. apply (HK k w Hw).
    apply (trie_words _ _ _ _ Ht) in Hw as Hin. apply elem_index in Hin as [i Hi].
    pose proof (index_range _ _ _ Hi). replace i with 0 in Hi by lia.
    rewrite (shape_root _ _ _ Hs) in Hi. by injection Hi. }
  destruct (shape_chain _ _ _ Hs _ _ (shape_root _ _ _ Hs)) as (st & es & Hst & Hc & Hd & Hte & Hall).
  destruct (trie_node _ _ _ _ _ _ Ht (shape_root _ _ _ Hs)) as [root Hroot].
  rewrite index_fmap, Hroot in Hst. injection Hst as <-. rewrite Hroot. simpl.
  rewrite (siblingsOf_chain _ _ _ Hc). simpl.
  pose proof (start_linked _ _ _ _ _ Ht HK Hte) as Hl.
  pose proof (start_level _ _ _ _ Hs Hd Hte Hall) as Hq.
  destruct (linkLoop_spec (length ns) [0] (map buildTarget es) [] 1 ns bes paths _ Hl Hq) as (ns1 & El & Hs1 & Hw1 & Hfin).
  { unfold zlen in Hzl. simpl. lia. }
  rewrite app_nil_r in El. rewrite El. simpl.
  destruct (compress_automaton ns1 bes paths (wordAt kws) (rootTable (replicate 256 0) es) kws Hs1) as (ns2 & es2 & Ec & Ha).
  - intros k p Hk. split; [by eapply Hw1 | by eapply HK].
  - done.
  - intros c. by apply rootTable_spec.
  - rewrite Ec. right. eexists _, _, bes, paths. split; [done|]. by split.
Qed.

(** C24: for every list of keywords that fits the indices and every text, the
    automaton is built without a panic, every loop ends, and [Match] answers
    exactly like [matchBlockedKeyword]: the first keyword, in the configured
    order, whose lower-case form occurs in the lower-case text. *)
Theorem keyword_match_first kws text :
  fits kws → ∃ m, newContentModerationKeywordMatcher kws = Some m ∧ Match m text = Some (matchBlockedKeyword text kws).
Proof.
  intros Hfit. unfold matchBlockedKeyword.
  destruct (build_spec kws Hfit) as [[E Hno]|(m & starts & bes & paths & E & Hkw & Ha)].
  { exists None. split; [done|]. simpl. f_equal. symmetry. destruct (_ || _); [done|]. apply firstContained_none.
    intros k (w & Hw & _). by apply Hno in Hw. }
  exists (Some m). split; [done|]. simpl. pose proof (auto_shape _ _ _ _ _ Ha) as Hs.
  rewrite Hkw. case_bool_decide as Htext; [done|]. simpl.
  pose proof (index_range _ _ _ (shape_root _ _ _ Hs)). rewrite (auto_zlen _ _ _ _ _ Ha).
  rewrite (proj2 (Z.eqb_neq (zlen paths) 0)) by lia. simpl.
  case_bool_decide as Hnil; [by rewrite Hnil|]. rewrite (proj2 (Z.eqb_neq (zlen kws) 0)).
  2:{ unfold zlen. destruct kws; [done | simpl; lia]. }
  destruct (scan_spec m starts bes paths _ (lowerBytes text) Ha [] [] 0 (-1)) as (b & Eb & Hb).
  { apply (shape_root _ _ _ Hs). } { by eapply longest_nil. }
  { left. split; [done|]. intros k (w & Hw & (a & c & Hac)). symmetry in Hac. apply app_eq_nil in Hac as [_ [-> _]%app_eq_nil].
    by apply (auto_words _ _ _ _ _ Ha) in Hw as [_ ?]. }
  { intros k w (s & Hi%index_range & _). lia. }
  simpl in Hb. rewrite Eb. simpl. fold (hit kws (lowerBytes text)) in Hb.
  destruct (firstContained_spec (ToLower text) kws) as [[Hno Hf]|(k & kw & Hk & Hbest & Hf)]; rewrite Hf.
  - destruct Hb as [[-> _]|(_ & Hh & _)]; [done|]. by apply Hno in Hh.
  - pose proof (isBest_unique _ _ _ Hb Hbest) as ->. pose proof (index_range _ _ _ Hk).
    destruct (k =? 0) eqn:E0; zbool; [subst; by rewrite Hk|].
    rewrite (proj2 (Z.ltb_ge k 0)), (proj2 (Z.leb_gt (zlen kws) k)) by lia. simpl. by rewrite Hk.
Qed.
End correct.

Lemma ascii_lower_laws : @LowerLaws ascii_case.
Proof. by intros s. Qed.

Lemma keyword_match_first_witness :
  ∃ m, @newContentModerationKeywordMatcher ascii_case ["later"; ""; "EARLY"; "arl"]%string = Some m ∧
    @Match ascii_case m "An early word"%string = Some ("EARLY"%string, true).
Proof.
  refine (@keyword_match_first ascii_case ascii_lower_laws ["later"; ""; "EARLY"; "arl"]%string
    "An early word"%string _).
  split; vm_compute; discriminate.
Defined.
