(* ===== verification/UsageBilling.v ===== *)
(** * Billing commands and the plan of a settlement

    [service/usage_billing.go]: the commands of usage billing and of balance
    holds, their normalisation and fingerprints, and [PlanBatchImageBillingCapture],
    which splits the actual cost of a held task between the subscriptions and
    the balance it was reserved from.  Amounts are binary64.

    The formatting of [fmt.Sprintf] and [time.Format], SHA-256 and the decimal
    package are arguments ([BillingText]). *)

From S2P Require Import Prelude GoRuntime Domain AppErrors.
#[local] Open Scope Z_scope.

(** ** Data *)

Definition APIKeyBillingModeAuto : string := "auto".
Definition APIKeyBillingModeSubscription : string := "subscription".
Definition APIKeyBillingModeBalance : string := "balance".

Definition BillingAllocationTypeSubscription : string := "subscription".
Definition BillingAllocationTypeBalance : string := "balance".

Definition ErrBatchImageSettlementCostExceedsHold :=
  New 409 "BATCH_IMAGE_SETTLEMENT_COST_EXCEEDS_HOLD" "batch image settlement cost exceeds held balance".

(** 0.00000001, correctly rounded. *)
Definition batchImageCostEpsilon : float64 := f64_div (f64_of_Z 1) (f64_of_Z 100000000).

Record BillingAllocation := mkAllocation {
  AllocationType : string;
  AmountUSD : float64;
  AllocationBaseAmountUSD : float64;
  RateMultiplier : float64;
  SubscriptionID : option Z;
  PlanID : option Z;
}.

Record BatchImageBalanceHoldCommand := mkHoldCommand {
  cRequestID : string;
  cAPIKeyID : Z;
  cRequestFingerprint : string;
  cRequestPayloadHash : string;
  cUserID : Z;
  cActorUserID : Z;
  cTeamID : option Z;
  cGroupID : option Z;
  cAPIKeyBillingMode : string;
  cPreferredSubscriptionID : option Z;
  cBatchID : string;
  cHoldAmount : float64;
  cActualAmount : float64;
  cPricingSnapshotVersion : Z;
  cBaseAmountUSD : float64;
  cActualBaseAmountUSD : float64;
  cSubscriptionRateMultiplier : float64;
  cSubscriptionRateMultiplierScale : float64;
  cBalanceRateMultiplier : float64;
  cSettlementRateScale : float64;
  cDisablePlanGroupRateMultiplier : bool;
  cBalanceHoldAmount : float64;
  cSubscriptionHoldAllocations : list BillingAllocation;
  cAllowanceReserved : bool;
  cCreativeEntity : bool;
  cReservedAt : Time;
}.

Definition etaHold (c : BatchImageBalanceHoldCommand) : BatchImageBalanceHoldCommand :=
  mkHoldCommand (cRequestID c) (cAPIKeyID c) (cRequestFingerprint c) (cRequestPayloadHash c) (cUserID c)
    (cActorUserID c) (cTeamID c) (cGroupID c) (cAPIKeyBillingMode c) (cPreferredSubscriptionID c) (cBatchID c)
    (cHoldAmount c) (cActualAmount c) (cPricingSnapshotVersion c) (cBaseAmountUSD c) (cActualBaseAmountUSD c)
    (cSubscriptionRateMultiplier c) (cSubscriptionRateMultiplierScale c) (cBalanceRateMultiplier c)
    (cSettlementRateScale c) (cDisablePlanGroupRateMultiplier c) (cBalanceHoldAmount c)
    (cSubscriptionHoldAllocations c) (cAllowanceReserved c) (cCreativeEntity c) (cReservedAt c).

Definition SetRequestID v c : BatchImageBalanceHoldCommand := ltac:(set_field etaHold c cRequestID v).
Definition SetBatchID v c : BatchImageBalanceHoldCommand := ltac:(set_field etaHold c cBatchID v).
Definition SetRequestFingerprint v c : BatchImageBalanceHoldCommand := ltac:(set_field etaHold c cRequestFingerprint v).
Definition SetBillingMode v c : BatchImageBalanceHoldCommand := ltac:(set_field etaHold c cAPIKeyBillingMode v).
Definition SetPreferred v c : BatchImageBalanceHoldCommand := ltac:(set_field etaHold c cPreferredSubscriptionID v).
Definition SetHoldAmount v c : BatchImageBalanceHoldCommand := ltac:(set_field etaHold c cHoldAmount v).
Definition SetActualAmount v c : BatchImageBalanceHoldCommand := ltac:(set_field etaHold c cActualAmount v).
Definition SetActualBaseAmount v c : BatchImageBalanceHoldCommand := ltac:(set_field etaHold c cActualBaseAmountUSD v).
Definition SetBalanceHoldAmount v c : BatchImageBalanceHoldCommand := ltac:(set_field etaHold c cBalanceHoldAmount v).
Definition SetHoldAllocations v c : BatchImageBalanceHoldCommand := ltac:(set_field etaHold c cSubscriptionHoldAllocations v).

Record BatchImageBalanceHoldResult := mkHoldResult {
  Applied : bool;
  NewBalance : option float64;
  FrozenBalance : option float64;
  HoldAmountUSD : float64;
  EstimatedAmountUSD : float64;
  ActualAmountUSD : float64;
  SubscriptionAmountUSD : float64;
  BalanceAmountUSD : float64;
  BillingAllocations : list BillingAllocation;
}.

Definition emptyHoldResult : BatchImageBalanceHoldResult :=
  mkHoldResult false None None f64_zero f64_zero f64_zero f64_zero f64_zero [].

Record BatchImageBillingCapturePlan := mkPlan {
  planBalanceHold : float64;
  planActual : float64;
  planSubscription : float64;
  planBalance : float64;
  planAllocations : list BillingAllocation;
  planReleases : list BillingAllocation;
}.

(** ** Normalisation and fingerprints *)

(** [NormalizeAPIKeyBillingMode]: [None] is [("", false)]. *)
Definition NormalizeAPIKeyBillingMode `{UnicodeCase} (value : string) : option string :=
  let normalized := ToLower (TrimSpace value) in
  if eqs normalized "" || eqs normalized APIKeyBillingModeAuto then Some APIKeyBillingModeAuto
  else if eqs normalized APIKeyBillingModeSubscription || eqs normalized APIKeyBillingModeBalance then Some normalized
  else None.

Class BillingText := {
  sha256Hex : string → string;
  formatF10 : float64 → string;         (* %0.10f *)
  formatRFC3339Nano : Time → string;    (* t.UTC().Format(time.RFC3339Nano) *)
  decimalRound8 : float64 → float64;    (* decimal.NewFromFloat(v).Round(8).Float64() *)
}.

Definition formatBool (b : bool) : string := if b then "true" else "false".

Definition fingerprintParts `{BillingText} (c : BatchImageBalanceHoldCommand) : list string :=
  [Itoa (cUserID c); Itoa (cActorUserID c); Itoa (default 0 (cTeamID c)); Itoa (cAPIKeyID c); TrimSpace (cBatchID c)] ++
  (if 2 <=? cPricingSnapshotVersion c then
     [Itoa (cPricingSnapshotVersion c); formatF10 (cBaseAmountUSD c); formatF10 (cActualBaseAmountUSD c);
      formatF10 (cSubscriptionRateMultiplier c); formatF10 (cSubscriptionRateMultiplierScale c);
      formatF10 (cBalanceRateMultiplier c); formatF10 (cSettlementRateScale c);
      formatBool (cDisablePlanGroupRateMultiplier c); formatRFC3339Nano (cReservedAt c)]
   else [formatF10 (cHoldAmount c); formatF10 (cActualAmount c); formatRFC3339Nano (cReservedAt c)]) ++
  (if 3 <=? cPricingSnapshotVersion c
   then [cAPIKeyBillingMode c; Itoa (default 0 (cPreferredSubscriptionID c))] else []) ++
  (let payloadHash := TrimSpace (cRequestPayloadHash c) in if eqs payloadHash "" then [] else [payloadHash]).

Definition buildBatchImageBalanceHoldFingerprint `{BillingText} (c : BatchImageBalanceHoldCommand) : string :=
  sha256Hex (JoinByte "|" (fingerprintParts c)).

Definition Normalize `{UnicodeCase} `{BillingText} (c : BatchImageBalanceHoldCommand) : BatchImageBalanceHoldCommand :=
  let c := SetBatchID (TrimSpace (cBatchID c)) (SetRequestID (TrimSpace (cRequestID c)) c) in
  let rawMode := TrimSpace (cAPIKeyBillingMode c) in
  let mode := default APIKeyBillingModeAuto (NormalizeAPIKeyBillingMode (cAPIKeyBillingMode c)) in
  let clearPreferred c := if eqs mode APIKeyBillingModeSubscription then c else SetPreferred None c in
  let c := if eqs (TrimSpace (cRequestFingerprint c)) ""
           then SetRequestFingerprint (buildBatchImageBalanceHoldFingerprint
                  (clearPreferred (SetBillingMode (if eqs rawMode "" then ""%string else mode) c))) c
           else c in
  clearPreferred (SetBillingMode mode c).

(** ** The command of one request *)

Record UsageBillingCommand := mkUsageCommand {
  uRequestID : string;
  uAPIKeyID : Z;
  uRequestFingerprint : string;
  uRequestPayloadHash : string;
  uAPIKeyBillingMode : string;
  uPreferredSubscriptionID : option Z;
  uUserID : Z;
  uActorUserID : Z;
  uTeamID : option Z;
  uAccountID : Z;
  uGroupID : option Z;
  uBillableAmountUSD : float64;
  uBaseAmountUSD : float64;
  uSubscriptionRateMultiplier : float64;
  uSubscriptionRateMultiplierScale : float64;
  uBalanceRateMultiplier : float64;
  uDisablePlanGroupRateMultiplier : bool;
  uIncludeAllocationPricing : bool;
  uAccountType : string;
  uModel : string;
  uServiceTier : string;
  uReasoningEffort : string;
  uBillingType : Z;
  uInputTokens : Z;
  uOutputTokens : Z;
  uCacheCreationTokens : Z;
  uCacheReadTokens : Z;
  uImageCount : Z;
  uMediaType : string;
  uAPIKeyQuotaCost : float64;
  uAPIKeyRateLimitCost : float64;
  uAccountQuotaCost : float64;
}.

Definition etaUsage (c : UsageBillingCommand) : UsageBillingCommand :=
  mkUsageCommand (uRequestID c) (uAPIKeyID c) (uRequestFingerprint c) (uRequestPayloadHash c) (uAPIKeyBillingMode c)
    (uPreferredSubscriptionID c) (uUserID c) (uActorUserID c) (uTeamID c) (uAccountID c) (uGroupID c)
    (uBillableAmountUSD c) (uBaseAmountUSD c) (uSubscriptionRateMultiplier c) (uSubscriptionRateMultiplierScale c)
    (uBalanceRateMultiplier c) (uDisablePlanGroupRateMultiplier c) (uIncludeAllocationPricing c) (uAccountType c)
    (uModel c) (uServiceTier c) (uReasoningEffort c) (uBillingType c) (uInputTokens c) (uOutputTokens c)
    (uCacheCreationTokens c) (uCacheReadTokens c) (uImageCount c) (uMediaType c) (uAPIKeyQuotaCost c)
    (uAPIKeyRateLimitCost c) (uAccountQuotaCost c).

Definition SetUsageRequestID v c : UsageBillingCommand := ltac:(set_field etaUsage c uRequestID v).
Definition SetUsageFingerprint v c : UsageBillingCommand := ltac:(set_field etaUsage c uRequestFingerprint v).
Definition SetUsageMode v c : UsageBillingCommand := ltac:(set_field etaUsage c uAPIKeyBillingMode v).
Definition SetUsagePreferred v c : UsageBillingCommand := ltac:(set_field etaUsage c uPreferredSubscriptionID v).
Definition SetUsageKeyQuota v c : UsageBillingCommand := ltac:(set_field etaUsage c uAPIKeyQuotaCost v).
Definition SetUsageKeyRate v c : UsageBillingCommand := ltac:(set_field etaUsage c uAPIKeyRateLimitCost v).
Definition SetUsageAccountQuota v c : UsageBillingCommand := ltac:(set_field etaUsage c uAccountQuotaCost v).

Definition QuantizeUsageBillingAmount `{BillingText} (v : float64) : float64 :=
  if f64_eq v f64_zero || f64_isNaN v || f64_isInf v then v else decimalRound8 v.

Definition quantizeMonetaryFields `{BillingText} (c : UsageBillingCommand) : UsageBillingCommand :=
  SetUsageAccountQuota (QuantizeUsageBillingAmount (uAccountQuotaCost c))
    (SetUsageKeyRate (QuantizeUsageBillingAmount (uAPIKeyRateLimitCost c))
      (SetUsageKeyQuota (QuantizeUsageBillingAmount (uAPIKeyQuotaCost c)) c)).

Definition buildUsageBillingFingerprint `{BillingText} (c : UsageBillingCommand) : string :=
  let payloadHash := TrimSpace (uRequestPayloadHash c) in
  sha256Hex (JoinByte "|" (
    [Itoa (uUserID c); Itoa (uActorUserID c); Itoa (default 0 (uTeamID c)); Itoa (uAccountID c); Itoa (uAPIKeyID c);
     TrimSpace (uAccountType c); TrimSpace (uModel c); TrimSpace (uServiceTier c); TrimSpace (uReasoningEffort c);
     Itoa (uBillingType c); Itoa (uInputTokens c); Itoa (uOutputTokens c); Itoa (uCacheCreationTokens c);
     Itoa (uCacheReadTokens c); Itoa (uImageCount c); TrimSpace (uMediaType c);
     formatF10 (uBillableAmountUSD c); formatF10 (uBaseAmountUSD c); formatF10 (uSubscriptionRateMultiplier c);
     formatF10 (uSubscriptionRateMultiplierScale c); formatF10 (uBalanceRateMultiplier c);
     formatF10 (uAPIKeyQuotaCost c); formatF10 (uAPIKeyRateLimitCost c); formatF10 (uAccountQuotaCost c);
     uAPIKeyBillingMode c; Itoa (default 0 (uPreferredSubscriptionID c))] ++
    (if eqs payloadHash "" then [] else [payloadHash]))).

Definition NormalizeUsage `{UnicodeCase} `{BillingText} (c : UsageBillingCommand) : UsageBillingCommand :=
  let c := SetUsageRequestID (TrimSpace (uRequestID c)) c in
  let rawMode := TrimSpace (uAPIKeyBillingMode c) in
  let mode := default APIKeyBillingModeAuto (NormalizeAPIKeyBillingMode (uAPIKeyBillingMode c)) in
  let clearPreferred c := if eqs mode APIKeyBillingModeSubscription then c else SetUsagePreferred None c in
  let c := if eqs (TrimSpace (uRequestFingerprint c)) ""
           then SetUsageFingerprint (buildUsageBillingFingerprint
                  (clearPreferred (SetUsageMode (if eqs rawMode "" then ""%string else mode) c))) c
           else c in
  quantizeMonetaryFields (clearPreferred (SetUsageMode mode c)).

(** ** The plan of a settlement *)

Definition EffectiveBatchImageBalanceHoldAmount (c : BatchImageBalanceHoldCommand) : float64 :=
  if f64_gt (cBalanceHoldAmount c) f64_zero || negb (bool_decide (cSubscriptionHoldAllocations c = []))
  then f64_max (cBalanceHoldAmount c) f64_zero
  else f64_max (cHoldAmount c) f64_zero.

Definition heldSubscription (a : BillingAllocation) : bool :=
  eqs (AllocationType a) BillingAllocationTypeSubscription && f64_gt (AmountUSD a) f64_zero.

Definition TotalBatchImageHoldAmount (c : BatchImageBalanceHoldCommand) : float64 :=
  fold_left (λ total a, if heldSubscription a then f64_add total (AmountUSD a) else total)
    (cSubscriptionHoldAllocations c) (EffectiveBatchImageBalanceHoldAmount c).

(** The copies of the pointed-to identifiers are the same values. *)
Definition cloneBatchImageBillingAllocation (a : BillingAllocation) (amount : float64) : BillingAllocation :=
  mkAllocation (AllocationType a) amount (AllocationBaseAmountUSD a) (RateMultiplier a) (SubscriptionID a) (PlanID a).

(** The [continue] of the two loops. *)
Definition skipped (a : BillingAllocation) : bool :=
  negb (eqs (AllocationType a) BillingAllocationTypeSubscription) || f64_le (AmountUSD a) f64_zero
  || bool_decide (SubscriptionID a = None).

(** The variables of the loops: what is left of the cost, and the plan so far. *)
Record planLoop := mkLoop {
  remaining : float64;
  kept : list BillingAllocation;
  keptAmount : float64;
  released : list BillingAllocation;
}.

Definition startLoop (amount : float64) : planLoop := mkLoop amount [] f64_zero [].

(** The end of an iteration: release what the cost does not need. *)
Definition releaseRest (a : BillingAllocation) (keep : float64) (l : planLoop) : planLoop :=
  let rest := f64_sub (AmountUSD a) keep in
  if f64_gt rest batchImageCostEpsilon
  then mkLoop (remaining l) (kept l) (keptAmount l) (released l ++ [cloneBatchImageBillingAllocation a rest])
  else l.

Definition keepAmount (l : planLoop) (a : BillingAllocation) : planLoop :=
  if skipped a then l else
  let keep := f64_min (AmountUSD a) (remaining l) in
  releaseRest a keep
    (if f64_gt keep f64_zero
     then mkLoop (f64_sub (remaining l) keep) (kept l ++ [cloneBatchImageBillingAllocation a keep])
            (f64_add (keptAmount l) keep) (released l)
     else l).

Definition keepBaseAmount (settlementScale : float64) (l : planLoop) (a : BillingAllocation) : planLoop :=
  if skipped a then l else
  let rate := f64_mul (RateMultiplier a) settlementScale in
  if f64_le rate f64_zero then l else
  let keep := f64_min (AmountUSD a) (f64_mul (remaining l) rate) in
  releaseRest a keep
    (if f64_gt keep f64_zero
     then let base := f64_div keep rate in
          mkLoop (f64_sub (remaining l) base)
            (kept l ++ [mkAllocation (AllocationType a) keep base rate (SubscriptionID a) (PlanID a)])
            (f64_add (keptAmount l) keep) (released l)
     else l).

Definition balanceAllocation (amount base rate : float64) : BillingAllocation :=
  mkAllocation BillingAllocationTypeBalance amount base rate None None.

Definition planBatchImageBaseAmountCapture (c : BatchImageBalanceHoldCommand)
    : result ApplicationError BatchImageBillingCapturePlan :=
  let hold := EffectiveBatchImageBalanceHoldAmount c in
  let settlementScale := f64_max (cSettlementRateScale c) f64_zero in
  let l := fold_left (keepBaseAmount settlementScale) (cSubscriptionHoldAllocations c)
             (startLoop (f64_max (cActualBaseAmountUSD c) f64_zero)) in
  let balanceRate := f64_mul (f64_max (cBalanceRateMultiplier c) f64_zero) settlementScale in
  let balanceAmount := f64_mul (remaining l) balanceRate in
  if f64_gt (f64_sub balanceAmount hold) batchImageCostEpsilon then Err ErrBatchImageSettlementCostExceedsHold else
  let balance := f64_min balanceAmount hold in
  let '(allocations, remainingBase) :=
    if f64_gt balance f64_zero then
      let base := if f64_gt balanceRate f64_zero then f64_div balance balanceRate else f64_zero in
      (kept l ++ [balanceAllocation balance base balanceRate], f64_sub (remaining l) base)
    else (kept l, remaining l) in
  if f64_gt remainingBase batchImageCostEpsilon && f64_gt balanceRate f64_zero
  then Err ErrBatchImageSettlementCostExceedsHold
  else Ok (mkPlan hold (f64_add (keptAmount l) balance) (keptAmount l) balance allocations (released l)).

Definition PlanBatchImageBillingCapture (c : BatchImageBalanceHoldCommand)
    : result ApplicationError BatchImageBillingCapturePlan :=
  if (2 <=? cPricingSnapshotVersion c) && f64_gt (cBaseAmountUSD c) f64_zero then planBatchImageBaseAmountCapture c else
  let l := fold_left keepAmount (cSubscriptionHoldAllocations c) (startLoop (f64_max (cActualAmount c) f64_zero)) in
  let hold := EffectiveBatchImageBalanceHoldAmount c in
  if f64_gt (f64_sub (remaining l) hold) batchImageCostEpsilon then Err ErrBatchImageSettlementCostExceedsHold else
  let balance := f64_min (remaining l) hold in
  let allocations := if f64_gt balance f64_zero
                     then kept l ++ [balanceAllocation balance f64_zero f64_zero] else kept l in
  Ok (mkPlan hold (f64_add (keptAmount l) balance) (keptAmount l) balance allocations (released l)).

(** ** What a plan keeps and releases *)

(** The iterations of both loops, for one allocation. *)
Definition keptOf (a k : BillingAllocation) : Prop :=
  SubscriptionID k = SubscriptionID a ∧ PlanID k = PlanID a ∧ AllocationType k = AllocationType a ∧
  f64_gt (AmountUSD k) (AmountUSD a) = false ∧ f64_gt (AmountUSD k) f64_zero = true.

Definition releasedOf (a r : BillingAllocation) : Prop :=
  ∃ keep, r = cloneBatchImageBillingAllocation a (f64_sub (AmountUSD a) keep) ∧
    f64_gt keep (AmountUSD a) = false ∧ f64_gt (AmountUSD r) batchImageCostEpsilon = true.

Definition boundedLoop (held : list BillingAllocation) (l : planLoop) : Prop :=
  Forall (λ k, ∃ a, a ∈ held ∧ skipped a = false ∧ keptOf a k) (kept l) ∧
  Forall (λ r, ∃ a, a ∈ held ∧ skipped a = false ∧ releasedOf a r) (released l).

Lemma releaseRest_bounded held a keep l :
  a ∈ held → skipped a = false → f64_gt keep (AmountUSD a) = false → boundedLoop held l →
  boundedLoop held (releaseRest a keep l).
Proof.
  intros Ha Hs Hk Hl. unfold releaseRest. cbv zeta. destruct (f64_gt (f64_sub _ _) _) eqn:E; [|exact Hl]. destruct Hl. split; [done|].
  cbn [released]. apply Forall_app. split; [done|]. apply Forall_singleton. exists a. split_and!; try done. by exists keep.
Qed.

Lemma keep_bounded held a l r base rate :
  a ∈ held → skipped a = false → f64_gt (AmountUSD r) (AmountUSD a) = false → f64_gt (AmountUSD r) f64_zero = true →
  r = mkAllocation (AllocationType a) (AmountUSD r) base rate (SubscriptionID a) (PlanID a) →
  boundedLoop held l → ∀ rest amount, boundedLoop held (mkLoop rest (kept l ++ [r]) amount (released l)).
Proof.
  intros Ha Hs Hk Hp E [H1 H2] rest amount. split; [|done]. cbn [kept]. apply Forall_app. split; [done|].
  apply Forall_singleton. exists a. rewrite E. split_and!; try done.
Qed.

Lemma fold_bounded held (step : planLoop → BillingAllocation → planLoop) l :
  (∀ l a, a ∈ held → boundedLoop held l → boundedLoop held (step l a)) →
  boundedLoop held l → boundedLoop held (fold_left step held l).
Proof.
  intros Hstep.
  assert (Hall : ∀ rest, rest ⊆ held → ∀ l, boundedLoop held l → boundedLoop held (fold_left step rest l)); [|by apply Hall].
  induction rest as [|a rest IH]; intros Hsub m Hm; [done|]. cbn [fold_left].
  apply IH; [set_solver|]. apply Hstep; [set_solver | done].
Qed.

Lemma keepAmount_bounded held l a : a ∈ held → boundedLoop held l → boundedLoop held (keepAmount l a).
Proof.
  intros Ha Hl. unfold keepAmount. destruct (skipped a) eqn:Es; [done|]. cbv zeta.
  apply releaseRest_bounded; [done..|apply f64_min_l|].
  destruct (f64_gt (f64_min _ _) f64_zero) eqn:Ep; [|done].
  eapply keep_bounded; [done..|apply f64_min_l|exact Ep|reflexivity|done].
Qed.

Lemma keepBaseAmount_bounded scale held l a :
  a ∈ held → boundedLoop held l → boundedLoop held (keepBaseAmount scale l a).
Proof.
  intros Ha Hl. unfold keepBaseAmount. destruct (skipped a) eqn:Es; [done|]. cbv zeta.
  destruct (f64_le _ f64_zero); [done|].
  apply releaseRest_bounded; [done..|apply f64_min_l|].
  destruct (f64_gt (f64_min _ _) f64_zero) eqn:Ep; [|done].
  eapply keep_bounded; [done..|apply f64_min_l|exact Ep|reflexivity|done].
Qed.

(** In the plan by amounts, usage is released only once the cost is covered. *)
Definition coveredLoop (l : planLoop) : Prop := released l = [] ∨ f64_gt (remaining l) f64_zero = false.

Lemma keepAmount_covered l a : coveredLoop l → coveredLoop (keepAmount l a).
Proof.
  unfold coveredLoop, keepAmount. intros Hl. destruct (skipped a); [done|]. cbv zeta. unfold releaseRest.
  set (keep := f64_min (AmountUSD a) (remaining l)).
  assert (Hrest : ∀ x, f64_gt (f64_sub x x) f64_zero = false ∧ f64_gt (f64_sub x x) batchImageCostEpsilon = false).
  { intros x. by destruct (f64_sub_self x) as [-> | ->]. }
  destruct (f64_gt (remaining l) f64_zero) eqn:Er.
  - destruct Hl as [Hl|Hl]; [|done].
    destruct (f64_min_cases (AmountUSD a) (remaining l)) as [E|[E|E]]; fold keep in E.
    + rewrite E. rewrite (proj2 (Hrest (AmountUSD a))). left. by destruct (f64_gt (AmountUSD a) f64_zero).
    + right. rewrite E, Er. destruct (f64_gt _ batchImageCostEpsilon); cbn [remaining]; apply Hrest.
    + rewrite E. left. destruct (AmountUSD a) as [[]|[]| |[] ? ?]; done.
  - right. rewrite (f64_min_spent _ _ Er : f64_gt keep f64_zero = false).
    by destruct (f64_gt _ batchImageCostEpsilon).
Qed.

Lemma fold_covered held l : coveredLoop l → coveredLoop (fold_left keepAmount held l).
Proof. revert l. induction held as [|a held IH]; intros l Hl; [done|]. by apply IH, keepAmount_covered. Qed.


(** Safety.  When the cost is settled by amounts, the balance is charged only
    after every held subscription is used up: a plan that gives subscription
    usage back charges nothing to the balance. *)
Theorem subscriptions_before_balance c plan :
  (2 <=? cPricingSnapshotVersion c) && f64_gt (cBaseAmountUSD c) f64_zero = false →
  PlanBatchImageBillingCapture c = Ok plan → planReleases plan ≠ [] →
  f64_gt (planBalance plan) f64_zero = false.
Proof.
  intros Hv. unfold PlanBatchImageBillingCapture. rewrite Hv. cbv zeta. set (l := fold_left _ _ _).
  assert (Hl : coveredLoop l) by (apply fold_covered; by left).
  destruct (f64_gt (f64_sub _ _) batchImageCostEpsilon); [done|]. intros [= <-]; cbn [planReleases planBalance].
  intros Hr. destruct Hl as [Hl|Hl]; [done|].
  by apply f64_min_spent_l.
Qed.

(** A task that held 2.00 of a subscription and 3.00 of the balance. *)
Definition sampleHeld (actual : float64) : BatchImageBalanceHoldCommand :=
  SetActualAmount actual
    (mkHoldCommand "" 0 "" "" 1 0 None None "" None "b" (f64_of_Z 5) f64_zero 1 f64_zero f64_zero f64_zero f64_zero
       f64_zero f64_zero false (f64_of_Z 3)
       [mkAllocation BillingAllocationTypeSubscription (f64_of_Z 2) f64_zero f64_zero (Some 11) (Some 4)] true true 0).

Definition samplePlan (actual : float64) : BatchImageBillingCapturePlan :=
  match PlanBatchImageBillingCapture (sampleHeld actual) with Ok plan => plan | Err _ => mkPlan f64_zero f64_zero f64_zero f64_zero [] [] end.


Lemma subscriptions_before_balance_witness :
  map AmountUSD (planReleases (samplePlan (f64_of_Z 1))) = [f64_of_Z 1] ∧
  f64_gt (planBalance (samplePlan (f64_of_Z 1))) f64_zero = false.
Proof.
  split; [by vm_compute|]. apply (subscriptions_before_balance (sampleHeld (f64_of_Z 1))); [reflexivity | by vm_compute|].
  by vm_compute.
Defined.
