(* ===== verification/BillingDB.v ===== *)
(** * The tables of usage billing

    The columns that [repository/usage_billing_repo.go] reads and writes, the
    NUMERIC arithmetic of PostgreSQL, and transactions.

    - A NUMERIC(20,8) column is a [Z] in units of 10^-8, a NUMERIC(20,10) column
      in units of 10^-10; a statement computes in [Q] and rounds half away from
      zero when it stores.  Overflow of the 20 digits is not modelled.
    - The driver sends a float64 as a decimal ([sqlParam]) and reads a NUMERIC as
      the nearest float64 ([sqlScan]).  An infinite or NaN amount has no decimal:
      a statement that receives one fails.  (PostgreSQL stores a NaN; the
      amounts of the code are products of finite prices.)
    - A transaction is a function of the tables: an error discards every change
      ([Tx]).  The rows it locks belong to it until it ends, so committed
      transactions are serial.
    - Instants of the zone of the session and of the application come from
      [SQLCalendar], [Calendar] and [GoWeek]. *)

From Stdlib Require Export QArith Qround.
From S2P Require Import Prelude GoRuntime Domain AppErrors UsageBilling.
#[local] Open Scope Z_scope.

(** ** NUMERIC *)

Class SQLNumeric := {
  sqlParam : float64 → option Q;
  sqlScan : Q → float64;
}.

Definition units8 : positive := 100000000.
Definition units10 : positive := 10000000000.

Definition col8 (v : Z) : Q := v # units8.
Definition col10 (v : Z) : Q := v # units10.

Definition roundHalfAway (q : Q) : Z := if Qle_bool 0 q then Qfloor (q + (1 # 2)) else - Qfloor (- q + (1 # 2)).
Definition store8 (q : Q) : Z := roundHalfAway (q * inject_Z (Zpos units8)).
Definition store10 (q : Q) : Z := roundHalfAway (q * inject_Z (Zpos units10)).

(** A decimal with at most eight fractional digits. *)
Definition onScale8 (q : Q) (n : Z) : Prop := (q == col8 n)%Q.

Definition normalizeBatchImageBalanceAmount (amount : float64) : float64 :=
  let e8 := f64_of_Z 100000000 in f64_div (f64_round (f64_mul amount e8)) e8.

(** The shortest decimal of a float64 is what the driver sends, so an amount
    that was rounded to eight decimals arrives with at most eight. *)
Class SQLNumericLaws `{SQLNumeric} `{BillingText} : Prop := {
  sqlParam_normalized v q : sqlParam (normalizeBatchImageBalanceAmount v) = Some q → ∃ n, onScale8 q n;
  sqlParam_quantized v q : sqlParam (QuantizeUsageBillingAmount v) = Some q → ∃ n, onScale8 q n;
  sqlParam_zero q : sqlParam f64_zero = Some q → (q == 0)%Q;
  sqlParam_nonneg v q : sqlParam v = Some q → f64_le v f64_zero = false → (0 <= q)%Q;
  sqlParam_quantized_nonneg v q :
    sqlParam (QuantizeUsageBillingAmount v) = Some q → f64_gt v f64_zero = true → (0 <= q)%Q;
}.

(** ** Calendars *)

Class SQLCalendar := {
  sqlDay : Time → Time;                     (* date_trunc('day', t) *)
  sqlPlusDays : Time → Z → Time;            (* t + INTERVAL 'n days' *)
  sqlPlusMonth : Time → Time;               (* t + INTERVAL '1 month' *)
  sqlDow : string → Time → Z;               (* EXTRACT(DOW FROM t AT TIME ZONE tz) *)
  sqlLocal : string → Time → Z → Z → Time;  (* (date_trunc('day', t AT TIME ZONE tz) + hours + days) AT TIME ZONE tz *)
}.

(** [time.Date] in the configured zone: midnight of a day relative to that of
    [t], and of the first day of its month. *)
Class GoWeek := {
  Weekday : Time → Z;
  DayAt : Time → Z → Time;
  MonthStart : Time → Time;
}.

Definition StartOfWeek `{GoWeek} (t : Time) : Time :=
  let weekday := if Weekday t =? 0 then 7 else Weekday t in DayAt t (1 - weekday).

Definition StartOfMonth `{GoWeek} (t : Time) : Time := MonthStart t.

(** ** Rows *)

Record userRow := mkUserRow { balance : Z; frozen : Z; userDeleted : bool }.

Record subscriptionRow := mkSubscriptionRow {
  subUser : Z;
  subPlan : Z;
  subStatus : string;
  subStartsAt : Time;
  subExpiresAt : Time;
  subDailyStart : option Time;
  subWeeklyStart : option Time;
  subMonthlyStart : option Time;
  subDailyLimit : option Z;    (* units8 *)
  subWeeklyLimit : option Z;
  subMonthlyLimit : option Z;
  subDailyUsage : Z;           (* units10 *)
  subWeeklyUsage : Z;
  subMonthlyUsage : Z;
  subDeleted : bool;
}.

Record apiKeyRow := mkApiKeyRow {
  keyStatus : string;
  teamOwnerDisabled : bool;
  quota : Z;
  quotaUsed : Z;
  rateLimit5h : Z;
  rateLimit1d : Z;
  rateLimit7d : Z;
  usage5h : Z;
  usage1d : Z;
  usage7d : Z;
  window5hStart : option Time;
  window1dStart : option Time;
  window7dStart : option Time;
  keyDeleted : bool;
}.

Record memberRow := mkMemberRow {
  memberTeam : Z;
  memberUser : Z;
  memberRole : string;
  memberDailyLimit : Z;        (* units8 *)
  memberWeeklyLimit : Z;
  memberMonthlyLimit : Z;
  memberDailyUsage : Z;        (* units10 *)
  memberWeeklyUsage : Z;
  memberMonthlyUsage : Z;
  memberDailyStart : option Time;
  memberWeeklyStart : option Time;
  memberMonthlyStart : option Time;
  joinedAt : Time;
  leftAt : option Time;
}.

(** The keys of [accounts.extra] that the quota statement uses; an absent key is
    [None].  Quantities are JSON numbers of any scale. *)
Record accountQuota := mkAccountQuota {
  aqUsed : option Q;
  aqLimit : option Q;
  aqDailyUsed : option Q;
  aqDailyLimit : option Q;
  aqDailyStart : option Time;
  aqDailyResetAt : option Time;
  aqDailyResetMode : option string;
  aqDailyResetHour : option Z;
  aqWeeklyUsed : option Q;
  aqWeeklyLimit : option Q;
  aqWeeklyStart : option Time;
  aqWeeklyResetAt : option Time;
  aqWeeklyResetMode : option string;
  aqWeeklyResetHour : option Z;
  aqWeeklyResetDay : option Z;
  aqTimezone : option string;
  aqDeleted : bool;
}.

(** The billing columns of [creative_runs] and [batch_image_jobs]. *)
Record entityRow := mkEntityRow {
  entBalanceHold : Z;          (* units10 *)
  entAllocations : list BillingAllocation;
  entHold : option Z;
  entEstimated : Z;
  entAllowanceReserved : bool;
}.

Record billingDB := mkBillingDB {
  users : gmap Z userRow;
  dedup : gmap (string * Z) string;
  dedupArchive : gmap (string * Z) string;
  subscriptions : gmap Z subscriptionRow;
  planGroups : gmap Z (gmap Z (option float64));  (* plan, group, rate_multiplier *)
  apiKeys : gmap Z apiKeyRow;
  members : gmap Z memberRow;
  accounts : gmap Z accountQuota;
  entities : gmap (bool * string) entityRow;      (* creative entity?, identifier *)
  accountChanged : list Z;                        (* pending account_changed events *)
}.

Definition etaDB (d : billingDB) : billingDB :=
  mkBillingDB (users d) (dedup d) (dedupArchive d) (subscriptions d) (planGroups d) (apiKeys d) (members d)
    (accounts d) (entities d) (accountChanged d).

Definition withUsers v d : billingDB := ltac:(set_field etaDB d users v).
Definition withDedup v d : billingDB := ltac:(set_field etaDB d dedup v).
Definition withSubscriptions v d : billingDB := ltac:(set_field etaDB d subscriptions v).
Definition withKeys v d : billingDB := ltac:(set_field etaDB d apiKeys v).
Definition withMembers v d : billingDB := ltac:(set_field etaDB d members v).
Definition withAccounts v d : billingDB := ltac:(set_field etaDB d accounts v).
Definition withEntities v d : billingDB := ltac:(set_field etaDB d entities v).
Definition withAccountChanged v d : billingDB := ltac:(set_field etaDB d accountChanged v).

(** ** Transactions *)

Definition Tx (A : Type) : Type := billingDB → result goError (A * billingDB).

Definition txRet {A} (a : A) : Tx A := λ d, Ok (a, d).
Definition txFail {A} (e : goError) : Tx A := λ _, Err e.
Definition txBind {A B} (m : Tx A) (f : A → Tx B) : Tx B :=
  λ d, match m d with Ok (a, d') => f a d' | Err e => Err e end.
Definition txGet : Tx billingDB := λ d, Ok (d, d).
Definition txPut (d : billingDB) : Tx unit := λ _, Ok (tt, d).
Definition txModify (f : billingDB → billingDB) : Tx unit := λ d, Ok (tt, f d).
Definition txError {A} (e : ApplicationError) : Tx A := txFail (AppErr e).

Declare Scope tx_scope.
Delimit Scope tx_scope with tx.
Notation "'let*' x ':=' m 'in' f" := (txBind m (λ x, f))
  (at level 10, x name, m at level 100, f at level 200) : tx_scope.
Notation "'do*' m 'in' f" := (txBind m (λ _, f)) (at level 10, m at level 100, f at level 200) : tx_scope.
#[local] Open Scope tx_scope.

(** A float64 argument of a statement. *)
Definition param `{SQLNumeric} (v : float64) : Tx Q :=
  match sqlParam v with
  | Some q => txRet q
  | None => txFail (OtherErr "numeric parameter out of range" [])
  end.

Lemma txBind_Ok {A B} (m : Tx A) (f : A → Tx B) d b d' :
  txBind m f d = Ok (b, d') → ∃ a d1, m d = Ok (a, d1) ∧ f a d1 = Ok (b, d').
Proof. unfold txBind. destruct (m d) as [[a d1]|e]; [intros H; by exists a, d1 | done]. Qed.

(** ** Rounding *)

Lemma roundHalfAway_int n : roundHalfAway (inject_Z n) = n.
Proof.
  unfold roundHalfAway. destruct (Qle_bool 0 (inject_Z n)) eqn:E.
  - unfold Qfloor, inject_Z, Qplus; cbn [Qnum Qden]. symmetry. apply Z.div_unique with 1; lia.
  - assert (H : Qfloor (- inject_Z n + (1 # 2)) = - n); [|lia].
    unfold Qfloor, inject_Z, Qplus, Qopp; cbn [Qnum Qden]. symmetry. apply Z.div_unique with 1; lia.
Qed.

#[export] Instance roundHalfAway_proper : Proper (Qeq ==> eq) roundHalfAway.
Proof.
  intros p q E. unfold roundHalfAway.
  assert (Hb : Qle_bool 0 p = Qle_bool 0 q).
  { apply eq_iff_eq_true. rewrite !Qle_bool_iff. by rewrite E. }
  rewrite Hb. destruct (Qle_bool 0 q); [|f_equal]; apply Qfloor_comp; by rewrite E.
Qed.

(** Adding an amount with eight decimals to a column is exact. *)
Lemma store8_add b n q : onScale8 q n → store8 (col8 b + q)%Q = b + n.
Proof.
  intros E. unfold store8. transitivity (roundHalfAway (inject_Z (b + n))); [|apply roundHalfAway_int].
  apply roundHalfAway_proper. unfold onScale8 in E. rewrite E. unfold Qeq, col8, inject_Z; simpl. lia.
Qed.

Lemma store8_sub b n q : onScale8 q n → store8 (col8 b - q)%Q = b - n.
Proof.
  intros E. replace (b - n) with (b + - n) by lia. apply store8_add.
  unfold onScale8, col8 in *. rewrite E. unfold Qeq; simpl. lia.
Qed.

Lemma onScale8_le b n q : onScale8 q n → Qle_bool q (col8 b) = (n <=? b).
Proof.
  intros E. apply eq_iff_eq_true. rewrite Qle_bool_iff, Z.leb_le. unfold onScale8 in E. rewrite E.
  unfold Qle, col8, units8; cbn [Qnum Qden]. split; lia.
Qed.

Lemma onScale8_ge b n q : onScale8 q n → Qle_bool (col8 b) q = (b <=? n).
Proof.
  intros E. apply eq_iff_eq_true. rewrite Qle_bool_iff, Z.leb_le. unfold onScale8 in E. rewrite E.
  unfold Qle, col8, units8; cbn [Qnum Qden]. split; lia.
Qed.

(** ** A concrete driver

    Instances that satisfy the laws: amounts in whole units of 10^-8, plain
    texts, and the calendar of UTC with months of 30 days. *)

Definition unitsOfFloat (v : float64) : option Z :=
  match v with
  | S754_zero _ => Some 0
  | S754_finite s m e =>
      let q := if 0 <=? e then inject_Z (Zpos m * 2 ^ e) else (Zpos m # Z.to_pos (2 ^ (- e)))%Q in
      Some (if s then - store8 q else store8 q)
  | _ => None
  end.

Definition decimal8 : SQLNumeric := {|
  sqlParam v := col8 <$> unitsOfFloat v;
  sqlScan q := f64_div (f64_of_Z (Qnum q)) (f64_of_Z (Zpos (Qden q)));
|}.

Definition plainText : BillingText := {|
  sha256Hex s := s;
  formatF10 v := match unitsOfFloat v with Some n => Itoa n | None => "NaN"%string end;
  formatRFC3339Nano t := Itoa t;
  decimalRound8 v := v;
|}.

Definition utcSQL : SQLCalendar := {|
  sqlDay t := t / (24 * Hour) * (24 * Hour);
  sqlPlusDays t n := t + n * (24 * Hour);
  sqlPlusMonth t := t + 30 * (24 * Hour);
  sqlDow _ t := (t / (24 * Hour) + 1) mod 7;
  sqlLocal _ t hours days := t / (24 * Hour) * (24 * Hour) + hours * Hour + days * (24 * Hour);
|}.

Definition utcWeek : GoWeek := {|
  Weekday t := (t / (24 * Hour) + 1) mod 7;
  DayAt t n := t / (24 * Hour) * (24 * Hour) + n * (24 * Hour);
  MonthStart t := t / (30 * 24 * Hour) * (30 * 24 * Hour);
|}.

Lemma roundHalfAway_nonneg q : (0 <= q)%Q → 0 <= roundHalfAway q.
Proof.
  intros Hq. unfold roundHalfAway. rewrite (proj2 (Qle_bool_iff 0 q) Hq).
  change 0 with (Qfloor (inject_Z 0)). apply Qfloor_resp_le. apply Qle_trans with q; [done|].
  rewrite <- (Qplus_0_r q) at 1. by apply Qplus_le_r.
Qed.

Lemma unitsOfFloat_nonneg v n : unitsOfFloat v = Some n → f64_le v f64_zero = false → 0 <= n.
Proof.
  destruct v as [s|s| |s m e]; [by intros [= <-]|done|done|]. destruct s; [done|]. cbn [unitsOfFloat]. intros [= <-] _.
  apply roundHalfAway_nonneg. apply Qmult_le_0_compat; [|done].
  destruct (0 <=? e) eqn:He; [|done]. apply Z.leb_le in He. unfold inject_Z, Qle; cbn. pose proof (Z.pow_nonneg 2 e). lia.
Qed.

Lemma decimal8_laws : @SQLNumericLaws decimal8 plainText.
Proof.
  assert (Hscale : ∀ v q, sqlParam (SQLNumeric := decimal8) v = Some q → ∃ n, unitsOfFloat v = Some n ∧ q = col8 n).
  { intros v q. cbn [sqlParam decimal8]. destruct (unitsOfFloat v) as [n|]; [|done]. intros [= <-]. by exists n. }
  assert (Hsign : ∀ v q, sqlParam (SQLNumeric := decimal8) v = Some q → f64_le v f64_zero = false → (0 <= q)%Q).
  { intros v q (n & Hn & ->)%Hscale Hv. apply (unitsOfFloat_nonneg v n) in Hn; [|done]. unfold col8, Qle; cbn. lia. }
  split.
  - intros v q (n & _ & ->)%Hscale. by exists n.
  - intros v q (n & _ & ->)%Hscale. by exists n.
  - intros q (n & [= <-] & ->)%Hscale. done.
  - exact Hsign.
  - intros v q E Hv. apply (Hsign v); [|by apply f64_gt_not_le].
    revert E. unfold QuantizeUsageBillingAmount; cbn [decimalRound8 plainText]. by destruct (_ || _).
Qed.
