(* ===== verification/BillingAllowance.v ===== *)
(** * Subscription windows and allowances of a charge

    The statements of [repository/usage_billing_repo.go] that move usage between
    the quota windows of subscriptions, API keys, team members and accounts.
    [dbNow] is [NOW()] of the transaction, [now] is [time.Now()] of the
    application. *)

From S2P Require Import Prelude GoRuntime Domain AppErrors UsageBilling BillingDB.
#[local] Open Scope Z_scope.
#[local] Open Scope tx_scope.

Definition ErrSubscriptionNotFound := NotFound "SUBSCRIPTION_NOT_FOUND" "subscription not found".
Definition ErrPreferredSubscriptionInvalid :=
  Forbidden "PREFERRED_SUBSCRIPTION_INVALID" "preferred subscription is unavailable".
Definition ErrPreferredSubscriptionInsufficient :=
  TooManyRequests "PREFERRED_SUBSCRIPTION_EXHAUSTED" "preferred subscription has insufficient remaining quota".
Definition ErrAPIKeyNotFound := NotFound "API_KEY_NOT_FOUND" "api key not found".
Definition ErrAPIKeyQuotaExhausted := TooManyRequests "API_KEY_QUOTA_EXHAUSTED" "api key 额度已用完".
Definition ErrAPIKeyRateLimit5hExceeded := TooManyRequests "API_KEY_RATE_5H_EXCEEDED" "api key 5小时限额已用完".
Definition ErrAPIKeyRateLimit1dExceeded := TooManyRequests "API_KEY_RATE_1D_EXCEEDED" "api key 日限额已用完".
Definition ErrAPIKeyRateLimit7dExceeded := TooManyRequests "API_KEY_RATE_7D_EXCEEDED" "api key 7天限额已用完".
Definition ErrTeamMembershipRequired := Forbidden "TEAM_MEMBERSHIP_REQUIRED" "需要先加入团队".
Definition ErrTeamMemberDailyExceeded := TooManyRequests "TEAM_MEMBER_DAILY_LIMIT_EXCEEDED" "团队成员日限额已用完".
Definition ErrTeamMemberWeeklyExceeded := TooManyRequests "TEAM_MEMBER_WEEKLY_LIMIT_EXCEEDED" "团队成员周限额已用完".
Definition ErrTeamMemberMonthlyExceeded := TooManyRequests "TEAM_MEMBER_MONTHLY_LIMIT_EXCEEDED" "团队成员月限额已用完".
Definition ErrAccountNotFound := NotFound "ACCOUNT_NOT_FOUND" "account not found".

Definition StatusAPIKeyActive : string := "active".
Definition StatusAPIKeyQuotaExhausted : string := "quota_exhausted".
Definition TeamRoleOwner : string := "owner".
Definition TeamRoleMember : string := "member".

Definition f64_one : float64 := f64_of_Z 1.

(** [GREATEST(0, q)]. *)
Definition atLeastZero (q : Q) : Q := if Qle_bool 0 q then q else 0%Q.

(** ** Subscriptions *)

Record usageBillingSubscriptionRow := mkBillingRow {
  rowID : Z;
  rowPlanID : Z;
  rowStartsAt : Time;
  rowExpiresAt : Time;
  rowDailyStart : option Time;
  rowWeeklyStart : option Time;
  rowMonthlyStart : option Time;
  rowDailyLimit : option float64;
  rowWeeklyLimit : option float64;
  rowMonthlyLimit : option float64;
  rowDailyUsage : float64;
  rowWeeklyUsage : float64;
  rowMonthlyUsage : float64;
  rowGroupRates : Z → option float64;  (* parseInt64Float64JSONMap of the aggregated rates *)
}.

Definition usageBillingUsesBaseAmount (c : UsageBillingCommand) : bool := f64_gt (uBaseAmountUSD c) f64_zero.

Definition usageBillingNonNegativeRate (rate : float64) : float64 := if f64_lt rate f64_zero then f64_zero else rate.

Definition usageBillingSubscriptionRateMultiplier (row : usageBillingSubscriptionRow) (groupID : option Z)
    (defaultRate scale : float64) : float64 :=
  let rate :=
    match groupID with
    | Some g =>
        if 0 <? g then
          match rowGroupRates row g with
          | Some value =>
              if f64_gt value f64_zero
              then f64_mul value (if f64_le scale f64_zero then f64_one else scale) else defaultRate
          | None => defaultRate
          end
        else defaultRate
    | None => defaultRate
    end in
  usageBillingNonNegativeRate rate.

Definition hasFiniteUsageBillingLimit (limit : option float64) : bool :=
  match limit with Some l => f64_gt l f64_zero | None => false end.

Definition canStartUsageBillingWindow (windowStart : Time) (duration : Duration) (expiresAt : Time)
    (hasFiniteOuterLimit : bool) : bool :=
  if IsZero expiresAt || (duration <=? 0) || negb (Before windowStart expiresAt) then false
  else hasFiniteOuterLimit || negb (After (Add windowStart duration) expiresAt).

Definition unset (windowStart : option Time) : bool :=
  match windowStart with None => true | Some t => IsZero t end.

Definition windowRemaining (limit : option float64) (used : float64) : option float64 :=
  match limit with
  | None => None
  | Some l =>
      if f64_le l f64_zero then None else
      let rest := f64_sub l used in Some (if f64_lt rest f64_zero then f64_zero else rest)
  end.

Definition smaller (found : option float64) (value : option float64) : option float64 :=
  match value, found with
  | None, _ => found
  | Some v, None => Some v
  | Some v, Some m => if f64_lt v m then Some v else found
  end.

Definition usageBillingSubscriptionAvailable (unlimitedAmount : float64) (values : list (option float64)) : float64 :=
  default unlimitedAmount (fold_left smaller values None).

Section charge.
Context `{SQLNumeric} `{Calendar} `{SQLCalendar} `{GoWeek} (dbNow now : Time).

Definition normalizeUsageBillingWindow (windowStart : option Time) (limit : option float64) (used : float64)
    (resetStart : Time) (duration : Duration) (startsAt expiresAt : Time) (hasFiniteOuterLimit : bool)
    : option Time * float64 :=
  if match limit with Some l => f64_le l f64_zero | None => true end then (windowStart, used) else
  if (duration =? 24 * Hour) && negb (After expiresAt (NextDay startsAt)) then
    if unset windowStart then (Some resetStart, f64_zero) else (windowStart, used)
  else if negb (canStartUsageBillingWindow resetStart duration expiresAt hasFiniteOuterLimit) then
    if unset windowStart then (None, used) else (windowStart, used)
  else
    match windowStart with
    | Some t => if IsZero t || negb (After (Add t duration) now) then (Some resetStart, f64_zero) else (windowStart, used)
    | None => (Some resetStart, f64_zero)
    end.

Definition normalizeUsageBillingSubscriptionRow (row : usageBillingSubscriptionRow) : usageBillingSubscriptionRow :=
  let windowStart := StartOfDay now in
  let dailyOuter := hasFiniteUsageBillingLimit (rowWeeklyLimit row) || hasFiniteUsageBillingLimit (rowMonthlyLimit row) in
  let weeklyOuter := hasFiniteUsageBillingLimit (rowMonthlyLimit row) in
  let window start limit used duration outer :=
    normalizeUsageBillingWindow start limit used windowStart duration (rowStartsAt row) (rowExpiresAt row) outer in
  let '(dailyStart, dailyUsage) := window (rowDailyStart row) (rowDailyLimit row) (rowDailyUsage row) (24 * Hour) dailyOuter in
  let '(weeklyStart, weeklyUsage) := window (rowWeeklyStart row) (rowWeeklyLimit row) (rowWeeklyUsage row) (7 * 24 * Hour) weeklyOuter in
  let '(monthlyStart, monthlyUsage) := window (rowMonthlyStart row) (rowMonthlyLimit row) (rowMonthlyUsage row) (30 * 24 * Hour) false in
  mkBillingRow (rowID row) (rowPlanID row) (rowStartsAt row) (rowExpiresAt row) dailyStart weeklyStart monthlyStart
    (rowDailyLimit row) (rowWeeklyLimit row) (rowMonthlyLimit row) dailyUsage weeklyUsage monthlyUsage (rowGroupRates row).

(** *** The query *)

Definition groupsOf (d : billingDB) (plan : Z) : gmap Z (option float64) := default ∅ (planGroups d !! plan).

Definition coversGroup (d : billingDB) (c : UsageBillingCommand) (r : subscriptionRow) : bool :=
  let unrestricted := bool_decide (groupsOf d (subPlan r) = ∅) in
  let ungrouped := if eqs (uAPIKeyBillingMode c) APIKeyBillingModeSubscription then unrestricted else true in
  match uGroupID c with
  | Some g =>
      if 0 <? g then bool_decide (is_Some (planGroups d !! subPlan r)) &&
                     (unrestricted || bool_decide (is_Some (groupsOf d (subPlan r) !! g)))
      else ungrouped
  | None => ungrouped
  end.

Definition usableSubscription (d : billingDB) (c : UsageBillingCommand) (id : Z) (r : subscriptionRow) : bool :=
  (subUser r =? uUserID c) && negb (subDeleted r) && (subStartsAt r <=? dbNow) && (dbNow <? subExpiresAt r)
  && (eqs (subStatus r) SubscriptionStatusActive || eqs (subStatus r) SubscriptionStatusPending)
  && match uPreferredSubscriptionID c with None => true | Some p => id =? p end
  && coversGroup d c r.

(** [ORDER BY expires_at, starts_at, id]. *)
Definition earlier (a b : Z * subscriptionRow) : Prop :=
  subExpiresAt (snd a) < subExpiresAt (snd b) ∨ subExpiresAt (snd a) = subExpiresAt (snd b) ∧
  (subStartsAt (snd a) < subStartsAt (snd b) ∨ subStartsAt (snd a) = subStartsAt (snd b) ∧ fst a <= fst b).
#[export] Instance earlier_dec : RelDecision earlier.
Proof. intros a b. unfold earlier. apply _. Defined.

Definition scanSubscription (d : billingDB) (id : Z) (r : subscriptionRow) : usageBillingSubscriptionRow :=
  mkBillingRow id (subPlan r) (subStartsAt r) (subExpiresAt r) (subDailyStart r) (subWeeklyStart r) (subMonthlyStart r)
    ((λ l, sqlScan (col8 l)) <$> subDailyLimit r) ((λ l, sqlScan (col8 l)) <$> subWeeklyLimit r)
    ((λ l, sqlScan (col8 l)) <$> subMonthlyLimit r)
    (sqlScan (col10 (subDailyUsage r))) (sqlScan (col10 (subWeeklyUsage r))) (sqlScan (col10 (subMonthlyUsage r)))
    (λ g, if g <=? 0 then None else mjoin (groupsOf d (subPlan r) !! g)).

Definition selectSubscriptions (d : billingDB) (c : UsageBillingCommand) : list usageBillingSubscriptionRow :=
  map (λ p, scanSubscription d (fst p) (snd p))
    (merge_sort earlier (List.filter (λ p, usableSubscription d c (fst p) (snd p)) (map_to_list (subscriptions d)))).

Definition updateUsageBillingSubscription (row : usageBillingSubscriptionRow) : Tx unit :=
  let* daily := param (rowDailyUsage row) in
  let* weekly := param (rowWeeklyUsage row) in
  let* monthly := param (rowMonthlyUsage row) in
  let* d := txGet in
  match subscriptions d !! rowID row with
  | Some r =>
      if subDeleted r then txError ErrSubscriptionNotFound else
      txPut (withSubscriptions (<[rowID row := mkSubscriptionRow (subUser r) (subPlan r) (subStatus r) (subStartsAt r)
        (subExpiresAt r) (rowDailyStart row) (rowWeeklyStart row) (rowMonthlyStart row) (subDailyLimit r)
        (subWeeklyLimit r) (subMonthlyLimit r) (store10 daily) (store10 weekly) (store10 monthly) false]>
        (subscriptions d)) d)
  | None => txError ErrSubscriptionNotFound
  end.

(** Lines 1062-1070: the usage of the limited windows grows. *)
Definition addUsage (row : usageBillingSubscriptionRow) (allocated : float64) : usageBillingSubscriptionRow :=
  let add limit used := if hasFiniteUsageBillingLimit limit then f64_add used allocated else used in
  mkBillingRow (rowID row) (rowPlanID row) (rowStartsAt row) (rowExpiresAt row) (rowDailyStart row) (rowWeeklyStart row)
    (rowMonthlyStart row) (rowDailyLimit row) (rowWeeklyLimit row) (rowMonthlyLimit row)
    (add (rowDailyLimit row) (rowDailyUsage row)) (add (rowWeeklyLimit row) (rowWeeklyUsage row))
    (add (rowMonthlyLimit row) (rowMonthlyUsage row)) (rowGroupRates row).

Definition rateOf (c : UsageBillingCommand) (row : usageBillingSubscriptionRow) : float64 :=
  if usageBillingUsesBaseAmount c then
    if uDisablePlanGroupRateMultiplier c then usageBillingNonNegativeRate (uSubscriptionRateMultiplier c)
    else usageBillingSubscriptionRateMultiplier row (uGroupID c) (uSubscriptionRateMultiplier c)
           (uSubscriptionRateMultiplierScale c)
  else f64_one.

(** The loop over the subscriptions: what is left of the amount, what the
    subscriptions cover, and the allocations. *)
Fixpoint allocateLoop (c : UsageBillingCommand) (rows : list usageBillingSubscriptionRow)
    (rest covered : float64) (allocations : list BillingAllocation) : Tx (float64 * float64 * list BillingAllocation) :=
  match rows with
  | [] => txRet (rest, covered, allocations)
  | row :: rows =>
      if f64_le rest f64_zero then txRet (rest, covered, allocations) else
      let row := normalizeUsageBillingSubscriptionRow row in
      let base := usageBillingUsesBaseAmount c in
      let rate := rateOf c row in
      if base && f64_le rate f64_zero then txRet (f64_zero, covered, allocations) else
      let billable := if base then f64_mul rest rate else rest in
      let available := usageBillingSubscriptionAvailable billable
        [windowRemaining (rowDailyLimit row) (rowDailyUsage row);
         windowRemaining (rowWeeklyLimit row) (rowWeeklyUsage row);
         windowRemaining (rowMonthlyLimit row) (rowMonthlyUsage row)] in
      if f64_le available f64_zero then allocateLoop c rows rest covered allocations else
      let allocated := f64_min billable available in
      if f64_le allocated f64_zero then allocateLoop c rows rest covered allocations else
      let coveredBase := if base then f64_div allocated rate else allocated in
      do* updateUsageBillingSubscription (addUsage row allocated) in
      allocateLoop c rows (f64_sub rest coveredBase) (f64_add covered allocated)
        (allocations ++ [mkAllocation BillingAllocationTypeSubscription allocated
           (if uIncludeAllocationPricing c then coveredBase else f64_zero)
           (if uIncludeAllocationPricing c then rate else f64_zero) (Some (rowID row)) (Some (rowPlanID row))])
  end.

Definition allocateUsageBillingSubscriptions (c : UsageBillingCommand)
    : Tx (float64 * float64 * list BillingAllocation) :=
  let amount := if usageBillingUsesBaseAmount c then uBaseAmountUSD c else uBillableAmountUSD c in
  if f64_le amount f64_zero then txRet (f64_zero, f64_zero, []) else
  if eqs (uAPIKeyBillingMode c) APIKeyBillingModeBalance then txRet (amount, f64_zero, []) else
  if eqs (uAPIKeyBillingMode c) APIKeyBillingModeSubscription
     && match uPreferredSubscriptionID c with Some p => p <=? 0 | None => true end
  then txError ErrPreferredSubscriptionInvalid else
  let* d := txGet in
  let rows := selectSubscriptions d c in
  if eqs (uAPIKeyBillingMode c) APIKeyBillingModeSubscription && bool_decide (length rows = 0%nat)
  then txError ErrPreferredSubscriptionInsufficient else
  allocateLoop c rows amount f64_zero [].

(** [releaseBatchImageSubscriptionAllocations]: one iteration. *)
Definition inWindow (start : option Time) (stop : Time → Time) (t : Time) : bool :=
  match start with Some s => (s <=? t) && (t <? stop s) | None => false end.

Definition giveBack (limit : option Z) (start : option Time) (days : Z) (t : Time) (amount : Q) (used : Z) : Z :=
  if match limit with Some l => 0 <? l | None => false end
     && inWindow start (λ s, if days =? 1 then s + 24 * Hour else sqlPlusDays s days) t
  then store10 (atLeastZero (col10 used - amount)) else used.

Definition releaseAllocation (userID : Z) (reservedAt : Time) (a : BillingAllocation) : Tx unit :=
  if skipped a then txRet tt else
  let* amount := param (AmountUSD a) in
  let* d := txGet in
  let id := default 0 (SubscriptionID a) in
  match subscriptions d !! id with
  | Some r =>
      if negb (subUser r =? userID) then txError ErrSubscriptionNotFound else
      txPut (withSubscriptions (<[id := mkSubscriptionRow (subUser r) (subPlan r) (subStatus r) (subStartsAt r)
        (subExpiresAt r) (subDailyStart r) (subWeeklyStart r) (subMonthlyStart r) (subDailyLimit r) (subWeeklyLimit r)
        (subMonthlyLimit r)
        (giveBack (subDailyLimit r) (subDailyStart r) 1 reservedAt amount (subDailyUsage r))
        (giveBack (subWeeklyLimit r) (subWeeklyStart r) 7 reservedAt amount (subWeeklyUsage r))
        (giveBack (subMonthlyLimit r) (subMonthlyStart r) 30 reservedAt amount (subMonthlyUsage r)) (subDeleted r)]>
        (subscriptions d)) d)
  | None => txError ErrSubscriptionNotFound
  end.

Fixpoint releaseBatchImageSubscriptionAllocations (userID : Z) (reservedAt : Time) (l : list BillingAllocation) : Tx unit :=
  match l with
  | [] => txRet tt
  | a :: l => do* releaseAllocation userID reservedAt a in releaseBatchImageSubscriptionAllocations userID reservedAt l
  end.
(** ** API keys *)

(** A window that is unset or over at [t]. *)
Definition over (start : option Time) (stop : Time → Time) (t : Time) : bool :=
  match start with Some s => stop s <=? t | None => true end.

Definition end5h (s : Time) : Time := s + 5 * Hour.
Definition end1d (s : Time) : Time := s + 24 * Hour.
Definition end7d (s : Time) : Time := sqlPlusDays s 7.

(** [limit <= 0 OR used + amount <= limit]. *)
Definition fits8 (limit : Z) (used amount : Q) : bool := (limit <=? 0) || Qle_bool (used + amount) (col8 limit).

Definition effective8 (isOver : bool) (used : Z) : Q := if isOver then 0%Q else col8 used.

Definition keyAllows (k : apiKeyRow) (amount : Q) (t : Time) : bool :=
  negb (keyDeleted k) && eqs (keyStatus k) StatusAPIKeyActive && negb (teamOwnerDisabled k)
  && fits8 (quota k) (col8 (quotaUsed k)) amount
  && fits8 (rateLimit5h k) (effective8 (over (window5hStart k) end5h t) (usage5h k)) amount
  && fits8 (rateLimit1d k) (effective8 (over (window1dStart k) end1d t) (usage1d k)) amount
  && fits8 (rateLimit7d k) (effective8 (over (window7dStart k) end7d t) (usage7d k)) amount.

(** The usage counters after a charge at [t]; an unset or ended window restarts. *)
Definition chargeKey (status : string) (used : Q) (amount : Q) (t : Time) (k : apiKeyRow) : apiKeyRow :=
  let usage isOver u := if isOver : bool then store8 amount else store8 (col8 u + amount) in
  let o5h := over (window5hStart k) end5h t in
  let o1d := over (window1dStart k) end1d t in
  let o7d := over (window7dStart k) end7d t in
  mkApiKeyRow status (teamOwnerDisabled k) (quota k) (store8 used) (rateLimit5h k) (rateLimit1d k) (rateLimit7d k)
    (usage o5h (usage5h k)) (usage o1d (usage1d k)) (usage o7d (usage7d k))
    (if o5h then Some t else window5hStart k) (if o1d then Some (sqlDay t) else window1dStart k)
    (if o7d then Some (sqlDay t) else window7dStart k) (keyDeleted k).

(** [quota > 0 AND q >= quota]. *)
Definition reaches (limit : Z) (q : Q) : bool := (0 <? limit) && Qle_bool (col8 limit) q.

Definition effectiveSQLWindowUsage (usage : float64) (start : option Time) (duration : Duration) : float64 :=
  match start with
  | Some s => if negb (After (Add s duration) now) then f64_zero else usage
  | None => f64_zero
  end.

Definition batchImageAPIKeyAllowanceError (apiKeyID : Z) (amount : float64) : Tx unit :=
  let* d := txGet in
  let scan v := sqlScan (col8 v) in
  match apiKeys d !! apiKeyID with
  | Some k =>
      let exceeds limit used := f64_gt (scan limit) f64_zero && f64_gt (f64_add used amount) (scan limit) in
      if keyDeleted k then txError ErrAPIKeyNotFound
      else if teamOwnerDisabled k || negb (eqs (keyStatus k) StatusAPIKeyActive) then
        txError (if eqs (keyStatus k) StatusAPIKeyQuotaExhausted then ErrAPIKeyQuotaExhausted else ErrAPIKeyNotFound)
      else if exceeds (quota k) (scan (quotaUsed k)) then txError ErrAPIKeyQuotaExhausted
      else if exceeds (rateLimit5h k) (effectiveSQLWindowUsage (scan (usage5h k)) (window5hStart k) (5 * Hour))
      then txError ErrAPIKeyRateLimit5hExceeded
      else if exceeds (rateLimit1d k) (effectiveSQLWindowUsage (scan (usage1d k)) (window1dStart k) (24 * Hour))
      then txError ErrAPIKeyRateLimit1dExceeded
      else if exceeds (rateLimit7d k) (effectiveSQLWindowUsage (scan (usage7d k)) (window7dStart k) (7 * 24 * Hour))
      then txError ErrAPIKeyRateLimit7dExceeded
      else txError ErrAPIKeyNotFound
  | None => txError ErrAPIKeyNotFound
  end.

Definition putKey (id : Z) (k : apiKeyRow) (d : billingDB) : billingDB := withKeys (<[id := k]> (apiKeys d)) d.

Definition reserveBatchImageAPIKeyAllowance (apiKeyID : Z) (amount : float64) (reservedAt : Time) : Tx unit :=
  let* q := param amount in
  let* d := txGet in
  match apiKeys d !! apiKeyID with
  | Some k =>
      if keyAllows k q reservedAt then
        let used := (col8 (quotaUsed k) + q)%Q in
        let status := if reaches (quota k) used then StatusAPIKeyQuotaExhausted else keyStatus k in
        txPut (putKey apiKeyID (chargeKey status used q reservedAt k) d)
      else batchImageAPIKeyAllowanceError apiKeyID amount
  | None => batchImageAPIKeyAllowanceError apiKeyID amount
  end.

Definition releaseBatchImageAPIKeyAllowance (apiKeyID : Z) (amount : float64) (reservedAt : Time) : Tx unit :=
  let* q := param amount in
  txModify (λ d,
    match apiKeys d !! apiKeyID with
    | Some k =>
        let back start stop u := if inWindow start stop reservedAt then store8 (atLeastZero (col8 u - q)) else u in
        let used := atLeastZero (col8 (quotaUsed k) - q)%Q in
        let reopen := eqs (keyStatus k) StatusAPIKeyQuotaExhausted && negb (teamOwnerDisabled k)
                      && ((quota k <=? 0) || negb (Qle_bool (col8 (quota k)) used)) in
        putKey apiKeyID (mkApiKeyRow (if reopen then StatusAPIKeyActive else keyStatus k) (teamOwnerDisabled k) (quota k)
          (store8 used) (rateLimit5h k) (rateLimit1d k) (rateLimit7d k)
          (back (window5hStart k) end5h (usage5h k)) (back (window1dStart k) end1d (usage1d k))
          (back (window7dStart k) end7d (usage7d k)) (window5hStart k) (window1dStart k) (window7dStart k)
          (keyDeleted k)) d
    | None => d
    end).

Definition chargeLegacyBatchImageAPIKey (apiKeyID : Z) (amount : float64) : Tx unit :=
  let* q := param amount in
  txModify (λ d,
    match apiKeys d !! apiKeyID with
    | Some k =>
        let used := (col8 (quotaUsed k) + q)%Q in
        let status := if reaches (quota k) used && negb (teamOwnerDisabled k)
                      then StatusAPIKeyQuotaExhausted else keyStatus k in
        (* the five-hour window restarts at NOW(), the others at midnight *)
        putKey apiKeyID (chargeKey status used q dbNow k) d
    | None => d
    end).

(** [incrementUsageBillingAPIKeyQuota]: did this charge exhaust the quota? *)
Definition incrementUsageBillingAPIKeyQuota `{BillingText} (apiKeyID : Z) (amount : float64) : Tx bool :=
  let* q := param (QuantizeUsageBillingAmount amount) in
  let* d := txGet in
  match apiKeys d !! apiKeyID with
  | Some k =>
      if keyDeleted k then txError ErrAPIKeyNotFound else
      let used := (col8 (quotaUsed k) + q)%Q in
      let below := negb (Qle_bool (col8 (quota k)) (col8 (quotaUsed k))) in
      let status := if reaches (quota k) used && eqs (keyStatus k) StatusAPIKeyActive && below
                    then StatusAPIKeyQuotaExhausted else keyStatus k in
      let stored := store8 used in
      do* txPut (putKey apiKeyID (mkApiKeyRow status (teamOwnerDisabled k) (quota k) stored (rateLimit5h k)
        (rateLimit1d k) (rateLimit7d k) (usage5h k) (usage1d k) (usage7d k) (window5hStart k) (window1dStart k)
        (window7dStart k) (keyDeleted k)) d) in
      txRet (reaches (quota k) (col8 stored) && negb (Qle_bool (col8 (quota k)) (col8 stored - q)))
  | None => txError ErrAPIKeyNotFound
  end.

(** Here an unset window keeps adding to the counter, but starts. *)
Definition incrementUsageBillingAPIKeyRateLimit `{BillingText} (apiKeyID : Z) (cost : float64) : Tx unit :=
  let* q := param (QuantizeUsageBillingAmount cost) in
  let* d := txGet in
  match apiKeys d !! apiKeyID with
  | Some k =>
      if keyDeleted k then txError ErrAPIKeyNotFound else
      let ended start stop := bool_decide (is_Some start) && over start stop dbNow in
      let usage isOver u := if isOver : bool then store8 q else store8 (col8 u + q) in
      txPut (putKey apiKeyID (mkApiKeyRow (keyStatus k) (teamOwnerDisabled k) (quota k) (quotaUsed k) (rateLimit5h k)
        (rateLimit1d k) (rateLimit7d k) (usage (ended (window5hStart k) end5h) (usage5h k))
        (usage (ended (window1dStart k) end1d) (usage1d k)) (usage (ended (window7dStart k) end7d) (usage7d k))
        (if over (window5hStart k) end5h dbNow then Some dbNow else window5hStart k)
        (if over (window1dStart k) end1d dbNow then Some (sqlDay dbNow) else window1dStart k)
        (if over (window7dStart k) end7d dbNow then Some (sqlDay dbNow) else window7dStart k) (keyDeleted k)) d)
  | None => txError ErrAPIKeyNotFound
  end.

(** ** Team members *)

(** A usage of an earlier natural period. *)
Definition stale (start : option Time) (current : Time) : bool :=
  match start with Some s => s <? current | None => true end.

(** The usage after a charge in the current day, week and month. *)
Definition chargeMember (amount : Q) (m : memberRow) : memberRow :=
  let usage start current u := if stale start current then store10 amount else store10 (col10 u + amount) in
  let window start current := if stale start current then Some current else start in
  mkMemberRow (memberTeam m) (memberUser m) (memberRole m) (memberDailyLimit m) (memberWeeklyLimit m) (memberMonthlyLimit m)
    (usage (memberDailyStart m) (StartOfDay now) (memberDailyUsage m))
    (usage (memberWeeklyStart m) (StartOfWeek now) (memberWeeklyUsage m))
    (usage (memberMonthlyStart m) (StartOfMonth now) (memberMonthlyUsage m))
    (window (memberDailyStart m) (StartOfDay now)) (window (memberWeeklyStart m) (StartOfWeek now))
    (window (memberMonthlyStart m) (StartOfMonth now)) (joinedAt m) (leftAt m).

Definition activeMember (teamID userID : Z) (m : memberRow) : bool :=
  (memberTeam m =? teamID) && (memberUser m =? userID) && bool_decide (leftAt m = None).

Definition isMember (m : memberRow) : bool := eqs (memberRole m) TeamRoleMember.

Definition memberAllows (amount : Q) (m : memberRow) : bool :=
  let effective start current u := if stale start current then 0%Q else col10 u in
  fits8 (memberDailyLimit m) (effective (memberDailyStart m) (StartOfDay now) (memberDailyUsage m)) amount
  && fits8 (memberWeeklyLimit m) (effective (memberWeeklyStart m) (StartOfWeek now) (memberWeeklyUsage m)) amount
  && fits8 (memberMonthlyLimit m) (effective (memberMonthlyStart m) (StartOfMonth now) (memberMonthlyUsage m)) amount.

(** The rows of an UPDATE: those that satisfy [cond] become [set]. *)
Definition updateMembers (cond : memberRow → bool) (set : memberRow → memberRow) (d : billingDB) : billingDB :=
  withMembers ((λ m, if cond m then set m else m) <$> members d) d.

(** The payer is the actor, or there is no team. *)
Definition memberCharged (teamID : option Z) (actorUserID userID : Z) : option Z :=
  match teamID with
  | Some t => if (0 <? actorUserID) && negb (actorUserID =? userID) then Some t else None
  | None => None
  end.

Definition effectiveNaturalWindowUsage (usage : float64) (window : option Time) (expectedStart : Time) : float64 :=
  match window with
  | Some w => if Before w expectedStart then f64_zero else usage
  | None => f64_zero
  end.

(** The active membership of a user in a team is unique (an index). *)
Definition findMember (teamID userID : Z) (d : billingDB) : option memberRow :=
  head (List.filter (activeMember teamID userID) (snd <$> map_to_list (members d))).

Definition batchImageMemberAllowanceError (teamID userID : Z) (amount : float64) : Tx unit :=
  let* d := txGet in
  match findMember teamID userID d with
  | None => txError ErrTeamMembershipRequired
  | Some m =>
      let exceeds limit usage window start :=
        f64_gt (sqlScan (col8 limit)) f64_zero &&
        f64_gt (f64_add (effectiveNaturalWindowUsage (sqlScan (col10 usage)) window start) amount) (sqlScan (col8 limit)) in
      if eqs (memberRole m) TeamRoleOwner then txRet tt
      else if exceeds (memberDailyLimit m) (memberDailyUsage m) (memberDailyStart m) (StartOfDay now)
      then txError ErrTeamMemberDailyExceeded
      else if exceeds (memberWeeklyLimit m) (memberWeeklyUsage m) (memberWeeklyStart m) (StartOfWeek now)
      then txError ErrTeamMemberWeeklyExceeded
      else if exceeds (memberMonthlyLimit m) (memberMonthlyUsage m) (memberMonthlyStart m) (StartOfMonth now)
      then txError ErrTeamMemberMonthlyExceeded
      else txError ErrTeamMembershipRequired
  end.

Definition reserveBatchImageMemberAllowance (c : BatchImageBalanceHoldCommand) (amount : float64) : Tx unit :=
  match memberCharged (cTeamID c) (cActorUserID c) (cUserID c) with
  | None => txRet tt
  | Some team =>
      let* q := param amount in
      let* d := txGet in
      let cond m := activeMember team (cActorUserID c) m && isMember m && memberAllows q m in
      if existsb cond (snd <$> map_to_list (members d))
      then txPut (updateMembers cond (chargeMember q) d)
      else batchImageMemberAllowanceError team (cActorUserID c) amount
  end.

Definition releaseBatchImageMemberAllowance (c : BatchImageBalanceHoldCommand) (amount : float64) : Tx unit :=
  match memberCharged (cTeamID c) (cActorUserID c) (cUserID c) with
  | None => txRet tt
  | Some team =>
      let* q := param amount in
      let at_ := cReservedAt c in
      let back start stop u := if inWindow start stop at_ then store10 (atLeastZero (col10 u - q)) else u in
      txModify (updateMembers
        (λ m, (memberTeam m =? team) && (memberUser m =? cActorUserID c) && (joinedAt m <=? at_)
              && match leftAt m with Some l => at_ <? l | None => true end)
        (λ m, mkMemberRow (memberTeam m) (memberUser m) (memberRole m) (memberDailyLimit m) (memberWeeklyLimit m)
           (memberMonthlyLimit m)
           (back (memberDailyStart m) (λ s, sqlPlusDays s 1) (memberDailyUsage m))
           (back (memberWeeklyStart m) (λ s, sqlPlusDays s 7) (memberWeeklyUsage m))
           (back (memberMonthlyStart m) sqlPlusMonth (memberMonthlyUsage m))
           (memberDailyStart m) (memberWeeklyStart m) (memberMonthlyStart m) (joinedAt m) (leftAt m)))
  end.

Definition incrementUsageBillingTeamMember (teamID actorUserID : Z) (amount : float64) : Tx unit :=
  if f64_le amount f64_zero then txRet tt else
  let* q := param amount in
  txModify (updateMembers (λ m, activeMember teamID actorUserID m && isMember m) (chargeMember q)).
End charge.

(** ** Account quotas *)

Record AccountQuotaState := mkQuotaState {
  TotalUsed : float64;
  TotalLimit : float64;
  DailyUsed : float64;
  DailyLimit : float64;
  WeeklyUsed : float64;
  WeeklyLimit : float64;
}.

(** '1970-01-01'::timestamptz. *)
Definition epoch1970 : Time := 62135596800 * Second.

Section account_quota.
Context `{SQLNumeric} `{SQLCalendar} (dbNow : Time).

Definition fixedMode (mode : option string) : bool := eqs (default "rolling"%string mode) "fixed".

Definition quotaExpired (mode : option string) (resetAt start : option Time) (hours : Z) : bool :=
  if fixedMode mode then default epoch1970 resetAt <=? dbNow
  else default epoch1970 start + hours * Hour <=? dbNow.

Definition dailyExpiredExpr (a : accountQuota) : bool :=
  quotaExpired (aqDailyResetMode a) (aqDailyResetAt a) (aqDailyStart a) 24.
Definition weeklyExpiredExpr (a : accountQuota) : bool :=
  quotaExpired (aqWeeklyResetMode a) (aqWeeklyResetAt a) (aqWeeklyStart a) 168.

(** [to_char(..., 'YYYY-MM-DD"T"HH24:MI:SS"Z"')] keeps whole seconds. *)
Definition wholeSeconds (t : Time) : Time := t / Second * Second.

Definition nextDailyResetAtExpr (a : accountQuota) : option Time :=
  if fixedMode (aqDailyResetMode a) then
    let point := sqlLocal (default "UTC"%string (aqTimezone a)) dbNow (default 0 (aqDailyResetHour a)) in
    Some (wholeSeconds (if point 0 <=? dbNow then point 1 else point 0))
  else None.

Definition nextWeeklyResetAtExpr (a : accountQuota) : option Time :=
  if fixedMode (aqWeeklyResetMode a) then
    let tz := default "UTC"%string (aqTimezone a) in
    let point := sqlLocal tz dbNow (default 0 (aqWeeklyResetHour a)) in
    let forward := goRem (default 1 (aqWeeklyResetDay a) - sqlDow tz dbNow + 7) 7 in
    Some (wholeSeconds (if (forward =? 0) && (point 0 <=? dbNow) then point 7 else point forward))
  else None.

Definition present (q : option Q) : Q := default 0%Q q.
Definition positiveQ (q : option Q) : bool := negb (Qle_bool (present q) 0).

(** The new [extra]: a period that expired restarts with the amount. *)
Definition chargeAccount (amount : Q) (a : accountQuota) : accountQuota :=
  let daily := positiveQ (aqDailyLimit a) in
  let weekly := positiveQ (aqWeeklyLimit a) in
  let used (limited expired : bool) old :=
    if limited then Some (if expired then amount else (present old + amount)%Q) else old in
  let start (limited expired : bool) old :=
    if limited then Some (if expired then dbNow else default dbNow old) else old in
  let resetAt (limited expired : bool) next old :=
    if limited && expired then match next with Some t => Some t | None => old end else old in
  mkAccountQuota (Some (present (aqUsed a) + amount)%Q) (aqLimit a)
    (used daily (dailyExpiredExpr a) (aqDailyUsed a)) (aqDailyLimit a)
    (start daily (dailyExpiredExpr a) (aqDailyStart a))
    (resetAt daily (dailyExpiredExpr a) (nextDailyResetAtExpr a) (aqDailyResetAt a))
    (aqDailyResetMode a) (aqDailyResetHour a)
    (used weekly (weeklyExpiredExpr a) (aqWeeklyUsed a)) (aqWeeklyLimit a)
    (start weekly (weeklyExpiredExpr a) (aqWeeklyStart a))
    (resetAt weekly (weeklyExpiredExpr a) (nextWeeklyResetAtExpr a) (aqWeeklyResetAt a))
    (aqWeeklyResetMode a) (aqWeeklyResetHour a) (aqWeeklyResetDay a) (aqTimezone a) (aqDeleted a).

Definition crossed (limit used amount : float64) : bool :=
  f64_gt limit f64_zero && f64_ge used limit && f64_lt (f64_sub used amount) limit.

(** [enqueueSchedulerOutbox] of an account_changed event: one pending event per account. *)
Definition enqueueAccountChanged (accountID : Z) (d : billingDB) : billingDB :=
  if bool_decide (accountID ∈ accountChanged d) then d else withAccountChanged (accountChanged d ++ [accountID]) d.

Definition incrementUsageBillingAccountQuota (accountID : Z) (amount : float64) : Tx AccountQuotaState :=
  let* q := param amount in
  let* d := txGet in
  match accounts d !! accountID with
  | Some a =>
      if aqDeleted a then txError ErrAccountNotFound else
      let a := chargeAccount q a in
      do* txPut (withAccounts (<[accountID := a]> (accounts d)) d) in
      let read v := sqlScan (present v) in
      let state := mkQuotaState (read (aqUsed a)) (read (aqLimit a)) (read (aqDailyUsed a)) (read (aqDailyLimit a))
                     (read (aqWeeklyUsed a)) (read (aqWeeklyLimit a)) in
      do* (if crossed (TotalLimit state) (TotalUsed state) amount || crossed (DailyLimit state) (DailyUsed state) amount
              || crossed (WeeklyLimit state) (WeeklyUsed state) amount
           then txModify (enqueueAccountChanged accountID) else txRet tt) in
      txRet state
  | None => txError ErrAccountNotFound
  end.
End account_quota.
