(* ===== verification/CreativeRun.v ===== *)
(** * Creative runs: data, status machine, public view and billing commands

    [service/creative_run.go] and the command building of
    [service/creative_billing.go].  A run is one asynchronous image task: the
    row of [creative_runs] is [CreativeRun], one row of [creative_run_outputs]
    is [CreativeRunOutput]; a nullable column is an [option].  The statements
    of the repository and the concurrent flow are in [CreativeRunFlow]. *)

From S2P Require Import Prelude GoRuntime Domain AppErrors UsageBilling.
#[local] Open Scope Z_scope.

(** ** Constants *)

Definition CreativeOperationGenerate : string := "generate".
Definition CreativeOperationEdit : string := "edit".
Definition CreativeOperationInpaint : string := "inpaint".

Definition CreativeProvisioningPhaseCreated : string := "created".
Definition CreativeProvisioningPhaseHoldReserved : string := "hold_reserved".
Definition CreativeProvisioningPhaseTransientSaved : string := "transient_saved".
Definition CreativeProvisioningPhaseEnqueued : string := "enqueued".
Definition CreativeProvisioningPhaseFailed : string := "failed".
Definition CreativeProvisioningPhaseComplete : string := "complete".

Definition CreativeRunStatusQueued : string := "queued".
Definition CreativeRunStatusRunning : string := "running".
Definition CreativeRunStatusProviderSucceeded : string := "provider_succeeded".
Definition CreativeRunStatusSettlementPending : string := "settlement_pending".
Definition CreativeRunStatusReleasePending : string := "release_pending".
Definition CreativeRunStatusSucceeded : string := "succeeded".
Definition CreativeRunStatusFailed : string := "failed".
Definition CreativeRunStatusCancelled : string := "cancelled".
Definition CreativeRunStatusResultLost : string := "result_lost".

Definition CreativeRunOutputStatusPending : string := "pending".
Definition CreativeRunOutputStatusSucceeded : string := "succeeded".
Definition CreativeRunOutputStatusFailed : string := "failed".
Definition CreativeRunOutputStatusLost : string := "lost".
Definition CreativeRunOutputStatusAcked : string := "acked".

Definition ErrCreativeRunNotFound := New 404 "CREATIVE_RUN_NOT_FOUND" "creative run not found".
Definition ErrCreativeWorkspaceRequired := New 400 "CREATIVE_WORKSPACE_REQUIRED" "creative workspace id is required".
Definition ErrCreativeWorkspaceInvalid := New 400 "CREATIVE_WORKSPACE_INVALID" "creative workspace id is invalid".
Definition ErrCreativeInvalidTransition := New 400 "CREATIVE_INVALID_TRANSITION" "invalid creative run status transition".
Definition ErrCreativeOutputNotFound := New 404 "CREATIVE_OUTPUT_NOT_FOUND" "creative run output not found".
Definition ErrCreativeOutputNotReady := New 409 "CREATIVE_OUTPUT_NOT_READY" "creative run output is not ready".
Definition ErrCreativeTransientFailed := New 502 "CREATIVE_TRANSIENT_FAILED" "creative transient store operation failed".
Definition ErrCreativeBillingHoldFailed := New 502 "CREATIVE_BILLING_HOLD_FAILED" "creative balance hold failed".
Definition ErrCreativeSettlementBillingFail := New 502 "CREATIVE_SETTLEMENT_BILLING_FAILED" "creative settlement billing failed".
Definition ErrBatchImageSettlementMissingAccountID :=
  New 400 "BATCH_IMAGE_SETTLEMENT_MISSING_ACCOUNT_ID" "batch image settlement account id is missing".

(** ** The scope of a request

    [uuid.Parse], [uuid.Nil] and [UUID.String] are the google/uuid package. *)

Class UUIDLib := {
  UUID : Type;
  uuidParse : string → option UUID;
  uuidIsNil : UUID → bool;
  uuidString : UUID → string;
}.

(** Documented behaviour of the package: the printed form is canonical. *)
Class UUIDLaws `{UUIDLib} `{UnicodeCase} : Prop := {
  uuid_parse_string : ∀ u, uuidParse (uuidString u) = Some u;
  uuid_string_lower : ∀ u, ToLower (uuidString u) = uuidString u;
  uuid_string_trim : ∀ u, TrimSpace (uuidString u) = uuidString u;
  uuid_string_nonempty : ∀ u, uuidString u ≠ ""%string;
}.

Record CreativeRunScope := mkScope { ScopeUserID : Z; ScopeWorkspaceID : string }.

Section scope.
Context `{UUIDLib} `{UnicodeCase}.

Definition NormalizeCreativeWorkspaceID (raw : string) : result ApplicationError string :=
  let raw := TrimSpace raw in
  if eqs raw "" then Err ErrCreativeWorkspaceRequired else
  match uuidParse raw with
  | None => Err ErrCreativeWorkspaceInvalid
  | Some parsed => if uuidIsNil parsed then Err ErrCreativeWorkspaceInvalid else Ok (ToLower (uuidString parsed))
  end.

Definition NormalizeCreativeRunScope (scope : CreativeRunScope) : result ApplicationError CreativeRunScope :=
  if ScopeUserID scope <=? 0 then Err ErrCreativeRunNotFound else
  normalizedWorkspaceID ← NormalizeCreativeWorkspaceID (ScopeWorkspaceID scope);
  Ok (mkScope (ScopeUserID scope) normalizedWorkspaceID).

Definition ValidateCreativeRunScope (scope : CreativeRunScope) : result ApplicationError unit :=
  _ ← NormalizeCreativeRunScope scope; Ok tt.
End scope.

(** ** Rows *)

Record CreativeRun := mkRun {
  ID : Z;
  RunID : string;
  UserID : Z;
  WorkspaceID : option string;
  GroupID : Z;
  APIKeyID : Z;
  AccountID : option Z;
  Model : string;
  RequestedModel : string;
  Operation : string;
  RequestedOutputCount : Z;
  ImageSize : string;
  AspectRatio : string;
  ResponseMIMEType : string;
  PromptHash : string;
  RequestFingerprint : string;
  IdempotencyKey : option string;
  Status : string;
  EstimatedCost : float64;
  HoldAmount : option float64;
  ActualCost : option float64;
  BalanceHoldAmount : float64;
  SubscriptionHoldAllocations : list BillingAllocation;
  AllowanceReserved : bool;
  BaseUnitPrice : float64;
  SubscriptionRateMultiplier : float64;
  BalanceRateMultiplier : float64;
  PlanGroupRateEnabled : bool;
  ErrorCode : option string;
  ErrorMessage : option string;
  ReleaseTargetStatus : string;
  AttemptCount : Z;
  ProvisioningPhase : string;
  SettlementAttemptCount : Z;
  ReleaseAttemptCount : Z;
  ProviderResultRecordedAt : option Time;
  NextReconcileAt : option Time;
  LastReconcileError : option string;
  Version : Z;
  CreatedAt : Time;
  UpdatedAt : Time;
  StartedAt : option Time;
  CompletedAt : option Time;
  CancelledAt : option Time;
}.

(** The setters of the columns that a statement can change, as the update
    builder of the repository chains them. *)
Definition etaRun (r : CreativeRun) : CreativeRun :=
  mkRun (ID r) (RunID r) (UserID r) (WorkspaceID r) (GroupID r) (APIKeyID r) (AccountID r) (Model r)
    (RequestedModel r) (Operation r) (RequestedOutputCount r) (ImageSize r) (AspectRatio r)
    (ResponseMIMEType r) (PromptHash r) (RequestFingerprint r) (IdempotencyKey r) (Status r)
    (EstimatedCost r) (HoldAmount r) (ActualCost r) (BalanceHoldAmount r)
    (SubscriptionHoldAllocations r) (AllowanceReserved r) (BaseUnitPrice r)
    (SubscriptionRateMultiplier r) (BalanceRateMultiplier r) (PlanGroupRateEnabled r) (ErrorCode r)
    (ErrorMessage r) (ReleaseTargetStatus r) (AttemptCount r) (ProvisioningPhase r)
    (SettlementAttemptCount r) (ReleaseAttemptCount r) (ProviderResultRecordedAt r)
    (NextReconcileAt r) (LastReconcileError r) (Version r) (CreatedAt r) (UpdatedAt r) (StartedAt r)
    (CompletedAt r) (CancelledAt r).

Definition SetAccountID (v : option Z) (r : CreativeRun) : CreativeRun := ltac:(set_field etaRun r AccountID v).
Definition SetStatus (v : string) (r : CreativeRun) : CreativeRun := ltac:(set_field etaRun r Status v).
Definition SetActualCost (v : option float64) (r : CreativeRun) : CreativeRun := ltac:(set_field etaRun r ActualCost v).
Definition SetAllowanceReserved (v : bool) (r : CreativeRun) : CreativeRun := ltac:(set_field etaRun r AllowanceReserved v).
Definition SetErrorCode (v : option string) (r : CreativeRun) : CreativeRun := ltac:(set_field etaRun r ErrorCode v).
Definition SetErrorMessage (v : option string) (r : CreativeRun) : CreativeRun := ltac:(set_field etaRun r ErrorMessage v).
Definition SetReleaseTargetStatus (v : string) (r : CreativeRun) : CreativeRun :=
  ltac:(set_field etaRun r ReleaseTargetStatus v).
Definition SetAttemptCount (v : Z) (r : CreativeRun) : CreativeRun := ltac:(set_field etaRun r AttemptCount v).
Definition SetProvisioningPhase (v : string) (r : CreativeRun) : CreativeRun :=
  ltac:(set_field etaRun r ProvisioningPhase v).
Definition SetSettlementAttemptCount (v : Z) (r : CreativeRun) : CreativeRun :=
  ltac:(set_field etaRun r SettlementAttemptCount v).
Definition SetReleaseAttemptCount (v : Z) (r : CreativeRun) : CreativeRun :=
  ltac:(set_field etaRun r ReleaseAttemptCount v).
Definition SetProviderResultRecordedAt (v : option Time) (r : CreativeRun) : CreativeRun :=
  ltac:(set_field etaRun r ProviderResultRecordedAt v).
Definition SetNextReconcileAt (v : option Time) (r : CreativeRun) : CreativeRun := ltac:(set_field etaRun r NextReconcileAt v).
Definition SetLastReconcileError (v : option string) (r : CreativeRun) : CreativeRun :=
  ltac:(set_field etaRun r LastReconcileError v).
Definition SetVersion (v : Z) (r : CreativeRun) : CreativeRun := ltac:(set_field etaRun r Version v).
Definition SetUpdatedAt (v : Time) (r : CreativeRun) : CreativeRun := ltac:(set_field etaRun r UpdatedAt v).
Definition SetStartedAt (v : option Time) (r : CreativeRun) : CreativeRun := ltac:(set_field etaRun r StartedAt v).
Definition SetCompletedAt (v : option Time) (r : CreativeRun) : CreativeRun := ltac:(set_field etaRun r CompletedAt v).
Definition SetCancelledAt (v : option Time) (r : CreativeRun) : CreativeRun := ltac:(set_field etaRun r CancelledAt v).

Record CreativeRunOutput := mkOutput {
  oID : Z;
  oRunID : string;
  OutputIndex : Z;
  oStatus : string;
  MimeType : option string;
  ByteSize : option Z;
  TransientExpiresAt : option Time;
  AckedAt : option Time;
  oErrorCode : option string;
  oErrorMessage : option string;
  oCreatedAt : Time;
  oUpdatedAt : Time;
}.

Definition etaOutput (o : CreativeRunOutput) : CreativeRunOutput :=
  mkOutput (oID o) (oRunID o) (OutputIndex o) (oStatus o) (MimeType o) (ByteSize o) (TransientExpiresAt o)
    (AckedAt o) (oErrorCode o) (oErrorMessage o) (oCreatedAt o) (oUpdatedAt o).

Definition SetOutputStatus (v : string) (o : CreativeRunOutput) : CreativeRunOutput := ltac:(set_field etaOutput o oStatus v).
Definition SetMimeType (v : option string) (o : CreativeRunOutput) : CreativeRunOutput := ltac:(set_field etaOutput o MimeType v).
Definition SetByteSize (v : option Z) (o : CreativeRunOutput) : CreativeRunOutput := ltac:(set_field etaOutput o ByteSize v).
Definition SetTransientExpiresAt (v : option Time) (o : CreativeRunOutput) : CreativeRunOutput :=
  ltac:(set_field etaOutput o TransientExpiresAt v).
Definition SetAckedAt (v : option Time) (o : CreativeRunOutput) : CreativeRunOutput := ltac:(set_field etaOutput o AckedAt v).
Definition SetOutputErrorCode (v : option string) (o : CreativeRunOutput) : CreativeRunOutput :=
  ltac:(set_field etaOutput o oErrorCode v).
Definition SetOutputErrorMessage (v : option string) (o : CreativeRunOutput) : CreativeRunOutput :=
  ltac:(set_field etaOutput o oErrorMessage v).
Definition SetOutputUpdatedAt (v : Time) (o : CreativeRunOutput) : CreativeRunOutput :=
  ltac:(set_field etaOutput o oUpdatedAt v).

(** ** The status machine *)

Definition IsValidCreativeRunID (runID : string) : bool := (5 <? len runID) && HasPrefix runID "crun_".

Definition IsTerminalCreativeRunStatus (status : string) : bool :=
  eqs status CreativeRunStatusSucceeded || eqs status CreativeRunStatusFailed
  || eqs status CreativeRunStatusCancelled || eqs status CreativeRunStatusResultLost.

Definition IsCreativeRunSettlementPending (status : string) : bool :=
  eqs status CreativeRunStatusProviderSucceeded || eqs status CreativeRunStatusSettlementPending
  || eqs status CreativeRunStatusReleasePending.

Definition CanTransitionCreativeRun (from to : string) : bool :=
  if eqs from "" || eqs to "" then false else
  if IsTerminalCreativeRunStatus from
  then eqs from CreativeRunStatusSucceeded && eqs to CreativeRunStatusResultLost else
  if eqs to CreativeRunStatusFailed then true else
  if eqs from CreativeRunStatusQueued then
    eqs to CreativeRunStatusRunning || eqs to CreativeRunStatusCancelled || eqs to CreativeRunStatusResultLost
    || eqs to CreativeRunStatusFailed || eqs to CreativeRunStatusReleasePending
  else if eqs from CreativeRunStatusRunning then
    eqs to CreativeRunStatusProviderSucceeded || eqs to CreativeRunStatusSettlementPending
    || eqs to CreativeRunStatusSucceeded || eqs to CreativeRunStatusCancelled
    || eqs to CreativeRunStatusResultLost || eqs to CreativeRunStatusReleasePending
  else if eqs from CreativeRunStatusProviderSucceeded then
    eqs to CreativeRunStatusSettlementPending || eqs to CreativeRunStatusSucceeded
    || eqs to CreativeRunStatusCancelled || eqs to CreativeRunStatusResultLost
  else if eqs from CreativeRunStatusSettlementPending then
    eqs to CreativeRunStatusSucceeded || eqs to CreativeRunStatusCancelled || eqs to CreativeRunStatusResultLost
  else if eqs from CreativeRunStatusReleasePending then
    eqs to CreativeRunStatusFailed || eqs to CreativeRunStatusCancelled || eqs to CreativeRunStatusResultLost
  else false.

(** ** The client's view *)

Record CreativeRunOutputPublic := mkOutputPublic {
  pIndex : Z;
  poStatus : string;
  poMimeType : string;
  poByteSize : Z;
  poTransientExpiresAt : option Z;
  poAckedAt : option Z;
  poErrorCode : string;
  poErrorMessage : string;
}.

Record CreativeRunPublic := mkPublic {
  pID : string;
  pStatus : string;
  pModel : string;
  pRequestedModel : string;
  pOperation : string;
  pRequestedOutputCount : Z;
  pImageSize : string;
  pAspectRatio : string;
  pOutputFormat : string;
  pGroupID : Z;
  pEstimatedCost : float64;
  pHoldAmount : float64;
  pActualCost : option float64;
  pErrorCode : string;
  pErrorMessage : string;
  pOutputs : list CreativeRunOutputPublic;
  pCreatedAt : Z;
  pStartedAt : option Z;
  pCompletedAt : option Z;
  pCancelledAt : option Z;
  pIdempotentReplay : bool;
}.

Definition creativeDerefString (v : option string) : string := default ""%string v.
Definition creativeDerefInt64 (v : option Z) : Z := default 0 v.
Definition creativeUnixPtr (t : option Time) : option Z := Unix <$> t.
Definition creativeStringPtr (v : string) : option string := if eqs v "" then None else Some v.

Definition CreativeRunOutputToPublic (output : option CreativeRunOutput) : CreativeRunOutputPublic :=
  match output with
  | None => mkOutputPublic 0 "" "" 0 None None "" ""
  | Some o =>
      mkOutputPublic (OutputIndex o) (oStatus o) (creativeDerefString (MimeType o))
        (creativeDerefInt64 (ByteSize o)) (creativeUnixPtr (TransientExpiresAt o))
        (creativeUnixPtr (AckedAt o)) (creativeDerefString (oErrorCode o)) (creativeDerefString (oErrorMessage o))
  end.

Section public.
Context `{UnicodeCase}.

Definition creativeOutputFormatFromMIME (mime : string) : string :=
  let m := ToLower (TrimSpace mime) in
  if eqs m "image/jpeg" || eqs m "image/jpg" then "jpeg"
  else if eqs m "image/webp" then "webp"
  else "png".

Definition CreativeRunToPublic (run : option CreativeRun) (outputs : list (option CreativeRunOutput))
    : option CreativeRunPublic :=
  run ← run;
  let holdAmount := match HoldAmount run with Some h => h | None => EstimatedCost run end in
  Some (mkPublic (RunID run) (Status run) (Model run) (RequestedModel run) (Operation run)
    (RequestedOutputCount run) (ImageSize run) (AspectRatio run)
    (creativeOutputFormatFromMIME (ResponseMIMEType run)) (GroupID run) (EstimatedCost run) holdAmount
    (ActualCost run) (creativeDerefString (ErrorCode run)) (creativeDerefString (ErrorMessage run))
    (map CreativeRunOutputToPublic outputs) (Unix (CreatedAt run)) (creativeUnixPtr (StartedAt run))
    (creativeUnixPtr (CompletedAt run)) (creativeUnixPtr (CancelledAt run)) false).
End public.

(** ** Billing commands *)

Definition creativeHoldRequestPrefix : string := "creative_hold:".
Definition creativeCaptureRequestPrefix : string := "creative_capture:".
Definition creativeReleaseRequestPrefix : string := "creative_release:".
Definition creativeSettlementRequestPrefix : string := "creative_settle:".
Definition creativePricingSnapshotVersion : Z := 2.

Definition CreativeHoldRequestID (runID : string) : string := (creativeHoldRequestPrefix +:+ TrimSpace runID)%string.
Definition CreativeCaptureRequestID (runID : string) : string := (creativeCaptureRequestPrefix +:+ TrimSpace runID)%string.
Definition CreativeReleaseRequestID (runID : string) : string := (creativeReleaseRequestPrefix +:+ TrimSpace runID)%string.
Definition CreativeSettlementRequestID (runID : string) : string :=
  (creativeSettlementRequestPrefix +:+ TrimSpace runID)%string.

(** The amount held: the recorded one, else the estimate. *)
Definition creativeHoldAmount (run : CreativeRun) : float64 :=
  match HoldAmount run with Some h => h | None => EstimatedCost run end.

Definition buildCreativeHoldCommand (run : CreativeRun) (requestID : string) (actualBaseAmount : float64)
    : result ApplicationError BatchImageBalanceHoldCommand :=
  if APIKeyID run <=? 0 then Err ErrCreativeBillingHoldFailed else
  let holdAmount := creativeHoldAmount run in
  let holdAmount := if f64_lt holdAmount f64_zero then f64_zero else holdAmount in
  let actualBaseAmount := if f64_lt actualBaseAmount f64_zero then f64_zero else actualBaseAmount in
  Ok (mkHoldCommand requestID (APIKeyID run) "" (TrimSpace (RequestFingerprint run)) (UserID run) (UserID run) None
        (Some (GroupID run)) APIKeyBillingModeAuto None (RunID run) holdAmount f64_zero creativePricingSnapshotVersion
        (f64_mul (f64_max (BaseUnitPrice run) f64_zero) (f64_of_Z (Z.max (RequestedOutputCount run) 0)))
        actualBaseAmount (f64_max (SubscriptionRateMultiplier run) f64_zero) (f64_of_Z 1)
        (f64_max (BalanceRateMultiplier run) f64_zero) (f64_of_Z 1) (negb (PlanGroupRateEnabled run))
        (BalanceHoldAmount run) (SubscriptionHoldAllocations run) (AllowanceReserved run) true (CreatedAt run)).

Definition captureCommand (run : CreativeRun) (successCount : Z) : result ApplicationError BatchImageBalanceHoldCommand :=
  buildCreativeHoldCommand run (CreativeCaptureRequestID (RunID run))
    (f64_mul (f64_max (BaseUnitPrice run) f64_zero) (f64_of_Z (Z.max successCount 0))).

Definition releaseCommand (run : CreativeRun) : result ApplicationError BatchImageBalanceHoldCommand :=
  buildCreativeHoldCommand run (CreativeReleaseRequestID (RunID run)) f64_zero.

(** ** Theorems *)

(** *** The transition graph *)

(** The edges of the graph, one disjunct per kind of status. *)
Lemma can_transition_inv from to :
  CanTransitionCreativeRun from to = true →
  (from = CreativeRunStatusSucceeded ∧ to = CreativeRunStatusResultLost) ∨
  (IsTerminalCreativeRunStatus from = false ∧ to = CreativeRunStatusFailed) ∨
  (from = CreativeRunStatusQueued ∧ to ∈ [CreativeRunStatusRunning; CreativeRunStatusCancelled;
     CreativeRunStatusResultLost; CreativeRunStatusReleasePending]) ∨
  (from = CreativeRunStatusRunning ∧ to ∈ [CreativeRunStatusProviderSucceeded; CreativeRunStatusSettlementPending;
     CreativeRunStatusSucceeded; CreativeRunStatusCancelled; CreativeRunStatusResultLost; CreativeRunStatusReleasePending]) ∨
  (from = CreativeRunStatusProviderSucceeded ∧ to ∈ [CreativeRunStatusSettlementPending; CreativeRunStatusSucceeded;
     CreativeRunStatusCancelled; CreativeRunStatusResultLost]) ∨
  (from = CreativeRunStatusSettlementPending ∧ to ∈ [CreativeRunStatusSucceeded; CreativeRunStatusCancelled;
     CreativeRunStatusResultLost]) ∨
  (from = CreativeRunStatusReleasePending ∧ to ∈ [CreativeRunStatusCancelled; CreativeRunStatusResultLost]).
Proof.
  unfold CanTransitionCreativeRun. intros H.
  destruct (eqs from "" || eqs to "") eqn:E0; [done|].
  destruct (IsTerminalCreativeRunStatus from) eqn:Et.
  { left. apply andb_true_iff in H as [H1 H2]. by rewrite eqs_true in H1, H2. }
  right. destruct (eqs to CreativeRunStatusFailed) eqn:Ef; [apply eqs_true in Ef; by left|].
  right.
  destruct (eqs from CreativeRunStatusQueued) eqn:H1; [apply eqs_true in H1; left; split; [done|]|].
  2: destruct (eqs from CreativeRunStatusRunning) eqn:H2; [apply eqs_true in H2; right; left; split; [done|]|].
  3: destruct (eqs from CreativeRunStatusProviderSucceeded) eqn:H3; [apply eqs_true in H3; do 2 right; left; split; [done|]|].
  4: destruct (eqs from CreativeRunStatusSettlementPending) eqn:H4; [apply eqs_true in H4; do 3 right; left; split; [done|]|].
  5: destruct (eqs from CreativeRunStatusReleasePending) eqn:H5; [apply eqs_true in H5; do 4 right; split; [done|]|done].
  all: repeat (apply orb_true_iff in H as [H|H]); rewrite ?Ef in H; try done;
    apply eqs_true in H; subst to; set_solver.
Qed.

(** A number that every transition increases. *)
Definition statusRank (s : string) : Z :=
  if eqs s CreativeRunStatusQueued then 1
  else if eqs s CreativeRunStatusRunning then 2
  else if eqs s CreativeRunStatusProviderSucceeded then 3
  else if eqs s CreativeRunStatusSettlementPending || eqs s CreativeRunStatusReleasePending then 4
  else if eqs s CreativeRunStatusSucceeded || eqs s CreativeRunStatusFailed || eqs s CreativeRunStatusCancelled then 5
  else if eqs s CreativeRunStatusResultLost then 6
  else 1.

Lemma statusRank_range s : 1 <= statusRank s <= 6.
Proof. unfold statusRank. repeat case_match; lia. Qed.

Lemma statusRank_terminal s : IsTerminalCreativeRunStatus s = false → statusRank s <= 4.
Proof.
  unfold IsTerminalCreativeRunStatus, statusRank. intros H.
  apply orb_false_iff in H as [H ->]. apply orb_false_iff in H as [H ->]. apply orb_false_iff in H as [-> ->].
  repeat case_match; try lia; done.
Qed.

Lemma transition_rank from to : CanTransitionCreativeRun from to = true → statusRank from < statusRank to.
Proof.
  intros H. apply can_transition_inv in H as
    [[-> ->]|[[Ht ->]|[[-> H]|[[-> H]|[[-> H]|[[-> H]|[-> H]]]]]]].
  1: done.
  1: { pose proof (statusRank_terminal _ Ht). change (statusRank CreativeRunStatusFailed) with 5. lia. }
  all: repeat (apply elem_of_cons in H as [->|H]; [done|]); by apply not_elem_of_nil in H.
Qed.

(** The status machine ends. A sequence of allowed transitions visits at
    most six statuses; a terminal status has no transition, except a success
    whose result is lost; every other non-empty status can fail. *)
Theorem run_lifecycle (path : list string) :
  (∀ i a b, path !! i = Some a → path !! S i = Some b → CanTransitionCreativeRun a b = true) →
  (length path <= 6)%nat ∧
  (∀ a b, IsTerminalCreativeRunStatus a = true → CanTransitionCreativeRun a b = true →
     a = CreativeRunStatusSucceeded ∧ b = CreativeRunStatusResultLost) ∧
  (∀ a, a ≠ ""%string → IsTerminalCreativeRunStatus a = false → CanTransitionCreativeRun a CreativeRunStatusFailed = true).
Proof.
  intros Hp. split; [|split].
  - assert (Hr : ∀ i a, path !! i = Some a → Z.of_nat i + 1 <= statusRank a).
    { induction i as [|i IH]; intros a Ha; [pose proof (statusRank_range a); lia|].
      destruct (lookup_lt_is_Some_2 path i) as [b Hb]; [apply lookup_lt_Some in Ha; lia|].
      pose proof (transition_rank _ _ (Hp _ _ _ Hb Ha)). specialize (IH _ Hb). lia. }
    destruct (decide (length path <= 6)%nat) as [|Hlong]; [done|].
    destruct (lookup_lt_is_Some_2 path 6) as [a Ha]; [lia|].
    pose proof (Hr _ _ Ha). pose proof (statusRank_range a). lia.
  - intros a b Ha Hab. unfold CanTransitionCreativeRun in Hab. rewrite Ha in Hab.
    destruct (eqs a "" || eqs b ""); [done|]. apply andb_true_iff in Hab as [H1 H2].
    by rewrite eqs_true in H1, H2.
  - intros a Hne Ha. unfold CanTransitionCreativeRun. rewrite Ha, (proj2 (eqs_false a "") Hne). done.
Qed.

Definition longestLife : list string :=
  [CreativeRunStatusQueued; CreativeRunStatusRunning; CreativeRunStatusProviderSucceeded;
   CreativeRunStatusSettlementPending; CreativeRunStatusSucceeded; CreativeRunStatusResultLost].

Lemma run_lifecycle_witness : (length longestLife <= 6)%nat.
Proof.
  refine (proj1 (run_lifecycle longestLife _)).
  intros [|[|[|[|[|[|i]]]]]] a b Ha Hb; try discriminate; injection Ha as <-; injection Hb as <-; reflexivity.
Defined.

(** *** Scopes *)

Section scope_laws.
Context `{UUIDLaws}.

(** normalising a scope is idempotent and keeps the user: whatever spelling
    of the workspace UUID the client sent, the stored scope is its canonical
    lower-case form, for a positive user id. *)
Theorem scope_normal_form scope scope' :
  NormalizeCreativeRunScope scope = Ok scope' →
  NormalizeCreativeRunScope scope' = Ok scope' ∧ ScopeUserID scope' = ScopeUserID scope ∧ 0 < ScopeUserID scope' ∧
  ∃ u, uuidParse (TrimSpace (ScopeWorkspaceID scope)) = Some u ∧ ScopeWorkspaceID scope' = uuidString u.
Proof.
  unfold NormalizeCreativeRunScope. destruct (ScopeUserID scope <=? 0) eqn:Eu; [done|].
  unfold NormalizeCreativeWorkspaceID. destruct (eqs (TrimSpace _) "") eqn:Ee; [done|].
  destruct (uuidParse (TrimSpace (ScopeWorkspaceID scope))) as [u|]; [|done].
  destruct (uuidIsNil u) eqn:En; [done|]. cbn [mbind result_bind]. intros [= <-].
  cbn [ScopeUserID ScopeWorkspaceID]. rewrite Eu. zbool.
  rewrite uuid_string_lower, uuid_string_trim, uuid_parse_string, En.
  rewrite (proj2 (eqs_false _ _) (uuid_string_nonempty u)). rewrite uuid_string_lower.
  split; [done|]. split; [done|]. split; [lia|]. by exists u.
Qed.
End scope_laws.

(** A package with two identifiers, the nil one and another. *)
Definition nilUUID : string := "00000000-0000-0000-0000-000000000000".
Definition someUUID : string := "6ba7b810-9dad-11d1-80b4-00c04fd430c8".

Definition twoUUIDs : UUIDLib := {|
  UUID := bool;
  uuidParse s := if eqs (mapBytes lowerByte s) nilUUID then Some true
                 else if eqs (mapBytes lowerByte s) someUUID then Some false else None;
  uuidIsNil u := u;
  uuidString u := if u then nilUUID else someUUID |}.

Lemma twoUUIDs_laws : @UUIDLaws twoUUIDs ascii_case.
Proof. split; intros []; try done; vm_compute; reflexivity. Qed.

Lemma scope_normal_form_witness :
  @NormalizeCreativeRunScope twoUUIDs ascii_case (mkScope 7 someUUID) = Ok (mkScope 7 someUUID).
Proof.
  refine (proj1 (@scope_normal_form twoUUIDs ascii_case twoUUIDs_laws
    (mkScope 7 " 6BA7B810-9DAD-11D1-80B4-00C04FD430C8 "%string) (mkScope 7 someUUID) _)).
  vm_compute. reflexivity.
Defined.

(** *** Billing commands *)

Lemma append_inj_l (p a b : string) : (p +:+ a)%string = (p +:+ b)%string → a = b.
Proof. induction p as [|c p IH]; simpl; [done|]. intros [= H]. by apply IH. Qed.

Lemma hold_command_ok run id base cmd :
  buildCreativeHoldCommand run id base = Ok cmd →
  cRequestID cmd = id ∧ cBatchID cmd = RunID run ∧ f64_lt (cHoldAmount cmd) f64_zero = false.
Proof.
  unfold buildCreativeHoldCommand. destruct (APIKeyID run <=? 0); [done|]. intros [= <-]. simpl.
  split; [done|]. split; [done|]. destruct (f64_lt (creativeHoldAmount run) f64_zero) eqn:E; done.
Qed.

(** the capture and the release of a run are two different requests on the
    same hold: they name the run, hold the same non-negative amount and carry
    request ids that no command of the other kind and no command of another
    run shares. *)
Theorem billing_requests_separate run1 run2 n capture release :
  captureCommand run1 n = Ok capture → releaseCommand run2 = Ok release →
  cRequestID capture ≠ cRequestID release ∧
  (RunID run1 = RunID run2 ∧ creativeHoldAmount run1 = creativeHoldAmount run2 →
     cBatchID capture = cBatchID release ∧ cHoldAmount capture = cHoldAmount release) ∧
  f64_lt (cHoldAmount capture) f64_zero = false ∧ f64_lt (cHoldAmount release) f64_zero = false ∧
  (∀ m capture2, captureCommand run2 m = Ok capture2 → cRequestID capture = cRequestID capture2 →
     TrimSpace (RunID run1) = TrimSpace (RunID run2)).
Proof.
  intros Hc Hr.
  destruct (hold_command_ok _ _ _ _ Hc) as (Hci & Hcb & Hcn).
  destruct (hold_command_ok _ _ _ _ Hr) as (Hri & Hrb & Hrn).
  split; [rewrite Hci, Hri; by intros [=]|]. split; [|split; [done|]; split; [done|]].
  - intros [Hid Ha]. split; [by rewrite Hcb, Hrb|]. unfold captureCommand, releaseCommand, buildCreativeHoldCommand in *.
    destruct (APIKeyID run1 <=? 0); [done|]. destruct (APIKeyID run2 <=? 0); [done|].
    injection Hc as <-. injection Hr as <-. simpl. by rewrite Ha.
  - intros m capture2 Hc2. destruct (hold_command_ok _ _ _ _ Hc2) as (Hc2i & _). rewrite Hci, Hc2i.
    by intros H%append_inj_l.
Qed.

(** A run of two images at 0.5 each, just created. *)
Definition exampleRun : CreativeRun :=
  mkRun 1 "crun_ab" 7 (Some someUUID) 3 9 None "gpt-image" "gpt-image" CreativeOperationGenerate 2 "1K" ""
    "image/png" "hash" "fp" None CreativeRunStatusQueued (f64_of_Z 1) (Some (f64_of_Z 1)) None (f64_of_Z 1) [] true
    (S754_finite false 4503599627370496 (-53)) (f64_of_Z 1) (f64_of_Z 1) true None None CreativeRunStatusFailed 0
    CreativeProvisioningPhaseTransientSaved 0 0 None None None 1 1000 1000 None None None.

Lemma billing_requests_separate_witness :
  ∃ capture release, captureCommand exampleRun 2 = Ok capture ∧ releaseCommand exampleRun = Ok release ∧
    cRequestID capture ≠ cRequestID release ∧ cActualBaseAmountUSD capture = cBaseAmountUSD release.
Proof.
  eexists _, _. split; [reflexivity|]. split; [reflexivity|]. split; [|vm_compute; reflexivity].
  exact (proj1 (billing_requests_separate exampleRun exampleRun 2 _ _ eq_refl eq_refl)).
Defined.
