(* ===== verification/BillingLedger.v ===== *)
(** * The ledger: charges, holds, captures and releases

    The entry points of [repository/usage_billing_repo.go]: [Apply] charges one
    request, [ReserveBatchImageBalance] holds the estimated cost of a task,
    [CaptureBatchImageBalance] settles it and [ReleaseBatchImageBalance] returns
    it.  Each is one transaction that first claims the identifier of the request,
    so a repeated request has no effect. *)

From S2P Require Import Prelude GoRuntime Domain AppErrors UsageBilling BillingDB BillingAllowance CreativeRun.
#[local] Open Scope Z_scope.
#[local] Open Scope tx_scope.

Definition ErrUsageBillingRequestIDRequired : goError := OtherErr "usage billing request_id is required" [].
Definition ErrUsageBillingRequestConflict : goError := OtherErr "usage billing request fingerprint conflict" [].
Definition ErrUserNotFound := NotFound "USER_NOT_FOUND" "user not found".
Definition ErrBatchImageJobNotFound := New 404 "BATCH_IMAGE_JOB_NOT_FOUND" "batch image job not found".
Definition ErrBatchImageInsufficientBalance :=
  New 402 "BATCH_IMAGE_INSUFFICIENT_BALANCE" "insufficient balance for batch image hold".

Definition batchImageHoldRequestPrefix : string := "batch_image_hold:".
Definition BatchImageHoldRequestID (batchID : string) : string := (batchImageHoldRequestPrefix +:+ TrimSpace batchID)%string.

Inductive batchImageAllowanceOperation :=
  | batchImageAllowanceReserve
  | batchImageAllowanceCapture
  | batchImageAllowanceRelease.

Record UsageBillingApplyResult := mkApplyResult {
  arApplied : bool;
  arAPIKeyQuotaExhausted : bool;
  arNewBalance : option float64;
  arQuotaState : option AccountQuotaState;
  arSubscriptionAmountUSD : float64;
  arBalanceAmountUSD : float64;
  arBillingAllocations : list BillingAllocation;
  arEffectiveRateMultiplier : option float64;
}.

(** ** Claims *)

(** [true]: the request is new.  The insertion that precedes an answer [false]
    is undone with the transaction. *)
Definition claimUsageBillingRequest (requestID : string) (apiKeyID : Z) (fingerprint : string) : Tx bool :=
  let same stored := if eqs (TrimSpace stored) (TrimSpace fingerprint) then txRet false
                     else txFail ErrUsageBillingRequestConflict in
  let* d := txGet in
  match dedup d !! (requestID, apiKeyID) with
  | Some existing => same existing
  | None =>
      do* txPut (withDedup (<[(requestID, apiKeyID) := fingerprint]> (dedup d)) d) in
      match dedupArchive d !! (requestID, apiKeyID) with
      | Some archived => same archived
      | None => txRet true
      end
  end.

Definition claimed (requestID : string) (apiKeyID : Z) (d : billingDB) : bool :=
  bool_decide (is_Some (dedup d !! (requestID, apiKeyID)))
  || bool_decide (is_Some (dedupArchive d !! (requestID, apiKeyID))).

Definition batchImageHoldClaimExists (holdRequestID : string) (apiKeyID : Z) : Tx bool :=
  let* d := txGet in txRet (claimed holdRequestID apiKeyID d).

(** The row of a user that is not deleted. *)
Definition activeUser (d : billingDB) (userID : Z) : option userRow :=
  match users d !! userID with
  | Some u => if userDeleted u then None else Some u
  | None => None
  end.

Definition lockUsageBillingUser (userID : Z) : Tx unit :=
  if userID <=? 0 then txRet tt else
  let* d := txGet in
  match activeUser d userID with Some _ => txRet tt | None => txError ErrUserNotFound end.

Definition putUser (userID : Z) (u : userRow) (d : billingDB) : billingDB := withUsers (<[userID := u]> (users d)) d.

(** ** Deadlocks *)

(** How the database runs an attempt: to its end, or aborted and rolled back
    with an error, which may be a deadlock (40P01). *)
Inductive attempt :=
  | Runs
  | Aborted (isPostgresDeadlock : bool) (e : goError).

(** Of each attempt: its fate, [ctx.Err()] after it, and an expiry of the
    context while the next one is awaited. *)
Record retryWorld := mkRetryWorld {
  attemptFate : Z → attempt;
  ctxErr : Z → option goError;
  waitErr : Z → option goError;
}.

Definition postgresDeadlockMaxRetries : Z := 2.
Definition postgresDeadlockMaxAttempts : Z := postgresDeadlockMaxRetries + 1.

(** The [for] loop from [attempt] on; [left] counts the retries that are
    available, [postgresDeadlockMaxRetries - attempt + 1]. *)
Fixpoint retryFrom {A S} (left : nat) (w : retryWorld) (fn : S → result goError A * S) (n : Z) (s : S)
    : result goError A * S :=
  match attemptFate w n with
  | Runs => fn s
  | Aborted deadlock e =>
      if negb deadlock then (Err e, s) else
      match ctxErr w n with
      | Some c => (Err c, s)
      | None =>
          match left with
          | O => (Err e, s)
          | S more => match waitErr w n with Some c => (Err c, s) | None => retryFrom more w fn (n + 1) s end
          end
      end
  end.

Definition retryPostgresDeadlock {A S} (w : retryWorld) (fn : S → result goError A * S) (s : S) : result goError A * S :=
  retryFrom (Z.to_nat postgresDeadlockMaxRetries) w fn 1 s.

(** ** Charges *)

Section ledger.
Context `{UnicodeCase} `{BillingText} `{SQLNumeric} `{Calendar} `{SQLCalendar} `{GoWeek}.
Context (dbNow now : Time).

(** The new balance and the deducted amount; the balance may become negative. *)
Definition deductUsageBillingBalance (userID : Z) (amount : float64) : Tx (float64 * float64) :=
  let* q := param (QuantizeUsageBillingAmount amount) in
  let* d := txGet in
  match activeUser d userID with
  | Some u =>
      let stored := store8 (col8 (balance u) - q)%Q in
      do* txPut (putUser userID (mkUserRow stored (frozen u) false) d) in
      txRet (sqlScan (col8 stored), sqlScan q)
  | None => txError ErrUserNotFound
  end.

(** Lines 708-728: the part that the subscriptions do not cover. *)
Definition chargeBalance (userID : Z) (amount : float64) (allocations : list BillingAllocation)
    : Tx (option float64 * float64 * list BillingAllocation) :=
  if f64_gt amount f64_zero then
    let* r := deductUsageBillingBalance userID amount in
    let '(newBalance, deducted) := r in
    txRet (if f64_gt deducted f64_zero
           then (Some newBalance, deducted, allocations ++ [balanceAllocation deducted f64_zero f64_zero])
           else (None, deducted, allocations))
  else txRet (None, f64_zero, allocations).

Definition applyUsageBillingEffects (c : UsageBillingCommand) : Tx UsageBillingApplyResult :=
  let* a := allocateUsageBillingSubscriptions dbNow now c in
  let '(rest, subscriptionAmount, allocations) := a in
  let base := usageBillingUsesBaseAmount c in
  let balanceAmount := if base then f64_mul rest (usageBillingNonNegativeRate (uBalanceRateMultiplier c)) else rest in
  let* b := chargeBalance (uUserID c) balanceAmount allocations in
  let '(newBalance, deducted, allocations) := b in
  let billable := f64_add subscriptionAmount deducted in
  do* match memberCharged (uTeamID c) (uActorUserID c) (uUserID c) with
      | Some team => incrementUsageBillingTeamMember now team (uActorUserID c) billable
      | None => txRet tt
      end in
  let* exhausted := (if f64_gt (uAPIKeyQuotaCost c) f64_zero
                     then incrementUsageBillingAPIKeyQuota (uAPIKeyID c) (if base then billable else uAPIKeyQuotaCost c)
                     else txRet false) in
  do* (if f64_gt (uAPIKeyRateLimitCost c) f64_zero
       then incrementUsageBillingAPIKeyRateLimit dbNow (uAPIKeyID c) (if base then billable else uAPIKeyRateLimitCost c)
       else txRet tt) in
  let* quotaState := (if f64_gt (uAccountQuotaCost c) f64_zero
                         && (EqualFold (uAccountType c) AccountTypeAPIKey || EqualFold (uAccountType c) AccountTypeBedrock)
                      then let* s := incrementUsageBillingAccountQuota dbNow (uAccountID c) (uAccountQuotaCost c) in
                           txRet (Some s)
                      else txRet None) in
  txRet (mkApplyResult true exhausted newBalance quotaState subscriptionAmount deducted allocations
           (if base then Some (f64_div billable (uBaseAmountUSD c)) else None)).

Definition notApplied : UsageBillingApplyResult := mkApplyResult false false None None f64_zero f64_zero [] None.

Definition applyOnce (c : UsageBillingCommand) (d : billingDB) : result goError UsageBillingApplyResult * billingDB :=
  match claimUsageBillingRequest (uRequestID c) (uAPIKeyID c) (uRequestFingerprint c) d with
  | Err e => (Err e, d)
  | Ok (false, _) => (Ok notApplied, d)
  | Ok (true, claimedDB) =>
      match (do* lockUsageBillingUser (uUserID c) in applyUsageBillingEffects c) claimedDB with
      | Ok (r, d') => (Ok r, d')
      | Err e => (Err e, d)
      end
  end.

(** ** Holds: the balance *)

Definition balances (u : userRow) : BatchImageBalanceHoldResult :=
  mkHoldResult false (Some (sqlScan (col8 (balance u)))) (Some (sqlScan (col8 (frozen u))))
    f64_zero f64_zero f64_zero f64_zero f64_zero [].

Definition reserveUsageBillingBatchImageBalance (userID : Z) (holdAmount : float64) : Tx BatchImageBalanceHoldResult :=
  if f64_le holdAmount f64_zero then txRet emptyHoldResult else
  let* q := param holdAmount in
  let* d := txGet in
  match activeUser d userID with
  | Some u =>
      if Qle_bool q (col8 (balance u)) then
        let u' := mkUserRow (store8 (col8 (balance u) - q)) (store8 (col8 (frozen u) + q)) false in
        do* txPut (putUser userID u' d) in txRet (balances u')
      else txError ErrBatchImageInsufficientBalance
  | None => txError ErrUserNotFound
  end.

Definition frozenInsufficient : goError := OtherErr "batch image frozen balance is insufficient" [].

Definition captureUsageBillingBatchImageBalance (userID : Z) (holdAmount actualAmount : float64)
    : Tx BatchImageBalanceHoldResult :=
  let holdAmount := normalizeBatchImageBalanceAmount holdAmount in
  let actualAmount := normalizeBatchImageBalanceAmount actualAmount in
  if f64_le holdAmount f64_zero && f64_le actualAmount f64_zero then txRet emptyHoldResult else
  if f64_gt (f64_sub actualAmount holdAmount) batchImageCostEpsilon then txError ErrBatchImageSettlementCostExceedsHold else
  let* hold := param holdAmount in
  let* actual := param actualAmount in
  let* d := txGet in
  match activeUser d userID with
  | Some u =>
      if Qle_bool hold (col8 (frozen u)) then
        let refund := if Qle_bool hold actual then 0%Q else (hold - actual)%Q in
        let extra := if Qle_bool actual hold then 0%Q else (actual - hold)%Q in
        let u' := mkUserRow (store8 (col8 (balance u) + refund - extra)) (store8 (col8 (frozen u) - hold)) false in
        do* txPut (putUser userID u' d) in txRet (balances u')
      else txFail frozenInsufficient
  | None => txError ErrUserNotFound
  end.

Definition releaseUsageBillingBatchImageFrozenBalance (userID : Z) (amount : float64) : Tx BatchImageBalanceHoldResult :=
  let amount := normalizeBatchImageBalanceAmount amount in
  if f64_le amount f64_zero then txRet emptyHoldResult else
  let* q := param amount in
  let* d := txGet in
  match activeUser d userID with
  | Some u =>
      if Qle_bool q (col8 (frozen u)) then
        let u' := mkUserRow (store8 (col8 (balance u) + q)) (store8 (col8 (frozen u) - q)) false in
        do* txPut (putUser userID u' d) in txRet (balances u')
      else txFail frozenInsufficient
  | None => txError ErrUserNotFound
  end.

(** ** Holds: the tasks *)

Definition entityKey (c : BatchImageBalanceHoldCommand) : bool * string := (cCreativeEntity c, TrimSpace (cBatchID c)).

Definition batchImageHoldClaimRequestID (c : BatchImageBalanceHoldCommand) : string :=
  if cCreativeEntity c then CreativeHoldRequestID (TrimSpace (cBatchID c)) else BatchImageHoldRequestID (cBatchID c).

Definition updateEntity (c : BatchImageBalanceHoldCommand) (set : entityRow → entityRow) : Tx unit :=
  let* d := txGet in
  match entities d !! entityKey c with
  | Some e => txPut (withEntities (<[entityKey c := set e]> (entities d)) d)
  | None => txError ErrBatchImageJobNotFound
  end.

Definition setBatchImageAllowanceReserved (c : BatchImageBalanceHoldCommand) (reserved : bool) : Tx unit :=
  updateEntity c (λ e, mkEntityRow (entBalanceHold e) (entAllocations e) (entHold e) (entEstimated e) reserved).

Definition persistBatchImageBillingHold (c : BatchImageBalanceHoldCommand) (balanceAmount : float64)
    (allocations : list BillingAllocation) (holdAmount estimatedAmount : float64) : Tx unit :=
  let* b := param balanceAmount in
  let* h := param holdAmount in
  let* e := param estimatedAmount in
  updateEntity c (λ row, mkEntityRow (store10 b) allocations (Some (store10 h)) (store10 e) (entAllowanceReserved row)).

(** [rollbackBatchImageAllowanceBestEffort]: a failure inside the savepoint is
    undone and forgotten. *)
Definition bestEffort (rollback : Tx unit) : Tx unit :=
  λ d, match rollback d with Ok r => Ok r | Err _ => Ok (tt, d) end.

Definition applyBatchImageAllowance (c : BatchImageBalanceHoldCommand) (operation : batchImageAllowanceOperation) : Tx unit :=
  if f64_le (cHoldAmount c) f64_zero && f64_le (cBaseAmountUSD c) f64_zero then txRet tt else
  let giveBackAllowance amount :=
    bestEffort (do* releaseBatchImageAPIKeyAllowance (cAPIKeyID c) amount (cReservedAt c) in
                releaseBatchImageMemberAllowance c amount) in
  match operation with
  | batchImageAllowanceReserve =>
      let reservedAt := if IsZero (cReservedAt c) then now else cReservedAt c in
      do* reserveBatchImageAPIKeyAllowance now (cAPIKeyID c) (cHoldAmount c) reservedAt in
      do* reserveBatchImageMemberAllowance now c (cHoldAmount c) in
      setBatchImageAllowanceReserved c true
  | batchImageAllowanceCapture =>
      do* (if cAllowanceReserved c then
             let adjustment := f64_sub (cHoldAmount c) (cActualAmount c) in
             if f64_gt adjustment f64_zero then giveBackAllowance adjustment else txRet tt
           else if f64_gt (cActualAmount c) f64_zero then
             do* chargeLegacyBatchImageAPIKey dbNow (cAPIKeyID c) (cActualAmount c) in
             match memberCharged (cTeamID c) (cActorUserID c) (cUserID c) with
             | Some team => incrementUsageBillingTeamMember now team (cActorUserID c) (cActualAmount c)
             | None => txRet tt
             end
           else txRet tt) in
      setBatchImageAllowanceReserved c false
  | batchImageAllowanceRelease =>
      do* (if cAllowanceReserved c then giveBackAllowance (cHoldAmount c) else txRet tt) in
      setBatchImageAllowanceReserved c false
  end.

(** The command with which a reservation asks for subscription usage. *)
Definition allocationCommand (c : BatchImageBalanceHoldCommand) : UsageBillingCommand :=
  mkUsageCommand "" 0 "" "" (cAPIKeyBillingMode c) (cPreferredSubscriptionID c) (cUserID c) 0 None 0 (cGroupID c)
    (cHoldAmount c) (cBaseAmountUSD c) (cSubscriptionRateMultiplier c) (cSubscriptionRateMultiplierScale c)
    (cBalanceRateMultiplier c) (cDisablePlanGroupRateMultiplier c) (2 <=? cPricingSnapshotVersion c)
    "" "" "" "" 0 0 0 0 0 0 "" f64_zero f64_zero f64_zero.

(** 1e-10, correctly rounded. *)
Definition subscriptionShortfall : float64 := f64_div (f64_of_Z 1) (f64_of_Z 10000000000).

Definition reserveUsageBillingBatchImageBilling (c : BatchImageBalanceHoldCommand)
    : Tx (BatchImageBalanceHoldResult * BatchImageBalanceHoldCommand) :=
  if f64_le (cHoldAmount c) f64_zero && f64_le (cBaseAmountUSD c) f64_zero then txRet (emptyHoldResult, c) else
  let ac := NormalizeUsage (allocationCommand c) in
  let* a := allocateUsageBillingSubscriptions dbNow now ac in
  let '(remainingBase, subscriptionAmount, allocations) := a in
  if eqs (uAPIKeyBillingMode ac) APIKeyBillingModeSubscription && f64_gt remainingBase subscriptionShortfall
  then txError ErrPreferredSubscriptionInsufficient else
  let rate := usageBillingNonNegativeRate (cBalanceRateMultiplier c) in
  let balanceAmount := normalizeBatchImageBalanceAmount
    (if usageBillingUsesBaseAmount ac then f64_mul remainingBase rate else remainingBase) in
  let* held := reserveUsageBillingBatchImageBalance (cUserID c) balanceAmount in
  let allAllocations :=
    if f64_gt balanceAmount f64_zero then allocations ++ [balanceAllocation balanceAmount remainingBase rate]
    else allocations in
  let holdAmount := f64_add subscriptionAmount balanceAmount in
  let* estimated := (if (2 <=? cPricingSnapshotVersion c) && f64_gt (cBaseAmountUSD c) f64_zero then
      match PlanBatchImageBillingCapture
              (SetActualBaseAmount (cBaseAmountUSD c) (SetHoldAllocations allocations (SetBalanceHoldAmount balanceAmount c))) with
      | Ok plan => txRet (planActual plan)
      | Err e => txError e
      end else txRet holdAmount) in
  let c := SetHoldAmount holdAmount c in
  do* persistBatchImageBillingHold c balanceAmount allocations holdAmount estimated in
  txRet (mkHoldResult false (NewBalance held) (FrozenBalance held) holdAmount estimated f64_zero subscriptionAmount
           balanceAmount allAllocations, c).

Definition withPlan (c : BatchImageBalanceHoldCommand) (plan : BatchImageBillingCapturePlan)
    (r : BatchImageBalanceHoldResult) : BatchImageBalanceHoldResult :=
  mkHoldResult (Applied r) (NewBalance r) (FrozenBalance r) (TotalBatchImageHoldAmount c) (planActual plan)
    (planActual plan) (planSubscription plan) (planBalance plan) (planAllocations plan).

Definition captureUsageBillingBatchImageBilling (c : BatchImageBalanceHoldCommand)
    : Tx (BatchImageBalanceHoldResult * BatchImageBalanceHoldCommand) :=
  do* (if f64_gt (cHoldAmount c) f64_zero
          && (cAllowanceReserved c || f64_gt (cBalanceHoldAmount c) f64_zero
              || negb (bool_decide (cSubscriptionHoldAllocations c = [])))
       then let* held := batchImageHoldClaimExists (batchImageHoldClaimRequestID c) (cAPIKeyID c) in
            if held : bool then txRet tt else txFail (OtherErr "batch image billing hold is missing" [])
       else txRet tt) in
  match PlanBatchImageBillingCapture c with
  | Err e => txError e
  | Ok plan =>
      let c := SetActualAmount (planActual plan) c in
      do* releaseBatchImageSubscriptionAllocations (cUserID c) (cReservedAt c) (planReleases plan) in
      let* r := captureUsageBillingBatchImageBalance (cUserID c) (planBalanceHold plan) (planBalance plan) in
      txRet (withPlan c plan r, c)
  end.

Definition releaseUsageBillingBatchImageBilling (c : BatchImageBalanceHoldCommand)
    : Tx (BatchImageBalanceHoldResult * BatchImageBalanceHoldCommand) :=
  let* held := batchImageHoldClaimExists (batchImageHoldClaimRequestID c) (cAPIKeyID c) in
  if negb held then txRet (emptyHoldResult, c) else
  do* releaseBatchImageSubscriptionAllocations (cUserID c) (cReservedAt c) (cSubscriptionHoldAllocations c) in
  let* r := releaseUsageBillingBatchImageFrozenBalance (cUserID c) (EffectiveBatchImageBalanceHoldAmount c) in
  txRet (r, c).

(** ** Holds: one transaction *)

(** The answer to a repeated request. *)
Definition batchImageBillingResultForCommand (c : BatchImageBalanceHoldCommand) (operation : batchImageAllowanceOperation)
    : BatchImageBalanceHoldResult :=
  match operation with
  | batchImageAllowanceCapture =>
      match PlanBatchImageBillingCapture c with
      | Ok plan => withPlan c plan emptyHoldResult
      | Err _ => emptyHoldResult
      end
  | batchImageAllowanceRelease => emptyHoldResult
  | batchImageAllowanceReserve =>
      let kept := List.filter heldSubscription (cSubscriptionHoldAllocations c) in
      let subscriptionAmount := fold_left (λ s a, f64_add s (AmountUSD a)) kept f64_zero in
      let balanceAmount := EffectiveBatchImageBalanceHoldAmount c in
      let holdAmount := f64_add subscriptionAmount balanceAmount in
      let estimated :=
        if (2 <=? cPricingSnapshotVersion c) && f64_gt (cBaseAmountUSD c) f64_zero then
          match PlanBatchImageBillingCapture (SetActualBaseAmount (cBaseAmountUSD c) c) with
          | Ok plan => planActual plan
          | Err _ => holdAmount
          end
        else holdAmount in
      mkHoldResult false None None holdAmount estimated f64_zero subscriptionAmount balanceAmount
        (if f64_gt balanceAmount f64_zero then kept ++ [balanceAllocation balanceAmount f64_zero f64_zero] else kept)
  end.

Definition setApplied (r : BatchImageBalanceHoldResult) : BatchImageBalanceHoldResult :=
  mkHoldResult true (NewBalance r) (FrozenBalance r) (HoldAmountUSD r) (EstimatedAmountUSD r) (ActualAmountUSD r)
    (SubscriptionAmountUSD r) (BalanceAmountUSD r) (BillingAllocations r).

(** The function that each entry point passes to [applyBatchImageBalanceHold]. *)
Definition holdApply (operation : batchImageAllowanceOperation) (c : BatchImageBalanceHoldCommand)
    : Tx (BatchImageBalanceHoldResult * BatchImageBalanceHoldCommand) :=
  match operation with
  | batchImageAllowanceReserve => reserveUsageBillingBatchImageBilling c
  | batchImageAllowanceCapture => captureUsageBillingBatchImageBilling c
  | batchImageAllowanceRelease => releaseUsageBillingBatchImageBilling c
  end.

Definition applyBatchImageBalanceHoldOnce (operation : batchImageAllowanceOperation) (c : BatchImageBalanceHoldCommand)
    (d : billingDB) : result goError (BatchImageBalanceHoldResult * BatchImageBalanceHoldCommand) * billingDB :=
  match claimUsageBillingRequest (cRequestID c) (cAPIKeyID c) (cRequestFingerprint c) d with
  | Err e => (Err e, d)
  | Ok (false, _) => (Ok (batchImageBillingResultForCommand c operation, c), d)
  | Ok (true, claimedDB) =>
      match (do* lockUsageBillingUser (cUserID c) in
             let* a := holdApply operation c in
             let '(r, c') := a in
             do* applyBatchImageAllowance c' operation in
             txRet (setApplied r, c')) claimedDB with
      | Ok (a, d') => (Ok a, d')
      | Err e => (Err e, d)
      end
  end.

(** ** Entry points *)

(** The answer carries the command as the call leaves it. *)
Definition applyBatchImageBalanceHold (w : retryWorld) (operation : batchImageAllowanceOperation)
    (c : BatchImageBalanceHoldCommand) (d : billingDB)
    : result goError (BatchImageBalanceHoldResult * BatchImageBalanceHoldCommand) * billingDB :=
  let c := Normalize c in
  if eqs (cRequestID c) "" then (Err ErrUsageBillingRequestIDRequired, d) else
  retryPostgresDeadlock w (applyBatchImageBalanceHoldOnce operation c) d.

Definition ReserveBatchImageBalance (w : retryWorld) := applyBatchImageBalanceHold w batchImageAllowanceReserve.
Definition CaptureBatchImageBalance (w : retryWorld) := applyBatchImageBalanceHold w batchImageAllowanceCapture.
Definition ReleaseBatchImageBalance (w : retryWorld) := applyBatchImageBalanceHold w batchImageAllowanceRelease.

Definition Apply (w : retryWorld) (c : UsageBillingCommand) (d : billingDB)
    : result goError UsageBillingApplyResult * billingDB :=
  let c := NormalizeUsage c in
  if eqs (uRequestID c) "" then (Err ErrUsageBillingRequestIDRequired, d) else
  retryPostgresDeadlock w (applyOnce c) d.

End ledger.

(** A transaction that runs behaves as one attempt; one that never runs changes
    nothing. *)
Lemma retry_outcome {A S} (w : retryWorld) (fn : S → result goError A * S) s :
  retryPostgresDeadlock w fn s = fn s ∨ ∃ e, retryPostgresDeadlock w fn s = (Err e, s).
Proof.
  unfold retryPostgresDeadlock. generalize (Z.to_nat postgresDeadlockMaxRetries) 1.
  induction n as [|left IH]; intros k; cbn [retryFrom]; destruct (attemptFate w k) as [|[|] e]; cbn [negb]; eauto;
    destruct (ctxErr w k); eauto.
  destruct (waitErr w k); eauto.
Qed.
