(* ===== verification/BillingWallet.v ===== *)
(** * What the ledger promises: wallets

    The abstract specification of [BillingLedger]: a wallet per user, and the
    requests that were applied.  A charge, a hold, a settlement and a return are
    the only events of a wallet; each belongs to one request.  The calls of the
    repository refine it ([ledger_refines_wallets]). *)

From S2P Require Import Prelude GoRuntime Domain AppErrors UsageBilling BillingDB BillingAllowance CreativeRun BillingLedger.
#[local] Open Scope Z_scope.
#[local] Open Scope tx_scope.

(** ** The specification *)

Record wallet := mkWallet { available : Z; held : Z }.

Inductive walletEvent :=
  | Charged (n : Z)
  | Held (n : Z)
  | Settled (h a : Z)
  | Returned (n : Z).

Definition walletStep (e : walletEvent) (w : wallet) : option wallet :=
  match e with
  | Charged n => if 0 <=? n then Some (mkWallet (available w - n) (held w)) else None
  | Held n => if (0 <=? n) && (n <=? available w) then Some (mkWallet (available w - n) (held w + n)) else None
  | Settled h a => if h <=? held w then Some (mkWallet (available w + h - a) (held w - h)) else None
  | Returned n => if n <=? held w then Some (mkWallet (available w + n) (held w - n)) else None
  end.

(** What an event takes from its user for good. *)
Definition owed (e : walletEvent) : Z := match e with Charged n => n | Settled _ a => a | _ => 0 end.

(** What an event moves into the frozen part. *)
Definition reserved (e : walletEvent) : Z :=
  match e with Charged _ => 0 | Held n => n | Settled h _ => - h | Returned n => - n end.

Record bank := mkBank { wallets : gmap Z wallet; applied : gset (string * Z) }.

Definition eventStep (user : Z) (e : option walletEvent) (ws : gmap Z wallet) : option (gmap Z wallet) :=
  match e with
  | None => Some ws
  | Some e => match ws !! user with
              | Some w => (λ w', <[user := w']> ws) <$> walletStep e w
              | None => None
              end
  end.

(** ** Calls and answers *)

Inductive ledgerCall :=
  | CallApply (c : UsageBillingCommand)
  | CallHold (operation : batchImageAllowanceOperation) (c : BatchImageBalanceHoldCommand).

Inductive ledgerReply :=
  | ApplyReply (r : UsageBillingApplyResult)
  | HoldReply (r : BatchImageBalanceHoldResult).

Definition isApplied (r : ledgerReply) : bool := match r with ApplyReply r => arApplied r | HoldReply r => Applied r end.

Record callWorld := mkCallWorld { dbClock : Time; clock : Time; retries : retryWorld }.

Definition payer (call : ledgerCall) : Z := match call with CallApply c => uUserID c | CallHold _ c => cUserID c end.

(** The key of a request in [usage_billing_dedup]. *)
Definition requestKey (call : ledgerCall) : string * Z :=
  match call with
  | CallApply c => (TrimSpace (uRequestID c), uAPIKeyID c)
  | CallHold _ c => (TrimSpace (cRequestID c), cAPIKeyID c)
  end.

Definition answer {A} (r : result goError A) : option A := match r with Ok a => Some a | Err _ => None end.

Section wallet.
Context `{UnicodeCase} `{BillingText} `{SQLNumeric} `{Calendar} `{SQLCalendar} `{GoWeek}.

Definition runCall (w : callWorld) (call : ledgerCall) (d : billingDB) : result goError ledgerReply * billingDB :=
  match call with
  | CallApply c =>
      match Apply (dbClock w) (clock w) (retries w) c d with
      | (Ok r, d') => (Ok (ApplyReply r), d')
      | (Err e, d') => (Err e, d')
      end
  | CallHold operation c =>
      match applyBatchImageBalanceHold (dbClock w) (clock w) (retries w) operation c d with
      | (Ok (r, _), d') => (Ok (HoldReply r), d')
      | (Err e, d') => (Err e, d')
      end
  end.

(** The calls in the order in which their transactions end, with the answers. *)
Fixpoint runCalls (calls : list (callWorld * ledgerCall)) (d : billingDB)
    : list (ledgerCall * option ledgerReply) * billingDB :=
  match calls with
  | [] => ([], d)
  | (w, call) :: calls =>
      let '(r, d) := runCall w call d in
      let '(trace, d) := runCalls calls d in ((call, answer r) :: trace, d)
  end.

(** [n] units are the stored value of an amount. *)
Definition unitsOf (amount : float64) (n : Z) : Prop := ∃ q, sqlParam amount = Some q ∧ onScale8 q n.

Definition holdOf (c : BatchImageBalanceHoldCommand) : float64 :=
  normalizeBatchImageBalanceAmount (EffectiveBatchImageBalanceHoldAmount c).

(** The key under which a task was held. *)
Definition holdKey (c : BatchImageBalanceHoldCommand) : string * Z :=
  (batchImageHoldClaimRequestID (Normalize c), cAPIKeyID c).

Definition nothing (amount : float64) : Prop := f64_le amount f64_zero = true.

(** The event of an applied call, by its answer: the amounts are those that the
    answer reports to the caller. *)
Inductive eventOf (requests : gset (string * Z)) : ledgerCall → ledgerReply → option walletEvent → Prop :=
  | ev_free c r : arBalanceAmountUSD r = f64_zero → eventOf requests (CallApply c) (ApplyReply r) None
  | ev_charged c r n q :
      arBalanceAmountUSD r = sqlScan q → onScale8 q n → eventOf requests (CallApply c) (ApplyReply r) (Some (Charged n))
  | ev_unheld c r :
      nothing (BalanceAmountUSD r) → eventOf requests (CallHold batchImageAllowanceReserve c) (HoldReply r) None
  | ev_held c r n :
      unitsOf (BalanceAmountUSD r) n →
      eventOf requests (CallHold batchImageAllowanceReserve c) (HoldReply r) (Some (Held n))
  | ev_unsettled c r :
      nothing (holdOf c) → nothing (normalizeBatchImageBalanceAmount (BalanceAmountUSD r)) →
      eventOf requests (CallHold batchImageAllowanceCapture c) (HoldReply r) None
  | ev_settled c r h a :
      unitsOf (holdOf c) h → unitsOf (normalizeBatchImageBalanceAmount (BalanceAmountUSD r)) a →
      eventOf requests (CallHold batchImageAllowanceCapture c) (HoldReply r) (Some (Settled h a))
  | ev_unreturned c r :
      nothing (holdOf c) ∨ holdKey c ∉ requests →
      eventOf requests (CallHold batchImageAllowanceRelease c) (HoldReply r) None
  | ev_returned c r n :
      unitsOf (holdOf c) n → holdKey c ∈ requests →
      eventOf requests (CallHold batchImageAllowanceRelease c) (HoldReply r) (Some (Returned n)).

Inductive bankStep (s : bank) (call : ledgerCall) : option ledgerReply → bank → Prop :=
  | bank_rejected : bankStep s call None s
  | bank_repeated r : isApplied r = false → requestKey call ∈ applied s → bankStep s call (Some r) s
  | bank_applied r e ws :
      isApplied r = true → requestKey call ∉ applied s →
      eventOf ({[requestKey call]} ∪ applied s) call r e →
      eventStep (payer call) e (wallets s) = Some ws →
      bankStep s call (Some r) (mkBank ws ({[requestKey call]} ∪ applied s)).

Inductive bankRun : bank → list (ledgerCall * option ledgerReply) → bank → Prop :=
  | run_nil s : bankRun s [] s
  | run_cons s call r s1 trace s2 : bankStep s call r s1 → bankRun s1 trace s2 → bankRun s ((call, r) :: trace) s2.

(** The events of one user in a run. *)
Inductive history (user : Z) : list (ledgerCall * option ledgerReply) → list walletEvent → Prop :=
  | hist_nil : history user [] []
  | hist_other call r trace es :
      (∀ r', r = Some r' → isApplied r' = true → payer call ≠ user) →
      history user trace es → history user ((call, r) :: trace) es
  | hist_free R call r trace es :
      isApplied r = true → eventOf R call r None →
      history user trace es → history user ((call, Some r) :: trace) es
  | hist_event R call r e trace es :
      isApplied r = true → payer call = user → eventOf R call r (Some e) →
      history user trace es → history user ((call, Some r) :: trace) (e :: es).

Definition total (f : walletEvent → Z) (es : list walletEvent) : Z := foldr (λ e n, f e + n) 0 es.

(** ** The abstraction *)

Definition walletOf (u : userRow) : option wallet :=
  if userDeleted u then None else Some (mkWallet (balance u) (frozen u)).

Definition bankOf (d : billingDB) : bank :=
  mkBank (omap walletOf (users d)) (dom (dedup d) ∪ dom (dedupArchive d)).

(** ** Frames: the statements of other tables *)

Definition sameMoney (d0 d : billingDB) : Prop :=
  users d = users d0 ∧ dedup d = dedup d0 ∧ dedupArchive d = dedupArchive d0.

Definition keeps {A} (d0 : billingDB) (m : Tx A) : Prop := ∀ d a d', sameMoney d0 d → m d = Ok (a, d') → sameMoney d0 d'.

Lemma keeps_ret {A} d0 (a : A) : keeps d0 (txRet a).
Proof. intros d b d' ? [= <- <-]; done. Qed.

Lemma keeps_fail {A} d0 e : keeps d0 (txFail (A := A) e).
Proof. by intros d b d' ?. Qed.

Lemma keeps_error {A} d0 e : keeps d0 (txError (A := A) e).
Proof. by intros d b d' ?. Qed.

Lemma keeps_bind {A B} d0 (m : Tx A) (f : A → Tx B) : keeps d0 m → (∀ a, keeps d0 (f a)) → keeps d0 (txBind m f).
Proof. intros Hm Hf d b d' Hd (a & d1 & E1 & E2)%txBind_Ok. eapply Hf, E2. eapply Hm, E1. done. Qed.

Lemma keeps_get {B} d0 (f : billingDB → Tx B) : (∀ d, sameMoney d0 d → keeps d0 (f d)) → keeps d0 (txBind txGet f).
Proof. intros Hf d b d' Hd Ed. by apply (Hf d Hd d b d'). Qed.

Lemma keeps_put d0 d : sameMoney d0 d → keeps d0 (txPut d).
Proof. intros Hd d1 a d' _ [= _ <-]; done. Qed.

Lemma keeps_modify d0 f : (∀ d, sameMoney d0 d → sameMoney d0 (f d)) → keeps d0 (txModify f).
Proof. intros Hf d a d' Hd [= _ <-]; auto. Qed.

Lemma keeps_param d0 v : keeps d0 (param v).
Proof. unfold param. destruct (sqlParam v); [apply keeps_ret | apply keeps_fail]. Qed.

Lemma keeps_bestEffort d0 m : keeps d0 m → keeps d0 (bestEffort m).
Proof.
  unfold bestEffort. intros Hm d a d' Hd. destruct (m d) as [[[] d1]|e] eqn:E; intros [= _ <-]; [|done].
  by eapply Hm.
Qed.

Ltac frame :=
  repeat first
    [ match goal with
      | |- keeps _ (txRet _) => apply keeps_ret
      | |- keeps _ (txFail _) => apply keeps_fail
      | |- keeps _ (txError _) => apply keeps_error
      | |- keeps _ (param _) => apply keeps_param
      | |- keeps _ (txBind txGet _) => apply keeps_get; intros ??
      | |- keeps _ (txBind _ _) => apply keeps_bind; [|intros ?]
      | |- keeps _ (txPut _) => apply keeps_put
      | |- keeps _ (txModify _) => apply keeps_modify; intros ??
      | |- keeps _ (bestEffort _) => apply keeps_bestEffort
      | |- keeps _ (if ?b then _ else _) => destruct b
      | |- keeps _ (match ?x with _ => _ end) => destruct x
      | |- sameMoney _ (if ?b then _ else _) => destruct b
      | |- sameMoney _ (match ?x with _ => _ end) => destruct x
      end
    | assumption
    | progress cbv zeta ].

Context (dbNow now : Time).

Lemma keeps_allocateLoop d0 c rows rest covered allocations :
  keeps d0 (allocateLoop now c rows rest covered allocations).
Proof.
  revert rest covered allocations. induction rows as [|row rows IH]; intros; cbn [allocateLoop]; frame; try apply IH.
  unfold updateUsageBillingSubscription. frame.
Qed.

Lemma keeps_allocate d0 c : keeps d0 (allocateUsageBillingSubscriptions dbNow now c).
Proof. unfold allocateUsageBillingSubscriptions. frame. apply keeps_allocateLoop. Qed.

Lemma keeps_release d0 user t l : keeps d0 (releaseBatchImageSubscriptionAllocations user t l).
Proof.
  induction l as [|a l IH]; cbn [releaseBatchImageSubscriptionAllocations]; frame.
  unfold releaseAllocation. frame.
Qed.

Lemma keeps_member d0 team user amount : keeps d0 (incrementUsageBillingTeamMember now team user amount).
Proof. unfold incrementUsageBillingTeamMember. frame. Qed.

Lemma keeps_keyQuota d0 key amount : keeps d0 (incrementUsageBillingAPIKeyQuota key amount).
Proof. unfold incrementUsageBillingAPIKeyQuota. frame. Qed.

Lemma keeps_keyRate d0 key amount : keeps d0 (incrementUsageBillingAPIKeyRateLimit dbNow key amount).
Proof. unfold incrementUsageBillingAPIKeyRateLimit. frame. Qed.

Lemma keeps_accountQuota d0 account amount : keeps d0 (incrementUsageBillingAccountQuota dbNow account amount).
Proof. unfold incrementUsageBillingAccountQuota, enqueueAccountChanged. frame. Qed.

Lemma keeps_updateEntity d0 c set : keeps d0 (updateEntity c set).
Proof. unfold updateEntity. frame. Qed.

Lemma keeps_allowance d0 c operation : keeps d0 (applyBatchImageAllowance dbNow now c operation).
Proof.
  unfold applyBatchImageAllowance, setBatchImageAllowanceReserved, reserveBatchImageAPIKeyAllowance,
    reserveBatchImageMemberAllowance, releaseBatchImageAPIKeyAllowance, releaseBatchImageMemberAllowance,
    batchImageAPIKeyAllowanceError, batchImageMemberAllowanceError, chargeLegacyBatchImageAPIKey.
  frame; apply keeps_updateEntity || apply keeps_member.
Qed.

(** ** Payments: the statements of a user's balance *)

Definition paid (user : Z) (e : option walletEvent) (d d' : billingDB) : Prop :=
  dedup d' = dedup d ∧ dedupArchive d' = dedupArchive d ∧
  eventStep user e (omap walletOf (users d)) = Some (omap walletOf (users d')).

Lemma paid_none user d d' : sameMoney d d' → paid user None d d'.
Proof. intros (Eu & Ed & Ea). split_and!; try done. cbn [eventStep]. by rewrite Eu. Qed.

Lemma paid_between user e d0 d1 d2 d3 : sameMoney d0 d1 → paid user e d1 d2 → sameMoney d2 d3 → paid user e d0 d3.
Proof.
  intros (Eu & Ed & Ea) (Ed' & Ea' & Es) (Eu'' & Ed'' & Ea''). split_and!; [congruence..|].
  by rewrite Eu'', <- Eu.
Qed.

Lemma wallet_active d user u :
  activeUser d user = Some u →
  userDeleted u = false ∧ omap walletOf (users d) !! user = Some (mkWallet (balance u) (frozen u)).
Proof.
  unfold activeUser. destruct (users d !! user) as [r|] eqn:E; [|done]. destruct (userDeleted r) eqn:Er; [done|].
  intros [= <-]. split; [done|]. rewrite lookup_omap, E. cbn. unfold walletOf. by rewrite Er.
Qed.

Lemma paid_put user u b f e d :
  activeUser d user = Some u → walletStep e (mkWallet (balance u) (frozen u)) = Some (mkWallet b f) →
  paid user (Some e) d (putUser user (mkUserRow b f false) d).
Proof.
  intros (Hu & Hw)%wallet_active Hs. split_and!; try done. cbn [eventStep]. rewrite Hw, Hs. cbn. f_equal.
  symmetry. by apply omap_insert_Some.
Qed.

Context `{!SQLNumericLaws}.

Lemma param_Ok v d q d' : param v d = Ok (q, d') → sqlParam v = Some q ∧ d' = d.
Proof. unfold param. destruct (sqlParam v) as [p|]; [by intros [= <- <-]|done]. Qed.

Lemma onScale8_nonneg q n : onScale8 q n → (0 <= q)%Q → 0 <= n.
Proof. unfold onScale8. intros -> Hq. unfold Qle, col8 in Hq. cbn in Hq. lia. Qed.

Lemma chargeBalance_paid user amount allocations d newBalance deducted allocations' d' :
  chargeBalance user amount allocations d = Ok ((newBalance, deducted, allocations'), d') →
  (deducted = f64_zero ∧ d' = d) ∨
  ∃ n q, deducted = sqlScan q ∧ onScale8 q n ∧ paid user (Some (Charged n)) d d'.
Proof.
  unfold chargeBalance. destruct (f64_gt amount f64_zero) eqn:Hpos; [|intros [= <- <- <- <-]; by left].
  intros ([nb dd] & d1 & E & E2)%txBind_Ok. right.
  assert (deducted = dd ∧ d' = d1) as [-> ->] by (destruct (f64_gt dd f64_zero); by injection E2).
  clear E2. revert E. unfold deductUsageBillingBalance.
  intros (q & d2 & [Eq ->]%param_Ok & E)%txBind_Ok. cbn [txBind txGet] in E. unfold txBind at 1, txGet in E.
  destruct (activeUser d user) as [u|] eqn:Eu; [|done]. cbn in E. injection E as _ <- <-.
  destruct (sqlParam_quantized amount q Eq) as [n Hn]. exists n, q. split_and!; try done.
  rewrite (store8_sub _ _ _ Hn). apply paid_put with u; [done|]. cbn [walletStep available held].
  assert (0 <= n).
  { pose proof (sqlParam_quantized_nonneg amount q Eq Hpos) as Hq. by apply (onScale8_nonneg q n). }
  by rewrite (proj2 (Z.leb_le 0 n)).
Qed.

Lemma reserveBalance_paid user amount d r d' :
  (∃ v, amount = normalizeBatchImageBalanceAmount v) →
  reserveUsageBillingBatchImageBalance user amount d = Ok (r, d') →
  (nothing amount ∧ d' = d) ∨ ∃ n, unitsOf amount n ∧ paid user (Some (Held n)) d d'.
Proof.
  unfold reserveUsageBillingBatchImageBalance, nothing. intros [v Ev].
  destruct (f64_le amount f64_zero) eqn:Hle; [intros [= <- <-]; by left|].
  intros (q & d1 & [Eq ->]%param_Ok & E)%txBind_Ok. unfold txBind at 1, txGet in E. right.
  destruct (activeUser d user) as [u|] eqn:Eu; [|done].
  destruct (Qle_bool q (col8 (balance u))) eqn:Hb; [|done]. cbn in E. injection E as _ <-.
  pose proof Eq as Eq'. rewrite Ev in Eq'. apply sqlParam_normalized in Eq' as [n Hn].
  exists n. split; [by exists q|]. rewrite (store8_sub _ _ _ Hn), (store8_add _ _ _ Hn).
  apply paid_put with u; [done|]. cbn [walletStep available held].
  rewrite (onScale8_le _ _ _ Hn) in Hb. rewrite Hb, andb_true_r.
  by rewrite (proj2 (Z.leb_le 0 n) (onScale8_nonneg q n Hn (sqlParam_nonneg amount q Eq Hle))).
Qed.

Lemma releaseBalance_paid user amount d r d' :
  releaseUsageBillingBatchImageFrozenBalance user amount d = Ok (r, d') →
  (nothing (normalizeBatchImageBalanceAmount amount) ∧ d' = d) ∨
  ∃ n, unitsOf (normalizeBatchImageBalanceAmount amount) n ∧ paid user (Some (Returned n)) d d'.
Proof.
  unfold releaseUsageBillingBatchImageFrozenBalance, nothing. cbv zeta.
  destruct (f64_le (normalizeBatchImageBalanceAmount amount) f64_zero) eqn:Hle; [intros [= <- <-]; by left|].
  intros (q & d1 & [Eq ->]%param_Ok & E)%txBind_Ok. unfold txBind at 1, txGet in E. right.
  destruct (activeUser d user) as [u|] eqn:Eu; [|done].
  destruct (Qle_bool q (col8 (frozen u))) eqn:Hb; [|done]. cbn in E. injection E as _ <-.
  destruct (sqlParam_normalized amount q Eq) as [n Hn].
  exists n. split; [by exists q|]. rewrite (store8_sub _ _ _ Hn), (store8_add _ _ _ Hn).
  apply paid_put with u; [done|]. cbn [walletStep available held].
  rewrite (onScale8_le _ _ _ Hn) in Hb. by rewrite Hb.
Qed.

(** The two CASE expressions of the statement amount to the difference. *)
Lemma refund_extra b p q h a :
  onScale8 p h → onScale8 q a →
  store8 (col8 b + (if Qle_bool p q then 0 else p - q) - (if Qle_bool q p then 0 else q - p))%Q = b + h - a.
Proof.
  intros Hp Hq. unfold onScale8 in Hp, Hq.
  assert (Hd : onScale8 (p - q) (h - a)).
  { unfold onScale8. rewrite Hp, Hq. unfold Qeq, col8, units8; cbn; lia. }
  assert (E : (col8 b + (if Qle_bool p q then 0 else p - q) - (if Qle_bool q p then 0 else q - p) == col8 b + (p - q))%Q).
  { destruct (Qle_bool p q) eqn:E1, (Qle_bool q p) eqn:E2; try ring.
    - apply Qle_bool_iff in E1, E2. rewrite (Qle_antisym _ _ E1 E2). ring.
    - exfalso. destruct (Qlt_le_dec p q) as [Hlt%Qlt_le_weak|Hle]; apply Qle_bool_iff in Hlt || apply Qle_bool_iff in Hle;
        congruence. }
  unfold store8. rewrite E. replace (b + h - a) with (b + (h - a)) by lia. exact (store8_add b _ _ Hd).
Qed.

Lemma captureBalance_paid user hold actual d r d' :
  let h := normalizeBatchImageBalanceAmount hold in
  let a := normalizeBatchImageBalanceAmount actual in
  captureUsageBillingBatchImageBalance user hold actual d = Ok (r, d') →
  (nothing h ∧ nothing a ∧ d' = d) ∨
  ∃ n m, unitsOf h n ∧ unitsOf a m ∧ paid user (Some (Settled n m)) d d'.
Proof.
  intros h a. unfold captureUsageBillingBatchImageBalance, nothing. cbv zeta. fold h a.
  destruct (f64_le h f64_zero && f64_le a f64_zero) eqn:Hle.
  { apply andb_true_iff in Hle as [??]. intros [= <- <-]. by left. }
  destruct (f64_gt (f64_sub a h) batchImageCostEpsilon); [done|].
  intros (p & d1 & [Ep ->]%param_Ok & (q & d2 & [Eq ->]%param_Ok & E)%txBind_Ok)%txBind_Ok.
  unfold txBind at 1, txGet in E. right.
  destruct (activeUser d user) as [u|] eqn:Eu; [|done].
  destruct (Qle_bool p (col8 (frozen u))) eqn:Hb; [|done]. cbn in E. injection E as _ <-.
  destruct (sqlParam_normalized hold p Ep) as [n Hn], (sqlParam_normalized actual q Eq) as [m Hm].
  exists n, m. split_and!; [by exists p | by exists q |].
  rewrite (store8_sub (frozen u) _ _ Hn), (refund_extra _ _ _ _ _ Hn Hm).
  apply paid_put with u; [done|]. cbn [walletStep available held].
  rewrite (onScale8_le _ _ _ Hn) in Hb. by rewrite Hb.
Qed.

(** ** Transactions *)

Definition requestsOf (d : billingDB) : gset (string * Z) := dom (dedup d) ∪ dom (dedupArchive d).

Lemma elem_of_requestsOf d k :
  k ∈ requestsOf d ↔ is_Some (dedup d !! k) ∨ is_Some (dedupArchive d !! k).
Proof. unfold requestsOf. by rewrite elem_of_union, !elem_of_dom. Qed.

Lemma claim_new id key fp d d' :
  claimUsageBillingRequest id key fp d = Ok (true, d') →
  (id, key) ∉ requestsOf d ∧ d' = withDedup (<[(id, key) := fp]> (dedup d)) d.
Proof.
  unfold claimUsageBillingRequest. cbv zeta. unfold txBind at 1, txGet. intros E.
  destruct (dedup d !! (id, key)) as [f|] eqn:E1; [by destruct (eqs _ _)|].
  unfold txBind, txPut in E. destruct (dedupArchive d !! (id, key)) as [f|] eqn:E2; [by destruct (eqs _ _)|].
  injection E as <-. split; [|done]. rewrite elem_of_requestsOf, E1, E2. intros [[? ?]|[? ?]]; done.
Qed.

Lemma claim_known id key fp d d' : claimUsageBillingRequest id key fp d = Ok (false, d') → (id, key) ∈ requestsOf d.
Proof.
  unfold claimUsageBillingRequest. cbv zeta. unfold txBind at 1, txGet. rewrite elem_of_requestsOf. intros E.
  destruct (dedup d !! (id, key)) as [f|] eqn:E1; [by left|].
  unfold txBind, txPut in E. destruct (dedupArchive d !! (id, key)) as [f|] eqn:E2; [by right|done].
Qed.

Lemma requestsOf_claim k fp d : requestsOf (withDedup (<[k := fp]> (dedup d)) d) = {[k]} ∪ requestsOf d.
Proof. unfold requestsOf. cbn [dedup dedupArchive withDedup etaDB]. rewrite dom_insert_L. by rewrite (assoc_L (∪)). Qed.

Lemma lock_same user d a d' : lockUsageBillingUser user d = Ok (a, d') → d' = d.
Proof.
  unfold lockUsageBillingUser. destruct (user <=? 0); [by intros [= _ <-]|]. unfold txBind, txGet.
  destruct (activeUser d user); by intros [= _ <-].
Qed.

Lemma keeps_use {A} (m : Tx A) d a d' : keeps d m → m d = Ok (a, d') → sameMoney d d'.
Proof. intros Hm E. by apply (Hm d a d'). Qed.

Lemma applyEffects_paid R c d r d' :
  applyUsageBillingEffects dbNow now c d = Ok (r, d') →
  arApplied r = true ∧ ∃ e, eventOf R (CallApply c) (ApplyReply r) e ∧ paid (uUserID c) e d d'.
Proof.
  unfold applyUsageBillingEffects.
  intros ([[rest covered] allocations] & d1 & E1 & E)%txBind_Ok. apply (keeps_use _ _ _ _ (keeps_allocate _ _)) in E1.
  apply txBind_Ok in E as ([[newBalance deducted] allocations'] & d2 & E2 & E). apply chargeBalance_paid in E2.
  assert (Hrest : arApplied r = true ∧ arBalanceAmountUSD r = deducted ∧ sameMoney d2 d').
  { apply txBind_Ok in E as (? & d3 & E3 & E). apply txBind_Ok in E as (? & d4 & E4 & E).
    apply txBind_Ok in E as (? & d5 & E5 & E). apply txBind_Ok in E as (? & d6 & E6 & E). injection E as <- <-.
    split_and!; [done..|].
    assert (K3 : sameMoney d2 d3) by (eapply keeps_use, E3; frame; apply keeps_member).
    assert (K4 : sameMoney d3 d4) by (eapply keeps_use, E4; frame; apply keeps_keyQuota).
    assert (K5 : sameMoney d4 d5) by (eapply keeps_use, E5; frame; apply keeps_keyRate).
    assert (K6 : sameMoney d5 d6) by (eapply keeps_use, E6; frame; apply keeps_accountQuota).
    unfold sameMoney in *. intuition congruence. }
  destruct Hrest as (Ha & Hb & Hs). split; [done|].
  destruct E2 as [[-> ->]|(n & q & -> & Hn & Hp)].
  - exists None. split; [by constructor|]. apply paid_between with d1 d1; try done; by apply paid_none.
  - exists (Some (Charged n)). split; [by econstructor|]. by apply paid_between with d1 d2.
Qed.

Lemma Normalize_fields c :
  cUserID (Normalize c) = cUserID c ∧ cAPIKeyID (Normalize c) = cAPIKeyID c ∧
  cRequestID (Normalize c) = TrimSpace (cRequestID c) ∧ holdOf (Normalize c) = holdOf c.
Proof. unfold Normalize. cbv zeta. repeat case_match; done. Qed.

Lemma NormalizeUsage_fields c :
  uUserID (NormalizeUsage c) = uUserID c ∧ uAPIKeyID (NormalizeUsage c) = uAPIKeyID c ∧
  uRequestID (NormalizeUsage c) = TrimSpace (uRequestID c).
Proof. unfold NormalizeUsage. cbv zeta. repeat case_match; done. Qed.

Lemma plan_hold c plan :
  PlanBatchImageBillingCapture c = Ok plan → planBalanceHold plan = EffectiveBatchImageBalanceHoldAmount c.
Proof.
  unfold PlanBatchImageBillingCapture, planBatchImageBaseAmountCapture. cbv zeta.
  repeat case_match; try done; by intros [= <-].
Qed.

Lemma reserve_paid R c c0 d r c' d' :
  reserveUsageBillingBatchImageBilling dbNow now c d = Ok ((r, c'), d') →
  ∃ e, eventOf R (CallHold batchImageAllowanceReserve c0) (HoldReply r) e ∧ paid (cUserID c) e d d'.
Proof.
  unfold reserveUsageBillingBatchImageBilling. cbv zeta.
  destruct (f64_le (cHoldAmount c) f64_zero && f64_le (cBaseAmountUSD c) f64_zero).
  { intros [= <- <- <-]. exists None. split; [by constructor | by apply paid_none]. }
  intros ([[rest covered] allocations] & d1 & E1 & E)%txBind_Ok.
  apply (keeps_use _ _ _ _ (keeps_allocate _ _)) in E1.
  destruct (eqs _ _ && _); [done|].
  set (amount := normalizeBatchImageBalanceAmount _) in E.
  apply txBind_Ok in E as (held & d2 & E2 & E). apply reserveBalance_paid in E2; [|by eexists].
  apply txBind_Ok in E as (estimated & d3 & E3 & E). apply txBind_Ok in E as (? & d4 & E4 & E).
  injection E as <- <- <-.
  assert (K3 : sameMoney d2 d3) by (eapply keeps_use, E3; frame).
  assert (K4 : sameMoney d3 d4).
  { eapply keeps_use, E4. unfold persistBatchImageBillingHold. frame. apply keeps_updateEntity. }
  assert (K : sameMoney d2 d4) by (unfold sameMoney in *; intuition congruence).
  destruct E2 as [[Hn ->]|(n & Hn & Hp)].
  - exists None. split; [by constructor|]. apply paid_between with d1 d1; try done; by apply paid_none.
  - exists (Some (Held n)). split; [by constructor|]. by apply paid_between with d1 d2.
Qed.

Lemma capture_paid R c d r c' d' :
  captureUsageBillingBatchImageBilling (Normalize c) d = Ok ((r, c'), d') →
  ∃ e, eventOf R (CallHold batchImageAllowanceCapture c) (HoldReply r) e ∧ paid (cUserID c) e d d'.
Proof.
  destruct (Normalize_fields c) as (Hu & _ & _ & Hh).
  unfold captureUsageBillingBatchImageBilling. intros (? & d1 & E1 & E)%txBind_Ok.
  assert (K1 : sameMoney d d1).
  { eapply keeps_use, E1. unfold batchImageHoldClaimExists. frame. }
  destruct (PlanBatchImageBillingCapture (Normalize c)) as [plan|] eqn:Ep; [|done]. cbv zeta in E.
  apply txBind_Ok in E as (? & d2 & E2 & E). apply (keeps_use _ _ _ _ (keeps_release _ _ _ _)) in E2.
  apply txBind_Ok in E as (r1 & d3 & E3 & E). apply captureBalance_paid in E3. injection E as <- <- <-.
  change (cUserID (SetActualAmount _ _)) with (cUserID (Normalize c)) in E3. rewrite (plan_hold _ _ Ep) in E3. fold (holdOf (Normalize c)) in E3. rewrite Hh, Hu in E3.
  assert (K2 : sameMoney d d2) by (unfold sameMoney in *; intuition congruence).
  destruct E3 as [(H1' & H2' & ->)|(n & m & Hn & Hm & Hp)].
  - exists None. split; [by constructor | by apply paid_none].
  - exists (Some (Settled n m)). split; [by constructor|]. by apply paid_between with d2 d3.
Qed.

Lemma release_paid c d r c' d' :
  releaseUsageBillingBatchImageBilling (Normalize c) d = Ok ((r, c'), d') →
  ∃ e, eventOf (requestsOf d) (CallHold batchImageAllowanceRelease c) (HoldReply r) e ∧ paid (cUserID c) e d d'.
Proof.
  destruct (Normalize_fields c) as (Hu & Hk & _ & Hh).
  unfold releaseUsageBillingBatchImageBilling, batchImageHoldClaimExists, txBind at 1, txBind at 1, txGet, txRet.
  rewrite Hk. fold (holdKey c). cbn [negb].
  destruct (claimed _ _ d) eqn:Ec; cbn [negb].
  - intros (? & d2 & E2 & E)%txBind_Ok. apply (keeps_use _ _ _ _ (keeps_release _ _ _ _)) in E2.
    apply txBind_Ok in E as (r1 & d3 & E3 & E). apply releaseBalance_paid in E3. injection E as <- <- <-.
    rewrite Hu in E3. fold (holdOf (Normalize c)) in E3. rewrite Hh in E3.
    destruct E3 as [(Hz & ->)|(n & Hn & Hp)].
    + exists None. split; [constructor; by left | by apply paid_none].
    + exists (Some (Returned n)). split; [|by apply paid_between with d2 d3].
      constructor; [done|]. apply elem_of_requestsOf. unfold claimed in Ec.
      apply orb_true_iff in Ec as [Ec|Ec]; apply bool_decide_eq_true in Ec; [by left | by right].
  - intros [= <- <- <-]. exists None. split; [|by apply paid_none]. constructor. right.
    rewrite elem_of_requestsOf. unfold claimed in Ec. apply orb_false_iff in Ec as [Ec1 Ec2].
    apply bool_decide_eq_false in Ec1, Ec2. intros [?|?]; [by apply Ec1 | by apply Ec2].
Qed.

Lemma eventOf_applied R operation c r e :
  eventOf R (CallHold operation c) (HoldReply r) e → eventOf R (CallHold operation c) (HoldReply (setApplied r)) e.
Proof. intros Hev. inversion Hev; subst; by econstructor. Qed.

Lemma holdApply_paid operation c d r c' d' :
  holdApply dbNow now operation (Normalize c) d = Ok ((r, c'), d') →
  ∃ e, eventOf (requestsOf d) (CallHold operation c) (HoldReply r) e ∧ paid (cUserID c) e d d'.
Proof.
  destruct (Normalize_fields c) as (Hu & _).
  destruct operation; intros E; [rewrite <- Hu; by eapply reserve_paid | by eapply capture_paid | by eapply release_paid].
Qed.

(** A transaction that claimed its request and paid. *)
Lemma paid_step call r e fp d d' :
  isApplied r = true → requestKey call ∉ requestsOf d →
  eventOf (requestsOf (withDedup (<[requestKey call := fp]> (dedup d)) d)) call r e →
  paid (payer call) e (withDedup (<[requestKey call := fp]> (dedup d)) d) d' →
  bankStep (bankOf d) call (Some r) (bankOf d').
Proof.
  intros Ha Hk He (Hd & Har & Hs). rewrite requestsOf_claim in He.
  assert (E : bankOf d' = mkBank (omap walletOf (users d')) ({[requestKey call]} ∪ applied (bankOf d))).
  { unfold bankOf. cbn [applied]. f_equal. fold (requestsOf d') (requestsOf d). rewrite <- (requestsOf_claim _ fp d).
    unfold requestsOf. by rewrite Hd, Har. }
  rewrite E. by apply bank_applied with e.
Qed.

Lemma applyOnce_step c d r d' :
  applyOnce dbNow now (NormalizeUsage c) d = (r, d') →
  bankStep (bankOf d) (CallApply c) (ApplyReply <$> answer r) (bankOf d').
Proof.
  destruct (NormalizeUsage_fields c) as (Hu & Hk & Hi). unfold applyOnce. rewrite Hi, Hk, Hu.
  destruct (claimUsageBillingRequest _ _ _ d) as [[[|] d1]|e] eqn:E1.
  - apply claim_new in E1 as [Hnew ->]. set (fp := uRequestFingerprint _).
    destruct (txBind _ _ _) as [[r1 d2]|e] eqn:E2; intros [= <- <-]; [|constructor].
    apply txBind_Ok in E2 as (? & d3 & ->%lock_same & E2).
    apply (applyEffects_paid (requestsOf (withDedup (<[requestKey (CallApply c) := fp]> (dedup d)) d))) in E2
      as (Ha & ev & Hev & Hp).
    rewrite Hu in Hp. apply (paid_step (CallApply c) (ApplyReply r1) ev fp); try done.
    inversion Hev; subst; by econstructor.
  - intros [= <- <-]. apply claim_known in E1. by apply bank_repeated.
  - intros [= <- <-]. constructor.
Qed.

Lemma applyHoldOnce_step operation c d r d' :
  applyBatchImageBalanceHoldOnce dbNow now operation (Normalize c) d = (r, d') →
  bankStep (bankOf d) (CallHold operation c) (HoldReply ∘ fst <$> answer r) (bankOf d').
Proof.
  destruct (Normalize_fields c) as (Hu & Hk & Hi & _). unfold applyBatchImageBalanceHoldOnce. rewrite Hi, Hk, Hu.
  destruct (claimUsageBillingRequest _ _ _ d) as [[[|] d1]|e] eqn:E1.
  - apply claim_new in E1 as [Hnew ->]. set (fp := cRequestFingerprint _).
    destruct (txBind _ _ _) as [[r1 d2]|e] eqn:E2; intros [= <- <-]; [|constructor].
    apply txBind_Ok in E2 as (? & d3 & ->%lock_same & E2). apply txBind_Ok in E2 as ([r2 c2] & d4 & E2 & E3).
    apply holdApply_paid in E2 as (ev & Hev & Hp).
    apply txBind_Ok in E3 as (? & d5 & E3 & [= <- <-]). apply (keeps_use _ _ _ _ (keeps_allowance _ _ _)) in E3.
    apply (paid_step (CallHold operation c) (HoldReply (setApplied r2)) ev fp); [done..| |].
    + by apply eventOf_applied.
    + by apply paid_between with (withDedup (<[(TrimSpace (cRequestID c), cAPIKeyID c) := fp]> (dedup d)) d) d4.
  - intros [= <- <-]. apply claim_known in E1. apply bank_repeated; [|done].
    destruct operation; cbn; [done| |done]. by destruct (PlanBatchImageBillingCapture _).
  - intros [= <- <-]. constructor.
Qed.

End wallet.

Section calls.
Context `{UnicodeCase} `{BillingText} `{SQLNumeric} `{Calendar} `{SQLCalendar} `{GoWeek} `{!SQLNumericLaws}.

Lemma ledger_call_step w call d r d' :
  runCall w call d = (r, d') → bankStep (bankOf d) call (answer r) (bankOf d').
Proof.
  destruct call as [c|operation c]; cbn [runCall]; unfold Apply, applyBatchImageBalanceHold; cbv zeta.
  - destruct (eqs _ "") eqn:Eid; [intros [= <- <-]; constructor|].
    destruct (retry_outcome (retries w) (applyOnce (dbClock w) (clock w) (NormalizeUsage c)) d) as [->|[e ->]];
      [|intros [= <- <-]; constructor].
    destruct (applyOnce _ _ _ d) as [r1 d1] eqn:E. apply (applyOnce_step _ _) in E. destruct r1; by intros [= <- <-].
  - destruct (eqs _ "") eqn:Eid; [intros [= <- <-]; constructor|].
    destruct (retry_outcome (retries w) (applyBatchImageBalanceHoldOnce (dbClock w) (clock w) operation (Normalize c)) d)
      as [->|[e ->]]; [|intros [= <- <-]; constructor].
    destruct (applyBatchImageBalanceHoldOnce _ _ _ _ d) as [r1 d1] eqn:E. apply (applyHoldOnce_step _ _) in E.
    destruct r1 as [[r1 c1]|]; by intros [= <- <-].
Qed.

Lemma run_calls calls d trace d' : runCalls calls d = (trace, d') → bankRun (bankOf d) trace (bankOf d').
Proof.
  revert d trace. induction calls as [|[w call] calls IH]; intros d trace; cbn [runCalls].
  { intros [= <- <-]. constructor. }
  destruct (runCall w call d) as [r d1] eqn:E1. destruct (runCalls calls d1) as [t d2] eqn:E2. intros [= <- <-].
  econstructor; [by eapply ledger_call_step | by apply IH].
Qed.

Lemma total_cons f e es : total f (e :: es) = f e + total f es.
Proof. reflexivity. Qed.

Lemma walletStep_totals e w w' :
  walletStep e w = Some w' →
  available w' + held w' = available w + held w - owed e ∧ held w' = held w + reserved e ∧
  (0 <= held w → 0 <= held w').
Proof.
  destruct e; cbn [walletStep owed reserved]; repeat case_match; try done; intros [= <-]; cbn [available held]; lia.
Qed.

Lemma bankRun_history s trace s' user w :
  bankRun s trace s' → wallets s !! user = Some w →
  ∃ w' es, wallets s' !! user = Some w' ∧ history user trace es ∧
    available w' + held w' = available w + held w - total owed es ∧ held w' = held w + total reserved es ∧
    (0 <= held w → 0 <= held w').
Proof.
  intros Hrun. revert w. induction Hrun as [s|s call r s1 trace s2 Hstep _ IH]; intros w Hw.
  { exists w, []. split_and!; [done | constructor | cbn [total foldr]; lia..]. }
  destruct Hstep as [|r Ha _|r e ws Ha _ Hev Hs].
  - destruct (IH w Hw) as (w' & es & ? & ? & ?). exists w', es. split_and!; try done; try tauto. by apply hist_other.
  - destruct (IH w Hw) as (w' & es & ? & ? & ?). exists w', es. split_and!; try done; try tauto.
    apply hist_other; [|done]. intros r' [= <-]. congruence.
  - destruct e as [e|]; cbn [eventStep] in Hs.
    + destruct (wallets s !! payer call) as [v|] eqn:Ev; [|done].
      destruct (walletStep e v) as [v'|] eqn:Es; [|done]. cbn in Hs. injection Hs as <-.
      destruct (decide (payer call = user)) as [Hp|Hp].
      * rewrite Hp in Ev. assert (v = w) as -> by congruence.
        destruct (walletStep_totals _ _ _ Es) as (T1 & T2 & T3).
        destruct (IH v') as (w' & es & ? & ? & ? & ? & ?); [cbn [wallets]; rewrite Hp; apply lookup_insert_eq|].
        exists w', (e :: es). split_and!; [done | by eapply hist_event | rewrite total_cons; lia | rewrite total_cons; lia | tauto].
      * destruct (IH w) as (w' & es & ? & ? & ?); [cbn [wallets]; by rewrite lookup_insert_ne|].
        exists w', es. split_and!; try done; try tauto. apply hist_other; [|done]. by intros r' [= <-].
    + injection Hs as <-. destruct (IH w Hw) as (w' & es & ? & ? & ?). exists w', es.
      split_and!; try done; try tauto. by eapply hist_free.
Qed.

Lemma bankRun_applied s trace s' : bankRun s trace s' → applied s ⊆ applied s'.
Proof.
  induction 1 as [|s call r s1 trace s2 Hstep _ IH]; [done|]. etrans; [|exact IH].
  destruct Hstep; cbn [applied]; set_solver.
Qed.

Lemma bankStep_key s call r s' : bankStep s call (Some r) s' → requestKey call ∈ applied s'.
Proof. intros Hs. inversion Hs; subst; [done|]. cbn [applied]. set_solver. Qed.

Lemma bankStep_known s call r s' :
  bankStep s call (Some r) s' → requestKey call ∈ applied s → isApplied r = false.
Proof. intros Hs. by inversion Hs. Qed.

(** A call that does not apply leaves every table as it was. *)
Lemma unapplied_same w call d r d' :
  runCall w call d = (r, d') → (∀ r1, r = Ok r1 → isApplied r1 = false) → d' = d.
Proof.
  destruct call as [c|operation c]; cbn [runCall]; unfold Apply, applyBatchImageBalanceHold; cbv zeta.
  - destruct (eqs _ "") eqn:Eid; [by intros [= <- <-]|].
    destruct (retry_outcome (retries w) (applyOnce (dbClock w) (clock w) (NormalizeUsage c)) d) as [->|[e ->]];
      [|by intros [= <- <-]].
    unfold applyOnce. destruct (claimUsageBillingRequest _ _ _ d) as [[[|] d1]|e]; [|by intros [= <- <-]..].
    destruct (txBind _ _ _) as [[r1 d2]|e] eqn:E2; intros [= <- <-]; [|done]. intros Hr.
    apply txBind_Ok in E2 as (? & d3 & _ & E2). apply (applyEffects_paid _ _ ∅) in E2 as [Ha _].
    specialize (Hr _ eq_refl). cbn in Hr. congruence.
  - destruct (eqs _ "") eqn:Eid; [by intros [= <- <-]|].
    destruct (retry_outcome (retries w) (applyBatchImageBalanceHoldOnce (dbClock w) (clock w) operation (Normalize c)) d)
      as [->|[e ->]]; [|by intros [= <- <-]].
    unfold applyBatchImageBalanceHoldOnce.
    destruct (claimUsageBillingRequest _ _ _ d) as [[[|] d1]|e]; [|by intros [= <- <-]..].
    destruct (txBind _ _ _) as [[[r1 c1] d2]|e] eqn:E2; intros [= <- <-]; [|done]. intros Hr.
    apply txBind_Ok in E2 as (? & d3 & _ & E2). apply txBind_Ok in E2 as ([r2 c2] & d4 & _ & E2).
    apply txBind_Ok in E2 as (? & d5 & _ & [= <- <- <-]). by specialize (Hr _ eq_refl).
Qed.

(** C2: refinement.  Every run of the repository's calls [Apply],
    [ReserveBatchImageBalance], [CaptureBatchImageBalance] and
    [ReleaseBatchImageBalance] — with their deadlock retries, subscriptions,
    allowances and errors — is a run of the abstract bank: a call is rejected
    without effect, or answers that its request was applied before, or applies
    one new request with one event of the payer's wallet, whose amounts are those
    of the answer. *)
Theorem ledger_refines_wallets calls d trace d' :
  runCalls calls d = (trace, d') → bankRun (bankOf d) trace (bankOf d').
Proof. apply run_calls. Qed.

(** C19: invariant.  Whatever calls run, the money of a user is conserved:
    available plus frozen balance falls by exactly what was charged and settled,
    the frozen part is what was held and neither settled nor returned, and it
    never becomes negative. *)
Theorem wallet_conserved calls d trace d' user u :
  runCalls calls d = (trace, d') → activeUser d user = Some u →
  ∃ u' events, activeUser d' user = Some u' ∧ history user trace events ∧
    balance u' + frozen u' = balance u + frozen u - total owed events ∧
    frozen u' = frozen u + total reserved events ∧
    (0 <= frozen u → 0 <= frozen u').
Proof.
  intros Hrun%run_calls (Hu & Hw)%wallet_active.
  destruct (bankRun_history _ _ _ user _ Hrun Hw) as (w' & es & Hw' & Hh & H1' & H2' & H3').
  unfold bankOf in Hw'; cbn [wallets] in Hw'. rewrite lookup_omap in Hw'.
  destruct (users d' !! user) as [u'|] eqn:Eu; [|done]. cbn in Hw'. unfold walletOf in Hw'.
  destruct (userDeleted u') eqn:Ed; [done|]. injection Hw' as <-.
  exists u', es. split_and!; try done. unfold activeUser. by rewrite Eu, Ed.
Qed.

(** C21: safety.  A request is applied at most once: after a call has applied its
    request, any call with the same request identifier and key — of any kind, with
    any payload, after any other calls and retries — applies nothing and leaves
    every table unchanged. *)
Theorem request_applied_once w call d r d1 calls trace d2 w' call' r' d3 :
  runCall w call d = (Ok r, d1) → isApplied r = true →
  runCalls calls d1 = (trace, d2) →
  requestKey call' = requestKey call → runCall w' call' d2 = (r', d3) →
  d3 = d2 ∧ ∀ r1, r' = Ok r1 → isApplied r1 = false.
Proof.
  intros E1 Ha Hrun Hk E2.
  assert (Hin : requestKey call' ∈ applied (bankOf d2)).
  { apply run_calls, bankRun_applied in Hrun. apply Hrun. rewrite Hk. apply ledger_call_step in E1.
    by apply bankStep_key in E1. }
  assert (Hn : ∀ r1, r' = Ok r1 → isApplied r1 = false).
  { intros r1 ->. apply ledger_call_step in E2. by eapply bankStep_known. }
  split; [|done]. by apply (unapplied_same _ _ _ _ _ E2).
Qed.

End calls.

(** ** A sample: a creative run that is held and settled, then a charge *)

Section sample.
#[local] Existing Instances ascii_case plainText decimal8 utcSQL utcWeek decimal8_laws.
#[local] Instance utc : Calendar := fixedZone 0.

Definition cents (n : Z) : float64 := f64_div (f64_of_Z n) (f64_of_Z 100).

Definition sampleDay : Time := 63903168000 * Second.

Definition sampleDB : billingDB :=
  mkBillingDB {[7 := mkUserRow 1000000000 0 false]} ∅ ∅ ∅ ∅
    {[5 := mkApiKeyRow StatusAPIKeyActive false 0 0 0 0 0 0 0 0 None None None false]} ∅ ∅
    {[(true, "run1"%string) := mkEntityRow 0 [] None 0 false]} [].

Definition sampleWorld : callWorld :=
  mkCallWorld sampleDay sampleDay
    (mkRetryWorld (λ n, if n =? 1 then Aborted true (OtherErr "deadlock detected" []) else Runs) (λ _, None) (λ _, None)).

(** The first attempt of every call ends in a deadlock. *)
Definition sampleHold (requestID : string) (hold balanceHold actual : float64) : BatchImageBalanceHoldCommand :=
  mkHoldCommand requestID 5 "" "" 7 0 None None "balance" None "run1" hold actual 1 f64_zero f64_zero f64_zero
    f64_zero f64_zero f64_zero false balanceHold [] false true sampleDay.

Definition sampleReserve : ledgerCall :=
  CallHold batchImageAllowanceReserve (sampleHold (CreativeHoldRequestID "run1") (cents 250) f64_zero f64_zero).
Definition sampleCapture : ledgerCall :=
  CallHold batchImageAllowanceCapture (sampleHold "capture1" (cents 250) (cents 250) (cents 150)).
Definition sampleCharge : ledgerCall :=
  CallApply (mkUsageCommand "req1" 5 "" "" "balance" None 7 0 None 0 None (cents 125) f64_zero f64_zero f64_zero f64_zero
    false false "" "" "" "" 0 0 0 0 0 0 "" f64_zero f64_zero f64_zero).

Definition sampleCalls : list (callWorld * ledgerCall) :=
  (λ call, (sampleWorld, call)) <$> [sampleReserve; sampleCapture; sampleCharge; sampleCharge].

Definition sampleEnd : billingDB := snd (runCalls sampleCalls sampleDB).

Example sample_balances :
  map (λ p, option_map isApplied (snd p)) (fst (runCalls sampleCalls sampleDB)) = [Some true; Some true; Some true; Some false] ∧
  activeUser sampleEnd 7 = Some (mkUserRow 725000000 0 false).
Proof. by vm_compute. Qed.

Lemma ledger_refines_wallets_witness :
  activeUser sampleEnd 7 = Some (mkUserRow 725000000 0 false) ∧
  bankRun (bankOf sampleDB) (fst (runCalls sampleCalls sampleDB)) (bankOf sampleEnd).
Proof. split; [by vm_compute|]. apply (ledger_refines_wallets sampleCalls), surjective_pairing. Defined.

Lemma wallet_conserved_witness :
  ∃ events, history 7 (fst (runCalls sampleCalls sampleDB)) events ∧
    725000000 = 1000000000 - total owed events ∧ 0 = total reserved events.
Proof.
  destruct (wallet_conserved sampleCalls sampleDB _ sampleEnd 7 (mkUserRow 1000000000 0 false) (surjective_pairing _)
    eq_refl) as (u' & events & Hu & Hh & Ht & Hr & _).
  assert (u' = mkUserRow 725000000 0 false) as ->.
  { destruct sample_balances as [_ E]. rewrite E in Hu. by injection Hu. }
  exists events. cbn [balance frozen] in Ht, Hr. split_and!; [done | lia | lia].
Defined.

Lemma request_applied_once_witness :
  let d1 := snd (runCall sampleWorld sampleCharge sampleDB) in
  let d2 := snd (runCalls [(sampleWorld, sampleReserve)] d1) in
  let again := CallHold batchImageAllowanceRelease (sampleHold "req1" (cents 250) (cents 250) f64_zero) in
  balance <$> users d2 !! 7 = Some 625000000 ∧
  snd (runCall sampleWorld again d2) = d2 ∧
  ∀ r, fst (runCall sampleWorld again d2) = Ok r → isApplied r = false.
Proof.
  intros d1 d2 again. split; [by vm_compute|].
  destruct (fst (runCall sampleWorld sampleCharge sampleDB)) as [r|e] eqn:E; [|vm_compute in E; congruence].
  eapply (request_applied_once sampleWorld sampleCharge sampleDB r d1 [(sampleWorld, sampleReserve)] _ d2
           sampleWorld again).
  - rewrite (surjective_pairing (runCall _ _ _)). by rewrite E.
  - vm_compute in E. by injection E as <-.
  - apply surjective_pairing.
  - reflexivity.
  - apply surjective_pairing.
Defined.

End sample.
