(* ===== verification/CreativeRunOutbox.v ===== *)
(** * The outbox of creative runs

    [repository/creative_run_outbox_repo.go]: the table [creative_run_outbox]
    holds at most one event per run and operation.  [Ensure] opens an event,
    [Claim] leases the oldest available events to one worker under a fresh
    token, and [Complete], [Retry] and [Cancel] act only for the holder of the
    token.  Each statement is one step on the table; [now] is the database
    clock of the statement ([NOW()]).  The table is kept in the order of its
    primary key. *)

From S2P Require Import Prelude GoRuntime.
#[local] Open Scope Z_scope.

Definition CreativeRunOutboxProvision : string := "provision".
Definition CreativeRunOutboxSettle : string := "settle".
Definition CreativeRunOutboxRelease : string := "release".

Inductive CreativeRunOutboxStatus :=
  | CreativeRunOutboxPending
  | CreativeRunOutboxLeased
  | CreativeRunOutboxDone
  | CreativeRunOutboxCancelled.

#[export] Instance outbox_status_eq_dec : EqDecision CreativeRunOutboxStatus.
Proof. solve_decision. Defined.

Record CreativeRunOutbox := mkEvent {
  evID : Z;
  evRunID : string;
  evOperation : string;
  evStatus : CreativeRunOutboxStatus;
  AvailableAt : Time;
  LeaseToken : option string;
  LeaseUntil : option Time;
  evAttemptCount : Z;
  LastError : option string;
  evCreatedAt : Time;
  evUpdatedAt : Time;
}.

(** The rows in the order of [id], and the next value of its sequence. *)
Record outboxTable := mkOutbox { events : list CreativeRunOutbox; nextEventID : Z }.

Definition emptyOutbox : outboxTable := mkOutbox [] 1.

Definition statusIs (e : CreativeRunOutbox) (s : CreativeRunOutboxStatus) : bool := bool_decide (evStatus e = s).

(** The [DO UPDATE] arm of [Ensure]. *)
Definition reopen (now availableAt : Time) (e : CreativeRunOutbox) : CreativeRunOutbox :=
  let closed := statusIs e CreativeRunOutboxDone || statusIs e CreativeRunOutboxCancelled
                || statusIs e CreativeRunOutboxLeased in
  let leased := statusIs e CreativeRunOutboxLeased in
  mkEvent (evID e) (evRunID e) (evOperation e)
    (if closed then evStatus e else CreativeRunOutboxPending)
    (if closed then AvailableAt e else availableAt)
    (if leased then LeaseToken e else None)
    (if leased then LeaseUntil e else None)
    (evAttemptCount e) (LastError e) (evCreatedAt e) now.

Definition sameEvent (runID operation : string) (e : CreativeRunOutbox) : bool :=
  bool_decide (evRunID e = runID) && bool_decide (evOperation e = operation).

(** [None] is the error for empty arguments. *)
Definition Ensure (now : Time) (t : outboxTable) (runID operation : string) (availableAt : Time) : option outboxTable :=
  if bool_decide (TrimSpace runID = ""%string) || bool_decide (operation = ""%string) then None else
  let availableAt := if IsZero availableAt then now else availableAt in
  Some (if existsb (sameEvent runID operation) (events t)
        then mkOutbox (map (λ e, if sameEvent runID operation e then reopen now availableAt e else e) (events t))
               (nextEventID t)
        else mkOutbox (events t ++ [mkEvent (nextEventID t) runID operation CreativeRunOutboxPending availableAt
                                      None None 0 None now now]) (nextEventID t + 1)).

Definition claimable (now : Time) (e : CreativeRunOutbox) : bool :=
  (AvailableAt e <=? now) &&
  (statusIs e CreativeRunOutboxPending ||
   statusIs e CreativeRunOutboxLeased && match LeaseUntil e with Some u => u <? now | None => false end).

Definition lease (now : Time) (token : string) (leaseSeconds : Z) (e : CreativeRunOutbox) : CreativeRunOutbox :=
  mkEvent (evID e) (evRunID e) (evOperation e) CreativeRunOutboxLeased (AvailableAt e) (Some token)
    (Some (Add now (leaseSeconds * Second))) (evAttemptCount e + 1) (LastError e) (evCreatedAt e) now.

(** Lease the first [n] claimable rows; the claimed rows are returned. *)
Fixpoint claimRows (now : Time) (token : string) (leaseSeconds : Z) (n : nat) (l : list CreativeRunOutbox)
    : list CreativeRunOutbox * list CreativeRunOutbox :=
  match l with
  | [] => ([], [])
  | e :: l =>
      match n with
      | O => (e :: l, [])
      | S n' =>
          if claimable now e
          then let '(rest, out) := claimRows now token leaseSeconds n' l in
               (lease now token leaseSeconds e :: rest, lease now token leaseSeconds e :: out)
          else let '(rest, out) := claimRows now token leaseSeconds n l in (e :: rest, out)
      end
  end.

Definition claimLimit (limit : Z) : Z := if limit <=? 0 then 50 else limit.
Definition claimLease (d : Duration) : Z :=
  let d := if d <=? 0 then 2 * Minute else d in
  let s := goQuot d Second in if s <? 1 then 1 else s.

(** [token] is the result of [newCreativeOutboxLeaseToken]: random. *)
Definition Claim (now : Time) (token : string) (t : outboxTable) (limit : Z) (d : Duration)
    : outboxTable * list CreativeRunOutbox :=
  let '(rows, out) := claimRows now token (claimLease d) (Z.to_nat (claimLimit limit)) (events t) in
  (mkOutbox rows (nextEventID t), out).

Definition ownedBy (id : Z) (leaseToken : string) (e : CreativeRunOutbox) : bool :=
  (evID e =? id) && bool_decide (LeaseToken e = Some leaseToken) && statusIs e CreativeRunOutboxLeased.

(** [None] is the error: an invalid claim, or one that is no longer owned. *)
Definition updateClaimed (t : outboxTable) (id : Z) (leaseToken : string) (set : CreativeRunOutbox → CreativeRunOutbox)
    : option outboxTable :=
  if (id <=? 0) || bool_decide (TrimSpace leaseToken = ""%string) then None else
  if (length (List.filter (ownedBy id leaseToken) (events t)) =? 1)%nat
  then Some (mkOutbox (map (λ e, if ownedBy id leaseToken e then set e else e) (events t)) (nextEventID t))
  else None.

Definition Complete (now : Time) (t : outboxTable) (id : Z) (leaseToken : string) : option outboxTable :=
  updateClaimed t id leaseToken (λ e,
    mkEvent (evID e) (evRunID e) (evOperation e) CreativeRunOutboxDone (AvailableAt e) None None
      (evAttemptCount e) None (evCreatedAt e) now).

(** [clock] is [time.Now()] of the process. *)
Definition Retry (now clock : Time) (t : outboxTable) (id : Z) (leaseToken : string) (availableAt : Time)
    (lastError : string) : option outboxTable :=
  let availableAt := if IsZero availableAt then Add clock Minute else availableAt in
  updateClaimed t id leaseToken (λ e,
    mkEvent (evID e) (evRunID e) (evOperation e) CreativeRunOutboxPending availableAt None None
      (evAttemptCount e) (Some (TrimSpace lastError)) (evCreatedAt e) now).

Definition Cancel (now : Time) (t : outboxTable) (id : Z) (leaseToken : string) : option outboxTable :=
  updateClaimed t id leaseToken (λ e,
    mkEvent (evID e) (evRunID e) (evOperation e) CreativeRunOutboxCancelled (AvailableAt e) None None
      (evAttemptCount e) (LastError e) (evCreatedAt e) now).

(** ** Theorems *)

(** The primary key: positive, distinct, below the sequence. *)
Definition keyed (t : outboxTable) : Prop :=
  NoDup (evID <$> events t) ∧ 0 < nextEventID t ∧ ∀ e, e ∈ events t → 0 < evID e < nextEventID t.

Lemma keyed_ids l t :
  evID <$> l = evID <$> events t → keyed t → keyed (mkOutbox l (nextEventID t)).
Proof.
  intros Hi (Hd & Hp & Hr). split; simpl; [by rewrite Hi|]. split; [done|].
  intros e He. assert (Hin : evID e ∈ evID <$> events t) by (rewrite <- Hi; by apply list_elem_of_fmap_2).
  apply list_elem_of_fmap in Hin as (x & -> & Hx). by apply Hr.
Qed.

Lemma map_ids f (l : list CreativeRunOutbox) : (∀ e, evID (f e) = evID e) → evID <$> map f l = evID <$> l.
Proof. intros Hf. induction l as [|e l IH]; [done|]. cbn [map]. by rewrite !fmap_cons, Hf, IH. Qed.

Lemma keyed_row t e e' : keyed t → e ∈ events t → e' ∈ events t → evID e = evID e' → e = e'.
Proof.
  intros (Hd & _) He He' Hid. apply list_elem_of_lookup in He as [i Hi]. apply list_elem_of_lookup in He' as [j Hj].
  assert (i = j) as ->; [|congruence].
  eapply (NoDup_lookup (evID <$> events t)); [done | |]; rewrite list_lookup_fmap, ?Hi, ?Hj; simpl; [done | by rewrite Hid].
Qed.

(** [claimRows] leases the first [n] claimable rows and nothing else. *)
Lemma claimRows_spec now token s l : ∀ n,
  snd (claimRows now token s n l) = map (lease now token s) (take n (List.filter (claimable now) l)) ∧
  Forall2 (λ e e', e' = e ∨ (claimable now e = true ∧ e' = lease now token s e)) l (fst (claimRows now token s n l)).
Proof.
  assert (Hid : ∀ l : list CreativeRunOutbox,
    Forall2 (λ e e', e' = e ∨ (claimable now e = true ∧ e' = lease now token s e)) l l).
  { clear l. intros l. induction l; constructor; [by left | done]. }
  induction l as [|e l IH]; intros n; simpl; [by destruct n|]. destruct n as [|n]; simpl.
  { split; [done|]. constructor; [by left | apply Hid]. }
  destruct (claimable now e) eqn:E.
  - specialize (IH n). destruct (claimRows now token s n l) as [rest out]. simpl in *. destruct IH as [-> IH].
    split; [done|]. constructor; [by right | done].
  - specialize (IH (S n)). destruct (claimRows now token s (S n) l) as [rest out]. simpl in *. destruct IH as [-> IH].
    split; [done|]. constructor; [by left | done].
Qed.

Lemma claimRows_ids now token s n l : evID <$> fst (claimRows now token s n l) = evID <$> l.
Proof.
  destruct (claimRows_spec now token s l n) as [_ H]. induction H as [|e e' l l' He _ IH]; [done|].
  rewrite !fmap_cons, IH. by destruct He as [->|[_ ->]].
Qed.

(** What a claimed row looks like, and where it comes from. *)
Lemma claimRows_out now token s n l e :
  e ∈ snd (claimRows now token s n l) →
  ∃ x, x ∈ l ∧ claimable now x = true ∧ e = lease now token s x.
Proof.
  destruct (claimRows_spec now token s l n) as [-> _]. intros (x & -> & Hx)%list_elem_of_fmap.
  exists x. apply (subseteq_take n) in Hx. apply list_elem_of_In, filter_In in Hx as [Hx Hc].
  split; [by apply list_elem_of_In | done].
Qed.

Lemma claimRows_in now token s l : ∀ n e,
  e ∈ snd (claimRows now token s n l) → e ∈ fst (claimRows now token s n l).
Proof.
  induction l as [|x l IH]; intros [|n] e; simpl; try by intros ?%not_elem_of_nil.
  destruct (claimable now x).
  - specialize (IH n e). destruct (claimRows now token s n l). simpl in *.
    rewrite !elem_of_cons. intros [?|?]; [by left | right; by apply IH].
  - specialize (IH (S n) e). destruct (claimRows now token s (S n) l). simpl in *.
    intros ?. apply elem_of_cons. right. by apply IH.
Qed.

Lemma Claim_eq now token t limit d :
  Claim now token t limit d =
    (mkOutbox (fst (claimRows now token (claimLease d) (Z.to_nat (claimLimit limit)) (events t))) (nextEventID t),
     snd (claimRows now token (claimLease d) (Z.to_nat (claimLimit limit)) (events t))).
Proof. unfold Claim. by destruct (claimRows _ _ _ _ _). Qed.

Lemma keyed_Claim now token t limit d : keyed t → keyed (fst (Claim now token t limit d)).
Proof. rewrite Claim_eq. apply keyed_ids. simpl. apply claimRows_ids. Qed.

Lemma keyed_Ensure now t r o a t' : keyed t → Ensure now t r o a = Some t' → keyed t'.
Proof.
  unfold Ensure. intros Hk. destruct (_ || _); [done|]. destruct (existsb _ _); intros [= <-].
  - apply keyed_ids; [|done]. apply map_ids. intros e. by case_match.
  - destruct Hk as (Hd & Hp & Hr). split; simpl; [|split; [lia|]].
    + rewrite fmap_app. apply NoDup_app. split; [done|]. split; [|apply NoDup_singleton].
      intros x (e & -> & He)%list_elem_of_fmap Hx%list_elem_of_singleton. simpl in Hx. apply Hr in He. lia.
    + intros e [He| ->%list_elem_of_singleton]%elem_of_app; simpl; [apply Hr in He|]; lia.
Qed.

Lemma keyed_updateClaimed t id token set t' :
  (∀ e, evID (set e) = evID e) → keyed t → updateClaimed t id token set = Some t' → keyed t'.
Proof.
  unfold updateClaimed. intros Hs Hk. destruct (_ || _); [done|]. destruct (_ =? 1)%nat; [|done]. intros [= <-].
  apply keyed_ids; [|done]. apply map_ids. intros e. by case_match.
Qed.

(** One event per token holder: [updateClaimed] succeeds for the holder. *)
Lemma updateClaimed_owner t e token set :
  keyed t → e ∈ events t → evStatus e = CreativeRunOutboxLeased → LeaseToken e = Some token → TrimSpace token ≠ ""%string →
  ∃ t', updateClaimed t (evID e) token set = Some t' ∧ set e ∈ events t'.
Proof.
  intros Hk He Hs Ht Hne. destruct Hk as (Hd & Hp & Hr). specialize (Hr e He) as Her.
  assert (Ho : ownedBy (evID e) token e = true).
  { unfold ownedBy, statusIs. rewrite Z.eqb_refl, !bool_decide_true by done. done. }
  assert (Hone : List.filter (ownedBy (evID e) token) (events t) = [e]).
  { clear Hr. revert Hd He. induction (events t) as [|x l IH]; intros Hd He; [by apply not_elem_of_nil in He|].
    simpl in Hd. apply NoDup_cons in Hd as [Hn Hd].
    assert (Hmiss : ∀ l, evID e ∉ evID <$> l → List.filter (ownedBy (evID e) token) l = []).
    { clear. induction l as [|y l IH]; simpl; intros Hn; [done|].
      apply not_elem_of_cons in Hn as [Hny Hn]. unfold ownedBy at 1.
      rewrite (proj2 (Z.eqb_neq (evID y) (evID e))) by congruence. simpl. by apply IH. }
    apply elem_of_cons in He as [<-|He]; simpl.
    - rewrite Ho. f_equal. by apply Hmiss.
    - unfold ownedBy at 1. rewrite (proj2 (Z.eqb_neq (evID x) (evID e))).
      + simpl. by apply IH.
      + intros Heq. apply Hn. rewrite Heq. by apply list_elem_of_fmap_2. }
  unfold updateClaimed. rewrite (proj2 (Z.leb_gt (evID e) 0)), bool_decide_false by (done || lia). simpl.
  rewrite Hone. simpl. eexists. split; [done|]. simpl. apply list_elem_of_fmap. exists e. by rewrite Ho.
Qed.

(** *** Leases

    [others u token]: one operation of a worker that does not hold [token],
    where a claim runs before the lease end [u]. *)

Inductive others (u : Time) (token : string) (t : outboxTable) : outboxTable → Prop :=
  | others_ensure now runID operation availableAt t' :
      Ensure now t runID operation availableAt = Some t' → others u token t t'
  | others_claim now token' limit d :
      now <= u → token' ≠ token → others u token t (fst (Claim now token' t limit d))
  | others_complete now id token' t' :
      token' ≠ token → Complete now t id token' = Some t' → others u token t t'
  | others_retry now clock id token' availableAt lastError t' :
      token' ≠ token → Retry now clock t id token' availableAt lastError = Some t' → others u token t t'
  | others_cancel now id token' t' :
      token' ≠ token → Cancel now t id token' = Some t' → others u token t t'.

(** Row [id] is leased under [token] until [u]. *)
Definition heldBy (t : outboxTable) (id : Z) (token : string) (u : Time) : Prop :=
  ∃ e, e ∈ events t ∧ evID e = id ∧ evStatus e = CreativeRunOutboxLeased ∧ LeaseToken e = Some token ∧
    LeaseUntil e = Some u.

Lemma heldBy_updateClaimed t id token u id' token' set t' :
  token' ≠ token → updateClaimed t id' token' set = Some t' → heldBy t id token u → heldBy t' id token u.
Proof.
  unfold updateClaimed. intros Hne. destruct (_ || _); [done|]. destruct (_ =? 1)%nat; [|done]. intros [= <-].
  intros (e & He & H). exists e. split; [|done]. simpl. apply list_elem_of_fmap. exists e. split; [|done].
  destruct H as (_ & _ & Ht & _). unfold ownedBy.
  rewrite (bool_decide_false (LeaseToken e = Some token')) by congruence. by rewrite andb_false_r.
Qed.

Lemma not_claimable_held now e u :
  evStatus e = CreativeRunOutboxLeased → LeaseUntil e = Some u → now <= u → claimable now e = false.
Proof.
  intros Hs Hu Hn. unfold claimable, statusIs. rewrite Hs, Hu. simpl.
  rewrite (proj2 (Z.ltb_ge u now)) by done. by rewrite andb_false_r.
Qed.

Lemma heldBy_Claim now token' t limit d id token u :
  now <= u → heldBy t id token u → heldBy (fst (Claim now token' t limit d)) id token u.
Proof.
  rewrite Claim_eq. intros Hn (e & He & Hid & Hs & Ht & Hu). exists e. simpl. split; [|done].
  destruct (claimRows_spec now token' (claimLease d) (events t) (Z.to_nat (claimLimit limit))) as [_ H2].
  apply list_elem_of_lookup in He as [i Hi]. destruct (Forall2_lookup_l _ _ _ _ _ H2 Hi) as (e' & He' & Hor).
  destruct Hor as [->|[Hc _]]; [by eapply list_elem_of_lookup_2|].
  by rewrite (not_claimable_held now e u) in Hc.
Qed.

Lemma heldBy_others u token t t' id :
  others u token t t' → heldBy t id token u → heldBy t' id token u.
Proof.
  intros [now r o a t2 H|now token' limit d Hn Hne|now id' token' t2 Hne H|now clock id' token' a le t2 Hne H|
          now id' token' t2 Hne H] Hh.
  - destruct Hh as (e & He & Hid & Hs & Ht & Hu). unfold Ensure in H. destruct (_ || _); [done|].
    destruct (existsb _ _); injection H as <-.
    + exists (if sameEvent r o e then reopen now (if IsZero a then now else a) e else e). simpl.
      split; [apply list_elem_of_fmap; by exists e|]. case_match; [|done]. unfold reopen, statusIs. simpl.
      by rewrite Hs.
    + exists e. simpl. split; [apply elem_of_app; by left | done].
  - by apply heldBy_Claim.
  - by eapply heldBy_updateClaimed.
  - by eapply heldBy_updateClaimed.
  - by eapply heldBy_updateClaimed.
Qed.

Lemma keyed_others u token t t' : others u token t t' → keyed t → keyed t'.
Proof.
  intros [now r o a t2 H|now token' limit d Hn Hne|now id' token' t2 Hne H|now clock id' token' a le t2 Hne H|
          now id' token' t2 Hne H] Hk.
  - by eapply keyed_Ensure.
  - by apply keyed_Claim.
  - by eapply (keyed_updateClaimed _ _ _ _ _ _ Hk H).
  - by eapply (keyed_updateClaimed _ _ _ _ _ _ Hk H).
  - by eapply (keyed_updateClaimed _ _ _ _ _ _ Hk H).
  Unshelve. all: done.
Qed.

(** C31: a lease is exclusive. After a worker claims an event, and whatever the
    other workers and [Ensure] do until the lease ends, no claim returns the
    event and the worker can still complete, retry or cancel it. *)
Theorem outbox_lease_exclusive now token t limit d e t' :
  keyed t → TrimSpace token ≠ ""%string → e ∈ snd (Claim now token t limit d) →
  let u := now + claimLease d * Second in
  rtc (others u token) (fst (Claim now token t limit d)) t' →
  heldBy t' (evID e) token u ∧
  (∀ now' token' limit' d' x, now' <= u → x ∈ snd (Claim now' token' t' limit' d') → evID x ≠ evID e) ∧
  (∀ now', is_Some (Complete now' t' (evID e) token)) ∧
  (∀ now', is_Some (Cancel now' t' (evID e) token)) ∧
  (∀ now' clock a le, is_Some (Retry now' clock t' (evID e) token a le)).
Proof.
  intros Hk Hne He u Hsteps.
  assert (Hk' : keyed t').
  { assert (Hk1 : keyed (fst (Claim now token t limit d))) by by apply keyed_Claim.
    clear He. induction Hsteps as [|x y z Hxy _ IH]; [done|]. apply IH. by eapply keyed_others. }
  assert (Hh : heldBy t' (evID e) token u).
  { assert (H0 : heldBy (fst (Claim now token t limit d)) (evID e) token u).
    { rewrite Claim_eq in *. simpl in *. exists e. split; [by apply claimRows_in|].
      apply claimRows_out in He as (x & _ & _ & ->). done. }
    clear He Hk'. induction Hsteps as [|x y z Hxy _ IH]; [done|]. apply IH. by eapply heldBy_others. }
  split; [done|]. destruct Hh as (h & Hin & Hid & Hs & Ht & Hu).
  assert (Hown : ∀ set, is_Some (updateClaimed t' (evID e) token set)).
  { intros set. rewrite <- Hid. destruct (updateClaimed_owner t' h token set) as (t2 & E & _); eauto. }
  split; [|split; [|split]]; [|intros; apply Hown..].
  intros now' token' limit' d' x Hn Hx Heq. rewrite Claim_eq in Hx. simpl in Hx.
  apply claimRows_out in Hx as (y & Hy & Hc & ->). simpl in Heq.
  assert (y = h) as -> by (eapply keyed_row; [done | done | done | congruence]).
  by rewrite (not_claimable_held now' h u) in Hc.
Qed.

Definition closed (s : CreativeRunOutboxStatus) : Prop :=
  s = CreativeRunOutboxDone ∨ s = CreativeRunOutboxCancelled.

Lemma not_claimable_closed now e : closed (evStatus e) → claimable now e = false.
Proof. unfold claimable, statusIs. intros [-> | ->]; simpl; apply andb_false_r. Qed.

Lemma not_owned_closed id token e : closed (evStatus e) → ownedBy id token e = false.
Proof. unfold ownedBy, statusIs. intros [-> | ->]; simpl; apply andb_false_r. Qed.

(** Row [id] is there with status [s]. *)
Definition hasStatus (t : outboxTable) (id : Z) (s : CreativeRunOutboxStatus) : Prop :=
  ∃ e, e ∈ events t ∧ evID e = id ∧ evStatus e = s.

Lemma closed_updateClaimed t id s id' token set t' :
  closed s → hasStatus t id s → updateClaimed t id' token set = Some t' → hasStatus t' id s.
Proof.
  intros Hs (x & Hx & Hxi & Hxs). unfold updateClaimed. destruct (_ || _); [done|].
  destruct (_ =? 1)%nat; [|done]. intros [= <-]. exists x. split; [|done]. simpl. apply list_elem_of_fmap.
  exists x. split; [|done]. by rewrite not_owned_closed by by rewrite Hxs.
Qed.

Lemma closed_others u token t t' id s :
  closed s → others u token t t' → hasStatus t id s → hasStatus t' id s.
Proof.
  intros Hs [n r o av t2 H|n tok' l' d' Hn Hne|n id' tok' t2 Hne H|n clock id' tok' av le t2 Hne H|
      n id' tok' t2 Hne H] Hold; try by eapply closed_updateClaimed.
  - destruct Hold as (x & Hx & Hxi & Hxs). unfold Ensure in H. destruct (_ || _); [done|].
    destruct (existsb _ _); injection H as <-.
    + exists (if sameEvent r o x then reopen n (if IsZero av then n else av) x else x). simpl.
      split; [apply list_elem_of_fmap; by exists x|]. case_match; [|done]. unfold reopen, statusIs. simpl.
      rewrite Hxs. by destruct Hs as [->| ->].
    + exists x. simpl. split; [apply elem_of_app; by left | done].
  - destruct Hold as (x & Hx & Hxi & Hxs). rewrite Claim_eq. simpl.
    destruct (claimRows_spec n tok' (claimLease d') (events t) (Z.to_nat (claimLimit l'))) as [_ H2].
    apply list_elem_of_lookup in Hx as [i Hi]. destruct (Forall2_lookup_l _ _ _ _ _ H2 Hi) as (y & Hy & Hor).
    exists y. split; [by eapply list_elem_of_lookup_2|]. destruct Hor as [->|[Hc _]]; [done|].
    by rewrite not_claimable_closed in Hc by by rewrite Hxs.
Qed.

(** An event that is done or cancelled is closed for good: no operation of
    any worker changes its status, and no claim ever returns it. *)
Theorem outbox_closed_final t t' e now token limit d :
  keyed t → e ∈ events t → closed (evStatus e) →
  rtc (λ a b, ∃ u tok, others u tok a b) t t' →
  hasStatus t' (evID e) (evStatus e) ∧
  (∀ x, x ∈ snd (Claim now token t' limit d) → evID x ≠ evID e).
Proof.
  intros Hk He Hs Hsteps.
  assert (H : keyed t' ∧ hasStatus t' (evID e) (evStatus e)).
  { assert (Hold : hasStatus t (evID e) (evStatus e)) by by exists e. clear He.
    induction Hsteps as [|a b c (u & tok & Hab) _ IH]; [done|].
    apply IH; [by eapply keyed_others | by eapply closed_others]. }
  destruct H as (Hk' & e' & He' & Hid & Hst). split; [by exists e'|].
  intros x Hx Heq. rewrite Claim_eq in Hx. simpl in Hx. apply claimRows_out in Hx as (y & Hy & Hc & ->). simpl in Heq.
  assert (y = e') as -> by (eapply keyed_row; [done | done | done | congruence]).
  by rewrite not_claimable_closed in Hc by by rewrite Hst.
Qed.

(** a claim takes the oldest available events: it returns exactly the
    first [limit] claimable rows in the order of their ids (50 when no limit
    is given), each leased under the token, and changes no other row. *)
Theorem outbox_claim_oldest now token t limit d :
  let '(t', out) := Claim now token t limit d in
  out = map (lease now token (claimLease d)) (take (Z.to_nat (claimLimit limit)) (List.filter (claimable now) (events t))) ∧
  evID <$> events t' = evID <$> events t ∧
  (∀ e, e ∈ events t → claimable now e = false → e ∈ events t') ∧
  1 <= claimLease d ∧ 1 <= claimLimit limit.
Proof.
  rewrite Claim_eq.
  destruct (claimRows_spec now token (claimLease d) (events t) (Z.to_nat (claimLimit limit))) as [Hout H2].
  split; [done|]. split; [apply claimRows_ids|]. split; [|split].
  - intros e He Hc. simpl. apply list_elem_of_lookup in He as [i Hi].
    destruct (Forall2_lookup_l _ _ _ _ _ H2 Hi) as (y & Hy & [->|[Hc' _]]); [by eapply list_elem_of_lookup_2|].
    by rewrite Hc in Hc'.
  - unfold claimLease. case_match; [done|]. zbool. lia.
  - unfold claimLimit. case_match; zbool; lia.
Qed.

(** ** Witnesses *)

(** Two events; the second is already done. *)
Definition exampleOutbox : outboxTable :=
  mkOutbox [mkEvent 1 "crun_a" CreativeRunOutboxSettle CreativeRunOutboxPending 100 None None 0 None 90 90;
            mkEvent 2 "crun_a" CreativeRunOutboxProvision CreativeRunOutboxDone 80 None None 1 None 80 85] 3.

Lemma exampleOutbox_keyed : keyed exampleOutbox.
Proof.
  split; [|split; [done|]].
  - apply (bool_decide_unpack (NoDup (evID <$> events exampleOutbox))). vm_compute. exact I.
  - intros e He. simpl in He. repeat (apply elem_of_cons in He as [->|He]; [done|]). by apply not_elem_of_nil in He.
Qed.

Lemma outbox_lease_exclusive_witness :
  snd (Claim 100 "w1" exampleOutbox 0 (2 * Minute)) =
    [mkEvent 1 "crun_a" CreativeRunOutboxSettle CreativeRunOutboxLeased 100 (Some "w1"%string)
       (Some (100 + 120 * Second)) 1 None 90 100] ∧
  is_Some (Complete 200 (fst (Claim 150 "w2" (fst (Claim 100 "w1" exampleOutbox 0 (2 * Minute))) 0 0)) 1 "w1").
Proof.
  split; [reflexivity|].
  refine (proj1 (proj2 (proj2 (outbox_lease_exclusive 100 "w1" exampleOutbox 0 (2 * Minute)
    (mkEvent 1 "crun_a" CreativeRunOutboxSettle CreativeRunOutboxLeased 100 (Some "w1"%string)
       (Some (100 + 120 * Second)) 1 None 90 100) _ exampleOutbox_keyed _ _ _))) 200); [discriminate | left |].
  eapply rtc_once, others_claim; [vm_compute; discriminate | discriminate].
Defined.

Lemma outbox_closed_final_witness :
  hasStatus (fst (Claim 100 "w1" exampleOutbox 0 0)) 2 CreativeRunOutboxDone.
Proof.
  refine (proj1 (outbox_closed_final exampleOutbox (fst (Claim 100 "w1" exampleOutbox 0 0))
    (mkEvent 2 "crun_a" CreativeRunOutboxProvision CreativeRunOutboxDone 80 None None 1 None 80 85)
    100 "w2" 0 0 exampleOutbox_keyed _ _ _)).
  - right. left.
  - by left.
  - eapply rtc_once. exists 100, "w"%string. eapply others_claim; [done | done].
Defined.
