(* ===== verification/CreativeRunFlow.v ===== *)
(** * Creative runs: repository statements, service operations and the worker

    [repository/creative_run_repo.go] (the operations on one run), the worker
    side of [service/creative_public.go] (MarkRunning ... MarkResultLost),
    [service/creative_billing.go] (capture and release), [process] of
    [service/creative_worker.go] and the reconciliation of
    [service/creative_outbox_reconciler.go].

    A function is a program ([Prog]) over calls: one call is one SQL statement,
    one billing operation, one access to the transient store or one step of the
    executor.  The repository reads a row and then updates it under a condition
    in a second statement, so the programs of several workers and requests
    interleave between the two; [flowStep] is that interleaving, and a call to a
    store or a service may also fail, before or after taking effect.

    Not modelled: JSON and Redis formats of the transient store, account
    selection inside [Prepare], the message sanitiser (an argument, it only
    affects stored text), logging. *)

From S2P Require Import Prelude GoRuntime Domain AppErrors UsageBilling CreativeRun CreativeRunOutbox.
#[local] Open Scope Z_scope.

(** ** Calls *)

(** An error of the transient store: the worker only distinguishes an
    unavailable store from lost or corrupt data. *)
Inductive transientError :=
  | ErrCreativeTransientUnavailable (e : goError)
  | ErrCreativeTransientLost (e : goError).

(** An error of the executor: an upstream response, or another error. *)
Inductive executeError :=
  | CreativeUpstreamError (StatusCode : Z) (UpstreamMessage : string)
  | OtherExecuteError (text : string).

(** An error of the billing repository: only the fingerprint conflict is special. *)
Inductive billingError :=
  | ErrUsageBillingRequestConflict
  | OtherBillingError (e : goError).

Record CreativeOutput := mkCreativeOutput { outIndex : Z; outBytes : string; outMime : string }.
Record CreativeExecuteResult := mkExecuteResult { exOutputs : list CreativeOutput; exAccountID : Z }.

Record CreativeOutputResult := mkOutputResult {
  resIndex : Z;
  resSuccess : bool;
  resBytes : string;
  resMime : string;
  resErrorCode : string;
  resErrorMessage : string;
}.

Record CreativeRunPayload := mkPayload {
  payloadBody : string;
  SourceCount : Z;
  HasMask : bool;
  payloadSources : list string;
  payloadMask : option string;
}.

(** The answer of the user lookup and [AcquireUserSlot]. *)
Inductive slotAnswer :=
  | SlotAcquired
  | SlotFull
  | SlotUserGone
  | SlotError (e : goError).

(** The answer of [Prepare]: a selected account, no slot now, or an error. *)
Inductive prepareAnswer :=
  | Prepared (accountID : Z)
  | ErrCreativeExecutionPending
  | PrepareError (e : executeError).

Inductive call : Type → Type :=
  | CNow : call Time
  | CGetRun (runID : string) : call (result goError CreativeRun)
  | CUpdateRun (runID : string) (cond : CreativeRun → bool) (set : CreativeRun → CreativeRun) : call (result goError Z)
  | CGetOutput (runID : string) (index : Z) : call (result goError CreativeRunOutput)
  | CListOutputs (runID : string) : call (result goError (list CreativeRunOutput))
  | CUpdateOutput (runID : string) (index : Z) (cond : CreativeRunOutput → bool)
      (set : CreativeRunOutput → CreativeRunOutput) : call (result goError Z)
  | CEnsureOutbox (runID operation : string) (availableAt : Time) : call (result goError unit)
  | CCapture (cmd : BatchImageBalanceHoldCommand) : call (result goError (option BatchImageBalanceHoldResult))
  | CRelease (cmd : BatchImageBalanceHoldCommand) : call (result billingError unit)
  | CSaveOutput (runID : string) (index : Z) (bytes : string) (ttl : Duration) : call (result goError unit)
  | CLoadPayload (runID : string) : call (result transientError CreativeRunPayload)
  | CLoadInputs (runID : string) (count : Z) : call (result transientError (list string))
  | CLoadMask (runID : string) : call (result transientError string)
  | CDeleteTransient (runID : string) (inputs outputs : Z) : call (result goError unit)
  | CAcquireUserSlot (userID : Z) : call slotAnswer
  | CPrepare (run : CreativeRun) : call prepareAnswer
  | CExecute (run : CreativeRun) (payload : CreativeRunPayload) : call (result executeError (option CreativeExecuteResult))
  | CReleaseSlots : call unit
  | CLeaseLost : call bool
  | CInvalidateAuthCache (userID : Z) : call unit
  | CRecordUsageLog (run : CreativeRun) (actualCost : float64) (successCount : Z) : call unit
  | CEnqueue (runID : string) : call (result goError unit).

Inductive Prog (A : Type) : Type :=
  | Ret (a : A)
  | Do {R : Type} (c : call R) (k : R → Prog A).
Arguments Ret {A} a.
Arguments Do {A R} c k.

Fixpoint bindProg {A B} (f : A → Prog B) (p : Prog A) : Prog B :=
  match p with
  | Ret a => f a
  | Do c k => Do c (λ r, bindProg f (k r))
  end.

(** A function that returns an error: the rest runs only after a nil error. *)
Definition M (A : Type) : Type := Prog (result goError A).

Definition ok {A} (a : A) : M A := Ret (Ok a).
Definition fails {A} (e : goError) : M A := Ret (Err e).
Definition lift {A} (c : call (result goError A)) : M A := Do c Ret.
Definition plain {A} (c : call A) : M A := Do c ok.
Definition andThen {A B} (m : M A) (f : A → M B) : M B :=
  bindProg (λ r, match r with Ok a => f a | Err e => fails e end) m.
(** Handle the error of [m]: [_ = m], or an inspected error. *)
Definition attempt {A B} (m : M A) (f : result goError A → M B) : M B := bindProg f m.

Declare Scope flow_scope.
Delimit Scope flow_scope with flow.
Notation "'let*' x ':=' m 'in' f" := (andThen m (λ x, f))
  (at level 10, x name, m at level 100, f at level 200) : flow_scope.
Notation "'do*' m 'in' f" := (andThen m (λ _, f)) (at level 10, m at level 100, f at level 200) : flow_scope.
#[local] Open Scope flow_scope.

(** What the wiring provides: the flags stand for the nil checks. *)
Record creativeService := mkService {
  hasOutbox : bool;
  hasTransientStore : bool;
  hasBillingRepo : bool;
  hasConcurrency : bool;
  transientTTL : Duration;
  MaxAttempts : Z;
  ErrorRetryDelay : Duration;
}.

(** ** The statements of the repository *)

Record CreativeRunTransitionOptions := mkTransitionOptions {
  optErrorCode : option string;
  optErrorMessage : option string;
  optReleaseTargetStatus : string;
  optNow : option Time;
}.

Definition noOptions : CreativeRunTransitionOptions := mkTransitionOptions None None "" None.

Definition setErrors (opts : CreativeRunTransitionOptions) (r : CreativeRun) : CreativeRun :=
  let r := match optErrorCode opts with Some c => SetErrorCode (Some c) r | None => r end in
  match optErrorMessage opts with Some m => SetErrorMessage (Some m) r | None => r end.

(** Lines 192-234: the update builder. *)
Definition transitionBuilder (toStatus : string) (opts : CreativeRunTransitionOptions) (now : Time)
    (version : Z) (r : CreativeRun) : CreativeRun :=
  let r := SetUpdatedAt now (SetVersion (version + 1) (SetStatus toStatus r)) in
  let r := if eqs toStatus CreativeRunStatusRunning then SetStartedAt (Some now) r else r in
  let r := if IsTerminalCreativeRunStatus toStatus then SetCompletedAt (Some now) r else r in
  let r := if eqs toStatus CreativeRunStatusCancelled then SetCancelledAt (Some now) r else r in
  let r := if eqs toStatus CreativeRunStatusFailed then setErrors opts r else r in
  let r := if eqs toStatus CreativeRunStatusReleasePending
           then setErrors opts (SetReleaseTargetStatus
                  (if eqs (optReleaseTargetStatus opts) "" then CreativeRunStatusFailed else optReleaseTargetStatus opts) r)
           else r in
  if eqs toStatus CreativeRunStatusResultLost then setErrors opts r else r.

Definition versionIs (v : Z) (r : CreativeRun) : bool := Version r =? v.

Definition invalidTransition {A} : M A := fails (AppErr ErrCreativeInvalidTransition).

Definition TransitionCreativeRunStatus (runID toStatus : string) (opts : CreativeRunTransitionOptions) : M unit :=
  let* now := (match optNow opts with Some t => ok t | None => plain CNow end) in
  let* current := lift (CGetRun runID) in
  if negb (CanTransitionCreativeRun (Status current) toStatus) then invalidTransition else
  let* affected := lift (CUpdateRun runID (versionIs (Version current))
                           (transitionBuilder toStatus opts now (Version current))) in
  if affected =? 0 then invalidTransition else ok tt.

Definition setAccount (accountID : Z) (r : CreativeRun) : CreativeRun :=
  if 0 <? accountID then SetAccountID (Some accountID) r else r.

Definition MarkCreativeRunRunning (runID : string) (accountID : Z) (now : Time) : M unit :=
  let* current := lift (CGetRun runID) in
  if eqs (Status current) CreativeRunStatusRunning then
    if (0 <? accountID) && negb (bool_decide (AccountID current = Some accountID)) then
      do* lift (CUpdateRun runID (λ _, true) (λ r, SetUpdatedAt now (SetAccountID (Some accountID) r))) in ok tt
    else ok tt
  else if negb (CanTransitionCreativeRun (Status current) CreativeRunStatusRunning) then invalidTransition else
  let* affected := lift (CUpdateRun runID (versionIs (Version current)) (λ r,
      setAccount accountID (SetUpdatedAt now (SetStartedAt (Some now)
        (SetVersion (Version current + 1) (SetStatus CreativeRunStatusRunning r)))))) in
  if affected =? 0 then invalidTransition else ok tt.

Definition SetCreativeRunAccountID (runID : string) (accountID : Z) (now : Time) : M unit :=
  if accountID <=? 0 then ok tt else
  let* affected := lift (CUpdateRun runID (λ _, true) (λ r, SetUpdatedAt now (SetAccountID (Some accountID) r))) in
  if affected =? 0 then fails (AppErr ErrCreativeRunNotFound) else ok tt.

Definition settleable (r : CreativeRun) : bool :=
  eqs (Status r) CreativeRunStatusRunning || eqs (Status r) CreativeRunStatusProviderSucceeded
  || eqs (Status r) CreativeRunStatusSettlementPending.

Definition MarkCreativeRunSucceeded (runID : string) (actualCost : float64) (now : Time) : M unit :=
  let* affected := lift (CUpdateRun runID settleable (λ r,
      SetVersion (Version r + 1) (SetUpdatedAt now (SetCompletedAt (Some now)
        (SetActualCost (Some actualCost) (SetStatus CreativeRunStatusSucceeded r)))))) in
  if affected =? 0 then
    let* current := lift (CGetRun runID) in
    if eqs (Status current) CreativeRunStatusSucceeded || eqs (Status current) CreativeRunStatusCancelled
    then ok tt else invalidTransition
  else ok tt.

Definition MarkCreativeRunProviderSucceeded (runID : string) (accountID : Z) (now : Time) : M unit :=
  let* current := lift (CGetRun runID) in
  if eqs (Status current) CreativeRunStatusSucceeded || eqs (Status current) CreativeRunStatusResultLost then ok tt else
  do* lift (CUpdateRun runID (versionIs (Version current)) (λ r,
      let r := SetVersion (Version r + 1) (SetUpdatedAt now (SetProviderResultRecordedAt (Some now) r)) in
      let r := setAccount accountID r in
      if eqs (Status current) CreativeRunStatusRunning then SetStatus CreativeRunStatusProviderSucceeded r else r)) in
  ok tt.

Definition updateOutputBuilder (now : Time) (status mimeType : string) (byteSize : Z) (transientExpiresAt : option Time)
    (errorCode errorMessage : string) (o : CreativeRunOutput) : CreativeRunOutput :=
  let o := SetOutputUpdatedAt now (SetOutputStatus status o) in
  let o := if eqs mimeType "" then o else SetMimeType (Some mimeType) o in
  let o := if 0 <? byteSize then SetByteSize (Some byteSize) o else o in
  let o := match transientExpiresAt with Some t => SetTransientExpiresAt (Some t) o | None => o end in
  let o := if eqs errorCode "" then o else SetOutputErrorCode (Some errorCode) o in
  if eqs errorMessage "" then o else SetOutputErrorMessage (Some errorMessage) o.

Definition UpdateCreativeRunOutput (runID : string) (outputIndex : Z) (status mimeType : string) (byteSize : Z)
    (transientExpiresAt : option Time) (errorCode errorMessage : string) : M unit :=
  let* now := plain CNow in
  let* affected := lift (CUpdateOutput runID outputIndex (λ o, negb (eqs (oStatus o) CreativeRunOutputStatusAcked))
      (updateOutputBuilder now status mimeType byteSize transientExpiresAt errorCode errorMessage)) in
  if affected =? 0 then do* lift (CGetOutput runID outputIndex) in ok tt else ok tt.

Definition MarkCreativeRunOutputAcked (runID : string) (outputIndex : Z) (now : Time) : M unit :=
  let* affected := lift (CUpdateOutput runID outputIndex (λ o, eqs (oStatus o) CreativeRunOutputStatusSucceeded)
      (λ o, SetOutputUpdatedAt now (SetAckedAt (Some now) (SetOutputStatus CreativeRunOutputStatusAcked o)))) in
  if affected =? 0 then
    let* existing := lift (CGetOutput runID outputIndex) in
    if eqs (oStatus existing) CreativeRunOutputStatusAcked then ok tt else fails (AppErr ErrCreativeOutputNotReady)
  else ok tt.

(** [incrementCreativeRunCounter] and [IncrementCreativeRunAttempt]: add one,
    then read the counter back. *)
Definition IncrementCreativeRunAttempt (runID : string) : M Z :=
  let* now := plain CNow in
  let* affected := lift (CUpdateRun runID (λ _, true) (λ r, SetUpdatedAt now (SetAttemptCount (AttemptCount r + 1) r))) in
  if affected =? 0 then fails (AppErr ErrCreativeRunNotFound) else
  let* entity := lift (CGetRun runID) in ok (AttemptCount entity).

Definition incrementCreativeRunCounter (runID : string) (settlement : bool) : M Z :=
  let* now := plain CNow in
  do* lift (CUpdateRun runID (λ _, true) (λ r,
      SetUpdatedAt now (if settlement then SetSettlementAttemptCount (SettlementAttemptCount r + 1) r
                        else SetReleaseAttemptCount (ReleaseAttemptCount r + 1) r))) in
  let* entity := lift (CGetRun runID) in
  ok (if settlement then SettlementAttemptCount entity else ReleaseAttemptCount entity).

(** The one-column updates that require the row to exist. *)
Definition setColumn (runID : string) (set : CreativeRun → CreativeRun) : M unit :=
  let* now := plain CNow in
  let* affected := lift (CUpdateRun runID (λ _, true) (λ r, SetUpdatedAt now (set r))) in
  if affected =? 0 then fails (AppErr ErrCreativeRunNotFound) else ok tt.

Definition ErrCreativeInvalidParams := New 400 "CREATIVE_INVALID_PARAMS" "invalid creative run parameters".

Definition SetCreativeRunProvisioningPhase (runID phase : string) : M unit :=
  if eqs (TrimSpace phase) "" then fails (AppErr ErrCreativeInvalidParams)
  else setColumn runID (SetProvisioningPhase phase).

Definition SetCreativeRunAllowanceReserved (runID : string) (reserved : bool) : M unit :=
  setColumn runID (SetAllowanceReserved reserved).

Definition SetCreativeRunReconcileError (runID message : string) (next : Time) : M unit :=
  setColumn runID (λ r,
    SetNextReconcileAt (if IsZero next then None else Some next)
      (SetLastReconcileError (if eqs (TrimSpace message) "" then None else Some message) r)).

(** ** The operations of the service *)

Section service.
Context `{UnicodeCase} (s : creativeService) (sanitizeCreativeMessage : string → string) (errorText : goError → string).

Definition ensureCreativeOutbox (runID operation : string) : M unit :=
  if hasOutbox s then let* now := plain CNow in lift (CEnsureOutbox runID operation now) else ok tt.

Definition MarkRunning (runID : string) (accountID : Z) : M unit :=
  let* run := lift (CGetRun runID) in
  if eqs (Status run) CreativeRunStatusRunning then ok tt else
  if negb (eqs (Status run) CreativeRunStatusQueued) then
    if IsTerminalCreativeRunStatus (Status run) then ok tt else invalidTransition
  else let* now := plain CNow in MarkCreativeRunRunning runID accountID now.

(** The capture: on success the run in memory carries the actual cost. *)
Definition captureCreativeBalanceHold (run : CreativeRun) (successCount : Z) : M CreativeRun :=
  if negb (hasBillingRepo s) then fails (AppErr (WithCause ErrCreativeSettlementBillingFail
      (Some (OtherErr "creative billing repository is not configured" [])))) else
  match captureCommand run successCount with
  | Err e => fails (AppErr e)
  | Ok cmd =>
      attempt (lift (CCapture cmd)) (λ r, match r with
        | Err e => fails (AppErr (WithCause ErrCreativeSettlementBillingFail (Some e)))
        | Ok (Some result) => ok (SetActualCost (Some (ActualAmountUSD result)) run)
        | Ok None => ok run
        end)
  end.

Definition releaseCreativeBalanceHold (run : CreativeRun) : M unit :=
  if negb (hasBillingRepo s) then ok tt else
  if f64_le (creativeHoldAmount run) f64_zero then ok tt else
  match releaseCommand run with
  | Err e => fails (AppErr e)
  | Ok cmd =>
      Do (CRelease cmd) (λ r, match r with
        | Ok _ => ok tt
        | Err ErrUsageBillingRequestConflict => ok tt
        | Err (OtherBillingError e) => fails (AppErr (WithCause ErrCreativeBillingHoldFailed (Some e)))
        end)
  end.

Definition countSucceeded (outputs : list CreativeRunOutput) : Z :=
  Z.of_nat (length (List.filter (λ o, eqs (oStatus o) CreativeRunOutputStatusSucceeded) outputs)).

(** Lines 1847-1855: is there anything to settle? *)
Definition nothingToSettle (run : CreativeRun) : bool :=
  (negb (IsCreativeRunSettlementPending (Status run)) &&
   (negb (eqs (Status run) CreativeRunStatusCancelled) || bool_decide (ProviderResultRecordedAt run = None)))
  || eqs (Status run) CreativeRunStatusReleasePending
  || (eqs (Status run) CreativeRunStatusCancelled && negb (bool_decide (ActualCost run = None))).

(** Lines 1862-1897: capture, then the terminal status and the usage log. *)
Definition settleCapture (runID : string) (run : CreativeRun) : M unit :=
  if match AccountID run with Some a => a <=? 0 | None => true end
  then fails (AppErr ErrBatchImageSettlementMissingAccountID) else
  let* outputs := lift (CListOutputs runID) in
  let successCount := countSucceeded outputs in
  let* run := captureCreativeBalanceHold run successCount in
  do* (if AllowanceReserved run then SetCreativeRunAllowanceReserved runID false else ok tt) in
  do* plain (CInvalidateAuthCache (UserID run)) in
  let actualCost := match ActualCost run with Some c => c | None => f64_zero end in
  let* now := plain CNow in
  attempt (MarkCreativeRunSucceeded runID actualCost now) (λ r,
    match r with
    | Err e => if errorsIs ErrCreativeInvalidTransition e
               then plain (CRecordUsageLog run actualCost successCount) else fails e
    | Ok _ => plain (CRecordUsageLog run actualCost successCount)
    end).

Definition SettleRun (runID : string) : M unit :=
  let* run := lift (CGetRun runID) in
  if nothingToSettle run then ok tt else
  if eqs (Status run) CreativeRunStatusProviderSucceeded then
    attempt (TransitionCreativeRunStatus runID CreativeRunStatusSettlementPending noOptions) (λ r,
      match r with
      | Err e => if errorsIs ErrCreativeInvalidTransition e
                 then settleCapture runID (SetStatus CreativeRunStatusSettlementPending run) else fails e
      | Ok _ => settleCapture runID (SetStatus CreativeRunStatusSettlementPending run)
      end)
  else settleCapture runID run.

Definition ReleaseRun (runID : string) : M unit :=
  let* run := lift (CGetRun runID) in
  if negb (eqs (Status run) CreativeRunStatusReleasePending) then ok tt else
  do* releaseCreativeBalanceHold run in
  do* (if AllowanceReserved run then SetCreativeRunAllowanceReserved runID false else ok tt) in
  let target := if eqs (ReleaseTargetStatus run) "" then CreativeRunStatusFailed else ReleaseTargetStatus run in
  attempt (TransitionCreativeRunStatus runID target noOptions) (λ r,
    let finish := do* plain (CInvalidateAuthCache (UserID run)) in
                  if hasTransientStore s then lift (CDeleteTransient runID 0 (RequestedOutputCount run)) else ok tt in
    match r with
    | Err e => if errorsIs ErrCreativeInvalidTransition e then finish else fails e
    | Ok _ => finish
    end).

(** Enter [release_pending], record the intent, release. *)
Definition startRelease (runID : string) (opts : CreativeRunTransitionOptions) (tolerateInvalid : bool) : M unit :=
  attempt (TransitionCreativeRunStatus runID CreativeRunStatusReleasePending opts) (λ r,
    let proceed := do* ensureCreativeOutbox runID CreativeRunOutboxRelease in ReleaseRun runID in
    match r with
    | Err e => if tolerateInvalid && errorsIs ErrCreativeInvalidTransition e then proceed else fails e
    | Ok _ => proceed
    end).

Definition FailRun (runID errorCode errorMessage : string) : M unit :=
  let* run := lift (CGetRun runID) in
  if IsTerminalCreativeRunStatus (Status run) then ok tt else
  if eqs (Status run) CreativeRunStatusReleasePending then ReleaseRun runID else
  let code := TrimSpace errorCode in
  let code := if eqs code "" then "PROVIDER_FAILED"%string else code in
  startRelease runID (mkTransitionOptions (Some code) (Some (sanitizeCreativeMessage errorMessage))
                        CreativeRunStatusFailed None) true.

Definition CancelRunByWorker (runID : string) : M unit :=
  let* run := lift (CGetRun runID) in
  if IsTerminalCreativeRunStatus (Status run) then ok tt else
  if eqs (Status run) CreativeRunStatusReleasePending then ReleaseRun runID else
  startRelease runID (mkTransitionOptions None None CreativeRunStatusCancelled None) true.

Definition MarkResultLost (runID : string) (providerSucceeded : bool) : M unit :=
  let* run := lift (CGetRun runID) in
  if eqs (Status run) CreativeRunStatusResultLost then ok tt else
  if IsTerminalCreativeRunStatus (Status run) then ok tt else
  if providerSucceeded then ok tt else
  startRelease runID (mkTransitionOptions (Some "RESULT_LOST"%string)
    (Some "transient result expired or worker lost before client acknowledgment"%string)
    CreativeRunStatusResultLost None) false.

(** [markRunResultLost] of [GetOutputContent]: the images of a success expired. *)
Definition markRunResultLost (run : CreativeRun) : M unit :=
  if negb (eqs (Status run) CreativeRunStatusSucceeded) then ok tt else
  TransitionCreativeRunStatus (RunID run) CreativeRunStatusResultLost
    (mkTransitionOptions (creativeStringPtr "RESULT_EXPIRED")
       (creativeStringPtr "transient output expired before client acknowledgment") "" None).

(** [fmt.Errorf] with [%w] of ErrCreativeTransientFailed (the text is abridged). *)
Definition transientFailure (detail : string) : goError := OtherErr detail [AppErr ErrCreativeTransientFailed].

(** Lines 1786-1806: every image goes to the transient store first. *)
Fixpoint saveOutputs (runID : string) (results : list CreativeOutputResult) : M unit :=
  match results with
  | [] => ok tt
  | result :: rest =>
      if resSuccess result then
        if negb (hasTransientStore s) then fails (transientFailure "transient store is not configured")
        else if eqs (resBytes result) "" then fails (transientFailure "creative output is empty")
        else attempt (lift (CSaveOutput runID (resIndex result) (resBytes result) (transientTTL s))) (λ r,
               match r with
               | Err _ => fails (transientFailure "save output")
               | Ok _ => saveOutputs runID rest
               end)
      else saveOutputs runID rest
  end.

(** Lines 1808-1819. *)
Fixpoint updateOutputs (runID : string) (expiresAt : Time) (results : list CreativeOutputResult) : M unit :=
  match results with
  | [] => ok tt
  | result :: rest =>
      do* (if resSuccess result
           then UpdateCreativeRunOutput runID (resIndex result) CreativeRunOutputStatusSucceeded (resMime result)
                  (len (resBytes result)) (Some expiresAt) "" ""
           else UpdateCreativeRunOutput runID (resIndex result) CreativeRunOutputStatusFailed "" 0 None
                  (resErrorCode result) (sanitizeCreativeMessage (resErrorMessage result))) in
      updateOutputs runID expiresAt rest
  end.

Definition getRunPublic (runID : string) : M (option CreativeRunPublic) :=
  let* run := lift (CGetRun runID) in
  let* outputs := lift (CListOutputs runID) in
  ok (CreativeRunToPublic (Some run) (map Some outputs)).

Definition SucceedRun (runID : string) (accountID : Z) (results : list CreativeOutputResult)
    : M (option CreativeRunPublic) :=
  let* run := lift (CGetRun runID) in
  if IsTerminalCreativeRunStatus (Status run) && negb (eqs (Status run) CreativeRunStatusCancelled)
  then getRunPublic runID else
  do* (if (0 <? accountID) && negb (bool_decide (AccountID run = Some accountID))
       then let* now := plain CNow in SetCreativeRunAccountID runID accountID now else ok tt) in
  let* now := plain CNow in
  do* saveOutputs runID results in
  do* updateOutputs runID (Add now (transientTTL s)) results in
  do* MarkCreativeRunProviderSucceeded runID accountID now in
  do* ensureCreativeOutbox runID CreativeRunOutboxSettle in
  do* (if hasOutbox s then ok tt else SettleRun runID) in
  getRunPublic runID.

(** ** The worker *)

Record CreativeProcessResult := mkProcessResult { RequeueAfter : Duration; Terminal : bool }.

Definition terminal : M CreativeProcessResult := ok (mkProcessResult 0 true).
Definition requeue (d : Duration) : M CreativeProcessResult := ok (mkProcessResult d false).
Definition defaultCreativeConcurrencyRequeueDelay : Duration := Second.

(** [defer releaseSlots()]: the slots are released after the result is known. *)
Definition releasing {A} (m : M A) : M A := attempt m (λ r, Do CReleaseSlots (λ _, Ret r)).

(** The loop [for v > 0] with fuel: an [int] has at most 19 digits. *)
Fixpoint positiveDigits (fuel : nat) (v : Z) (digits : string) : string :=
  match fuel with
  | O => digits
  | S fuel => if 0 <? v then positiveDigits fuel (goQuot v 10) (String (ascii_of_nat (Z.to_nat (48 + goRem v 10))) digits)
              else digits
  end.

Definition itoaPositive (v : Z) : string := if v <=? 0 then "0"%string else positiveDigits 20 v "".

Definition creativeExecuteErrorParts (e : executeError) : string * string :=
  match e with
  | CreativeUpstreamError code message =>
      (if 0 <? code then ("UPSTREAM_STATUS_" +:+ itoaPositive code)%string else "PROVIDER_FAILED"%string, message)
  | OtherExecuteError text => ("PROVIDER_FAILED"%string, sanitizeCreativeMessage text)
  end.

Context (IsRetryable : executeError → bool).

Definition handleExecuteError (runID : string) (execErr : executeError) : M CreativeProcessResult :=
  let giveUp :=
    let '(code, message) := creativeExecuteErrorParts execErr in
    do* FailRun runID code message in terminal in
  if IsRetryable execErr then
    let* attempts := IncrementCreativeRunAttempt runID in
    if attempts <? MaxAttempts s then requeue (ErrorRetryDelay s) else giveUp
  else giveUp.

Definition loadPayload (runID : string) : Prog (result transientError CreativeRunPayload) :=
  if negb (hasTransientStore s)
  then Ret (Err (ErrCreativeTransientLost (OtherErr "creative transient store is not configured" []))) else
  Do (CLoadPayload runID) (λ r, match r with
  | Err e => Ret (Err e)
  | Ok payload =>
      bindProg (λ r, match r with
        | Err e => Ret (Err e)
        | Ok sources =>
            let payload := mkPayload (payloadBody payload) (SourceCount payload) (HasMask payload) sources None in
            if HasMask payload then
              Do (CLoadMask runID) (λ r, match r with
                | Err e => Ret (Err e)
                | Ok mask => Ret (Ok (mkPayload (payloadBody payload) (SourceCount payload) true sources (Some mask)))
                end)
            else Ret (Ok payload)
        end)
        (if 0 <? SourceCount payload then Do (CLoadInputs runID (SourceCount payload)) Ret else Ret (Ok []))
  end).

(** The crash window between the outputs and the status: settle without
    calling the provider again. *)
Definition recoverPersistedProviderResult (run : CreativeRun) : M bool :=
  if negb (eqs (Status run) CreativeRunStatusRunning) then ok false else
  let* outputs := lift (CListOutputs (RunID run)) in
  if bool_decide (outputs = []) then ok false else
  if existsb (λ o, eqs (oStatus o) CreativeRunOutputStatusPending) outputs then ok false else
  let successCount := Z.of_nat (length (List.filter (λ o,
      eqs (oStatus o) CreativeRunOutputStatusSucceeded || eqs (oStatus o) CreativeRunOutputStatusAcked) outputs)) in
  match AccountID run with
  | Some accountID =>
      if (successCount =? 0) || (accountID <=? 0) then ok false else
      let* now := plain CNow in
      do* MarkCreativeRunProviderSucceeded (RunID run) accountID now in
      do* ensureCreativeOutbox (RunID run) CreativeRunOutboxSettle in
      do* SettleRun (RunID run) in
      ok true
  | None => ok false
  end.

(** Lines 332-342: the branch of a run in [release_pending]. *)
Definition processRelease (runID : string) : M CreativeProcessResult :=
  attempt (ReleaseRun runID) (λ r, match r with
    | Err e =>
        do* incrementCreativeRunCounter runID false in
        let* now := plain CNow in
        attempt (SetCreativeRunReconcileError runID (sanitizeCreativeMessage (errorText e)) (Add now (ErrorRetryDelay s)))
          (λ _, fails e)
    | Ok _ => attempt (SetCreativeRunReconcileError runID "" zeroTime) (λ _, terminal)
    end).

(** Lines 343-361; the exhaustion of the attempts is only logged. *)
Definition processSettlement (runID : string) : M CreativeProcessResult :=
  attempt (SettleRun runID) (λ r, match r with
    | Err e =>
        do* incrementCreativeRunCounter runID true in
        let* now := plain CNow in
        attempt (SetCreativeRunReconcileError runID (sanitizeCreativeMessage (errorText e)) (Add now (ErrorRetryDelay s)))
          (λ _, requeue (ErrorRetryDelay s))
    | Ok _ => attempt (SetCreativeRunReconcileError runID "" zeroTime) (λ _, terminal)
    end).

(** Lines 475-499: the provider answered; record the result and settle. *)
Definition recordResult (runID : string) (r : CreativeExecuteResult) : M CreativeProcessResult :=
  let results := map (λ o, mkOutputResult (outIndex o) true (outBytes o) (outMime o) "" "") (exOutputs r) in
  attempt (SucceedRun runID (exAccountID r) results) (λ res, match res with
    | Err e =>
        let* attempts := IncrementCreativeRunAttempt runID in
        if attempts <? MaxAttempts s then requeue (ErrorRetryDelay s) else fails e
    | Ok _ => do* SettleRun runID in terminal
    end).

(** Lines 437-474: the slots are held; run the provider. *)
Definition executeRun (runID : string) (payload : CreativeRunPayload) (accountID : Z) : M CreativeProcessResult :=
  attempt (do* MarkRunning runID 0 in
           do* (if 0 <? accountID then let* now := plain CNow in SetCreativeRunAccountID runID accountID now else ok tt) in
           lift (CGetRun runID)) (λ r,
    match r with
    | Err e => releasing (fails e)
    | Ok current =>
        if eqs (Status current) CreativeRunStatusCancelled || IsTerminalCreativeRunStatus (Status current)
        then releasing (do* CancelRunByWorker runID in terminal)
        else
          Do (CExecute current payload) (λ r, Do CReleaseSlots (λ _,
            match r with
            | Err e => handleExecuteError runID e
            | Ok result =>
                let* lost := plain CLeaseLost in
                if lost then fails (OtherErr "creative lease lost" []) else
                match result with
                | None => handleExecuteError runID (OtherExecuteError "creative executor returned no result")
                | Some result => recordResult runID result
                end
            end))
    end).

(** Lines 413-422: select an account. *)
Definition prepareRun (run : CreativeRun) (payload : CreativeRunPayload) : M CreativeProcessResult :=
  Do (CPrepare run) (λ p, match p with
    | ErrCreativeExecutionPending => releasing (requeue defaultCreativeConcurrencyRequeueDelay)
    | PrepareError e => releasing (handleExecuteError (RunID run) e)
    | Prepared accountID => executeRun (RunID run) payload accountID
    end).

(** Lines 362-412: the queued or running run. *)
Definition processActive (run : CreativeRun) : M CreativeProcessResult :=
  let runID := RunID run in
  let* recovered := recoverPersistedProviderResult run in
  if recovered then terminal else
  bindProg (λ r, match r with
    | Err (ErrCreativeTransientUnavailable e) => fails e
    | Err (ErrCreativeTransientLost _) => do* MarkResultLost runID false in terminal
    | Ok payload =>
        if hasConcurrency s then
          Do (CAcquireUserSlot (UserID run)) (λ a, match a with
            | SlotUserGone => attempt (MarkResultLost runID false) (λ _, terminal)
            | SlotError e => fails e
            | SlotFull => requeue defaultCreativeConcurrencyRequeueDelay
            | SlotAcquired => prepareRun run payload
            end)
        else prepareRun run payload
    end) (loadPayload runID).

Definition process (runID : string) : M CreativeProcessResult :=
  attempt (lift (CGetRun runID)) (λ r, match r with
    | Err e => if errorsIs ErrCreativeRunNotFound e then terminal else fails e
    | Ok run =>
        if IsTerminalCreativeRunStatus (Status run) then terminal
        else if eqs (Status run) CreativeRunStatusReleasePending then processRelease runID
        else if IsCreativeRunSettlementPending (Status run) then processSettlement runID
        else processActive run
    end).

(** ** The reconciliation of one outbox event *)

Definition reconcileCreativeProvision (run : CreativeRun) : M unit :=
  let runID := RunID run in
  if eqs (ProvisioningPhase run) CreativeProvisioningPhaseEnqueued
     || eqs (ProvisioningPhase run) CreativeProvisioningPhaseComplete then
    do* lift (CEnqueue runID) in SetCreativeRunProvisioningPhase runID CreativeProvisioningPhaseComplete
  else if negb (eqs (ProvisioningPhase run) CreativeProvisioningPhaseTransientSaved) || negb (hasTransientStore s) then
    FailRun runID "PROVISIONING_INCOMPLETE" "creative provisioning could not be recovered without transient input"
  else
    Do (CLoadPayload runID) (λ r, match r with
      | Err _ => MarkResultLost runID false
      | Ok _ => do* lift (CEnqueue runID) in
                SetCreativeRunProvisioningPhase runID CreativeProvisioningPhaseEnqueued
      end).

Definition reconcileCreativeOutboxEvent (runID operation : string) : M unit :=
  attempt (lift (CGetRun runID)) (λ r, match r with
    | Err e => if errorsIs ErrCreativeRunNotFound e then ok tt else fails e
    | Ok run =>
        if eqs operation CreativeRunOutboxProvision then reconcileCreativeProvision run
        else if eqs operation CreativeRunOutboxSettle || eqs operation CreativeRunOutboxRelease then
          if IsTerminalCreativeRunStatus (Status run) then ok tt else lift (CEnqueue (RunID run))
        else fails (OtherErr "unknown creative outbox operation" [])
    end).

(** [failRunAfterCreateError]: both errors are only logged. *)
Definition failRunAfterCreateError (runID code message : string) : M unit :=
  attempt (TransitionCreativeRunStatus runID CreativeRunStatusReleasePending
             (mkTransitionOptions (Some code) (Some (sanitizeCreativeMessage message)) CreativeRunStatusFailed None))
    (λ _, attempt (ensureCreativeOutbox runID CreativeRunOutboxRelease) (λ _, ok tt)).
End service.

(** ** Concurrent executions *)

(** The tables; [captures] and [releases] list the runs whose hold some request
    asked the billing service to capture or to release, and [visited] is a
    history variable: the statuses of each run, newest first. *)
Record creativeDB := mkDB {
  dbRuns : gmap string CreativeRun;
  dbOutputs : gmap (string * Z) CreativeRunOutput;
  dbOutbox : outboxTable;
  dbClock : Time;
  captures : list string;
  releases : list string;
  visited : gmap string (list string);
}.

Definition history (d : creativeDB) (id : string) : list string := default [] (visited d !! id).

Definition storeRun (d : creativeDB) (id : string) (old new : CreativeRun) : creativeDB :=
  mkDB (<[id := new]> (dbRuns d)) (dbOutputs d) (dbOutbox d) (dbClock d) (captures d) (releases d)
    (if eqs (Status new) (Status old) then visited d else <[id := Status new :: history d id]> (visited d)).

Definition storeOutputs (d : creativeDB) (m : gmap (string * Z) CreativeRunOutput) : creativeDB :=
  mkDB (dbRuns d) m (dbOutbox d) (dbClock d) (captures d) (releases d) (visited d).
Definition storeOutbox (d : creativeDB) (t : outboxTable) : creativeDB :=
  mkDB (dbRuns d) (dbOutputs d) t (dbClock d) (captures d) (releases d) (visited d).
Definition setClock (d : creativeDB) (t : Time) : creativeDB :=
  mkDB (dbRuns d) (dbOutputs d) (dbOutbox d) t (captures d) (releases d) (visited d).
Definition addCapture (d : creativeDB) (id : string) : creativeDB :=
  mkDB (dbRuns d) (dbOutputs d) (dbOutbox d) (dbClock d) (id :: captures d) (releases d) (visited d).
Definition addRelease (d : creativeDB) (id : string) : creativeDB :=
  mkDB (dbRuns d) (dbOutputs d) (dbOutbox d) (dbClock d) (captures d) (id :: releases d) (visited d).

Definition byIndex (a b : CreativeRunOutput) : Prop := OutputIndex a <= OutputIndex b.
#[export] Instance byIndex_dec : RelDecision byIndex := λ a b, Z_le_dec _ _.

(** The rows of a run, by index ([ORDER BY output_index]). *)
Definition outputsOf (d : creativeDB) (id : string) : list CreativeRunOutput :=
  merge_sort byIndex
    (List.filter (λ o, eqs (oRunID o) id) (snd <$> map_to_list (dbOutputs d))).

(** [UPDATE ... WHERE run_id = id AND cond]: the affected rows and the new table. *)
Definition updateRun (d : creativeDB) (id : string) (cond : CreativeRun → bool) (set : CreativeRun → CreativeRun)
    : Z * creativeDB :=
  match dbRuns d !! id with
  | Some r => if cond r then (1, storeRun d id r (set r)) else (0, d)
  | None => (0, d)
  end.

Definition updateOutput (d : creativeDB) (id : string) (i : Z) (cond : CreativeRunOutput → bool)
    (set : CreativeRunOutput → CreativeRunOutput) : Z * creativeDB :=
  match dbOutputs d !! (id, i) with
  | Some o => if cond o then (1, storeOutputs d (<[(id, i) := set o]> (dbOutputs d))) else (0, d)
  | None => (0, d)
  end.

Definition ensureEvent (d : creativeDB) (id operation : string) (availableAt : Time) : option creativeDB :=
  storeOutbox d <$> Ensure (dbClock d) (dbOutbox d) id operation availableAt.

Definition notFound (e : ApplicationError) : goError := AppErr (WithCause e (Some (OtherErr "not found" []))).

(** The possible answers of a call, with the database after it. A statement
    may fail before or after it took effect; billing, the transient store and
    the executor may answer anything. *)
Definition answers {R} (d : creativeDB) (c : call R) : R → creativeDB → Prop :=
  match c in call R return R → creativeDB → Prop with
  | CNow => λ r d', r = dbClock d ∧ d' = d
  | CGetRun id => λ r d', d' = d ∧
      ((∃ e, r = Err e) ∨ match dbRuns d !! id with Some run => r = Ok run | None => r = Err (notFound ErrCreativeRunNotFound) end)
  | CUpdateRun id cond set => λ r d',
      (r = Ok (fst (updateRun d id cond set)) ∧ d' = snd (updateRun d id cond set)) ∨
      ((∃ e, r = Err e) ∧ (d' = d ∨ d' = snd (updateRun d id cond set)))
  | CGetOutput id i => λ r d', d' = d ∧
      ((∃ e, r = Err e) ∨ match dbOutputs d !! (id, i) with Some o => r = Ok o | None => r = Err (notFound ErrCreativeOutputNotFound) end)
  | CListOutputs id => λ r d', d' = d ∧ ((∃ e, r = Err e) ∨ r = Ok (outputsOf d id))
  | CUpdateOutput id i cond set => λ r d',
      (r = Ok (fst (updateOutput d id i cond set)) ∧ d' = snd (updateOutput d id i cond set)) ∨
      ((∃ e, r = Err e) ∧ (d' = d ∨ d' = snd (updateOutput d id i cond set)))
  | CEnsureOutbox id operation availableAt => λ r d',
      (r = Ok tt ∧ ensureEvent d id operation availableAt = Some d') ∨
      ((∃ e, r = Err e) ∧ (d' = d ∨ ensureEvent d id operation availableAt = Some d'))
  | CCapture cmd => λ _ d', d' = addCapture d (cBatchID cmd)
  | CRelease cmd => λ _ d', d' = addRelease d (cBatchID cmd)
  | _ => λ _ d', d' = d
  end.

(** The operations that the program starts on a run: the worker, the outbox
    reconciler, the failure of a creation, the expiry of a result, the
    acknowledgment of an image and the marks of the creation saga.
    [CancelRunByWorker] is only reached through the worker. *)
Inductive entry `{UnicodeCase} (rid : string) : Prog unit → Prop :=
  | entry_process s sanitize errorText retryable :
      entry rid (bindProg (λ _, Ret tt) (process s sanitize errorText retryable rid))
  | entry_reconcile s sanitize operation :
      entry rid (bindProg (λ _, Ret tt) (reconcileCreativeOutboxEvent s sanitize rid operation))
  | entry_createFailed s sanitize code message :
      entry rid (bindProg (λ _, Ret tt) (failRunAfterCreateError s sanitize rid code message))
  | entry_expired :
      entry rid (bindProg (λ _, Ret tt) (let* run := lift (CGetRun rid) in markRunResultLost run))
  | entry_ack i now : entry rid (bindProg (λ _, Ret tt) (MarkCreativeRunOutputAcked rid i now))
  | entry_phase phase : entry rid (bindProg (λ _, Ret tt) (SetCreativeRunProvisioningPhase rid phase))
  | entry_allowance reserved : entry rid (bindProg (λ _, Ret tt) (SetCreativeRunAllowanceReserved rid reserved)).

Record thread := mkThread { tRun : string; tProg : Prog unit }.
Record creativeSystem := mkSystem { sysDB : creativeDB; threads : list thread }.

(** What [CreateCreativeRun] inserts: a queued run with the column defaults
    and its pending outputs. *)
Definition fresh (run : CreativeRun) : Prop :=
  Status run = CreativeRunStatusQueued ∧ ReleaseTargetStatus run = CreativeRunStatusFailed ∧ Version run = 1 ∧
  ProvisioningPhase run = CreativeProvisioningPhaseCreated ∧ AccountID run = None ∧ ActualCost run = None ∧
  ProviderResultRecordedAt run = None ∧ AllowanceReserved run = false.

Definition pendingOutput (runID : string) (i : Z) (now : Time) : CreativeRunOutput :=
  mkOutput 0 runID i CreativeRunOutputStatusPending None None None None None None now now.

Fixpoint pendingOutputs (runID : string) (n : nat) (now : Time) (m : gmap (string * Z) CreativeRunOutput)
    : gmap (string * Z) CreativeRunOutput :=
  match n with
  | O => m
  | S n => <[(runID, Z.of_nat n) := pendingOutput runID (Z.of_nat n) now]> (pendingOutputs runID n now m)
  end.

Definition insertRun (d : creativeDB) (run : CreativeRun) : creativeDB :=
  mkDB (<[RunID run := run]> (dbRuns d))
    (pendingOutputs (RunID run) (Z.to_nat (RequestedOutputCount run)) (dbClock d) (dbOutputs d))
    (default (dbOutbox d) (Ensure (dbClock d) (dbOutbox d) (RunID run) CreativeRunOutboxProvision zeroTime))
    (dbClock d) (captures d) (releases d) (<[RunID run := [Status run]]> (visited d)).

Inductive flowStep `{UnicodeCase} (s : creativeSystem) : creativeSystem → Prop :=
  | flow_call i t R (c : call R) k r d' :
      threads s !! i = Some t → tProg t = Do c k → answers (sysDB s) c r d' →
      flowStep s (mkSystem d' (<[i := mkThread (tRun t) (k r)]> (threads s)))
  | flow_start rid p : entry rid p → flowStep s (mkSystem (sysDB s) (threads s ++ [mkThread rid p]))
  | flow_create run : dbRuns (sysDB s) !! RunID run = None → fresh run →
      flowStep s (mkSystem (insertRun (sysDB s) run) (threads s))
  | flow_clock t : dbClock (sysDB s) <= t → flowStep s (mkSystem (setClock (sysDB s) t) (threads s)).

Definition flowInit (s : creativeSystem) : Prop :=
  s = mkSystem (mkDB ∅ ∅ emptyOutbox (dbClock (sysDB s)) [] [] ∅) [].

(** ** The protocol of the programs

    [K] are the rows of the run that a program has read so far.  [safe] says
    that each of its statements is justified by them, for every row that is
    [later] than all of them. *)

Definition terminalRun (r : CreativeRun) : bool := IsTerminalCreativeRunStatus (Status r).
Definition settling (r : CreativeRun) : Prop :=
  Status r = CreativeRunStatusProviderSucceeded ∨ Status r = CreativeRunStatusSettlementPending.
Definition releasingRun (r : CreativeRun) : Prop := Status r = CreativeRunStatusReleasePending.

Definition later (c r : CreativeRun) : Prop :=
  Version c <= Version r ∧ (Version c = Version r → Status c = Status r) ∧ (terminalRun c = true → terminalRun r = true).

Definition sound (rid : string) (r : CreativeRun) : Prop :=
  RunID r = rid ∧ Status r ≠ CreativeRunStatusCancelled ∧ ReleaseTargetStatus r ≠ CreativeRunStatusCancelled.

Definition evolves (r r' : CreativeRun) : Prop :=
  sound (RunID r) r' ∧
  ((Status r' = Status r ∧ Version r <= Version r') ∨
   (CanTransitionCreativeRun (Status r) (Status r') = true ∧ Version r < Version r')).

Definition callOk {R} (rid : string) (c : call R) (K : list CreativeRun) : (R → list CreativeRun → Prop) → Prop :=
  match c in call R return (R → list CreativeRun → Prop) → Prop with
  | CGetRun id => λ Q, id = rid ∧ (∀ cur, sound rid cur → (∀ x, x ∈ K → later x cur) → Q (Ok cur) (cur :: K)) ∧
      ∀ e, Q (Err e) K
  | CUpdateRun id cond set => λ Q, id = rid ∧
      (∀ r, sound rid r → (∀ x, x ∈ K → later x r) → cond r = true → evolves r (set r)) ∧ ∀ a, Q a K
  | CCapture cmd => λ Q, cBatchID cmd = rid ∧ (∃ x, x ∈ K ∧ settling x) ∧ ∀ a, Q a K
  | CRelease cmd => λ Q, cBatchID cmd = rid ∧ (∃ x, x ∈ K ∧ releasingRun x) ∧ ∀ a, Q a K
  | _ => λ Q, ∀ a, Q a K
  end.

Fixpoint safe {A} (rid : string) (p : Prog A) (K : list CreativeRun) (Q : A → list CreativeRun → Prop) : Prop :=
  match p with
  | Ret a => Q a K
  | Do c k => callOk rid c K (λ r K', safe rid (k r) K' Q)
  end.

(** The knowledge only grows. *)
Definition ext {A} (K : list CreativeRun) : A → list CreativeRun → Prop := λ _ K', K ⊆ K'.

Lemma callOk_mono {R} rid (c : call R) K (Q Q' : R → list CreativeRun → Prop) :
  (∀ r K', Q r K' → Q' r K') → callOk rid c K Q → callOk rid c K Q'.
Proof.
  intros HQ. destruct c; simpl; try (intros H a; by apply HQ, H).
  - intros (-> & Hc & He). split; [done|]. split; [|by intros e; apply HQ]. intros cur Hs Hk. by apply HQ, Hc.
  - intros (-> & Hu & Ha). split; [done|]. split; [done|]. intros a. by apply HQ, Ha.
  - intros (Hb & Hx & Ha). split; [done|]. split; [done|]. intros a. by apply HQ, Ha.
  - intros (Hb & Hx & Ha). split; [done|]. split; [done|]. intros a. by apply HQ, Ha.
Qed.

Lemma safe_mono {A} rid (p : Prog A) : ∀ K (Q Q' : A → list CreativeRun → Prop),
  (∀ a K', Q a K' → Q' a K') → safe rid p K Q → safe rid p K Q'.
Proof.
  induction p as [a|R c k IH]; simpl; intros K Q Q' HQ; [apply HQ|].
  apply callOk_mono. intros r K'. by apply IH.
Qed.

Lemma safe_bind {A B} rid (f : A → Prog B) (p : Prog A) : ∀ K Q,
  safe rid p K (λ a K', safe rid (f a) K' Q) → safe rid (bindProg f p) K Q.
Proof.
  induction p as [a|R c k IH]; simpl; intros K Q; [done|]. apply callOk_mono. intros r K'. apply IH.
Qed.

Section safety.
Context (rid : string).
Implicit Types K : list CreativeRun.

Lemma safe_attempt {A B} (m : M A) (f : result goError A → M B) K :
  safe rid m K (ext K) → (∀ r K', K ⊆ K' → safe rid (f r) K' (ext K')) → safe rid (attempt m f) K (ext K).
Proof.
  intros Hm Hf. apply safe_bind. eapply safe_mono; [|exact Hm]. intros r K' HK.
  eapply safe_mono; [|by apply Hf]. intros b K'' HK'. unfold ext in *. set_solver.
Qed.

Lemma safe_then {A B} (m : M A) (f : A → M B) K :
  safe rid m K (ext K) → (∀ a K', K ⊆ K' → safe rid (f a) K' (ext K')) → safe rid (andThen m f) K (ext K).
Proof.
  intros Hm Hf. apply safe_attempt; [done|]. intros [a|e] K' HK; [by apply Hf|]. simpl. unfold ext. set_solver.
Qed.

Lemma safe_get {B} (f : CreativeRun → M B) K :
  (∀ cur, sound rid cur → (∀ x, x ∈ K → later x cur) → safe rid (f cur) (cur :: K) (ext (cur :: K))) →
  safe rid (andThen (lift (CGetRun rid)) f) K (ext K).
Proof.
  intros Hf. simpl. split; [done|]. split; [|intros e; simpl; unfold ext; set_solver].
  intros cur Hs Hk. eapply safe_mono; [|by apply Hf]. unfold ext. set_solver.
Qed.

Lemma safe_getAttempt {B} (f : result goError CreativeRun → M B) K :
  (∀ cur, sound rid cur → (∀ x, x ∈ K → later x cur) → safe rid (f (Ok cur)) (cur :: K) (ext (cur :: K))) →
  (∀ e, safe rid (f (Err e)) K (ext K)) →
  safe rid (attempt (lift (CGetRun rid)) f) K (ext K).
Proof.
  intros Hf He. simpl. split; [done|]. split; [|done].
  intros cur Hs Hk. eapply safe_mono; [|by apply Hf]. unfold ext. set_solver.
Qed.

Lemma safe_ret {A} (r : result goError A) K : safe rid (Ret r) K (ext K).
Proof. simpl. unfold ext. set_solver. Qed.

(** A call that needs no knowledge. *)
Lemma safe_do {R A} (c : call R) (k : R → Prog A) K :
  callOk rid c K (λ _ K', K' = K) → (∀ r, safe rid (k r) K (ext K)) → safe rid (Do c k) K (ext K).
Proof. intros Hc Hk. simpl. eapply callOk_mono; [|exact Hc]. intros r K' ->. apply Hk. Qed.

Lemma safe_update id cond set K :
  id = rid → (∀ r, sound rid r → (∀ x, x ∈ K → later x r) → cond r = true → evolves r (set r)) →
  safe rid (lift (CUpdateRun id cond set)) K (ext K).
Proof. intros -> H. simpl. split; [done|]. split; [done|]. intros a. unfold ext. set_solver. Qed.

(** An update that keeps the status, the version and the release target. *)
Lemma evolves_same r r' :
  sound rid r → RunID r' = RunID r → Status r' = Status r → Version r' = Version r →
  ReleaseTargetStatus r' = ReleaseTargetStatus r → evolves r r'.
Proof.
  intros (Hi & Hs & Ht) Hid Hst Hv Htg. split; [|left; split; [done | lia]].
  split; [done|]. by rewrite Hst, Htg.
Qed.
End safety.

Lemma later_step c r r' : later c r → evolves r r' → later c r'.
Proof.
  intros (Hv & He & Ht) [_ [[Hs Hv']|[Hc Hv']]].
  - split; [lia|]. split; [intros E; rewrite Hs; apply He; lia|]. unfold terminalRun in *. by rewrite Hs.
  - split; [lia|]. split; [lia|]. intros Hterm. specialize (Ht Hterm).
    unfold terminalRun in *. unfold CanTransitionCreativeRun in Hc. rewrite Ht in Hc.
    destruct (eqs (Status r) "" || eqs (Status r') ""); [done|]. apply andb_true_iff in Hc as [_ Hc].
    apply eqs_true in Hc. by rewrite Hc.
Qed.

Lemma later_refl r : later r r.
Proof. unfold later. split; [lia|]. by split. Qed.

(** One step of symbolic execution of a program. *)
Ltac flow_step :=
  match goal with
  | |- safe _ (andThen (lift (CGetRun _)) _) _ _ => apply safe_get; intros ?cur ?Hsound ?Hknown
  | |- safe _ (attempt (lift (CGetRun _)) _) _ _ => apply safe_getAttempt; [intros ?cur ?Hsound ?Hknown | intros ?e]
  | |- safe _ (andThen _ _) _ _ => apply safe_then; [|intros ?a ?K' ?HK]
  | |- safe _ (attempt _ _) _ _ => apply safe_attempt; [|intros [?a|?e] ?K' ?HK]
  | |- safe _ (if ?b then _ else _) _ _ => destruct b eqn:?
  | |- safe _ (match ?o with Some _ => _ | None => _ end) _ _ => destruct o eqn:?
  | |- safe _ (match ?o with Ok _ => _ | Err _ => _ end) _ _ => destruct o eqn:?
  | |- safe _ (let '(_, _) := ?o in _) _ _ => destruct o eqn:?
  | |- safe _ (Ret _) _ _ => apply safe_ret
  | |- safe _ (ok _) _ _ => apply safe_ret
  | |- safe _ (fails _) _ _ => apply safe_ret
  | |- safe _ invalidTransition _ _ => apply safe_ret
  | |- safe _ (terminal) _ _ => apply safe_ret
  | |- safe _ (requeue _) _ _ => apply safe_ret
  | |- safe _ (plain _) _ _ => apply safe_do; [by intros | intros]
  | |- safe _ (lift (CUpdateRun _ _ _)) _ _ => apply safe_update; [done|intros ?r ?Hr ?Hl ?Hc]
  | |- safe _ (lift _) _ _ => apply safe_do; [by intros | intros]
  | |- safe _ (Do _ _) _ _ => apply safe_do; [by intros | intros ?r]
  end.

Create HintDb flow.

Section repository.
Context (rid : string).
Implicit Types K : list CreativeRun.

Lemma transitionBuilder_fields to opts now v r :
  let r' := transitionBuilder to opts now v r in
  RunID r' = RunID r ∧ Status r' = to ∧ Version r' = v + 1 ∧
  ReleaseTargetStatus r' =
    (if eqs to CreativeRunStatusReleasePending
     then if eqs (optReleaseTargetStatus opts) "" then CreativeRunStatusFailed else optReleaseTargetStatus opts
     else ReleaseTargetStatus r).
Proof.
  unfold transitionBuilder, setErrors. destruct opts as [[c|] [m|] tg n]; cbn [optErrorCode optErrorMessage optReleaseTargetStatus];
    repeat case_match; done.
Qed.

Lemma later_version x r cur K :
  x = cur → x ∈ K → (∀ y, y ∈ K → later y r) → versionIs (Version cur) r = true → Status r = Status cur ∧ Version r = Version cur.
Proof.
  intros -> Hin Hl Hv. unfold versionIs in Hv. zbool. destruct (Hl _ Hin) as (_ & He & _). split; [|done].
  symmetry. by apply He.
Qed.

Lemma safe_Transition to opts K :
  to ≠ CreativeRunStatusCancelled → optReleaseTargetStatus opts ≠ CreativeRunStatusCancelled →
  safe rid (TransitionCreativeRunStatus rid to opts) K (ext K).
Proof.
  intros Hto Htg. unfold TransitionCreativeRunStatus. repeat flow_step.
  destruct (later_version cur r cur (cur :: K')) as [Hst Hv]; [done | left | done | done |].
  destruct (transitionBuilder_fields to opts a (Version cur) r) as (F1 & F2 & F3 & F4).
  assert (Hcan : CanTransitionCreativeRun (Status cur) to = true) by by apply negb_false_iff.
  split.
  - split; [done|]. rewrite F2, F4. split; [done|]. destruct Hr as (_ & _ & Hr). repeat case_match; done.
  - right. rewrite F2, F3, Hst. split; [done | lia].
Qed.

Lemma safe_setColumn set K :
  (∀ r, RunID (set r) = RunID r ∧ Status (set r) = Status r ∧ Version (set r) = Version r ∧
        ReleaseTargetStatus (set r) = ReleaseTargetStatus r) →
  safe rid (setColumn rid set) K (ext K).
Proof.
  intros Hset. unfold setColumn. repeat flow_step. destruct (Hset r) as (F1 & F2 & F3 & F4). by eapply evolves_same.
Qed.

Lemma safe_SetAccountID accountID now K : safe rid (SetCreativeRunAccountID rid accountID now) K (ext K).
Proof. unfold SetCreativeRunAccountID. repeat flow_step. by eapply evolves_same. Qed.

Lemma safe_Phase phase K : safe rid (SetCreativeRunProvisioningPhase rid phase) K (ext K).
Proof. unfold SetCreativeRunProvisioningPhase. repeat flow_step. by apply safe_setColumn. Qed.

Lemma safe_Allowance b K : safe rid (SetCreativeRunAllowanceReserved rid b) K (ext K).
Proof. by apply safe_setColumn. Qed.

Lemma safe_ReconcileError m next K : safe rid (SetCreativeRunReconcileError rid m next) K (ext K).
Proof. by apply safe_setColumn. Qed.

Lemma safe_IncrementAttempt K : safe rid (IncrementCreativeRunAttempt rid) K (ext K).
Proof. unfold IncrementCreativeRunAttempt. repeat flow_step. by eapply evolves_same. Qed.

Lemma safe_IncrementCounter b K : safe rid (incrementCreativeRunCounter rid b) K (ext K).
Proof. unfold incrementCreativeRunCounter. repeat flow_step. destruct b; by eapply evolves_same. Qed.

Lemma safe_UpdateOutput i st m n t ec em K : safe rid (UpdateCreativeRunOutput rid i st m n t ec em) K (ext K).
Proof. unfold UpdateCreativeRunOutput. repeat flow_step. Qed.

Lemma safe_Acked i now K : safe rid (MarkCreativeRunOutputAcked rid i now) K (ext K).
Proof. unfold MarkCreativeRunOutputAcked. repeat flow_step. Qed.

(** A status change from a status that is known to the update's condition. *)
Lemma evolves_to r r' :
  sound rid r → RunID r' = RunID r → Status r' ≠ CreativeRunStatusCancelled →
  CanTransitionCreativeRun (Status r) (Status r') = true → Version r < Version r' →
  ReleaseTargetStatus r' = ReleaseTargetStatus r → evolves r r'.
Proof. intros (Hi & Hs & Ht) Hid Hst Hc Hv Htg. split; [|by right]. split; [done|]. by rewrite Htg. Qed.

Lemma setAccount_fields a r :
  RunID (setAccount a r) = RunID r ∧ Status (setAccount a r) = Status r ∧ Version (setAccount a r) = Version r ∧
  ReleaseTargetStatus (setAccount a r) = ReleaseTargetStatus r.
Proof. unfold setAccount. by case_match. Qed.

Lemma safe_MarkRunningRow accountID now K : safe rid (MarkCreativeRunRunning rid accountID now) K (ext K).
Proof.
  unfold MarkCreativeRunRunning. repeat flow_step.
  - by eapply evolves_same.
  - destruct (later_version cur r cur (cur :: K)) as [Hst Hv]; [done | left | done | done |].
    destruct (setAccount_fields accountID (SetUpdatedAt now (SetStartedAt (Some now)
        (SetVersion (Version cur + 1) (SetStatus CreativeRunStatusRunning r))))) as (F1 & F2 & F3 & F4).
    apply evolves_to; rewrite ?F1, ?F2, ?F3, ?F4; try done; simpl; [|lia].
    rewrite Hst. by apply negb_false_iff.
Qed.

Lemma safe_MarkSucceeded cost now K : safe rid (MarkCreativeRunSucceeded rid cost now) K (ext K).
Proof.
  unfold MarkCreativeRunSucceeded. repeat flow_step.
  apply evolves_to; try done; simpl; [|lia].
  unfold settleable in Hc. repeat (apply orb_true_iff in Hc as [Hc|Hc]); apply eqs_true in Hc; by rewrite Hc.
Qed.

Lemma safe_MarkProviderSucceeded accountID now K :
  safe rid (MarkCreativeRunProviderSucceeded rid accountID now) K (ext K).
Proof.
  unfold MarkCreativeRunProviderSucceeded. repeat flow_step.
  destruct (later_version cur r cur (cur :: K)) as [Hst Hv]; [done | left | done | done |].
  destruct (setAccount_fields accountID (SetVersion (Version r + 1)
    (SetUpdatedAt now (SetProviderResultRecordedAt (Some now) r)))) as (F1 & F2 & F3 & F4).
  destruct (eqs (Status cur) CreativeRunStatusRunning) eqn:E.
  - apply eqs_true in E. apply evolves_to; try done.
    + rewrite Hst, E. done.
    + change (Version (SetStatus ?s ?x)) with (Version x). rewrite F3. simpl. lia.
  - destruct Hr as (Hi & Hs & Ht). split.
    + split; [by rewrite F1|]. by rewrite F2, F4.
    + left. rewrite F2, F3. simpl. split; [done | lia].
Qed.
End repository.

#[export] Hint Resolve safe_Transition safe_SetAccountID safe_Phase safe_Allowance safe_ReconcileError
  safe_IncrementAttempt safe_IncrementCounter safe_UpdateOutput safe_Acked safe_MarkRunningRow safe_MarkSucceeded
  safe_MarkProviderSucceeded safe_ret : flow.

Ltac flow := repeat first [done | progress flow_step | solve [eauto with flow]].

Section operations.
Context `{UnicodeCase} (rid : string) (s : creativeService) (sanitize : string → string).
Implicit Types K : list CreativeRun.

Lemma safe_Outbox operation K : safe rid (ensureCreativeOutbox s rid operation) K (ext K).
Proof. unfold ensureCreativeOutbox. flow. Qed.

Lemma safe_MarkRunning accountID K : safe rid (MarkRunning rid accountID) K (ext K).
Proof. unfold MarkRunning. flow. Qed.

Lemma safe_capture run n K :
  RunID run = rid → (∃ x, x ∈ K ∧ settling x) → safe rid (captureCreativeBalanceHold s run n) K (ext K).
Proof.
  intros Hid Hx. unfold captureCreativeBalanceHold. repeat flow_step.
  destruct (hold_command_ok _ _ _ _ Heqr) as (_ & Hb & _).
  simpl. split; [by rewrite Hb|]. split; [done|]. intros a. unfold ext. set_solver.
Qed.

Lemma safe_releaseHold run K :
  RunID run = rid → (∃ x, x ∈ K ∧ releasingRun x) → safe rid (releaseCreativeBalanceHold s run) K (ext K).
Proof.
  intros Hid Hx. unfold releaseCreativeBalanceHold. repeat flow_step.
  destruct (hold_command_ok _ _ _ _ Heqr) as (_ & Hb & _).
  simpl. split; [by rewrite Hb|]. split; [done|]. intros [?|[]]; simpl; unfold ext; set_solver.
Qed.

Lemma safe_settleCapture run K :
  RunID run = rid → (∃ x, x ∈ K ∧ settling x) → safe rid (settleCapture s rid run) K (ext K).
Proof.
  intros Hid Hx. unfold settleCapture.
  flow_step; [apply safe_ret|]. flow_step; [flow|].
  flow_step; [apply safe_capture; [done|]; destruct Hx as (x & Hin & ?); exists x; by auto|].
  flow_step; [flow|]. flow.
Qed.

Lemma settling_of_sound cur :
  sound rid cur → nothingToSettle cur = false → settling cur.
Proof.
  intros (_ & Hs & _). unfold nothingToSettle, IsCreativeRunSettlementPending, settling.
  rewrite <- eqs_false in Hs. rewrite Hs. simpl. rewrite andb_true_r, !orb_false_r, <- !eqs_true.
  destruct (eqs (Status cur) CreativeRunStatusReleasePending), (eqs (Status cur) CreativeRunStatusProviderSucceeded),
    (eqs (Status cur) CreativeRunStatusSettlementPending); simpl; auto; done.
Qed.

Lemma safe_SettleRun K : safe rid (SettleRun s rid) K (ext K).
Proof.
  unfold SettleRun. flow_step. flow_step; [apply safe_ret|].
  assert (Hset : settling cur) by by apply settling_of_sound.
  assert (Hid : RunID cur = rid) by apply Hsound.
  flow_step.
  - flow_step; [by apply safe_Transition | |].
    + apply safe_settleCapture; [done|]. exists cur. split; [apply HK; by left | done].
    + flow_step; [|apply safe_ret]. apply safe_settleCapture; [done|]. exists cur. split; [apply HK; by left | done].
  - apply safe_settleCapture; [done|]. exists cur. split; [by left | done].
Qed.

Lemma safe_ReleaseRun K : safe rid (ReleaseRun s rid) K (ext K).
Proof.
  unfold ReleaseRun. flow_step. flow_step; [apply safe_ret|].
  assert (Hrel : releasingRun cur).
  { unfold releasingRun. apply eqs_true. by apply negb_false_iff. }
  destruct Hsound as (Hid & Hst & Htg).
  flow_step; [apply safe_releaseHold; [done|]; exists cur; split; [by left | done]|].
  flow_step; [flow|]. cbv zeta. flow_step.
  - apply safe_Transition; [|done]. case_match; done.
  - flow.
  - flow.
Qed.
#[local] Hint Resolve safe_Outbox safe_MarkRunning safe_SettleRun safe_ReleaseRun : flow.

Lemma safe_startRelease opts b K :
  optReleaseTargetStatus opts ≠ CreativeRunStatusCancelled → safe rid (startRelease s rid opts b) K (ext K).
Proof.
  intros Ht. unfold startRelease. flow_step; [by apply safe_Transition | flow | flow].
Qed.

Lemma safe_FailRun code message K : safe rid (FailRun s sanitize rid code message) K (ext K).
Proof. unfold FailRun. cbv zeta. repeat flow_step; (first [done | by eauto with flow | by apply safe_startRelease]). Qed.

Lemma safe_MarkResultLost b K : safe rid (MarkResultLost s rid b) K (ext K).
Proof. unfold MarkResultLost. repeat flow_step; (first [done | by eauto with flow | by apply safe_startRelease]). Qed.

(** A worker that has read a terminal status finds it terminal again. *)
Lemma safe_CancelRunByWorker K :
  (∃ x, x ∈ K ∧ terminalRun x = true) → safe rid (CancelRunByWorker s rid) K (ext K).
Proof.
  intros (x & Hx & Ht). unfold CancelRunByWorker. flow_step.
  destruct (Hknown x Hx) as (_ & _ & Hterm). unfold terminalRun in Hterm at 2. rewrite (Hterm Ht). apply safe_ret.
Qed.

Lemma safe_markRunResultLost run K : RunID run = rid → safe rid (markRunResultLost run) K (ext K).
Proof. intros <-. unfold markRunResultLost. flow_step; [apply safe_ret|]. by apply safe_Transition. Qed.

Lemma safe_saveOutputs results K : safe rid (saveOutputs s rid results) K (ext K).
Proof.
  revert K. induction results as [|r rest IH]; intros K; cbn [saveOutputs]; [apply safe_ret|].
  repeat first [apply IH | flow_step].
Qed.

Lemma safe_updateOutputs t results K : safe rid (updateOutputs sanitize rid t results) K (ext K).
Proof.
  revert K. induction results as [|r rest IH]; intros K; cbn [updateOutputs]; [apply safe_ret|].
  repeat first [apply IH | flow_step]; eauto with flow.
Qed.

Lemma safe_getRunPublic K : safe rid (getRunPublic rid) K (ext K).
Proof. unfold getRunPublic. flow. Qed.
#[local] Hint Resolve safe_FailRun safe_MarkResultLost safe_saveOutputs safe_updateOutputs safe_getRunPublic : flow.

Lemma safe_SucceedRun accountID results K : safe rid (SucceedRun s sanitize rid accountID results) K (ext K).
Proof. unfold SucceedRun. flow. Qed.
#[local] Hint Resolve safe_SucceedRun : flow.

Lemma safe_releasing {A} (m : M A) K : safe rid m K (ext K) → safe rid (releasing m) K (ext K).
Proof. intros Hm. unfold releasing. apply safe_attempt; [done|]. intros r K' HK. flow. Qed.

Lemma safe_handleExecuteError retryable e K : safe rid (handleExecuteError s sanitize retryable rid e) K (ext K).
Proof. unfold handleExecuteError. cbv zeta. flow. Qed.
#[local] Hint Resolve safe_handleExecuteError : flow.

Lemma safe_recover run K : RunID run = rid → safe rid (recoverPersistedProviderResult s run) K (ext K).
Proof. intros Hid. unfold recoverPersistedProviderResult. rewrite Hid. flow. Qed.

Lemma safe_loadPayload K : safe rid (loadPayload s rid) K (ext K).
Proof.
  unfold loadPayload. flow_step; [simpl; unfold ext; set_solver|]. flow_step. destruct r as [payload|e]; [|simpl; unfold ext; set_solver].
  apply safe_bind. destruct (0 <? SourceCount payload); simpl.
  - intros [sources|e]; simpl; [|unfold ext; set_solver].
    destruct (HasMask payload); simpl; [intros [?|?]; simpl|]; unfold ext; set_solver.
  - destruct (HasMask payload); simpl; [intros [?|?]; simpl|]; unfold ext; set_solver.
Qed.

Lemma safe_bindExt {A B} (p : Prog A) (f : A → M B) K :
  safe rid p K (ext K) → (∀ a K', K ⊆ K' → safe rid (f a) K' (ext K')) → safe rid (bindProg f p) K (ext K).
Proof.
  intros Hp Hf. apply safe_bind. eapply safe_mono; [|exact Hp]. intros r K' HK.
  eapply safe_mono; [|by apply Hf]. intros b K'' HK'. unfold ext in *. set_solver.
Qed.

Context (errorText : goError → string) (IsRetryable : executeError → bool).

Lemma safe_processRelease K : safe rid (processRelease s sanitize errorText rid) K (ext K).
Proof. unfold processRelease. flow. Qed.

Lemma safe_processSettlement K : safe rid (processSettlement s sanitize errorText rid) K (ext K).
Proof. unfold processSettlement. flow. Qed.

Lemma safe_recordResult r K : safe rid (recordResult s sanitize rid r) K (ext K).
Proof. unfold recordResult. cbv zeta. flow. Qed.
#[local] Hint Resolve safe_processRelease safe_processSettlement safe_recordResult : flow.

(** The part of [executeRun] after the last read of the row. *)
Lemma safe_executeTail cur payload K :
  cur ∈ K →
  safe rid (if eqs (Status cur) CreativeRunStatusCancelled || IsTerminalCreativeRunStatus (Status cur)
            then releasing (do* CancelRunByWorker s rid in terminal)
            else Do (CExecute cur payload) (λ r, Do CReleaseSlots (λ _,
              match r with
              | Err e => handleExecuteError s sanitize IsRetryable rid e
              | Ok result =>
                  let* lost := plain CLeaseLost in
                  if lost then fails (OtherErr "creative lease lost" []) else
                  match result with
                  | None => handleExecuteError s sanitize IsRetryable rid
                              (OtherExecuteError "creative executor returned no result")
                  | Some result => recordResult s sanitize rid result
                  end
              end))) K (ext K).
Proof.
  intros Hcur. flow_step.
  - apply safe_releasing. flow_step; [|apply safe_ret]. apply safe_CancelRunByWorker. exists cur. split; [done|].
    apply orb_true_iff in Heqb as [E|E]; [|done]. apply eqs_true in E. unfold terminalRun. by rewrite E.
  - flow.
Qed.

Lemma safe_executeRun payload accountID K :
  safe rid (executeRun s sanitize IsRetryable rid payload accountID) K (ext K).
Proof.
  unfold executeRun.
  (* the last statement of the first part is the read that the rest relies on *)
  apply safe_bind. unfold andThen at 1. apply safe_bind. eapply safe_mono; [|apply safe_MarkRunning].
  intros [[]|e] K1 HK1; [|simpl; intros _; unfold ext in *; set_solver].
  apply safe_bind.
  assert (Hacc : safe rid (if 0 <? accountID then let* now := plain CNow in SetCreativeRunAccountID rid accountID now
                           else ok tt) K1 (ext K1)) by flow.
  eapply safe_mono; [|exact Hacc].
  intros [[]|e] K2 HK2; [|simpl; intros _; unfold ext in *; set_solver].
  simpl. split; [done|]. split.
  - intros cur _ _. eapply safe_mono; [|apply (safe_executeTail cur payload (cur :: K2)); by left].
    unfold ext in *. set_solver.
  - intros e. simpl. intros _. unfold ext in *. set_solver.
Qed.

Lemma safe_prepareRun run payload K :
  RunID run = rid → safe rid (prepareRun s sanitize IsRetryable run payload) K (ext K).
Proof.
  intros Hid. unfold prepareRun. rewrite Hid. flow_step. destruct r.
  - apply safe_executeRun.
  - apply safe_releasing, safe_ret.
  - apply safe_releasing, safe_handleExecuteError.
Qed.

Lemma safe_processActive run K : RunID run = rid → safe rid (processActive s sanitize IsRetryable run) K (ext K).
Proof.
  intros Hid. unfold processActive. cbv zeta. flow_step; [by apply safe_recover|]. flow_step; [apply safe_ret|].
  rewrite Hid. apply safe_bindExt; [apply safe_loadPayload|]. intros [payload|[e|e]] K2 HK2; [|flow|flow].
  flow_step; [|by apply safe_prepareRun]. flow_step. destruct r; [by apply safe_prepareRun | flow | flow | flow].
Qed.

Lemma safe_process K : safe rid (process s sanitize errorText IsRetryable rid) K (ext K).
Proof.
  unfold process. flow_step.
  - repeat flow_step; eauto with flow. apply safe_processActive. by destruct Hsound.
  - flow.
Qed.

Lemma safe_reconcile operation K : safe rid (reconcileCreativeOutboxEvent s sanitize rid operation) K (ext K).
Proof.
  unfold reconcileCreativeOutboxEvent. flow_step; [|flow].
  assert (Hid : RunID cur = rid) by apply Hsound. unfold reconcileCreativeProvision. rewrite Hid. cbv zeta. flow.
Qed.

Lemma safe_createFailed code message K : safe rid (failRunAfterCreateError s sanitize rid code message) K (ext K).
Proof. unfold failRunAfterCreateError. repeat flow_step; by eauto with flow. Qed.
End operations.

Lemma safe_entry `{UnicodeCase} rid p : entry rid p → safe rid p [] (λ _ _, True).
Proof.
  assert (Hdone : ∀ A (m : M A), safe rid m [] (ext []) → safe rid (bindProg (λ _, Ret tt) m) [] (λ _ _, True)).
  { intros A m Hm. apply safe_bind. eapply safe_mono; [|exact Hm]. done. }
  intros []; apply Hdone.
  - apply safe_process.
  - apply safe_reconcile.
  - apply safe_createFailed.
  - flow_step. apply safe_markRunResultLost. by destruct Hsound.
  - apply safe_Acked.
  - apply safe_Phase.
  - apply safe_Allowance.
Qed.

(** ** The invariant *)

Definition settleSeen (h : list string) : Prop :=
  CreativeRunStatusProviderSucceeded ∈ h ∨ CreativeRunStatusSettlementPending ∈ h.
Definition releaseSeen (h : list string) : Prop := CreativeRunStatusReleasePending ∈ h.

(** [h] is the life of a run, newest status first. *)
Definition legalLife (h : list string) : Prop :=
  ∀ i a b, h !! i = Some b → h !! S i = Some a → CanTransitionCreativeRun a b = true.

Record life (r : CreativeRun) (h : list string) : Prop := {
  life_now : ∃ t, h = Status r :: t;
  life_legal : legalLife h;
  life_born : last h = Some CreativeRunStatusQueued;
  life_settle : settleSeen h → Status r ∈ [CreativeRunStatusProviderSucceeded; CreativeRunStatusSettlementPending;
    CreativeRunStatusSucceeded; CreativeRunStatusResultLost; CreativeRunStatusFailed];
  life_release : releaseSeen h → Status r ∈ [CreativeRunStatusReleasePending; CreativeRunStatusFailed;
    CreativeRunStatusResultLost];
  life_one_way : ¬ (settleSeen h ∧ releaseSeen h);
}.

Lemma elem_of_two (x a b : string) : x ∈ [a; b] ↔ x = a ∨ x = b.
Proof. set_solver. Qed.

(** From the settlement branch a transition stays in it, and likewise for the
    release branch. *)
Lemma settle_branch from to :
  from ∈ [CreativeRunStatusProviderSucceeded; CreativeRunStatusSettlementPending;
    CreativeRunStatusSucceeded; CreativeRunStatusResultLost; CreativeRunStatusFailed] →
  CanTransitionCreativeRun from to = true → to ≠ CreativeRunStatusCancelled →
  to ∈ [CreativeRunStatusSettlementPending; CreativeRunStatusSucceeded; CreativeRunStatusResultLost; CreativeRunStatusFailed].
Proof.
  intros Hf Hc Hto. apply can_transition_inv in Hc as
    [[-> ->]|[[Ht ->]|[[-> H]|[[-> H]|[[-> H]|[[-> H]|[-> H]]]]]]]; try set_solver;
    exfalso; repeat (apply elem_of_cons in Hf as [Hf|Hf]; [done|]); by apply not_elem_of_nil in Hf.
Qed.

Lemma release_branch from to :
  from ∈ [CreativeRunStatusReleasePending; CreativeRunStatusFailed; CreativeRunStatusResultLost] →
  CanTransitionCreativeRun from to = true → to ≠ CreativeRunStatusCancelled →
  to ∈ [CreativeRunStatusFailed; CreativeRunStatusResultLost].
Proof.
  intros Hf Hc Hto. apply can_transition_inv in Hc as
    [[-> ->]|[[Ht ->]|[[-> H]|[[-> H]|[[-> H]|[[-> H]|[-> H]]]]]]]; try set_solver;
    exfalso; repeat (apply elem_of_cons in Hf as [Hf|Hf]; [done|]); by apply not_elem_of_nil in Hf.
Qed.

Lemma life_step r r' h :
  life r h → CanTransitionCreativeRun (Status r) (Status r') = true → Status r' ≠ CreativeRunStatusCancelled →
  life r' (Status r' :: h).
Proof.
  intros [[t Ht] Hleg Hborn Hset Hrel Hone] Hc Hne.
  assert (Hs : settleSeen h → Status r' ∈ [CreativeRunStatusSettlementPending; CreativeRunStatusSucceeded;
    CreativeRunStatusResultLost; CreativeRunStatusFailed]) by (intros Hh; by eapply settle_branch; [apply Hset| |]).
  assert (Hr : releaseSeen h → Status r' ∈ [CreativeRunStatusFailed; CreativeRunStatusResultLost])
    by (intros Hh; by eapply release_branch; [apply Hrel| |]).
  assert (Hsr : settleSeen (Status r' :: h) → releaseSeen (Status r' :: h) → False).
  { unfold settleSeen, releaseSeen in *. rewrite !elem_of_cons. intros Hsn Hrn.
    destruct Hrn as [Hrn|Hrn].
    - rewrite <- Hrn in *. destruct Hsn as [[?|Hsn]|[?|Hsn]]; [done | | done |];
        [specialize (Hs (or_introl Hsn)) | specialize (Hs (or_intror Hsn))];
        repeat (apply elem_of_cons in Hs as [Hs|Hs]; [done|]); by apply not_elem_of_nil in Hs.
    - specialize (Hr Hrn). apply elem_of_two in Hr.
      destruct Hsn as [[Hsn|Hsn]|[Hsn|Hsn]]; [rewrite <- Hsn in Hr; by destruct Hr | by apply Hone; auto |
        rewrite <- Hsn in Hr; by destruct Hr | by apply Hone; auto]. }
  constructor.
  - by eexists.
  - intros [|i] a b Hb Ha; [|by eapply Hleg]. injection Hb as <-. rewrite Ht in Ha. by injection Ha as <-.
  - rewrite Ht in *. done.
  - intros Hsn. unfold settleSeen in Hsn. rewrite !elem_of_cons in Hsn.
    destruct Hsn as [[<-|Hsn]|[<-|Hsn]]; [set_solver | | set_solver |];
      [specialize (Hs (or_introl Hsn)) | specialize (Hs (or_intror Hsn))]; set_solver.
  - intros Hrn. unfold releaseSeen in Hrn. rewrite elem_of_cons in Hrn. destruct Hrn as [<-|Hrn]; [set_solver|].
    specialize (Hr Hrn). set_solver.
  - intros [? ?]. by apply Hsr.
Qed.

Lemma life_same r r' h : Status r' = Status r → life r h → life r' h.
Proof. intros E [H1 H2 H3 H4 H5 H6]. constructor; rewrite ?E; done. Qed.

Lemma life_new r : Status r = CreativeRunStatusQueued → life r [Status r].
Proof.
  intros E. rewrite E. constructor.
  - rewrite E. by exists [].
  - intros i a b _ Ha. by destruct i.
  - done.
  - unfold settleSeen. rewrite !list_elem_of_singleton. by intros [?|?].
  - unfold releaseSeen. rewrite list_elem_of_singleton. done.
  - unfold settleSeen. rewrite !list_elem_of_singleton. by intros [[?|?] _].
Qed.

Record dbInv (d : creativeDB) : Prop := {
  db_rows : ∀ rid r, dbRuns d !! rid = Some r → sound rid r ∧ life r (history d rid);
  db_absent : ∀ rid, dbRuns d !! rid = None → history d rid = [];
  db_captures : ∀ rid, rid ∈ captures d → settleSeen (history d rid);
  db_releases : ∀ rid, rid ∈ releases d → releaseSeen (history d rid);
}.

(** What the reads of a program still tell about the row. *)
Definition knows (d : creativeDB) (rid : string) (K : list CreativeRun) : Prop :=
  ∀ x, x ∈ K → ∃ r, dbRuns d !! rid = Some r ∧ later x r ∧ Status x ∈ history d rid.

Definition grows (d d' : creativeDB) : Prop :=
  ∀ rid r, dbRuns d !! rid = Some r →
    ∃ r', dbRuns d' !! rid = Some r' ∧ (∀ x, later x r → later x r') ∧ history d rid ⊆ history d' rid.

Lemma grows_knows d d' rid K : grows d d' → knows d rid K → knows d' rid K.
Proof.
  intros Hg Hk x Hx. destruct (Hk x Hx) as (r & Hr & Hl & Hin). destruct (Hg _ _ Hr) as (r' & Hr' & Hl' & Hh).
  exists r'. split; [done|]. split; [by apply Hl' | by apply Hh].
Qed.

Lemma grows_refl d d' : dbRuns d' = dbRuns d → visited d' = visited d → grows d d'.
Proof.
  intros E1 E2 rid r Hr. exists r. unfold history. rewrite E1, E2. split; [done|]. by split.
Qed.

Lemma history_storeRun d id old new rid :
  history (storeRun d id old new) rid =
    if decide (rid = id) then (if eqs (Status new) (Status old) then history d id else Status new :: history d id)
    else history d rid.
Proof.
  unfold history, storeRun. simpl. destruct (eqs (Status new) (Status old)).
  - by destruct (decide (rid = id)) as [->|].
  - destruct (decide (rid = id)) as [->|]; [by rewrite lookup_insert_eq | by rewrite lookup_insert_ne by congruence].
Qed.

Lemma storeRun_inv d id r r' :
  dbInv d → dbRuns d !! id = Some r → evolves r r' → dbInv (storeRun d id r r') ∧ grows d (storeRun d id r r').
Proof.
  intros [Hrows Habs Hcap Hrel] Hr Hev. destruct (Hrows _ _ Hr) as [(Hid & _ & _) Hlife].
  assert (Hsub : ∀ rid, history d rid ⊆ history (storeRun d id r r') rid).
  { intros rid. rewrite history_storeRun. destruct (decide (rid = id)) as [->|]; [|done]. case_match; set_solver. }
  split.
  - constructor.
    + intros rid q. unfold storeRun at 1. simpl. rewrite lookup_insert_Some, history_storeRun.
      intros [[<- <-]|[Hne Hq]].
      * rewrite decide_True by done. destruct Hev as [Hsnd Hch]. rewrite Hid in Hsnd. split; [done|].
        destruct (eqs (Status r') (Status r)) eqn:E.
        -- apply eqs_true in E. by eapply life_same.
        -- apply eqs_false in E. destruct Hch as [[? _]|[Hc _]]; [done|]. eapply life_step; [done | done | by apply Hsnd].
      * rewrite decide_False by congruence. by apply Hrows.
    + intros rid. unfold storeRun at 1. simpl. rewrite lookup_insert_None, history_storeRun. intros [Hn Hne].
      rewrite decide_False by congruence. by apply Habs.
    + intros rid Hin. specialize (Hcap rid Hin). specialize (Hsub rid). unfold settleSeen in *. destruct Hcap; [left|right]; by apply Hsub.
    + intros rid Hin. specialize (Hrel rid Hin). by apply Hsub.
  - intros rid q Hq. unfold storeRun at 1. simpl. destruct (decide (rid = id)) as [->|Hne].
    + rewrite Hr in Hq. injection Hq as <-. exists r'. rewrite lookup_insert_eq. split; [done|].
      split; [intros x Hx; by eapply later_step | apply Hsub].
    + exists q. rewrite lookup_insert_ne by congruence. split; [done|]. split; [done | apply Hsub].
Qed.

Lemma same_inv d d' :
  dbRuns d' = dbRuns d → visited d' = visited d → captures d' = captures d → releases d' = releases d →
  dbInv d → dbInv d' ∧ grows d d'.
Proof.
  intros E1 E2 E3 E4 [Hr Ha Hc Hl]. split; [|by apply grows_refl].
  constructor; unfold history in *; rewrite ?E1, ?E2, ?E3, ?E4; done.
Qed.

Lemma updateRun_inv d rid cond set K :
  dbInv d → knows d rid K →
  (∀ r, sound rid r → (∀ x, x ∈ K → later x r) → cond r = true → evolves r (set r)) →
  dbInv (snd (updateRun d rid cond set)) ∧ grows d (snd (updateRun d rid cond set)).
Proof.
  intros Hd Hk Hset. unfold updateRun. destruct (dbRuns d !! rid) as [r|] eqn:Er; [|by apply same_inv].
  destruct (cond r) eqn:Ec; [|by apply same_inv]. simpl. apply storeRun_inv; [done | done|].
  apply Hset; [by eapply db_rows | | done].
  intros x Hx. destruct (Hk x Hx) as (r2 & Hr2 & Hl & _). rewrite Er in Hr2. by injection Hr2 as <-.
Qed.

Lemma updateOutput_runs d id i cond set :
  let d' := snd (updateOutput d id i cond set) in
  dbRuns d' = dbRuns d ∧ visited d' = visited d ∧ captures d' = captures d ∧ releases d' = releases d.
Proof. unfold updateOutput. repeat case_match; done. Qed.

Lemma ensureEvent_runs d id op a d' :
  ensureEvent d id op a = Some d' →
  dbRuns d' = dbRuns d ∧ visited d' = visited d ∧ captures d' = captures d ∧ releases d' = releases d.
Proof. unfold ensureEvent. destruct (Ensure _ _ _ _ _); [|done]. by intros [= <-]. Qed.

Lemma billing_inv d d' rid K (P : CreativeRun → Prop) :
  dbRuns d' = dbRuns d → visited d' = visited d → dbInv d → knows d rid K → (∃ x, x ∈ K ∧ P x) →
  (∀ i, i ∈ captures d' → i ∈ captures d ∨ (i = rid ∧ ∀ x, P x → settling x)) →
  (∀ i, i ∈ releases d' → i ∈ releases d ∨ (i = rid ∧ ∀ x, P x → releasingRun x)) →
  dbInv d' ∧ grows d d'.
Proof.
  intros E1 E2 [Hr Ha Hc Hl] Hk (x & Hx & HP) Hcap Hrel. split; [|by apply grows_refl].
  destruct (Hk x Hx) as (r & Hrr & _ & Hin).
  constructor; unfold history in *; rewrite ?E1, ?E2; [done | done | |].
  - intros i [Hi|[-> HPs]]%Hcap; [by apply Hc|]. specialize (HPs x HP). unfold settleSeen.
    destruct HPs as [<-|<-]; auto.
  - intros i [Hi|[-> HPs]]%Hrel; [by apply Hl|]. specialize (HPs x HP). unfold releaseSeen. by rewrite <- HPs.
Qed.

(** One call of a safe program. *)
Lemma call_step {R} (c : call R) rid K Q d r d' :
  dbInv d → knows d rid K → callOk rid c K Q → answers d c r d' →
  dbInv d' ∧ grows d d' ∧ ∃ K', Q r K' ∧ knows d' rid K'.
Proof.
  intros Hd Hk.
  assert (Hkeep : ∀ Q r, (∀ a, Q a K) → dbInv d' ∧ grows d d' → dbInv d' ∧ grows d d' ∧ ∃ K' : list CreativeRun,
    (Q : R → list CreativeRun → Prop) r K' ∧ knows d' rid K').
  { intros Q' r' Ha [Hi Hg]. split; [done|]. split; [done|]. exists K. split; [apply Ha | by eapply grows_knows]. }
  assert (Hsame : d' = d → dbInv d' ∧ grows d d') by (intros ->; by apply same_inv).
  destruct c; simpl; intros Hok Hans; try (apply Hkeep; [exact Hok|]; apply Hsame; tauto).
  - destruct Hok as (-> & Hrow & Herr). destruct Hans as [-> Hans]. destruct (Hsame eq_refl) as [Hi Hg].
    split; [done|]. split; [done|]. destruct Hans as [[e ->]|Hans]; [exists K; by split|].
    destruct (dbRuns d !! rid) as [run|] eqn:Er; [|rewrite Hans; exists K; by split].
    rewrite Hans. destruct (db_rows _ Hd _ _ Er) as [Hsnd Hlife].
    assert (Hlat : ∀ x, x ∈ K → later x run).
    { intros x Hx. destruct (Hk x Hx) as (r2 & Hr2 & Hl & _). rewrite Er in Hr2. by injection Hr2 as <-. }
    exists (run :: K). split; [by apply Hrow|]. intros x [->|Hx]%elem_of_cons; [|by apply Hk].
    exists run. split; [done|]. split; [apply later_refl|]. destruct (life_now _ _ Hlife) as [t ->]. left.
  - destruct Hok as (-> & Hset & Ha). pose proof (updateRun_inv _ _ _ _ _ Hd Hk Hset) as Hup.
    apply Hkeep; [done|]. destruct Hans as [[_ ->]|[_ [->| ->]]]; [done | by apply same_inv | done].
  - apply Hkeep; [done|]. destruct (updateOutput_runs d runID index cond set) as (E1 & E2 & E3 & E4).
    destruct Hans as [[_ ->]|[_ [->| ->]]]; by apply same_inv.
  - apply Hkeep; [done|]. destruct Hans as [[_ He]|[_ [->|He]]]; [|by apply same_inv|];
      destruct (ensureEvent_runs _ _ _ _ _ He) as (E1 & E2 & E3 & E4); by apply same_inv.
  - destruct Hok as (Hb & Hx & Ha). apply Hkeep; [done|]. subst d'.
    apply (billing_inv d _ rid K settling); try done; simpl; [|by left].
    intros i [->|Hi]%elem_of_cons; [by right|by left].
  - destruct Hok as (Hb & Hx & Ha). apply Hkeep; [done|]. subst d'.
    apply (billing_inv d _ rid K releasingRun); try done; simpl; [by left|].
    intros i [->|Hi]%elem_of_cons; [by right|by left].
Qed.

Record flowInv (s : creativeSystem) : Prop := {
  flow_db : dbInv (sysDB s);
  flow_threads : ∀ t, t ∈ threads s → ∃ K, safe (tRun t) (tProg t) K (λ _ _, True) ∧ knows (sysDB s) (tRun t) K;
}.

Lemma history_insertRun d run rid :
  history (insertRun d run) rid = if decide (rid = RunID run) then [Status run] else history d rid.
Proof.
  unfold history, insertRun. simpl. destruct (decide _) as [->|]; [by rewrite lookup_insert_eq|].
  by rewrite lookup_insert_ne by congruence.
Qed.

Lemma insertRun_inv d run :
  dbInv d → dbRuns d !! RunID run = None → fresh run → dbInv (insertRun d run) ∧ grows d (insertRun d run).
Proof.
  intros [Hr Ha Hc Hl] Hn (Hst & Htg & _). pose proof (Ha _ Hn) as Hh. split.
  - constructor.
    + intros rid q. unfold insertRun at 1. simpl. rewrite lookup_insert_Some, history_insertRun.
      intros [[<- <-]|[Hne Hq]]; [rewrite decide_True by done | rewrite decide_False by congruence; by apply Hr].
      split; [|by apply life_new]. split; [done|]. by rewrite Hst, Htg.
    + intros rid. unfold insertRun at 1. simpl. rewrite lookup_insert_None, history_insertRun.
      intros [Hq Hne]. rewrite decide_False by congruence. by apply Ha.
    + intros rid Hi%Hc. rewrite history_insertRun. destruct (decide _) as [->|]; [|done].
      rewrite Hh in Hi. by destruct Hi as [?%not_elem_of_nil|?%not_elem_of_nil].
    + intros rid Hi%Hl. rewrite history_insertRun. destruct (decide _) as [->|]; [|done].
      rewrite Hh in Hi. by apply not_elem_of_nil in Hi.
  - intros rid q Hq. exists q. unfold insertRun at 1. simpl.
    assert (rid ≠ RunID run) by congruence.
    rewrite lookup_insert_ne, history_insertRun, decide_False by congruence. split; [done|]. by split.
Qed.

Section reachable_flow.
Context `{UnicodeCase}.

Lemma flowStep_inv s s' : flowInv s → flowStep s s' → flowInv s'.
Proof.
  intros [Hd Ht] [i t R c k r d' Hi Hp Ha|rid p He|run Hn Hf|c Hc].
  - destruct (Ht t) as (K & Hsafe & Hk); [by eapply list_elem_of_lookup_2|]. rewrite Hp in Hsafe. simpl in Hsafe.
    destruct (call_step _ _ _ _ _ _ _ Hd Hk Hsafe Ha) as (Hd' & Hg & K' & Hs' & Hk').
    constructor; [done|]. simpl. intros t' [j Hj]%list_elem_of_lookup.
    apply list_lookup_insert_Some in Hj as [(<- & <- & _)|[_ Hj]]; [by exists K'|].
    destruct (Ht t') as (K2 & Hs2 & Hk2); [by eapply list_elem_of_lookup_2|].
    exists K2. split; [done|]. by eapply grows_knows.
  - constructor; [done|]. simpl. intros t [Hin| ->%list_elem_of_singleton]%elem_of_app; [by apply Ht|].
    exists []. simpl. split; [by apply safe_entry|]. by intros x ?%not_elem_of_nil.
  - destruct (insertRun_inv _ _ Hd Hn Hf) as [Hd' Hg]. constructor; [done|]. simpl. intros t Hin.
    destruct (Ht t Hin) as (K & Hs & Hk). exists K. split; [done|]. by eapply grows_knows.
  - assert (Hs : dbInv (setClock (sysDB s) c) ∧ grows (sysDB s) (setClock (sysDB s) c)) by by apply same_inv.
    destruct Hs as [Hd' Hg]. constructor; [done|]. simpl. intros t Hin.
    destruct (Ht t Hin) as (K & Hs & Hk). exists K. split; [done|]. by eapply grows_knows.
Qed.

Lemma flow_reachable s : reachable flowInit flowStep s → flowInv s.
Proof.
  apply reachable_invariant; [|apply flowStep_inv]. intros s0 Hs. rewrite Hs. constructor; simpl.
  - constructor; simpl; [done | done | by intros ? ?%not_elem_of_nil | by intros ? ?%not_elem_of_nil].
  - by intros t ?%not_elem_of_nil.
Qed.

(** C18: a hold goes one way. However the workers, the outbox reconciler, failed
    creations and client requests interleave on the same runs, and whichever
    of their database, billing and storage calls fail, no run has its hold
    both captured and released: a capture is requested only for a run whose
    provider succeeded, a release only for a run that entered
    [release_pending], and no run is ever in both situations. *)
Theorem hold_settled_one_way s rid :
  reachable flowInit flowStep s →
  ¬ (rid ∈ captures (sysDB s) ∧ rid ∈ releases (sysDB s)) ∧
  (rid ∈ captures (sysDB s) → settleSeen (history (sysDB s) rid) ∧ ¬ releaseSeen (history (sysDB s) rid)) ∧
  (rid ∈ releases (sysDB s) → releaseSeen (history (sysDB s) rid) ∧ ¬ settleSeen (history (sysDB s) rid)).
Proof.
  intros Hr. destruct (flow_db _ (flow_reachable _ Hr)) as [Hrows Habs Hcap Hrel].
  assert (Hone : ¬ (settleSeen (history (sysDB s) rid) ∧ releaseSeen (history (sysDB s) rid))).
  { destruct (dbRuns (sysDB s) !! rid) as [run|] eqn:E; [by destruct (Hrows _ _ E) as [_ [? _ _ _ _ ?]]|].
    rewrite (Habs _ E). intros [_ ?%not_elem_of_nil]. done. }
  split; [intros [Hc%Hcap Hl%Hrel]; by apply Hone|].
  split; [intros Hc%Hcap | intros Hl%Hrel]; (split; [done|]); intros ?; by apply Hone.
Qed.

(** C25: the statuses of a run under concurrency. Although every operation reads
    the row and writes it in two separate statements, the statuses a run goes
    through always form a path of allowed transitions from [queued] to the
    current one, so a lost update never takes a run back; it is never
    cancelled, and it visits at most six statuses. *)
Theorem concurrent_transitions_legal s rid run :
  reachable flowInit flowStep s → dbRuns (sysDB s) !! rid = Some run →
  legalLife (history (sysDB s) rid) ∧ (∃ t, history (sysDB s) rid = Status run :: t) ∧
  last (history (sysDB s) rid) = Some CreativeRunStatusQueued ∧ Status run ≠ CreativeRunStatusCancelled ∧
  (length (history (sysDB s) rid) <= 6)%nat.
Proof.
  intros Hr Hrun. destruct (db_rows _ (flow_db _ (flow_reachable _ Hr)) _ _ Hrun) as [(_ & Hnc & _) [Hnow Hleg Hborn _ _ _]].
  split; [done|]. split; [done|]. split; [done|]. split; [done|].
  set (h := history (sysDB s) rid) in *.
  assert (Hrank : ∀ i b, h !! i = Some b → statusRank b <= 6 - Z.of_nat i).
  { induction i as [|i IH]; intros b Hb; [pose proof (statusRank_range b); lia|].
    destruct (lookup_lt_is_Some_2 h i) as [a Ha]; [apply lookup_lt_Some in Hb; lia|].
    pose proof (transition_rank _ _ (Hleg _ _ _ Ha Hb)). specialize (IH _ Ha). lia. }
  destruct (decide (length h <= 6)%nat) as [|Hlong]; [done|].
  destruct (lookup_lt_is_Some_2 h 6) as [a Ha]; [lia|].
  pose proof (Hrank _ _ Ha). pose proof (statusRank_range a). lia.
Qed.
End reachable_flow.

(** ** Runs without faults

    [exec] runs a program to its end on a database: every statement succeeds,
    and the other services answer as the [oracle] says. *)

Record oracle := mkOracle {
  orAmount : BatchImageBalanceHoldCommand → float64;
  orPayload : CreativeRunPayload;
  orInputs : list string;
  orMask : string;
  orSlot : slotAnswer;
  orPrepare : prepareAnswer;
  orExecute : result executeError (option CreativeExecuteResult);
}.

(** A capture that took effect and charged [amount]; the worker reads only that. *)
Definition holdCaptured (amount : float64) : BatchImageBalanceHoldResult :=
  mkHoldResult true None None f64_zero amount amount f64_zero amount [].

Definition healthy {R} (o : oracle) (d : creativeDB) (c : call R) : R * creativeDB :=
  match c in call R return R * creativeDB with
  | CNow => (dbClock d, d)
  | CGetRun id => (match dbRuns d !! id with Some run => Ok run | None => Err (notFound ErrCreativeRunNotFound) end, d)
  | CUpdateRun id cond set => (Ok (fst (updateRun d id cond set)), snd (updateRun d id cond set))
  | CGetOutput id i =>
      (match dbOutputs d !! (id, i) with Some o => Ok o | None => Err (notFound ErrCreativeOutputNotFound) end, d)
  | CListOutputs id => (Ok (outputsOf d id), d)
  | CUpdateOutput id i cond set => (Ok (fst (updateOutput d id i cond set)), snd (updateOutput d id i cond set))
  | CEnsureOutbox id operation availableAt =>
      match ensureEvent d id operation availableAt with
      | Some d' => (Ok tt, d')
      | None => (Err (OtherErr "creative run outbox run and operation are required" []), d)
      end
  | CCapture cmd => (Ok (Some (holdCaptured (orAmount o cmd))), addCapture d (cBatchID cmd))
  | CRelease cmd => (Ok tt, addRelease d (cBatchID cmd))
  | CSaveOutput _ _ _ _ => (Ok tt, d)
  | CLoadPayload _ => (Ok (orPayload o), d)
  | CLoadInputs _ _ => (Ok (orInputs o), d)
  | CLoadMask _ => (Ok (orMask o), d)
  | CDeleteTransient _ _ _ => (Ok tt, d)
  | CAcquireUserSlot _ => (orSlot o, d)
  | CPrepare _ => (orPrepare o, d)
  | CExecute _ _ => (orExecute o, d)
  | CReleaseSlots => (tt, d)
  | CLeaseLost => (false, d)
  | CInvalidateAuthCache _ => (tt, d)
  | CRecordUsageLog _ _ _ => (tt, d)
  | CEnqueue _ => (Ok tt, d)
  end.

Fixpoint exec {A} (o : oracle) (d : creativeDB) (p : Prog A) : A * creativeDB :=
  match p with
  | Ret a => (a, d)
  | Do c k => exec o (snd (healthy o d c)) (k (fst (healthy o d c)))
  end.

Lemma healthy_answers {R} o d (c : call R) : answers d c (fst (healthy o d c)) (snd (healthy o d c)).
Proof.
  destruct c; simpl; try done; try (split; [done|]; right; by case_match); try by left.
  - split; [done | by right].
  - destruct (ensureEvent d runID operation availableAt) eqn:E; simpl; [by left|]. right. split; [by eexists | by left].
Qed.

Lemma exec_bind {A B} o (f : A → Prog B) (p : Prog A) : ∀ d,
  exec o d (bindProg f p) = exec o (snd (exec o d p)) (f (fst (exec o d p))).
Proof. induction p as [a|R c k IH]; simpl; intros d; [done|]. apply IH. Qed.

Lemma exec_then {A B} o d (m : M A) (f : A → M B) a d1 :
  exec o d m = (Ok a, d1) → exec o d (andThen m f) = exec o d1 (f a).
Proof. intros E. unfold andThen. by rewrite exec_bind, E. Qed.

Lemma exec_attempt {A B} o d (m : M A) (f : result goError A → M B) r d1 :
  exec o d m = (r, d1) → exec o d (attempt m f) = exec o d1 (f r).
Proof. intros E. unfold attempt. by rewrite exec_bind, E. Qed.

(** A thread of the system runs to its end in [flowStep]s. *)
Lemma exec_reachable `{UnicodeCase} o (p : Prog unit) : ∀ s i rid,
  reachable flowInit flowStep s → threads s !! i = Some (mkThread rid p) →
  reachable flowInit flowStep
    (mkSystem (snd (exec o (sysDB s) p)) (<[i := mkThread rid (Ret (fst (exec o (sysDB s) p)))]> (threads s))).
Proof.
  induction p as [a|R c k IH]; intros s i rid Hr Hi; simpl.
  - rewrite list_insert_id by done. by destruct s.
  - set (s1 := mkSystem (snd (healthy o (sysDB s) c)) (<[i := mkThread rid (k (fst (healthy o (sysDB s) c)))]> (threads s))).
    assert (Hr1 : reachable flowInit flowStep s1).
    { eapply reach_step; [exact Hr|]. by eapply (flow_call s i _ _ c k _ _ Hi eq_refl), healthy_answers. }
    specialize (IH (fst (healthy o (sysDB s) c)) s1 i rid Hr1). unfold s1 in IH. simpl in IH.
    rewrite list_insert_insert_eq in IH. apply IH. apply list_lookup_insert_eq. by eapply lookup_lt_Some.
Qed.

Lemma exec_get o d id run :
  dbRuns d !! id = Some run → exec o d (lift (CGetRun id)) = (Ok run, d).
Proof. intros E. simpl. by rewrite E. Qed.

Lemma exec_update o d id run cond set :
  dbRuns d !! id = Some run → cond run = true →
  exec o d (lift (CUpdateRun id cond set)) = (Ok 1, storeRun d id run (set run)).
Proof. intros E Hc. simpl. unfold updateRun. by rewrite E, Hc. Qed.

Lemma storeRun_lookup d id old new : dbRuns (storeRun d id old new) !! id = Some new.
Proof. apply lookup_insert_eq. Qed.

Lemma exec_Transition o d id run to opts :
  dbRuns d !! id = Some run → CanTransitionCreativeRun (Status run) to = true → optNow opts = None →
  exec o d (TransitionCreativeRunStatus id to opts) =
    (Ok tt, storeRun d id run (transitionBuilder to opts (dbClock d) (Version run) run)).
Proof.
  intros E Hc Hn. unfold TransitionCreativeRunStatus. rewrite Hn.
  rewrite (exec_then _ _ _ _ (dbClock d) d) by done. rewrite (exec_then _ _ _ _ _ _ (exec_get _ _ _ _ E)). rewrite Hc.
  cbn [negb]. rewrite (exec_then _ _ _ _ _ _ (exec_update _ _ _ _ _ _ E (Z.eqb_refl _))). done.
Qed.

Lemma exec_setColumn o d id run set :
  dbRuns d !! id = Some run →
  exec o d (setColumn id set) = (Ok tt, storeRun d id run (SetUpdatedAt (dbClock d) (set run))).
Proof.
  intros E. unfold setColumn. rewrite (exec_then _ _ _ _ (dbClock d) d) by done.
  rewrite (exec_then _ _ _ _ _ _ (exec_update o d id run (λ _, true) (λ r, SetUpdatedAt (dbClock d) (set r)) E eq_refl)). done.
Qed.

Lemma exec_MarkSucceeded o d id run cost now :
  dbRuns d !! id = Some run → settleable run = true →
  exec o d (MarkCreativeRunSucceeded id cost now) =
    (Ok tt, storeRun d id run (SetVersion (Version run + 1) (SetUpdatedAt now (SetCompletedAt (Some now)
        (SetActualCost (Some cost) (SetStatus CreativeRunStatusSucceeded run)))))).
Proof.
  intros E Hs. unfold MarkCreativeRunSucceeded.
  by rewrite (exec_then _ _ _ _ _ _ (exec_update _ _ _ _ _ _ E Hs)).
Qed.

(** Row [id] of [d'] is [final]; the other rows are those of [d]. *)
Definition onlyRow (d d' : creativeDB) (id : string) (final : CreativeRun) : Prop :=
  dbRuns d' = <[id := final]> (dbRuns d) ∧ dbClock d' = dbClock d.

Lemma onlyRow_store d d' id r r' : onlyRow d d' id r → onlyRow d (storeRun d' id r r') id r'.
Proof. intros [E1 E2]. split; [|done]. unfold storeRun. simpl. by rewrite E1, insert_insert_eq. Qed.

Lemma onlyRow_refl d d' id r : dbRuns d !! id = Some r → dbRuns d' = dbRuns d → dbClock d' = dbClock d → onlyRow d d' id r.
Proof. intros E E1 E2. split; [|done]. by rewrite E1, insert_id. Qed.

Lemma onlyRow_lookup d d' id r : onlyRow d d' id r → dbRuns d' !! id = Some r.
Proof. intros [-> _]. apply lookup_insert_eq. Qed.

Lemma onlyRow_trans d d1 d2 id r1 r2 : onlyRow d d1 id r1 → onlyRow d1 d2 id r2 → onlyRow d d2 id r2.
Proof. intros [E1 C1] [E2 C2]. split; [|by rewrite C2]. by rewrite E2, E1, insert_insert_eq. Qed.

Section outcomes.
Context `{UnicodeCase} (o : oracle) (s : creativeService) (sanitize : string → string).

Lemma exec_capture d run n cmd :
  hasBillingRepo s = true → captureCommand run n = Ok cmd →
  exec o d (captureCreativeBalanceHold s run n) =
    (Ok (SetActualCost (Some (orAmount o cmd)) run), addCapture d (RunID run)).
Proof.
  intros Hb Hc. unfold captureCreativeBalanceHold. rewrite Hb, Hc. simpl.
  by destruct (hold_command_ok _ _ _ _ Hc) as (_ & -> & _).
Qed.

(** The optional reset of the allowance flag, for a row that is [row]. *)
Lemma exec_allowance d id row (b : bool) :
  dbRuns d !! id = Some row →
  ∃ d' row', exec o d (if b then SetCreativeRunAllowanceReserved id false else ok tt) = (Ok tt, d') ∧
    onlyRow d d' id row' ∧ captures d' = captures d ∧ releases d' = releases d ∧ dbOutbox d' = dbOutbox d ∧
    Status row' = Status row ∧ Version row' = Version row ∧
    AllowanceReserved row' = (if b then false else AllowanceReserved row) ∧
    ErrorCode row' = ErrorCode row ∧ ErrorMessage row' = ErrorMessage row.
Proof.
  intros E. destruct b.
  - unfold SetCreativeRunAllowanceReserved. rewrite (exec_setColumn o d id row _ E).
    eexists _, _. split; [done|]. split; [by apply onlyRow_store, onlyRow_refl|]. done.
  - exists d, row. split; [done|]. split; [by apply onlyRow_refl|]. done.
Qed.

Lemma exec_settleCapture d id row run cmd :
  hasBillingRepo s = true → RunID run = id → dbRuns d !! id = Some row → settleable row = true →
  AllowanceReserved row = AllowanceReserved run → (∃ a, AccountID run = Some a ∧ 0 < a) →
  captureCommand run (countSucceeded (outputsOf d id)) = Ok cmd →
  ∃ d' final, exec o d (settleCapture s id run) = (Ok tt, d') ∧ onlyRow d d' id final ∧
    captures d' = id :: captures d ∧ releases d' = releases d ∧
    Status final = CreativeRunStatusSucceeded ∧ ActualCost final = Some (orAmount o cmd) ∧
    CompletedAt final = Some (dbClock d) ∧ AllowanceReserved final = false.
Proof.
  intros Hb Hid Hrow Hset Hal (a & Ha & Hpos) Hcmd. unfold settleCapture. rewrite Ha, (proj2 (Z.leb_gt a 0)) by done.
  rewrite (exec_then _ _ _ _ (outputsOf d id) d) by done.
  rewrite (exec_then _ _ _ _ _ _ (exec_capture d run _ cmd Hb Hcmd)). rewrite Hid. cbn [AllowanceReserved SetActualCost].
  set (d1 := addCapture d id).
  destruct (exec_allowance d1 id row (AllowanceReserved run)) as
    (d2 & row2 & E2 & Hrow2 & Hc2 & Hl2 & _ & Hst & Hv & Hal2 & _); [done|].
  rewrite (exec_then _ _ _ _ _ _ E2).
  rewrite (exec_then _ _ _ _ tt d2) by done. rewrite (exec_then _ _ _ _ (dbClock d2) d2) by done.
  cbn [ActualCost SetActualCost].
  assert (Hset2 : settleable row2 = true) by (unfold settleable in *; by rewrite Hst).
  rewrite (exec_attempt _ _ _ _ _ _ (exec_MarkSucceeded o d2 id row2 (orAmount o cmd) (dbClock d2) (onlyRow_lookup _ _ _ _ Hrow2) Hset2)).
  eexists _, _. split; [done|]. split.
  { destruct Hrow2 as [R1 C1]. split; [|done]. unfold storeRun. simpl. by rewrite R1, insert_insert_eq. }
  split; [simpl; by rewrite Hc2|]. split; [simpl; by rewrite Hl2|]. split; [done|]. split; [done|].
  split; [simpl; by destruct Hrow2 as [_ ->]|]. simpl. rewrite Hal2. destruct (AllowanceReserved run); [done | by rewrite Hal].
Qed.

(** C27: settlement completes. When its calls succeed, [SettleRun] of a run
    whose provider succeeded captures the hold once, for the base price times
    the number of images that succeeded, and leaves the run [succeeded] with the
    captured amount as actual cost and without a reserved allowance; no other
    run changes. *)
Theorem settle_run_outcome d id run cmd :
  hasBillingRepo s = true → dbRuns d !! id = Some run → RunID run = id → settling run →
  (∃ a, AccountID run = Some a ∧ 0 < a) →
  captureCommand run (countSucceeded (outputsOf d id)) = Ok cmd →
  ∃ d' final, exec o d (SettleRun s id) = (Ok tt, d') ∧ dbRuns d' = <[id := final]> (dbRuns d) ∧
    captures d' = id :: captures d ∧ releases d' = releases d ∧
    Status final = CreativeRunStatusSucceeded ∧ ActualCost final = Some (orAmount o cmd) ∧
    CompletedAt final = Some (dbClock d) ∧ AllowanceReserved final = false ∧
    cActualBaseAmountUSD cmd =
      (let base := f64_mul (f64_max (BaseUnitPrice run) f64_zero) (f64_of_Z (Z.max (countSucceeded (outputsOf d id)) 0)) in
       if f64_lt base f64_zero then f64_zero else base).
Proof.
  intros Hb Hrow Hid Hst Hacc Hcmd.
  assert (Hbase : cActualBaseAmountUSD cmd =
      (let base := f64_mul (f64_max (BaseUnitPrice run) f64_zero) (f64_of_Z (Z.max (countSucceeded (outputsOf d id)) 0)) in
       if f64_lt base f64_zero then f64_zero else base)).
  { unfold captureCommand, buildCreativeHoldCommand in Hcmd. destruct (APIKeyID run <=? 0); [done|]. by injection Hcmd as <-. }
  unfold SettleRun. rewrite (exec_then _ _ _ _ _ _ (exec_get _ _ _ _ Hrow)).
  assert (Hn : nothingToSettle run = false) by (unfold nothingToSettle; by destruct Hst as [-> | ->]).
  rewrite Hn. destruct Hst as [Hst|Hst].
  - rewrite (proj2 (eqs_true _ _) Hst).
    assert (Hcan : CanTransitionCreativeRun (Status run) CreativeRunStatusSettlementPending = true) by by rewrite Hst.
    rewrite (exec_attempt _ _ _ _ _ _ (exec_Transition o d id run _ noOptions Hrow Hcan eq_refl)).
    set (row := transitionBuilder _ _ _ _ _). set (d1 := storeRun d id run row).
    destruct (exec_settleCapture d1 id row (SetStatus CreativeRunStatusSettlementPending run) cmd)
      as (d' & final & E & [R C] & Hc & Hl & F1 & F2 & F3 & F4); try done; [apply storeRun_lookup|].
    exists d', final. split; [exact E|]. split; [rewrite R; unfold d1, storeRun; simpl; by rewrite insert_insert_eq|].
    done.
  - replace (eqs (Status run) CreativeRunStatusProviderSucceeded) with false by by rewrite Hst.
    destruct (exec_settleCapture d id run run cmd)
      as (d' & final & E & [R C] & Hc & Hl & F1 & F2 & F3 & F4); try done; [unfold settleable; by rewrite Hst|].
    exists d', final. split; [exact E|]. done.
Qed.

Lemma Ensure_exists now t id op a t' : Ensure now t id op a = Some t' → existsb (sameEvent id op) (events t') = true.
Proof.
  unfold Ensure. destruct (_ || _); [done|]. cbv zeta.
  destruct (existsb (sameEvent id op) (events t)) eqn:E; intros [= <-]; cbn [events].
  - revert E. induction (events t) as [|e l IH]; cbn; [done|]. destruct (sameEvent id op e) eqn:Es; cbn.
    + intros _. apply orb_true_intro. by left.
    + rewrite Es. apply IH.
  - rewrite existsb_app, E. unfold sameEvent. cbn. rewrite (bool_decide_eq_true_2 (id = id)), (bool_decide_eq_true_2 (op = op)); done.
Qed.

Lemma exec_outbox d id op :
  TrimSpace id ≠ ""%string → op ≠ ""%string →
  ∃ d', exec o d (ensureCreativeOutbox s id op) = (Ok tt, d') ∧ dbRuns d' = dbRuns d ∧ dbClock d' = dbClock d ∧
    captures d' = captures d ∧ releases d' = releases d ∧
    (hasOutbox s = true → existsb (sameEvent id op) (events (dbOutbox d')) = true).
Proof.
  intros Hid Hop. unfold ensureCreativeOutbox. destruct (hasOutbox s); [|by exists d].
  assert (He : ∃ t, Ensure (dbClock d) (dbOutbox d) id op (dbClock d) = Some t).
  { unfold Ensure. rewrite !bool_decide_false by done. simpl. by eexists. }
  destruct He as [t He]. exists (storeOutbox d t). simpl. unfold ensureEvent. rewrite He. simpl.
  split; [done|]. do 4 (split; [done|]). intros _. by eapply Ensure_exists.
Qed.

Lemma exec_releaseHold d run :
  hasBillingRepo s = true → 0 < APIKeyID run →
  ∃ d', exec o d (releaseCreativeBalanceHold s run) = (Ok tt, d') ∧ dbRuns d' = dbRuns d ∧ dbClock d' = dbClock d ∧
    dbOutbox d' = dbOutbox d ∧ captures d' = captures d ∧
    releases d' = (if f64_le (creativeHoldAmount run) f64_zero then releases d else RunID run :: releases d).
Proof.
  intros Hb Hk. unfold releaseCreativeBalanceHold. rewrite Hb. cbn [negb].
  destruct (f64_le (creativeHoldAmount run) f64_zero); [by exists d|].
  assert (Hcmd : ∃ cmd, releaseCommand run = Ok cmd).
  { unfold releaseCommand, buildCreativeHoldCommand. rewrite (proj2 (Z.leb_gt (APIKeyID run) 0) Hk). by eexists. }
  destruct Hcmd as [cmd Hcmd]. rewrite Hcmd. exists (addRelease d (cBatchID cmd)).
  destruct (hold_command_ok _ _ _ _ Hcmd) as (_ & Hb' & _).
  simpl. rewrite Hb'. by repeat split.
Qed.

(** [ReleaseRun] of a run in [release_pending] with target [failed]. *)
Lemma exec_ReleaseRun d id run :
  hasBillingRepo s = true → dbRuns d !! id = Some run → RunID run = id → 0 < APIKeyID run →
  Status run = CreativeRunStatusReleasePending → ReleaseTargetStatus run = CreativeRunStatusFailed →
  ∃ d' final, exec o d (ReleaseRun s id) = (Ok tt, d') ∧ onlyRow d d' id final ∧
    Status final = CreativeRunStatusFailed ∧ ErrorCode final = ErrorCode run ∧ ErrorMessage final = ErrorMessage run ∧
    AllowanceReserved final = false ∧ captures d' = captures d ∧ dbOutbox d' = dbOutbox d ∧
    releases d' = (if f64_le (creativeHoldAmount run) f64_zero then releases d else id :: releases d).
Proof.
  intros Hb Hrow Hid Hk Hst Htg. unfold ReleaseRun. rewrite (exec_then _ _ _ _ _ _ (exec_get _ _ _ _ Hrow)).
  replace (eqs (Status run) CreativeRunStatusReleasePending) with true by by rewrite Hst.
  cbn [negb]. destruct (exec_releaseHold d run Hb Hk) as (d1 & E1 & R1 & C1 & O1 & Hc1 & Hl1).
  rewrite (exec_then _ _ _ _ _ _ E1).
  assert (Hrow1 : dbRuns d1 !! id = Some run) by by rewrite R1.
  destruct (exec_allowance d1 id run (AllowanceReserved run) Hrow1) as
    (d2 & row2 & E2 & Hrow2 & Hc2 & Hl2 & Ho2 & Hst2 & Hv2 & Hal2 & Hec & Hem).
  rewrite (exec_then _ _ _ _ _ _ E2). rewrite Htg. cbv zeta.
  change (if eqs CreativeRunStatusFailed "" then CreativeRunStatusFailed else CreativeRunStatusFailed) with CreativeRunStatusFailed.
  assert (Hcan : CanTransitionCreativeRun (Status row2) CreativeRunStatusFailed = true) by by rewrite Hst2, Hst.
  rewrite (exec_attempt _ _ _ _ _ _ (exec_Transition o d2 id row2 _ noOptions (onlyRow_lookup _ _ _ _ Hrow2) Hcan eq_refl)).
  eexists _, _. split; [by destruct (hasTransientStore s)|]. split.
  { apply onlyRow_store. eapply onlyRow_trans; [|exact Hrow2]. by apply onlyRow_refl. }
  split; [done|]. split; [done|]. split; [done|]. split.
  { simpl. rewrite Hal2. by destruct (AllowanceReserved run). }
  simpl. by rewrite Hc2, Hc1, Ho2, O1, Hl2, Hl1, Hid.
Qed.

(** C28: a failure returns the hold. When its calls succeed, [FailRun] of a
    queued or running run records the code (a default for a blank one) and the
    message, asks once for the release of a positive hold, never captures,
    leaves the run [failed] without a reserved allowance, and the intent to
    release is in the outbox. *)
Theorem fail_run_outcome d id run code message :
  hasBillingRepo s = true → dbRuns d !! id = Some run → RunID run = id → TrimSpace id ≠ ""%string → 0 < APIKeyID run →
  Status run = CreativeRunStatusQueued ∨ Status run = CreativeRunStatusRunning →
  ∃ d' final, exec o d (FailRun s sanitize id code message) = (Ok tt, d') ∧ dbRuns d' = <[id := final]> (dbRuns d) ∧
    Status final = CreativeRunStatusFailed ∧
    ErrorCode final = Some (if eqs (TrimSpace code) "" then "PROVIDER_FAILED"%string else TrimSpace code) ∧
    ErrorMessage final = Some (sanitize message) ∧ AllowanceReserved final = false ∧
    captures d' = captures d ∧
    releases d' = (if f64_le (creativeHoldAmount run) f64_zero then releases d else id :: releases d) ∧
    (hasOutbox s = true → existsb (sameEvent id CreativeRunOutboxRelease) (events (dbOutbox d')) = true).
Proof.
  intros Hb Hrow Hid Htrim Hk Hst. unfold FailRun. rewrite (exec_then _ _ _ _ _ _ (exec_get _ _ _ _ Hrow)).
  replace (IsTerminalCreativeRunStatus (Status run)) with false by by destruct Hst as [-> | ->].
  replace (eqs (Status run) CreativeRunStatusReleasePending) with false by by destruct Hst as [-> | ->].
  cbv zeta. set (c := if eqs (TrimSpace code) "" then _ else _).
  set (opts := mkTransitionOptions (Some c) (Some (sanitize message)) CreativeRunStatusFailed None).
  assert (Hcan : CanTransitionCreativeRun (Status run) CreativeRunStatusReleasePending = true) by by destruct Hst as [-> | ->].
  unfold startRelease.
  rewrite (exec_attempt _ _ _ _ _ _ (exec_Transition o d id run _ opts Hrow Hcan eq_refl)). cbv zeta.
  set (row := transitionBuilder _ opts _ _ _). set (d1 := storeRun d id run row).
  destruct (exec_outbox d1 id CreativeRunOutboxRelease Htrim ltac:(done)) as (d2 & E2 & R2 & C2 & Hc2 & Hl2 & Ho2).
  rewrite (exec_then _ _ _ _ _ _ E2).
  destruct (exec_ReleaseRun d2 id row) as (d3 & final & E3 & [R3 C3] & F1 & F2 & F3 & F4 & Hc3 & Ho3 & Hl3); try done.
  { rewrite R2. apply storeRun_lookup. }
  exists d3, final. split; [exact E3|]. split; [rewrite R3, R2; unfold d1, storeRun; simpl; by rewrite insert_insert_eq|].
  split; [done|]. split; [by rewrite F2|]. split; [by rewrite F3|]. split; [done|]. split; [by rewrite Hc3, Hc2|].
  split; [rewrite Hl3, Hl2; done|]. intros Hh. rewrite Ho3. by apply Ho2.
Qed.
End outcomes.

(** ** The properties at concrete runs *)

Example itoaPositive_example : itoaPositive 1304 = Itoa 1304. Proof. reflexivity. Qed.

Definition exampleService : creativeService := mkService true true true true (1800 * Second) 3 (10 * Second).

(** A provider that answers with both images. *)
Definition exampleOracle : oracle :=
  mkOracle (λ cmd, cActualBaseAmountUSD cmd) (mkPayload "{}" 0 false [] None) [] "" SlotAcquired (Prepared 11)
    (Ok (Some (mkExecuteResult [mkCreativeOutput 0 "png0" "image/png"; mkCreativeOutput 1 "png1" "image/png"] 11))).

(** The example run as the creation inserts it. *)
Definition newRun : CreativeRun :=
  SetAllowanceReserved false (SetProvisioningPhase CreativeProvisioningPhaseCreated exampleRun).

Definition worker : Prog unit :=
  bindProg (λ _, Ret tt) (process (H := ascii_case) exampleService (λ m, m) (λ _, "error"%string) (λ _, false) "crun_ab").

Definition createdDB : creativeDB := insertRun (mkDB ∅ ∅ emptyOutbox 5000 [] [] ∅) newRun.

Definition servedSystem : creativeSystem :=
  mkSystem (snd (exec exampleOracle createdDB worker))
    [mkThread "crun_ab" (Ret (fst (exec exampleOracle createdDB worker)))].

Lemma served_reachable : reachable flowInit (flowStep (H := ascii_case)) servedSystem.
Proof.
  pose (s0 := mkSystem (mkDB ∅ ∅ emptyOutbox 5000 [] [] ∅) []).
  assert (H0 : reachable flowInit (flowStep (H := ascii_case)) s0) by by apply reach_init.
  assert (H1 : reachable flowInit (flowStep (H := ascii_case)) (mkSystem createdDB [])).
  { eapply reach_step; [exact H0|]. by apply (flow_create s0 newRun). }
  assert (H2 : reachable flowInit (flowStep (H := ascii_case)) (mkSystem createdDB [mkThread "crun_ab" worker])).
  { eapply reach_step; [exact H1|]. apply (flow_start (mkSystem createdDB []) "crun_ab" worker). by apply entry_process. }
  exact (exec_reachable exampleOracle worker _ 0 "crun_ab" H2 eq_refl).
Qed.

Lemma hold_settled_one_way_witness :
  "crun_ab" ∈ captures (sysDB servedSystem) ∧ ¬ releaseSeen (history (sysDB servedSystem) "crun_ab") ∧
  history (sysDB servedSystem) "crun_ab" =
    [CreativeRunStatusSucceeded; CreativeRunStatusSettlementPending; CreativeRunStatusProviderSucceeded;
     CreativeRunStatusRunning; CreativeRunStatusQueued].
Proof.
  assert (Hc : "crun_ab" ∈ captures (sysDB servedSystem)) by (vm_compute; constructor).
  split; [exact Hc|]. split; [|vm_compute; reflexivity].
  exact (proj2 (proj1 (proj2 (hold_settled_one_way (H := ascii_case) _ "crun_ab" served_reachable)) Hc)).
Defined.

Lemma concurrent_transitions_legal_witness :
  ∃ run, dbRuns (sysDB servedSystem) !! "crun_ab" = Some run ∧ Status run = CreativeRunStatusSucceeded ∧
    legalLife (history (sysDB servedSystem) "crun_ab").
Proof.
  assert (Hr : ∃ run, dbRuns (sysDB servedSystem) !! "crun_ab" = Some run ∧ Status run = CreativeRunStatusSucceeded).
  { vm_compute. eexists. split; reflexivity. }
  destruct Hr as (run & Hrun & Hst). exists run. split; [exact Hrun|]. split; [exact Hst|].
  exact (proj1 (concurrent_transitions_legal (H := ascii_case) _ "crun_ab" run served_reachable Hrun)).
Defined.

(** A run whose provider succeeded, with one of its two images. *)
Definition deliveredRun : CreativeRun :=
  SetAccountID (Some 11) (SetStatus CreativeRunStatusProviderSucceeded exampleRun).

Definition deliveredDB : creativeDB :=
  mkDB {["crun_ab" := deliveredRun]}
    {[("crun_ab", 0) := SetOutputStatus CreativeRunOutputStatusSucceeded (pendingOutput "crun_ab" 0 1000)]}
    emptyOutbox 5000 [] [] ∅.

Lemma settle_run_outcome_witness :
  ∃ cmd d' final, captureCommand deliveredRun 1 = Ok cmd ∧
    exec exampleOracle deliveredDB (SettleRun exampleService "crun_ab") = (Ok tt, d') ∧
    dbRuns d' = <["crun_ab" := final]> (dbRuns deliveredDB) ∧ captures d' = ["crun_ab"] ∧
    ActualCost final = Some (cActualBaseAmountUSD cmd) ∧ f64_lt f64_zero (cActualBaseAmountUSD cmd) = true.
Proof.
  assert (Hcmd : ∃ cmd, captureCommand deliveredRun (countSucceeded (outputsOf deliveredDB "crun_ab")) = Ok cmd ∧
    captureCommand deliveredRun 1 = Ok cmd ∧ f64_lt f64_zero (cActualBaseAmountUSD cmd) = true).
  { eexists. split; [vm_compute; reflexivity|]. split; vm_compute; reflexivity. }
  destruct Hcmd as (cmd & Hcmd & Hone & Hpos).
  destruct (settle_run_outcome exampleOracle exampleService deliveredDB "crun_ab" deliveredRun cmd)
    as (d' & final & E & R & C & _ & _ & Hcost & _);
    [reflexivity | vm_compute; reflexivity | reflexivity | by left | by exists 11 | exact Hcmd |].
  exists cmd, d', final. split; [exact Hone|]. split; [exact E|]. split; [exact R|]. split; [exact C|].
  split; [exact Hcost | exact Hpos].
Defined.

Lemma fail_run_outcome_witness :
  ∃ d' final, exec exampleOracle createdDB (FailRun exampleService (λ m, m) "crun_ab" " " "boom") = (Ok tt, d') ∧
    dbRuns d' = <["crun_ab" := final]> (dbRuns createdDB) ∧ Status final = CreativeRunStatusFailed ∧
    ErrorCode final = Some "PROVIDER_FAILED"%string ∧ releases d' = ["crun_ab"].
Proof.
  destruct (fail_run_outcome exampleOracle exampleService (λ m, m) createdDB "crun_ab" newRun " " "boom")
    as (d' & final & E & R & Hst & Hc & _ & _ & _ & Hrel & _);
    [reflexivity | vm_compute; reflexivity | reflexivity | by vm_compute | reflexivity | by left |].
  exists d', final. split; [exact E|]. split; [exact R|]. split; [exact Hst|]. split; [exact Hc|]. exact Hrel.
Defined.
