(* ===== verification/CreativeRunLiveness.v ===== *)
(** * Progress of creative runs

    With working calls, every run that is not terminal becomes terminal after
    finitely many rounds of the worker ([CreativeRunFlow.process]).  The proofs
    use the weakest precondition of a program that runs without faults
    ([CreativeRunFlow.exec]). *)

From S2P Require Import Prelude GoRuntime Domain AppErrors UsageBilling CreativeRun CreativeRunOutbox CreativeRunFlow.
#[local] Open Scope Z_scope.
#[local] Open Scope flow_scope.

(** ** Weakest preconditions *)

Definition wp {A} (o : oracle) (d : creativeDB) (p : Prog A) (Q : A → creativeDB → Prop) : Prop :=
  Q (fst (exec o d p)) (snd (exec o d p)).

Section wp.
Context (o : oracle).

Lemma wp_ret {A} d (a : A) (Q : A → creativeDB → Prop) : Q a d → wp o d (Ret a) Q.
Proof. done. Qed.

Lemma wp_do {R A} d (c : call R) (k : R → Prog A) Q :
  wp o (snd (healthy o d c)) (k (fst (healthy o d c))) Q → wp o d (Do c k) Q.
Proof. done. Qed.

Lemma wp_bind {A B} d (p : Prog A) (f : A → Prog B) Q :
  wp o d p (λ a d1, wp o d1 (f a) Q) → wp o d (bindProg f p) Q.
Proof. unfold wp. by rewrite exec_bind. Qed.

Lemma wp_mono {A} d (p : Prog A) (Q Q' : A → creativeDB → Prop) :
  wp o d p Q → (∀ a d', Q a d' → Q' a d') → wp o d p Q'.
Proof. unfold wp. auto. Qed.

(** The first part succeeds with a value and a database that satisfy [Q]. *)
Lemma wp_then {A B} d (m : M A) (f : A → M B) (Q : A → creativeDB → Prop) Q' :
  wp o d m (λ r d1, ∃ a, r = Ok a ∧ Q a d1) → (∀ a d1, Q a d1 → wp o d1 (f a) Q') → wp o d (andThen m f) Q'.
Proof. intros Hm Hf. apply wp_bind. eapply wp_mono; [exact Hm|]. intros r d1 (a & -> & Ha). by apply Hf. Qed.

Lemma wp_attempt {A B} d (m : M A) (f : result goError A → M B) (Q : A → creativeDB → Prop) Q' :
  wp o d m (λ r d1, ∃ a, r = Ok a ∧ Q a d1) → (∀ a d1, Q a d1 → wp o d1 (f (Ok a)) Q') → wp o d (attempt m f) Q'.
Proof. intros Hm Hf. apply wp_bind. eapply wp_mono; [exact Hm|]. intros r d1 (a & -> & Ha). by apply Hf. Qed.
End wp.

(** [p] succeeds and leads to [Q]. *)
Abbreviation gives o d p Q := (wp o d p (λ r d', ∃ a, r = Ok a ∧ Q a d')).

(** ** The row of one run *)

Section progress.
Context `{UnicodeCase} (o : oracle) (s : creativeService) (sanitize : string → string)
  (errorText : goError → string) (IsRetryable : executeError → bool) (id : string) (images : list CreativeOutput).

Definition good (r : CreativeRun) : Prop :=
  RunID r = id ∧ 0 < APIKeyID r ∧ ReleaseTargetStatus r ∈ [""%string; CreativeRunStatusFailed; CreativeRunStatusResultLost].

(** The row satisfies [P], and the outputs that the provider may deliver have rows. *)
Definition at_ (d : creativeDB) (P : CreativeRun → Prop) : Prop :=
  (∃ r, dbRuns d !! id = Some r ∧ good r ∧ P r) ∧ ∀ i, i ∈ images → is_Some (dbOutputs d !! (id, outIndex i)).

Definition done_ : CreativeRun → Prop := λ r, terminalRun r = true.
Definition hasAccount (r : CreativeRun) : Prop := ∃ a, AccountID r = Some a ∧ 0 < a.

Lemma at_mono d (P P' : CreativeRun → Prop) : at_ d P → (∀ r, good r → P r → P' r) → at_ d P'.
Proof. intros [(r & Hr & Hg & HP) Ho] HP'. split; [|done]. exists r. auto. Qed.

Lemma gives_get d P :
  at_ d P → gives o d (lift (CGetRun id)) (λ r d', d' = d ∧ good r ∧ P r ∧ at_ d (eq r)).
Proof.
  intros [(r & Hr & Hg & HP) Ho]. unfold wp. rewrite (exec_get _ _ _ _ Hr). simpl.
  exists r. split_and!; try done. split; [by exists r | done].
Qed.

Lemma gives_update d P cond set (P' : CreativeRun → Prop) :
  at_ d P → (∀ r, good r → P r → cond r = true ∧ good (set r) ∧ P' (set r)) →
  gives o d (lift (CUpdateRun id cond set)) (λ n d', n = 1 ∧ at_ d' P').
Proof.
  intros [(r & Hr & Hg & HP) Ho] Hset. destruct (Hset r Hg HP) as (Hc & Hg' & HP').
  unfold wp. rewrite (exec_update _ _ _ _ _ _ Hr Hc). simpl. exists 1. split_and!; try done.
  split; [|done]. exists (set r). split; [apply storeRun_lookup | done].
Qed.

Lemma gives_now d P : at_ d P → gives o d (plain CNow) (λ _ d', at_ d' P).
Proof. intros Hd. unfold wp. simpl. by eexists. Qed.

Lemma gives_setColumn d P set (P' : CreativeRun → Prop) :
  at_ d P → (∀ r now, good r → P r → good (SetUpdatedAt now (set r)) ∧ P' (SetUpdatedAt now (set r))) →
  gives o d (setColumn id set) (λ _ d', at_ d' P').
Proof.
  intros Hd Hset. unfold setColumn. eapply wp_then; [exact (gives_now _ _ Hd)|]. intros now d1 H1.
  eapply wp_then; [apply (gives_update _ _ (λ _, true) _ P' H1); intros r Hg HP; split; [done | by apply Hset]|].
  intros n d2 [-> H2]. apply wp_ret. by exists tt.
Qed.

Lemma gives_transition d P to opts (P' : CreativeRun → Prop) :
  at_ d P → optNow opts = None →
  (∀ r now, good r → P r → CanTransitionCreativeRun (Status r) to = true ∧
     good (transitionBuilder to opts now (Version r) r) ∧ P' (transitionBuilder to opts now (Version r) r)) →
  gives o d (TransitionCreativeRunStatus id to opts) (λ _ d', at_ d' P').
Proof.
  intros Hd Hn Hset. unfold TransitionCreativeRunStatus. rewrite Hn.
  eapply wp_then; [exact (gives_now _ _ Hd)|]. intros now d1 H1.
  eapply wp_then; [exact (gives_get _ _ H1)|]. intros r d2 (-> & Hg & HP & H2).
  rewrite (proj1 (Hset r now Hg HP)). cbn [negb].
  eapply wp_then.
  { apply (gives_update _ _ (versionIs (Version r)) _ P' H2). intros r' _ <-.
    split; [apply Z.eqb_refl|]. split; by apply (Hset r now). }
  intros n d3 [-> H3]. apply wp_ret. by exists tt.
Qed.

(** A call that leaves the row and the output rows alone. *)
Lemma gives_call {R} d P (c : call R) :
  at_ d P → dbRuns (snd (healthy o d c)) = dbRuns d → dbOutputs (snd (healthy o d c)) = dbOutputs d →
  gives o d (plain c) (λ _ d', at_ d' P).
Proof.
  intros [(r & Hr & Hg & HP) Ho] Er Eo. unfold wp. simpl. eexists. split; [done|].
  split; [|by rewrite Eo]. exists r. by rewrite Er.
Qed.

Lemma gives_outbox d P operation :
  TrimSpace id ≠ ""%string → operation ≠ ""%string → at_ d P →
  gives o d (ensureCreativeOutbox s id operation) (λ _ d', at_ d' P).
Proof.
  intros Hid Hop Hd. unfold ensureCreativeOutbox. destruct (hasOutbox s); [|apply wp_ret; by exists tt].
  eapply wp_then; [exact (gives_now _ _ Hd)|]. intros now d1 H1. unfold wp. simpl. unfold ensureEvent, Ensure.
  rewrite !bool_decide_false by done. simpl. by exists tt.
Qed.

(** ** Release *)

Lemma gives_ReleaseRun d :
  hasBillingRepo s = true → at_ d (λ r, Status r = CreativeRunStatusReleasePending) →
  gives o d (ReleaseRun s id) (λ _ d', at_ d' done_).
Proof.
  intros Hb Hd. unfold ReleaseRun. eapply wp_then; [exact (gives_get _ _ Hd)|]. intros run d1 (-> & Hg & Hst & Hrow).
  rewrite Hst. cbn [negb]. rewrite eqs_refl. cbn [negb].
  eapply (wp_then _ _ _ _ (λ _ d', at_ d' (eq run))).
  { unfold releaseCreativeBalanceHold. rewrite Hb. cbn [negb].
    destruct (f64_le (creativeHoldAmount run) f64_zero); [apply wp_ret; by exists tt|].
    unfold releaseCommand, buildCreativeHoldCommand. destruct Hg as (_ & Hk & _).
    rewrite (proj2 (Z.leb_gt (APIKeyID run) 0) Hk). unfold wp. simpl. by exists tt. }
  intros [] d2 H2. eapply (wp_then _ _ _ _ (λ _ d', at_ d' (λ r,
      Status r = CreativeRunStatusReleasePending ∧ ReleaseTargetStatus r = ReleaseTargetStatus run))).
  { destruct (AllowanceReserved run).
    - apply (gives_setColumn _ _ _ _ H2). intros r now Hgr <-. by split.
    - apply wp_ret. exists tt. split; [done|]. eapply at_mono; [exact H2|]. by intros r _ <-. }
  intros [] d3 H3. cbv zeta.
  set (target := if eqs (ReleaseTargetStatus run) "" then _ else _).
  assert (Ht : target ∈ [CreativeRunStatusFailed; CreativeRunStatusResultLost]).
  { destruct Hg as (_ & _ & Hg). unfold target. clear target.
    apply elem_of_cons in Hg as [-> |[-> |[-> |[]%not_elem_of_nil]%elem_of_cons]%elem_of_cons]; set_solver. }
  eapply wp_attempt.
  { apply (gives_transition _ _ target noOptions done_ H3 eq_refl). intros r now Hgr [Hs Htg].
    apply elem_of_cons in Ht as [-> |[-> |[]%not_elem_of_nil]%elem_of_cons]; rewrite Hs; split_and!; try done;
      (split_and!; [apply Hgr | apply Hgr | cbn; destruct Hgr as (_ & _ & ?); done]). }
  intros [] d4 H4. eapply wp_then; [exact (gives_call _ _ (CInvalidateAuthCache (UserID run)) H4 eq_refl eq_refl)|].
  intros [] d5 H5. destruct (hasTransientStore s); [unfold wp; simpl | apply wp_ret]; by exists tt.
Qed.

(** ** Settlement *)

Definition succeeded (r : CreativeRun) : Prop := Status r = CreativeRunStatusSucceeded.

Lemma succeeded_done r : succeeded r → done_ r.
Proof. unfold succeeded, done_, terminalRun. by intros ->. Qed.

Lemma gives_settleCapture d run :
  hasBillingRepo s = true → good run → hasAccount run → at_ d (λ r, settleable r = true) →
  gives o d (settleCapture s id run) (λ _ d', at_ d' succeeded).
Proof.
  intros Hb Hg (a & Ha & Hpos) Hd. unfold settleCapture. rewrite Ha, (proj2 (Z.leb_gt a 0)) by done.
  eapply (wp_then _ _ _ _ (λ _ d', at_ d' (λ r, settleable r = true))); [unfold wp; simpl; by eexists|].
  intros outputs d1 H1.
  eapply (wp_then _ _ _ _ (λ _ d', at_ d' (λ r, settleable r = true))).
  { unfold captureCreativeBalanceHold, captureCommand, buildCreativeHoldCommand. rewrite Hb. cbn [negb].
    destruct Hg as (_ & Hk & _). rewrite (proj2 (Z.leb_gt (APIKeyID run) 0) Hk). unfold wp. simpl. by eexists. }
  intros run' d2 H2. eapply (wp_then _ _ _ _ (λ _ d', at_ d' (λ r, settleable r = true))).
  { destruct (AllowanceReserved run').
    - apply (gives_setColumn _ _ _ _ H2). intros r now Hgr HP. by split.
    - apply wp_ret. by exists tt. }
  intros [] d3 H3. eapply wp_then; [exact (gives_call _ _ (CInvalidateAuthCache (UserID run')) H3 eq_refl eq_refl)|].
  intros [] d4 H4. eapply wp_then; [exact (gives_now _ _ H4)|]. intros now d5 H5. cbv zeta.
  eapply (wp_attempt _ _ _ _ (λ _ d', at_ d' succeeded)).
  { unfold MarkCreativeRunSucceeded. eapply wp_then.
    { apply (gives_update _ _ settleable _ succeeded H5). intros r Hgr HP. by split_and!. }
    intros n d6 [-> H6]. apply wp_ret. by exists tt. }
  intros [] d6 H6. unfold wp; simpl; by eexists.
Qed.

Lemma gives_SettleRun d :
  hasBillingRepo s = true → at_ d (λ r, settling r ∧ hasAccount r) →
  gives o d (SettleRun s id) (λ _ d', at_ d' succeeded).
Proof.
  intros Hb Hd. unfold SettleRun. eapply wp_then; [exact (gives_get _ _ Hd)|].
  intros run d1 (-> & Hg & [Hst Hacc] & Hrow).
  assert (Hn : nothingToSettle run = false) by (unfold nothingToSettle; by destruct Hst as [-> | ->]). rewrite Hn.
  destruct Hst as [Hst|Hst]; rewrite Hst.
  - rewrite eqs_refl. eapply wp_attempt.
    { apply (gives_transition _ _ CreativeRunStatusSettlementPending noOptions (λ r, settleable r = true) Hrow eq_refl).
      intros r now Hgr <-. rewrite Hst. split_and!; try done; by split. }
    intros [] d2 H2. apply gives_settleCapture; done.
  - replace (eqs _ _) with false by done. apply gives_settleCapture; try done.
    eapply at_mono; [exact Hrow|]. intros r _ <-. unfold settleable. by rewrite Hst.
Qed.

(** A run that needs no settlement any more. *)
Lemma gives_SettleRun_again d : at_ d succeeded → gives o d (SettleRun s id) (λ _ d', at_ d' succeeded).
Proof.
  intros Hd. unfold SettleRun. eapply wp_then; [exact (gives_get _ _ Hd)|]. intros run d1 (-> & Hg & Hst & Hrow).
  unfold nothingToSettle. rewrite Hst. apply wp_ret. exists tt. split; [done|]. eapply at_mono; [exact Hrow|].
  by intros r _ <-.
Qed.

(** ** Failure *)

Definition active (r : CreativeRun) : Prop := Status r = CreativeRunStatusQueued ∨ Status r = CreativeRunStatusRunning.

Lemma gives_FailRun d code message :
  hasBillingRepo s = true → TrimSpace id ≠ ""%string → at_ d active →
  gives o d (FailRun s sanitize id code message) (λ _ d', at_ d' done_).
Proof.
  intros Hb Hid Hd. unfold FailRun. eapply wp_then; [exact (gives_get _ _ Hd)|]. intros run d1 (-> & Hg & Hst & Hrow).
  replace (IsTerminalCreativeRunStatus (Status run)) with false by by destruct Hst as [-> | ->].
  replace (eqs (Status run) CreativeRunStatusReleasePending) with false by by destruct Hst as [-> | ->].
  cbv zeta. unfold startRelease. set (opts := mkTransitionOptions _ _ _ _).
  eapply wp_attempt.
  { apply (gives_transition _ _ CreativeRunStatusReleasePending opts
             (λ r, Status r = CreativeRunStatusReleasePending) Hrow eq_refl).
    intros r now Hgr <-. split_and!; [by destruct Hst as [-> | ->] | | done].
    destruct Hgr as (Hi & Hk & _). split_and!; [done..|]. simpl. set_solver. }
  intros [] d2 H2. cbv zeta. eapply wp_then; [exact (gives_outbox _ _ CreativeRunOutboxRelease Hid ltac:(done) H2)|].
  intros [] d3 H3. by apply gives_ReleaseRun.
Qed.

(** ** The provider answers *)

Definition ready (r : CreativeRun) : Prop := Status r = CreativeRunStatusRunning ∧ hasAccount r.

Lemma setAccount_good a r : good r → good (setAccount a r).
Proof. unfold setAccount. by destruct (0 <? a). Qed.

Lemma setAccount_has a r : hasAccount r → hasAccount (setAccount a r).
Proof. unfold setAccount. destruct (0 <? a) eqn:E; [|done]. intros _. exists a. split; [done | lia]. Qed.

Lemma gives_SetAccountID d P accountID now (P' : CreativeRun → Prop) :
  at_ d P → 0 < accountID →
  (∀ r, good r → P r → P' (SetUpdatedAt now (SetAccountID (Some accountID) r))) →
  gives o d (SetCreativeRunAccountID id accountID now) (λ _ d', at_ d' P').
Proof.
  intros Hd Ha Hset. unfold SetCreativeRunAccountID. rewrite (proj2 (Z.leb_gt accountID 0) Ha).
  eapply wp_then; [apply (gives_update _ _ (λ _, true) _ P' Hd); intros r Hg HP; split_and!; [done | done | by apply Hset]|].
  intros n d1 [-> H1]. apply wp_ret. by exists tt.
Qed.

Lemma gives_saveOutputs d P results :
  hasTransientStore s = true → Forall (λ r, resSuccess r = true ∧ resBytes r ≠ ""%string) results → at_ d P →
  gives o d (saveOutputs s id results) (λ _ d', at_ d' P).
Proof.
  intros Ht Hall. revert d. induction Hall as [|r rest [Hs Hb] _ IH]; intros d Hd; cbn [saveOutputs].
  { apply wp_ret. by exists tt. }
  rewrite Hs, Ht. cbn [negb]. apply eqs_false in Hb. rewrite Hb.
  eapply (wp_attempt _ _ _ _ (λ _ d', at_ d' P)); [unfold wp; simpl; by eexists|]. intros [] d1 H1. by apply IH.
Qed.

Lemma gives_updateOutputs d P expiresAt results :
  Forall (λ r, ∃ i, i ∈ images ∧ outIndex i = resIndex r) results → at_ d P →
  gives o d (updateOutputs sanitize id expiresAt results) (λ _ d', at_ d' P).
Proof.
  intros Hall. revert d. induction Hall as [|r rest (i & Hi & Hidx) _ IH]; intros d Hd; cbn [updateOutputs].
  { apply wp_ret. by exists tt. }
  eapply (wp_then _ _ _ _ (λ _ d', at_ d' P)); [|intros [] d1 H1; by apply IH].
  assert (Hone : ∀ st mime size t ec em, gives o d (UpdateCreativeRunOutput id (resIndex r) st mime size t ec em) (λ _ d', at_ d' P)).
  { intros. unfold UpdateCreativeRunOutput. eapply wp_then; [exact (gives_now _ _ Hd)|]. intros now d1 H1.
    destruct H1 as [Hrow Hout]. destruct (Hout i Hi) as [out Hlook]. rewrite Hidx in Hlook.
    unfold wp. simpl. unfold updateOutput. rewrite Hlook.
    destruct (negb _); simpl; [exists tt; split; [done|]; split; [done|]|].
    - intros j Hj. cbn [dbOutputs storeOutputs]. destruct (decide (outIndex j = resIndex r)) as [->|Hne]; [rewrite lookup_insert_eq; by eexists|].
      rewrite lookup_insert_ne by congruence. by apply Hout.
    - rewrite Hlook. exists tt. done. }
  by destruct (resSuccess r).
Qed.

Lemma gives_MarkProviderSucceeded d accountID now :
  at_ d ready → gives o d (MarkCreativeRunProviderSucceeded id accountID now) (λ _ d', at_ d' (λ r, settling r ∧ hasAccount r)).
Proof.
  intros Hd. unfold MarkCreativeRunProviderSucceeded. eapply wp_then; [exact (gives_get _ _ Hd)|].
  intros cur d1 (-> & Hg & [Hst Hacc] & Hrow). rewrite Hst.
  replace (eqs _ _ || _) with false by done. rewrite eqs_refl. cbv zeta.
  eapply wp_then.
  { apply (gives_update _ _ (versionIs (Version cur)) _ (λ r, settling r ∧ hasAccount r) Hrow). intros r Hgr <-.
    split; [apply Z.eqb_refl|]. split.
    - by apply (setAccount_good accountID (SetVersion _ _)).
    - split; [by left|]. by apply (setAccount_has accountID (SetVersion _ _)). }
  intros n d2 [-> H2]. apply wp_ret. by exists tt.
Qed.

Lemma gives_getRunPublic d P : at_ d P → gives o d (getRunPublic id) (λ _ d', at_ d' P).
Proof.
  intros Hd. unfold getRunPublic. eapply wp_then; [exact (gives_get _ _ Hd)|]. intros run d1 (-> & _).
  unfold wp. simpl. by eexists.
Qed.

(** The images of [results] can be stored. *)
Definition storable (results : list CreativeOutput) : Prop :=
  Forall (λ i, i ∈ images ∧ outBytes i ≠ ""%string) results.

Definition outputResults (results : list CreativeOutput) : list CreativeOutputResult :=
  map (λ i, mkOutputResult (outIndex i) true (outBytes i) (outMime i) "" "") results.

Lemma gives_SucceedRun d accountID results :
  hasBillingRepo s = true → hasTransientStore s = true → TrimSpace id ≠ ""%string → storable results → at_ d ready →
  gives o d (SucceedRun s sanitize id accountID (outputResults results))
    (λ _ d', at_ d' (λ r, settling r ∧ hasAccount r) ∨ at_ d' succeeded).
Proof.
  intros Hb Ht Hid Hall Hd. unfold SucceedRun. eapply wp_then; [exact (gives_get _ _ Hd)|].
  intros run d1 (-> & Hg & [Hst Hacc] & Hrow). rewrite Hst.
  replace (IsTerminalCreativeRunStatus _ && _) with false by done.
  eapply (wp_then _ _ _ _ (λ _ d', at_ d' ready)).
  { destruct (0 <? accountID) eqn:Ea; cbn [andb]; [|apply wp_ret; by exists tt].
    destruct (negb _); [|apply wp_ret; by exists tt].
    eapply wp_then; [exact (gives_now _ _ Hd)|]. intros now d1 H1. apply Z.ltb_lt in Ea.
    apply (gives_SetAccountID _ _ _ _ _ H1 Ea). intros r Hgr [Hs _]. split; [done|]. by exists accountID. }
  intros [] d1 H1. eapply wp_then; [exact (gives_now _ _ H1)|]. intros now d2 H2.
  eapply wp_then; [refine (gives_saveOutputs _ _ _ Ht _ H2)|].
  { unfold outputResults. apply Forall_map. eapply Forall_impl; [exact Hall|]. by intros i [_ ?]. }
  intros [] d3 H3. eapply wp_then; [refine (gives_updateOutputs _ _ _ _ _ H3)|].
  { unfold outputResults. apply Forall_map. eapply Forall_impl; [exact Hall|]. intros i [Hi _]. by exists i. }
  intros [] d4 H4. eapply wp_then; [exact (gives_MarkProviderSucceeded _ _ _ H4)|]. intros [] d5 H5.
  eapply wp_then; [exact (gives_outbox _ _ CreativeRunOutboxSettle Hid ltac:(done) H5)|]. intros [] d6 H6.
  eapply (wp_then _ _ _ _ (λ _ d', at_ d' (λ r, settling r ∧ hasAccount r) ∨ at_ d' succeeded)).
  { destruct (hasOutbox s); [apply wp_ret; exists tt; by auto|].
    eapply wp_mono; [exact (gives_SettleRun _ Hb H6)|]. intros r d7 (a & -> & H7). exists a. by auto. }
  intros [] d7 [H7|H7]; (eapply wp_mono; [exact (gives_getRunPublic _ _ H7)|]); intros r d8 (a & -> & H8); exists a; by auto.
Qed.

(** ** One round of the worker *)

Definition trying (n : Z) (r : CreativeRun) : Prop := active r ∧ AttemptCount r = n.

(** After a round: the run is terminal, or one more attempt is counted. *)
Definition roundEnds (n : Z) (d : creativeDB) : Prop :=
  at_ d done_ ∨ at_ d (trying (n + 1)) ∧ n + 1 < MaxAttempts s.

Lemma gives_IncrementAttempt d n :
  at_ d (trying n) → gives o d (IncrementCreativeRunAttempt id) (λ k d', k = n + 1 ∧ at_ d' (trying (n + 1))).
Proof.
  intros Hd. unfold IncrementCreativeRunAttempt. eapply wp_then; [exact (gives_now _ _ Hd)|]. intros now d1 H1.
  eapply wp_then.
  { apply (gives_update _ _ (λ _, true) _ (trying (n + 1)) H1). intros r Hg [Ha <-]. by split_and!. }
  intros k d2 [-> H2]. eapply wp_then; [exact (gives_get _ _ H2)|]. intros r d3 (-> & _ & [_ Hk] & _).
  apply wp_ret. by exists (AttemptCount r).
Qed.

Lemma wp_releasing {A} d (m : M A) Q : wp o d m Q → wp o d (releasing m) Q.
Proof. intros Hm. apply wp_bind. eapply wp_mono; [exact Hm|]. by intros r d1 HQ. Qed.

Context (Hbilling : hasBillingRepo s = true) (Hstore : hasTransientStore s = true) (Hid : TrimSpace id ≠ ""%string).

Lemma gives_handleExecuteError d n e :
  at_ d (trying n) → gives o d (handleExecuteError s sanitize IsRetryable id e) (λ _ d', roundEnds n d').
Proof.
  intros Hd. unfold handleExecuteError. destruct (creativeExecuteErrorParts sanitize e) as [code message]. cbv zeta.
  assert (Hgive : ∀ d1 k, at_ d1 (trying k) →
    gives o d1 (do* FailRun s sanitize id code message in terminal) (λ _ d', roundEnds n d')).
  { intros d1 k H1. eapply wp_then; [refine (gives_FailRun _ code message Hbilling Hid _)|].
    - eapply at_mono; [exact H1|]. by intros r _ [Ha _].
    - intros [] d2 H2. apply wp_ret. eexists. split; [done|]. by left. }
  destruct (IsRetryable e); [|by eapply Hgive].
  eapply wp_then; [exact (gives_IncrementAttempt _ _ Hd)|]. intros k d1 [-> H1].
  destruct (n + 1 <? MaxAttempts s) eqn:Em; [|by eapply Hgive].
  apply wp_ret. eexists. split; [done|]. right. split; [done | lia].
Qed.

Lemma gives_MarkResultLost d n : at_ d (trying n) → gives o d (MarkResultLost s id false) (λ _ d', roundEnds n d').
Proof.
  intros Hd. unfold MarkResultLost. eapply wp_then; [exact (gives_get _ _ Hd)|]. intros run d1 (-> & Hg & [Hst _] & Hrow).
  replace (eqs (Status run) CreativeRunStatusResultLost) with false by by destruct Hst as [-> | ->].
  replace (IsTerminalCreativeRunStatus (Status run)) with false by by destruct Hst as [-> | ->].
  unfold startRelease. eapply wp_attempt.
  { apply (gives_transition _ _ CreativeRunStatusReleasePending (mkTransitionOptions _ _ CreativeRunStatusResultLost None)
             (λ r, Status r = CreativeRunStatusReleasePending) Hrow eq_refl).
    intros r now Hgr <-. split_and!; [by destruct Hst as [-> | ->] | | done].
    destruct Hgr as (Hi & Hk & _). split_and!; [done..|]. simpl. set_solver. }
  intros [] d2 H2. cbv zeta. eapply wp_then; [exact (gives_outbox _ _ CreativeRunOutboxRelease Hid ltac:(done) H2)|].
  intros [] d3 H3. eapply wp_mono; [exact (gives_ReleaseRun _ Hbilling H3)|].
  intros r d4 (a & -> & H4). exists a. split; [done|]. by left.
Qed.

Lemma gives_recordResult d n result :
  storable (exOutputs result) → at_ d ready →
  gives o d (recordResult s sanitize id result) (λ _ d', roundEnds n d').
Proof.
  intros Hall Hd. unfold recordResult. cbv zeta.
  eapply wp_attempt; [exact (gives_SucceedRun _ (exAccountID result) _ Hbilling Hstore Hid Hall Hd)|].
  intros pub d1 H1. eapply (wp_then _ _ _ _ (λ _ d', at_ d' succeeded)).
  { destruct H1 as [H1|H1]; [by apply gives_SettleRun | by apply gives_SettleRun_again]. }
  intros [] d2 H2. apply wp_ret. eexists. split; [done|]. left. eapply at_mono; [exact H2|].
  intros r _. apply succeeded_done.
Qed.

Lemma gives_MarkRunning d n :
  at_ d (trying n) →
  gives o d (MarkRunning id 0) (λ _ d', at_ d' (λ r, Status r = CreativeRunStatusRunning ∧ AttemptCount r = n)).
Proof.
  intros Hd. unfold MarkRunning. eapply wp_then; [exact (gives_get _ _ Hd)|].
  intros run d1 (-> & Hg & [[Hst|Hst] Hn] & Hrow); rewrite Hst.
  - replace (eqs _ CreativeRunStatusRunning) with false by done. rewrite eqs_refl. cbn [negb].
    eapply wp_then; [exact (gives_now _ _ Hrow)|]. intros now d2 H2. unfold MarkCreativeRunRunning.
    eapply wp_then; [exact (gives_get _ _ H2)|]. intros cur d3 (-> & Hgc & <- & H3). rewrite Hst.
    replace (eqs _ CreativeRunStatusRunning) with false by done.
    replace (CanTransitionCreativeRun _ _) with true by done. cbn [negb]. eapply wp_then.
    { apply (gives_update _ _ (versionIs (Version run)) _ (λ r, Status r = CreativeRunStatusRunning ∧ AttemptCount r = n) H3).
      intros r Hgr <-. split; [apply Z.eqb_refl|]. unfold setAccount. simpl. by split. }
    intros k d4 [-> H4]. apply wp_ret. by exists tt.
  - rewrite eqs_refl. apply wp_ret. exists tt. split; [done|]. eapply at_mono; [exact Hrow|]. by intros r _ <-.
Qed.

Definition provided : Prop :=
  match orExecute o with Ok (Some result) => storable (exOutputs result) | _ => True end.

Lemma gives_executeRun d n payload accountID :
  provided → 0 < accountID → at_ d (trying n) →
  gives o d (executeRun s sanitize IsRetryable id payload accountID) (λ _ d', roundEnds n d').
Proof.
  intros Hprov Ha Hd. unfold executeRun.
  eapply (wp_attempt _ _ _ _ (λ cur d', good cur ∧ ready cur ∧ at_ d' (λ r, ready r ∧ AttemptCount r = n))).
  { eapply wp_then; [exact (gives_MarkRunning _ _ Hd)|]. intros [] d1 H1. rewrite (proj2 (Z.ltb_lt 0 accountID) Ha).
    eapply (wp_then _ _ _ _ (λ _ d', at_ d' (λ r, ready r ∧ AttemptCount r = n))).
    { eapply wp_then; [exact (gives_now _ _ H1)|]. intros now d2 H2. apply (gives_SetAccountID _ _ _ _ _ H2 Ha).
      intros r Hg [Hs Hn]. split; [|done]. split; [done|]. by exists accountID. }
    intros [] d2 H2. eapply wp_mono; [exact (gives_get _ _ H2)|]. intros r d3 (cur & -> & -> & Hg & [Hr Hn] & H3).
    exists cur. split_and!; done || apply Hr. }
  intros cur d1 (Hg & [Hst _] & H1). rewrite Hst.
  replace (eqs _ CreativeRunStatusCancelled || _) with false by done.
  apply wp_do, wp_do. cbn [healthy fst snd].
  assert (Ht : at_ d1 (trying n)).
  { eapply at_mono; [exact H1|]. intros r _ [[Hs _] Hn]. split; [by right | done]. }
  unfold provided in Hprov. destruct (orExecute o) as [[result|]|e]; [| |by apply gives_handleExecuteError].
  - eapply (wp_then _ _ _ _ (λ b d', b = false ∧ at_ d' ready)).
    { unfold wp. simpl. eexists. split_and!; [done..|]. eapply at_mono; [exact H1|]. by intros r _ [? _]. }
    intros b d2 [-> H2]. by apply gives_recordResult.
  - eapply (wp_then _ _ _ _ (λ b d', b = false ∧ at_ d' (trying n))); [unfold wp; simpl; by eexists|].
    intros b d2 [-> H2]. by apply gives_handleExecuteError.
Qed.

Definition prepared : Prop :=
  match orPrepare o with Prepared a => 0 < a | ErrCreativeExecutionPending => False | PrepareError _ => True end.

Definition slotted : Prop := hasConcurrency s = false ∨ orSlot o = SlotAcquired ∨ orSlot o = SlotUserGone.

Lemma gives_prepareRun d n run payload :
  provided → prepared → RunID run = id → at_ d (trying n) →
  gives o d (prepareRun s sanitize IsRetryable run payload) (λ _ d', roundEnds n d').
Proof.
  intros Hprov Hprep Hrun Hd. unfold prepareRun. rewrite Hrun. apply wp_do. cbn [healthy fst snd].
  unfold prepared in Hprep. destruct (orPrepare o) as [a| |e]; [by apply gives_executeRun | done |].
  by apply wp_releasing, gives_handleExecuteError.
Qed.

Lemma gives_recover d run :
  good run → at_ d (eq run) →
  gives o d (recoverPersistedProviderResult s run) (λ b d', if b : bool then at_ d' succeeded else d' = d).
Proof.
  intros Hg Hd. unfold recoverPersistedProviderResult. pose proof (proj1 Hg) as Hrun. rewrite Hrun.
  assert (Hno : gives o d (ok false) (λ b d', if b : bool then at_ d' succeeded else d' = d)).
  { apply wp_ret. by exists false. }
  destruct (eqs (Status run) CreativeRunStatusRunning) eqn:Es; cbn [negb]; [|done]. apply eqs_true in Es.
  eapply (wp_then _ _ _ _ (λ _ d', d' = d)); [unfold wp; simpl; by eexists|]. intros outputs d1 ->.
  destruct (bool_decide _); [done|]. destruct (existsb _ _); [done|]. cbv zeta.
  destruct (AccountID run) as [a|] eqn:Ea; [|done].
  destruct (_ || (a <=? 0)) eqn:Ez; [done|]. apply orb_false_iff in Ez as [_ Hpos]. apply Z.leb_gt in Hpos.
  eapply wp_then; [exact (gives_now _ _ Hd)|]. intros now d2 H2.
  eapply wp_then; [refine (gives_MarkProviderSucceeded _ a now _)|].
  { eapply at_mono; [exact H2|]. intros r _ <-. split; [done|]. by exists a. }
  intros [] d3 H3. eapply wp_then; [exact (gives_outbox _ _ CreativeRunOutboxSettle Hid ltac:(done) H3)|].
  intros [] d4 H4. eapply wp_then; [exact (gives_SettleRun _ Hbilling H4)|]. intros [] d5 H5. apply wp_ret. by exists true.
Qed.

Lemma loadPayload_ok d : wp o d (loadPayload s id) (λ r d', d' = d ∧ ∃ payload, r = Ok payload).
Proof.
  unfold loadPayload. rewrite Hstore. cbn [negb]. apply wp_do. cbn [healthy fst snd]. apply wp_bind.
  assert (Hf : ∀ sources, wp o d (let payload := mkPayload (payloadBody (orPayload o)) (SourceCount (orPayload o))
      (HasMask (orPayload o)) sources None in
      if HasMask (orPayload o) then Do (CLoadMask id) (λ r, match r with
                | Err e => Ret (Err e)
                | Ok mask => Ret (Ok (mkPayload (payloadBody payload) (SourceCount payload) true sources (Some mask)))
                end) else Ret (Ok payload)) (λ r d', d' = d ∧ ∃ payload, r = Ok payload)).
  { intros sources. cbv zeta. destruct (HasMask (orPayload o)); unfold wp; simpl; split; [done | by eexists | done | by eexists]. }
  destruct (0 <? _); [apply wp_do|]; cbn [healthy fst snd]; apply wp_ret, Hf.
Qed.

Lemma gives_processActive d n run :
  provided → prepared → slotted → good run → trying n run → at_ d (eq run) →
  gives o d (processActive s sanitize IsRetryable run) (λ _ d', roundEnds n d').
Proof.
  intros Hprov Hprep Hslot Hg Htry Hd. unfold processActive. cbv zeta. rewrite (proj1 Hg).
  assert (Ht : at_ d (trying n)) by (eapply at_mono; [exact Hd|]; by intros r _ <-).
  eapply wp_then; [exact (gives_recover _ _ Hg Hd)|]. intros [|] d1 H1.
  { apply wp_ret. eexists. split; [done|]. left. eapply at_mono; [exact H1|]. intros r _. apply succeeded_done. }
  rewrite H1. apply wp_bind. eapply wp_mono; [apply loadPayload_ok|]. intros r d2 (-> & payload & ->).
  destruct Hslot as [Hc|Hslot]; [rewrite Hc; apply gives_prepareRun; done || apply Hg|].
  destruct (hasConcurrency s); [|apply gives_prepareRun; done || apply Hg]. apply wp_do. cbn [healthy fst snd].
  destruct Hslot as [-> | ->]; [apply gives_prepareRun; done || apply Hg|].
  eapply wp_attempt; [exact (gives_MarkResultLost _ _ Ht)|]. intros [] d3 H3. apply wp_ret. by eexists.
Qed.

(** A status in which the worker can act: a settlement knows its account. *)
Definition serviceable (r : CreativeRun) : Prop :=
  terminalRun r = true ∨ releasingRun r ∨ (settling r ∧ hasAccount r) ∨ active r.

Definition round (d : creativeDB) : creativeDB := snd (exec o d (process s sanitize errorText IsRetryable id)).

Fixpoint rounds (n : nat) (d : creativeDB) : creativeDB :=
  match n with O => d | S n => rounds n (round d) end.

Lemma reconcile_note_done d message next :
  at_ d done_ → gives o d (SetCreativeRunReconcileError id message next) (λ _ d', at_ d' done_).
Proof. intros Hd. apply (gives_setColumn _ _ _ _ Hd). intros r now Hg HP. by split. Qed.

Lemma round_progress d n :
  provided → prepared → slotted → at_ d (λ r, serviceable r ∧ AttemptCount r = n) → roundEnds n (round d).
Proof.
  intros Hprov Hprep Hslot Hd.
  assert (Hgoal : wp o d (process s sanitize errorText IsRetryable id) (λ _ d', roundEnds n d')); [|exact Hgoal].
  unfold process. apply wp_bind. eapply wp_mono; [exact (gives_get _ _ Hd)|].
  intros r d1 (run & -> & -> & Hg & [Hst Hn] & Hrow).
  destruct (IsTerminalCreativeRunStatus (Status run)) eqn:Et.
  { apply wp_ret. left. eapply at_mono; [exact Hrow|]. by intros r _ <-. }
  assert (Hnote : ∀ m, gives o d m (λ _ d', at_ d' done_) →
    ∀ f : result goError unit → M CreativeProcessResult,
    f (Ok tt) = attempt (SetCreativeRunReconcileError id "" zeroTime) (λ _, terminal) →
    wp o d (attempt m f) (λ _ d', roundEnds n d')).
  { intros m Hm f Hf. eapply wp_attempt; [exact Hm|]. intros [] d2 H2. rewrite Hf.
    eapply wp_attempt; [exact (reconcile_note_done _ _ _ H2)|]. intros [] d3 H3. apply wp_ret. by left. }
  destruct Hst as [Hst|[Hst|[[Hst Hacc]|Hst]]]; [unfold terminalRun in Hst; congruence| | |].
  - rewrite Hst, eqs_refl. unfold processRelease. apply (Hnote (ReleaseRun s id)); [|done].
    apply gives_ReleaseRun; [done|]. eapply at_mono; [exact Hrow|]. by intros r _ <-.
  - replace (eqs (Status run) CreativeRunStatusReleasePending) with false by by destruct Hst as [-> | ->].
    replace (IsCreativeRunSettlementPending (Status run)) with true by by destruct Hst as [-> | ->].
    unfold processSettlement. apply (Hnote (SettleRun s id)); [|done].
    eapply wp_mono; [refine (gives_SettleRun _ Hbilling _)|].
    + eapply at_mono; [exact Hrow|]. by intros r _ <-.
    + intros r d2 (a & -> & H2). exists a. split; [done|]. eapply at_mono; [exact H2|]. intros r _. apply succeeded_done.
  - replace (eqs (Status run) CreativeRunStatusReleasePending) with false by by destruct Hst as [-> | ->].
    replace (IsCreativeRunSettlementPending (Status run)) with false by by destruct Hst as [-> | ->].
    eapply wp_mono; [exact (gives_processActive d n run Hprov Hprep Hslot Hg (conj Hst Hn) Hrow)|].
    intros r d2 (a & -> & H2). done.
Qed.

End progress.

(** C20: liveness.  With working calls — the billing service, the transient store
    and a slot are available, an account is selected or the selection fails, and
    the provider fails or answers with images that can be stored — a run that is
    queued, running, waiting for its settlement or for its release becomes
    terminal within at most as many rounds of the worker as attempts are left
    (one round when none is). *)
Theorem worker_reaches_terminal `{UnicodeCase} o s sanitize errorText IsRetryable id images d n :
  hasBillingRepo s = true → hasTransientStore s = true → TrimSpace id ≠ ""%string →
  provided o images → prepared o → slotted o s →
  at_ id images d (λ r, serviceable r ∧ AttemptCount r = n) →
  ∃ k run, (k <= Z.to_nat (Z.max 1 (MaxAttempts s - n)))%nat ∧
    dbRuns (rounds o s sanitize errorText IsRetryable id k d) !! id = Some run ∧
    IsTerminalCreativeRunStatus (Status run) = true.
Proof.
  intros Hb Hs Hid Hprov Hprep Hslot.
  remember (Z.to_nat (MaxAttempts s - n)) as fuel eqn:Ef. revert d n Ef.
  induction fuel as [|fuel IH]; intros d n Ef Hd;
    destruct (round_progress o s sanitize errorText IsRetryable id images Hb Hs Hid d n Hprov Hprep Hslot Hd)
      as [[(run & Hrun & _ & Hdone) _]|[Ht Hlt]].
  - exists 1%nat, run. split; [lia | done].
  - lia.
  - exists 1%nat, run. split; [lia | done].
  - destruct (IH (round o s sanitize errorText IsRetryable id d) (n + 1)) as (k & run & Hk & Hrun & Hdone); [lia | |].
    + destruct Ht as [(r & Hr & Hg & Ha & Hn) Ho]. split; [|done]. exists r. split_and!; try done. by right; right; right.
    + exists (S k), run. split; [lia | done].
Qed.

(** The example run: the provider fails with a retryable error in every round. *)
Definition failingOracle : oracle :=
  mkOracle (λ cmd, cActualBaseAmountUSD cmd) (mkPayload "{}" 0 false [] None) [] "" SlotAcquired (Prepared 11)
    (Err (CreativeUpstreamError 503 "overloaded")).

Lemma worker_reaches_terminal_witness :
  ∃ k run, (k <= 3)%nat ∧
    dbRuns (rounds (H := ascii_case) failingOracle exampleService (λ m, m) (λ _, "error"%string) (λ _, true) "crun_ab" k
              createdDB) !! "crun_ab" = Some run ∧
    IsTerminalCreativeRunStatus (Status run) = true.
Proof.
  apply (worker_reaches_terminal (H := ascii_case) failingOracle exampleService (λ m, m) (λ _, "error"%string) (λ _, true)
           "crun_ab" [] createdDB 0); [reflexivity | reflexivity | by vm_compute | exact I | reflexivity | by right; left |].
  split; [|by intros i Hi%not_elem_of_nil].
  exists newRun. split; [by vm_compute|]. split; [|split; [by right; right; right; left | reflexivity]].
  split; [reflexivity|]. split; [reflexivity|]. by vm_compute; repeat constructor.
Defined.
