(* ===== verification/GoHeap.v ===== *)
(** * container/heap

    The functions of Go's [container/heap] on a slice (a list), for the [Less]
    of an element type, and their correctness: a heap keeps its order property
    and its elements, and its first element is least. *)

From S2P Require Import Prelude.
#[local] Open Scope nat_scope.

Section heap.
Context {A : Type} (less : A → A → bool).

(** [h.Less(i, j)] and [h.Swap(i, j)]. *)
Definition Less (h : list A) (i j : nat) : bool :=
  match h !! i, h !! j with Some a, Some b => less a b | _, _ => false end.

Definition Swap (h : list A) (i j : nat) : list A :=
  match h !! i, h !! j with Some a, Some b => <[j := a]> (<[i := b]> h) | _, _ => h end.

Definition parent (j : nat) : nat := (j - 1) / 2.

(** [up]; the fuel bounds the depth ([length h] is enough). *)
Fixpoint up (fuel : nat) (h : list A) (j : nat) : list A :=
  match fuel with
  | O => h
  | S fuel => let i := parent j in
              if (i =? j) || negb (Less h j i) then h else up fuel (Swap h i j) i
  end.

(** [down]: the slice, and whether the element moved. *)
Fixpoint down (fuel : nat) (h : list A) (i n : nat) : list A * bool :=
  match fuel with
  | O => (h, false)
  | S fuel =>
      let j1 := 2 * i + 1 in
      if n <=? j1 then (h, false) else
      let j2 := j1 + 1 in
      let j := if (j2 <? n) && Less h j2 j1 then j2 else j1 in
      if negb (Less h j i) then (h, false) else (fst (down fuel (Swap h i j) j n), true)
  end.

Definition Push (h : list A) (x : A) : list A := up (length h + 1) (h ++ [x]) (length h).

Definition Fix (h : list A) (i : nat) : list A :=
  let '(h', moved) := down (length h) h i (length h) in
  if moved then h' else up (length h') h' i.

(** ** Elements *)

Lemma Swap_perm h i j : Swap h i j ≡ₚ h.
Proof.
  unfold Swap. destruct (h !! i) as [a|] eqn:Ei; [|done]. destruct (h !! j) as [b|] eqn:Ej; [|done].
  by apply Permutation_insert_swap.
Qed.

Lemma Swap_length h i j : length (Swap h i j) = length h.
Proof. by rewrite Swap_perm. Qed.

Lemma up_perm fuel h j : up fuel h j ≡ₚ h.
Proof.
  revert h j. induction fuel as [|fuel IH]; intros h j; cbn [up]; [done|].
  destruct (_ || _); [done|]. by rewrite IH, Swap_perm.
Qed.

Lemma down_perm fuel h i n : fst (down fuel h i n) ≡ₚ h.
Proof.
  revert h i. induction fuel as [|fuel IH]; intros h i; cbn [down]; [done|].
  destruct (n <=? _); [done|]. destruct (negb _); [done|]. cbn [fst]. by rewrite IH, Swap_perm.
Qed.

Lemma Push_perm h x : Push h x ≡ₚ x :: h.
Proof. unfold Push. rewrite up_perm. symmetry. apply Permutation_cons_append. Qed.

Lemma Fix_perm h i : Fix h i ≡ₚ h.
Proof.
  unfold Fix. pose proof (down_perm (length h) h i (length h)) as Hd.
  destruct (down _ _ _ _) as [h' moved]. cbn [fst] in Hd. destruct moved; [done|]. by rewrite up_perm.
Qed.

(** ** Order *)

(** [a <= b] is [¬ less b a]; [less] is a strict weak order on the elements
    that satisfy [P]. *)
Context (P : A → Prop) (less_irrefl : ∀ a, less a a = false) (less_asym : ∀ a b, less a b = true → less b a = false)
  (less_trans : ∀ a b c, P a → P b → P c → less a b = false → less b c = false → less a c = false).

Definition le_at (h : list A) (i j : nat) : Prop := Less h j i = false.

Definition isHeap (h : list A) : Prop := ∀ k, 0 < k < length h → le_at h (parent k) k.

Lemma le_at_refl h i : le_at h i i.
Proof. unfold le_at, Less. destruct (h !! i); [apply less_irrefl | done]. Qed.

Lemma le_at_trans h i j k : Forall P h → j < length h → le_at h i j → le_at h j k → le_at h i k.
Proof.
  intros HP [b Hb]%lookup_lt_is_Some. unfold le_at, Less. rewrite Hb.
  destruct (h !! i) as [a|] eqn:Ha, (h !! k) as [c|] eqn:Hc; try done. intros H1 H2.
  apply less_trans with b; try done; by eapply Forall_lookup_1.
Qed.

Lemma less_le_at h i j : Less h i j = true → le_at h i j.
Proof.
  unfold le_at, Less. destruct (h !! i) as [a|], (h !! j) as [b|]; try done.
  apply less_asym.
Qed.

(** The position that a swap moves to [k]. *)
Definition moved (i j k : nat) : nat := if decide (k = i) then j else if decide (k = j) then i else k.

Lemma Swap_lookup h i j k : i < length h → j < length h → Swap h i j !! k = h !! moved i j k.
Proof.
  intros [a Ha]%lookup_lt_is_Some [b Hb]%lookup_lt_is_Some. unfold Swap, moved. rewrite Ha, Hb.
  pose proof (lookup_lt_Some _ _ _ Ha). pose proof (lookup_lt_Some _ _ _ Hb).
  destruct (decide (k = j)) as [->|Hj].
  { rewrite list_lookup_insert_eq by by rewrite length_insert. destruct (decide (j = i)) as [->|]; congruence. }
  rewrite list_lookup_insert_ne by done. destruct (decide (k = i)) as [->|Hi]; [by rewrite list_lookup_insert_eq|].
  by rewrite list_lookup_insert_ne.
Qed.

Lemma le_at_Swap h i j a b :
  i < length h → j < length h → le_at h (moved i j a) (moved i j b) → le_at (Swap h i j) a b.
Proof. intros Hi Hj. unfold le_at, Less. by rewrite !Swap_lookup. Qed.

Lemma parent_spec k i : 0 < k → (parent k = i ↔ k = 2 * i + 1 ∨ k = 2 * i + 2).
Proof.
  intros Hk. unfold parent. pose proof (Nat.div_mod_eq (k - 1) 2). pose proof (Nat.mod_upper_bound (k - 1) 2). lia.
Qed.

Lemma parent_lt k : 0 < k → parent k < k.
Proof. intros Hk. pose proof (proj1 (parent_spec k (parent k) Hk) eq_refl). lia. Qed.

(** *** Sifting up *)

(** A heap except for the element at [j], which may be less than its parent. *)
Definition upHeap (h : list A) (j : nat) : Prop :=
  (∀ k, 0 < k < length h → k ≠ j → le_at h (parent k) k) ∧
  (∀ k, 0 < k < length h → 0 < j → parent k = j → le_at h (parent j) k).

Lemma up_heap fuel h j : Forall P h → j < fuel → j < length h → upHeap h j → isHeap (up fuel h j).
Proof.
  revert h j. induction fuel as [|fuel IH]; intros h j HP Hf Hj [H1 H2]; [lia|]. cbn [up].
  destruct (decide (j = 0)) as [->|Hj0].
  { cbn. intros k Hk. apply H1; lia. }
  pose proof (parent_lt j). replace (parent j =? j) with false by (symmetry; apply Nat.eqb_neq; lia). cbn [orb].
  destruct (Less h j (parent j)) eqn:El; cbn [negb].
  2: { intros k Hk. destruct (decide (k = j)) as [->|Hne]; [exact El | by apply H1]. }
  set (i := parent j) in *. assert (Hi : i < length h) by lia.
  apply IH; [by rewrite Swap_perm | lia | by rewrite Swap_length |].
  assert (Hij : le_at h j i) by by apply less_le_at.
  split; intros k Hk; rewrite Swap_length in Hk.
  - intros Hki. apply le_at_Swap; [done..|]. unfold moved.
    destruct (decide (k = i)); [done|]. destruct (decide (k = j)) as [->|Hkj].
    { fold i. destruct (decide (i = i)); [done|lia]. }
    destruct (decide (parent k = i)) as [Ep|Hpi].
    { apply le_at_trans with i; [done..|]. rewrite <- Ep. by apply H1. }
    destruct (decide (parent k = j)) as [Ep|Hpj]; [apply H2; lia | by apply H1].
  - intros Hi0 Hpk. pose proof (parent_lt i Hi0). apply le_at_Swap; [done..|]. unfold moved.
    destruct (decide (parent i = i)); [lia|]. destruct (decide (parent i = j)); [lia|].
    assert (Hgi : le_at h (parent i) i) by (apply H1; lia).
    destruct (decide (k = i)); [pose proof (parent_lt k); lia|]. destruct (decide (k = j)) as [->|Hkj]; [done|].
    apply le_at_trans with i; [done..|]. rewrite <- Hpk. by apply H1.
Qed.

(** *** Sifting down *)

Definition downHeap (h : list A) (i : nat) : Prop :=
  (∀ k, 0 < k < length h → parent k ≠ i → le_at h (parent k) k) ∧
  (∀ k, 0 < k < length h → 0 < i → parent k = i → le_at h (parent i) k).

Lemma down_heap fuel h i :
  Forall P h → length h <= i + fuel → i < length h → downHeap h i → isHeap (fst (down fuel h i (length h))).
Proof.
  revert h i. induction fuel as [|fuel IH]; intros h i HP Hf Hi [H1 H2]; [lia|]. cbn [down].
  destruct (length h <=? 2 * i + 1) eqn:En.
  { apply Nat.leb_le in En. cbn [fst]. intros k Hk. apply H1; [done|]. intros Hp. apply parent_spec in Hp; lia. }
  apply Nat.leb_gt in En. set (j1 := 2 * i + 1) in *.
  set (j := if (j1 + 1 <? length h) && Less h (j1 + 1) j1 then j1 + 1 else j1).
  assert (Hj : j < length h ∧ (j = 2 * i + 1 ∨ j = 2 * i + 2) ∧
               ∀ k, 0 < k < length h → parent k = i → le_at h j k).
  { unfold j. destruct ((j1 + 1 <? length h) && Less h (j1 + 1) j1) eqn:Ej.
    - apply andb_true_iff in Ej as [E1%Nat.ltb_lt E2]. split; [lia|]. split; [lia|].
      intros k Hk Hp. apply parent_spec in Hp; [|lia]. destruct Hp as [-> | ->]; [by apply less_le_at|].
      replace (2 * i + 2) with (j1 + 1) by lia. apply le_at_refl.
    - split; [lia|]. split; [lia|]. intros k Hk Hp. apply parent_spec in Hp; [|lia]. destruct Hp as [-> | ->]; [apply le_at_refl|].
      apply andb_false_iff in Ej as [E1%Nat.ltb_ge|E2]; [lia|]. unfold le_at. by replace (2 * i + 2) with (j1 + 1) by lia. }
  destruct Hj as (Hjn & Hji & Hmin).
  destruct (Less h j i) eqn:El; cbn [negb fst].
  2: { intros k Hk. destruct (decide (parent k = i)) as [Hp|Hp]; [|by apply H1]. rewrite Hp.
       apply le_at_trans with j; [done | done | exact El | by apply Hmin]. }
  assert (Hpj : parent j = i) by (apply parent_spec; lia).
  assert (Hle : le_at h j i) by by apply less_le_at.
  rewrite <- (Swap_length h i j). apply IH; rewrite ?Swap_length; [by rewrite Swap_perm | lia | done |].
  split; intros k; rewrite Swap_length; intros Hk Hp.
  - apply le_at_Swap; [done..|]. unfold moved.
    destruct (decide (k = i)) as [->|Hki].
    { pose proof (parent_lt i). destruct (decide (parent i = i)); [lia|]. destruct (decide (parent i = j)); [lia|].
      apply H2; lia. }
    destruct (decide (k = j)) as [->|Hkj].
    { rewrite Hpj. destruct (decide (i = i)); done. }
    destruct (decide (parent k = i)) as [Hpi|Hpi]; [by apply Hmin|].
    destruct (decide (parent k = j)); [done|]. by apply H1.
  - intros Hpk. apply le_at_Swap; [done..|]. unfold moved. rewrite Hpj.
    destruct (decide (i = i)); [|done]. destruct (decide (k = i)) as [->|Hki].
    { pose proof (parent_lt i). lia. }
    destruct (decide (k = j)) as [->|Hkj]; [pose proof (parent_lt j); lia|]. rewrite <- Hpk. apply H1; [done|lia].
Qed.

(** ** The operations *)

Lemma isHeap_root h i a b : Forall P h → isHeap h → h !! 0 = Some a → h !! i = Some b → less b a = false.
Proof.
  intros HP Hh Ha. revert b. induction (lt_wf i) as [i _ IH]. intros b Hb.
  destruct (decide (i = 0)) as [->|Hi]; [rewrite Ha in Hb; injection Hb as <-; apply less_irrefl|].
  pose proof (lookup_lt_Some _ _ _ Hb). pose proof (parent_lt i).
  destruct (lookup_lt_is_Some_2 h (parent i)) as [p Hp]; [lia|].
  specialize (Hh i ltac:(lia)). unfold le_at, Less in Hh. rewrite Hb, Hp in Hh.
  apply less_trans with p; [by eapply Forall_lookup_1..|done|]. apply IH with (parent i); [lia | done].
Qed.

Lemma Push_heap h x : Forall P (x :: h) → isHeap h → isHeap (Push h x).
Proof.
  intros HP Hh. unfold Push. apply up_heap; [by rewrite <- Permutation_cons_append | lia | rewrite length_app; cbn; lia |].
  split; intros k Hk; rewrite length_app in Hk; cbn in Hk.
  - intros Hne. pose proof (parent_lt k). specialize (Hh k ltac:(lia)). unfold le_at, Less in *.
    by rewrite !lookup_app_l by lia.
  - intros _ Hp. pose proof (parent_lt k). lia.
Qed.

(** Replacing the root and calling [Fix(h, 0)]. *)
Lemma Fix_heap h x : P x → Forall P h → isHeap h → 0 < length h → isHeap (Fix (<[0 := x]> h) 0).
Proof.
  intros Hx HP Hh Hl. unfold Fix. set (h1 := <[0 := x]> h).
  assert (HP1 : Forall P h1) by by apply Forall_insert.
  assert (Hl1 : length h1 = length h) by apply length_insert.
  assert (Hd : isHeap (fst (down (length h1) h1 0 (length h1)))).
  { apply down_heap; [done | lia..|]. split; [|lia].
    intros k Hk Hp. pose proof (parent_lt k). unfold h1, le_at, Less.
    rewrite !list_lookup_insert_ne by lia. apply Hh. lia. }
  pose proof (down_perm (length h1) h1 0 (length h1)) as Hd2.
  destruct (down _ _ _ _) as [h2 []]; [done|]. cbn [fst] in Hd, Hd2.
  assert (Hl2 : 0 < length h2) by (rewrite (Permutation_length Hd2); lia).
  apply up_heap; [by rewrite Hd2 | done..|]. split; [|lia]. intros k Hk _. by apply Hd.
Qed.

End heap.
