(* ===== verification/AdvancedScheduler.v ===== *)
(** * The advanced account scheduler

    [service/advanced_scheduler_core.go]: runtime feedback of the accounts, the
    score of each candidate, and the order in which candidates are tried: the
    best [TopK] of them, drawn without replacement by weight.

    Scores are binary64, computed in the order of the code without fused
    operations.  A report updates each counter of an account with one atomic
    operation (the compare-and-swap loops take effect at once); a candidate
    without an account is [None]. *)

From S2P Require Import Prelude GoRuntime Domain GoHeap.
#[local] Open Scope Z_scope.

Definition f64_one : float64 := f64_of_Z 1.
Definition f64_half : float64 := f64_div (f64_of_Z 1) (f64_of_Z 2).
Definition f64_ne (x y : float64) : bool := negb (f64_eq x y).

Definition clamp01 (value : float64) : float64 :=
  if f64_lt value f64_zero then f64_zero else if f64_gt value f64_one then f64_one else value.

Definition calcLoadSkewByMoments (sum sumSquares : float64) (count : Z) : float64 :=
  if count <=? 1 then f64_zero else
  let mean := f64_div sum (f64_of_Z count) in
  let variance := f64_sub (f64_div sumSquares (f64_of_Z count)) (f64_mul mean mean) in
  SFsqrt 53 1024 (if f64_lt variance f64_zero then f64_zero else variance).

(** ** Runtime feedback *)

Record advancedSchedulerFeedbackConfig := mkFeedbackConfig { errorRateAlpha : float64; ttftAlpha : float64 }.

(** 0.2, correctly rounded. *)
Definition defaultAdvancedSchedulerErrorRateAlpha : float64 := f64_div (f64_of_Z 1) (f64_of_Z 5).
Definition defaultAdvancedSchedulerTTFTAlpha : float64 := f64_div (f64_of_Z 1) (f64_of_Z 5).

Definition invalidAlpha (v : float64) : bool := f64_le v f64_zero || f64_gt v f64_one || f64_isNaN v || f64_isInf v.

Definition normalizeAdvancedSchedulerFeedbackConfig (value : advancedSchedulerFeedbackConfig)
    : advancedSchedulerFeedbackConfig :=
  mkFeedbackConfig
    (if invalidAlpha (errorRateAlpha value) then defaultAdvancedSchedulerErrorRateAlpha else errorRateAlpha value)
    (if invalidAlpha (ttftAlpha value) then defaultAdvancedSchedulerTTFTAlpha else ttftAlpha value).

Record advancedAccountRuntimeStat := mkStat {
  errorRateEWMA : float64;
  ttftEWMA : float64;
  errorSamples : Z;
  ttftSamples : Z;
  lastObservedUnixNano : Z;
  lastTTFTObservedNanos : Z;
}.

Record advancedAccountRuntimeStats := mkStats {
  statAccounts : gmap Z advancedAccountRuntimeStat;
  accountCount : Z;
  switchCount : Z;
}.

Definition newAdvancedAccountRuntimeStats : advancedAccountRuntimeStats := mkStats ∅ 0 0.

Definition newStat : advancedAccountRuntimeStat := mkStat f64_zero S754_nan 0 0 0 0.

Definition reportSwitch (s : advancedAccountRuntimeStats) : advancedAccountRuntimeStats :=
  mkStats (statAccounts s) (accountCount s) (wrap64 (switchCount s + 1)).

Definition loadOrCreate (s : advancedAccountRuntimeStats) (accountID : Z)
    : advancedAccountRuntimeStat * advancedAccountRuntimeStats :=
  match statAccounts s !! accountID with
  | Some stat => (stat, s)
  | None => (newStat, mkStats (<[accountID := newStat]> (statAccounts s)) (wrap64 (accountCount s + 1)) (switchCount s))
  end.

Definition updateAdvancedSchedulerEWMA (oldValue sample alpha : float64) : float64 :=
  f64_add (f64_mul alpha sample) (f64_mul (f64_sub f64_one alpha) oldValue).

(** The first sample of the time to first token is taken as it is. *)
Definition reportTTFT (config : advancedSchedulerFeedbackConfig) (firstTokenMs : Z) (now : Time)
    (stat : advancedAccountRuntimeStat) : advancedAccountRuntimeStat :=
  let ttft := f64_of_Z firstTokenMs in
  mkStat (errorRateEWMA stat)
    (if f64_isNaN (ttftEWMA stat) then ttft else updateAdvancedSchedulerEWMA (ttftEWMA stat) ttft (ttftAlpha config))
    (errorSamples stat) (wrap64 (ttftSamples stat + 1)) (lastObservedUnixNano stat) (UnixNano now).

Definition reportError (config : advancedSchedulerFeedbackConfig) (success : bool) (now : Time)
    (stat : advancedAccountRuntimeStat) : advancedAccountRuntimeStat :=
  mkStat (updateAdvancedSchedulerEWMA (errorRateEWMA stat) (if success then f64_zero else f64_one) (errorRateAlpha config))
    (ttftEWMA stat) (wrap64 (errorSamples stat + 1)) (ttftSamples stat) (UnixNano now) (lastTTFTObservedNanos stat).

Definition report (s : advancedAccountRuntimeStats) (accountID : Z) (success : bool) (firstTokenMs : option Z)
    (feedback : option advancedSchedulerFeedbackConfig) (now : Time) : advancedAccountRuntimeStats :=
  if accountID <=? 0 then s else
  let config := match feedback with
                | Some f => normalizeAdvancedSchedulerFeedbackConfig f
                | None => mkFeedbackConfig defaultAdvancedSchedulerErrorRateAlpha defaultAdvancedSchedulerTTFTAlpha
                end in
  let '(stat, s) := loadOrCreate s accountID in
  let stat := reportError config success now stat in
  let stat := match firstTokenMs with
              | Some ms => if 0 <? ms then reportTTFT config ms now stat else stat
              | None => stat
              end in
  mkStats (<[accountID := stat]> (statAccounts s)) (accountCount s) (switchCount s).

Record advancedAccountRuntimeFeedbackSnapshot := mkSnapshot {
  HasFeedback : bool;
  ErrorRate : float64;
  ErrorSamples : Z;
  TTFT : float64;
  HasTTFT : bool;
  TTFTSamples : Z;
  LastObservedAt : option Time;
  LastTTFTAt : option Time;
}.

Definition noSnapshot : advancedAccountRuntimeFeedbackSnapshot :=
  mkSnapshot false f64_zero 0 f64_zero false 0 None None.

Definition observedAt (ns : Z) : option Time := if 0 <? ns then Some (fromUnixNano ns) else None.

Definition feedbackSnapshot (s : advancedAccountRuntimeStats) (accountID : Z) : advancedAccountRuntimeFeedbackSnapshot :=
  if accountID <=? 0 then noSnapshot else
  match statAccounts s !! accountID with
  | None => noSnapshot
  | Some stat =>
      let known := negb (f64_isNaN (ttftEWMA stat)) in
      mkSnapshot true (clamp01 (errorRateEWMA stat)) (errorSamples stat)
        (if known then ttftEWMA stat else f64_zero) known (if known then ttftSamples stat else 0)
        (observedAt (lastObservedUnixNano stat)) (if known then observedAt (lastTTFTObservedNanos stat) else None)
  end.

Definition snapshot (s : advancedAccountRuntimeStats) (accountID : Z) : float64 * float64 * bool :=
  if accountID <=? 0 then (f64_zero, f64_zero, false) else
  match statAccounts s !! accountID with
  | None => (f64_zero, f64_zero, false)
  | Some stat =>
      if f64_isNaN (ttftEWMA stat) then (clamp01 (errorRateEWMA stat), f64_zero, false)
      else (clamp01 (errorRateEWMA stat), ttftEWMA stat, true)
  end.

(** ** Candidates *)

Record AccountLoadInfo := mkLoadInfo {
  loadAccountID : Z;
  CurrentConcurrency : Z;
  WaitingCount : Z;
  LoadRate : Z;
}.

Record advancedSchedulerCandidateFactors := mkFactors {
  facPriority : float64;
  facLoad : float64;
  facQueue : float64;
  facErrorRate : float64;
  facTTFT : float64;
  facReset : float64;
  facQuotaHeadroom : float64;
}.

Definition noFactors : advancedSchedulerCandidateFactors :=
  mkFactors f64_zero f64_zero f64_zero f64_zero f64_zero f64_zero f64_zero.

Record advancedSchedulerCandidateScore := mkCandidate {
  account : option Account;
  loadInfo : AccountLoadInfo;
  loadKnown : bool;
  score : float64;
  baseScore : float64;
  stickyBonus : float64;
  previousBonus : float64;
  sessionStickyBonus : float64;
  priority : Z;
  errorRate : float64;
  ttft : float64;
  hasTTFT : bool;
  hasFeedback : bool;
  feedback : advancedAccountRuntimeFeedbackSnapshot;
  factors : advancedSchedulerCandidateFactors;
}.

Record advancedSchedulerScoreRanges := mkRanges {
  MinPriority : Z;
  MaxPriority : Z;
  MaxWaiting : Z;
  MinTTFT : float64;
  MaxTTFT : float64;
  HasTTFTSample : bool;
  MinResetRemaining : float64;
  MaxResetRemaining : float64;
  HasResetSample : bool;
}.

Record GatewayAdvancedSchedulerScoreWeightsView := mkWeights {
  wPriority : float64;
  wLoad : float64;
  wQueue : float64;
  wErrorRate : float64;
  wTTFT : float64;
  wReset : float64;
  wQuotaHeadroom : float64;
  wPrevious : float64;
  wSessionSticky : float64;
}.

Record advancedSchedulerSelectionInput := mkInput {
  GroupID : option Z;
  SessionHash : string;
  PreviousResponseID : string;
  RequestedModel : string;
  StickyAccountID : Z;
  StickyPreviousAccountID : Z;
  StickyWeighted : bool;
  TopK : Z;
  QuotaHeadroomFactor : option (Account → Time → float64);
}.

(** ** Scores *)

(** The candidate of an account, before it is scored. *)
Definition candidateOf (loadMap : gmap Z AccountLoadInfo) (stats : option advancedAccountRuntimeStats) (a : Account)
    : advancedSchedulerCandidateScore :=
  let f := match stats with Some s => feedbackSnapshot s (ID a) | None => noSnapshot end in
  mkCandidate (Some a) (default (mkLoadInfo (ID a) 0 0 0) (loadMap !! ID a)) (bool_decide (is_Some (loadMap !! ID a)))
    f64_zero f64_zero f64_zero f64_zero f64_zero (Priority a) (ErrorRate f) (TTFT f) (HasTTFT f) (HasFeedback f) f noFactors.

(** A running minimum and maximum of floats: [None] before the first sample. *)
Definition extend (range : option (float64 * float64)) (v : float64) : option (float64 * float64) :=
  match range with
  | None => Some (v, v)
  | Some (lo, hi) => Some (if f64_lt v lo then v else lo, if f64_gt v hi then v else hi)
  end.

Definition lowest (range : option (float64 * float64)) : float64 := default f64_zero (fst <$> range).
Definition highest (range : option (float64 * float64)) : float64 := default f64_zero (snd <$> range).

Definition ttftRange (candidates : list advancedSchedulerCandidateScore) : option (float64 * float64) :=
  fold_left (λ r c, if hasTTFT c && f64_gt (ttft c) f64_zero then extend r (ttft c) else r) candidates None.

(** [end.Sub(now).Seconds()] of a session window that is still open. *)
Definition resetRemaining (c : advancedSchedulerCandidateScore) (now : Time) : option float64 :=
  match account c with
  | Some a => match SessionWindowEnd a with
              | Some stop => if Before now stop then Some (Seconds (Sub stop now)) else None
              | None => None
              end
  | None => None
  end.

Definition resetRange (weights : GatewayAdvancedSchedulerScoreWeightsView) (candidates : list advancedSchedulerCandidateScore)
    (now : Time) : option (float64 * float64) :=
  if f64_gt (wReset weights) f64_zero then
    fold_left (λ r c, match resetRemaining c now with Some v => extend r v | None => r end) candidates None
  else None.

Definition scoreRanges (weights : GatewayAdvancedSchedulerScoreWeightsView) (first : advancedSchedulerCandidateScore)
    (candidates : list advancedSchedulerCandidateScore) (now : Time) : advancedSchedulerScoreRanges :=
  let ttfts := ttftRange candidates in
  let resets := resetRange weights candidates now in
  mkRanges
    (fold_left (λ m c, if priority c <? m then priority c else m) candidates (priority first))
    (fold_left (λ m c, if m <? priority c then priority c else m) candidates (priority first))
    (fold_left (λ m c, if loadKnown c && (m <? WaitingCount (loadInfo c)) then WaitingCount (loadInfo c) else m) candidates 1)
    (lowest ttfts) (highest ttfts) (bool_decide (is_Some ttfts))
    (lowest resets) (highest resets) (bool_decide (is_Some resets)).

(** The sums of the load rates and of their squares, and their number. *)
Definition loadMoments (candidates : list advancedSchedulerCandidateScore) : float64 * float64 * Z :=
  fold_left (λ '(sum, squares, n) c,
    if loadKnown c then let rate := f64_of_Z (LoadRate (loadInfo c)) in
      (f64_add sum rate, f64_add squares (f64_mul rate rate), n + 1)
    else (sum, squares, n)) candidates (f64_zero, f64_zero, 0).

Definition candidateFactors (weights : GatewayAdvancedSchedulerScoreWeightsView) (r : advancedSchedulerScoreRanges)
    (quotaFactor : Account → Time → float64) (now : Time) (a : Account) (c : advancedSchedulerCandidateScore)
    : advancedSchedulerCandidateFactors :=
  let complement v := f64_sub f64_one (clamp01 v) in
  let between v lo hi := complement (f64_div (f64_sub v lo) (f64_sub hi lo)) in
  mkFactors
    (if MinPriority r <? MaxPriority r
     then f64_sub f64_one (f64_div (f64_of_Z (wrap64 (priority c - MinPriority r)))
                                   (f64_of_Z (wrap64 (MaxPriority r - MinPriority r))))
     else f64_one)
    (if loadKnown c then complement (f64_div (f64_of_Z (LoadRate (loadInfo c))) (f64_of_Z 100)) else f64_half)
    (if loadKnown c then complement (f64_div (f64_of_Z (WaitingCount (loadInfo c))) (f64_of_Z (MaxWaiting r))) else f64_half)
    (if hasFeedback c then complement (errorRate c) else f64_one)
    (if hasTTFT c && HasTTFTSample r && f64_gt (MaxTTFT r) (MinTTFT r) then between (ttft c) (MinTTFT r) (MaxTTFT r)
     else f64_half)
    (if f64_gt (wReset weights) f64_zero && HasResetSample r then
       match resetRemaining c now with
       | Some v => if f64_gt (MaxResetRemaining r) (MinResetRemaining r)
                   then between v (MinResetRemaining r) (MaxResetRemaining r) else f64_one
       | None => f64_half
       end
     else f64_half)
    (if f64_gt (wQuotaHeadroom weights) f64_zero then clamp01 (quotaFactor a now) else f64_half).

Definition weightedSum (w : GatewayAdvancedSchedulerScoreWeightsView) (f : advancedSchedulerCandidateFactors) : float64 :=
  fold_left f64_add
    [f64_mul (wLoad w) (facLoad f); f64_mul (wQueue w) (facQueue f); f64_mul (wErrorRate w) (facErrorRate f);
     f64_mul (wTTFT w) (facTTFT f); f64_mul (wReset w) (facReset f); f64_mul (wQuotaHeadroom w) (facQuotaHeadroom f)]
    (f64_mul (wPriority w) (facPriority f)).

(** The score of one candidate. *)
Definition scoreCandidate (weights : GatewayAdvancedSchedulerScoreWeightsView) (input : advancedSchedulerSelectionInput)
    (r : advancedSchedulerScoreRanges) (now : Time) (c : advancedSchedulerCandidateScore) : advancedSchedulerCandidateScore :=
  match account c with
  | None => c
  | Some a =>
      let quotaFactor := default (λ _ _, f64_half) (QuotaHeadroomFactor input) in
      let f := candidateFactors weights r quotaFactor now a c in
      let base := weightedSum weights f in
      let previous := StickyWeighted input && (0 <? StickyPreviousAccountID input) && (ID a =? StickyPreviousAccountID input) in
      let session := StickyWeighted input && (0 <? StickyAccountID input) && (ID a =? StickyAccountID input) in
      let bonus := if previous then f64_add f64_zero (wPrevious weights) else f64_zero in
      let bonus := if session then f64_add bonus (wSessionSticky weights) else bonus in
      mkCandidate (Some a) (loadInfo c) (loadKnown c) (f64_add base bonus) base bonus
        (if previous then wPrevious weights else f64_zero) (if session then wSessionSticky weights else f64_zero)
        (priority c) (errorRate c) (ttft c) (hasTTFT c) (hasFeedback c) (feedback c) f
  end.

Definition scoreAdvancedSchedulerCandidatesWithRanges (accounts : list (option Account)) (loadMap : gmap Z AccountLoadInfo)
    (stats : option advancedAccountRuntimeStats) (weights : GatewayAdvancedSchedulerScoreWeightsView)
    (input : advancedSchedulerSelectionInput) (now : Time)
    : list advancedSchedulerCandidateScore * float64 * advancedSchedulerScoreRanges :=
  let candidates := map (candidateOf loadMap stats) (omap id accounts) in
  match candidates with
  | [] => ([], f64_zero, mkRanges 0 0 0 f64_zero f64_zero false f64_zero f64_zero false)
  | first :: _ =>
      let r := scoreRanges weights first candidates now in
      let '(sum, squares, n) := loadMoments candidates in
      (map (scoreCandidate weights input r now) candidates, calcLoadSkewByMoments sum squares n, r)
  end.

Definition scoreAdvancedSchedulerCandidates (accounts : list (option Account)) (loadMap : gmap Z AccountLoadInfo)
    (stats : option advancedAccountRuntimeStats) (weights : GatewayAdvancedSchedulerScoreWeightsView)
    (input : advancedSchedulerSelectionInput) (now : Time) : list advancedSchedulerCandidateScore * float64 :=
  fst (scoreAdvancedSchedulerCandidatesWithRanges accounts loadMap stats weights input now).

(** ** Ranking *)

Definition isAdvancedSchedulerCandidateBetter (left_ right_ : advancedSchedulerCandidateScore) : bool :=
  match account left_, account right_ with
  | None, _ => false
  | Some _, None => true
  | Some l, Some r =>
      if f64_ne (score left_) (score right_) then f64_gt (score left_) (score right_)
      else if negb (Priority l =? Priority r) then Priority l <? Priority r
      else ID l <? ID r
  end.

(** [Less] of the heap: the root is the worst candidate. *)
Definition worse (a b : advancedSchedulerCandidateScore) : bool := isAdvancedSchedulerCandidateBetter b a.

(** The inner loop of the insertion sort: [x] moves towards the front of the
    sorted prefix (here reversed) while it is better than its neighbour. *)
Fixpoint sink (x : advancedSchedulerCandidateScore) (reversed : list advancedSchedulerCandidateScore)
    : list advancedSchedulerCandidateScore :=
  match reversed with
  | [] => [x]
  | y :: rest => if isAdvancedSchedulerCandidateBetter x y then y :: sink x rest else x :: reversed
  end.

Definition sortAdvancedSchedulerCandidates (candidates : list advancedSchedulerCandidateScore)
    : list advancedSchedulerCandidateScore :=
  reverse (fold_left (λ acc x, sink x acc) candidates []).

(** One candidate of the online selection. *)
Definition offer (topK : Z) (best : list advancedSchedulerCandidateScore) (candidate : advancedSchedulerCandidateScore)
    : list advancedSchedulerCandidateScore :=
  if Z.of_nat (length best) <? topK then Push worse best candidate
  else match best with
       | root :: _ => if isAdvancedSchedulerCandidateBetter candidate root
                      then Fix worse (<[0%nat := candidate]> best) 0 else best
       | [] => best
       end.

Definition selectTopKAdvancedSchedulerCandidates (candidates : list advancedSchedulerCandidateScore) (topK : Z)
    : list advancedSchedulerCandidateScore :=
  if bool_decide (candidates = []) then [] else
  let topK := if topK <=? 0 then 1 else topK in
  if Z.of_nat (length candidates) <=? topK then sortAdvancedSchedulerCandidates candidates
  else sortAdvancedSchedulerCandidates (fold_left (offer topK) candidates []).

(** ** Weighted order *)

(** [advancedSchedulerRNG]: its state. *)
Definition advancedSchedulerRNG := Z.

Definition rngDefaultSeed : Z := 11400714819323198485. (* 0x9e3779b97f4a7c15 *)

Definition newAdvancedSchedulerRNG (seed : Z) : advancedSchedulerRNG := if seed =? 0 then rngDefaultSeed else seed.

(** xorshift64*: the new state, and the number. *)
Definition nextUint64 (state : advancedSchedulerRNG) : advancedSchedulerRNG * Z :=
  let x := state in
  let x := Z.lxor x (Z.shiftr x 12) in
  let x := Z.lxor x (wrapU64 (Z.shiftl x 25)) in
  let x := Z.lxor x (Z.shiftr x 27) in
  (x, wrapU64 (x * 2685821657736338717)).

Definition nextFloat64 (state : advancedSchedulerRNG) : advancedSchedulerRNG * float64 :=
  let '(state, u) := nextUint64 state in (state, f64_div (f64_of_Z (Z.shiftr u 11)) (f64_of_Z (2 ^ 53))).

(** FNV-1a, 64 bits ([hash/fnv.New64a]). *)
Definition fnv64aOffset : Z := 14695981039346656037.
Definition fnv64aWrite (hash : Z) (s : string) : Z :=
  foldl (λ h a, wrapU64 (Z.lxor h (Z.of_N (byteOf a)) * 1099511628211)) hash (String.list_ascii_of_string s).

(** [nano1] and [nano2] are the two readings of the clock. *)
Definition deriveAdvancedSchedulerSelectionSeed (input : advancedSchedulerSelectionInput) (nano1 nano2 : Z) : Z :=
  let writeValue hash value :=
    let trimmed := TrimSpace value in
    if eqs trimmed "" then hash else fnv64aWrite (fnv64aWrite hash trimmed) (String "000"%char EmptyString) in
  let hash := writeValue (writeValue (writeValue fnv64aOffset (SessionHash input)) (PreviousResponseID input))
                (RequestedModel input) in
  let seed := match GroupID input with Some g => fnv64aWrite hash (Itoa g) | None => hash end in
  let seed := if eqs (TrimSpace (SessionHash input)) "" && eqs (TrimSpace (PreviousResponseID input)) ""
              then Z.lxor seed (wrapU64 nano1) else seed in
  if seed =? 0 then Z.lxor (wrapU64 nano2) rngDefaultSeed else seed.

Definition weightOf (minScore s : float64) : float64 :=
  let weight := f64_add (f64_sub s minScore) f64_one in
  if f64_isNaN weight || f64_isInf weight || f64_le weight f64_zero then f64_one else weight.

(** The first index whose accumulated weight reaches [random]; 0 if none does. *)
Fixpoint scan (random accumulated : float64) (i : nat) (weights : list float64) : nat :=
  match weights with
  | [] => 0
  | w :: rest => let accumulated := f64_add accumulated w in
                 if f64_le random accumulated then i else scan random accumulated (S i) rest
  end.

Definition pick (rng : advancedSchedulerRNG) (weights : list float64) : advancedSchedulerRNG * nat :=
  let total := fold_left f64_add weights f64_zero in
  if f64_gt total f64_zero then
    let '(rng, u) := nextFloat64 rng in (rng, scan (f64_mul u total) f64_zero 0 weights)
  else
    let '(rng, u) := nextUint64 rng in (rng, Z.to_nat (u mod Z.of_nat (length weights))).

(** The loop draws until the pool is empty; the fuel is its length. *)
Fixpoint draw (fuel : nat) (rng : advancedSchedulerRNG) (pool : list advancedSchedulerCandidateScore)
    (weights : list float64) : list advancedSchedulerCandidateScore :=
  match fuel with
  | O => []
  | S fuel =>
      let '(rng, selectedIdx) := pick rng weights in
      match pool !! selectedIdx with
      | Some c => c :: draw fuel rng (delete selectedIdx pool) (delete selectedIdx weights)
      | None => []
      end
  end.

Definition buildAdvancedWeightedSelectionOrder (candidates : list advancedSchedulerCandidateScore)
    (input : advancedSchedulerSelectionInput) (nano1 nano2 : Z) : list advancedSchedulerCandidateScore :=
  match candidates with
  | [] | [_] => candidates
  | first :: rest =>
      let minScore := fold_left (λ m c, if f64_lt (score c) m then score c else m) rest (score first) in
      let weights := map (λ c, weightOf minScore (score c)) candidates in
      draw (length candidates) (newAdvancedSchedulerRNG (deriveAdvancedSchedulerSelectionSeed input nano1 nano2))
        candidates weights
  end.

Definition buildAdvancedSchedulerSelectionOrder (candidates : list advancedSchedulerCandidateScore)
    (input : advancedSchedulerSelectionInput) (nano1 nano2 : Z) : list advancedSchedulerCandidateScore :=
  if bool_decide (candidates = []) then [] else
  let topK := if TopK input <=? 0 then 1 else TopK input in
  buildAdvancedWeightedSelectionOrder (selectTopKAdvancedSchedulerCandidates candidates topK) input nano1 nano2.

(** ** The snapshot of the scores *)

Record AdvancedAccountSchedulerScoreSnapshot := mkScoreSnapshot {
  BaseScore : float64;
  StickyScore : float64;
  StickyScoreInfinity : bool;
  StickyWeightedEnabled : bool;
}.

(** [groupPlatform] is the platform of the group, if there is one. *)
Definition buildAdvancedAccountSchedulerScoreSnapshot (accounts : list (option Account)) (loadMap : gmap Z AccountLoadInfo)
    (stats : option advancedAccountRuntimeStats) (groupPlatform : option string)
    (weights : GatewayAdvancedSchedulerScoreWeightsView) (stickyWeightedEnabled : bool)
    (quotaHeadroomFactor : option (Account → Time → float64)) (now : Time) : gmap Z AdvancedAccountSchedulerScoreSnapshot :=
  let input := mkInput None "" "" "" 0 0 false 0 quotaHeadroomFactor in
  fold_left (λ m c,
    match account c with
    | Some a =>
        let platform := match groupPlatform with
                        | Some p => if eqs (TrimSpace p) "" then Platform a else p
                        | None => Platform a
                        end in
        let sticky := f64_add (score c) (wSessionSticky weights) in
        let sticky := if eqs platform PlatformOpenAI then f64_add sticky (wPrevious weights) else sticky in
        <[ID a := mkScoreSnapshot (score c) (if stickyWeightedEnabled then sticky else f64_zero)
                    (negb stickyWeightedEnabled) stickyWeightedEnabled]> m
    | None => m
    end) (fst (scoreAdvancedSchedulerCandidates accounts loadMap stats weights input now)) ∅.

(** ** The order of the candidates *)

(** The order of floats that are not NaN, as a lexicographic order of integers. *)
Definition floatKey (x : float64) : Z * Z * Z :=
  match x with
  | S754_nan | S754_zero _ => (0, 0, 0)
  | S754_infinity s => (if s then -2 else 2, 0, 0)
  | S754_finite s m e => if s then (-1, - e, Z.neg m) else (1, e, Z.pos m)
  end.

Definition keyLt (a b : Z * Z * Z) : Prop :=
  let '(a1, a2, a3) := a in let '(b1, b2, b3) := b in
  a1 < b1 ∨ a1 = b1 ∧ (a2 < b2 ∨ a2 = b2 ∧ a3 < b3).

(** A candidate as the scheduler ranks it: it has an account, and a score. *)
Definition ranked (c : advancedSchedulerCandidateScore) : Prop :=
  is_Some (account c) ∧ f64_isNaN (score c) = false.

Definition candidateID (c : advancedSchedulerCandidateScore) : Z := default 0 (ID <$> account c).
Definition candidatePriority (c : advancedSchedulerCandidateScore) : Z := default 0 (Priority <$> account c).

Definition beats (a b : advancedSchedulerCandidateScore) : Prop := isAdvancedSchedulerCandidateBetter a b = true.

Lemma compare_key x y :
  f64_isNaN x = false → f64_isNaN y = false →
  (SFcompare x y = Some Lt ∧ keyLt (floatKey x) (floatKey y)) ∨
  (SFcompare x y = Some Gt ∧ keyLt (floatKey y) (floatKey x)) ∨
  (SFcompare x y = Some Eq ∧ floatKey x = floatKey y).
Proof.
  intros Hx Hy.
  destruct x as [[]|[]| |[] m e], y as [[]|[]| |[] m' e']; try done; simpl;
    try (left; split; [done|lia]); try (right; left; split; [done|lia]); try (right; right; done);
    change (Pos.compare_cont Eq m m') with (m ?= m')%positive;
    destruct (Z.compare_spec e e') as [He|He|He]; try (destruct (Pos.compare_spec m m') as [Hm|Hm|Hm]); simpl;
    first [ left; split; [done|lia] | right; left; split; [done|lia] | right; right; split; [done|by subst] ].
Qed.

(** Descending scores, then ascending priorities, then ascending identifiers. *)
Lemma beats_spec a b :
  ranked a → ranked b →
  beats a b ↔ keyLt (floatKey (score b)) (floatKey (score a)) ∨ floatKey (score a) = floatKey (score b) ∧
    (candidatePriority a < candidatePriority b ∨ candidatePriority a = candidatePriority b ∧ candidateID a < candidateID b).
Proof.
  intros [[x Ex] Ha] [[y Ey] Hb]. unfold beats, isAdvancedSchedulerCandidateBetter, candidatePriority, candidateID.
  rewrite Ex, Ey. cbn [fmap option_fmap option_map default from_option id]. unfold f64_ne, f64_eq, f64_gt, SFeqb, SFltb.
  destruct (compare_key _ _ Ha Hb) as [[E K]|[[E K]|[E K]]]; rewrite (f64_compare_flip _ _ _ E), E; cbn [negb CompOpp].
  - split; [done|]. destruct (floatKey (score a)) as [[? ?] ?], (floatKey (score b)) as [[? ?] ?]. cbn in *.
    intros [?|[[= -> -> ->] _]]; lia.
  - split; [intros _; by left | done].
  - rewrite K. destruct (floatKey (score b)) as [[? ?] ?]. cbn. destruct (Z.eqb_spec (Priority x) (Priority y)); cbn;
      split; intros H; zbool; try blia; right; split; (done || lia).
Qed.

Lemma better_irrefl a : isAdvancedSchedulerCandidateBetter a a = false.
Proof.
  unfold isAdvancedSchedulerCandidateBetter. destruct (account a); [|done].
  destruct (f64_ne _ _); [apply f64_lt_irrefl|]. rewrite Z.eqb_refl. apply Z.ltb_irrefl.
Qed.

Lemma f64_eq_comm x y : f64_eq x y = f64_eq y x.
Proof.
  unfold f64_eq, SFeqb. destruct (SFcompare x y) as [c|] eqn:E; [rewrite (f64_compare_flip _ _ _ E); by destruct c|].
  destruct (SFcompare y x) as [c|] eqn:E'; [|done]. by rewrite (f64_compare_flip _ _ _ E') in E.
Qed.

Lemma better_asym a b : isAdvancedSchedulerCandidateBetter a b = true → isAdvancedSchedulerCandidateBetter b a = false.
Proof.
  unfold isAdvancedSchedulerCandidateBetter. destruct (account a) as [x|], (account b) as [y|]; try done.
  unfold f64_ne. rewrite (f64_eq_comm (score b)). destruct (f64_eq _ _); cbn [negb]; [|apply f64_lt_asym].
  rewrite (Z.eqb_sym (Priority y)). destruct (Z.eqb_spec (Priority x) (Priority y)); cbn [negb]; intros ?; blia.
Qed.

(** Arithmetic on the keys of two or three candidates. *)
Ltac by_keys :=
  repeat match goal with H : ¬ beats _ _ |- _ => rewrite beats_spec in H by done
                       | H : beats _ _ |- _ => rewrite beats_spec in H by done end;
  try rewrite beats_spec by done;
  repeat match goal with |- context [floatKey ?s] => destruct (floatKey s) as [[? ?] ?]
                       | H : context [floatKey ?s] |- _ => destruct (floatKey s) as [[? ?] ?] end;
  unfold keyLt in *; repeat rewrite pair_equal_spec in *; lia.

Lemma beats_trans a b c : ranked a → ranked b → ranked c → beats a b → beats b c → beats a c.
Proof. intros. by_keys. Qed.

Lemma beats_total a b : ranked a → ranked b → candidateID a ≠ candidateID b → ¬ beats a b → beats b a.
Proof. intros. by_keys. Qed.

Lemma not_beats_trans a b c : ranked a → ranked b → ranked c → ¬ beats b a → ¬ beats c b → ¬ beats c a.
Proof. intros ? ? ? ? ? ?. by_keys. Qed.

(** *** The insertion sort *)

(** A list that is ranked, with distinct accounts. *)
Definition distinctRanked (l : list advancedSchedulerCandidateScore) : Prop :=
  Forall ranked l ∧ NoDup (candidateID <$> l).

#[global] Instance distinctRanked_perm : Proper (Permutation ==> iff) distinctRanked.
Proof. intros l l' Hl. unfold distinctRanked. by rewrite Hl. Qed.

Lemma distinctRanked_app l l' : distinctRanked (l ++ l') → distinctRanked l ∧ distinctRanked l'.
Proof. unfold distinctRanked. rewrite Forall_app, fmap_app, NoDup_app. naive_solver. Qed.

Lemma distinctRanked_total l i j a b :
  distinctRanked l → l !! i = Some a → l !! j = Some b → i ≠ j → ¬ beats a b → beats b a.
Proof.
  intros [Hr Hn] Ha Hb Hij. apply beats_total; [by eapply Forall_lookup_1..|]. intros E. apply Hij.
  apply (NoDup_lookup _ i j (candidateID a) Hn); rewrite list_lookup_fmap, ?Ha, ?Hb; [done | by rewrite E].
Qed.

Lemma distinctRanked_cons_total l a b : distinctRanked (a :: l) → b ∈ l → ¬ beats a b → beats b a.
Proof. intros Hd [j Hj]%list_elem_of_lookup_1. by apply (distinctRanked_total (a :: l) 0 (S j)). Qed.

Lemma sink_perm x l : sink x l ≡ₚ x :: l.
Proof.
  induction l as [|y l IH]; cbn [sink]; [done|]. destruct (isAdvancedSchedulerCandidateBetter x y); [|done].
  rewrite IH. apply Permutation_swap.
Qed.

Lemma sortAdvancedSchedulerCandidates_perm l : sortAdvancedSchedulerCandidates l ≡ₚ l.
Proof.
  unfold sortAdvancedSchedulerCandidates. rewrite reverse_Permutation.
  enough (∀ acc, fold_left (λ acc x, sink x acc) l acc ≡ₚ acc ++ l) as H by apply (H []).
  induction l as [|x l IH]; intros acc; cbn [fold_left]; [by rewrite app_nil_r|].
  rewrite IH, sink_perm. apply Permutation_middle.
Qed.

Abbreviation worstFirst := (StronglySorted (λ a b, beats b a)).

Lemma sink_sorted x l : distinctRanked (x :: l) → worstFirst l → worstFirst (sink x l).
Proof.
  induction l as [|y l IH]; cbn [sink]; intros Hd Hs; [by repeat constructor|].
  apply StronglySorted_inv in Hs as [Hs Hy]. destruct (isAdvancedSchedulerCandidateBetter x y) eqn:E.
  - constructor.
    + apply IH; [|done]. by rewrite Permutation_swap in Hd; apply (distinctRanked_app [y]) in Hd as [_ ?].
    + rewrite sink_perm. by constructor.
  - assert (Hyx : beats y x).
    { apply (distinctRanked_cons_total (y :: l)); [done | by left | unfold beats; congruence]. }
    destruct Hd as [[Hx [Hry Hrl]%Forall_cons]%Forall_cons _].
    constructor; [by constructor|]. constructor; [done|]. rewrite Forall_forall in Hy, Hrl |- *. intros z Hz.
    apply beats_trans with y; auto.
Qed.

Lemma StronglySorted_reverse {A} (R : relation A) (l : list A) :
  StronglySorted (flip R) l → StronglySorted R (reverse l).
Proof.
  induction 1 as [|x l Hs IH Hx]; [constructor|]. rewrite reverse_cons. apply StronglySorted_app_2; [|done | by repeat constructor].
  intros a b Ha Hb%list_elem_of_singleton. subst b. rewrite Forall_forall in Hx. apply Hx. by apply elem_of_reverse.
Qed.

Lemma sortAdvancedSchedulerCandidates_sorted l :
  distinctRanked l → StronglySorted beats (sortAdvancedSchedulerCandidates l).
Proof.
  intros Hd. apply StronglySorted_reverse.
  enough (∀ acc, distinctRanked (acc ++ l) → worstFirst acc → worstFirst (fold_left (λ acc x, sink x acc) l acc)) as H
    by (apply H; [done | constructor]).
  clear Hd. induction l as [|x l IH]; intros acc Hd Hs; cbn [fold_left]; [done|].
  rewrite <- Permutation_middle in Hd. apply IH; [by rewrite sink_perm|].
  apply sink_sorted; [|done]. by apply (distinctRanked_app (x :: acc)) in Hd as [? _].
Qed.

(** The better part of a list, sorted, is a prefix of the sorted list. *)
Lemma sort_prefix best rest l :
  best ++ rest ≡ₚ l → distinctRanked l → (∀ b r, b ∈ best → r ∈ rest → beats b r) →
  sortAdvancedSchedulerCandidates best = take (length best) (sortAdvancedSchedulerCandidates l).
Proof.
  intros Hp Hd Hbr. pose proof Hd as Hd'. rewrite <- Hp in Hd'. apply distinctRanked_app in Hd' as [Hb Hr].
  enough (sortAdvancedSchedulerCandidates l = sortAdvancedSchedulerCandidates best ++ sortAdvancedSchedulerCandidates rest) as ->.
  { rewrite take_app_length'; [done|]. by rewrite sortAdvancedSchedulerCandidates_perm. }
  apply (StronglySorted_unique_strong beats).
  - intros x y _ _ H1%better_asym H2. unfold beats in *. congruence.
  - by apply sortAdvancedSchedulerCandidates_sorted.
  - apply StronglySorted_app_2; [|by apply sortAdvancedSchedulerCandidates_sorted..].
    intros x y. rewrite !sortAdvancedSchedulerCandidates_perm. apply Hbr.
  - by rewrite !sortAdvancedSchedulerCandidates_perm, Hp.
Qed.

(** *** The online selection *)

(** What the heap holds after the candidates [seen]: the best of them. *)
Definition bestOf (k : nat) (seen best : list advancedSchedulerCandidateScore) : Prop :=
  isHeap worse best ∧ length best = Nat.min k (length seen) ∧
  ∃ rest, best ++ rest ≡ₚ seen ∧ ∀ b r, b ∈ best → r ∈ rest → beats b r.

Lemma worse_trans a b c : ranked a → ranked b → ranked c → worse a b = false → worse b c = false → worse a c = false.
Proof.
  intros Ha Hb Hc H1 H2. apply not_true_iff_false. apply (not_beats_trans a b c Ha Hb Hc); unfold beats; by rewrite not_true_iff_false.
Qed.

Lemma bestOf_root k seen root best :
  distinctRanked seen → bestOf k seen (root :: best) → ∀ b, b ∈ best → beats b root.
Proof.
  intros Hd (Hh & _ & rest & Hp & _) b Hb. rewrite <- Hp in Hd. apply distinctRanked_app in Hd as [Hd _].
  apply (distinctRanked_cons_total best); [done..|]. apply list_elem_of_lookup_1 in Hb as [i Hi].
  pose proof (isHeap_root worse ranked better_irrefl worse_trans (root :: best) (S i) root b (proj1 Hd) Hh eq_refl Hi).
  unfold worse, beats in *. congruence.
Qed.

Lemma offer_push k seen best x :
  (length best < k)%nat → distinctRanked (x :: seen) → bestOf k seen best → bestOf k (x :: seen) (Push worse best x).
Proof.
  intros Hk Hd (Hh & Hl & rest & Hp & _). pose proof (Permutation_length Hp) as Hpl. rewrite length_app in Hpl.
  destruct rest as [|? ?]; cbn in Hpl; [|lia]. rewrite app_nil_r in Hp. split; [|split].
  - apply (Push_heap worse ranked (λ a b, better_asym b a) worse_trans); [|done].
    rewrite Hp. apply Hd.
  - rewrite Push_perm. cbn. lia.
  - exists []. split; [by rewrite app_nil_r, Push_perm, Hp | intros ? ? _ []%not_elem_of_nil].
Qed.

Lemma offer_replace k seen root best x :
  k = S (length best) → distinctRanked (x :: seen) → bestOf k seen (root :: best) → beats x root →
  bestOf k (x :: seen) (Fix worse (x :: best) 0).
Proof.
  intros Hk Hd Hbest Hx. pose proof Hd as Hd'. apply (distinctRanked_app [x]) in Hd' as [_ Hd'].
  pose proof (bestOf_root _ _ _ _ Hd' Hbest) as Hroot. destruct Hbest as (Hh & Hl & rest & Hp & Hbr).
  destruct Hd as [Hr _]. rewrite <- Hp in Hr. apply Forall_cons in Hr as [Hrx Hr]. split; [|split].
  - apply (Fix_heap worse ranked better_irrefl (λ a b, better_asym b a) worse_trans (root :: best) x Hrx); [|done | cbn; lia].
    by apply Forall_app in Hr as [? _].
  - rewrite Fix_perm. cbn in *. lia.
  - exists (root :: rest). split; [rewrite Fix_perm, <- Hp; cbn; by rewrite <- Permutation_middle, Permutation_swap|].
    assert (Hranked : ∀ c, c ∈ (root :: best) ++ rest → ranked c) by by apply Forall_forall.
    intros b r. rewrite Fix_perm, !elem_of_cons. intros [->|Hb] [->|Hr']; [done | | by apply Hroot | by apply Hbr; [right|]].
    apply beats_trans with root; [done | set_solver | set_solver | done | by apply Hbr; [left|]].
Qed.

Lemma offer_skip k seen root best x :
  k = S (length best) → distinctRanked (x :: seen) → bestOf k seen (root :: best) → ¬ beats x root →
  bestOf k (x :: seen) (root :: best).
Proof.
  intros Hk Hd Hbest Hx. pose proof Hd as Hd'. apply (distinctRanked_app [x]) in Hd' as [_ Hd'].
  pose proof (bestOf_root _ _ _ _ Hd' Hbest) as Hroot. destruct Hbest as (Hh & Hl & rest & Hp & Hbr).
  assert (Hrx : beats root x).
  { apply (distinctRanked_cons_total seen); [done | | done]. rewrite <- Hp. by left. }
  split; [done|]. split; [cbn in *; lia|]. exists (x :: rest). split; [by rewrite <- Permutation_middle, Hp|].
  assert (Hranked : ∀ c, c ∈ x :: (root :: best) ++ rest → ranked c).
  { apply Forall_forall. destruct Hd as [Hd _]. by rewrite Hp. }
  intros b r Hb. rewrite elem_of_cons. intros [->|Hr']; [|by apply Hbr]. apply elem_of_cons in Hb as [->|Hb]; [done|].
  apply beats_trans with root; [set_solver.. | by apply Hroot | done].
Qed.

Lemma offer_best k seen best x :
  0 < k → distinctRanked (x :: seen) → bestOf (Z.to_nat k) seen best → bestOf (Z.to_nat k) (x :: seen) (offer k best x).
Proof.
  intros Hk Hd Hb. unfold offer. destruct (Z.of_nat (length best) <? k) eqn:E; zbool; [apply offer_push; [lia|done..]|].
  destruct best as [|root best]; [cbn in E; lia|].
  assert (Z.to_nat k = S (length best)) as Hl by (destruct Hb as (_ & Hl & _); cbn in *; lia).
  destruct (isAdvancedSchedulerCandidateBetter x root) eqn:Ex; [by apply (offer_replace _ _ root best)|].
  apply offer_skip; [done..|]. unfold beats. by rewrite Ex.
Qed.

Lemma offers_best k l :
  0 < k → distinctRanked l → bestOf (Z.to_nat k) l (fold_left (offer k) l []).
Proof.
  intros Hk Hd.
  enough (∀ seen best, distinctRanked (seen ++ l) → bestOf (Z.to_nat k) seen best →
            bestOf (Z.to_nat k) (reverse l ++ seen) (fold_left (offer k) l best)) as H.
  { specialize (H [] [] Hd). rewrite app_nil_r in H. destruct H as (H1 & H2 & rest & H3 & H4).
    - split; [intros k' ?; cbn in *; lia|]. split; [cbn; lia|]. exists []. split; [done | by intros ? ? ?%not_elem_of_nil].
    - split; [done|]. rewrite length_reverse in H2. split; [done|]. exists rest. by rewrite H3, reverse_Permutation. }
  clear Hd. induction l as [|x l IH]; intros seen best Hd Hb; cbn [fold_left]; [done|].
  rewrite <- Permutation_middle in Hd. rewrite reverse_cons, <- app_assoc. apply IH; [done|].
  apply offer_best; [done | by apply (distinctRanked_app (x :: seen)) in Hd as [? _] | done].
Qed.

(** The online selection with a heap against sorting everything. *)
Lemma selectTopK_prefix l k :
  distinctRanked l →
  selectTopKAdvancedSchedulerCandidates l k = take (Z.to_nat (Z.max 1 k)) (sortAdvancedSchedulerCandidates l).
Proof.
  intros Hd. unfold selectTopKAdvancedSchedulerCandidates. destruct (bool_decide _) eqn:E; zbool.
  { subst l. by destruct (Z.to_nat _). }
  set (topK := if k <=? 0 then 1 else k). assert (Z.max 1 k = topK ∧ 0 < topK) as [-> Hk] by (unfold topK; case_match; zbool; lia).
  pose proof (Permutation_length (sortAdvancedSchedulerCandidates_perm l)) as Hl.
  destruct (Z.of_nat (length l) <=? topK) eqn:E'; zbool; [by rewrite take_ge by lia|].
  destruct (offers_best topK l Hk Hd) as (_ & Hn & rest & Hp & Hb).
  rewrite (sort_prefix _ rest l Hp Hd Hb), Hn. f_equal. lia.
Qed.

(** *** The draw *)

Lemma scan_bound r a i ws : ws ≠ [] → (scan r a i ws < i + length ws)%nat.
Proof.
  intros Hn. enough (scan r a i ws = 0 ∨ i ≤ scan r a i ws < i + length ws)%nat as H by (destruct ws; cbn [length] in *; [done|lia]).
  clear Hn. revert a i. induction ws as [|w ws IH]; intros a i; cbn; [by left|].
  destruct (f64_le _ _); [right; lia|]. destruct (IH (f64_add a w) (S i)); [by left | right; lia].
Qed.

Lemma pick_bound rng ws : ws ≠ [] → (snd (pick rng ws) < length ws)%nat.
Proof.
  intros Hn. unfold pick. assert (0 < length ws)%nat by (destruct ws; [done|cbn; lia]).
  destruct (f64_gt _ _).
  - destruct (nextFloat64 rng). by apply (scan_bound _ _ 0).
  - destruct (nextUint64 rng) as [? u]. cbn [snd]. pose proof (Z.mod_pos_bound u (Z.of_nat (length ws))). lia.
Qed.

(** Every candidate of the pool is drawn once. *)
Lemma draw_perm fuel rng pool ws : length ws = length pool → fuel = length pool → draw fuel rng pool ws ≡ₚ pool.
Proof.
  revert rng pool ws. induction fuel as [|fuel IH]; intros rng pool ws Hl Hf; cbn [draw].
  { by destruct pool. }
  assert (ws ≠ []) as Hn by (intros ->; cbn in *; lia). pose proof (pick_bound rng ws Hn) as Hb.
  destruct (pick rng ws) as [rng' i]. cbn [snd] in Hb. destruct (lookup_lt_is_Some_2 pool i) as [c Hc]; [lia|]. rewrite Hc.
  pose proof (delete_Permutation pool i c Hc) as Hp. pose proof (Permutation_length Hp) as Hpl. cbn [length] in Hpl.
  rewrite IH; [by rewrite <- Hp | | lia].
  destruct (lookup_lt_is_Some_2 ws i) as [w Hw]; [lia|].
  pose proof (Permutation_length (delete_Permutation ws i w Hw)) as Hwl. cbn [length] in Hwl. lia.
Qed.

Lemma buildAdvancedWeightedSelectionOrder_perm l input n1 n2 : buildAdvancedWeightedSelectionOrder l input n1 n2 ≡ₚ l.
Proof. destruct l as [|a [|b l]]; [done..|]. by apply draw_perm; rewrite ?length_map. Qed.

(** *** Whatever the scores are *)

Lemma offer_perm k best x : 0 < k → ∃ rest, offer k best x ++ rest ≡ₚ x :: best ∧
  length (offer k best x) = Nat.max (Nat.min (Z.to_nat k) (S (length best))) (length best).
Proof.
  intros Hk. unfold offer. destruct (Z.of_nat (length best) <? k) eqn:E; zbool.
  { exists []. rewrite app_nil_r, Push_perm. split; [done|]. cbn. lia. }
  destruct best as [|root best]; [cbn in E; lia|]. destruct (isAdvancedSchedulerCandidateBetter x root); cbn [length] in *.
  - exists [root]. rewrite Fix_perm. split; [|cbn; lia]. cbn. rewrite <- Permutation_cons_append. by rewrite Permutation_swap.
  - exists [x]. split; [|cbn; lia]. by rewrite <- Permutation_cons_append.
Qed.

Lemma selectTopK_submseteq l k :
  selectTopKAdvancedSchedulerCandidates l k ⊆+ l ∧
  length (selectTopKAdvancedSchedulerCandidates l k) = Nat.min (Z.to_nat (Z.max 1 k)) (length l).
Proof.
  unfold selectTopKAdvancedSchedulerCandidates. destruct (bool_decide _) eqn:E; zbool; [subst l; split; [done|cbn; lia]|].
  set (topK := if k <=? 0 then 1 else k). assert (Z.max 1 k = topK ∧ 0 < topK) as [-> Hk] by (unfold topK; case_match; zbool; lia).
  destruct (Z.of_nat (length l) <=? topK) eqn:E'; zbool; rewrite sortAdvancedSchedulerCandidates_perm; [split; [done|lia]|].
  enough (∀ best, (length best <= Z.to_nat topK)%nat →
            fold_left (offer topK) l best ⊆+ best ++ l ∧
            length (fold_left (offer topK) l best) = Nat.min (Z.to_nat topK) (length best + length l)) as H by (apply (H []); cbn; lia).
  clear E E'. induction l as [|x l IH]; intros best Hb; cbn [fold_left]; [rewrite app_nil_r; split; [done|cbn; lia]|].
  destruct (offer_perm topK best x Hk) as (rest & Hp & Hl). destruct (IH (offer topK best x) ltac:(lia)) as [IH1 IH2]. split.
  - transitivity ((offer topK best x ++ rest) ++ l).
    + etransitivity; [apply IH1|]. apply submseteq_app; [by apply submseteq_inserts_r | done].
    + rewrite Hp. cbn. by rewrite Permutation_middle.
  - rewrite IH2, Hl. cbn [length]. lia.
Qed.

Lemma scored_accounts accounts loadMap stats weights input now :
  account <$> fst (scoreAdvancedSchedulerCandidates accounts loadMap stats weights input now) = Some <$> omap id accounts.
Proof.
  unfold scoreAdvancedSchedulerCandidates, scoreAdvancedSchedulerCandidatesWithRanges.
  assert (account <$> map (candidateOf loadMap stats) (omap id accounts) = Some <$> omap id accounts) as H.
  { unfold fmap. rewrite <- list_fmap_compose. by apply list_fmap_ext. }
  destruct (map _ _) as [|first l] eqn:E; [done|]. destruct (loadMoments _) as [[? ?] ?]. cbn [fst]. rewrite <- H.
  rewrite <- list_fmap_compose. apply list_fmap_ext. intros i c _. unfold scoreCandidate. cbn. by destruct (account c) eqn:Ea.
Qed.

Lemma scored_ids accounts loadMap stats weights input now :
  candidateID <$> fst (scoreAdvancedSchedulerCandidates accounts loadMap stats weights input now) = ID <$> omap id accounts.
Proof.
  transitivity (default 0 ∘ fmap ID <$> (account <$> fst (scoreAdvancedSchedulerCandidates accounts loadMap stats weights input now))).
  - by rewrite <- list_fmap_compose.
  - rewrite scored_accounts, <- list_fmap_compose. by apply list_fmap_ext.
Qed.

(** ** The properties *)

(** C33: The heap-based selection agrees with sorting all candidates: for
    candidates of distinct accounts with comparable scores, the sort is a
    strictly ordered permutation of them (descending score, then priority, then
    identifier), the best [K] are exactly its first [max 1 K] elements, and the
    order of the tries is a permutation of those, whatever the seed. *)
Theorem selection_order_is_best (candidates : list advancedSchedulerCandidateScore) (input : advancedSchedulerSelectionInput)
    (nano1 nano2 : Z) (Hranked : Forall ranked candidates) (Hids : NoDup (candidateID <$> candidates)) :
  let sorted := sortAdvancedSchedulerCandidates candidates in
  let best := take (Z.to_nat (Z.max 1 (TopK input))) sorted in
  sorted ≡ₚ candidates ∧ StronglySorted beats sorted ∧
  selectTopKAdvancedSchedulerCandidates candidates (TopK input) = best ∧
  buildAdvancedSchedulerSelectionOrder candidates input nano1 nano2 ≡ₚ best.
Proof.
  assert (distinctRanked candidates) as Hd by done. cbv zeta.
  split; [apply sortAdvancedSchedulerCandidates_perm|]. split; [by apply sortAdvancedSchedulerCandidates_sorted|].
  split; [by apply selectTopK_prefix|].
  unfold buildAdvancedSchedulerSelectionOrder. destruct (bool_decide _) eqn:E; zbool; [subst; by destruct (Z.to_nat _)|].
  rewrite buildAdvancedWeightedSelectionOrder_perm, selectTopK_prefix by done.
  by replace (Z.max 1 (if TopK input <=? 0 then 1 else TopK input)) with (Z.max 1 (TopK input)) by (case_match; zbool; lia).
Qed.

(** Five accounts, two with equal scores. *)
Definition candidateAt (id prio points : Z) : advancedSchedulerCandidateScore :=
  mkCandidate (Some (mkAccount id PlatformOpenAI AccountTypeOAuth None None prio None)) (mkLoadInfo id 0 0 0) false
    (f64_of_Z points) f64_zero f64_zero f64_zero f64_zero prio f64_zero f64_zero false false noSnapshot noFactors.
Definition fiveCandidates : list advancedSchedulerCandidateScore :=
  [candidateAt 11 2 3; candidateAt 12 1 5; candidateAt 13 1 3; candidateAt 14 1 1; candidateAt 15 1 4].
Definition topThree : advancedSchedulerSelectionInput := mkInput None "session" "" "gpt" 0 0 false 3 None.

Lemma selection_order_is_best_witness :
  candidateID <$> sortAdvancedSchedulerCandidates fiveCandidates = [12; 15; 13; 11; 14] ∧
  buildAdvancedSchedulerSelectionOrder fiveCandidates topThree 0 0 ≡ₚ [candidateAt 12 1 5; candidateAt 15 1 4; candidateAt 13 1 3].
Proof.
  split; [vm_compute; reflexivity|].
  assert (Hr : Forall ranked fiveCandidates) by (repeat constructor; by eexists).
  assert (Hn : NoDup (candidateID <$> fiveCandidates)) by (apply (bool_decide_unpack _); vm_compute; exact I).
  destruct (selection_order_is_best fiveCandidates topThree 0 0 Hr Hn) as (_ & _ & _ & H).
  etransitivity; [exact H|]. vm_compute. reflexivity.
Defined.

(** Scoring and ordering the accounts of a pool, the scheduler tries
    [max 1 TopK] of them, or all if there are fewer; each account is tried at
    most once and is one of the pool.  This holds for every load, feedback,
    weight, seed and score, infinities and NaN included. *)
Theorem selection_order_distinct (accounts : list (option Account)) (loadMap : gmap Z AccountLoadInfo)
    (stats : option advancedAccountRuntimeStats) (weights : GatewayAdvancedSchedulerScoreWeightsView)
    (input : advancedSchedulerSelectionInput) (now : Time) (nano1 nano2 : Z)
    (Hids : NoDup (ID <$> omap id accounts)) :
  let order := buildAdvancedSchedulerSelectionOrder
                 (fst (scoreAdvancedSchedulerCandidates accounts loadMap stats weights input now)) input nano1 nano2 in
  length order = Nat.min (Z.to_nat (Z.max 1 (TopK input))) (length (omap id accounts)) ∧
  NoDup (candidateID <$> order) ∧ ∀ c, c ∈ order → ∃ a, account c = Some a ∧ Some a ∈ accounts.
Proof.
  cbv zeta. pose proof (scored_ids accounts loadMap stats weights input now) as Hi.
  pose proof (scored_accounts accounts loadMap stats weights input now) as Ha.
  set (l := fst (scoreAdvancedSchedulerCandidates _ _ _ _ _ _)) in *.
  assert (buildAdvancedSchedulerSelectionOrder l input nano1 nano2 ≡ₚ selectTopKAdvancedSchedulerCandidates l (TopK input)) as Hp.
  { unfold buildAdvancedSchedulerSelectionOrder. destruct (bool_decide _) eqn:E; zbool; [by rewrite E|].
    rewrite buildAdvancedWeightedSelectionOrder_perm. unfold selectTopKAdvancedSchedulerCandidates.
    rewrite (bool_decide_eq_false_2 _ E). destruct (TopK input <=? 0) eqn:Ek; [done|]. by rewrite Ek. }
  destruct (selectTopK_submseteq l (TopK input)) as [Hsub Hlen]. rewrite Hp, Hlen. split; [|split].
  - f_equal. apply (f_equal length) in Ha. by rewrite !length_fmap in Ha.
  - apply submseteq_Permutation in Hsub as [rest Hsub]. rewrite <- Hi, Hsub, fmap_app in Hids.
    by apply NoDup_app in Hids as [? _].
  - intros c Hc. rewrite Hp in Hc. apply (elem_of_submseteq _ _ _ Hc) in Hsub. apply (list_elem_of_fmap_2 account) in Hsub.
    rewrite Ha in Hsub. apply list_elem_of_fmap in Hsub as (a & E & Hin). exists a. split; [done|].
    by apply list_elem_of_omap in Hin as (o & Ho & [= ->]).
Qed.

Definition accountAt (id prio : Z) : Account := mkAccount id PlatformOpenAI AccountTypeOAuth None None prio None.
Definition plainWeights : GatewayAdvancedSchedulerScoreWeightsView :=
  mkWeights f64_one f64_one f64_half f64_one f64_half f64_zero f64_zero f64_one f64_one.

Lemma selection_order_distinct_witness :
  let accounts := [Some (accountAt 1 5); None; Some (accountAt 2 1); Some (accountAt 3 3); Some (accountAt 4 2)] in
  let order := buildAdvancedSchedulerSelectionOrder
    (fst (scoreAdvancedSchedulerCandidates accounts {[2 := mkLoadInfo 2 3 4 80]} (Some newAdvancedAccountRuntimeStats)
            plainWeights topThree 0)) topThree 0 0 in
  length order = 3%nat ∧ NoDup (candidateID <$> order).
Proof.
  cbv zeta.
  destruct (selection_order_distinct [Some (accountAt 1 5); None; Some (accountAt 2 1); Some (accountAt 3 3); Some (accountAt 4 2)]
    {[2 := mkLoadInfo 2 3 4 80]} (Some newAdvancedAccountRuntimeStats) plainWeights topThree 0 0 0) as (H1 & H2 & _).
  - apply (bool_decide_unpack _). vm_compute. exact I.
  - by split.
Defined.
