(* ===== verification/Transactions.v ===== *)
(** * Programs of database transactions

    A service function that runs statements one after the other is a program: a
    tree of atomic transactions and clock readings.  Several programs run
    concurrently on one database; between any two transactions of a program the
    others may run, a connection may break before a transaction or after its
    commit, and a program may stop for ever (a crash is a program that is never
    scheduled again).

    A rely/guarantee calculus proves that every run keeps an invariant [I] of
    the database and changes it only along [G]: what a program knows between
    two of its transactions must be stable under [G]. *)

From S2P Require Import Prelude GoRuntime.
#[local] Open Scope Z_scope.

(** The error of a transaction: no row, or any other error. *)
Inductive dbError :=
  | RowNotFound
  | DBError (text : string).

Section programs.
Context {DB : Type}.

(** A transaction reads the clock of the database and answers; on an error of
    its own it returns the database unchanged, that is rolled back. *)
Definition transaction (X : Type) : Type := Time → DB → result dbError X * DB.

Inductive Prog (A : Type) : Type :=
  | Ret (a : A)
  | Query {X : Type} (f : transaction X) (k : result dbError X → Prog A)
  | Clock (k : Time → Prog A).
#[global] Arguments Ret {A} a.
#[global] Arguments Query {A X} f k.
#[global] Arguments Clock {A} k.

Fixpoint bindProg {A B} (g : A → Prog B) (p : Prog A) : Prog B :=
  match p with
  | Ret a => g a
  | Query f k => Query f (λ r, bindProg g (k r))
  | Clock k => Clock (λ t, bindProg g (k t))
  end.

(** ** Execution *)

(** One step of a program at time [t]: a transaction answers, or its
    connection breaks before or after the commit. *)
Definition progStep {A} (t : Time) (d : DB) (p : Prog A) (d' : DB) (p' : Prog A) : Prop :=
  match p with
  | Ret _ => False
  | Clock k => d' = d ∧ p' = k t
  | Query f k =>
      p' = k (fst (f t d)) ∧ d' = snd (f t d) ∨
      ∃ text, p' = k (Err (DBError text)) ∧ (d' = d ∨ d' = snd (f t d))
  end.

(** The run of a program alone, at time [t], when every call works. *)
Fixpoint exec {A} (t : Time) (p : Prog A) (d : DB) : A * DB :=
  match p with
  | Ret a => (a, d)
  | Clock k => exec t (k t) d
  | Query f k => let '(r, d) := f t d in exec t (k r) d
  end.

Lemma exec_bindProg {A B} t (g : A → Prog B) p d :
  exec t (bindProg g p) d = let '(a, d') := exec t p d in exec t (g a) d'.
Proof. revert d. induction p as [a|X f k IH|k IH]; intros d; cbn; [done| |apply IH]. by destruct (f t d). Qed.

(** Concurrent programs: [entry] are the programs that may start, [outside] are
    the other changes of the database. *)
Record system := mkSystem { clock : Time; db : DB; pool : list (Prog unit) }.

Context (entry : Prog unit → Prop) (outside : Time → DB → DB → Prop).

Inductive systemStep (s : system) : system → Prop :=
  | step_prog i p p' d' :
      pool s !! i = Some p → progStep (clock s) (db s) p d' p' →
      systemStep s (mkSystem (clock s) d' (<[i := p']> (pool s)))
  | step_start p : entry p → systemStep s (mkSystem (clock s) (db s) (p :: pool s))
  | step_outside d' : outside (clock s) (db s) d' → systemStep s (mkSystem (clock s) d' (pool s))
  | step_tick t : clock s <= t → systemStep s (mkSystem t (db s) (pool s)).

(** ** Rely and guarantee *)

(** [R] are the changes of the other programs, [G] those of the program itself;
    where all programs have one guarantee, it is their rely, too. *)
Section calculus.
Context (I : DB → Prop) (R G : DB → DB → Prop).

Definition stable (P : DB → Prop) : Prop := ∀ d d', I d → I d' → R d d' → P d → P d'.

(** What a transaction does when the program knows [P]: it keeps the invariant,
    changes the database along [G], and the program then knows [Q]. *)
Definition transacts {X} (f : transaction X) (P : DB → Prop) (Q : result dbError X → DB → Prop) : Prop :=
  ∀ t d, I d → P d →
    I (snd (f t d)) ∧ G d (snd (f t d)) ∧ Q (fst (f t d)) (snd (f t d)) ∧
    ∀ text, Q (Err (DBError text)) d ∧ Q (Err (DBError text)) (snd (f t d)).

Fixpoint safe {A} (p : Prog A) (P : DB → Prop) (Post : A → DB → Prop) : Prop :=
  match p with
  | Ret a => ∀ d, I d → P d → Post a d
  | Clock k => ∀ t, safe (k t) P Post
  | Query f k => ∃ Q, (∀ r, stable (Q r)) ∧ transacts f P Q ∧ ∀ r, safe (k r) (Q r) Post
  end.

Lemma transacts_weaken {X} (f : transaction X) (P P' : DB → Prop) Q :
  (∀ d, I d → P' d → P d) → transacts f P Q → transacts f P' Q.
Proof. intros HP Hf t d Hd Hp. apply Hf; auto. Qed.

Lemma safe_weaken {A} (p : Prog A) (P P' : DB → Prop) (Q Q' : A → DB → Prop) :
  safe p P Q → (∀ d, I d → P' d → P d) → (∀ a d, I d → Q a d → Q' a d) → safe p P' Q'.
Proof.
  revert P P'. induction p as [a|X f k IH|k IH]; cbn; intros P P' Hs HP HQ; [by auto| |].
  - destruct Hs as (T & Hst & Ht & Hk). exists T. split; [done|]. split; [by eapply transacts_weaken|].
    intros r. eapply IH; [apply Hk | done | done].
  - intros t. by eapply IH.
Qed.

Lemma safe_bindProg {A B} (g : A → Prog B) (p : Prog A) P Q S :
  safe p P Q → (∀ a, safe (g a) (Q a) S) → safe (bindProg g p) P S.
Proof.
  revert P. induction p as [a|X f k IH|k IH]; cbn; intros P Hs Hg.
  - eapply safe_weaken; [apply Hg | done | done].
  - destruct Hs as (T & Hst & Ht & Hk). exists T. split; [done|]. split; [done|]. intros r. by apply IH.
  - intros t. by apply IH.
Qed.

(** One step of a program that is safe. *)
Lemma progStep_safe {A} t d (p : Prog A) d' p' P Post :
  I d → P d → stable P → safe p P Post → progStep t d p d' p' → (∀ d, G d d) →
  I d' ∧ G d d' ∧ ∃ P', stable P' ∧ P' d' ∧ safe p' P' Post.
Proof.
  destruct p as [a|X f k|k]; cbn; intros Hd Hp Hst Hs; [done| |]; intros Hstep G_refl; revert Hstep.
  - destruct Hs as (Q & HQ & Ht & Hk). destruct (Ht t d Hd Hp) as (H1 & H2 & H3 & H4).
    intros [[-> ->]|(text & -> & [-> | ->])]; (split; [done|]); (split; [done || apply G_refl|]);
      eexists; (split; [apply HQ|]); (split; [|apply Hk]); [done | by apply H4 | by apply H4].
  - intros [-> ->]. split; [done|]. split; [apply G_refl|]. exists P. by split_and!.
Qed.

(** The rules below are for programs whose own changes are among those that the
    others expect of each other. *)
Context (own : ∀ d d', G d d' → R d d').

(** A stable fact is kept by a program that need not know it. *)
Lemma rely_frame {A} (p : Prog A) P Q F :
  stable F → safe p P Q → safe p (λ d, P d ∧ F d) (λ a d, Q a d ∧ F d).
Proof.
  intros HF. revert P. induction p as [a|X f k IH|k IH]; cbn; intros P Hs.
  - intros d Hd [Hp Hf]. split; [by apply Hs | done].
  - destruct Hs as (T & Hst & Ht & Hk). exists (λ r d, T r d ∧ F d). split; [|split].
    + intros r d d' Hd Hd' Hg [H1 H2]. split; [exact (Hst r d d' Hd Hd' Hg H1) | exact (HF d d' Hd Hd' Hg H2)].
    + intros t d Hd [Hp Hf]. destruct (Ht t d Hd Hp) as (H1 & H2 & H3 & H4).
      pose proof (HF d _ Hd H1 (own _ _ H2) Hf). split; [done|]. split; [done|]. split; [done|].
      intros x. destruct (H4 x). done.
    + intros r. by apply IH.
  - intros t. by apply IH.
Qed.

(** ** Proof rules *)

(** A transaction that keeps the invariant and the guarantee where [F] holds,
    and what its answer then tells. *)
Definition sound {X} (f : transaction X) (F : DB → Prop) : Prop :=
  ∀ t d, I d → F d → I (snd (f t d)) ∧ G d (snd (f t d)).

Definition tells {X} (f : transaction X) (F : DB → Prop) (Q : X → DB → Prop) : Prop :=
  ∀ t d x, I d → F d → fst (f t d) = Ok x → Q x (snd (f t d)).

Lemma stable_and P Q : stable P → stable Q → stable (λ d, P d ∧ Q d).
Proof. intros HP HQ d d' H1 H2 H3 [? ?]. split; [by apply (HP d d') | by apply (HQ d d')]. Qed.

Lemma stable_True : stable (λ _, True).
Proof. done. Qed.

Lemma rely_query {X A} (f : transaction X) (k : result dbError X → Prog A) (F : DB → Prop) (Q : X → DB → Prop) Post :
  stable F → (∀ x, stable (Q x)) → sound f F → tells f F Q →
  (∀ x, safe (k (Ok x)) (λ d, F d ∧ Q x d) Post) → (∀ e, safe (k (Err e)) F Post) → safe (Query f k) F Post.
Proof.
  intros HF HQ Hs Ht Hok Herr. cbn.
  exists (λ r d, F d ∧ match r with Ok x => Q x d | Err _ => True end). split; [|split].
  - intros [x|e]; [by apply stable_and | apply stable_and; [done | apply stable_True]].
  - intros t d Hd Hf. destruct (Hs t d Hd Hf) as [H1 H2]. pose proof (HF d _ Hd H1 (own _ _ H2) Hf). split; [done|]. split; [done|].
    split; [|done]. split; [done|]. destruct (fst (f t d)) eqn:E; [by apply (Ht t d) | done].
  - intros [x|e]; [apply Hok|]. eapply safe_weaken; [apply Herr | by intros d _ [] | done].
Qed.

Lemma stable_const (φ : Prop) : stable (λ _, φ).
Proof. intros d d' _ _ _ H. exact H. Qed.

(** A transaction of whose answer nothing need be known. *)
Lemma rely_query_any {X A} (f : transaction X) (k : result dbError X → Prog A) (F : DB → Prop) Post :
  stable F → sound f F → (∀ r, safe (k r) F Post) → safe (Query f k) F Post.
Proof.
  intros HF Hs Hk. apply (rely_query f k F (λ _ _, True)); [done | intros; apply stable_True | done | done | | intros; apply Hk].
  intros x. eapply safe_weaken; [apply Hk | by intros d _ [] | done].
Qed.

Lemma sound_weaken {X} (f : transaction X) (F F' : DB → Prop) : sound f F → (∀ d, I d → F' d → F d) → sound f F'.
Proof. intros Hs H t d Hd Hf. apply Hs; auto. Qed.

(** A program that needs [F], keeps it, and tells [Q] of its answer. *)
Definition yields {A} (p : Prog A) (F : DB → Prop) (Q : A → DB → Prop) : Prop := safe p F (λ a d, F d ∧ Q a d).

Lemma yields_ret {A} (a : A) F Q : (∀ d, I d → F d → Q a d) → yields (Ret a) F Q.
Proof. intros H d Hd Hf. split; [done | by apply H]. Qed.

Lemma yields_weaken {A} (p : Prog A) F Q Q' : yields p F Q → (∀ a d, I d → Q a d → Q' a d) → yields p F Q'.
Proof. intros H HQ. eapply safe_weaken; [exact H | done|]. intros a d Hd [? ?]. split; [done | by apply HQ]. Qed.

Lemma yields_bind {A B} (g : A → Prog B) (p : Prog A) F Q S :
  yields p F Q → (∀ a, safe (g a) (λ d, F d ∧ Q a d) S) → safe (bindProg g p) F S.
Proof. intros Hp Hg. eapply safe_bindProg; [exact Hp | exact Hg]. Qed.

Lemma rely_and {A} (p : Prog A) F F' Q : stable F' → yields p F Q → yields p (λ d, F d ∧ F' d) Q.
Proof.
  intros HF Hp. eapply safe_weaken; [apply (rely_frame _ _ _ _ HF Hp) | done|]. by intros a d _ [[??] ?].
Qed.

(** A program that needs to know nothing. *)
Definition harmless {A} (p : Prog A) : Prop := safe p (λ _, True) (λ _ _, True).

Lemma harmless_safe {A} (p : Prog A) F : harmless p → safe p F (λ _ _, True).
Proof. intros H. by eapply safe_weaken. Qed.

Lemma safe_harmless {A} (p : Prog A) (F : DB → Prop) Q : (∀ d, I d → F d) → safe p F Q → harmless p.
Proof. intros HF H. eapply safe_weaken; [exact H | auto | done]. Qed.

Lemma rely_harmless {A} (p : Prog A) F : stable F → harmless p → yields p F (λ _ _, True).
Proof.
  intros HF H. eapply safe_weaken; [apply (rely_frame _ _ _ F HF H) | done|]. by intros a d _ [].
Qed.

Lemma harmless_ret {A} (a : A) : harmless (Ret a).
Proof. done. Qed.

Lemma harmless_clock {A} (k : Time → Prog A) : (∀ t, harmless (k t)) → harmless (Clock k).
Proof. done. Qed.

Lemma harmless_bind {A B} (g : A → Prog B) (p : Prog A) : harmless p → (∀ a, harmless (g a)) → harmless (bindProg g p).
Proof. intros Hp Hg. eapply safe_bindProg; [exact Hp | exact Hg]. Qed.

Lemma rely_harmless_query {X A} (f : transaction X) (k : result dbError X → Prog A) :
  sound f (λ _, True) → (∀ r, harmless (k r)) → harmless (Query f k).
Proof. intros Hf Hk. by apply rely_query_any. Qed.

(** A program that may run while [F] holds, and maintains it. *)
Definition maintains {A} (F : DB → Prop) (p : Prog A) : Prop := yields p F (λ _ _, True).

Lemma maintains_ret {A} F (a : A) : maintains F (Ret a).
Proof. by apply yields_ret. Qed.

Lemma maintains_clock {A} F (k : Time → Prog A) : (∀ t, maintains F (k t)) → maintains F (Clock k).
Proof. done. Qed.

Lemma rely_maintains_query {X A} F (f : transaction X) (k : result dbError X → Prog A) :
  stable F → sound f F → (∀ r, maintains F (k r)) → maintains F (Query f k).
Proof. intros HF Hs Hk. by apply rely_query_any. Qed.

Lemma maintains_bind {A B} F (g : A → Prog B) (p : Prog A) : maintains F p → (∀ a, maintains F (g a)) → maintains F (bindProg g p).
Proof. intros Hp Hg. eapply yields_bind; [exact Hp|]. intros a. eapply safe_weaken; [apply Hg | by intros d _ [] | done]. Qed.

Lemma rely_maintains {A} F (p : Prog A) : stable F → harmless p → maintains F p.
Proof. apply rely_harmless. Qed.

Lemma maintains_safe {A} F (p : Prog A) : maintains F p → safe p F (λ _ _, True).
Proof. intros H. by eapply safe_weaken. Qed.

Lemma safe_false {A} (p : Prog A) (P : DB → Prop) Q : (∀ d, ¬ P d) → safe p P Q.
Proof.
  revert P. induction p as [a|X f k IH|k IH]; cbn; intros P HP; [by intros d _ []%HP| |by intros t; apply IH].
  exists (λ _ _, False). split; [by intros r d d'|]. split; [by intros t d _ []%HP|]. intros r. apply IH. by intros d [].
Qed.

Lemma safe_pure {A} (φ : Prop) `{Decision φ} (p : Prog A) F Q : (φ → safe p F Q) → safe p (λ d, F d ∧ φ) Q.
Proof.
  intros Hp. destruct (decide φ); [|by apply safe_false; intros d []].
  eapply safe_weaken; [by apply Hp | by intros d _ [] | done].
Qed.

End calculus.

(** Fewer changes by the others, more by the program. *)
Lemma safe_lift {A} I (R R' G G' : DB → DB → Prop) (p : Prog A) P Post :
  (∀ d d', R' d d' → R d d') → (∀ d d', G d d' → G' d d') → safe I R G p P Post → safe I R' G' p P Post.
Proof.
  intros HR HG. revert P. induction p as [a|X f k IH|k IH]; cbn; intros P Hs; [done| |by intros t; apply IH].
  destruct Hs as (Q & Hst & Ht & Hk). exists Q. split; [|split; [|by intros r; apply IH]].
  - intros r d d' H1 H2 H3. apply (Hst r d d' H1 H2). by apply HR.
  - intros t d Hd Hp. destruct (Ht t d Hd Hp) as (H1 & H2 & H3). split_and!; [done | by apply HG | apply H3 | apply H3].
Qed.

(** The rules for programs that all have the guarantee [G]. *)
Section oneGuarantee.
Context (I : DB → Prop) (G : DB → DB → Prop).
Definition safe_frame {A} := @rely_frame I G G (λ _ _ H, H) A.
Definition safe_query {X A} := @rely_query I G G (λ _ _ H, H) X A.
Definition safe_query_any {X A} := @rely_query_any I G G (λ _ _ H, H) X A.
Definition yields_and {A} := @rely_and I G G (λ _ _ H, H) A.
Definition harmless_yields {A} := @rely_harmless I G G (λ _ _ H, H) A.
Definition harmless_query {X A} := @rely_harmless_query I G G (λ _ _ H, H) X A.
Definition maintains_query {X A} := @rely_maintains_query I G G (λ _ _ H, H) X A.
Definition maintains_harmless {A} := @rely_maintains I G G (λ _ _ H, H) A.
End oneGuarantee.

(** ** Adequacy *)

Section adequacy.
Context (I : DB → Prop) (G : DB → DB → Prop).
Abbreviation stable := (stable I G).
Abbreviation safe := (safe I G G).

Definition keepsSafe (s : system) : Prop :=
  I (db s) ∧ ∀ p, p ∈ pool s → ∃ P, stable P ∧ P (db s) ∧ safe p P (λ _ _, True).

Context (entry_safe : ∀ p, entry p → safe p (λ _, True) (λ _ _, True))
  (outside_safe : ∀ t d d', I d → outside t d d' → I d' ∧ G d d') (G_refl : ∀ d, G d d).

Lemma keepsSafe_step s s' : keepsSafe s → systemStep s s' → keepsSafe s'.
Proof.
  intros [Hd Hp]. assert (Hmove : ∀ d', I d' → G (db s) d' →
      ∀ p, p ∈ pool s → ∃ P, stable P ∧ P d' ∧ safe p P (λ _ _, True)).
  { intros d' Hd' Hg p Hin. destruct (Hp p Hin) as (P & Hst & HP & Hs). exists P. split; [done|]. split; [exact (Hst _ _ Hd Hd' Hg HP) | done]. }
  intros [i p p' d' Hi Hstep | p He | d' Ho | t Ht]; unfold keepsSafe; cbn [db pool].
  - destruct (Hp p) as (P & Hst & HP & Hs); [by eapply list_elem_of_lookup_2|].
    destruct (progStep_safe I G G _ _ _ _ _ _ _ Hd HP Hst Hs Hstep G_refl) as (Hd' & Hg & Hnew). split; [done|].
    intros q [j Hj]%list_elem_of_lookup_1. apply list_lookup_insert_Some in Hj as [(_ & <- & _)|[_ Hj]]; [done|].
    apply Hmove; [done..|by eapply list_elem_of_lookup_2].
  - split; [done|]. intros q [->|Hin]%elem_of_cons; [|by apply Hp].
    exists (λ _, True). split; [done|]. split; [done | by apply entry_safe].
  - destruct (outside_safe _ _ _ Hd Ho). split; [done|]. by apply Hmove.
  - done.
Qed.

(** The next step of a program when its call works. *)
Definition advance {A} (t : Time) (p : Prog A) (d : DB) : Prog A * DB :=
  match p with
  | Ret a => (Ret a, d)
  | Query f k => let '(r, d') := f t d in (k r, d')
  | Clock k => (k t, d)
  end.

Lemma advance_reachable {init} t d l i p :
  reachable init systemStep (mkSystem t d l) → l !! i = Some p → (∀ u, p ≠ Ret u) →
  reachable init systemStep (mkSystem t (snd (advance t p d)) (<[i := fst (advance t p d)]> l)).
Proof.
  intros Hx Hi Hp. eapply reach_step; [exact Hx|]. apply (step_prog (mkSystem t d l) i p); [done|].
  destruct p as [u|X f k|k]; cbn; [by destruct (Hp u) | | done]. left. by destruct (f t d).
Qed.

(** Several such steps in a row; a program that has ended stays. *)
Fixpoint advances {A} (n : nat) (t : Time) (p : Prog A) (d : DB) : Prog A * DB :=
  match n with
  | O => (p, d)
  | S n => let '(p', d') := advance t p d in advances n t p' d'
  end.

Lemma advances_reachable {init} n t d l i p :
  reachable init systemStep (mkSystem t d l) → l !! i = Some p →
  reachable init systemStep (mkSystem t (snd (advances n t p d)) (<[i := fst (advances n t p d)]> l)).
Proof.
  revert p d l. induction n as [|n IH]; intros p d l Hx Hi; cbn [advances fst snd]; [by rewrite list_insert_id|].
  assert (H1 : reachable init systemStep (mkSystem t (snd (advance t p d)) (<[i := fst (advance t p d)]> l))).
  { destruct p as [u|X f k|k]; [cbn; by rewrite list_insert_id | by apply advance_reachable..]. }
  destruct (advance t p d) as [p' d']. cbn [fst snd] in H1.
  specialize (IH p' d' _ H1). rewrite list_insert_insert_eq in IH. apply IH. apply list_lookup_insert_eq. by eapply lookup_lt_Some.
Qed.

(** A program that runs alone reaches what [exec] computes. *)
Lemma run_reachable {init} p x :
  reachable init systemStep x → entry p →
  ∃ q, reachable init systemStep (mkSystem (clock x) (snd (exec (clock x) p (db x))) (q :: pool x)).
Proof.
  intros Hx He. destruct x as [t d l]. cbn. assert (H1 : reachable init systemStep (mkSystem t d (p :: l))).
  { eapply reach_step; [exact Hx | by apply step_start]. }
  clear Hx He. revert d H1. induction p as [a|X f k IH|k IH]; intros d H1; cbn [exec]; [by eexists | |].
  - pose proof (advance_reachable t d _ 0%nat (Query f k) H1 eq_refl ltac:(done)) as H2. cbn in H2.
    destruct (f t d) as [r d']. by apply IH.
  - pose proof (advance_reachable t d _ 0%nat (Clock k) H1 eq_refl ltac:(done)) as H2. cbn in H2. by apply IH.
Qed.

(** The changes of every run, one step and many. *)
Lemma step_guar s s' : keepsSafe s → systemStep s s' → G (db s) (db s').
Proof.
  intros [Hd Hp] [i p p' d' Hi Hstep | p He | d' Ho | t Ht]; cbn [db]; [| apply G_refl | by apply (outside_safe (clock s)) | apply G_refl].
  destruct (Hp p) as (P & Hst & HP & Hs); [by eapply list_elem_of_lookup_2|].
  by destruct (progStep_safe I G G _ _ _ _ _ _ _ Hd HP Hst Hs Hstep G_refl) as (_ & ? & _).
Qed.

Lemma steps_guar (G_trans : ∀ d1 d2 d3, G d1 d2 → G d2 d3 → G d1 d3) s s' : keepsSafe s → rtc systemStep s s' → G (db s) (db s').
Proof.
  intros Hk Hr. induction Hr as [s|s1 s2 s3 H1 _ IH]; [apply G_refl|]. eapply G_trans; [by apply step_guar|].
  apply IH. by eapply keepsSafe_step.
Qed.

Lemma reachable_keepsSafe (init : system → Prop) s :
  (∀ s0, init s0 → I (db s0) ∧ pool s0 = []) → reachable init systemStep s → keepsSafe s.
Proof.
  intros Hi Hr. revert s Hr. apply reachable_invariant; [|apply keepsSafe_step].
  intros s0 H0. destruct (Hi s0 H0) as [? Hn]. split; [done|]. rewrite Hn. by intros ? ?%not_elem_of_nil.
Qed.

Theorem reachable_safe (init : system → Prop) s :
  (∀ s0, init s0 → I (db s0) ∧ pool s0 = []) → reachable init systemStep s → I (db s).
Proof. intros Hi Hr. by destruct (reachable_keepsSafe init s Hi Hr). Qed.

(** A run alone keeps the invariant too. *)
Lemma exec_safe {A} t (p : Prog A) d P Post :
  I d → P d → stable P → safe p P Post → I (snd (exec t p d)) ∧ Post (fst (exec t p d)) (snd (exec t p d)).
Proof.
  revert d P. induction p as [a|X f k IH|k IH]; cbn; intros d P Hd Hp Hst Hs; [by split; [|apply Hs]| |by eapply IH].
  destruct Hs as (Q & HQ & Ht & Hk). destruct (Ht t d Hd Hp) as (H1 & H2 & H3 & H4).
  destruct (f t d) as [r e]. cbn in *. by eapply IH.
Qed.

(** ... and changes the database along the guarantee. *)
Lemma exec_guar {A} (G_trans : ∀ d1 d2 d3, G d1 d2 → G d2 d3 → G d1 d3) t (p : Prog A) d P Post :
  I d → P d → stable P → safe p P Post → I (snd (exec t p d)) ∧ G d (snd (exec t p d)).
Proof.
  revert d P. induction p as [a|X f k IH|k IH]; cbn; intros d P Hd Hp Hst Hs; [by split; [|apply G_refl]| |by eapply IH].
  destruct Hs as (Q & HQ & Ht & Hk). destruct (Ht t d Hd Hp) as (H1 & H2 & H3 & H4).
  destruct (f t d) as [r e]. cbn in *. destruct (IH r e (Q r)) as [H5 H6]; [done..|]. split; [done | by eapply G_trans].
Qed.

End adequacy.
End programs.
#[global] Arguments transaction DB X : clear implicits.
#[global] Arguments Prog DB A : clear implicits.
#[global] Arguments system DB : clear implicits.
