(* ===== verification/Agents.v ===== *)
(** * Programs with owners

    The system of [Transactions] where a program may have a name that no other
    program shares.  What the owner of a name may do is no part of what the
    others expect of each other: its guarantee is its own, and its rely is the
    guarantee of everyone else. *)

From S2P Require Import Prelude GoRuntime Transactions.
#[local] Open Scope Z_scope.

(** [None]: one of the programs without a name. *)
Abbreviation agent := (option string).

Section agents.
Context {DB : Type}.

Record crew := mkCrew { crewClock : Time; crewDB : DB; members : list (agent * Prog DB unit) }.

Definition unused (a : agent) (l : list (agent * Prog DB unit)) : Prop :=
  ∀ i p n, a = Some n → l !! i ≠ Some (Some n, p).

Context (entry : agent → Prog DB unit → Prop) (outside : Time → DB → DB → Prop).

Inductive crewStep (s : crew) : crew → Prop :=
  | crew_prog i a p p' d' :
      members s !! i = Some (a, p) → progStep (crewClock s) (crewDB s) p d' p' →
      crewStep s (mkCrew (crewClock s) d' (<[i := (a, p')]> (members s)))
  | crew_start a p :
      entry a p → unused a (members s) → crewStep s (mkCrew (crewClock s) (crewDB s) (members s ++ [(a, p)]))
  | crew_outside d' : outside (crewClock s) (crewDB s) d' → crewStep s (mkCrew (crewClock s) d' (members s))
  | crew_tick t : crewClock s <= t → crewStep s (mkCrew t (crewDB s) (members s)).

Context (I : DB → Prop) (G : agent → DB → DB → Prop).

Definition rely (a : agent) (d d' : DB) : Prop := ∃ a', (a' = None ∨ a' ≠ a) ∧ G a' d d'.

(** What any program may see happen. *)
Definition anyone (d d' : DB) : Prop := ∃ a, G a d d'.

Lemma rely_anyone a d d' : rely a d d' → anyone d d'.
Proof. intros (a' & _ & H). by exists a'. Qed.

Lemma rely_none d d' : anyone d d' → rely None d d'.
Proof. intros (a & H). exists a. split; [destruct a; [by right | by left] | done]. Qed.

Lemma shared_rely a d d' : G None d d' → rely a d d'.
Proof. intros H. exists None. split; [by left | done]. Qed.

Lemma shared_anyone d d' : G None d d' → anyone d d'.
Proof. intros H. by exists None. Qed.

Definition agentSafe (a : agent) (p : Prog DB unit) : Prop :=
  ∃ P, stable I (rely a) P ∧ safe I (rely a) (G a) p P (λ _ _, True) ∧ ∀ d, I d → P d.

(** ** Adequacy *)

Definition crewSafe (s : crew) : Prop :=
  I (crewDB s) ∧
  (∀ i j n p q, members s !! i = Some (Some n, p) → members s !! j = Some (Some n, q) → i = j) ∧
  ∀ i a p, members s !! i = Some (a, p) →
    ∃ P, stable I (rely a) P ∧ P (crewDB s) ∧ safe I (rely a) (G a) p P (λ _ _, True).

Context (entry_safe : ∀ a p, entry a p → agentSafe a p)
  (outside_safe : ∀ t d d', I d → outside t d d' → I d' ∧ G None d d') (G_refl : ∀ a d, G a d d).

Lemma crewSafe_step s s' : crewSafe s → crewStep s s' → crewSafe s' ∧ anyone (crewDB s) (crewDB s').
Proof.
  intros (Hd & Hu & Hp). assert (Hrefl : anyone (crewDB s) (crewDB s)) by (exists None; apply G_refl).
  intros [i a p p' d' Hi Hstep | a p He Hn | d' Ho | t Ht]; unfold crewSafe; cbn [crewDB members].
  - destruct (Hp i a p Hi) as (P & Hst & HP & Hs).
    destruct (progStep_safe I (rely a) (G a) _ _ _ _ _ _ _ Hd HP Hst Hs Hstep (G_refl a)) as (Hd' & Hg & Hnew).
    split; [|by exists a]. split; [done|]. split.
    + intros j k n q r [(<- & E & _)|[Hj E]]%list_lookup_insert_Some [(<- & E' & _)|[Hk E']]%list_lookup_insert_Some; [done| | |by eapply Hu];
        first [injection E as -> ->|injection E' as -> ->]; by eapply Hu.
    + intros j b q [(<- & E & _)|[Hj E]]%list_lookup_insert_Some; [by injection E as <- <-|].
      destruct (Hp j b q E) as (Q & HQ & Hq & Hqs). exists Q. split; [done|]. split; [|done].
      apply (HQ (crewDB s)); [done..| |done]. exists a. split; [|done].
      destruct a as [n|]; [right|by left]. intros <-. exact (Hj (Hu i j n p q Hi E)).
  - split; [|done]. split; [done|]. split.
    + intros i j n q r Hi Hj. apply lookup_app_Some in Hi as [Hi|[Hi Hi']], Hj as [Hj|[Hj Hj']].
      * by eapply Hu.
      * apply list_lookup_singleton_Some in Hj' as [_ [= -> ->]]. by destruct (Hn i q n eq_refl).
      * apply list_lookup_singleton_Some in Hi' as [_ [= -> ->]]. by destruct (Hn j r n eq_refl).
      * apply list_lookup_singleton_Some in Hi' as [Hi' _], Hj' as [Hj' _]. lia.
    + intros i b q [Hi|[_ Hi]]%lookup_app_Some; [by eapply Hp|]. apply list_lookup_singleton_Some in Hi as [_ [= <- <-]].
      destruct (entry_safe a p He) as (P & HP & Hs & Ht). exists P. split; [done|]. split; [by apply Ht | done].
  - destruct (outside_safe _ _ _ Hd Ho) as [Hd' Hg]. split; [|by exists None]. split; [done|]. split; [done|].
    intros i a p Hi. destruct (Hp i a p Hi) as (P & HP & Hq & Hs). exists P. split; [done|]. split; [|done].
    apply (HP (crewDB s)); [done..| by apply shared_rely | done].
  - by split.
Qed.

Lemma crewReachable_safe (init : crew → Prop) s :
  (∀ s0, init s0 → I (crewDB s0) ∧ members s0 = []) → reachable init crewStep s → crewSafe s.
Proof.
  intros Hi Hr. revert s Hr. apply reachable_invariant; [|intros s s' H1 H2; by apply (crewSafe_step s s')].
  intros s0 H0. destruct (Hi s0 H0) as [? Hn]. split; [done|]. rewrite Hn. split; [by intros i j n p q|by intros i a p].
Qed.

(** A program that starts and runs alone reaches what [exec] computes. *)
Lemma crew_run a p x :
  entry a p → unused a (members x) →
  ∃ q, rtc crewStep x (mkCrew (crewClock x) (snd (exec (crewClock x) p (crewDB x))) (members x ++ [(a, q)])).
Proof.
  intros He Hu. destruct x as [t d l]. cbn [crewClock crewDB members] in *.
  enough (∃ q, rtc crewStep (mkCrew t d (l ++ [(a, p)])) (mkCrew t (snd (exec t p d)) (l ++ [(a, q)]))) as [q Hq].
  { exists q. econstructor; [by apply crew_start | exact Hq]. }
  clear He Hu. assert (Hl : ∀ q, (l ++ [(a, q)]) !! length l = Some (a, q)) by (intros q; by apply list_lookup_middle).
  assert (Hi : ∀ q q', <[length l := (a, q')]> (l ++ [(a, q)]) = l ++ [(a, q')]).
  { intros q q'. rewrite insert_app_r_alt by done. by rewrite Nat.sub_diag. }
  revert d. induction p as [u|X f k IH|k IH]; intros d; cbn [exec]; [by eexists | |].
  - destruct (f t d) as [r d'] eqn:E. destruct (IH r d') as [q Hq]. exists q. econstructor; [|exact Hq].
    rewrite <- (Hi (Query f k) (k r)). apply (crew_prog (mkCrew t d _) _ a (Query f k)); [apply Hl|]. left. cbn. by rewrite E.
  - destruct (IH t d) as [q Hq]. exists q. econstructor; [|exact Hq].
    rewrite <- (Hi (Clock k) (k t)). apply (crew_prog (mkCrew t d _) _ a (Clock k)); [apply Hl | done].
Qed.

(** Some steps of a program that has started, when its calls work. *)
Lemma crew_advances n i a p t d l :
  l !! i = Some (a, p) →
  rtc crewStep (mkCrew t d l) (mkCrew t (snd (advances n t p d)) (<[i := (a, fst (advances n t p d))]> l)).
Proof.
  revert p d l. induction n as [|n IH]; intros p d l Hi; cbn [advances fst snd]; [by rewrite list_insert_id|].
  assert (Hl : ∀ q, <[i := (a, q)]> l !! i = Some (a, q)) by (intros q; apply list_lookup_insert_eq; by eapply lookup_lt_Some).
  destruct p as [u|X f k|k]; cbn [advance].
  - by apply IH.
  - destruct (f t d) as [r d'] eqn:E. specialize (IH (k r) d' _ (Hl (k r))). rewrite list_insert_insert_eq in IH.
    econstructor; [|exact IH]. apply (crew_prog (mkCrew t d l) i a (Query f k)); [done|]. left. cbn. by rewrite E.
  - specialize (IH (k t) d _ (Hl (k t))). rewrite list_insert_insert_eq in IH.
    econstructor; [|exact IH]. by apply (crew_prog (mkCrew t d l) i a (Clock k)).
Qed.

Lemma reachable_steps {init} x y : reachable init crewStep x → rtc crewStep x y → reachable init crewStep y.
Proof. intros Hx Hr. induction Hr as [|x y z Hs _ IH]; [done|]. apply IH. by eapply reach_step. Qed.
End agents.
#[global] Arguments crew DB : clear implicits.
