(* ===== verification/PaymentOrder.v ===== *)
(** * Payment orders: data, amounts and providers

    The row of [payment_orders] ([ent/schema/payment_order.go]) and the pure
    parts of [service/payment_amounts.go], [service/payment_currency.go],
    [service/payment_order_provider_snapshot.go], [payment/currency.go] and
    [payment/types.go].  Columns that the modelled code never reads (display
    fields, fees, client address) are left out; a nullable column is an
    [option]; a JSON object is a map of [snapshotValue].  Amounts are binary64
    as in the code; the rounding of their columns to two decimals is left out. *)

From S2P Require Import Prelude GoRuntime Domain AppErrors.
#[local] Open Scope Z_scope.

(** ** Constants *)

Definition OrderStatusPending : string := "PENDING".
Definition OrderStatusProcessing : string := "PROCESSING".
Definition OrderStatusPaid : string := "PAID".
Definition OrderStatusRecharging : string := "RECHARGING".
Definition OrderStatusCompleted : string := "COMPLETED".
Definition OrderStatusExpired : string := "EXPIRED".
Definition OrderStatusCancelled : string := "CANCELLED".
Definition OrderStatusFailed : string := "FAILED".
Definition OrderStatusRefundRequested : string := "REFUND_REQUESTED".
Definition OrderStatusRefunding : string := "REFUNDING".
Definition OrderStatusRefundPending : string := "REFUND_PENDING".
Definition OrderStatusPartiallyRefunded : string := "PARTIALLY_REFUNDED".
Definition OrderStatusRefunded : string := "REFUNDED".
Definition OrderStatusRefundFailed : string := "REFUND_FAILED".

Definition OrderTypeBalance : string := "balance".
Definition OrderTypeSubscription : string := "subscription".

Definition NotificationStatusSuccess : string := "success".
Definition NotificationStatusPaid : string := "paid".
Definition ProviderStatusPending : string := "pending".
Definition ProviderStatusProcessing : string := "processing".
Definition ProviderStatusPaid : string := "paid".
Definition ProviderStatusSuccess : string := "success".
Definition ProviderStatusFailed : string := "failed".
Definition ProviderStatusRefunded : string := "refunded".

Definition TypeAlipay : string := "alipay".
Definition TypeWxpay : string := "wxpay".
Definition TypeStripe : string := "stripe".
Definition TypeCard : string := "card".
Definition TypeLink : string := "link".
Definition TypeEasyPay : string := "easypay".
Definition TypeAirwallex : string := "airwallex".

Definition orderIDPrefix : string := "sub2_".

Definition psIsRefundStatus (s : string) : bool :=
  eqs s OrderStatusRefundRequested || eqs s OrderStatusRefunding || eqs s OrderStatusRefundPending ||
  eqs s OrderStatusPartiallyRefunded || eqs s OrderStatusRefunded || eqs s OrderStatusRefundFailed.

Definition GetBasePaymentType (t : string) : string :=
  if eqs t TypeEasyPay then TypeEasyPay
  else if eqs t TypeAirwallex then TypeAirwallex
  else if eqs t TypeStripe || eqs t TypeCard || eqs t TypeLink then TypeStripe
  else if HasPrefix t TypeAlipay then TypeAlipay
  else if HasPrefix t TypeWxpay then TypeWxpay
  else t.

(** ** The order *)

Record SubscriptionPlanSnapshot := mkPlanSnapshot {
  Name : string;
  Price : float64;
  PlanCurrency : string;
  ValidityDays : Z;
  DailyLimitUSD : option float64;
  WeeklyLimitUSD : option float64;
  MonthlyLimitUSD : option float64;
}.

Definition noPlanSnapshot : SubscriptionPlanSnapshot := mkPlanSnapshot "" f64_zero "" 0 None None None.

(** A value of a JSON object. *)
Inductive snapshotValue :=
  | SnapString (s : string)
  | SnapNumber (v : float64)
  | SnapOther.

Record PaymentOrder := mkOrder {
  ID : Z;
  UserID : Z;
  Status : string;
  OrderType : string;
  Amount : float64;
  PayAmount : float64;
  RechargeCode : string;
  OutTradeNo : string;
  PaymentType : string;
  PaymentTradeNo : string;
  PaymentInvoiceID : option string;
  PaymentInvoiceURL : option string;
  PaymentInvoicePdfURL : option string;
  PaymentInvoiceStatus : option string;
  PlanID : option Z;
  PlanSnapshot : SubscriptionPlanSnapshot;
  ProviderInstanceID : option string;
  ProviderKey : option string;
  ProviderSnapshot : gmap string snapshotValue;
  RefundAmount : float64;
  RefundReason : option string;
  RefundAt : option Time;
  ForceRefund : bool;
  RefundRequestedAt : option Time;
  RefundRequestReason : option string;
  RefundRequestedBy : option string;
  ExpiresAt : Time;
  PaidAt : option Time;
  CompletedAt : option Time;
  FailedAt : option Time;
  FailedReason : option string;
  UpdatedAt : Time;
}.

Definition etaOrder (o : PaymentOrder) : PaymentOrder :=
  mkOrder (ID o) (UserID o) (Status o) (OrderType o) (Amount o) (PayAmount o) (RechargeCode o) (OutTradeNo o)
    (PaymentType o) (PaymentTradeNo o) (PaymentInvoiceID o) (PaymentInvoiceURL o) (PaymentInvoicePdfURL o)
    (PaymentInvoiceStatus o) (PlanID o) (PlanSnapshot o) (ProviderInstanceID o) (ProviderKey o) (ProviderSnapshot o)
    (RefundAmount o) (RefundReason o) (RefundAt o) (ForceRefund o) (RefundRequestedAt o) (RefundRequestReason o)
    (RefundRequestedBy o) (ExpiresAt o) (PaidAt o) (CompletedAt o) (FailedAt o) (FailedReason o) (UpdatedAt o).

Definition SetStatus (v : string) (o : PaymentOrder) : PaymentOrder := ltac:(set_field etaOrder o Status v).
Definition SetPayAmount (v : float64) (o : PaymentOrder) : PaymentOrder := ltac:(set_field etaOrder o PayAmount v).
Definition SetPaymentTradeNo (v : string) (o : PaymentOrder) : PaymentOrder := ltac:(set_field etaOrder o PaymentTradeNo v).
Definition SetPaymentInvoiceID (v : option string) (o : PaymentOrder) : PaymentOrder := ltac:(set_field etaOrder o PaymentInvoiceID v).
Definition SetPaymentInvoiceURL (v : option string) (o : PaymentOrder) : PaymentOrder := ltac:(set_field etaOrder o PaymentInvoiceURL v).
Definition SetPaymentInvoicePdfURL (v : option string) (o : PaymentOrder) : PaymentOrder := ltac:(set_field etaOrder o PaymentInvoicePdfURL v).
Definition SetPaymentInvoiceStatus (v : option string) (o : PaymentOrder) : PaymentOrder := ltac:(set_field etaOrder o PaymentInvoiceStatus v).
Definition SetRefundAmount (v : float64) (o : PaymentOrder) : PaymentOrder := ltac:(set_field etaOrder o RefundAmount v).
Definition SetRefundReason (v : option string) (o : PaymentOrder) : PaymentOrder := ltac:(set_field etaOrder o RefundReason v).
Definition SetRefundAt (v : option Time) (o : PaymentOrder) : PaymentOrder := ltac:(set_field etaOrder o RefundAt v).
Definition SetForceRefund (v : bool) (o : PaymentOrder) : PaymentOrder := ltac:(set_field etaOrder o ForceRefund v).
Definition SetRefundRequestedAt (v : option Time) (o : PaymentOrder) : PaymentOrder := ltac:(set_field etaOrder o RefundRequestedAt v).
Definition SetRefundRequestReason (v : option string) (o : PaymentOrder) : PaymentOrder := ltac:(set_field etaOrder o RefundRequestReason v).
Definition SetRefundRequestedBy (v : option string) (o : PaymentOrder) : PaymentOrder := ltac:(set_field etaOrder o RefundRequestedBy v).
Definition SetPaidAt (v : option Time) (o : PaymentOrder) : PaymentOrder := ltac:(set_field etaOrder o PaidAt v).
Definition SetCompletedAt (v : option Time) (o : PaymentOrder) : PaymentOrder := ltac:(set_field etaOrder o CompletedAt v).
Definition SetFailedAt (v : option Time) (o : PaymentOrder) : PaymentOrder := ltac:(set_field etaOrder o FailedAt v).
Definition SetFailedReason (v : option string) (o : PaymentOrder) : PaymentOrder := ltac:(set_field etaOrder o FailedReason v).
Definition SetUpdatedAt (v : Time) (o : PaymentOrder) : PaymentOrder := ltac:(set_field etaOrder o UpdatedAt v).

(** What a purchase is about: no update changes it. *)
Definition sameOrder (a b : PaymentOrder) : Prop :=
  ID a = ID b ∧ UserID a = UserID b ∧ OrderType a = OrderType b ∧ Amount a = Amount b ∧ RechargeCode a = RechargeCode b ∧
  PlanID a = PlanID b ∧ PlanSnapshot a = PlanSnapshot b ∧ OutTradeNo a = OutTradeNo b.

Lemma sameOrder_refl o : sameOrder o o.
Proof. by repeat split. Qed.

#[export] Hint Resolve sameOrder_refl : go.

Lemma sameOrder_trans a b c : sameOrder a b → sameOrder b c → sameOrder a c.
Proof. unfold sameOrder. intuition congruence. Qed.

(** ** Currencies *)

Definition DefaultPaymentCurrency : string := "CNY".

Record paymentCurrencyAmountUnit := mkAmountUnit { apiMinorUnit : Z; maxFractionDigits : Z }.

Definition zeroDecimalAmountUnit : paymentCurrencyAmountUnit := mkAmountUnit 0 0.
Definition twoDecimalAmountUnit : paymentCurrencyAmountUnit := mkAmountUnit 2 2.
Definition threeDecimalAmountUnit : paymentCurrencyAmountUnit := mkAmountUnit 3 3.
Definition stripeLegacyZeroAmount : paymentCurrencyAmountUnit := mkAmountUnit 2 0.

Definition paymentCurrencyAmountUnits : gmap string paymentCurrencyAmountUnit :=
  list_to_map (
    map (λ c, (c, zeroDecimalAmountUnit))
      ["BIF"; "CLP"; "DJF"; "GNF"; "JPY"; "KMF"; "KRW"; "MGA"; "PYG"; "RWF"; "VND"; "VUV"; "XAF"; "XOF"; "XPF"]%string ++
    map (λ c, (c, stripeLegacyZeroAmount)) ["ISK"; "UGX"]%string ++
    map (λ c, (c, threeDecimalAmountUnit)) ["BHD"; "IQD"; "JOD"; "KWD"; "LYD"; "OMR"; "TND"]%string).

(** Unicode folding of strings outside ASCII, an argument of the model. *)
Class UnicodeFold := { unicodeEqualFold : string → string → bool }.

(** [strings.EqualFold]: by bytes on ASCII strings. *)
Definition FoldEqual `{UnicodeFold} (a b : string) : bool :=
  if isASCII a && isASCII b then eqs (mapBytes lowerByte a) (mapBytes lowerByte b) else unicodeEqualFold a b.

Section currency.
Context `{UnicodeCase}.

Definition upperLetter (a : ascii) : bool := ((65 <=? byteOf a) && (byteOf a <=? 90))%N.

(** [None] is the error of a malformed code. *)
Definition NormalizePaymentCurrency (raw : string) : option string :=
  let currency := ToUpper (TrimSpace raw) in
  if eqs currency "" then Some DefaultPaymentCurrency
  else if negb (len currency =? 3) then None
  else if forallb upperLetter (String.list_ascii_of_string currency) then Some currency else None.

Definition paymentCurrencyAmountUnitFor (currency : string) : paymentCurrencyAmountUnit :=
  match NormalizePaymentCurrency currency with
  | None => twoDecimalAmountUnit
  | Some normalized => default twoDecimalAmountUnit (paymentCurrencyAmountUnits !! normalized)
  end.

Definition CurrencyMinorUnit (currency : string) : Z := apiMinorUnit (paymentCurrencyAmountUnitFor currency).
Definition CurrencyMaxFractionDigits (currency : string) : Z := maxFractionDigits (paymentCurrencyAmountUnitFor currency).

(** 0.01 and [math.Pow10(-n)], correctly rounded. *)
Definition amountToleranceCNY : float64 := f64_div (f64_of_Z 1) (f64_of_Z 100).
Definition Pow10Neg (n : Z) : float64 := f64_div (f64_of_Z 1) (f64_of_Z (10 ^ n)).

Definition paymentAmountToleranceForCurrency (currency : string) : float64 :=
  let minorUnit := CurrencyMinorUnit currency in
  if minorUnit <=? 2 then amountToleranceCNY else f64_div (Pow10Neg minorUnit) (f64_of_Z 2).

(** ** The snapshot of the provider *)

Record paymentOrderProviderSnapshot := mkProviderSnapshot {
  SchemaVersion : Z;
  SnapInstanceID : string;
  SnapProviderKey : string;
  SnapPaymentMode : string;
  MerchantAppID : string;
  MerchantID : string;
  Currency : string;
}.

Definition psSnapshotStringValue (value : option snapshotValue) : string :=
  match value with Some (SnapString s) => TrimSpace s | _ => "" end.

Definition psSnapshotIntValue (value : option snapshotValue) : Z :=
  match value with
  | Some (SnapNumber v) => f64_trunc v
  | Some (SnapString s) => default 0 (Atoi (TrimSpace s))
  | _ => 0
  end.

Definition psOrderProviderSnapshot (order : PaymentOrder) : option paymentOrderProviderSnapshot :=
  let m := ProviderSnapshot order in
  if bool_decide (m = ∅) then None else
  let s := mkProviderSnapshot (psSnapshotIntValue (m !! "schema_version"%string))
             (psSnapshotStringValue (m !! "provider_instance_id"%string)) (psSnapshotStringValue (m !! "provider_key"%string))
             (psSnapshotStringValue (m !! "payment_mode"%string)) (psSnapshotStringValue (m !! "merchant_app_id"%string))
             (psSnapshotStringValue (m !! "merchant_id"%string)) (psSnapshotStringValue (m !! "currency"%string)) in
  if (SchemaVersion s =? 0) && eqs (SnapInstanceID s) "" && eqs (SnapProviderKey s) "" && eqs (SnapPaymentMode s) ""
     && eqs (MerchantAppID s) "" && eqs (MerchantID s) "" && eqs (Currency s) ""
  then None else Some s.

Definition PaymentOrderCurrency (order : PaymentOrder) : string :=
  match psOrderProviderSnapshot order with
  | Some snapshot => default DefaultPaymentCurrency (NormalizePaymentCurrency (Currency snapshot))
  | None => DefaultPaymentCurrency
  end.

(** [GetProviderKey] of the registry is an argument; [None] is a nil registry. *)
Definition expectedNotificationProviderKey (registry : option (string → string))
    (orderPaymentType orderProviderKey instanceProviderKey : string) : string :=
  if negb (eqs (TrimSpace instanceProviderKey) "") then TrimSpace instanceProviderKey
  else if negb (eqs (TrimSpace orderProviderKey) "") then TrimSpace orderProviderKey
  else match registry with
       | Some key => if negb (eqs (TrimSpace (key orderPaymentType)) "") then TrimSpace (key orderPaymentType)
                     else TrimSpace orderPaymentType
       | None => TrimSpace orderPaymentType
       end.

Definition psStringValue (value : option string) : string := default ""%string value.

Definition expectedNotificationProviderKeyForOrder (registry : option (string → string)) (order : PaymentOrder)
    (instanceProviderKey : string) : string :=
  let orderProviderKey :=
    match psOrderProviderSnapshot order with
    | Some snapshot => if eqs (SnapProviderKey snapshot) "" then psStringValue (ProviderKey order) else SnapProviderKey snapshot
    | None => psStringValue (ProviderKey order)
    end in
  expectedNotificationProviderKey registry (PaymentType order) orderProviderKey instanceProviderKey.

Context `{UnicodeFold}.

(** One field of a notification against its expected value: nothing is
    expected, or the field is present and equal up to case. *)
Definition matchField (expected actual : string) : result string unit :=
  if eqs (TrimSpace expected) "" then Ok tt
  else if eqs actual "" then Err "missing"
  else if FoldEqual (TrimSpace expected) actual then Ok tt else Err "mismatch".

(** A state that must be [wanted] when it is reported. *)
Definition matchState (wanted actual : string) : result string unit :=
  if negb (eqs actual "") && negb (FoldEqual actual wanted) then Err "state mismatch" else Ok tt.

Definition validateProviderSnapshotMetadata (order : PaymentOrder) (providerKey : string) (metadata : gmap string string)
    : result string unit :=
  if bool_decide (metadata = ∅) then Ok tt else
  match psOrderProviderSnapshot order with
  | None => Ok tt
  | Some snapshot =>
      let field name := TrimSpace (default ""%string (metadata !! name)) in
      let key := TrimSpace providerKey in
      if eqs key TypeWxpay then
        _ ← matchField (MerchantAppID snapshot) (field "appid"%string);
        _ ← matchField (MerchantID snapshot) (field "mchid"%string);
        _ ← matchField (Currency snapshot) (ToUpper (field "currency"%string));
        matchState "SUCCESS" (field "trade_state"%string)
      else if eqs key TypeAlipay then matchField (MerchantAppID snapshot) (field "app_id"%string)
      else if eqs key TypeEasyPay then matchField (MerchantID snapshot) (field "pid"%string)
      else if eqs key TypeStripe then matchField (Currency snapshot) (ToUpper (field "currency"%string))
      else if eqs key TypeAirwallex then
        _ ← matchField (MerchantID snapshot) (field "account_id"%string);
        _ ← matchField (Currency snapshot) (ToUpper (field "currency"%string));
        matchState "SUCCEEDED" (field "status"%string)
      else Ok tt
  end.
End currency.

(** ** Amounts *)

Definition isValidProviderAmount (amount : float64) : bool :=
  f64_gt amount f64_zero && negb (f64_isNaN amount) && negb (f64_isInf amount).

Definition usableLimit (limit : option float64) : option float64 :=
  match limit with
  | Some l => if f64_le l f64_zero || f64_isNaN l || f64_isInf l then None else Some l
  | None => None
  end.

(** The first usable limit of the month, the week and the day. *)
Definition paymentOrderPurchasedReasoningPoints (order : PaymentOrder) : option float64 :=
  if eqs (OrderType order) OrderTypeBalance then
    let points := Amount order in
    if f64_le points f64_zero || f64_isNaN points || f64_isInf points then None else Some points
  else if eqs (OrderType order) OrderTypeSubscription then
    let plan := PlanSnapshot order in
    match usableLimit (MonthlyLimitUSD plan), usableLimit (WeeklyLimitUSD plan), usableLimit (DailyLimitUSD plan) with
    | Some l, _, _ | None, Some l, _ | None, None, Some l => Some l
    | None, None, None => None
    end
  else None.

Definition affiliateRebateBasePoints (order : PaymentOrder) : float64 :=
  default f64_zero (paymentOrderPurchasedReasoningPoints order).

(** The code of an order: unique, because it contains the identifier. *)
Definition rechargeCodeOf (id unixNano : Z) : string :=
  "PAY-" +:+ Itoa id +:+ "-" +:+ Itoa (goRem unixNano 100000).

(** *** The text of such a code *)

Definition isDigit (a : ascii) : Prop := (48 <= byteOf a <= 57)%N.

Lemma pretty_N_char_digit x : isDigit (pretty_N_char x).
Proof. unfold isDigit, pretty_N_char. repeat case_match; vm_compute; split; congruence. Qed.

Lemma pretty_N_go_digits x s :
  ∃ l, String.list_ascii_of_string (pretty_N_go x s) = l ++ String.list_ascii_of_string s ∧ Forall isDigit l ∧
    ((0 < x)%N → l ≠ []).
Proof.
  revert s. induction (N.lt_wf_0 x) as [x _ IH]; intros s.
  destruct (decide (x = 0)%N) as [->|Hx]; [exists []; rewrite pretty_N_go_0; by split_and!|].
  rewrite pretty_N_go_step by lia. destruct (IH (x `div` 10)%N ltac:(apply N.div_lt; lia) (String (pretty_N_char (x `mod` 10)) s)) as (l & E & Hl & _).
  exists (l ++ [pretty_N_char (x `mod` 10)]). split; [|split].
  - rewrite E, <- app_assoc. done.
  - apply Forall_app. split; [done | repeat constructor; apply pretty_N_char_digit].
  - intros _. by destruct l.
Qed.

Lemma pretty_N_digits (x : N) : ∃ l, String.list_ascii_of_string (pretty x) = l ∧ Forall isDigit l ∧ l ≠ [].
Proof.
  unfold pretty, pretty_N. destruct (decide (x = 0)%N).
  - eexists. split; [done|]. split; [repeat constructor; vm_compute; congruence | done].
  - destruct (pretty_N_go_digits x "") as (l & E & Hl & Hn). exists l. rewrite app_nil_r in E. split; [done|]. split; [done | apply Hn; lia].
Qed.

Lemma Itoa_digits z : 0 <= z → Forall isDigit (String.list_ascii_of_string (Itoa z)).
Proof.
  intros Hz. destruct (pretty_N_digits (Z.to_N z)) as (l & E & Hl & _).
  enough (Itoa z = pretty (Z.to_N z)) as -> by by rewrite E. by destruct z.
Qed.

Lemma Itoa_last z : ∃ l a, String.list_ascii_of_string (Itoa z) = l ++ [a] ∧ isDigit a.
Proof.
  assert (∃ pre x, Itoa z = pre +:+ pretty (x : N)) as (pre & x & ->).
  { destruct z as [|p|p]; [exists ""%string, 0%N | exists ""%string, (N.pos p) | exists "-"%string, (N.pos p)]; done. }
  destruct (pretty_N_digits x) as (l & E & Hl & Hn). rewrite list_ascii_app, E.
  destruct (exists_last Hn) as (l' & a & ->). apply Forall_app in Hl as [_ [Ha _]%Forall_cons].
  exists (String.list_ascii_of_string pre ++ l'), a. by rewrite app_assoc.
Qed.

(** The digits before a dash are determined. *)
Lemma digits_before_dash l1 l2 r1 r2 :
  Forall isDigit l1 → Forall isDigit l2 → l1 ++ "-"%char :: r1 = l2 ++ "-"%char :: r2 → l1 = l2.
Proof.
  assert (Hd : ¬ isDigit "-"%char) by (unfold isDigit; vm_compute; intros []; congruence).
  revert l2. induction l1 as [|a l1 IH]; intros [|b l2] H1 H2; cbn; intros E; [done| | |]; injection E as ? E; subst.
  - by apply Forall_cons in H2 as [? _].
  - by apply Forall_cons in H1 as [? _].
  - apply Forall_cons in H1 as [_ H1]. apply Forall_cons in H2 as [_ H2]. f_equal. by apply IH.
Qed.

Lemma rechargeCodeOf_inj i j m n : 0 < i → 0 < j → rechargeCodeOf i m = rechargeCodeOf j n → i = j.
Proof.
  intros Hi Hj E. apply (f_equal String.list_ascii_of_string) in E. unfold rechargeCodeOf in E.
  rewrite !list_ascii_app in E. apply app_inv_head in E.
  assert (Itoa i = Itoa j) as E'.
  { apply list_ascii_inj. eapply digits_before_dash; [apply Itoa_digits; lia | apply Itoa_digits; lia | exact E]. }
  unfold Itoa in E'. by apply (inj pretty) in E'.
Qed.

(** Such a code has no space to trim. *)
Lemma rechargeCodeOf_trim i n : TrimSpace (rechargeCodeOf i n) = rechargeCodeOf i n.
Proof.
  destruct (Itoa_last (goRem n 100000)) as (l & a & E & Ha). unfold isDigit in Ha.
  apply (TrimSpace_solid _ "P"%char (["A"; "Y"; "-"]%char ++ String.list_ascii_of_string (Itoa i) ++ ["-"%char] ++ l) a).
  - unfold rechargeCodeOf. rewrite !list_ascii_app, E. cbn. by rewrite <- !app_assoc.
  - split; [split; [by vm_compute|]|by vm_compute]. intros [_ Hb]. by vm_compute in Hb.
  - unfold solid. lia.
Qed.
