(* ===== verification/RedeemCode.v ===== *)
(** * Redeem codes

    [service/redeem_code.go]: the status of a code and its remaining uses.  A
    nil code is not modelled: every method is called on a row that was read.
    [now] is the clock reading of [IsNaturallyExpired]. *)

From S2P Require Import Prelude GoRuntime Domain AppErrors.
#[local] Open Scope Z_scope.

Definition StatusUnused : string := "unused".
Definition StatusUsed : string := "used".
Definition StatusDisabled : string := "disabled".

Definition RedeemTypeBalance : string := "balance".
Definition RedeemTypeConcurrency : string := "concurrency".
Definition RedeemTypeSubscription : string := "subscription".
Definition RedeemTypeInvitation : string := "invitation".

Record RedeemCode := mkCode {
  ID : Z;
  Code : string;
  Type_ : string;
  Value : float64;
  Status : string;
  MaxUses : Z;
  UsedCount : Z;
  ExpiresAt : option Time;
  UsedBy : option Z;
  UsedAt : option Time;
  PlanID : option Z;
}.

Definition setPersisted (v : string) (r : RedeemCode) : RedeemCode :=
  mkCode (ID r) (Code r) (Type_ r) (Value r) v (MaxUses r) (UsedCount r) (ExpiresAt r) (UsedBy r) (UsedAt r) (PlanID r).

Definition setID (v : Z) (r : RedeemCode) : RedeemCode :=
  mkCode v (Code r) (Type_ r) (Value r) (Status r) (MaxUses r) (UsedCount r) (ExpiresAt r) (UsedBy r) (UsedAt r) (PlanID r).
Definition setCode (v : string) (r : RedeemCode) : RedeemCode :=
  mkCode (ID r) v (Type_ r) (Value r) (Status r) (MaxUses r) (UsedCount r) (ExpiresAt r) (UsedBy r) (UsedAt r) (PlanID r).

Definition maxUsesOrDefault (r : RedeemCode) : Z := if MaxUses r <? 0 then 1 else MaxUses r.
Definition HasUnlimitedUses (r : RedeemCode) : bool := maxUsesOrDefault r =? 0.
Definition HasBeenUsed (r : RedeemCode) : bool := 0 <? UsedCount r.
Definition HasRemainingUses (r : RedeemCode) : bool :=
  if HasUnlimitedUses r then true else UsedCount r <? maxUsesOrDefault r.
Definition IsExhausted (r : RedeemCode) : bool := negb (HasUnlimitedUses r) && negb (HasRemainingUses r).

Definition IsNaturallyExpired (r : RedeemCode) (now : Time) : bool :=
  match ExpiresAt r with Some e => negb (Before now e) | None => false end.
Definition IsExpired (r : RedeemCode) (now : Time) : bool := eqs (Status r) StatusExpired || IsNaturallyExpired r now.

Definition PersistedStatus (r : RedeemCode) : string :=
  if eqs (Status r) StatusDisabled then StatusDisabled
  else if eqs (Status r) StatusExpired then StatusExpired
  else if IsExhausted r then StatusUsed
  else if HasBeenUsed r then StatusActive
  else StatusUnused.

Definition EffectiveStatus (r : RedeemCode) (now : Time) : string :=
  if eqs (Status r) StatusDisabled then StatusDisabled
  else if IsExpired r now then StatusExpired
  else PersistedStatus r.

Definition IsUsed (r : RedeemCode) (now : Time) : bool := eqs (EffectiveStatus r now) StatusUsed.
Definition CanUse (r : RedeemCode) (now : Time) : bool :=
  eqs (EffectiveStatus r now) StatusUnused || eqs (EffectiveStatus r now) StatusActive.
Definition CanDelete (r : RedeemCode) : bool := UsedCount r =? 0.

Definition ErrRedeemCodeNotFound := AppErrors.NotFound "REDEEM_CODE_NOT_FOUND" "redeem code not found".
Definition ErrRedeemCodeExists := Conflict "REDEEM_CODE_EXISTS" "redeem code already exists".
Definition ErrRedeemCodeExpired := BadRequest "REDEEM_CODE_EXPIRED" "redeem code has expired".
Definition ErrRedeemCodeMaxUsed := Conflict "REDEEM_CODE_MAX_USED" "redeem code has reached maximum uses".
Definition ErrRedeemCodeAlreadyUsed := Conflict "REDEEM_CODE_ALREADY_USED" "you have already used this redeem code".
Definition ErrRedeemRateLimited := TooManyRequests "REDEEM_RATE_LIMITED" "too many failed attempts, please try again later".
Definition ErrRedeemCodeLocked := Conflict "REDEEM_CODE_LOCKED" "redeem code is being processed, please try again".

(** The fields that [CreateCode] fills in before the row is written. *)
Definition normalizeNewCode (r : RedeemCode) : RedeemCode :=
  let r := mkCode (ID r) (Code r) (if eqs (Type_ r) "" then RedeemTypeBalance else Type_ r) (Value r)
             (if eqs (Status r) "" then StatusUnused else Status r)
             (if eqs (if eqs (Type_ r) "" then RedeemTypeBalance else Type_ r) RedeemTypeInvitation then 1
              else if MaxUses r <=? 0 then 1 else MaxUses r)
             (if UsedCount r <? 0 then 0 else UsedCount r) (ExpiresAt r) (UsedBy r) (UsedAt r) (PlanID r) in
  setPersisted (PersistedStatus r) r.

(** The row after one more use by [userID]. *)
Definition useCode (userID : Z) (usageTime : Time) (r : RedeemCode) : RedeemCode :=
  let r := mkCode (ID r) (Code r) (Type_ r) (Value r) (Status r) (MaxUses r) (wrap64 (UsedCount r + 1)) (ExpiresAt r)
             (Some userID) (Some usageTime) (PlanID r) in
  setPersisted (PersistedStatus r) r.
