(* ===== verification/PaymentDB.v ===== *)
(** * The tables of payments

    The rows that payments and redeem codes read and write, and the statements
    of the code on them: [payment_orders], [payment_audit_logs] (whose key is
    the unique index on order and action), [redeem_codes] and
    [redeem_code_usages], the users, their subscriptions and API keys, and what
    the affiliate service accrued.  [credits] lists the adjustments that
    redemptions committed, in the order of the commits.  Balances are NUMERIC
    columns as in [BillingDB]. *)

From S2P Require Import Prelude GoRuntime Domain AppErrors Transactions PaymentOrder.
From S2P Require RedeemCode UserSubscription BillingDB.
#[local] Open Scope Z_scope.

Abbreviation RedeemCode := RedeemCode.RedeemCode.

(** One committed adjustment of a user by a code. *)
Inductive credit :=
  | BalanceCredit (user : Z) (code : string) (amount : float64)
  | ConcurrencyCredit (user : Z) (code : string) (delta : Z).

(** A row of [user_subscriptions]; the list of rows is in the order of their
    creation. *)
Record SubscriptionRow := mkSubscriptionRow {
  subID : Z;
  subUserID : Z;
  subPlanID : Z;
  subBody : UserSubscription.UserSubscription;
  subSourceOrderID : option Z;
}.

Definition subStartsAt (r : SubscriptionRow) : Time := UserSubscription.StartsAt (subBody r).
Definition subExpiresAt (r : SubscriptionRow) : Time := UserSubscription.ExpiresAt (subBody r).
Definition subStatus (r : SubscriptionRow) : string := UserSubscription.sStatus (subBody r).
Definition subDeleted (r : SubscriptionRow) : bool := negb (UserSubscription.notDeleted (subBody r)).

Definition etaRow (r : SubscriptionRow) : SubscriptionRow :=
  mkSubscriptionRow (subID r) (subUserID r) (subPlanID r) (subBody r) (subSourceOrderID r).
Definition setBody (b : UserSubscription.UserSubscription) (r : SubscriptionRow) : SubscriptionRow :=
  ltac:(set_field etaRow r subBody b).

(** The columns of [users] and [api_keys] that are read here. *)
Record userRow := mkUserRow {
  balance : Z;           (* units8 *)
  totalRecharged : Z;    (* units8 *)
  concurrency : Z;
  userDeleted : bool;
}.

Record apiKeyRow := mkApiKeyRow {
  billingMode : string;
  preferredSubscriptionID : option Z;
  keyDeleted : bool;
}.

(** The detail of a [REFUND_PENDING] entry; other details are not read. *)
Record refundPendingAuditDetail := mkPendingDetail {
  RefundID : string;
  detDeductBalance : bool;
  detDeductionType : string;
  BalanceDeducted : float64;
  SubDaysDeducted : Z;
  detSubscriptionID : Z;
  DeductionRollbackOK : bool;
}.

Record payDB := mkPayDB {
  orders : gmap Z PaymentOrder;
  audits : gmap (Z * string) (option refundPendingAuditDetail);
  codes : gmap string RedeemCode;
  usages : gset (Z * Z);
  nextCodeID : Z;
  users : gmap Z userRow;
  credits : list credit;
  subs : list SubscriptionRow;
  rebates : list (option Z * Z * float64);
  apiKeys : gmap Z apiKeyRow;
}.

Definition etaDB (d : payDB) : payDB :=
  mkPayDB (orders d) (audits d) (codes d) (usages d) (nextCodeID d) (users d) (credits d) (subs d) (rebates d) (apiKeys d).
Definition setOrders (v : gmap Z PaymentOrder) (d : payDB) : payDB := ltac:(set_field etaDB d orders v).
Definition setAudits (v : gmap (Z * string) (option refundPendingAuditDetail)) (d : payDB) : payDB := ltac:(set_field etaDB d audits v).
Definition setCodes (v : gmap string RedeemCode) (d : payDB) : payDB := ltac:(set_field etaDB d codes v).
Definition setUsages (v : gset (Z * Z)) (d : payDB) : payDB := ltac:(set_field etaDB d usages v).
Definition setNextCodeID (v : Z) (d : payDB) : payDB := ltac:(set_field etaDB d nextCodeID v).
Definition setUsers (v : gmap Z userRow) (d : payDB) : payDB := ltac:(set_field etaDB d users v).
Definition setApiKeys (v : gmap Z apiKeyRow) (d : payDB) : payDB := ltac:(set_field etaDB d apiKeys v).
Definition addCredit (c : credit) (d : payDB) : payDB := ltac:(set_field etaDB d credits (credits d ++ [c])).
Definition setSubs (v : list SubscriptionRow) (d : payDB) : payDB := ltac:(set_field etaDB d subs v).
Definition addRebate (v : option Z * Z * float64) (d : payDB) : payDB := ltac:(set_field etaDB d rebates (v :: rebates d)).

(** ** Statements on orders and the audit log *)

Abbreviation txn := (transaction payDB).

Definition reading {X} (f : Time → payDB → result dbError X) : txn X := λ t d, (f t d, d).

Definition found {X} (o : option X) : result dbError X := match o with Some x => Ok x | None => Err RowNotFound end.

(** [PaymentOrder.Get]. *)
Definition orderGet (oid : Z) : txn PaymentOrder := reading (λ _ d, found (orders d !! oid)).

(** [Update().Where(IDEQ(oid), cond).set.Save]: the number of rows, and
    [updated_at] (the update default of the schema, unless [set] sets it). *)
Definition orderUpdate (oid : Z) (cond : PaymentOrder → bool) (set : PaymentOrder → PaymentOrder) : txn Z := λ t d,
  match orders d !! oid with
  | Some o => if cond o then (Ok 1, setOrders (<[oid := set (SetUpdatedAt t o)]> (orders d)) d) else (Ok 0, d)
  | None => (Ok 0, d)
  end.

(** [UpdateOneID(oid).set.Save]: the row, or an error if there is none. *)
Definition orderUpdateOne (oid : Z) (set : PaymentOrder → PaymentOrder) : txn PaymentOrder := λ t d,
  match orders d !! oid with
  | Some o => let o := set (SetUpdatedAt t o) in (Ok o, setOrders (<[oid := o]> (orders d)) d)
  | None => (Err RowNotFound, d)
  end.

Definition statusEQ (status : string) (o : PaymentOrder) : bool := eqs (Status o) status.
Definition statusIn (statuses : list string) (o : PaymentOrder) : bool := existsb (eqs (Status o)) statuses.

Definition audited (oid : Z) (action : string) (d : payDB) : bool := bool_decide (is_Some (audits d !! (oid, action))).

(** The insert of [writeAuditLog]: the unique index rejects a second entry of
    an action. *)
Definition auditInsert (oid : Z) (action : string) (detail : option refundPendingAuditDetail) : txn unit := λ _ d,
  if audited oid action d then (Err (DBError "duplicate key"), d)
  else (Ok tt, setAudits (<[(oid, action) := detail]> (audits d)) d).

Definition auditCount (oid : Z) (action : string) : txn bool := reading (λ _ d, Ok (audited oid action d)).

(** ** Statements on users *)

(** The queries skip deleted users; the updates by key do not. *)
Definition liveUser (uid : Z) (d : payDB) : option userRow :=
  match users d !! uid with Some u => if userDeleted u then None else Some u | None => None end.

Section balances.
Context `{BillingDB.SQLNumeric}.

Definition plus8 (v : Z) (q : QArith_base.Q) : Z := BillingDB.store8 (QArith_base.Qplus (BillingDB.col8 v) q).

(** [UpdateBalance]: a positive amount also counts as recharged. *)
Definition topUp (amount : float64) (q : QArith_base.Q) (u : userRow) : userRow :=
  mkUserRow (plus8 (balance u) q) (if f64_gt amount f64_zero then plus8 (totalRecharged u) q else totalRecharged u)
    (concurrency u) (userDeleted u).

Definition UpdateBalance (uid : Z) (amount : float64) : txn unit := λ _ d,
  match BillingDB.sqlParam amount, users d !! uid with
  | None, _ => (Err (DBError "numeric"), d)
  | Some _, None => (Err RowNotFound, d)
  | Some q, Some u => (Ok tt, setUsers (<[uid := topUp amount q u]> (users d)) d)
  end.

(** [ApplyRedeemBalanceAdjustment]. *)
Definition ApplyRedeemBalanceAdjustment (uid : Z) (delta : float64) : txn unit := λ _ d,
  match BillingDB.sqlParam delta, liveUser uid d with
  | None, _ => (Err (DBError "numeric"), d)
  | Some _, None => (Err RowNotFound, d)
  | Some q, Some u =>
      (Ok tt, setUsers (<[uid := mkUserRow (Z.max (plus8 (balance u) q) 0) (totalRecharged u) (concurrency u) (userDeleted u)]> (users d)) d)
  end.

(** [DeductBalance]: down to zero at most; the amount that was deducted. *)
Definition DeductBalance (uid : Z) (amount : float64) : txn float64 := λ _ d,
  match BillingDB.sqlParam amount, liveUser uid d with
  | None, _ => (Err (DBError "numeric"), d)
  | Some _, None => (Err RowNotFound, d)
  | Some q, Some u =>
      let held := BillingDB.col8 (balance u) in
      let '(rest, deducted) :=
        if balance u <=? 0 then (balance u, QArith_base.inject_Z 0)
        else if QArith_base.Qle_bool held q then (0, held)
        else (plus8 (balance u) (QArith_base.Qopp q), q) in
      (Ok (BillingDB.sqlScan deducted),
       setUsers (<[uid := mkUserRow rest (totalRecharged u) (concurrency u) (userDeleted u)]> (users d)) d)
  end.
End balances.

(** [UpdateConcurrency] and [ApplyRedeemConcurrencyAdjustment]. *)
Definition UpdateConcurrency (uid : Z) (amount : Z) : txn unit := λ _ d,
  match users d !! uid with
  | None => (Err RowNotFound, d)
  | Some u => (Ok tt, setUsers (<[uid := mkUserRow (balance u) (totalRecharged u) (concurrency u + amount) (userDeleted u)]> (users d)) d)
  end.

Definition ApplyRedeemConcurrencyAdjustment (uid : Z) (delta : Z) : txn unit := λ _ d,
  match liveUser uid d with
  | None => (Err RowNotFound, d)
  | Some u =>
      (Ok tt, setUsers (<[uid := mkUserRow (balance u) (totalRecharged u) (Z.max (concurrency u + delta) 0) (userDeleted u)]> (users d)) d)
  end.

(** These statements write [users] only. *)
Definition usersOnly {X} (f : txn X) : Prop := ∀ t d, ∃ v, snd (f t d) = setUsers v d.

Lemma usersOnly_same d : ∃ v, d = setUsers v d.
Proof. exists (users d). by destruct d. Qed.

Lemma usersOnly_UpdateBalance `{BillingDB.SQLNumeric} uid amount : usersOnly (UpdateBalance uid amount).
Proof.
  intros t d. unfold UpdateBalance. destruct (BillingDB.sqlParam amount), (users d !! uid); cbn [snd]; eauto using usersOnly_same.
Qed.

Lemma usersOnly_ApplyBalance `{BillingDB.SQLNumeric} uid delta : usersOnly (ApplyRedeemBalanceAdjustment uid delta).
Proof.
  intros t d. unfold ApplyRedeemBalanceAdjustment. destruct (BillingDB.sqlParam delta), (liveUser uid d); cbn [snd]; eauto using usersOnly_same.
Qed.

Lemma usersOnly_DeductBalance `{BillingDB.SQLNumeric} uid amount : usersOnly (DeductBalance uid amount).
Proof.
  intros t d. unfold DeductBalance. destruct (BillingDB.sqlParam amount) as [q|], (liveUser uid d) as [u|]; cbn [snd]; eauto using usersOnly_same.
  destruct (if balance u <=? 0 then _ else _) as [rest deducted]. by eexists.
Qed.

Lemma usersOnly_UpdateConcurrency uid amount : usersOnly (UpdateConcurrency uid amount).
Proof. intros t d. unfold UpdateConcurrency. destruct (users d !! uid); cbn [snd]; eauto using usersOnly_same. Qed.

Lemma usersOnly_ApplyConcurrency uid delta : usersOnly (ApplyRedeemConcurrencyAdjustment uid delta).
Proof. intros t d. unfold ApplyRedeemConcurrencyAdjustment. destruct (liveUser uid d); cbn [snd]; eauto using usersOnly_same. Qed.

(** ** Programs *)

(** A function that returns an error runs on only after a nil error. *)
Definition M (A : Type) : Type := Prog payDB (result goError A).
Abbreviation P := (Prog payDB).

Definition ok {A} (a : A) : M A := Ret (Ok a).
Definition fails {A} (e : goError) : M A := Ret (Err e).
Definition failsApp {A} (e : ApplicationError) : M A := Ret (Err (AppErr e)).
Definition andThen {A B} (m : M A) (f : A → M B) : M B :=
  bindProg (λ r, match r with Ok a => f a | Err e => fails e end) m.

Declare Scope pay_scope.
Delimit Scope pay_scope with pay.
Notation "'let*' x ':=' m 'in' f" := (andThen m (λ x, f))
  (at level 200, x name, m at level 100, f at level 200, right associativity) : pay_scope.
Notation "'do*' m 'in' f" := (andThen m (λ _, f))
  (at level 200, m at level 100, f at level 200, right associativity) : pay_scope.
Notation "'run' m 'in' f" := (bindProg (λ _, f) m)
  (at level 200, m at level 100, f at level 200, right associativity) : pay_scope.
#[global] Open Scope pay_scope.

Definition dbGoError (e : dbError) : goError :=
  match e with RowNotFound => OtherErr "not found" [] | DBError text => OtherErr text [] end.

(** [fmt.Errorf("text: %w", err)] of the error of a statement. *)
Definition query {X} (text : string) (f : txn X) : M X :=
  Query f (λ r, match r with Ok x => ok x | Err e => fails (OtherErr text [dbGoError e]) end).

(** A statement whose every error becomes [e]. *)
Definition queryOr {X} (e : ApplicationError) (f : txn X) : M X :=
  Query f (λ r, match r with Ok x => ok x | Err _ => failsApp e end).

(** A transaction that may also abort with an error of the application. *)
Definition transact {X} (text : string) (f : txn (result goError X)) : M X :=
  Query f (λ r, match r with Ok r => Ret r | Err e => fails (OtherErr text [dbGoError e]) end).

Definition wrapError {A} (text : string) (m : M A) : M A :=
  bindProg (λ r, match r with Ok a => ok a | Err e => fails (OtherErr text [e]) end) m.

Definition ignore {A} (m : M A) : P unit := bindProg (λ _, Ret tt) m.

Definition writeAuditDetail (oid : Z) (action : string) (detail : option refundPendingAuditDetail) : P unit :=
  Query (auditInsert oid action detail) (λ _, Ret tt).
Definition writeAuditLog (oid : Z) (action : string) : P unit := writeAuditDetail oid action None.

Definition hasAuditLog (oid : Z) (action : string) : P bool :=
  Query (auditCount oid action) (λ r, match r with Ok b => Ret b | Err _ => Ret false end).

(** *** Runs *)

Lemma exec_andThen {A B} t (m : M A) (f : A → M B) d :
  exec t (andThen m f) d = match exec t m d with (Ok a, d') => exec t (f a) d' | (Err e, d') => (Err e, d') end.
Proof. unfold andThen. rewrite exec_bindProg. by destruct (exec t m d) as [[a|e] d']. Qed.

Lemma exec_query {X} t text (f : txn X) d :
  exec t (query text f) d = match f t d with (Ok x, d') => (Ok x, d') | (Err e, d') => (Err (OtherErr text [dbGoError e]), d') end.
Proof. cbn. by destruct (f t d) as [[x|e] d']. Qed.

Lemma exec_wrapError {A} t text (m : M A) d a d' : exec t m d = (Ok a, d') → exec t (wrapError text m) d = (Ok a, d').
Proof. intros E. unfold wrapError. by rewrite exec_bindProg, E. Qed.

Lemma exec_audit t oid action d :
  let d' := (exec t (writeAuditLog oid action) d).2 in
  orders d' = orders d ∧ users d' = users d ∧ codes d' = codes d ∧ usages d' = usages d ∧ credits d' = credits d.
Proof. cbn. unfold auditInsert. by destruct (audited oid action d). Qed.

Lemma exec_hasAuditLog t oid action d : exec t (hasAuditLog oid action) d = (audited oid action d, d).
Proof. done. Qed.
