(* ===== verification/PaymentGrants.v ===== *)
(** * What a payment grants: redemptions, subscriptions, rebates

    [service/redeem_service.go] ([CreateCode], [Redeem]),
    [service/subscription_service.go] ([AssignOrExtendSubscription]) and the
    rebate of an order ([service/payment_fulfillment.go],
    [applyAffiliateRebateForOrder]).  A database transaction whose rows are
    locked ([FOR UPDATE]) is one [transaction]. *)

From S2P Require Import Prelude GoRuntime Domain AppErrors Transactions PaymentOrder PaymentDB.
From S2P Require RedeemCode UserSubscription BillingDB.
#[local] Open Scope Z_scope.

(** A plan that is granted without a template of its own. *)
Record planRow := mkPlan {
  planValidityDays : Z;
  planValidityUnit : string;
  planDailyLimitUSD : option float64;
  planWeeklyLimitUSD : option float64;
  planMonthlyLimitUSD : option float64;
}.

(** What the payment code asks of its configuration and of other services: the
    provider registry, the key of the provider instance of an order, the
    affiliate switch and accrual, the plans, [Time.AddDate(0, 0, days)], the
    text of an error, and how the driver sends and reads amounts. *)
Record paymentService := mkPaymentService {
  registryProviderKey : option (string → string);
  instanceProviderKey : PaymentOrder → string;
  affiliateEnabled : bool;
  AccrueInviteRebate : Time → Z → float64 → option Z → result goError float64;
  planOf : Z → option planRow;
  AddDays : Time → Z → Time;
  errorText : goError → string;
  payNumeric : BillingDB.SQLNumeric;
}.


(** The answers of the caches that one redemption consults. *)
Record redeemEnv := mkRedeemEnv { rateLimited : bool; lockAcquired : bool; skipAffiliate : bool }.

Section grants.
Context (s : paymentService).
#[local] Instance numericOf : BillingDB.SQLNumeric := payNumeric s.

(** ** Subscriptions *)

Definition MaxValidityDays : Z := 36500.
(** 2099-12-31T23:59:59Z. *)
Definition MaxExpiresAt : Time := (unixToInternal + 4102444799) * Second.

Record AssignSubscriptionInput := mkAssignInput {
  inUserID : Z;
  inPlanID : Z;
  inValidityDays : Z;
  inDailyLimitUSD : option float64;
  inWeeklyLimitUSD : option float64;
  inMonthlyLimitUSD : option float64;
  UseProvidedTemplate : bool;
  SourceOrderID : option Z;
}.

Record grantPlanTemplate := mkTemplate {
  tValidityDays : Z;
  tDailyLimitUSD : option float64;
  tWeeklyLimitUSD : option float64;
  tMonthlyLimitUSD : option float64;
}.

Definition normalizeAssignValidityDays (days : Z) : Z :=
  let days := if days <=? 0 then 30 else days in
  if MaxValidityDays <? days then MaxValidityDays else days.

Definition psComputeValidityDays (days : Z) (unit_ : string) : Z :=
  if eqs unit_ "week" || eqs unit_ "weeks" then wrap64 (days * 7)
  else if eqs unit_ "month" || eqs unit_ "months" then wrap64 (days * 30)
  else days.

Definition negative (v : option float64) : bool := match v with Some x => f64_lt x f64_zero | None => false end.

Definition validatePlanQuotas (daily weekly monthly : option float64) : result ApplicationError unit :=
  if negative daily then Err (BadRequest "PLAN_DAILY_LIMIT_INVALID" "daily limit must be >= 0")
  else if negative weekly then Err (BadRequest "PLAN_WEEKLY_LIMIT_INVALID" "weekly limit must be >= 0")
  else if negative monthly then Err (BadRequest "PLAN_MONTHLY_LIMIT_INVALID" "monthly limit must be >= 0")
  else Ok tt.

Definition override {A} (given fallback : option A) : option A := match given with Some x => Some x | None => fallback end.

Definition resolveGrantPlanTemplate (input : AssignSubscriptionInput) : result goError grantPlanTemplate :=
  if inPlanID input <=? 0 then Err (OtherErr "assign subscription: invalid plan_id" []) else
  template ←
    (if UseProvidedTemplate input then
       Ok (mkTemplate (normalizeAssignValidityDays (inValidityDays input)) (inDailyLimitUSD input)
             (inWeeklyLimitUSD input) (inMonthlyLimitUSD input))
     else match planOf s (inPlanID input) with
          | None => Err (OtherErr "assign subscription: get plan" [])
          | Some plan =>
              let days := normalizeAssignValidityDays (psComputeValidityDays (planValidityDays plan) (planValidityUnit plan)) in
              Ok (mkTemplate (if 0 <? inValidityDays input then normalizeAssignValidityDays (inValidityDays input) else days)
                    (override (inDailyLimitUSD input) (planDailyLimitUSD plan))
                    (override (inWeeklyLimitUSD input) (planWeeklyLimitUSD plan))
                    (override (inMonthlyLimitUSD input) (planMonthlyLimitUSD plan)))
          end);
  match validatePlanQuotas (tDailyLimitUSD template) (tWeeklyLimitUSD template) (tMonthlyLimitUSD template) with
  | Ok _ => Ok template
  | Err e => Err (AppErr e)
  end.

(** [ListBySourceOrderID]: deleted rows are filtered out. *)
Definition sourceIs (source : Z) (r : SubscriptionRow) : bool :=
  bool_decide (subSourceOrderID r = Some source) && negb (subDeleted r).

Definition sourceRows (source : Z) (d : payDB) : list SubscriptionRow := filter (λ r, sourceIs source r = true) (subs d).

(** [findSourceOrderSubscription]: the first to start. *)
Definition findSource (source : option Z) (d : payDB) : option SubscriptionRow :=
  match source with
  | Some o => if o <=? 0 then None else oldest_from subStartsAt None (sourceRows o d)
  | None => None
  end.

(** [GetLatestByUserIDAndPlanID]: the last to expire, then the last created. *)
Definition latestSubscription (userID planID : Z) (d : payDB) : option SubscriptionRow :=
  fold_left (λ best r,
    if (subUserID r =? userID) && (subPlanID r =? planID) && negb (subDeleted r) then
      match best with
      | Some b => if Before (subExpiresAt r) (subExpiresAt b) then best else Some r
      | None => Some r
      end
    else best) (subs d) None.

(** [assignOrExtendSubscriptionUnlocked]: the new row, queued behind the latest
    one of the plan, and whether it is. *)
Definition assignOrExtendSubscriptionUnlocked (input : AssignSubscriptionInput) (template : grantPlanTemplate) (now : Time)
    (d : payDB) : SubscriptionRow * bool * payDB :=
  let '(startsAt, queued) :=
    match latestSubscription (inUserID input) (inPlanID input) d with
    | Some l => if After (subExpiresAt l) now then (subExpiresAt l, true) else (now, false)
    | None => (now, false)
    end in
  let expiresAt := AddDays s startsAt (tValidityDays template) in
  let expiresAt := if After expiresAt MaxExpiresAt then MaxExpiresAt else expiresAt in
  let status := if After startsAt now then SubscriptionStatusPending else SubscriptionStatusActive in
  let body := UserSubscription.mkSubscription startsAt expiresAt status None None None
                (tDailyLimitUSD template) (tWeeklyLimitUSD template) (tMonthlyLimitUSD template) f64_zero f64_zero f64_zero None in
  let row := mkSubscriptionRow (Z.of_nat (length (subs d)) + 1) (inUserID input) (inPlanID input) body (SourceOrderID input) in
  (row, queued, setSubs (subs d ++ [row]) d).

Definition isPendingRow (r : SubscriptionRow) (now : Time) : bool :=
  UserSubscription.IsPending (Some (subBody r)) now.

(** [assignOrExtendSubscriptionInTx]: the user's row is locked first. *)
Definition assignTx (input : AssignSubscriptionInput) (template : grantPlanTemplate)
    : txn (result goError (SubscriptionRow * bool)) := λ now d,
  if negb (bool_decide (is_Some (liveUser (inUserID input) d))) then (Ok (Err (OtherErr "lock user" [])), d)
  else match findSource (SourceOrderID input) d with
       | Some existing => (Ok (Ok (existing, isPendingRow existing now)), d)
       | None => let '(row, queued, d) := assignOrExtendSubscriptionUnlocked input template now d in (Ok (Ok (row, queued)), d)
       end.

Definition AssignOrExtendSubscription (input : AssignSubscriptionInput) : M (SubscriptionRow * bool) :=
  Query (reading (λ _ d, Ok (findSource (SourceOrderID input) d))) (λ r,
    match r with
    | Err e => fails (dbGoError e)
    | Ok (Some existing) => Clock (λ now, ok (existing, isPendingRow existing now))
    | Ok None => match resolveGrantPlanTemplate input with
                 | Err e => fails e
                 | Ok template => transact "subscription transaction" (assignTx input template)
                 end
    end).

(** ** Redemptions *)

Definition plainError (text : string) : goError := OtherErr text [].

(** [CreateCode]; the code column is unique. *)
Definition createCodeTx (code : RedeemCode) : txn unit := λ _ d,
  if bool_decide (is_Some (codes d !! RedeemCode.Code code)) then (Err (DBError "duplicate key"), d)
  else
    let code := RedeemCode.setID (nextCodeID d) code in
    (Ok tt, setNextCodeID (nextCodeID d + 1) (setCodes (<[RedeemCode.Code code := code]> (codes d)) d)).

(** The code that [doBalance] creates for an order. *)
Definition newBalanceCode (code : string) (value : float64) : RedeemCode :=
  RedeemCode.mkCode 0 code RedeemCode.RedeemTypeBalance value RedeemCode.StatusUnused 0 0 None None None None.

Definition CreateCode (code : RedeemCode) : M unit :=
  let trimmed := TrimSpace (RedeemCode.Code code) in
  let code := RedeemCode.setCode trimmed code in
  if eqs trimmed "" then fails (plainError "code is required")
  else if negb (eqs (RedeemCode.Type_ (RedeemCode.normalizeNewCode code)) RedeemCode.RedeemTypeInvitation)
          && f64_eq (RedeemCode.Value code) f64_zero
  then fails (plainError "value must not be zero")
  else query "create redeem code" (createCodeTx (RedeemCode.normalizeNewCode code)).

Definition GetByCode (code : string) : txn RedeemCode := reading (λ _ d, found (codes d !! code)).

(** [validateRedeemCodeForUser]. *)
Definition validateRedeemCodeForUser (r : RedeemCode) (userID : Z) (now : Time) (d : payDB) : option ApplicationError :=
  if RedeemCode.IsExpired r now then Some RedeemCode.ErrRedeemCodeExpired
  else if bool_decide ((RedeemCode.ID r, userID) ∈ usages d) then Some RedeemCode.ErrRedeemCodeAlreadyUsed
  else if negb (RedeemCode.HasRemainingUses r) then Some RedeemCode.ErrRedeemCodeMaxUsed
  else None.

(** The type check before anything is granted. *)
Definition unsupportedRedeemType (r : RedeemCode) : option goError :=
  let type := RedeemCode.Type_ r in
  if eqs type RedeemCode.RedeemTypeBalance || eqs type RedeemCode.RedeemTypeConcurrency then None
  else if eqs type RedeemCode.RedeemTypeSubscription then
    match RedeemCode.PlanID r with
    | Some p => if p <=? 0 then Some (AppErr (BadRequest "REDEEM_CODE_INVALID" "invalid subscription redeem code: missing plan_id")) else None
    | None => Some (AppErr (BadRequest "REDEEM_CODE_INVALID" "invalid subscription redeem code: missing plan_id"))
    end
  else Some (AppErr (BadRequest "REDEEM_CODE_UNSUPPORTED_TYPE" "unsupported redeem type")).

(** The error of a statement of a transaction that goes on with [k]. *)
Definition orAbort {A} (text : string) (r : result dbError A) : result goError A :=
  match r with Ok x => Ok x | Err e => Err (OtherErr text [dbGoError e]) end.

(** A negative amount is taken back down to zero. *)
Definition adjustBalance (userID : Z) (amount : float64) : txn unit :=
  if f64_lt amount f64_zero then ApplyRedeemBalanceAdjustment userID amount else UpdateBalance userID amount.
Definition adjustConcurrency (userID : Z) (delta : Z) : txn unit :=
  if delta <? 0 then ApplyRedeemConcurrencyAdjustment userID delta else UpdateConcurrency userID delta.

(** The adjustment that a code stands for. *)
Definition grantCode (r : RedeemCode) (userID : Z) (now : Time) (d : payDB) : result goError payDB :=
  let type := RedeemCode.Type_ r in
  if eqs type RedeemCode.RedeemTypeBalance then
    let amount := RedeemCode.Value r in
    let '(res, d) := adjustBalance userID amount now d in
    _ ← orAbort "update user balance" res;
    Ok (addCredit (BalanceCredit userID (RedeemCode.Code r) amount) d)
  else if eqs type RedeemCode.RedeemTypeConcurrency then
    let delta := f64_trunc (RedeemCode.Value r) in
    let '(res, d) := adjustConcurrency userID delta now d in
    _ ← orAbort "update user concurrency" res;
    Ok (addCredit (ConcurrencyCredit userID (RedeemCode.Code r) delta) d)
  else
    let input := mkAssignInput userID (default 0 (RedeemCode.PlanID r)) 0 None None None false None in
    template ← resolveGrantPlanTemplate input;
    match assignTx input template now d with
    | (Ok (Ok _), d) => Ok d
    | (Ok (Err e), _) => Err e
    | (Err e, _) => Err (dbGoError e)
    end.

(** The transaction of [Redeem]: the row of the code is locked from its first
    read, and an error rolls everything back. *)
Definition redeemTx (userID : Z) (code : string) : txn (result goError RedeemCode) := λ now d,
  let abort e := (Ok (Err e), d) in
  match codes d !! code with
  | None => abort (AppErr RedeemCode.ErrRedeemCodeNotFound)
  | Some r =>
      match validateRedeemCodeForUser r userID now d with
      | Some e => abort (AppErr e)
      | None =>
          match unsupportedRedeemType r with
          | Some e => abort e
          | None =>
              if negb (bool_decide (is_Some (liveUser userID d))) then abort (plainError "get user") else
              match grantCode r userID now d with
              | Err e => abort e
              | Ok d =>
                  let r := RedeemCode.useCode userID now r in
                  (Ok (Ok r), setCodes (<[code := r]> (codes d)) (setUsages ({[(RedeemCode.ID r, userID)]} ∪ usages d) d))
              end
          end
      end
  end.

Definition codeByID (id : Z) : txn RedeemCode := reading (λ _ d,
  found (snd <$> head (filter (λ kv, RedeemCode.ID (snd kv) = id) (map_to_list (codes d))))).

(** The rebate of a redemption that is not part of an order: best effort. *)
Definition tryAccrueAffiliateRebateForRedeem (skip : bool) (userID : Z) (amount : float64) : P unit :=
  if skip || negb (affiliateEnabled s) then Ret tt else
  Query (λ now d,
    match AccrueInviteRebate s now userID amount None with
    | Ok rebate => (Ok tt, if f64_gt rebate f64_zero then addRebate (None, userID, rebate) d else d)
    | Err _ => (Ok tt, d)
    end) (λ _, Ret tt).

Definition Redeem (env : redeemEnv) (userID : Z) (code : string) : M RedeemCode :=
  let code := TrimSpace code in
  if eqs code "" then failsApp RedeemCode.ErrRedeemCodeNotFound
  else if rateLimited env then failsApp RedeemCode.ErrRedeemRateLimited
  else if negb (lockAcquired env) then failsApp RedeemCode.ErrRedeemCodeLocked
  else
    let* r := transact "redeem transaction" (redeemTx userID code) in
    run (if eqs (RedeemCode.Type_ r) RedeemCode.RedeemTypeBalance && f64_gt (RedeemCode.Value r) f64_zero
         then tryAccrueAffiliateRebateForRedeem (skipAffiliate env) userID (RedeemCode.Value r) else Ret tt) in
    query "get updated redeem code" (codeByID (RedeemCode.ID r)).

(** ** The rebate of an order *)

Definition rebateApplied : string := "AFFILIATE_REBATE_APPLIED".
Definition rebateSkipped : string := "AFFILIATE_REBATE_SKIPPED".

(** The transaction: claim the audit entry, accrue, and settle the entry. *)
Definition rebateTx (o : PaymentOrder) (basePoints : float64) : txn (result goError unit) := λ now d,
  if audited (ID o) rebateApplied d || audited (ID o) rebateSkipped d then (Ok (Ok tt), d)
  else match AccrueInviteRebate s now (UserID o) basePoints (Some (ID o)) with
       | Err e => (Ok (Err (OtherErr "accrue affiliate rebate" [e])), d)
       | Ok rebate =>
           let claim action := setAudits (<[(ID o, action) := None]> (audits d)) d in
           if f64_le rebate f64_zero then (Ok (Ok tt), claim rebateSkipped)
           else (Ok (Ok tt), addRebate (Some (ID o), UserID o, rebate) (claim rebateApplied))
       end.

Definition applyAffiliateRebateForOrder (o : PaymentOrder) : M unit :=
  let basePoints := affiliateRebateBasePoints o in
  if f64_le basePoints f64_zero then ok tt
  else if negb (affiliateEnabled s) then ok tt
  else bindProg (λ r, match r with
                      | Ok _ => ok tt
                      | Err e => run writeAuditLog (ID o) "AFFILIATE_REBATE_FAILED" in fails e
                      end)
         (transact "affiliate rebate" (rebateTx o basePoints)).

Lemma usersOnly_adjustBalance userID amount : usersOnly (adjustBalance userID amount).
Proof. unfold adjustBalance. case_match; [apply usersOnly_ApplyBalance | apply usersOnly_UpdateBalance]. Qed.

Lemma usersOnly_adjustConcurrency userID delta : usersOnly (adjustConcurrency userID delta).
Proof. unfold adjustConcurrency. case_match; [apply usersOnly_ApplyConcurrency | apply usersOnly_UpdateConcurrency]. Qed.
End grants.
