(* ===== verification/SubscriptionChain.v ===== *)
(** * The chain of subscriptions of a user and plan

    [service/subscription_service.go] ([RevokeSubscription],
    [RevokeOwnExhaustedSubscription], [RestoreSubscription],
    [ExtendSubscription], [SetSubscriptionValidityDays],
    [BulkAssignSubscription] and the shift of later subscriptions) over the
    statements of [repository/user_subscription_repo.go]; the assignment itself
    is in [PaymentGrants].  A function that opens a transaction after it has
    read its rows is a program: the rows may have changed when the transaction
    starts.  A transaction has one clock reading. *)

From S2P Require Import Prelude GoRuntime Domain AppErrors Transactions PaymentOrder PaymentDB PaymentGrants.
From S2P Require UserSubscription.
#[local] Open Scope Z_scope.

Definition ErrSubscriptionNotRevoked := Conflict "SUBSCRIPTION_NOT_REVOKED" "subscription is not revoked".
Definition ErrSubscriptionRestoreConflict :=
  Conflict "SUBSCRIPTION_RESTORE_CONFLICT" "subscription already exists for this user and plan".
Definition ErrSubscriptionNotActive := Conflict "SUBSCRIPTION_NOT_ACTIVE" "subscription is not active".
Definition ErrSubscriptionQuotaAvailable :=
  Conflict "SUBSCRIPTION_QUOTA_NOT_EXHAUSTED" "subscription still has available quota".
Definition ErrAdjustWouldExpire :=
  BadRequest "ADJUST_WOULD_EXPIRE" "adjustment would result in invalid subscription window".

Abbreviation ErrSubscriptionNotFound := UserSubscription.ErrSubscriptionNotFound.

(** ** Rows *)

(** [EffectiveStatus] of a row that was read. *)
Definition effectiveStatus (r : SubscriptionRow) (now : Time) : string :=
  UserSubscription.EffectiveStatus (Some (subBody r)) now.

Definition withBody (f : UserSubscription.UserSubscription → UserSubscription.UserSubscription) (r : SubscriptionRow) : SubscriptionRow :=
  setBody (f (subBody r)) r.

Definition etaBody (b : UserSubscription.UserSubscription) : UserSubscription.UserSubscription :=
  UserSubscription.mkSubscription (UserSubscription.StartsAt b) (UserSubscription.ExpiresAt b) (UserSubscription.sStatus b)
    (UserSubscription.DailyWindowStart b) (UserSubscription.WeeklyWindowStart b) (UserSubscription.MonthlyWindowStart b)
    (UserSubscription.DailyLimitUSD b) (UserSubscription.WeeklyLimitUSD b) (UserSubscription.MonthlyLimitUSD b)
    (UserSubscription.DailyUsageUSD b) (UserSubscription.WeeklyUsageUSD b) (UserSubscription.MonthlyUsageUSD b)
    (UserSubscription.DeletedAt b).
Definition setStartsAt (v : Time) (b : UserSubscription.UserSubscription) : UserSubscription.UserSubscription :=
  ltac:(set_field etaBody b UserSubscription.StartsAt v).
Definition setExpiresAt (v : Time) (b : UserSubscription.UserSubscription) : UserSubscription.UserSubscription :=
  ltac:(set_field etaBody b UserSubscription.ExpiresAt v).
Definition setStatus (v : string) (b : UserSubscription.UserSubscription) : UserSubscription.UserSubscription :=
  ltac:(set_field etaBody b UserSubscription.sStatus v).
Definition setDeletedAt (v : option Time) (b : UserSubscription.UserSubscription) : UserSubscription.UserSubscription :=
  ltac:(set_field etaBody b UserSubscription.DeletedAt v).

(** ** Statements *)

Definition anyRow (id : Z) (d : payDB) : option SubscriptionRow := List.find (λ r, subID r =? id) (subs d).

Definition liveRow (id : Z) (d : payDB) : option SubscriptionRow :=
  match anyRow id d with Some r => if subDeleted r then None else Some r | None => None end.

(** [GetByID] skips deleted rows, [GetByIDIncludeDeleted] does not. *)
Definition GetByID (id : Z) : txn SubscriptionRow := reading (λ _ d, found (liveRow id d)).
Definition GetByIDIncludeDeleted (id : Z) : txn SubscriptionRow := reading (λ _ d, found (anyRow id d)).

Definition inChain (userID planID : Z) (r : SubscriptionRow) : bool :=
  (subUserID r =? userID) && (subPlanID r =? planID) && negb (subDeleted r).

(** Rows ordered by [starts_at]; among equals the older row comes first. *)
Fixpoint insertByStart (r : SubscriptionRow) (l : list SubscriptionRow) : list SubscriptionRow :=
  match l with
  | [] => [r]
  | x :: rest => if Before (subStartsAt x) (subStartsAt r) then x :: insertByStart r rest else r :: l
  end.

Definition ListByUserIDAndPlanID (userID planID : Z) (d : payDB) : list SubscriptionRow :=
  foldr insertByStart [] (filter (λ r, inChain userID planID r = true) (subs d)).

(** [UpdateOneID] writes deleted rows too. *)
Definition updateRow (id : Z) (f : SubscriptionRow → SubscriptionRow) (d : payDB) : result dbError unit * payDB :=
  match anyRow id d with
  | None => (Err RowNotFound, d)
  | Some _ => (Ok tt, setSubs (map (λ r, if subID r =? id then f r else r) (subs d)) d)
  end.

(** [Update]: the columns of the struct, except that a nil pointer leaves its
    column alone, and [deleted_at], which it does not write. *)
Definition writeRow (item : UserSubscription.UserSubscription) (b : UserSubscription.UserSubscription) : UserSubscription.UserSubscription :=
  UserSubscription.mkSubscription (UserSubscription.StartsAt item) (UserSubscription.ExpiresAt item) (UserSubscription.sStatus item)
    (override (UserSubscription.DailyWindowStart item) (UserSubscription.DailyWindowStart b))
    (override (UserSubscription.WeeklyWindowStart item) (UserSubscription.WeeklyWindowStart b))
    (override (UserSubscription.MonthlyWindowStart item) (UserSubscription.MonthlyWindowStart b))
    (override (UserSubscription.DailyLimitUSD item) (UserSubscription.DailyLimitUSD b))
    (override (UserSubscription.WeeklyLimitUSD item) (UserSubscription.WeeklyLimitUSD b))
    (override (UserSubscription.MonthlyLimitUSD item) (UserSubscription.MonthlyLimitUSD b))
    (UserSubscription.DailyUsageUSD item) (UserSubscription.WeeklyUsageUSD item) (UserSubscription.MonthlyUsageUSD item)
    (UserSubscription.DeletedAt b).

Definition Update (item : SubscriptionRow) (d : payDB) : result dbError unit * payDB :=
  updateRow (subID item) (λ r, mkSubscriptionRow (subID r) (subUserID item) (subPlanID item) (writeRow (subBody item) (subBody r))
    (override (subSourceOrderID item) (subSourceOrderID r))) d.

Definition ExtendExpiry (id : Z) (newExpiresAt : Time) : payDB → result dbError unit * payDB := updateRow id (withBody (setExpiresAt newExpiresAt)).
Definition UpdateStatus (id : Z) (status : string) : payDB → result dbError unit * payDB := updateRow id (withBody (setStatus status)).

(** [Delete]: no row is no error. *)
Definition Delete (id : Z) (now : Time) (d : payDB) : payDB :=
  setSubs (map (λ r, if (subID r =? id) && negb (subDeleted r) then withBody (setDeletedAt (Some now)) r else r) (subs d)) d.

Definition Restore (id : Z) (status : string) : payDB → result dbError unit * payDB :=
  updateRow id (withBody (λ b, setDeletedAt None (setStatus status b))).

(** [BatchUpdateExpiredStatus]: also of deleted rows. *)
Definition BatchUpdateExpiredStatus : txn Z := λ now d,
  let due r := (eqs (subStatus r) SubscriptionStatusActive || eqs (subStatus r) SubscriptionStatusPending)
               && negb (After (subExpiresAt r) now) in
  (Ok (Z.of_nat (length (filter (λ r, due r = true) (subs d)))),
   setSubs (map (λ r, if due r then withBody (setStatus SubscriptionStatusExpired) r else r) (subs d)) d).

(** [translatePersistenceError(err, ErrSubscriptionNotFound, nil)]. *)
Definition notFoundOr (e : dbError) : goError :=
  match e with RowNotFound => AppErr ErrSubscriptionNotFound | DBError text => OtherErr text [] end.

Definition translated {A} (r : result dbError A) : result goError A :=
  match r with Ok x => Ok x | Err e => Err (notFoundOr e) end.

(** ** The shift of the later subscriptions *)

(** The status of a row whose window is [starts, expires). *)
Definition windowStatus (starts expires now : Time) : string :=
  if negb (After expires now) then SubscriptionStatusExpired
  else if Before now starts then SubscriptionStatusPending else SubscriptionStatusActive.

Definition capExpiry (t : Time) : Time := if After t MaxExpiresAt then MaxExpiresAt else t.

Definition shiftItem (delta : Duration) (now : Time) (item : SubscriptionRow) : SubscriptionRow :=
  let starts := Add (subStartsAt item) delta in
  let expires := capExpiry (Add (subExpiresAt item) delta) in
  withBody (λ b, setStatus (windowStatus starts expires now) (setExpiresAt expires (setStartsAt starts b))) item.

(** Whether the shift moves [item]: it starts when [anchor] ends, or later. *)
Definition shifts (anchor item : SubscriptionRow) : bool :=
  negb (subID item =? subID anchor) && negb (Before (subStartsAt item) (subExpiresAt anchor)).

Fixpoint shiftItems (chain : list SubscriptionRow) (anchor : SubscriptionRow) (delta : Duration) (now : Time) (d : payDB)
    : result goError unit * payDB :=
  match chain with
  | [] => (Ok tt, d)
  | item :: rest =>
      if shifts anchor item then
        match Update (shiftItem delta now item) d with
        | (Ok _, d) => shiftItems rest anchor delta now d
        | (Err e, d) => (Err (notFoundOr e), d)
        end
      else shiftItems rest anchor delta now d
  end.

Definition shiftLaterChain (chain : list SubscriptionRow) (anchor : SubscriptionRow) (delta : Duration) (now : Time) (d : payDB)
    : result goError unit * payDB :=
  if delta =? 0 then (Ok tt, d) else shiftItems chain anchor delta now d.

(** A transaction whose body may abort: an error leaves the tables unchanged. *)
Definition atomically {X} (f : Time → payDB → result goError X * payDB) : txn (result goError X) := λ t d,
  match f t d with (Ok x, d') => (Ok (Ok x), d') | (Err e, _) => (Ok (Err e), d) end.

(** ** Revocation *)

Definition revokeChainDelta (sub : SubscriptionRow) (now : Time) : Duration :=
  if Before now (subStartsAt sub) then Sub (subStartsAt sub) (subExpiresAt sub)
  else if After (subExpiresAt sub) now then Sub now (subExpiresAt sub)
  else 0.

Definition revokeTx (chain : list SubscriptionRow) (sub : SubscriptionRow) (delta : Duration) (now : Time) (d : payDB)
    : result goError unit * payDB :=
  shiftLaterChain chain sub delta now (Delete (subID sub) now d).

(** A read of the service outside a transaction. *)
Definition fetch {X} (f : txn X) : M X := Query f (λ r, match r with Ok x => ok x | Err e => fails (notFoundOr e) end).

Definition readChain (sub : SubscriptionRow) : M (list SubscriptionRow) :=
  fetch (reading (λ _ d, Ok (ListByUserIDAndPlanID (subUserID sub) (subPlanID sub) d))).

Definition RevokeSubscription (id : Z) : M unit :=
  let* sub := fetch (GetByID id) in
  let* chain := readChain sub in
  Clock (λ now, transact "revoke" (atomically (revokeTx chain sub (revokeChainDelta sub now)))).

(** The part of the self-service revocation that picks the row that follows. *)
Definition follows (sub : SubscriptionRow) (now : Time) (item : SubscriptionRow) : bool :=
  negb (subID item =? subID sub) && negb (Before (subStartsAt item) (subExpiresAt sub)) && After (subExpiresAt item) now
  && eqs (subStatus item) SubscriptionStatusPending && eqs (effectiveStatus item now) SubscriptionStatusPending.

Definition replacementOf (chain : list SubscriptionRow) (sub : SubscriptionRow) (now : Time) : option SubscriptionRow :=
  fold_left (λ best item,
    if follows sub now item then
      match best with
      | Some b => if Before (subStartsAt item) (subStartsAt b) then Some item else best
      | None => Some item
      end
    else best) chain None.

Definition APIKeyBillingModeSubscription : string := "subscription".

(** [rebindSubscriptionAPIKeys]: the keys that are moved. *)
Definition boundTo (subscriptionID : Z) (k : apiKeyRow) : bool :=
  eqs (billingMode k) APIKeyBillingModeSubscription && bool_decide (preferredSubscriptionID k = Some subscriptionID)
  && negb (keyDeleted k).

Definition rebindKey (oldID newID : Z) (k : apiKeyRow) : apiKeyRow :=
  if boundTo oldID k then mkApiKeyRow (billingMode k) (Some newID) (keyDeleted k) else k.

Definition rebindSubscriptionAPIKeys (oldID newID : Z) (d : payDB) : Z * payDB :=
  if (oldID <=? 0) || (newID <=? 0) then (0, d) else
  (Z.of_nat (size (filter (λ kv, boundTo oldID kv.2 = true) (apiKeys d))),
   setApiKeys (rebindKey oldID newID <$> apiKeys d) d).

Record SelfRevokeSubscriptionResult := mkSelfRevoke {
  RevokedSubscriptionID : Z;
  ReplacementSubscriptionID : option Z;
  ReboundAPIKeyCount : Z;
}.

Section service.
Context (s : paymentService) `{Calendar}.

(** The repository's error of a missing row is hidden from the user. *)
Definition revokeOwnExhaustedSubscriptionInTx (userID subscriptionID : Z) (now : Time) (d : payDB)
    : result goError SelfRevokeSubscriptionResult * payDB :=
  match anyRow subscriptionID d with
  | None => (Err (AppErr ErrSubscriptionNotFound), d)
  | Some sub =>
      if negb (subUserID sub =? userID) then (Err (AppErr ErrSubscriptionNotFound), d)
      else if subDeleted sub then (Err (AppErr ErrSubscriptionNotActive), d)
      else if negb (bool_decide (is_Some (liveUser userID d))) then (Err (OtherErr "lock user" []), d)
      else if negb (eqs (effectiveStatus sub now) SubscriptionStatusActive) then (Err (AppErr ErrSubscriptionNotActive), d)
      else
        let maintain b := UserSubscription.EnsureWindowMaintenance b (subBody sub) now in
        let '(_, d) := updateRow subscriptionID (withBody maintain) d in
        match liveRow subscriptionID d with
        | None => (Err (AppErr ErrSubscriptionNotFound), d)
        | Some sub =>
            if negb (subUserID sub =? userID) then (Err (AppErr ErrSubscriptionNotFound), d)
            else if negb (eqs (effectiveStatus sub now) SubscriptionStatusActive) then (Err (AppErr ErrSubscriptionNotActive), d)
            else if negb (UserSubscription.HighestQuotaExhausted (Some (subBody sub))) then (Err (AppErr ErrSubscriptionQuotaAvailable), d)
            else
              let chain := ListByUserIDAndPlanID (subUserID sub) (subPlanID sub) d in
              let replacement := replacementOf chain sub now in
              match revokeTx chain sub (revokeChainDelta sub now) now d with
              | (Err e, d) => (Err e, d)
              | (Ok _, d) =>
                  match replacement with
                  | None => (Ok (mkSelfRevoke (subID sub) None 0), d)
                  | Some r =>
                      let '(count, d) := rebindSubscriptionAPIKeys (subID sub) (subID r) d in
                      (Ok (mkSelfRevoke (subID sub) (Some (subID r)) count), d)
                  end
              end
        end
  end.

Definition RevokeOwnExhaustedSubscription (userID subscriptionID : Z) : M SelfRevokeSubscriptionResult :=
  if (userID <=? 0) || (subscriptionID <=? 0) then failsApp ErrSubscriptionNotFound
  else transact "revoke own" (atomically (revokeOwnExhaustedSubscriptionInTx userID subscriptionID)).

(** ** Restoration *)

Definition restoredSubscriptionStatus (sub : SubscriptionRow) (now : Time) : string :=
  effectiveStatus (withBody (setDeletedAt None) sub) now.

Definition subscriptionRestoreWouldOverlap (restored : SubscriptionRow) (chain : list SubscriptionRow) (now : Time) : bool :=
  existsb (λ item,
    negb ((subID item =? subID restored) || subDeleted item || negb (After (subExpiresAt item) now))
    && Before (subStartsAt restored) (subExpiresAt item) && Before (subStartsAt item) (subExpiresAt restored)) chain.

Definition restoreSubscriptionUnlocked (id : Z) (now : Time) (d : payDB) : result goError SubscriptionRow * payDB :=
  match anyRow id d with
  | None => (Err (AppErr ErrSubscriptionNotFound), d)
  | Some sub =>
      if negb (subDeleted sub) then (Err (AppErr ErrSubscriptionNotRevoked), d)
      else
        let restoredStatus := restoredSubscriptionStatus sub now in
        if negb (eqs restoredStatus SubscriptionStatusExpired)
           && subscriptionRestoreWouldOverlap sub (ListByUserIDAndPlanID (subUserID sub) (subPlanID sub) d) now
        then (Err (AppErr ErrSubscriptionRestoreConflict), d)
        else
          let '(_, d) := Restore id restoredStatus d in
          (translated (found (liveRow id d)), d)
  end.

Definition restoreSubscriptionInTx (id : Z) (now : Time) (d : payDB) : result goError SubscriptionRow * payDB :=
  match anyRow id d with
  | None => (Err (AppErr ErrSubscriptionNotFound), d)
  | Some initial =>
      if negb (bool_decide (is_Some (liveUser (subUserID initial) d))) then (Err (OtherErr "lock user" []), d)
      else restoreSubscriptionUnlocked id now d
  end.

Definition RestoreSubscription (id : Z) : M SubscriptionRow := transact "restore" (atomically (restoreSubscriptionInTx id)).

(** ** Change of the period *)

(** The new end of the window, for an extension by [days]. *)
Definition extendedExpiry (sub : SubscriptionRow) (days : Z) (now : Time) : result goError Time :=
  let days := if MaxValidityDays <? days then MaxValidityDays else days in
  let days := if days <? - MaxValidityDays then - MaxValidityDays else days in
  let expired := negb (After (subExpiresAt sub) now) in
  if expired && (days <? 0) then Err (AppErr ErrAdjustWouldExpire) else
  let newExpiresAt := capExpiry (AddDays s (if expired then now else subExpiresAt sub) days) in
  if negb (After newExpiresAt (subStartsAt sub)) then Err (AppErr ErrAdjustWouldExpire) else Ok newExpiresAt.

(** ... and for a period of [validityDays] from now, or from its start. *)
Definition subscriptionValidityAnchor (sub : SubscriptionRow) (now : Time) : Time :=
  if Before now (subStartsAt sub) then subStartsAt sub else now.

Definition targetSubscriptionExpiresAt (sub : SubscriptionRow) (now : Time) (validityDays : Z) : Time :=
  AddDays s (subscriptionValidityAnchor sub now) validityDays.

Definition validityExpiry (sub : SubscriptionRow) (validityDays : Z) (now : Time) : result goError Time :=
  if validityDays <=? 0 then Err (AppErr ErrAdjustWouldExpire) else
  let validityDays := if MaxValidityDays <? validityDays then MaxValidityDays else validityDays in
  let newExpiresAt := capExpiry (targetSubscriptionExpiresAt sub now validityDays) in
  if negb (After newExpiresAt (subStartsAt sub)) then Err (AppErr ErrAdjustWouldExpire) else Ok newExpiresAt.

(** The transaction of both: the end, the later rows, the status.  [now] is the
    earlier clock reading of the caller, [t] the one of the shift. *)
Definition periodTx (chain : list SubscriptionRow) (sub : SubscriptionRow) (newExpiresAt now t : Time) (d : payDB)
    : result goError unit * payDB :=
  let id := subID sub in
  match ExtendExpiry id newExpiresAt d with
  | (Err e, d) => (Err (notFoundOr e), d)
  | (Ok _, d) =>
      match shiftLaterChain chain sub (Sub newExpiresAt (subExpiresAt sub)) t d with
      | (Err e, d) => (Err e, d)
      | (Ok _, d) =>
          let '(r, d) := UpdateStatus id (windowStatus (subStartsAt sub) newExpiresAt now) d in (translated r, d)
      end
  end.

Definition changePeriod (expiry : SubscriptionRow → Time → result goError Time) (id : Z) : M SubscriptionRow :=
  let* sub := queryOr ErrSubscriptionNotFound (GetByID id) in
  Clock (λ now,
    match expiry sub now with
    | Err e => fails e
    | Ok newExpiresAt =>
        let* chain := readChain sub in
        do* transact "change period" (atomically (periodTx chain sub newExpiresAt now)) in
        fetch (GetByID id)
    end).

Definition ExtendSubscription (id days : Z) : M SubscriptionRow := changePeriod (λ sub now, extendedExpiry sub days now) id.

Definition SetSubscriptionValidityDays (id validityDays : Z) : M SubscriptionRow :=
  changePeriod (λ sub now, validityExpiry sub validityDays now) id.

(** ** Assignment to many users *)

Record BulkAssignResult := mkBulkResult {
  SuccessCount : Z;
  CreatedCount : Z;
  ReusedCount : Z;
  FailedCount : Z;
  Subscriptions : list SubscriptionRow;
  BulkErrors : list (Z * goError);
  Statuses : gmap Z string;
}.

Definition emptyBulkResult : BulkAssignResult := mkBulkResult 0 0 0 0 [] [] ∅.

Definition bulkOne (userID : Z) (r : result goError (SubscriptionRow * bool)) (acc : BulkAssignResult) : BulkAssignResult :=
  match r with
  | Err e => mkBulkResult (SuccessCount acc) (CreatedCount acc) (ReusedCount acc) (FailedCount acc + 1) (Subscriptions acc)
               (BulkErrors acc ++ [(userID, e)]) (<[userID := "failed"%string]> (Statuses acc))
  | Ok (sub, queued) =>
      mkBulkResult (SuccessCount acc + 1) (CreatedCount acc + 1) (ReusedCount acc) (FailedCount acc)
        (Subscriptions acc ++ [sub]) (BulkErrors acc) (<[userID := if (queued : bool) then "queued"%string else "active"%string]> (Statuses acc))
  end.

Fixpoint bulkAssign (userIDs : list Z) (input : Z → AssignSubscriptionInput) (acc : BulkAssignResult) : P BulkAssignResult :=
  match userIDs with
  | [] => Ret acc
  | userID :: rest =>
      bindProg (λ r, bulkAssign rest input (bulkOne userID r acc)) (AssignOrExtendSubscription s (input userID))
  end.

Definition BulkAssignSubscription (userIDs : list Z) (planID validityDays : Z) (daily weekly monthly : option float64) : P BulkAssignResult :=
  bulkAssign userIDs (λ userID, mkAssignInput userID planID validityDays daily weekly monthly false None) emptyBulkResult.
End service.
