(* ===== verification/SubscriptionWindows.v ===== *)
(** * The windows of a chain of subscriptions do not overlap

    What the operations of [SubscriptionChain] do to the table when they run
    alone, and that they keep the windows of the subscriptions of a user and
    plan apart. *)

From S2P Require Import Prelude GoRuntime Domain AppErrors Transactions PaymentOrder PaymentDB PaymentGrants SubscriptionChain.
From S2P Require UserSubscription.
#[local] Open Scope Z_scope.

(** ** The shift as a map on rows *)

Definition inChainOf (sub : SubscriptionRow) (r : SubscriptionRow) : bool := inChain (subUserID sub) (subPlanID sub) r.

Definition shiftRow (anchor : SubscriptionRow) (delta : Duration) (now : Time) (r : SubscriptionRow) : SubscriptionRow :=
  if inChainOf anchor r && shifts anchor r then shiftItem delta now r else r.

Lemma withBody_id f r : subID (withBody f r) = subID r.
Proof. done. Qed.

Lemma inChain_withBody u p f r :
  UserSubscription.DeletedAt (f (subBody r)) = UserSubscription.DeletedAt (subBody r) → inChain u p (withBody f r) = inChain u p r.
Proof. intros E. unfold inChain, subDeleted, UserSubscription.notDeleted. cbn. by rewrite E. Qed.

(** Writing back a row that is still the one that was read. *)
Lemma writeRow_same delta now r :
  mkSubscriptionRow (subID r) (subUserID r) (subPlanID r) (writeRow (subBody (shiftItem delta now r)) (subBody r))
    (override (subSourceOrderID r) (subSourceOrderID r)) = shiftItem delta now r.
Proof.
  destruct r as [i u p [st e sta dw ww mw dl wl ml du wu mu del] so]. unfold shiftItem, withBody, setBody, writeRow, override. cbn.
  by destruct dw, ww, mw, dl, wl, ml, so.
Qed.

Lemma anyRow_unique d r : NoDup (subID <$> subs d) → r ∈ subs d → anyRow (subID r) d = Some r.
Proof.
  unfold anyRow. induction (subs d) as [|x l IH]; [by intros _ ?%not_elem_of_nil|]. rewrite fmap_cons. cbn [List.find].
  intros [Hx Hnd]%NoDup_cons [->|Hin]%elem_of_cons; [by rewrite Z.eqb_refl|].
  destruct (subID x =? subID r) eqn:E; [|by apply IH]. zbool. destruct Hx. rewrite E. by apply list_elem_of_fmap_2.
Qed.

Lemma anyRow_Some d id r : anyRow id d = Some r → r ∈ subs d ∧ subID r = id.
Proof. intros H. apply find_some in H as [Hin E]. zbool. split; [by apply list_elem_of_In | done]. Qed.

Lemma liveRow_Some d id r : liveRow id d = Some r → r ∈ subs d ∧ subID r = id ∧ subDeleted r = false.
Proof.
  unfold liveRow. destruct (anyRow id d) as [x|] eqn:E; [|done]. destruct (subDeleted x) eqn:Ed; [done|].
  intros [= ->]. by destruct (anyRow_Some _ _ _ E).
Qed.

Lemma NoDup_map_ids (g : SubscriptionRow → SubscriptionRow) l :
  (∀ r, r ∈ l → subID (g r) = subID r) → subID <$> map g l = subID <$> l.
Proof.
  intros Hg. induction l as [|x l IH]; [done|]. cbn [map]. rewrite !fmap_cons, (Hg x) by constructor. f_equal. apply IH.
  intros r Hin. apply Hg. by constructor.
Qed.

Definition writes (items : list SubscriptionRow) (delta : Duration) (now : Time) (r : SubscriptionRow) : SubscriptionRow :=
  if bool_decide (subID r ∈ subID <$> items) then shiftItem delta now r else r.

(** The loop of the shift, when the rows have not changed since they were read. *)
Lemma shiftItems_map chain anchor delta now d :
  NoDup (subID <$> subs d) → NoDup (subID <$> chain) →
  (∀ r, r ∈ chain → shifts anchor r = true → r ∈ subs d) →
  shiftItems chain anchor delta now d =
    (Ok tt, setSubs (map (writes (filter (λ r, shifts anchor r = true) chain) delta now) (subs d)) d).
Proof.
  revert d. induction chain as [|x chain IH]; intros d Hnd Hc Hin.
  - cbn. f_equal. rewrite map_ext_in with (g := id); [by rewrite map_id; destruct d|].
    intros r _. unfold writes. by rewrite bool_decide_eq_false_2 by apply not_elem_of_nil.
  - cbn [shiftItems]. rewrite fmap_cons in Hc. apply NoDup_cons in Hc as [Hx Hc].
    destruct (shifts anchor x) eqn:Es; [|rewrite filter_cons_False by congruence; apply IH; [done..|intros; apply Hin; [by constructor | done]]].
    assert (Hxin : x ∈ subs d) by (apply Hin; [constructor | done]).
    rewrite filter_cons_True by done. unfold Update, updateRow. change (subID (shiftItem delta now x)) with (subID x).
    rewrite (anyRow_unique d x Hnd Hxin). set (g := λ r, _).
    assert (Hg : map g (subs d) = map (λ r, if bool_decide (subID r = subID x) then shiftItem delta now r else r) (subs d)).
    { apply map_ext_in. intros r Hr%list_elem_of_In. unfold g. destruct (Z.eqb_spec (subID r) (subID x)) as [E|E].
      - rewrite bool_decide_eq_true_2 by done. assert (r = x) as ->.
        { pose proof (anyRow_unique d r Hnd Hr) as H1. rewrite E, (anyRow_unique d x Hnd Hxin) in H1. congruence. }
        exact (writeRow_same delta now x).
      - by rewrite bool_decide_eq_false_2. }
    rewrite Hg. set (d1 := setSubs _ d).
    assert (Hnd1 : NoDup (subID <$> subs d1)) by (unfold d1; cbn [subs setSubs]; rewrite NoDup_map_ids; [done|]; intros r _; by case_bool_decide).
    rewrite (IH d1 Hnd1 Hc).
    + unfold d1. cbn [subs setSubs]. f_equal. change (setSubs ?a (setSubs ?b d)) with (setSubs a d). f_equal. rewrite map_map. apply map_ext_in. intros r Hr%list_elem_of_In. unfold writes. rewrite fmap_cons.
      destruct (decide (subID r = subID x)) as [E|E].
      * rewrite (bool_decide_eq_true_2 (subID r = subID x)) by done.
        change (subID (shiftItem delta now r)) with (subID r). rewrite bool_decide_eq_false_2; [rewrite bool_decide_eq_true_2; [done | rewrite E; constructor]|].
        rewrite E. intros (y & Hy1 & [_ Hy2]%list_elem_of_filter)%list_elem_of_fmap. destruct Hx. rewrite Hy1. by apply list_elem_of_fmap_2.
      * rewrite (bool_decide_eq_false_2 (subID r = subID x)) by done. destruct (decide (subID r ∈ subID <$> filter (λ y, shifts anchor y = true) chain)) as [Hi|Hi].
        { rewrite !bool_decide_eq_true_2; [done | by right | done]. }
        rewrite !bool_decide_eq_false_2; [done | | done]. by intros [?|?]%elem_of_cons.
    + intros r Hr Hs. apply list_elem_of_fmap. exists r. split; [|by apply Hin; [constructor|]].
      rewrite bool_decide_eq_false_2; [done|]. intros E. destruct Hx. rewrite <- E. by apply list_elem_of_fmap_2.
Qed.

(** The rows of the chain are those of the table. *)
Lemma elem_of_insertByStart x r l : x ∈ insertByStart r l ↔ x = r ∨ x ∈ l.
Proof. induction l as [|y l IH]; cbn; [set_solver|]. destruct (Before _ _); rewrite ?elem_of_cons, ?IH; set_solver. Qed.

Lemma elem_of_ListByUserIDAndPlanID u p d r : r ∈ ListByUserIDAndPlanID u p d ↔ r ∈ subs d ∧ inChain u p r = true.
Proof.
  unfold ListByUserIDAndPlanID. induction (subs d) as [|x l IH]; [cbn; split; [by intros ?%not_elem_of_nil | by intros [?%not_elem_of_nil _]]|].
  rewrite filter_cons, elem_of_cons. destruct (decide _) as [Hx|Hx]; cbn [foldr]; [rewrite elem_of_insertByStart|]; rewrite IH; naive_solver.
Qed.

Lemma insertByStart_Permutation r l : insertByStart r l ≡ₚ r :: l.
Proof. induction l as [|y l IH]; cbn; [done|]. destruct (Before _ _); [|done]. rewrite IH. apply perm_swap. Qed.

Lemma NoDup_ListByUserIDAndPlanID u p d : NoDup (subID <$> subs d) → NoDup (subID <$> ListByUserIDAndPlanID u p d).
Proof.
  intros Hnd. unfold ListByUserIDAndPlanID. assert (Hp : ∀ l, foldr insertByStart [] l ≡ₚ l).
  { induction l as [|x l IH]; cbn; [done|]. by rewrite insertByStart_Permutation, IH. }
  rewrite Hp. clear Hp. revert Hnd. induction (subs d) as [|x l IH]; [done|]. rewrite fmap_cons. intros [Hx Hl]%NoDup_cons.
  rewrite filter_cons. destruct (decide _); [|by apply IH]. rewrite fmap_cons. apply NoDup_cons. split; [|by apply IH].
  intros (y & Hy1 & [_ Hy2]%list_elem_of_filter)%list_elem_of_fmap. destruct Hx. rewrite Hy1. by apply list_elem_of_fmap_2.
Qed.

(** The shift of the chain that was read in [d], after a change [f] of the
    anchor, as one map. *)
Lemma shiftLaterChain_map d anchor f delta now :
  NoDup (subID <$> subs d) → (∀ r, subID (f r) = subID r) →
  let d1 := setSubs (map (λ r, if subID r =? subID anchor then f r else r) (subs d)) d in
  ∃ d2, shiftLaterChain (ListByUserIDAndPlanID (subUserID anchor) (subPlanID anchor) d) anchor delta now d1 = (Ok tt, d2) ∧
    d2 = setSubs (map (λ r, if subID r =? subID anchor then f r else if delta =? 0 then r else shiftRow anchor delta now r) (subs d)) d.
Proof.
  intros Hnd Hf d1. eexists. split; [|reflexivity]. unfold shiftLaterChain. destruct (delta =? 0); [done|].
  assert (Hin1 : ∀ r, r ∈ subs d → shifts anchor r = true → r ∈ subs d1).
  { intros r Hr Hs. apply list_elem_of_fmap. exists r. split; [|done]. unfold shifts in Hs. by destruct (subID r =? subID anchor). }
  rewrite shiftItems_map.
  - unfold d1. cbn [subs setSubs]. f_equal. change (setSubs ?a (setSubs ?b d)) with (setSubs a d). f_equal. rewrite map_map.
    apply map_ext_in. intros r Hr%list_elem_of_In. unfold writes, shiftRow. destruct (Z.eqb_spec (subID r) (subID anchor)) as [E|E].
    + rewrite Hf, bool_decide_eq_false_2; [done|]. intros (y & Hy1 & [Hs _]%list_elem_of_filter)%list_elem_of_fmap.
      unfold shifts in Hs. rewrite <- Hy1, E, Z.eqb_refl in Hs. done.
    + destruct (inChainOf anchor r && shifts anchor r) eqn:Ec.
      * apply andb_true_iff in Ec as [Ec Es]. rewrite bool_decide_eq_true_2; [done|]. apply list_elem_of_fmap_2, list_elem_of_filter.
        split; [done|]. by apply elem_of_ListByUserIDAndPlanID.
      * rewrite bool_decide_eq_false_2; [done|]. intros (y & Hy1 & [Hs [Hy2 Hc]%elem_of_ListByUserIDAndPlanID]%list_elem_of_filter)%list_elem_of_fmap.
        assert (y = r) as -> by (pose proof (anyRow_unique d y Hnd Hy2) as H1; rewrite <- Hy1, (anyRow_unique d r Hnd Hr) in H1; congruence).
        unfold inChainOf in Ec. by rewrite Hc, Hs in Ec.
  - unfold d1. cbn [subs setSubs]. rewrite NoDup_map_ids; [done|]. intros r _. by destruct (_ =? _).
  - by apply NoDup_ListByUserIDAndPlanID.
  - intros r [Hr _]%elem_of_ListByUserIDAndPlanID. by apply Hin1.
Qed.

(** ** The operations as maps on rows *)

(** What a change of the period makes of a row. *)
Definition periodRow (sub : SubscriptionRow) (newExpiresAt now t : Time) (r : SubscriptionRow) : SubscriptionRow :=
  let delta := Sub newExpiresAt (subExpiresAt sub) in
  if subID r =? subID sub then
    withBody (setStatus (windowStatus (subStartsAt sub) newExpiresAt now)) (withBody (setExpiresAt newExpiresAt) r)
  else if delta =? 0 then r else shiftRow sub delta t r.

(** ... and a revocation. *)
Definition revokedRow (sub : SubscriptionRow) (now : Time) (r : SubscriptionRow) : SubscriptionRow :=
  let delta := revokeChainDelta sub now in
  if subID r =? subID sub then withBody (setDeletedAt (Some now)) r
  else if delta =? 0 then r else shiftRow sub delta now r.

Lemma periodRow_id sub e now t r : subID (periodRow sub e now t r) = subID r.
Proof. unfold periodRow, shiftRow. by repeat case_match. Qed.

Lemma revokedRow_id sub now r : subID (revokedRow sub now r) = subID r.
Proof. unfold revokedRow, shiftRow. by repeat case_match. Qed.

Lemma updateRow_map id f d r :
  anyRow id d = Some r → updateRow id f d = (Ok tt, setSubs (map (λ r, if subID r =? id then f r else r) (subs d)) d).
Proof. unfold updateRow. by intros ->. Qed.

Lemma anyRow_is_Some d id : id ∈ subID <$> subs d → is_Some (anyRow id d).
Proof.
  unfold anyRow. induction (subs d) as [|x l IH]; [by intros ?%not_elem_of_nil|]. rewrite fmap_cons. cbn [List.find].
  intros [->|Hin]%elem_of_cons; [rewrite Z.eqb_refl; by eexists|]. destruct (_ =? _); [by eexists | by apply IH].
Qed.

Lemma periodTx_map d sub e now t :
  NoDup (subID <$> subs d) → sub ∈ subs d →
  periodTx (ListByUserIDAndPlanID (subUserID sub) (subPlanID sub) d) sub e now t d =
    (Ok tt, setSubs (map (periodRow sub e now t) (subs d)) d).
Proof.
  intros Hnd Hin. unfold periodTx, ExtendExpiry. rewrite (updateRow_map _ _ d sub) by by apply anyRow_unique.
  destruct (shiftLaterChain_map d sub (withBody (setExpiresAt e)) (Sub e (subExpiresAt sub)) t Hnd) as (d2 & E & Ed); [done|].
  rewrite E. unfold UpdateStatus.
  assert (Hids : subID <$> subs d2 = subID <$> subs d).
  { rewrite Ed. cbn [subs setSubs]. apply NoDup_map_ids. intros r _. unfold shiftRow. by repeat case_match. }
  destruct (anyRow_is_Some d2 (subID sub)) as [r2 Hr2]; [rewrite Hids; by apply list_elem_of_fmap_2|].
  rewrite (updateRow_map _ _ _ _ Hr2). cbn [translated]. rewrite Ed. cbn [subs setSubs].
  change (setSubs ?a (setSubs ?b d)) with (setSubs a d). do 2 f_equal. rewrite map_map. apply map_ext. intros r. unfold periodRow, shiftRow.
  destruct (subID r =? subID sub) eqn:E1; [by rewrite withBody_id, E1|]. destruct (_ =? 0); [by rewrite E1|].
  destruct (_ && _); [|by rewrite E1]. change (subID (shiftItem _ _ r)) with (subID r). by rewrite E1.
Qed.

Lemma revokeTx_map d sub now :
  NoDup (subID <$> subs d) → sub ∈ subs d → subDeleted sub = false →
  revokeTx (ListByUserIDAndPlanID (subUserID sub) (subPlanID sub) d) sub (revokeChainDelta sub now) now d =
    (Ok tt, setSubs (map (revokedRow sub now) (subs d)) d).
Proof.
  intros Hnd Hin Hlive. unfold revokeTx, Delete.
  destruct (shiftLaterChain_map d sub (withBody (setDeletedAt (Some now))) (revokeChainDelta sub now) now Hnd) as (d2 & E & Ed); [done|].
  rewrite (map_ext_in _ (λ r, if subID r =? subID sub then withBody (setDeletedAt (Some now)) r else r)).
  - by rewrite E, Ed.
  - intros r Hr%list_elem_of_In. destruct (Z.eqb_spec (subID r) (subID sub)) as [E1|]; [|done].
    assert (r = sub) as ->; [|by rewrite Hlive].
    pose proof (anyRow_unique d r Hnd Hr) as H1. rewrite E1, (anyRow_unique d sub Hnd Hin) in H1. congruence.
Qed.

(** ** Windows that do not overlap *)

(** Every stored time lies between the Unix epoch and [MaxExpiresAt], so that no
    difference of two of them saturates. *)
Definition epoch : Time := unixToInternal * Second.

Definition inRange (r : SubscriptionRow) : Prop := epoch <= subStartsAt r <= subExpiresAt r ∧ subExpiresAt r <= MaxExpiresAt.

Definition sameChain (r1 r2 : SubscriptionRow) : Prop :=
  subUserID r1 = subUserID r2 ∧ subPlanID r1 = subPlanID r2 ∧ subDeleted r1 = false ∧ subDeleted r2 = false.

(** The parts of the windows after [T] are disjoint. *)
Definition apart (T : Time) (r1 r2 : SubscriptionRow) : Prop :=
  subExpiresAt r1 <= T ∨ subExpiresAt r2 <= T ∨ subExpiresAt r1 <= subStartsAt r2 ∨ subExpiresAt r2 <= subStartsAt r1.

Record windows (T : Time) (d : payDB) : Prop := {
  win_ids : NoDup (subID <$> subs d);
  win_bound : ∀ r, r ∈ subs d → subID r <= Z.of_nat (length (subs d));
  win_range : ∀ r, r ∈ subs d → inRange r;
  win_apart : ∀ r1 r2, r1 ∈ subs d → r2 ∈ subs d → subID r1 ≠ subID r2 → sameChain r1 r2 → apart T r1 r2;
}.

Lemma windows_later T T' d : T <= T' → windows T d → windows T' d.
Proof.
  intros Ht [H1 H2 H3 H4]. split; [done..|]. intros r1 r2 Hr1 Hr2 Hne Hs.
  destruct (H4 r1 r2 Hr1 Hr2 Hne Hs) as [?|[?|?]]; [left; lia | right; left; lia | by do 2 right].
Qed.

Lemma row_eq T d r1 r2 : windows T d → r1 ∈ subs d → r2 ∈ subs d → subID r1 = subID r2 → r1 = r2.
Proof.
  intros HW H1 H2 E. pose proof (anyRow_unique d r1 (win_ids T d HW) H1) as A.
  rewrite E, (anyRow_unique d r2 (win_ids T d HW) H2) in A. congruence.
Qed.

(** An operation that maps every row on its own. *)
Lemma windows_map T d g :
  windows T d → (∀ r, subID (g r) = subID r) → (∀ r, r ∈ subs d → inRange (g r)) →
  (∀ r1 r2, r1 ∈ subs d → r2 ∈ subs d → subID r1 ≠ subID r2 → sameChain (g r1) (g r2) → apart T (g r1) (g r2)) →
  windows T (setSubs (map g (subs d)) d).
Proof.
  intros [H1 H2 H3 H4] Hid Hr Ha. split; cbn [subs setSubs].
  - by rewrite NoDup_map_ids.
  - intros r (x & -> & Hx)%list_elem_of_fmap. rewrite length_map, Hid. by apply H2.
  - intros r (x & -> & Hx)%list_elem_of_fmap. by apply Hr.
  - intros r1 r2 (x1 & -> & Hx1)%list_elem_of_fmap (x2 & -> & Hx2)%list_elem_of_fmap. rewrite !Hid. by apply Ha.
Qed.

Lemma sameChain_inChainOf r1 r2 : sameChain r1 r2 → inChainOf r1 r2 = true ∧ inChainOf r2 r1 = true.
Proof. intros (E1 & E2 & E3 & E4). unfold inChainOf, inChain. by rewrite E1, E2, E3, E4, !Z.eqb_refl. Qed.

Lemma apart_sym T r1 r2 : apart T r1 r2 → apart T r2 r1.
Proof. unfold apart. tauto. Qed.

Lemma sameChain_sym r1 r2 : sameChain r1 r2 → sameChain r2 r1.
Proof. unfold sameChain. intuition congruence. Qed.

(** [r'] is [r], moved by [delta] if it comes after [anchor]. *)
Definition moved (anchor : SubscriptionRow) (delta : Duration) (r r' : SubscriptionRow) : Prop :=
  subUserID r' = subUserID r ∧ subPlanID r' = subPlanID r ∧ subDeleted r' = subDeleted r ∧
  if inChainOf anchor r && shifts anchor r then subStartsAt r' = subStartsAt r + delta ∧ subExpiresAt r' = subExpiresAt r + delta
  else subStartsAt r' = subStartsAt r ∧ subExpiresAt r' = subExpiresAt r.

Definition fits (anchor : SubscriptionRow) (delta : Duration) (d : payDB) : Prop :=
  ∀ r, r ∈ subs d → inChainOf anchor r = true → shifts anchor r = true → subExpiresAt r + delta <= MaxExpiresAt.

Lemma shiftRow_moved d anchor delta t r :
  fits anchor delta d → r ∈ subs d → moved anchor delta r (if delta =? 0 then r else shiftRow anchor delta t r).
Proof.
  intros Hf Hr. unfold moved, shiftRow. destruct (Z.eqb_spec delta 0) as [->|Hne].
  { split; [done|]. split; [done|]. split; [done|]. case_match; lia. }
  destruct (inChainOf anchor r && shifts anchor r) eqn:E; [|done]. apply andb_true_iff in E as [E1 E2].
  split; [done|]. split; [done|]. split; [done|]. split; [done|]. specialize (Hf r Hr E1 E2).
  change (subExpiresAt (shiftItem delta t r)) with (capExpiry (subExpiresAt r + delta)). unfold capExpiry, After.
  destruct (Z.ltb_spec MaxExpiresAt (subExpiresAt r + delta)); lia.
Qed.

Lemma moved_sameChain a delta r1 r2 r1' r2' : moved a delta r1 r1' → moved a delta r2 r2' → sameChain r1' r2' → sameChain r1 r2.
Proof. unfold sameChain. intros (-> & -> & -> & _) (-> & -> & -> & _). done. Qed.

Lemma shifts_spec a r : subID r ≠ subID a → shifts a r = true ↔ subExpiresAt a <= subStartsAt r.
Proof. intros Hne. unfold shifts, Before. rewrite (proj2 (Z.eqb_neq _ _) Hne). destruct (Z.ltb_spec (subStartsAt r) (subExpiresAt a)); cbn; intuition (done || lia). Qed.

(** Two rows next to a live [anchor] stay apart when the later rows move, but
    not before the start of the anchor. *)
Lemma moved_apart T d a delta r1 r2 r1' r2' :
  windows T d → a ∈ subs d → subDeleted a = false → r1 ∈ subs d → r2 ∈ subs d → subID r1 ≠ subID r2 →
  subID r1 ≠ subID a → subID r2 ≠ subID a →
  (delta ≠ 0 → T < subExpiresAt a ∧ subStartsAt a <= subExpiresAt a + delta) →
  moved a delta r1 r1' → moved a delta r2 r2' → sameChain r1' r2' → apart T r1' r2'.
Proof.
  intros HW Ha Hlive H1 H2 Hne N1 N2 Hd M1 M2 Hs. pose proof (moved_sameChain _ _ _ _ _ _ M1 M2 Hs) as Hs12.
  pose proof (win_apart T d HW r1 r2 H1 H2 Hne Hs12) as Hap.
  destruct M1 as (_ & _ & _ & M1), M2 as (_ & _ & _ & M2).
  assert (Ein : inChainOf a r1 = inChainOf a r2).
  { unfold inChainOf, inChain. destruct Hs12 as (-> & -> & -> & ->). done. }
  destruct (decide (delta = 0)) as [->|Hnz].
  { unfold apart in *. repeat case_match; lia. }
  destruct (Hd Hnz) as [HT Hstart]. rewrite Ein in M1. destruct (inChainOf a r2) eqn:Hin; cbn [andb] in *; [|unfold apart in *; lia].
  assert (Hrow : ∀ r, r ∈ subs d → subID r ≠ subID a → inChainOf a r = true → sameChain a r).
  { intros r _ _ Hc. unfold inChainOf, inChain in Hc. apply andb_true_iff in Hc as [[E1 E2]%andb_true_iff E3%negb_true_iff]. zbool. by repeat split. }
  pose proof (win_apart T d HW a r1 Ha H1 (not_eq_sym N1) (Hrow r1 H1 N1 Ein)) as A1.
  pose proof (win_apart T d HW a r2 Ha H2 (not_eq_sym N2) (Hrow r2 H2 N2 Hin)) as A2.
  pose proof (win_range T d HW r1 H1) as R1. pose proof (win_range T d HW r2 H2) as R2.
  pose proof (shifts_spec a r1 N1) as S1. pose proof (shifts_spec a r2 N2) as S2. unfold apart, inRange in *.
  destruct (shifts a r1), (shifts a r2).
  - destruct S1 as [S1 _], S2 as [S2 _]. specialize (S1 eq_refl). specialize (S2 eq_refl). lia.
  - destruct S1 as [S1 _], S2 as [_ S2]. specialize (S1 eq_refl). assert (¬ subExpiresAt a <= subStartsAt r2) by (by intros ?%S2). lia.
  - destruct S2 as [S2 _], S1 as [_ S1]. specialize (S2 eq_refl). assert (¬ subExpiresAt a <= subStartsAt r1) by (by intros ?%S1). lia.
  - lia.
Qed.

Lemma Sub_range t u : epoch <= t <= MaxExpiresAt → epoch <= u <= MaxExpiresAt → Sub t u = t - u.
Proof. intros Ht Hu. apply Sub_exact. unfold epoch, MaxExpiresAt, in_int64, minInt64, maxInt64, unixToInternal, Second in *. lia. Qed.

Lemma moved_range a delta r r' :
  inRange r → inRange a → epoch <= subExpiresAt a + delta → moved a delta r r' → subExpiresAt r' <= MaxExpiresAt → inRange r'.
Proof.
  unfold inRange. intros Hr Ha He (_ & _ & _ & M). unfold shifts, Before in M.
  destruct (inChainOf a r && _) eqn:E; [|lia]. apply andb_true_iff in E as [_ [_ E%negb_true_iff]%andb_true_iff]. zbool. lia.
Qed.

(** A change of the period of [a], with the later rows in step. *)
Lemma windows_period T d a e now t :
  windows T d → a ∈ subs d → subDeleted a = false → T < subExpiresAt a → subStartsAt a < e → e <= MaxExpiresAt →
  fits a (e - subExpiresAt a) d →
  windows T (setSubs (map (periodRow a e now t) (subs d)) d).
Proof.
  intros HW Ha Hlive HT Hs Hmax Hf. pose proof (win_range T d HW a Ha) as Ra. unfold inRange in Ra.
  assert (HS : Sub e (subExpiresAt a) = e - subExpiresAt a) by (apply Sub_range; lia). set (delta := e - subExpiresAt a) in *.
  assert (Hrow : ∀ r, r ∈ subs d → subID r ≠ subID a → moved a delta r (periodRow a e now t r)).
  { intros r Hr Hne. unfold periodRow. rewrite HS, (proj2 (Z.eqb_neq _ _) Hne). by apply (shiftRow_moved d). }
  assert (Hanchor : subStartsAt (periodRow a e now t a) = subStartsAt a ∧ subExpiresAt (periodRow a e now t a) = e ∧
    subUserID (periodRow a e now t a) = subUserID a ∧ subPlanID (periodRow a e now t a) = subPlanID a ∧
    subDeleted (periodRow a e now t a) = false).
  { unfold periodRow. by rewrite Z.eqb_refl. }
  destruct Hanchor as (As & Ae & Au & Ap & Ad).
  assert (Hbeside : ∀ r, r ∈ subs d → subID r ≠ subID a → sameChain (periodRow a e now t a) (periodRow a e now t r) →
    apart T (periodRow a e now t a) (periodRow a e now t r)).
  { intros r Hr Hne Hsc. pose proof (Hrow r Hr Hne) as M. destruct M as (Mu & Mp & Md & M).
    assert (Hc : sameChain a r).
    { destruct Hsc as (E1 & E2 & E3 & E4). rewrite Au, Mu in E1. rewrite Ap, Mp in E2. rewrite Md in E4. by repeat split. }
    pose proof (win_apart T d HW a r Ha Hr (not_eq_sym Hne) Hc) as Hap. rewrite (proj1 (sameChain_inChainOf _ _ Hc)) in M. cbn [andb] in M.
    pose proof (shifts_spec a r Hne) as S. unfold apart in *. rewrite As, Ae. destruct (shifts a r).
    - destruct S as [S _]. specialize (S eq_refl). unfold delta in *. lia.
    - assert (¬ subExpiresAt a <= subStartsAt r) by (by intros ?%S). lia. }
  apply windows_map; [done | apply periodRow_id | |].
  - intros r Hr. destruct (decide (subID r = subID a)) as [E|Hne].
    + rewrite (row_eq T d r a HW Hr Ha E). unfold inRange. rewrite As, Ae. lia.
    + pose proof (Hrow r Hr Hne) as M. apply (moved_range a delta r); [by eapply win_range | by eapply win_range | unfold delta; lia | done|].
      destruct M as (_ & _ & _ & M). pose proof (win_range T d HW r Hr) as [_ Rr].
      destruct (inChainOf a r) eqn:E1, (shifts a r) eqn:E2; cbn [andb] in M; try lia. pose proof (Hf r Hr E1 E2). lia.
  - intros r1 r2 Hr1 Hr2 Hne Hsc. destruct (decide (subID r1 = subID a)) as [E1|N1].
    { rewrite (row_eq T d r1 a HW Hr1 Ha E1) in *. apply Hbeside; [done | congruence | done]. }
    destruct (decide (subID r2 = subID a)) as [E2|N2].
    { rewrite (row_eq T d r2 a HW Hr2 Ha E2) in *. apply apart_sym, Hbeside; [done | congruence | by apply sameChain_sym]. }
    apply (moved_apart T d a delta r1 r2); auto. intros _. unfold delta. lia.
Qed.

Lemma windows_subs T d d' : subs d' = subs d → windows T d → windows T d'.
Proof. intros E [H1 H2 H3 H4]. split; by rewrite E. Qed.

(** A revocation, with the later rows moved to the time that is released. *)
Lemma windows_revoke T d a now :
  windows T d → a ∈ subs d → subDeleted a = false → T <= now → epoch <= now →
  windows T (setSubs (map (revokedRow a now) (subs d)) d).
Proof.
  intros HW Ha Hlive HT Hnow. pose proof (win_range T d HW a Ha) as Ra. unfold inRange in Ra.
  set (delta := revokeChainDelta a now).
  assert (Hd : delta <= 0 ∧ (delta ≠ 0 → now < subExpiresAt a ∧ epoch <= subExpiresAt a + delta ∧ subStartsAt a <= subExpiresAt a + delta)).
  { unfold delta, revokeChainDelta, Before, After. destruct (Z.ltb_spec now (subStartsAt a)).
    - rewrite Sub_range by lia. lia.
    - destruct (Z.ltb_spec now (subExpiresAt a)); [rewrite Sub_range by lia; lia | lia]. }
  destruct Hd as [Hneg Hd].
  assert (Hrow : ∀ r, r ∈ subs d → subID r ≠ subID a → moved a delta r (revokedRow a now r)).
  { intros r Hr Hne. unfold revokedRow. fold delta. rewrite (proj2 (Z.eqb_neq _ _) Hne). apply (shiftRow_moved d); [|done].
    intros x Hx _ _. pose proof (win_range T d HW x Hx) as [_ Rx]. lia. }
  assert (Hgone : subDeleted (revokedRow a now a) = true) by (unfold revokedRow; by rewrite Z.eqb_refl).
  apply windows_map; [done | apply revokedRow_id | |].
  - intros r Hr. pose proof (win_range T d HW r Hr) as Rr. destruct (decide (subID r = subID a)) as [E|Hne].
    + unfold revokedRow. by rewrite E, Z.eqb_refl.
    + pose proof (Hrow r Hr Hne) as M. destruct (decide (delta = 0)) as [E0|N0].
      * rewrite E0 in M. unfold inRange in *. destruct M as (_ & _ & _ & M). case_match; lia.
      * apply (moved_range a delta r); [done | done | by apply Hd | done|].
        destruct M as (_ & _ & _ & M). destruct Rr. case_match; lia.
  - intros r1 r2 Hr1 Hr2 Hne Hsc. destruct (decide (subID r1 = subID a)) as [E1|N1].
    { destruct Hsc as (_ & _ & E & _). rewrite (row_eq T d r1 a HW Hr1 Ha E1), Hgone in E. done. }
    destruct (decide (subID r2 = subID a)) as [E2|N2].
    { destruct Hsc as (_ & _ & _ & E). rewrite (row_eq T d r2 a HW Hr2 Ha E2), Hgone in E. done. }
    apply (moved_apart T d a delta r1 r2); auto. intros N0. destruct (Hd N0). lia.
Qed.

(** A new row at the end of the list. *)
Lemma windows_new T d r :
  windows T d → subID r = Z.of_nat (length (subs d)) + 1 → inRange r →
  (∀ x, x ∈ subs d → sameChain x r → apart T x r) → windows T (setSubs (subs d ++ [r]) d).
Proof.
  intros [H1 H2 H3 H4] Hid Hr Ha. split; cbn [subs setSubs].
  - rewrite fmap_app. apply NoDup_app. split; [done|]. split; [|apply NoDup_singleton].
    intros i (x & -> & Hx)%list_elem_of_fmap Hi%list_elem_of_singleton. specialize (H2 x Hx). lia.
  - intros x [Hx|Hx%list_elem_of_singleton]%elem_of_app; rewrite length_app; cbn [length]; [specialize (H2 x Hx); lia | subst x; lia].
  - intros x [Hx|Hx%list_elem_of_singleton]%elem_of_app; [by apply H3 | by subst x].
  - intros r1 r2 [I1|I1%list_elem_of_singleton]%elem_of_app [I2|I2%list_elem_of_singleton]%elem_of_app Hne Hs.
    + by apply H4.
    + subst r2. by apply Ha.
    + subst r1. apply apart_sym, Ha; [done | by apply sameChain_sym].
    + by subst.
Qed.

(** [latestSubscription] is the last to expire. *)
Lemma latest_step u p l best :
  let best' := fold_left (λ best r,
    if (subUserID r =? u) && (subPlanID r =? p) && negb (subDeleted r) then
      match best with Some b => if Before (subExpiresAt r) (subExpiresAt b) then best else Some r | None => Some r end
    else best) l best in
  (∀ b, best = Some b → ∃ b', best' = Some b' ∧ subExpiresAt b <= subExpiresAt b') ∧
  (∀ r, r ∈ l → inChain u p r = true → ∃ b', best' = Some b' ∧ subExpiresAt r <= subExpiresAt b') ∧
  (∀ b', best' = Some b' → best = Some b' ∨ b' ∈ l).
Proof.
  revert best. induction l as [|x l IH]; intros best; cbn [fold_left].
  { split; [intros b ->; by exists b|]. split; [by intros r ?%not_elem_of_nil | by left]. }
  match goal with |- context [fold_left _ l ?b] => set (best1 := b) end. specialize (IH best1). cbv zeta in IH. destruct IH as (I1 & I2 & I3).
  assert (B : (∀ b, best = Some b → ∃ b1, best1 = Some b1 ∧ subExpiresAt b <= subExpiresAt b1) ∧
    (inChain u p x = true → ∃ b1, best1 = Some b1 ∧ subExpiresAt x <= subExpiresAt b1) ∧
    (best1 = best ∨ best1 = Some x)).
  { unfold best1, inChain. destruct (_ && _ && _); [|split; [intros b ->; exists b; split; [done | lia] | split; [done | by left]]].
    destruct best as [b|].
    - unfold Before. destruct (Z.ltb_spec (subExpiresAt x) (subExpiresAt b)).
      + split; [intros b0 [= <-]; exists b; split; [done | lia]|]. split; [intros _; exists b; split; [done | lia] | by left].
      + split; [intros b0 [= <-]; exists x; split; [done | lia]|]. split; [intros _; exists x; split; [done | lia] | by right].
    - split; [done|]. split; [intros _; exists x; split; [done | lia] | by right]. }
  destruct B as (B1 & B2 & B3). split_and!.
  - intros b Hb. destruct (B1 b Hb) as (b1 & E1 & L1). destruct (I1 b1 E1) as (b' & E' & L'). exists b'. split; [done | lia].
  - intros r [->|Hr]%elem_of_cons Hc; [|by apply I2]. destruct (B2 Hc) as (b1 & E1 & L1). destruct (I1 b1 E1) as (b' & E' & L'). exists b'. split; [done | lia].
  - intros b' Hb'. destruct (I3 b' Hb') as [E|Hin]; [|right; by constructor]. destruct B3 as [B3|B3]; rewrite B3 in E; [by left|].
    right. injection E as ->. constructor.
Qed.

Lemma latestSubscription_max u p d r :
  r ∈ subs d → inChain u p r = true → ∃ l, latestSubscription u p d = Some l ∧ l ∈ subs d ∧ subExpiresAt r <= subExpiresAt l.
Proof.
  intros Hr Hc. destruct (latest_step u p (subs d) None) as (_ & H2 & H3). destruct (H2 r Hr Hc) as (l & E & L).
  exists l. split; [exact E|]. split; [|done]. by destruct (H3 l E).
Qed.

Lemma latestSubscription_in u p d l : latestSubscription u p d = Some l → l ∈ subs d.
Proof. intros E. destruct (latest_step u p (subs d) None) as (_ & _ & H3). by destruct (H3 l E). Qed.

(** ** Whole calls *)

Section calls.
Context (s : paymentService) `{Calendar}.
(** [AddDate] with a positive number of days does not go back. *)
Context (AddDays_later : ∀ t days, 0 < days → t <= AddDays s t days).

Lemma normalize_positive days : 1 <= normalizeAssignValidityDays days.
Proof.
  unfold normalizeAssignValidityDays, MaxValidityDays. destruct (Z.leb_spec days 0).
  - by destruct (Z.ltb_spec 36500 30).
  - destruct (Z.ltb_spec 36500 days); lia.
Qed.

Lemma template_days input template : resolveGrantPlanTemplate s input = Ok template → 1 <= tValidityDays template.
Proof.
  unfold resolveGrantPlanTemplate. destruct (_ <=? 0); [done|].
  assert (Hfin : ∀ m : grantPlanTemplate, 1 <= tValidityDays m →
    (match validatePlanQuotas (tDailyLimitUSD m) (tWeeklyLimitUSD m) (tMonthlyLimitUSD m) with Ok _ => Ok m | Err e => Err (AppErr e) end) = Ok template →
    1 <= tValidityDays template) by (intros m Hm; destruct (validatePlanQuotas _ _ _); [by intros [= <-] | done]).
  destruct (UseProvidedTemplate input); [apply Hfin, normalize_positive|].
  destruct (planOf s _) as [plan|]; [|done]. apply Hfin. cbn [tValidityDays]. case_match; apply normalize_positive.
Qed.

Lemma windows_assignUnlocked T input template now d :
  windows T d → 1 <= tValidityDays template → T <= now → epoch <= now <= MaxExpiresAt →
  windows T (assignOrExtendSubscriptionUnlocked s input template now d).2.
Proof.
  intros HW Hdays HT Hnow. unfold assignOrExtendSubscriptionUnlocked.
  set (pair := match latestSubscription _ _ _ with Some l => _ | None => _ end).
  assert (Hst : epoch <= pair.1 <= MaxExpiresAt ∧ ∀ x, x ∈ subs d → inChain (inUserID input) (inPlanID input) x = true → subExpiresAt x <= pair.1).
  { unfold pair, After. split.
    - destruct (latestSubscription _ _ d) as [l|] eqn:El; [|done]. pose proof (win_range T d HW l (latestSubscription_in _ _ _ _ El)) as R.
      unfold inRange in R. destruct (Z.ltb_spec now (subExpiresAt l)); cbn; lia.
    - intros x Hx Hc. destruct (latestSubscription_max _ _ d x Hx Hc) as (l & -> & _ & L).
      destruct (Z.ltb_spec now (subExpiresAt l)); cbn; lia. }
  destruct pair as [startsAt queued]. cbn [fst] in Hst. destruct Hst as [Hs Hall].
  pose proof (AddDays_later startsAt (tValidityDays template) ltac:(lia)) as Hlater. cbn [snd].
  apply windows_new; [done | done | |].
  - unfold inRange, subStartsAt, subExpiresAt. cbn. unfold After. destruct (Z.ltb_spec MaxExpiresAt (AddDays s startsAt (tValidityDays template))); lia.
  - intros x Hx (E1 & E2 & E3 & _). do 2 right. left. unfold subStartsAt at 1. cbn. apply Hall; [done|].
    unfold inChain. cbn in E1, E2. by rewrite E1, E2, E3, !Z.eqb_refl.
Qed.

Lemma windows_assignTx T input template now d :
  windows T d → 1 <= tValidityDays template → T <= now → epoch <= now <= MaxExpiresAt →
  windows T (assignTx s input template now d).2.
Proof.
  intros HW Hd HT Hn. unfold assignTx. destruct (negb _); [done|]. destruct (findSource _ d); [done|].
  pose proof (windows_assignUnlocked T input template now d HW Hd HT Hn) as Hx.
  by destruct (assignOrExtendSubscriptionUnlocked _ _ _ _ _) as [[row q] d'].
Qed.

Lemma exec_transact {X} t text (f : txn (result goError X)) d : (exec t (transact text f) d).2 = (f t d).2.
Proof. cbn. by destruct (f t d) as [[r|e] d']. Qed.

Lemma windows_assign T input t d :
  windows T d → T <= t → epoch <= t <= MaxExpiresAt → windows T (exec t (AssignOrExtendSubscription s input) d).2.
Proof.
  intros HW HT Ht. unfold AssignOrExtendSubscription. cbn [exec reading]. destruct (findSource _ d); [done|].
  destruct (resolveGrantPlanTemplate s input) as [template|e] eqn:E; [|done]. rewrite exec_transact.
  apply windows_assignTx; [done | by eapply template_days | done..].
Qed.

Lemma windows_bulkAssign T users input acc t d :
  windows T d → T <= t → epoch <= t <= MaxExpiresAt → windows T (exec t (bulkAssign s users input acc) d).2.
Proof.
  intros HW HT Ht. revert acc d HW. induction users as [|u users IH]; intros acc d HW; [done|]. cbn [bulkAssign].
  rewrite exec_bindProg. pose proof (windows_assign T (input u) t d HW HT Ht) as H1.
  destruct (exec t (AssignOrExtendSubscription s (input u)) d) as [r d']. by apply IH.
Qed.

Lemma exec_andThen_db {A B} t (m : M A) (f : A → M B) d :
  exec t (andThen m f) d = match exec t m d with (Ok a, d') => exec t (f a) d' | (Err e, d') => (Err e, d') end.
Proof. unfold andThen. rewrite exec_bindProg. by destruct (exec t m d) as [[a|e] d']. Qed.

Lemma atomically_ok {X} (f : Time → payDB → result goError X * payDB) t d x d' :
  f t d = (Ok x, d') → atomically f t d = (Ok (Ok x), d').
Proof. unfold atomically. by intros ->. Qed.

(** [RevokeSubscription] alone: the row is deleted and the later ones follow. *)
Lemma exec_revoke T t id sub d :
  windows T d → liveRow id d = Some sub →
  exec t (RevokeSubscription id) d = (Ok tt, setSubs (map (revokedRow sub t) (subs d)) d).
Proof.
  intros HW Hl. destruct (liveRow_Some d id sub Hl) as (Hin & Hid & Hlive). unfold RevokeSubscription.
  rewrite exec_andThen_db. unfold fetch at 1. cbn [exec GetByID reading]. rewrite Hl. cbn [found exec ok].
  rewrite exec_andThen_db. unfold readChain, fetch. cbn [exec reading ok].
  unfold transact. cbn [exec]. erewrite atomically_ok; [|by apply revokeTx_map; [exact (win_ids T d HW)|..]]. done.
Qed.

Lemma exec_revoke_missing t id d :
  liveRow id d = None → exec t (RevokeSubscription id) d = (Err (AppErr ErrSubscriptionNotFound), d).
Proof. intros Hl. unfold RevokeSubscription. rewrite exec_andThen_db. unfold fetch. cbn [exec GetByID reading]. by rewrite Hl. Qed.

(** A change of the period alone. *)
Lemma exec_changePeriod T expiry t id sub d :
  windows T d → liveRow id d = Some sub →
  exec t (changePeriod expiry id) d =
    match expiry sub t with
    | Err e => (Err e, d)
    | Ok e => (Ok (periodRow sub e t t sub), setSubs (map (periodRow sub e t t) (subs d)) d)
    end.
Proof.
  intros HW Hl. destruct (liveRow_Some d id sub Hl) as (Hin & Hid & Hlive). unfold changePeriod.
  rewrite exec_andThen_db. unfold queryOr. cbn [exec GetByID reading]. rewrite Hl. cbn [found exec ok].
  destruct (expiry sub t) as [e|]; [|done]. rewrite exec_andThen_db. unfold readChain, fetch at 1. cbn [exec reading ok].
  rewrite exec_andThen_db. unfold transact. cbn [exec]. erewrite atomically_ok; [|by apply periodTx_map; [exact (win_ids T d HW)|]].
  cbn [exec]. unfold fetch. cbn [exec GetByID reading]. set (d2 := setSubs _ d).
  assert (Hnd : NoDup (subID <$> subs d2)).
  { unfold d2. cbn [subs setSubs]. rewrite NoDup_map_ids; [exact (win_ids T d HW)|]. intros; apply periodRow_id. }
  assert (Hl2 : liveRow id d2 = Some (periodRow sub e t t sub)).
  { unfold liveRow. rewrite <- Hid, <- (periodRow_id sub e t t sub), (anyRow_unique d2 (periodRow sub e t t sub) Hnd).
    - unfold periodRow. rewrite Z.eqb_refl. change (subDeleted (withBody _ (withBody _ sub))) with (subDeleted sub). by rewrite Hlive.
    - unfold d2. by apply list_elem_of_fmap_2. }
  by rewrite Hl2.
Qed.

Lemma exec_changePeriod_missing expiry t id d :
  liveRow id d = None → exec t (changePeriod expiry id) d = (Err (AppErr ErrSubscriptionNotFound), d).
Proof. intros Hl. unfold changePeriod. rewrite exec_andThen_db. unfold queryOr. cbn [exec GetByID reading]. by rewrite Hl. Qed.

(** The bound of a new end. *)
Lemma capExpiry_max e : capExpiry e <= MaxExpiresAt.
Proof. unfold capExpiry, After. destruct (Z.ltb_spec MaxExpiresAt e); lia. Qed.

Lemma extendedExpiry_Ok sub days t e : extendedExpiry s sub days t = Ok e → subStartsAt sub < e <= MaxExpiresAt.
Proof.
  unfold extendedExpiry. destruct (_ && _); [done|]. match goal with |- context [capExpiry ?x] => generalize (capExpiry_max x); set (c := capExpiry x) end.
  intros Hc. unfold After. destruct (Z.ltb_spec (subStartsAt sub) c); cbn [negb]; [intros [= <-]; lia | done].
Qed.

Lemma validityExpiry_Ok sub days t e : validityExpiry s sub days t = Ok e → subStartsAt sub < e <= MaxExpiresAt.
Proof.
  unfold validityExpiry. destruct (_ <=? 0); [done|]. match goal with |- context [capExpiry ?x] => generalize (capExpiry_max x); set (c := capExpiry x) end.
  intros Hc. unfold After. destruct (Z.ltb_spec (subStartsAt sub) c); cbn [negb]; [intros [= <-]; lia | done].
Qed.

Lemma windows_revokeCall T t id d :
  windows T d → T <= t → epoch <= t → windows T (exec t (RevokeSubscription id) d).2.
Proof.
  intros HW HT Ht. destruct (liveRow id d) as [sub|] eqn:E; [|by rewrite exec_revoke_missing].
  rewrite (exec_revoke T t id sub d HW E). destruct (liveRow_Some d id sub E) as (Hin & _ & Hl). by apply windows_revoke.
Qed.

(** What a change of the period needs: the later rows stay before
    [MaxExpiresAt], and the row has not ended. *)
Definition periodFits (T : Time) (expiry : SubscriptionRow → Time → result goError Time) (t : Time) (id : Z) (d : payDB) : Prop :=
  ∀ sub e, liveRow id d = Some sub → expiry sub t = Ok e → T < subExpiresAt sub ∧ fits sub (e - subExpiresAt sub) d.

Lemma windows_changePeriod T expiry t id d :
  windows T d → (∀ sub e, expiry sub t = Ok e → subStartsAt sub < e <= MaxExpiresAt) → periodFits T expiry t id d →
  windows T (exec t (changePeriod expiry id) d).2.
Proof.
  intros HW Hexp Hf. destruct (liveRow id d) as [sub|] eqn:E; [|by rewrite exec_changePeriod_missing].
  rewrite (exec_changePeriod T expiry t id sub d HW E). destruct (expiry sub t) as [e|] eqn:Ee; [|done].
  destruct (liveRow_Some d id sub E) as (Hin & _ & Hl). destruct (Hf sub e E Ee) as [HT Hfit]. destruct (Hexp sub e Ee).
  by apply windows_period.
Qed.

(** Window maintenance changes usage and window starts only. *)
Lemma maintenance_terms row sub now :
  let row' := UserSubscription.EnsureWindowMaintenance row sub now in
  UserSubscription.StartsAt row' = UserSubscription.StartsAt row ∧ UserSubscription.ExpiresAt row' = UserSubscription.ExpiresAt row ∧
  UserSubscription.sStatus row' = UserSubscription.sStatus row ∧ UserSubscription.DeletedAt row' = UserSubscription.DeletedAt row.
Proof.
  unfold UserSubscription.EnsureWindowMaintenance, UserSubscription.checkAndResetWindowsAt, UserSubscription.CheckAndActivateWindow,
    UserSubscription.resetDailyStep, UserSubscription.resetWeeklyStep, UserSubscription.resetMonthlyStep, UserSubscription.ActivateWindows,
    UserSubscription.ResetDailyUsage, UserSubscription.ResetWeeklyUsage, UserSubscription.ResetMonthlyUsage.
  repeat case_match; simplify_eq; repeat case_match; cbn; repeat (case_match; cbn); done.
Qed.

Lemma windows_sameRows T d g :
  windows T d → (∀ r, subID (g r) = subID r) →
  (∀ r, subUserID (g r) = subUserID r ∧ subPlanID (g r) = subPlanID r ∧ subStartsAt (g r) = subStartsAt r ∧
        subExpiresAt (g r) = subExpiresAt r ∧ subDeleted (g r) = subDeleted r) →
  windows T (setSubs (map g (subs d)) d).
Proof.
  intros HW Hid Hg. apply windows_map; [done|done| |].
  - intros r Hr. unfold inRange. destruct (Hg r) as (_ & _ & E1 & E2 & _). rewrite E1, E2. by apply (win_range T d HW).
  - intros r1 r2 H1 H2 Hne Hs. unfold apart, sameChain in *. destruct (Hg r1) as (U1 & P1 & S1 & E1 & D1), (Hg r2) as (U2 & P2 & S2 & E2 & D2).
    rewrite U1, U2, P1, P2, D1, D2 in Hs. rewrite S1, S2, E1, E2. by apply (win_apart T d HW).
Qed.

(** The self-service revocation up to the check of the quota: the row after
    maintenance. *)
Definition maintained (sub : SubscriptionRow) (now : Time) : SubscriptionRow :=
  withBody (λ b, UserSubscription.EnsureWindowMaintenance b (subBody sub) now) sub.

Definition maintainedTable (sub : SubscriptionRow) (now : Time) (d : payDB) : payDB :=
  setSubs (map (λ r, if subID r =? subID sub then withBody (λ b, UserSubscription.EnsureWindowMaintenance b (subBody sub) now) r else r) (subs d)) d.

Lemma windows_maintained T d sub now : windows T d → windows T (maintainedTable sub now d).
Proof.
  intros HW. apply windows_sameRows; [done | intros r; by case_match|]. intros r. destruct (subID r =? subID sub); [|done].
  destruct (maintenance_terms (subBody r) (subBody sub) now) as (E1 & E2 & _ & E4). unfold subStartsAt, subExpiresAt, subDeleted, UserSubscription.notDeleted.
  cbn. by rewrite E1, E2, E4.
Qed.

Lemma liveRow_maintained T d sub now :
  windows T d → sub ∈ subs d → subDeleted sub = false → liveRow (subID sub) (maintainedTable sub now d) = Some (maintained sub now).
Proof.
  intros HW Hin Hl. pose proof (windows_maintained T d sub now HW) as HW'. unfold liveRow.
  change (anyRow (subID sub)) with (anyRow (subID (maintained sub now))).
  rewrite (anyRow_unique _ (maintained sub now) (win_ids _ _ HW')).
  - unfold maintained, subDeleted, UserSubscription.notDeleted in *. cbn.
    destruct (maintenance_terms (subBody sub) (subBody sub) now) as (_ & _ & _ & ->). by rewrite Hl.
  - apply list_elem_of_fmap. exists sub. by rewrite Z.eqb_refl.
Qed.

(** What the self-service revocation does, in one line per outcome. *)
Lemma revokeOwn_cases T userID id now d :
  windows T d →
  let '(r, d') := revokeOwnExhaustedSubscriptionInTx userID id now d in
  match r with
  | Err _ => True
  | Ok res => ∃ sub, anyRow id d = Some sub ∧ subUserID sub = userID ∧ subDeleted sub = false ∧
      effectiveStatus sub now = SubscriptionStatusActive ∧
      UserSubscription.HighestQuotaExhausted (Some (subBody (maintained sub now))) = true ∧
      let d1 := maintainedTable sub now d in
      let replacement := replacementOf (ListByUserIDAndPlanID (subUserID sub) (subPlanID sub) d1) (maintained sub now) now in
      RevokedSubscriptionID res = id ∧ ReplacementSubscriptionID res = subID <$> replacement ∧
      subs d' = map (revokedRow (maintained sub now) now) (subs d1) ∧
      apiKeys d' = match replacement with
                   | Some r => (rebindSubscriptionAPIKeys id (subID r) d).2.(apiKeys)
                   | None => apiKeys d
                   end
  end.
Proof.
  intros HW. unfold revokeOwnExhaustedSubscriptionInTx. destruct (anyRow id d) as [sub|] eqn:Ea; [|done].
  destruct (anyRow_Some d id sub Ea) as [Hin Hid].
  destruct (subUserID sub =? userID) eqn:Eu; [zbool|done]. cbn [negb]. destruct (subDeleted sub) eqn:Ed; [done|].
  destruct (bool_decide _); [|done]. destruct (eqs (effectiveStatus sub now) _) eqn:Es; [|done]. cbn [negb].
  rewrite (updateRow_map id _ d sub Ea). subst id. fold (maintainedTable sub now d).
  rewrite (liveRow_maintained T d sub now HW Hin Ed). change (subUserID (maintained sub now)) with (subUserID sub).
  rewrite (proj2 (Z.eqb_eq _ _) Eu). cbn [negb].
  destruct (eqs (effectiveStatus (maintained sub now) now) _); [|done]. cbn [negb].
  destruct (UserSubscription.HighestQuotaExhausted _) eqn:Eq; [|done]. cbn [negb].
  pose proof (windows_maintained T d sub now HW) as HW'. set (d1 := maintainedTable sub now d) in *.
  change (subPlanID (maintained sub now)) with (subPlanID sub).
  pose proof (revokeTx_map d1 (maintained sub now) now (win_ids _ _ HW')) as Hr.
  change (subUserID (maintained sub now)) with (subUserID sub) in Hr. change (subPlanID (maintained sub now)) with (subPlanID sub) in Hr.
  destruct (liveRow_Some _ _ _ (liveRow_maintained T d sub now HW Hin Ed)) as (Hm1 & _ & Hm2). rewrite (Hr Hm1 Hm2). clear Hr.
  change (subID (maintained sub now)) with (subID sub).
  destruct (replacementOf _ _ now) as [rep|] eqn:Erep.
  - destruct (rebindSubscriptionAPIKeys (subID sub) (subID rep) _) as [count d3] eqn:Erb. exists sub.
    split; [done|]. split; [done|]. split; [done|]. split; [by apply eqs_true|]. split; [done|]. cbv zeta. fold d1. rewrite Erep.
    unfold rebindSubscriptionAPIKeys in *. destruct (_ || _); injection Erb as <- <-; by repeat split.
  - exists sub. split; [done|]. split; [done|]. split; [done|]. split; [by apply eqs_true|]. split; [done|]. cbv zeta. fold d1. by rewrite Erep.
Qed.
End calls.
