(* ===== verification/PaymentFulfillment.v ===== *)
(** * Payment notifications and fulfilment

    [service/payment_fulfillment.go]: a notification of a provider confirms an
    order and fulfils it; retries and reconciliation fulfil it again.  The
    holder of the [RECHARGING] lease, identified by [updated_at], completes the
    order or records the failure.  Every function is a program over the tables
    of [PaymentDB].  Errors keep the constant part of their text. *)

From S2P Require Import Prelude GoRuntime Domain AppErrors Transactions PaymentOrder PaymentDB PaymentGrants.
From S2P Require RedeemCode.
#[local] Open Scope Z_scope.

Definition ErrOrderNotFound : goError := OtherErr "payment order not found" [].
Definition paymentFulfillmentLeaseDuration : Duration := 5 * Minute.

Record paymentFulfillmentLease := mkLease { version : Time }.

Record PaymentNotification := mkNotification {
  TradeNo : string;
  OrderID : string;
  NotifiedAmount : float64;
  NotifiedStatus : string;
  Metadata : gmap string string;
}.

Section fulfillment.
Context (s : paymentService) `{UnicodeCase} `{UnicodeFold}.
(** The caches that the redemption of this fulfilment consults. *)
Context (env : redeemEnv).

(** ** Leases *)

Definition acquirePaymentFulfillmentLease (o : PaymentOrder) : M (option paymentFulfillmentLease) :=
  Clock (λ t,
    let now := t - t mod Microsecond in
    let staleBefore := Add now (- paymentFulfillmentLeaseDuration) in
    let* updated := query "acquire fulfillment lease" (orderUpdate (ID o)
        (λ row, statusIn [OrderStatusPaid; OrderStatusFailed] row
                || statusEQ OrderStatusRecharging row && negb (After (UpdatedAt row) staleBefore))
        (λ row, SetStatus OrderStatusRecharging (SetUpdatedAt now (SetFailedAt None (SetFailedReason None row))))) in
    if updated =? 0 then
      let* current := query "reload fulfillment lease" (orderGet (ID o)) in
      if eqs (Status current) OrderStatusCompleted then ok None
      else if eqs (Status current) OrderStatusRecharging then failsApp (Conflict "CONFLICT" "order is being processed")
      else failsApp (Conflict "CONFLICT" "order status changed while acquiring fulfillment lease")
    else
      let* claimed := query "reload acquired fulfillment lease" (orderGet (ID o)) in
      if negb (eqs (Status claimed) OrderStatusRecharging) then failsApp (Conflict "CONFLICT" "fulfillment lease was lost")
      else ok (Some (mkLease (UpdatedAt claimed)))).

Definition holdsLease (lease : paymentFulfillmentLease) (row : PaymentOrder) : bool :=
  statusEQ OrderStatusRecharging row && (UpdatedAt row =? version lease).

Definition markCompleted (o : PaymentOrder) (lease : paymentFulfillmentLease) (auditAction : string) : M unit :=
  Clock (λ now,
    let* updated := query "mark completed" (orderUpdate (ID o) (holdsLease lease)
        (λ row, SetStatus OrderStatusCompleted (SetCompletedAt (Some now) row))) in
    if updated =? 0 then
      Query (orderGet (ID o)) (λ r,
        let lost := failsApp (Conflict "CONFLICT" "fulfillment lease was lost before completion") in
        match r with
        | Ok current => if eqs (Status current) OrderStatusCompleted then ok tt else lost
        | Err _ => lost
        end)
    else
      bindProg (λ logged : bool, if logged then ok tt else run writeAuditLog (ID o) auditAction in ok tt)
        (hasAuditLog (ID o) auditAction)).

Definition psErrMsg (e : goError) : string := errorText s e.

Definition markFailed (oid : Z) (lease : paymentFulfillmentLease) (cause : goError) : P unit :=
  Clock (λ now,
    Query (orderUpdate oid (holdsLease lease)
        (λ row, SetStatus OrderStatusFailed (SetFailedAt (Some now) (SetFailedReason (Some (psErrMsg cause)) row)))) (λ r,
      match r with
      | Ok c => if 0 <? c then writeAuditLog oid "FULFILLMENT_FAILED" else Ret tt
      | Err _ => Ret tt
      end)).

(** ** Balance orders *)

Inductive redeemAction := redeemActionCreate | redeemActionRedeem | redeemActionSkipCompleted.

Definition resolveRedeemAction (existing : result dbError RedeemCode) (now : Time) : redeemAction :=
  match existing with
  | Err _ => redeemActionCreate
  | Ok code => if RedeemCode.IsUsed code now then redeemActionSkipCompleted else redeemActionRedeem
  end.

Definition fulfillmentEnv : redeemEnv := mkRedeemEnv (rateLimited env) (lockAcquired env) true.

Definition doBalance (o : PaymentOrder) (lease : paymentFulfillmentLease) : M unit :=
  Query (GetByCode (RechargeCode o)) (λ existing, Clock (λ now,
    let finish :=
      do* applyAffiliateRebateForOrder s o in
      markCompleted o lease "RECHARGE_SUCCESS" in
    let redeem :=
      do* wrapError "redeem balance" (Redeem s fulfillmentEnv (UserID o) (RechargeCode o)) in
      finish in
    match resolveRedeemAction existing now with
    | redeemActionSkipCompleted => finish
    | redeemActionCreate =>
        do* wrapError "create redeem code" (CreateCode (newBalanceCode (RechargeCode o) (Amount o))) in
        redeem
    | redeemActionRedeem => redeem
    end)).

(** ** Subscription orders *)

Definition assignInput (o : PaymentOrder) (planID : Z) : AssignSubscriptionInput :=
  let snapshot := PlanSnapshot o in
  if (0 <? ValidityDays snapshot) || bool_decide (is_Some (DailyLimitUSD snapshot))
     || bool_decide (is_Some (WeeklyLimitUSD snapshot)) || bool_decide (is_Some (MonthlyLimitUSD snapshot))
  then mkAssignInput (UserID o) planID (ValidityDays snapshot) (DailyLimitUSD snapshot) (WeeklyLimitUSD snapshot)
         (MonthlyLimitUSD snapshot) true (Some (ID o))
  else mkAssignInput (UserID o) planID 0 None None None false (Some (ID o)).

Definition validPlan (o : PaymentOrder) : option Z :=
  match PlanID o with Some p => if p <=? 0 then None else Some p | None => None end.

Definition doSub (o : PaymentOrder) (lease : paymentFulfillmentLease) : M unit :=
  match validPlan o with
  | None => fails (OtherErr "order missing plan id" [])
  | Some planID =>
      bindProg (λ first : bool,
        bindProg (λ assigned : bool,
          do* (if assigned then ok tt else
                 do* wrapError "assign subscription" (AssignOrExtendSubscription s (assignInput o planID)) in
                 run writeAuditLog (ID o) "SUBSCRIPTION_ASSIGNED" in ok tt) in
          do* applyAffiliateRebateForOrder s o in
          markCompleted o lease "SUBSCRIPTION_SUCCESS")
        (if first then Ret true else hasAuditLog (ID o) "SUBSCRIPTION_SUCCESS"))
      (hasAuditLog (ID o) "SUBSCRIPTION_ASSIGNED")
  end.

(** ** Fulfilment *)

(** The checks of an order before its lease is acquired. *)
Definition fulfillable (o : PaymentOrder) : result ApplicationError unit :=
  if psIsRefundStatus (Status o) then Err (BadRequest "INVALID_STATUS" "refund-related order cannot fulfill")
  else if negb (eqs (Status o) OrderStatusPaid) && negb (eqs (Status o) OrderStatusFailed)
          && negb (eqs (Status o) OrderStatusRecharging)
  then Err (BadRequest "INVALID_STATUS" "order cannot fulfill in status")
  else Ok tt.

Definition underLease (o : PaymentOrder) (work : PaymentOrder → paymentFulfillmentLease → M unit) : M unit :=
  let* lease := acquirePaymentFulfillmentLease o in
  match lease with
  | None => ok tt
  | Some lease =>
      bindProg (λ r, match r with
                     | Ok _ => ok tt
                     | Err e => run markFailed (ID o) lease e in fails e
                     end) (work o lease)
  end.

Definition orderNotFound : ApplicationError := AppErrors.NotFound "NOT_FOUND" "order not found".

Definition ExecuteBalanceFulfillment (oid : Z) : M unit :=
  let* o := queryOr orderNotFound (orderGet oid) in
  if eqs (Status o) OrderStatusCompleted then ok tt
  else match fulfillable o with
       | Err e => failsApp e
       | Ok _ => underLease o doBalance
       end.

Definition ExecuteSubscriptionFulfillment (oid : Z) : M unit :=
  let* o := queryOr orderNotFound (orderGet oid) in
  if eqs (Status o) OrderStatusCompleted then ok tt
  else match fulfillable o with
       | Err e => failsApp e
       | Ok _ => match validPlan o with
                 | None => failsApp (BadRequest "INVALID_STATUS" "missing subscription info")
                 | Some _ => underLease o doSub
                 end
       end.

Definition executeFulfillment (oid : Z) : M unit :=
  let* o := query "get order" (orderGet oid) in
  if eqs (OrderType o) OrderTypeSubscription then ExecuteSubscriptionFulfillment oid else ExecuteBalanceFulfillment oid.

Definition RetryFulfillment (oid : Z) : M unit :=
  let* o := queryOr orderNotFound (orderGet oid) in
  if bool_decide (PaidAt o = None) then failsApp (BadRequest "INVALID_STATUS" "order is not paid")
  else if psIsRefundStatus (Status o) then failsApp (BadRequest "INVALID_STATUS" "refund-related order cannot retry")
  else if eqs (Status o) OrderStatusCompleted then failsApp (BadRequest "INVALID_STATUS" "order already completed")
  else if negb (eqs (Status o) OrderStatusFailed) && negb (eqs (Status o) OrderStatusPaid)
          && negb (eqs (Status o) OrderStatusRecharging)
  then failsApp (BadRequest "INVALID_STATUS" "only paid, failed, and recoverable recharging orders can retry")
  else run writeAuditLog oid "RECHARGE_RETRY" in executeFulfillment oid.

(** ** Notifications *)

Definition f64_abs : float64 → float64 := SFabs.

(** The invoice columns that a notification fills in. *)
Definition setInvoice (metadata : gmap string string) (row : PaymentOrder) : PaymentOrder :=
  let value name := TrimSpace (default ""%string (metadata !! name)) in
  let set name (f : option string → PaymentOrder → PaymentOrder) row :=
    if eqs (value name) "" then row else f (Some (value name)) row in
  set "invoice_status"%string SetPaymentInvoiceStatus
    (set "invoice_pdf"%string SetPaymentInvoicePdfURL
       (set "invoice_url"%string SetPaymentInvoiceURL (set "invoice_id"%string SetPaymentInvoiceID row))).

Definition setTradeNo (tradeNo : string) (row : PaymentOrder) : PaymentOrder :=
  if eqs tradeNo "" then row else SetPaymentTradeNo tradeNo row.

(** The order of an external number, or of a legacy [sub2_N] number. *)
Definition orderByOutTradeNo (outTradeNo : string) : txn PaymentOrder := reading (λ _ d,
  found (snd <$> head (filter (λ kv, OutTradeNo (snd kv) = outTradeNo) (map_to_list (orders d))))).

(** [strconv.ParseInt(s, 10, 64)] with a positive result. *)
Definition parseLegacyPaymentOrderID (orderID : string) (lookupErr : dbError) : option Z :=
  match lookupErr with
  | DBError _ => None
  | RowNotFound =>
      let orderID := TrimSpace orderID in
      if negb (HasPrefix orderID orderIDPrefix) then None else
      let trimmed := TrimPrefix orderID orderIDPrefix in
      if eqs trimmed "" || eqs trimmed orderID then None else
      match Atoi trimmed with
      | Some oid => if oid <=? 0 then None else Some oid
      | None => None
      end
  end.

Definition findPaymentNotificationOrder (orderID : string) : M PaymentOrder :=
  Query (orderByOutTradeNo orderID) (λ r,
    match r with
    | Ok order => ok order
    | Err (DBError text) => fails (OtherErr "lookup order failed for out_trade_no" [OtherErr text []])
    | Err RowNotFound =>
        match parseLegacyPaymentOrderID orderID RowNotFound with
        | None => fails (OtherErr "out_trade_no" [ErrOrderNotFound])
        | Some oid =>
            Query (orderGet oid) (λ r,
              match r with
              | Ok order => ok order
              | Err RowNotFound => fails (OtherErr "out_trade_no" [ErrOrderNotFound])
              | Err (DBError text) => fails (OtherErr "lookup legacy payment order" [OtherErr text []])
              end)
        end
    end).

Definition validatePaymentNotificationOrder (o : PaymentOrder) (pk : string) (metadata : gmap string string) : M unit :=
  let expected := expectedNotificationProviderKeyForOrder (registryProviderKey s) o (instanceProviderKey s o) in
  if negb (eqs expected "") && negb (eqs (TrimSpace pk) "") && negb (FoldEqual expected (TrimSpace pk)) then
    run writeAuditLog (ID o) "PAYMENT_PROVIDER_MISMATCH" in fails (OtherErr "provider mismatch" [])
  else match validateProviderSnapshotMetadata o pk metadata with
       | Err text => run writeAuditLog (ID o) "PAYMENT_PROVIDER_METADATA_MISMATCH" in fails (OtherErr text [])
       | Ok _ => ok tt
       end.

(** The loop of [toPaid]; [previous] is the order as it was last read. *)
Fixpoint toPaidLoop (attempts : nat) (previous : PaymentOrder) (tradeNo : string) (paid : float64)
    (metadata : gmap string string) : M unit :=
  match attempts with
  | O => fails (OtherErr "payment order status kept changing while recording success" [])
  | S attempts =>
      let status := Status previous in
      if statusIn [OrderStatusPending; OrderStatusProcessing; OrderStatusExpired; OrderStatusCancelled] previous then
        Clock (λ now,
          let* updated := query "update to PAID" (orderUpdate (ID previous) (statusEQ status) (λ row,
              setInvoice metadata (setTradeNo (TrimSpace tradeNo)
                (SetStatus OrderStatusPaid (SetPayAmount paid (SetPaidAt (Some now)
                  (SetFailedAt None (SetFailedReason None row)))))))) in
          if updated =? 0 then
            let* o := query "reload payment order after success race" (orderGet (ID previous)) in
            toPaidLoop attempts o tradeNo paid metadata
          else
            run (if eqs status OrderStatusPending then Ret tt else writeAuditLog (ID previous) "ORDER_RECOVERED") in
            run writeAuditLog (ID previous) "ORDER_PAID" in
            executeFulfillment (ID previous))
      else if statusIn [OrderStatusFailed; OrderStatusPaid; OrderStatusRecharging] previous then
        executeFulfillment (ID previous)
      else ok tt
  end.

Definition toPaid (o : PaymentOrder) (tradeNo : string) (paid : float64) (pk : string) (metadata : gmap string string)
    : M unit :=
  let tradeNo := if eqs (GetBasePaymentType pk) TypeStripe && HasPrefix (TrimSpace tradeNo) "in_"
                    && HasPrefix (TrimSpace (PaymentTradeNo o)) "pi_"
                 then PaymentTradeNo o else tradeNo in
  toPaidLoop 5 o tradeNo paid metadata.

Definition confirmPayment (o : PaymentOrder) (tradeNo : string) (paid : float64) (pk : string)
    (metadata : gmap string string) : M unit :=
  if negb (isValidProviderAmount paid) then
    run writeAuditLog (ID o) "PAYMENT_INVALID_AMOUNT" in fails (OtherErr "invalid paid amount from provider" [])
  else if f64_gt (f64_abs (f64_sub paid (PayAmount o))) (paymentAmountToleranceForCurrency (PaymentOrderCurrency o)) then
    run writeAuditLog (ID o) "PAYMENT_AMOUNT_MISMATCH" in fails (OtherErr "amount mismatch" [])
  else toPaid o tradeNo paid pk metadata.

Definition markPaymentProcessing (o : PaymentOrder) (tradeNo pk : string) (metadata : gmap string string) : M unit :=
  if negb (eqs (Status o) OrderStatusPending) then ok tt else
  let sessionID := TrimSpace (default ""%string (metadata !! "checkout_session_id"%string)) in
  let processingTradeNo := if eqs (GetBasePaymentType pk) TypeStripe && HasPrefix sessionID "cs_"
                           then sessionID else TrimSpace tradeNo in
  let* updated := query "update to PROCESSING" (orderUpdate (ID o) (statusEQ OrderStatusPending) (λ row,
      setInvoice metadata (setTradeNo processingTradeNo
        (SetStatus OrderStatusProcessing (SetFailedAt None (SetFailedReason None row)))))) in
  if 0 <? updated then run writeAuditLog (ID o) "PAYMENT_PROCESSING" in ok tt else ok tt.

Fixpoint markFailedLoop (attempts : nat) (o : PaymentOrder) (tradeNo : string) : M unit :=
  match attempts with
  | O => fails (OtherErr "payment order status kept changing while recording failure" [])
  | S attempts =>
      if negb (statusIn [OrderStatusPending; OrderStatusProcessing] o) then ok tt else
      Clock (λ now,
        let* updated := query "update payment failure" (orderUpdate (ID o) (statusEQ (Status o)) (λ row,
            setTradeNo (TrimSpace tradeNo)
              (SetStatus OrderStatusExpired (SetFailedAt (Some now)
                (SetFailedReason (Some "payment provider reported failure"%string) row))))) in
        if 0 <? updated then run writeAuditLog (ID o) "PAYMENT_FAILED" in ok tt
        else
          let* o := query "reload payment order after failure race" (orderGet (ID o)) in
          markFailedLoop attempts o tradeNo)
  end.

Definition markPaymentFailed (o : PaymentOrder) (tradeNo : string) : M unit := markFailedLoop 3 o tradeNo.

Definition isSuccess (status : string) : bool := eqs status NotificationStatusSuccess || eqs status NotificationStatusPaid.

Definition HandlePaymentNotification (n : option PaymentNotification) (pk : string) : M unit :=
  match n with
  | None => ok tt
  | Some n =>
      let status := NotifiedStatus n in
      if eqs status ProviderStatusFailed && negb (eqs (GetBasePaymentType pk) TypeStripe) then ok tt
      else if negb (isSuccess status || eqs status ProviderStatusProcessing || eqs status ProviderStatusFailed) then ok tt
      else
        let* order := findPaymentNotificationOrder (OrderID n) in
        do* validatePaymentNotificationOrder order pk (Metadata n) in
        if isSuccess status then confirmPayment order (TradeNo n) (NotifiedAmount n) pk (Metadata n)
        else if eqs status ProviderStatusProcessing then markPaymentProcessing order (TradeNo n) pk (Metadata n)
        else markPaymentFailed order (TradeNo n)
  end.
End fulfillment.
