(* ===== verification/PaymentRefund.v ===== *)
(** * Refunds

    [service/payment_refund.go]: the request of a user, the preparation and the
    execution by an administrator, the query of a pending refund, and the
    rollback of what a refund took back.  The gateway, the instances of payment
    providers and their SDKs are arguments, as is the decimal arithmetic of the
    amount sent to the gateway.  [finalizePendingRefundSuccess] is one
    transaction: the programs it calls run inside of it with [exec], at one
    clock reading and without programs in between. *)

From S2P Require Import Prelude GoRuntime Domain AppErrors Transactions PaymentOrder PaymentDB PaymentGrants SubscriptionChain PaymentFulfillment.
From S2P Require UserSubscription BillingDB.
#[local] Open Scope Z_scope.

Definition DeductionTypeBalance : string := "balance".
Definition DeductionTypeSubscription : string := "subscription".
Definition DeductionTypeNone : string := "none".

(** ** Requests and answers of a gateway *)

Record RefundRequest := mkRefundRequest { reqTradeNo : string; reqOrderID : string; reqAmount : string; reqReason : string }.

Record RefundQueryRequest := mkRefundQuery { qTradeNo : string; qOrderID : string; qRefundID : string; qAmount : string }.

Record RefundResponse := mkRefundResponse { respRefundID : string; respStatus : string }.

(** A provider: [Refund] may answer with a response and an error; not every
    provider reports its merchant or answers queries. *)
Record RefundProvider := mkRefundProvider {
  refundProviderKey : string;
  MerchantIdentityMetadata : option (gmap string string);
  Refund : RefundRequest → option RefundResponse * option goError;
  QueryRefund : option (RefundQueryRequest → result goError (option RefundResponse));
}.

(** The columns of [payment_provider_instances] that refunds read. *)
Record PaymentProviderInstance := mkProviderInstance {
  instanceKey : string;
  RefundEnabled : bool;
  AllowUserRefund : bool;
}.

(** The instances, and [createProviderFromInstance]. *)
Record refundGateway := mkRefundGateway {
  instanceGet : Z → result dbError PaymentProviderInstance;
  createProviderFromInstance : PaymentProviderInstance → result goError RefundProvider;
}.

(** The decimals of the amount that is sent to the gateway. *)
Class DecimalLib := {
  Decimal : Type;
  NewFromFloat : float64 → Decimal;
  DecimalMul : Decimal → Decimal → Decimal;
  DecimalDiv : Decimal → Decimal → Decimal;
  DecimalRound : Decimal → Z → Decimal;
  InexactFloat64 : Decimal → float64;
  StringFixed : Decimal → Z → string;
}.

Record RefundPlan := mkRefundPlan {
  planOrderID : Z;
  planOrder : PaymentOrder;
  planRefundAmount : float64;
  GatewayAmount : float64;
  planReason : string;
  planForce : bool;
  DeductBalanceFlag : bool;
  DeductionType : string;
  BalanceToDeduct : float64;
  SubDaysToDeduct : Z;
  SubscriptionID : Z;
}.

Definition etaPlan (p : RefundPlan) : RefundPlan :=
  mkRefundPlan (planOrderID p) (planOrder p) (planRefundAmount p) (GatewayAmount p) (planReason p) (planForce p) (DeductBalanceFlag p)
    (DeductionType p) (BalanceToDeduct p) (SubDaysToDeduct p) (SubscriptionID p).
Definition setDeductionType (v : string) (p : RefundPlan) : RefundPlan := ltac:(set_field etaPlan p DeductionType v).
Definition setBalanceToDeduct (v : float64) (p : RefundPlan) : RefundPlan := ltac:(set_field etaPlan p BalanceToDeduct v).
Definition setSubDaysToDeduct (v : Z) (p : RefundPlan) : RefundPlan := ltac:(set_field etaPlan p SubDaysToDeduct v).
Definition setSubscriptionID (v : Z) (p : RefundPlan) : RefundPlan := ltac:(set_field etaPlan p SubscriptionID v).

Record RefundResult := mkRefundResult {
  Success : bool;
  Warning : string;
  RequireForce : bool;
  resBalanceDeducted : float64;
  resSubDaysDeducted : Z;
}.

(** A result that is not a success. *)
Definition warns (warning : string) : RefundResult := mkRefundResult false warning false f64_zero 0.
Definition requiresForce (warning : string) : RefundResult := mkRefundResult false warning true f64_zero 0.

(** The parts of a plan that say what it takes back. *)
Definition takesBalance (p : RefundPlan) : bool := eqs (DeductionType p) DeductionTypeBalance && f64_gt (BalanceToDeduct p) f64_zero.
Definition takesDays (p : RefundPlan) : bool :=
  eqs (DeductionType p) DeductionTypeSubscription && (0 <? SubDaysToDeduct p) && (0 <? SubscriptionID p).

Section refunds.
Context (s : paymentService) `{UnicodeCase} `{UnicodeFold} `{DecimalLib}.
#[local] Instance refundNumeric : BillingDB.SQLNumeric := payNumeric s.

(** ** Amounts *)

Definition calculateGatewayRefundAmount (orderAmount payAmount refundAmount : float64) (currency : string) : float64 :=
  if f64_le orderAmount f64_zero || f64_le payAmount f64_zero || f64_le refundAmount f64_zero then f64_zero else
  let fractionDigits := CurrencyMaxFractionDigits currency in
  if f64_le (f64_abs (f64_sub refundAmount orderAmount)) (paymentAmountToleranceForCurrency currency)
  then InexactFloat64 (DecimalRound (NewFromFloat payAmount) fractionDigits)
  else InexactFloat64 (DecimalRound (DecimalDiv (DecimalMul (NewFromFloat payAmount) (NewFromFloat refundAmount))
                                       (NewFromFloat orderAmount)) fractionDigits).

Definition FormatAmountForCurrency (amount : float64) (currency : string) : string :=
  StringFixed (NewFromFloat amount) (CurrencyMaxFractionDigits currency).

Definition formatGatewayRefundAmount (amount : float64) (order : PaymentOrder) : string :=
  FormatAmountForCurrency amount (PaymentOrderCurrency order).

(** ** The provider instance of an order *)

Context (gw : refundGateway).

Definition resolveSnapshotOrderProviderInstance (order : PaymentOrder) (snapshot : paymentOrderProviderSnapshot)
    : result goError (option PaymentProviderInstance) :=
  let column := TrimSpace (psStringValue (ProviderInstanceID order)) in
  let snapshotID := TrimSpace (SnapInstanceID snapshot) in
  let snapshotID := if eqs snapshotID "" then column else snapshotID in
  if eqs snapshotID "" then Err (OtherErr "provider snapshot is missing provider_instance_id" [])
  else if negb (eqs column "") && negb (eqs (SnapInstanceID snapshot) "") && negb (FoldEqual column (SnapInstanceID snapshot))
  then Err (OtherErr "provider snapshot instance mismatch" [])
  else match Atoi snapshotID with
       | None => Err (OtherErr "provider snapshot instance id is invalid" [])
       | Some id =>
           match instanceGet gw id with
           | Err RowNotFound => Err (OtherErr "provider snapshot instance is missing" [])
           | Err e => Err (dbGoError e)
           | Ok inst =>
               if negb (eqs (SnapProviderKey snapshot) "") && negb (FoldEqual (TrimSpace (instanceKey inst)) (SnapProviderKey snapshot))
               then Err (OtherErr "provider snapshot key mismatch" []) else Ok (Some inst)
           end
       end.

Definition getRefundOrderProviderInstance (o : PaymentOrder) : result goError (option PaymentProviderInstance) :=
  match psOrderProviderSnapshot o with
  | Some snapshot => resolveSnapshotOrderProviderInstance o snapshot
  | None =>
      let instIDStr := TrimSpace (psStringValue (ProviderInstanceID o)) in
      if eqs instIDStr "" then Ok None else
      match Atoi instIDStr with
      | None => Err (OtherErr "refund provider instance id is invalid" [])
      | Some id =>
          match instanceGet gw id with
          | Err RowNotFound => Err (OtherErr "refund provider instance is missing" [])
          | Err e => Err (dbGoError e)
          | Ok inst => Ok (Some inst)
          end
      end
  end.

Definition getRefundProvider (o : PaymentOrder) : result goError RefundProvider :=
  match getRefundOrderProviderInstance o with
  | Err e => Err e
  | Ok None => Err (OtherErr "refund provider instance is unavailable" [])
  | Ok (Some inst) => createProviderFromInstance gw inst
  end.

(** ** The request of a user *)

(** [userRepo.GetByID]: the balance of the user. *)
Definition balanceOf (uid : Z) : txn float64 :=
  reading (λ _ d, found ((λ u, BillingDB.sqlScan (BillingDB.col8 (balance u))) <$> liveUser uid d)).

Definition validateRefundRequest (oid uid : Z) : M PaymentOrder :=
  let* o := queryOr (NotFound "NOT_FOUND" "order not found") (orderGet oid) in
  if negb (UserID o =? uid) then failsApp (Forbidden "FORBIDDEN" "no permission")
  else if negb (eqs (OrderType o) OrderTypeBalance) then failsApp (BadRequest "INVALID_ORDER_TYPE" "only balance orders can request refund")
  else if negb (eqs (Status o) OrderStatusCompleted) then failsApp (BadRequest "INVALID_STATUS" "only completed orders can request refund")
  else match getRefundOrderProviderInstance o with
       | Err _ | Ok None => failsApp (Forbidden "USER_REFUND_DISABLED" "refund is not available for this order")
       | Ok (Some inst) =>
           if AllowUserRefund inst then ok o
           else failsApp (Forbidden "USER_REFUND_DISABLED" "user refund is not enabled for this provider")
       end.

Definition RequestRefund (oid uid : Z) (reason : string) : M unit :=
  let* o := validateRefundRequest oid uid in
  let* held := query "get user" (balanceOf (UserID o)) in
  if f64_lt held (Amount o) then failsApp (BadRequest "BALANCE_NOT_ENOUGH" "refund amount exceeds balance") else
  Clock (λ now,
    let* c := query "update" (orderUpdate oid
      (λ row, (UserID row =? uid) && statusEQ OrderStatusCompleted row && eqs (OrderType row) OrderTypeBalance)
      (λ row, SetStatus OrderStatusRefundRequested (SetRefundRequestedAt (Some now)
                (SetRefundRequestReason (Some (TrimSpace reason)) (SetRefundRequestedBy (Some (Itoa uid)) (SetRefundAmount (Amount o) row)))))) in
    if c =? 0 then failsApp (Conflict "CONFLICT" "order status changed") else
    run writeAuditLog oid "REFUND_REQUESTED" in ok tt).

(** ** The plan of an administrator *)

Definition refundable : list string :=
  [OrderStatusCompleted; OrderStatusRefundRequested; OrderStatusRefundPending; OrderStatusRefundFailed].

Definition paymentOrderSubscriptionValidityDays (order : PaymentOrder) : Z :=
  if 0 <? ValidityDays (PlanSnapshot order) then ValidityDays (PlanSnapshot order) else 0.

(** [ListSubscriptionsBySourceOrderID], whose statuses are the effective ones. *)
Definition ListBySourceOrderID (source : Z) (d : payDB) : list SubscriptionRow := foldr insertByStart [] (sourceRows source d).

Definition deductible (now : Time) (r : SubscriptionRow) : bool :=
  eqs (effectiveStatus r now) SubscriptionStatusActive || eqs (effectiveStatus r now) SubscriptionStatusPending.

(** [inl] is the refusal, [inr] the completed plan. *)
Definition prepDeduct (o : PaymentOrder) (p : RefundPlan) (force : bool) : P (RefundResult + RefundPlan) :=
  if eqs (OrderType o) OrderTypeSubscription then
    let p := setSubDaysToDeduct (paymentOrderSubscriptionValidityDays o) (setDeductionType DeductionTypeSubscription p) in
    Query (reading (λ _ d, Ok (ListBySourceOrderID (ID o) d))) (λ r, Clock (λ now,
      let p :=
        match r with
        | Ok rows => match List.find (deductible now) rows with Some sub => setSubscriptionID (subID sub) p | None => p end
        | Err _ => p
        end in
      if (SubscriptionID p =? 0) && negb force
      then Ret (inl (requiresForce "cannot find active subscription for deduction, use force")) else Ret (inr p)))
  else
    Query (balanceOf (UserID o)) (λ r,
      match r with
      | Err _ => if force then Ret (inr p) else Ret (inl (requiresForce "cannot fetch user balance, use force"))
      | Ok held =>
          if f64_lt held (planRefundAmount p) && negb force
          then Ret (inl (requiresForce "user balance is insufficient for deduction, use force"))
          else Ret (inr (setBalanceToDeduct (f64_max f64_zero (f64_min (planRefundAmount p) held))
                           (setDeductionType DeductionTypeBalance p)))
      end).

Definition refundReason (given : string) (requested : option string) (oid : Z) : string :=
  let rr := TrimSpace given in
  let rr := if eqs rr "" then psStringValue requested else rr in
  if eqs rr "" then "refund order:" +:+ Itoa oid else rr.

Definition PrepareRefund (oid : Z) (amt : float64) (reason : string) (force deduct : bool) : M (RefundResult + RefundPlan) :=
  let* o := queryOr (NotFound "NOT_FOUND" "order not found") (orderGet oid) in
  if negb (statusIn refundable o) then failsApp (BadRequest "INVALID_STATUS" "order status does not allow refund") else
  match getRefundOrderProviderInstance o with
  | Err _ => failsApp (InternalServer "PROVIDER_LOOKUP_FAILED" "failed to look up payment provider for this order")
  | Ok None => failsApp (Forbidden "REFUND_DISABLED" "refund is not available for this order")
  | Ok (Some inst) =>
      if negb (RefundEnabled inst) then failsApp (Forbidden "REFUND_DISABLED" "refund is not enabled for this provider")
      else if f64_isNaN amt || f64_isInf amt then failsApp (BadRequest "INVALID_AMOUNT" "invalid refund amount")
      else
        let amt := if f64_le amt f64_zero then Amount o else amt in
        let orderCurrency := PaymentOrderCurrency o in
        if f64_gt (f64_sub amt (Amount o)) (paymentAmountToleranceForCurrency orderCurrency)
        then failsApp (BadRequest "REFUND_AMOUNT_EXCEEDED" "refund amount exceeds recharge")
        else
          let p := mkRefundPlan oid o amt (calculateGatewayRefundAmount (Amount o) (PayAmount o) amt orderCurrency)
                     (refundReason reason (RefundRequestReason o) (ID o)) force deduct DeductionTypeNone f64_zero 0 0 in
          if deduct then bindProg ok (prepDeduct o p force) else ok (inr p)
  end.

(** ** Execution *)

Definition validateRefundProviderResponse (resp : option RefundResponse) : result goError unit :=
  match resp with
  | None => Err (OtherErr "payment refund response missing" [])
  | Some r =>
      let status := TrimSpace (respStatus r) in
      if eqs status ProviderStatusSuccess || eqs status ProviderStatusRefunded || eqs status ProviderStatusPending then Ok tt
      else if eqs status ProviderStatusFailed then Err (OtherErr "payment refund failed" [])
      else Err (OtherErr "payment refund returned unknown status" [])
  end.

Definition isRefunded (resp : option RefundResponse) : bool :=
  match resp with
  | Some r => eqs (TrimSpace (respStatus r)) ProviderStatusSuccess || eqs (TrimSpace (respStatus r)) ProviderStatusRefunded
  | None => false
  end.

Definition isRefundPending (resp : option RefundResponse) : bool :=
  match resp with Some r => eqs (TrimSpace (respStatus r)) ProviderStatusPending | None => false end.

(** [restoreStatus], [markRefundOk] and the failures update the order whatever
    its status is by then. *)
Definition restoreStatus (p : RefundPlan) : P unit :=
  ignore (query "restore" (orderUpdateOne (planOrderID p)
    (SetStatus (if statusEQ OrderStatusRefundRequested (planOrder p) then OrderStatusRefundRequested else OrderStatusCompleted)))).

Definition refundedStatus (p : RefundPlan) : string :=
  if f64_lt (planRefundAmount p) (Amount (planOrder p)) then OrderStatusPartiallyRefunded else OrderStatusRefunded.

Definition setRefunded (p : RefundPlan) (now : Time) (row : PaymentOrder) : PaymentOrder :=
  SetStatus (refundedStatus p) (SetRefundAmount (planRefundAmount p) (SetRefundReason (Some (planReason p))
    (SetRefundAt (Some now) (SetForceRefund (planForce p) row)))).

Definition refundSucceeded (p : RefundPlan) : RefundResult :=
  mkRefundResult true "" false (BalanceToDeduct p) (SubDaysToDeduct p).

Definition markRefundOk (p : RefundPlan) : M RefundResult :=
  Clock (λ now,
    do* query "mark refund" (orderUpdateOne (planOrderID p) (setRefunded p now)) in
    run writeAuditLog (planOrderID p) "REFUND_SUCCESS" in ok (refundSucceeded p)).

Definition setFailed (status : string) (now : Time) (text : string) (row : PaymentOrder) : PaymentOrder :=
  SetStatus status (SetFailedAt (Some now) (SetFailedReason (Some text) row)).

Definition REFUND_ROLLBACK_FAILED : string := "REFUND_ROLLBACK_FAILED".

(** [true] when everything was given back. *)
Definition RollbackRefund (p : RefundPlan) : P bool :=
  let days : P bool :=
    if takesDays p then
      bindProg (λ r, match r with Ok _ => Ret true | Err _ => run writeAuditLog (planOrderID p) REFUND_ROLLBACK_FAILED in Ret false end)
        (ExtendSubscription s (SubscriptionID p) (SubDaysToDeduct p))
    else Ret true in
  if takesBalance p then
    Query (UpdateBalance (UserID (planOrder p)) (BalanceToDeduct p)) (λ r,
      match r with
      | Ok _ => days
      | Err _ => run writeAuditLog (planOrderID p) REFUND_ROLLBACK_FAILED in Ret false
      end)
  else days.

Definition handleGwFail (p : RefundPlan) (gErr : goError) : M RefundResult :=
  bindProg (λ rolledBack : bool,
    if rolledBack then
      run restoreStatus p in
      run writeAuditLog (planOrderID p) "REFUND_GATEWAY_FAILED" in
      ok (warns ("gateway failed: " +:+ psErrMsg s gErr +:+ ", rolled back"))
    else Clock (λ now,
      run ignore (query "failed" (orderUpdateOne (planOrderID p) (setFailed OrderStatusRefundFailed now (psErrMsg s gErr)))) in
      run writeAuditLog (planOrderID p) "REFUND_FAILED" in
      failsApp (InternalServer "REFUND_FAILED" (psErrMsg s gErr)))) (RollbackRefund p).

Definition refundResponseID (resp : option RefundResponse) : string :=
  match resp with Some r => TrimSpace (respRefundID r) | None => "" end.

Definition setRefundPending (p : RefundPlan) (row : PaymentOrder) : PaymentOrder :=
  SetStatus OrderStatusRefundPending (SetRefundAmount (planRefundAmount p) (SetRefundReason (Some (planReason p))
    (SetRefundAt None (SetForceRefund (planForce p) (SetFailedAt None (SetFailedReason None row)))))).

Definition REFUND_PENDING : string := "REFUND_PENDING".

(** The detail has the amounts from before the rollback. *)
Definition pendingDetail (p : RefundPlan) (resp : option RefundResponse) (rollbackOK : bool) : refundPendingAuditDetail :=
  mkPendingDetail (refundResponseID resp) (DeductBalanceFlag p) (DeductionType p) (BalanceToDeduct p) (SubDaysToDeduct p)
    (SubscriptionID p) rollbackOK.

Definition markRefundPending (p : RefundPlan) (resp : option RefundResponse) : M RefundResult :=
  bindProg (λ rollbackOK : bool,
    do* query "mark refund pending" (orderUpdateOne (planOrderID p) (setRefundPending p)) in
    run writeAuditDetail (planOrderID p) REFUND_PENDING (Some (pendingDetail p resp rollbackOK)) in
    ok (warns ("gateway refund is pending confirmation" +:+ if rollbackOK then "" else "; refund deduction rollback failed")))
    (RollbackRefund p).

Definition finishRefund (p : RefundPlan) (resp : option RefundResponse) : M RefundResult :=
  match validateRefundProviderResponse resp with
  | Err e => handleGwFail p e
  | Ok _ =>
      if isRefunded resp then markRefundOk p
      else if isRefundPending resp then markRefundPending p resp
      else handleGwFail p (OtherErr "payment refund returned unknown status" [])
  end.

(** The request to the gateway; nothing was paid through it when the order has
    no number of a trade. *)
Definition gwRefund (p : RefundPlan) : M (option RefundResponse) :=
  let o := planOrder p in
  if eqs (PaymentTradeNo o) "" then
    run writeAuditLog (ID o) "REFUND_NO_TRADE_NO" in ok (Some (mkRefundResponse "" ProviderStatusSuccess))
  else
    match getRefundProvider o with
    | Err e => fails (OtherErr "get refund provider" [e])
    | Ok prov =>
        match validateProviderSnapshotMetadata o (refundProviderKey prov) (default ∅ (MerchantIdentityMetadata prov)) with
        | Err e => run writeAuditLog (ID o) "REFUND_PROVIDER_METADATA_MISMATCH" in fails (OtherErr e [])
        | Ok _ =>
            match Refund prov (mkRefundRequest (PaymentTradeNo o) (OutTradeNo o) (formatGatewayRefundAmount (GatewayAmount p) o) (planReason p)) with
            | (resp, Some e) => if isRefundPending resp then ok resp else fails e
            | (resp, None) => match validateRefundProviderResponse resp with Ok _ => ok resp | Err e => fails e end
            end
        end
    end.

(** Taking back what was granted; nothing more is taken when an earlier
    rollback failed.  The result is the plan with what was really taken. *)
Definition deductBalance (p : RefundPlan) : M RefundPlan :=
  if takesBalance p then
    bindProg (λ failed : bool,
      if failed then ok (setBalanceToDeduct f64_zero p)
      else Query (DeductBalance (UserID (planOrder p)) (BalanceToDeduct p)) (λ r,
        match r with
        | Ok deducted => ok (setBalanceToDeduct deducted p)
        | Err e => run restoreStatus p in fails (OtherErr "deduction" [dbGoError e])
        end)) (hasAuditLog (planOrderID p) REFUND_ROLLBACK_FAILED)
  else ok p.

(** A subscription that would end is revoked. *)
Definition shortenOrRevoke (p : RefundPlan) (onError : string → goError → M RefundPlan) : M RefundPlan :=
  bindProg (λ r,
    match r with
    | Ok _ => ok p
    | Err e =>
        if Is ErrAdjustWouldExpire (Some e) then
          bindProg (λ r, match r with Ok _ => ok p | Err e => onError "revoke subscription"%string e end)
            (RevokeSubscription (SubscriptionID p))
        else onError "deduct subscription days"%string e
    end) (ExtendSubscription s (SubscriptionID p) (- SubDaysToDeduct p)).

Definition deductDays (p : RefundPlan) : M RefundPlan :=
  if takesDays p then
    bindProg (λ failed : bool,
      if failed then ok (setSubDaysToDeduct 0 p)
      else shortenOrRevoke p (λ text e, run restoreStatus p in fails (OtherErr text [e])))
      (hasAuditLog (planOrderID p) REFUND_ROLLBACK_FAILED)
  else ok p.

Definition ExecuteRefund (p : RefundPlan) : M RefundResult :=
  let* c := query "lock" (orderUpdate (planOrderID p) (statusIn refundable) (SetStatus OrderStatusRefunding)) in
  if c =? 0 then failsApp (Conflict "CONFLICT" "order status changed") else
  let* p := deductBalance p in
  let* p := deductDays p in
  bindProg (λ r, match r with Ok resp => finishRefund p resp | Err e => handleGwFail p e end) (gwRefund p).

(** ** Pending refunds *)

(** The query orders by time; the unique index leaves one entry to choose. *)
Definition latestRefundPendingDetail (oid : Z) : P refundPendingAuditDetail :=
  let none := mkPendingDetail "" false "" f64_zero 0 0 true in
  Query (reading (λ _ d, found (audits d !! (oid, REFUND_PENDING)))) (λ r,
    match r with
    | Ok (Some det) =>
        Ret (mkPendingDetail (TrimSpace (RefundID det)) (detDeductBalance det) (detDeductionType det) (BalanceDeducted det)
               (SubDaysDeducted det) (detSubscriptionID det) (DeductionRollbackOK det))
    | _ => Ret none
    end).

Definition refundFinalizePlan (o : PaymentOrder) (detail : refundPendingAuditDetail) : RefundPlan :=
  let reason := TrimSpace (psStringValue (RefundReason o)) in
  let reason := if eqs reason "" then "refund order:" +:+ Itoa (ID o) else reason in
  let p := mkRefundPlan (ID o) o (RefundAmount o)
             (calculateGatewayRefundAmount (Amount o) (PayAmount o) (RefundAmount o) (PaymentOrderCurrency o))
             reason (ForceRefund o) (detDeductBalance detail) DeductionTypeNone f64_zero 0 0 in
  if DeductionRollbackOK detail && detDeductBalance detail then
    if eqs (OrderType o) OrderTypeBalance then setBalanceToDeduct (BalanceDeducted detail) (setDeductionType DeductionTypeBalance p)
    else if eqs (OrderType o) OrderTypeSubscription then
      setSubscriptionID (detSubscriptionID detail) (setSubDaysToDeduct (SubDaysDeducted detail) (setDeductionType DeductionTypeSubscription p))
    else p
  else p.

Definition applyRefundFinalDeduction (p : RefundPlan) : M RefundPlan :=
  let* p :=
    if takesBalance p then
      Query (DeductBalance (UserID (planOrder p)) (BalanceToDeduct p)) (λ r,
        match r with
        | Ok deducted => ok (setBalanceToDeduct deducted p)
        | Err e => fails (OtherErr "deduction" [dbGoError e])
        end)
    else ok p in
  if takesDays p then shortenOrRevoke p (λ text e, fails (OtherErr text [e])) else ok p.

(** [markRefundOkTx]: unlike [markRefundOk], it fails when the entry of the
    success cannot be written. *)
Definition markRefundOkTx (p : RefundPlan) : M RefundResult :=
  Clock (λ now,
    do* query "mark refund" (orderUpdateOne (planOrderID p) (setRefunded p now)) in
    do* query "write refund audit" (auditInsert (planOrderID p) "REFUND_SUCCESS" None) in
    ok (refundSucceeded p)).

(** The body of the transaction. *)
Definition finalizeTx (p : RefundPlan) : M RefundResult :=
  let* claimed := query "claim pending refund"
    (orderUpdate (planOrderID p) (statusEQ OrderStatusRefundPending) (SetStatus OrderStatusRefunding)) in
  if claimed =? 0 then failsApp (Conflict "CONFLICT" "order status changed") else
  let* p := applyRefundFinalDeduction p in
  markRefundOkTx p.

Definition finalization (p : RefundPlan) : txn (result goError RefundResult) := atomically (λ t d, exec t (finalizeTx p) d).

Definition finalizePendingRefundSuccess (p : RefundPlan) : M RefundResult := transact "refund finalization" (finalization p).

Definition finalizeRefundFailed (o : PaymentOrder) (gErr : goError) : M RefundResult :=
  Clock (λ now,
    run ignore (query "failed" (orderUpdateOne (ID o) (setFailed OrderStatusRefundFailed now (psErrMsg s gErr)))) in
    run writeAuditLog (ID o) "REFUND_FAILED" in
    ok (warns ("gateway refund failed: " +:+ psErrMsg s gErr))).

Definition QueryAndFinalizeRefund (oid : Z) : M RefundResult :=
  let* o := queryOr (NotFound "NOT_FOUND" "order not found") (orderGet oid) in
  if negb (eqs (Status o) OrderStatusRefundPending)
  then failsApp (BadRequest "INVALID_STATUS" "only refund pending orders can be finalized") else
  match getRefundProvider o with
  | Err e => fails (OtherErr "get refund provider" [e])
  | Ok prov =>
      match QueryRefund prov with
      | None => failsApp (BadRequest "REFUND_QUERY_UNSUPPORTED" "this payment provider does not support refund status query; please verify manually")
      | Some queryRefund =>
          bindProg (λ detail,
            match queryRefund (mkRefundQuery (PaymentTradeNo o) (OutTradeNo o) (RefundID detail) (formatGatewayRefundAmount (RefundAmount o) o)) with
            | Err e => fails (OtherErr "query refund" [e])
            | Ok resp =>
                match validateRefundProviderResponse resp with
                | Err e => finalizeRefundFailed o e
                | Ok _ =>
                    if isRefunded resp then finalizePendingRefundSuccess (refundFinalizePlan o detail)
                    else if isRefundPending resp then
                      run writeAuditLog oid "REFUND_QUERY_PENDING" in ok (warns "gateway refund is still pending confirmation")
                    else finalizeRefundFailed o (OtherErr "payment refund returned unknown status" [])
                end
            end) (latestRefundPendingDetail oid)
      end
  end.
End refunds.
