(* ===== verification/PaymentLifecycle.v ===== *)
(** * Payment orders: creation, cancellation, expiry, reconciliation

    [service/payment_order.go] (the insertion of an order and the recording of
    the provider's answer) and [service/payment_order_lifecycle.go].  The
    answers of a payment provider are arguments: [QueryOrder n] is its answer to
    the [n]-th query of one operation. *)

From S2P Require Import Prelude GoRuntime Domain AppErrors Transactions PaymentOrder PaymentDB PaymentGrants PaymentFulfillment.
From S2P Require RedeemCode.
#[local] Open Scope Z_scope.

Definition checkPaidResultAlreadyPaid : string := "already_paid".
Definition checkPaidResultCancelled : string := "cancelled".
Definition checkPaidResultProcessing : string := "processing".
Definition checkPaidResultFailed : string := "failed".
Definition checkPaidResultUncertain : string := "uncertain".
Definition pendingWxpayReconcileLimit : Z := 20.
Definition processingReconcileLimit : Z := 20.
Definition fulfillmentReconcileLimit : Z := 20.
Definition fulfillmentRetryDelay : Duration := Minute.
Definition processingStaleAfter : Duration := 24 * Hour.
Definition paymentExpiryRetryDelay : Duration := 15 * Minute.
Definition defaultMaxPendingOrders : Z := 3.
Definition defaultOrderTimeoutMin : Z := 30.

Record QueryOrderResponse := mkQueryResponse {
  respTradeNo : string;
  respStatus : string;
  respAmount : float64;
  respMetadata : gmap string string;
}.

(** A provider instance as one operation sees it. *)
Record Provider := mkProvider {
  provKey : string;
  QueryOrder : nat → result goError (option QueryOrderResponse);
  CancelPayment : option (result goError unit);
}.

Section lifecycle.
Context (s : paymentService) `{UnicodeCase} `{UnicodeFold} (env : redeemEnv).
(** [getOrderProvider]: the provider of an order, or why there is none. *)
Context (providerOf : PaymentOrder → result goError Provider).

(** ** Creation *)

(** The order that a request describes, as far as the row keeps it. *)
Record orderRequest := mkRequest {
  reqUserID : Z;
  reqOrderType : string;
  reqPaymentType : string;
  reqOrderAmount : float64;
  reqLimitAmount : float64;
  reqPayAmount : float64;
  reqPlan : option (Z * SubscriptionPlanSnapshot);
  reqInstanceID : string;
  reqProviderKey : string;
  reqSnapshot : gmap string snapshotValue;
  reqOutTradeNo : string;
  maxPendingOrders : Z;
  dailyLimit : float64;
  orderTimeoutMin : Z;
  startOfDayUTC : Time;
}.

Definition psNilIfEmpty (v : string) : option string := if eqs v "" then None else Some v.

Definition newOrder (req : orderRequest) (id : Z) (expiresAt now : Time) : PaymentOrder :=
  mkOrder id (reqUserID req) OrderStatusPending (reqOrderType req) (reqOrderAmount req) (reqPayAmount req)
    (rechargeCodeOf id (UnixNano now)) (reqOutTradeNo req) (reqPaymentType req) "" None None None None
    (fst <$> reqPlan req) (default noPlanSnapshot (snd <$> reqPlan req)) (psNilIfEmpty (TrimSpace (reqInstanceID req)))
    (psNilIfEmpty (TrimSpace (reqProviderKey req))) (reqSnapshot req) f64_zero None None false None None None expiresAt
    None None None None now.

Definition countPending (userID : Z) (d : payDB) : Z :=
  zsize (filter (λ kv, UserID (snd kv) = userID ∧ statusIn [OrderStatusPending; OrderStatusProcessing] (snd kv) = true) (orders d)).

Definition checkPendingLimit (userID max : Z) : M unit :=
  let max := if max <=? 0 then defaultMaxPendingOrders else max in
  let* c := query "count pending orders" (reading (λ _ d, Ok (countPending userID d))) in
  if max <=? c then failsApp (TooManyRequests "TOO_MANY_PENDING" "too_many_pending") else ok tt.

(** The orders of the day in the order of the table. *)
Definition paidSince (userID : Z) (ts : Time) (d : payDB) : list PaymentOrder :=
  snd <$> filter (λ kv, UserID (snd kv) = userID ∧
    statusIn [OrderStatusPaid; OrderStatusRecharging; OrderStatusCompleted] (snd kv) = true ∧
    match PaidAt (snd kv) with Some p => negb (Before p ts) | None => false end = true) (map_to_list (orders d)).

Definition checkDailyLimit (userID : Z) (amount limit : float64) (ts : Time) : M unit :=
  if f64_le limit f64_zero then ok tt else
  let* used := query "query daily usage" (reading (λ _ d, Ok (fold_left (λ used o,
      f64_add used (if eqs (OrderType o) OrderTypeBalance then PayAmount o else Amount o)) (paidSince userID ts d) f64_zero))) in
  if f64_gt (f64_add used amount) limit then failsApp (TooManyRequests "DAILY_LIMIT_EXCEEDED" "daily_limit_exceeded")
  else ok tt.

(** The insert: a new identifier; the index on external numbers is unique
    where they are not empty. *)
Definition insertOrder (req : orderRequest) (expiresAt : Time) : txn PaymentOrder := λ now d,
  let id := 1 + foldr Z.max 0 (fst <$> map_to_list (orders d)) in
  if negb (eqs (reqOutTradeNo req) "") && bool_decide (map_Exists (λ _ o, OutTradeNo o = reqOutTradeNo req) (orders d))
  then (Err (DBError "duplicate key"), d)
  else let o := newOrder req id expiresAt now in (Ok o, setOrders (<[id := o]> (orders d)) d).

Definition createOrderInTx (req : orderRequest) : M PaymentOrder :=
  do* checkPendingLimit (reqUserID req) (maxPendingOrders req) in
  do* checkDailyLimit (reqUserID req) (reqLimitAmount req) (dailyLimit req) (startOfDayUTC req) in
  Clock (λ now,
    let tm := if orderTimeoutMin req <=? 0 then defaultOrderTimeoutMin else orderTimeoutMin req in
    query "create order" (insertOrder req (Add now (tm * Minute)))).

(** What the provider answered to the creation of its payment. *)
Record CreatePaymentResponse := mkCreateResponse {
  crTradeNo : string;
  crInvoiceID : string;
  crInvoiceURL : string;
  crInvoicePDF : string;
  crInvoiceStatus : string;
  crExpiresAt : Time;
}.

Definition setNillable {A} (set : A → PaymentOrder → PaymentOrder) (v : option A) (row : PaymentOrder) : PaymentOrder :=
  match v with Some x => set x row | None => row end.

Definition SetExpiresAt (v : Time) (o : PaymentOrder) : PaymentOrder := ltac:(set_field etaOrder o ExpiresAt v).
Definition SetProviderInstanceID (v : string) (o : PaymentOrder) : PaymentOrder := ltac:(set_field etaOrder o ProviderInstanceID (Some v)).
Definition SetProviderKey (v : string) (o : PaymentOrder) : PaymentOrder := ltac:(set_field etaOrder o ProviderKey (Some v)).

Definition persistCreatePaymentResponse (oid : Z) (req : orderRequest) (pr : option CreatePaymentResponse) : M PaymentOrder :=
  match pr with
  | None => fails (plainError "payment provider returned an empty create response")
  | Some pr =>
      let some v := Some <$> psNilIfEmpty v in
      query "update order with payment details" (orderUpdateOne oid (λ row,
        let row := setNillable SetPaymentTradeNo (psNilIfEmpty (crTradeNo pr)) row in
        let row := setNillable SetProviderInstanceID (psNilIfEmpty (reqInstanceID req)) row in
        let row := setNillable SetProviderKey (psNilIfEmpty (reqProviderKey req)) row in
        let row := setNillable SetPaymentInvoiceID (some (crInvoiceID pr)) row in
        let row := setNillable SetPaymentInvoiceURL (some (crInvoiceURL pr)) row in
        let row := setNillable SetPaymentInvoicePdfURL (some (crInvoicePDF pr)) row in
        let row := setNillable SetPaymentInvoiceStatus (some (crInvoiceStatus pr)) row in
        if IsZero (crExpiresAt pr) then row else SetExpiresAt (crExpiresAt pr) row))
  end.

(** The end of [CreateOrder]: an order whose payment could not be created is
    marked as failed, whatever its status is by then. *)
Definition createOrder (req : orderRequest) (answer : result goError (option CreatePaymentResponse)) : M PaymentOrder :=
  let* order := createOrderInTx req in
  bindProg (λ r : result goError PaymentOrder, match r with
      | Ok o => ok o
      | Err e => run ignore (query "fail order" (orderUpdateOne (ID order) (SetStatus OrderStatusFailed))) in fails e
      end)
    (match answer with
     | Err e => fails e
     | Ok pr =>
         let* o := persistCreatePaymentResponse (ID order) req pr in
         run writeAuditLog (ID order) "ORDER_CREATED" in ok o
     end).

(** ** Queries of the provider *)

Definition queryReferenceKey (order : PaymentOrder) (key : string) : string :=
  if negb (eqs (TrimSpace key) "") then TrimSpace key else
  let fromSnapshot := match psOrderProviderSnapshot order with Some sn => TrimSpace (SnapProviderKey sn) | None => ""%string end in
  if negb (eqs fromSnapshot "") then fromSnapshot
  else if negb (eqs (TrimSpace (psStringValue (ProviderKey order))) "") then TrimSpace (psStringValue (ProviderKey order))
  else TrimSpace (PaymentType order).

Definition paymentOrderQueryReference (order : PaymentOrder) (key : string) : string :=
  let base := GetBasePaymentType (queryReferenceKey order key) in
  let tradeNo := TrimSpace (PaymentTradeNo order) in
  let outTradeNo := TrimSpace (OutTradeNo order) in
  if eqs base TypeAlipay || eqs base TypeEasyPay || eqs base TypeWxpay then outTradeNo
  else if eqs base TypeStripe then
    if HasPrefix tradeNo "cs_" then tradeNo
    else if negb (eqs (TrimSpace (psStringValue (PaymentInvoiceID order))) "") then TrimSpace (psStringValue (PaymentInvoiceID order))
    else if negb (eqs tradeNo "") then tradeNo else outTradeNo
  else if negb (eqs tradeNo "") then tradeNo else outTradeNo.

Definition paymentOrderShouldPersistUpstreamTradeNo (queryRef upstreamTradeNo currentTradeNo : string) : bool :=
  let upstream := TrimSpace upstreamTradeNo in
  negb (eqs upstream "") && negb (FoldEqual upstream (TrimSpace currentTradeNo)) && negb (FoldEqual upstream (TrimSpace queryRef)).

Definition queryPaymentOrderWithProvider (prov : Provider) (n : nat) : result goError QueryOrderResponse :=
  match QueryOrder prov n with
  | Err e => Err (OtherErr "query upstream payment" [e])
  | Ok None => Err (OtherErr "query upstream payment returned no response" [])
  | Ok (Some resp) => Ok resp
  end.

Definition queryPaymentOrderProvider (o : PaymentOrder) : result goError (Provider * string * QueryOrderResponse) :=
  match providerOf o with
  | Err e => Err (OtherErr "resolve order provider" [e])
  | Ok prov =>
      let queryRef := paymentOrderQueryReference o (provKey prov) in
      if eqs queryRef "" then Err (OtherErr "payment order has no upstream query reference" [])
      else resp ← queryPaymentOrderWithProvider prov 0; Ok (prov, queryRef, resp)
  end.

Definition requeryPaidOrderOnce (prov : Provider) (queryRef : string) (n : nat) : option QueryOrderResponse :=
  if eqs (TrimSpace queryRef) "" then None else
  match QueryOrder prov n with
  | Ok (Some resp) => if eqs (respStatus resp) ProviderStatusPaid && isValidProviderAmount (respAmount resp) then Some resp else None
  | _ => None
  end.

(** [applyQueriedPaymentStatus]; the query itself was the [n]-th.  The outcome
    is returned with an error too, but no caller uses it then. *)
Definition applyPaid (o : PaymentOrder) (prov : Provider) (queryRef : string) (resp : QueryOrderResponse) : M string :=
  let upstream := TrimSpace (respTradeNo resp) in
  let persist := paymentOrderShouldPersistUpstreamTradeNo queryRef upstream (PaymentTradeNo o) in
  do* (if persist then
         let* _ := query "persist upstream trade no during checkPaid"
                     (orderUpdate (ID o) (λ _, true) (SetPaymentTradeNo upstream)) in ok tt
       else ok tt) in
  do* HandlePaymentNotification s env (Some (mkNotification (if persist then upstream else PaymentTradeNo o) (OutTradeNo o)
        (respAmount resp) ProviderStatusSuccess (respMetadata resp))) (provKey prov) in
  ok checkPaidResultAlreadyPaid.

Definition applyQueriedPaymentStatus (o : PaymentOrder) (prov : Provider) (queryRef : string) (resp : QueryOrderResponse)
    (n : nat) : M string :=
  if eqs (respStatus resp) ProviderStatusPaid then
    if isValidProviderAmount (respAmount resp) then applyPaid o prov queryRef resp
    else
      run writeAuditLog (ID o) "PAYMENT_INVALID_AMOUNT" in
      match requeryPaidOrderOnce prov queryRef (S n) with
      | Some resp => applyPaid o prov queryRef resp
      | None => ok checkPaidResultUncertain
      end
  else if eqs (respStatus resp) ProviderStatusProcessing then
    let tradeNo := if eqs (TrimSpace (respTradeNo resp)) "" then TrimSpace (PaymentTradeNo o) else TrimSpace (respTradeNo resp) in
    do* HandlePaymentNotification s env (Some (mkNotification tradeNo (OutTradeNo o) (respAmount resp)
          ProviderStatusProcessing (respMetadata resp))) (provKey prov) in
    ok checkPaidResultProcessing
  else if eqs (respStatus resp) ProviderStatusFailed then ok checkPaidResultFailed
  else ok ""%string.

Definition checkPaid (o : PaymentOrder) : M string :=
  match queryPaymentOrderProvider o with
  | Err _ => ok ""%string
  | Ok (prov, queryRef, resp) => applyQueriedPaymentStatus o prov queryRef resp 0
  end.

(** ** Cancellation *)

Definition processingCancellationResult (finalStatus : string) : M string :=
  if eqs finalStatus OrderStatusExpired then ok checkPaidResultProcessing
  else failsApp (BadRequest "INVALID_STATUS" "payment is processing and cannot be cancelled").

Definition finalizePendingOrder (o : PaymentOrder) (finalStatus : string) : M string :=
  let* c := query "update order status" (orderUpdate (ID o) (statusEQ OrderStatusPending) (SetStatus finalStatus)) in
  if 0 <? c then
    run writeAuditLog (ID o) (if eqs finalStatus OrderStatusExpired then "ORDER_EXPIRED" else "ORDER_CANCELLED") in
    ok checkPaidResultCancelled
  else
    let* current := query "reload order after cancellation race" (orderGet (ID o)) in
    if statusIn [OrderStatusPaid; OrderStatusRecharging; OrderStatusCompleted] current then ok checkPaidResultAlreadyPaid
    else if statusEQ OrderStatusProcessing current then processingCancellationResult finalStatus
    else if statusIn [OrderStatusCancelled; OrderStatusExpired] current then ok checkPaidResultCancelled
    else fails (plainError "order status changed while cancelling").

Definition recordPaymentCancelFailure (o : PaymentOrder) : P unit :=
  bindProg (λ logged : bool,
    run (if logged then Ret tt else writeAuditLog (ID o) "PAYMENT_CANCEL_FAILED") in
    Clock (λ now, ignore (query "record payment cancellation retry time"
      (orderUpdate (ID o) (statusEQ OrderStatusPending) (SetUpdatedAt now)))))
    (hasAuditLog (ID o) "PAYMENT_CANCEL_FAILED").

Definition paymentStatusUnavailableError (cause : goError) : ApplicationError :=
  WithCause (ServiceUnavailable "PAYMENT_STATUS_UNAVAILABLE" "payment status is temporarily unavailable") (Some cause).

(** The outcomes that end a cancellation; [None] goes on. *)
Definition settleOutcome (o : PaymentOrder) (finalStatus outcome : string) : option (M string) :=
  if eqs outcome checkPaidResultAlreadyPaid then Some (ok outcome)
  else if eqs outcome checkPaidResultProcessing then Some (processingCancellationResult finalStatus)
  else if eqs outcome checkPaidResultFailed then Some (finalizePendingOrder o finalStatus)
  else None.

(** The upstream payment could not be closed: query once more before the local
    status is decided. *)
Definition afterCancelFailure (o : PaymentOrder) (prov : Provider) (queryRef finalStatus : string) (cancelErr : goError) : M string :=
  let unavailable := run recordPaymentCancelFailure o in failsApp (paymentStatusUnavailableError cancelErr) in
  match queryPaymentOrderWithProvider prov 2 with
  | Err _ => unavailable
  | Ok retryResp =>
      let* retryOutcome := applyQueriedPaymentStatus o prov queryRef retryResp 2 in
      default unavailable (settleOutcome o finalStatus retryOutcome)
  end.

Definition cancelCore (o : PaymentOrder) (finalStatus : string) : M string :=
  if negb (eqs (PaymentTradeNo o) "") || negb (eqs (PaymentType o) "") then
    match queryPaymentOrderProvider o with
    | Err e => run recordPaymentCancelFailure o in failsApp (paymentStatusUnavailableError e)
    | Ok (prov, queryRef, resp) =>
        let* outcome := applyQueriedPaymentStatus o prov queryRef resp 0 in
        match settleOutcome o finalStatus outcome with
        | Some m => m
        | None =>
            if eqs outcome checkPaidResultUncertain then
              run recordPaymentCancelFailure o in fails (plainError "provider returned an invalid paid response")
            else match CancelPayment prov with
                 | Some (Err cancelErr) => afterCancelFailure o prov queryRef finalStatus cancelErr
                 | Some (Ok _) | None => finalizePendingOrder o finalStatus
                 end
        end
    end
  else finalizePendingOrder o finalStatus.

Definition CancelOrder (orderID userID : Z) : M string :=
  let* o := queryOr orderNotFound (orderGet orderID) in
  if negb (UserID o =? userID) then failsApp (Forbidden "FORBIDDEN" "no permission for this order")
  else if negb (eqs (Status o) OrderStatusPending) then failsApp (BadRequest "INVALID_STATUS" "order cannot be cancelled in current status")
  else cancelCore o OrderStatusCancelled.

Definition AdminCancelOrder (orderID : Z) : M string :=
  let* o := queryOr orderNotFound (orderGet orderID) in
  if negb (eqs (Status o) OrderStatusPending) then failsApp (BadRequest "INVALID_STATUS" "order cannot be cancelled in current status")
  else cancelCore o OrderStatusCancelled.

(** The runes of valid UTF-8 are counted by their leading bytes. *)
Definition runeCount (v : string) : Z :=
  Z.of_nat (length (filter (λ a, (N.land (byteOf a) 192 =? 128)%N = false) (String.list_ascii_of_string v))).

(** The transaction of [ForceExpireOrder]: status and audit entry together. *)
Definition forceExpireTx (orderID : Z) : txn (result goError unit) := λ now d,
  match orderUpdate orderID (statusEQ OrderStatusPending) (SetStatus OrderStatusExpired) now d with
  | (Ok n, d') =>
      if n =? 0 then
        (Ok (Err (AppErr (match orders d !! orderID with
                          | Some _ => Conflict "ORDER_STATUS_CHANGED" "order status changed before force expiration"
                          | None => orderNotFound
                          end))), d)
      else match auditInsert orderID "ORDER_FORCE_EXPIRED" None now d' with
           | (Ok _, d'') => (Ok (Ok tt), d'')
           | (Err e, _) => (Err e, d)
           end
  | (Err e, _) => (Err e, d)
  end.

Definition ForceExpireOrder (orderID : Z) (reason : string) : M unit :=
  let reason := TrimSpace reason in
  if eqs reason "" || (500 <? runeCount reason) then
    failsApp (BadRequest "INVALID_FORCE_EXPIRE_REASON" "force expiration reason is invalid")
  else transact "force expire transaction" (forceExpireTx orderID).

(** ** Queries by users and background reconciliation *)

Definition normalizeOrderLookupOutTradeNo (raw : string) : result ApplicationError string :=
  let outTradeNo := TrimSpace raw in
  if eqs outTradeNo "" then Err (BadRequest "INVALID_OUT_TRADE_NO" "out_trade_no is required")
  else if 64 <? len outTradeNo then Err (BadRequest "INVALID_OUT_TRADE_NO" "out_trade_no is invalid")
  else if forallb (λ a, let b := byteOf a in
            ((97 <=? b) && (b <=? 122) || (65 <=? b) && (b <=? 90) || (48 <=? b) && (b <=? 57) || (b =? 95) || (b =? 45))%N)
            (String.list_ascii_of_string outTradeNo)
  then Ok outTradeNo else Err (BadRequest "INVALID_OUT_TRADE_NO" "out_trade_no is invalid").

Definition VerifyOrderByOutTradeNo (outTradeNo : string) (userID : Z) : M PaymentOrder :=
  match normalizeOrderLookupOutTradeNo outTradeNo with
  | Err e => failsApp e
  | Ok outTradeNo =>
      let* o := queryOr orderNotFound (orderByOutTradeNo outTradeNo) in
      if negb (UserID o =? userID) then failsApp (Forbidden "FORBIDDEN" "no permission for this order")
      else if statusIn [OrderStatusPending; OrderStatusExpired] o then
        let* result := checkPaid o in
        if eqs result checkPaidResultAlreadyPaid || eqs result checkPaidResultProcessing
        then query "reload order" (orderGet (ID o)) else ok o
      else ok o
  end.

(** The orders that satisfy [p], in a given order of the columns. *)
Definition ordersWhere (p : PaymentOrder → bool) (d : payDB) : list PaymentOrder :=
  filter (λ o, p o = true) (snd <$> map_to_list (orders d)).

Definition byID (a b : PaymentOrder) : Prop := ID a <= ID b.
#[local] Instance byID_dec a b : Decision (byID a b) := decide (ID a <= ID b).

Definition sortedWhere (p : PaymentOrder → bool) (d : payDB) : list PaymentOrder := merge_sort byID (ordersWhere p d).

(** A loop over rows that counts successes and goes on after an error. *)
Fixpoint countEach {X} (work : X → P bool) (l : list X) : M Z :=
  match l with
  | [] => ok 0
  | x :: l => bindProg (λ counted : bool, let* n := countEach work l in ok (if counted then n + 1 else n)) (work x)
  end.

Definition succeeded (outcome : string) (r : result goError string) : bool :=
  match r with Ok v => eqs v outcome | Err _ => false end.

Definition isWxpayOrder (o : PaymentOrder) : bool :=
  let key := psStringValue (ProviderKey o) in
  eqs (PaymentType o) TypeWxpay || HasPrefix (PaymentType o) "wxpay_" || eqs key TypeWxpay || HasPrefix key "wxpay_".

(** [created] orders the rows by creation. *)
Definition ReconcilePendingWxpayOrders (created : list PaymentOrder → list PaymentOrder) : M Z :=
  Clock (λ now,
    let* l := query "query pending wxpay orders" (reading (λ _ d,
        Ok (take (Z.to_nat pendingWxpayReconcileLimit) (created (ordersWhere (λ o,
              statusEQ OrderStatusPending o && After (ExpiresAt o) now && isWxpayOrder o) d))))) in
    countEach (λ o, bindProg (λ r, Ret (succeeded checkPaidResultAlreadyPaid r)) (checkPaid o)) l).

Definition shouldRetryTimedOutOrder (o : PaymentOrder) (now : Time) : P bool :=
  bindProg (λ logged : bool, Ret (if logged then negb (After (UpdatedAt o) (Add now (- paymentExpiryRetryDelay))) else true))
    (hasAuditLog (ID o) "PAYMENT_CANCEL_FAILED").

Definition expireTimedOutOrdersAt (rows : list PaymentOrder → list PaymentOrder) (now : Time) : M Z :=
  let* l := query "query expired" (reading (λ _ d,
      Ok (rows (ordersWhere (λ o, statusEQ OrderStatusPending o && negb (After (ExpiresAt o) now)) d)))) in
  countEach (λ o,
    bindProg (λ retry : bool,
      if retry then bindProg (λ r, Ret (succeeded checkPaidResultCancelled r)) (cancelCore o OrderStatusExpired)
      else Ret false) (shouldRetryTimedOutOrder o now)) l.

Definition ExpireTimedOutOrders (rows : list PaymentOrder → list PaymentOrder) : M Z :=
  Clock (λ now, expireTimedOutOrdersAt rows now).

Definition maybeAuditStaleProcessingOrder (o : PaymentOrder) (now : Time) : P unit :=
  if After (UpdatedAt o) (Add now (- processingStaleAfter)) then Ret tt else
  bindProg (λ logged : bool, if logged then Ret tt else writeAuditLog (ID o) "PAYMENT_PROCESSING_STALE")
    (hasAuditLog (ID o) "PAYMENT_PROCESSING_STALE").

(** One page of the identifiers: the cursor moves over the whole set. *)
Definition reconcilePageIDs {X} (ids : list X) (cursor limit : Z) : list X :=
  let n := Z.of_nat (length ids) in
  if (n =? 0) || (limit <=? 0) then []
  else if n <=? limit then ids
  else
    let pageCount := (n + limit - 1) / limit in
    let start := (cursor mod pageCount) * limit in
    let stop := start + limit in
    let stop := if n <? stop then n else stop in
    take (Z.to_nat (stop - start)) (drop (Z.to_nat start) ids).

(** [nextReconcilePageIDs]: the page, and the cursor of the next round. *)
Definition nextReconcilePageIDs {X} (ids : list X) (cursor limit : Z) : list X * Z :=
  (reconcilePageIDs ids cursor limit, if limit <? Z.of_nat (length ids) then wrapU64 (cursor + 1) else cursor).

Definition reconcileProcessing (now : Time) (o : PaymentOrder) : P bool :=
  match queryPaymentOrderProvider o with
  | Err _ => run maybeAuditStaleProcessingOrder o now in Ret false
  | Ok (prov, queryRef, resp) =>
      bindProg (λ r, match r with
        | Err _ => Ret false
        | Ok outcome =>
            if eqs outcome checkPaidResultAlreadyPaid then Ret true
            else if eqs outcome checkPaidResultFailed then run ignore (markPaymentFailed o (respTradeNo resp)) in Ret false
            else run maybeAuditStaleProcessingOrder o now in Ret false
        end) (applyQueriedPaymentStatus o prov queryRef resp 0)
  end.

Definition reconcileProcessingOrdersAt (cursor : Z) (now : Time) : M Z :=
  let* ids := query "query processing payment order ids" (reading (λ _ d,
      Ok (map ID (sortedWhere (statusEQ OrderStatusProcessing) d)))) in
  let page := reconcilePageIDs ids cursor processingReconcileLimit in
  if bool_decide (page = []) then ok 0 else
  let* l := query "query processing payment orders" (reading (λ _ d,
      Ok (sortedWhere (λ o, bool_decide (ID o ∈ page) && statusEQ OrderStatusProcessing o) d))) in
  countEach (reconcileProcessing now) l.

(** The paid orders that fulfilment still has to complete. *)
Definition needsFulfillment (now : Time) (o : PaymentOrder) : bool :=
  bool_decide (is_Some (PaidAt o)) &&
  (statusIn [OrderStatusPaid; OrderStatusFailed] o && negb (After (UpdatedAt o) (Add now (- fulfillmentRetryDelay)))
   || statusEQ OrderStatusRecharging o && negb (After (UpdatedAt o) (Add now (- paymentFulfillmentLeaseDuration)))).

Definition reconcileFulfillment (oid : Z) : P bool :=
  bindProg (λ r, match r with
    | Err _ => Ret false
    | Ok _ => Query (orderGet oid) (λ r, match r with Ok o => Ret (eqs (Status o) OrderStatusCompleted) | Err _ => Ret false end)
    end) (executeFulfillment s env oid).

Definition reconcilePaidFulfillmentOrdersAt (cursor : Z) (now : Time) : M Z :=
  let* ids := query "query paid fulfillment order ids" (reading (λ _ d, Ok (map ID (sortedWhere (needsFulfillment now) d)))) in
  countEach reconcileFulfillment (reconcilePageIDs ids cursor fulfillmentReconcileLimit).
End lifecycle.
