(* ===== verification/PaymentInvariant.v ===== *)
(** * Payments grant what was bought, once

    The invariant of the payment tables under every interleaving of
    notifications, retries, cancellations, reconciliation and redemptions, with
    broken connections and crashes: the code of an order is redeemed at most
    once, its subscription is assigned at most once, its rebate accrues at most
    once, and an order that is completed (or refunded later) has been granted.

    [knows user code] says which users may submit which code: anybody may try
    any code in [knows], besides the fulfilment of orders itself.  The other
    changes of the tables ([outside]) are the ones of administrators and other
    services, except that nobody edits or deletes the code of an order. *)

From S2P Require Import Prelude GoRuntime Domain AppErrors Transactions PaymentOrder PaymentDB PaymentGrants PaymentFulfillment PaymentLifecycle.
From S2P Require RedeemCode.
#[local] Open Scope Z_scope.

Section safety.
Context (knows : Z → string → Prop).

Definition creditCode (c : credit) : string :=
  match c with BalanceCredit _ code _ | ConcurrencyCredit _ code _ => code end.

Definition creditsOf (code : string) (d : payDB) : list credit := filter (λ c, creditCode c = code) (credits d).

Definition isPayCode (code : string) : Prop := ∃ i n, 0 < i ∧ code = rechargeCodeOf i n.

(** The code was redeemed. *)
Definition used (code : string) (d : payDB) : Prop := ∃ c, codes d !! code = Some c ∧ 0 < RedeemCode.UsedCount c.

(** A subscription was assigned for the order. *)
Definition subscribed (oid : Z) (d : payDB) : Prop := ∃ r, r ∈ subs d ∧ subSourceOrderID r = Some oid.

Definition delivered (o : PaymentOrder) (d : payDB) : Prop :=
  if eqs (OrderType o) OrderTypeSubscription then subscribed (ID o) d else used (RechargeCode o) d.

(** The statuses in which the purchase has been granted. *)
Definition granted (status : string) : bool := eqs status OrderStatusCompleted || psIsRefundStatus status.

(** The code of an order: absent, unused, or used once for the amount bought. *)
Definition codeState (o : PaymentOrder) (d : payDB) : Prop :=
  match codes d !! RechargeCode o with
  | None => creditsOf (RechargeCode o) d = []
  | Some c =>
      RedeemCode.Type_ c = RedeemCode.RedeemTypeBalance ∧ RedeemCode.Value c = Amount o ∧ RedeemCode.MaxUses c = 1 ∧
      RedeemCode.ExpiresAt c = None ∧
      (RedeemCode.UsedCount c = 0 ∧ RedeemCode.Status c = RedeemCode.StatusUnused ∧ creditsOf (RechargeCode o) d = [] ∨
       RedeemCode.UsedCount c = 1 ∧ RedeemCode.Status c = RedeemCode.StatusUsed ∧ ∃ user, creditsOf (RechargeCode o) d = [BalanceCredit user (RechargeCode o) (Amount o)] ∧
         (user = UserID o ∨ knows user (RechargeCode o)))
  end.

Definition assignedAction (action : string) : Prop := action = "SUBSCRIPTION_ASSIGNED"%string ∨ action = "SUBSCRIPTION_SUCCESS"%string.

Definition rebatesOf (oid : Z) (d : payDB) : list (option Z * Z * float64) := filter (λ r, r.1.1 = Some oid) (rebates d).

Record payInv (d : payDB) : Prop := {
  inv_order : ∀ i o, orders d !! i = Some o → ID o = i ∧ 0 < i ∧ ∃ n, RechargeCode o = rechargeCodeOf i n;
  inv_number : ∀ i j o p, orders d !! i = Some o → orders d !! j = Some p → OutTradeNo o = OutTradeNo p →
    OutTradeNo o ≠ ""%string → i = j;
  inv_code_key : ∀ k c, codes d !! k = Some c → RedeemCode.Code c = k;
  inv_pay_code : ∀ i n, 0 < i → is_Some (codes d !! rechargeCodeOf i n) →
    ∃ o, orders d !! i = Some o ∧ RechargeCode o = rechargeCodeOf i n;
  inv_credit_code : ∀ c, c ∈ credits d → isPayCode (creditCode c) → is_Some (codes d !! creditCode c);
  inv_order_code : ∀ i o, orders d !! i = Some o → codeState o d;
  inv_done : ∀ i o, orders d !! i = Some o → granted (Status o) = true → delivered o d;
  inv_assigned : ∀ oid action, assignedAction action → audited oid action d = true → subscribed oid d;
  inv_subs : ∀ oid, (length (sourceRows oid d) ≤ 1)%nat;
  inv_sub_ids : NoDup (subID <$> subs d);
  inv_sub_bound : ∀ r, r ∈ subs d → subID r <= Z.of_nat (length (subs d));
  inv_ids : ∀ k c, codes d !! k = Some c → RedeemCode.ID c < nextCodeID d;
  inv_id_inj : ∀ k k' c c', codes d !! k = Some c → codes d !! k' = Some c' → RedeemCode.ID c = RedeemCode.ID c' → k = k';
  inv_usages : ∀ id user, (id, user) ∈ usages d →
    id < nextCodeID d ∧ ∀ k c, codes d !! k = Some c → RedeemCode.ID c = id → isPayCode k → 0 < RedeemCode.UsedCount c;
  inv_rebates : ∀ oid, (length (rebatesOf oid d) ≤ if audited oid rebateApplied d then 1 else 0)%nat;
}.

(** What never changes, or only becomes true. *)
Record payGuar (d d' : payDB) : Prop := {
  guar_orders : ∀ i o, orders d !! i = Some o → ∃ o', orders d' !! i = Some o' ∧ sameOrder o' o;
  guar_used : ∀ k, isPayCode k → used k d → used k d';
  guar_rows : ∀ r, r ∈ subs d → ∃ r', r' ∈ subs d' ∧ subID r' = subID r ∧ subSourceOrderID r' = subSourceOrderID r;
  guar_audits : ∀ oid action, audited oid action d = true → audited oid action d' = true;
}.

Lemma guar_subs d d' : payGuar d d' → ∀ oid, subscribed oid d → subscribed oid d'.
Proof. intros HG oid (r & Hr & E). destruct (guar_rows _ _ HG r Hr) as (r' & Hr' & _ & E'). exists r'. split; [done | congruence]. Qed.

Lemma same_rows d d' :
  subs d' = subs d → ∀ r, r ∈ subs d → ∃ r', r' ∈ subs d' ∧ subID r' = subID r ∧ subSourceOrderID r' = subSourceOrderID r.
Proof. intros E r Hr. exists r. by rewrite E. Qed.

Lemma payGuar_refl d : payGuar d d.
Proof. split; [|done|by apply same_rows|done]. intros i o Ho. exists o. split; [done | apply sameOrder_refl]. Qed.

Lemma payGuar_trans d1 d2 d3 : payGuar d1 d2 → payGuar d2 d3 → payGuar d1 d3.
Proof.
  intros H1 H2. split.
  - intros i o Ho. destruct (guar_orders _ _ H1 i o Ho) as (o2 & Ho2 & S2). destruct (guar_orders _ _ H2 i o2 Ho2) as (o3 & Ho3 & S3).
    exists o3. split; [done | by eapply sameOrder_trans].
  - intros k Hk Hu. by apply (guar_used _ _ H2), (guar_used _ _ H1).
  - intros r Hr. destruct (guar_rows _ _ H1 r Hr) as (r2 & Hr2 & I2 & E2). destruct (guar_rows _ _ H2 r2 Hr2) as (r3 & Hr3 & I3 & E3).
    exists r3. split; [done|]. split; congruence.
  - intros oid action Ha. by apply (guar_audits _ _ H2), (guar_audits _ _ H1).
Qed.

(** A change that leaves the tables of the guarantee alone. *)
Lemma payGuar_same d d' :
  orders d' = orders d → codes d' = codes d → subs d' = subs d →
  (∀ oid action, audited oid action d = true → audited oid action d' = true) → payGuar d d'.
Proof.
  intros Ho Hc Hs Ha. split; [| |by apply same_rows|exact Ha]; unfold used; rewrite ?Ho, ?Hc; [|done].
  intros i o. exists o. split; [done | apply sameOrder_refl].
Qed.

Lemma sameOrder_codeState o o' d : sameOrder o' o → codeState o d → codeState o' d.
Proof. intros (E1 & E2 & E3 & E4 & E5 & _). unfold codeState. by rewrite E2, E4, E5. Qed.

Lemma sameOrder_delivered o o' d : sameOrder o' o → delivered o d ↔ delivered o' d.
Proof. intros (E1 & E2 & E3 & E4 & E5 & _). unfold delivered. by rewrite E1, E3, E5. Qed.

Lemma order_payCode d i o : payInv d → orders d !! i = Some o → isPayCode (RechargeCode o).
Proof. intros HI Ho. destruct (inv_order d HI i o Ho) as (_ & Hi & n & E). by exists i, n. Qed.

Lemma delivered_mono d d' i o : payInv d → payGuar d d' → orders d !! i = Some o → delivered o d → delivered o d'.
Proof.
  intros HI HG Ho. unfold delivered. destruct (eqs _ _); [apply (guar_subs d d' HG)|].
  apply (guar_used d d' HG). by eapply order_payCode.
Qed.

(** Completed orders stay granted when the guarantee holds and statuses do not change. *)
Lemma done_mono d d' :
  payInv d → payGuar d d' → orders d' = orders d →
  ∀ i o, orders d' !! i = Some o → granted (Status o) = true → delivered o d'.
Proof. intros HI HG E i o. rewrite E. intros Ho Hg. eapply delivered_mono; [done.. | by eapply inv_done]. Qed.

Abbreviation stable := (stable payInv payGuar).
Abbreviation sound := (sound payInv payGuar).
Abbreviation tells := (tells payInv).
Abbreviation safe := (safe payInv payGuar payGuar).

(** *** Statements on orders and the audit log *)

Lemma sound_reading {X} (f : Time → payDB → result dbError X) F : sound (reading f) F.
Proof. intros t d Hd _. split; [done | apply payGuar_refl]. Qed.

(** Replacing a row by another version of the same order. *)
Lemma replaceOrder d i o o' :
  payInv d → orders d !! i = Some o → sameOrder o' o → (granted (Status o') = true → delivered o' d) →
  payInv (setOrders (<[i := o']> (orders d)) d) ∧ payGuar d (setOrders (<[i := o']> (orders d)) d).
Proof.
  intros HI Ho Hs Hg.
  assert (HG : payGuar d (setOrders (<[i := o']> (orders d)) d)).
  { split; [|done|by apply same_rows|done]. cbn. intros j p Hp. destruct (decide (j = i)) as [->|Hne].
    - exists o'. rewrite lookup_insert_eq. assert (p = o) as -> by congruence. done.
    - exists p. rewrite lookup_insert_ne by done. split; [done | apply sameOrder_refl]. }
  split; [|done]. destruct (inv_order d HI i o Ho) as (Hid & Hpos & n & Hcode). destruct Hs as (S1 & S2 & S3 & S4 & S5 & S6 & S7 & S8).
  assert (Hrows : ∀ j p, <[i := o']> (orders d) !! j = Some p → (j = i ∧ p = o') ∨ (j ≠ i ∧ orders d !! j = Some p)).
  { intros j p. rewrite lookup_insert_Some. intros [[-> ->]|[? ?]]; [by left | right; done]. }
  split; cbn.
  - intros j p [[-> ->]|[Hne Hp]]%Hrows; [|by apply (inv_order d HI)]. rewrite S1, S5. split; [done|]. split; [done|]. by exists n.
  - intros j1 j2 p1 p2 [[-> ->]|[N1 P1]]%Hrows [[-> ->]|[N2 P2]]%Hrows; rewrite ?S8; [done|..].
    + intros E Hne. by destruct N2, (inv_number d HI i j2 o p2).
    + intros E Hne. by destruct N1, (inv_number d HI j1 i p1 o).
    + by apply (inv_number d HI).
  - apply (inv_code_key d HI).
  - intros j m Hj Hc. destruct (inv_pay_code d HI j m Hj Hc) as (p & Hp & E). destruct (decide (j = i)) as [->|Hne].
    + exists o'. rewrite lookup_insert_eq. split; [done|]. rewrite S5. congruence.
    + exists p. by rewrite lookup_insert_ne.
  - apply (inv_credit_code d HI).
  - intros j p [[-> ->]|[Hne Hp]]%Hrows; [|by apply (inv_order_code d HI j)].
    apply (sameOrder_codeState o); [by repeat split | by apply (inv_order_code d HI i)].
  - intros j p [[-> ->]|[Hne Hp]]%Hrows Hgr; [by apply Hg | by apply (inv_done d HI j)].
  - apply (inv_assigned d HI).
  - apply (inv_subs d HI).
  - apply (inv_sub_ids d HI).
  - apply (inv_sub_bound d HI).
  - apply (inv_ids d HI).
  - apply (inv_id_inj d HI).
  - apply (inv_usages d HI).
  - apply (inv_rebates d HI).
Qed.

Lemma sound_orderUpdate oid cond set F :
  (∀ row, sameOrder (set row) row) →
  (∀ t d row, payInv d → F d → orders d !! oid = Some row → cond row = true →
     granted (Status (set (SetUpdatedAt t row))) = true → delivered row d) →
  sound (orderUpdate oid cond set) F.
Proof.
  intros Hset Hg t d Hd Hf. unfold orderUpdate. destruct (orders d !! oid) as [row|] eqn:E; [|split; [done | apply payGuar_refl]].
  destruct (cond row) eqn:Ec; [|split; [done | apply payGuar_refl]]. cbn [snd].
  assert (Hs : sameOrder (set (SetUpdatedAt t row)) row) by (eapply sameOrder_trans; [apply Hset | by repeat split]).
  apply (replaceOrder d oid row); [done..|]. intros Hgr. apply (sameOrder_delivered row); [done | by eapply Hg].
Qed.

Lemma sound_orderUpdateOne oid set F :
  (∀ row, sameOrder (set row) row) →
  (∀ t d row, payInv d → F d → orders d !! oid = Some row →
     granted (Status (set (SetUpdatedAt t row))) = true → delivered row d) →
  sound (orderUpdateOne oid set) F.
Proof.
  intros Hset Hg t d Hd Hf. unfold orderUpdateOne. destruct (orders d !! oid) as [row|] eqn:E; [|split; [done | apply payGuar_refl]].
  cbn [snd].
  assert (Hs : sameOrder (set (SetUpdatedAt t row)) row) by (eapply sameOrder_trans; [apply Hset | by repeat split]).
  apply (replaceOrder d oid row); [done..|]. intros Hgr. apply (sameOrder_delivered row); [done | by eapply Hg].
Qed.

Lemma audited_insert oid action detail oid' action' d :
  audited oid' action' (setAudits (<[(oid, action) := detail]> (audits d)) d) =
  bool_decide ((oid, action) = (oid', action')) || audited oid' action' d.
Proof.
  unfold audited. cbn. destruct (decide ((oid, action) = (oid', action'))) as [E|E].
  - rewrite (bool_decide_eq_true_2 _ E), E, lookup_insert_eq. by apply bool_decide_eq_true_2.
  - by rewrite (bool_decide_eq_false_2 _ E), lookup_insert_ne by done.
Qed.

(** A new audit entry, and perhaps a rebate that it pays for. *)
Lemma newAudit d oid action detail :
  payInv d → (assignedAction action → subscribed oid d) →
  payInv (setAudits (<[(oid, action) := detail]> (audits d)) d) ∧ payGuar d (setAudits (<[(oid, action) := detail]> (audits d)) d).
Proof.
  intros HI Ha. split; [|apply payGuar_same; [done..|]; intros o a E; by rewrite audited_insert, E, orb_true_r].
  split; try apply HI.
  - intros o a Hact. rewrite audited_insert, orb_true_iff, bool_decide_eq_true.
    intros [[= <- <-]|Hold]; [by apply Ha | by eapply (inv_assigned d HI)].
  - intros o. rewrite audited_insert.
    change (rebatesOf o (setAudits (<[(oid, action) := detail]> (audits d)) d)) with (rebatesOf o d).
    pose proof (inv_rebates d HI o). destruct (bool_decide _), (audited o rebateApplied d); cbn in *; lia.
Qed.

Lemma sound_auditInsert oid action detail F :
  (∀ d, F d → assignedAction action → subscribed oid d) → sound (auditInsert oid action detail) F.
Proof.
  intros Ha t d Hd Hf. unfold auditInsert. destruct (audited oid action d); cbn [snd]; [split; [done | apply payGuar_refl]|].
  apply newAudit; [done | by apply Ha].
Qed.

Lemma sound_forceExpire oid F : sound (forceExpireTx oid) F.
Proof.
  intros t d Hd Hf. unfold forceExpireTx.
  pose proof (sound_orderUpdate oid (statusEQ OrderStatusPending) (SetStatus OrderStatusExpired) (λ _, True)
    ltac:(intros; by repeat split) ltac:(done) t d Hd I) as [H1 H2].
  destruct (orderUpdate _ _ _ t d) as [[n|e] d1]; cbn [snd] in *; [|split; [done | apply payGuar_refl]].
  destruct (n =? 0); cbn [snd]; [split; [done | apply payGuar_refl]|].
  pose proof (sound_auditInsert oid "ORDER_FORCE_EXPIRED" None (λ _, True) ltac:(intros ? _ []; discriminate) t d1 H1 I) as [H3 H4].
  destruct (auditInsert _ _ _ t d1) as [[u|e] d2]; cbn [snd] in *; [|split; [done | apply payGuar_refl]].
  split; [done | by eapply payGuar_trans].
Qed.

(** *** Codes and credits *)

(** The code [k] is written, with the credits [cs] that it paid. *)
Lemma codes_change d d' k r cs :
  payInv d → orders d' = orders d → audits d' = audits d → subs d' = subs d → rebates d' = rebates d →
  codes d' = <[k := r]> (codes d) → credits d' = credits d ++ cs → Forall (λ c, creditCode c = k) cs →
  RedeemCode.Code r = k → (isPayCode k → ∃ i o, orders d !! i = Some o ∧ RechargeCode o = k) →
  (∀ i o, orders d !! i = Some o → RechargeCode o = k → codeState o d') →
  (isPayCode k → used k d → 0 < RedeemCode.UsedCount r) →
  ((∃ c, codes d !! k = Some c ∧ RedeemCode.ID c = RedeemCode.ID r) ∧ nextCodeID d' = nextCodeID d ∨
   codes d !! k = None ∧ RedeemCode.ID r = nextCodeID d ∧ nextCodeID d' = nextCodeID d + 1) →
  (∀ id user, (id, user) ∈ usages d' →
     (id, user) ∈ usages d ∨ (id = RedeemCode.ID r ∧ (isPayCode k → 0 < RedeemCode.UsedCount r))) →
  payInv d' ∧ payGuar d d'.
Proof.
  intros HI Eo Ea Es Er Ec Ecr Hcs Hk Hpay Hstate Hused Hid Hus.
  assert (Hnext : nextCodeID d <= nextCodeID d' ∧ RedeemCode.ID r < nextCodeID d').
  { destruct Hid as [[(c & Hc & E) ->]|(_ & E & ->)]; [|lia]. pose proof (inv_ids d HI k c Hc). lia. }
  assert (Hother : ∀ k' c, codes d !! k' = Some c → k' ≠ k → RedeemCode.ID c ≠ RedeemCode.ID r).
  { intros k' c Hc Hne E. destruct Hid as [[(c0 & Hc0 & E0) _]|(_ & E0 & _)].
    - destruct Hne. apply (inv_id_inj d HI k' k c c0); [done..|congruence].
    - pose proof (inv_ids d HI k' c Hc). lia. }
  assert (HG : payGuar d d').
  { split; [rewrite ?Eo|intros k' Hk' (c & Hc & Hu)|by apply same_rows|by unfold audited; rewrite Ea].
    - intros i o Ho. exists o. split; [done | apply sameOrder_refl].
    - unfold used. rewrite Ec. destruct (decide (k' = k)) as [->|Hne].
      + exists r. rewrite lookup_insert_eq. split; [done | apply Hused; [done|by exists c]].
      + exists c. by rewrite lookup_insert_ne. }
  split; [|done]. split.
  - rewrite Eo. apply HI.
  - rewrite Eo. apply HI.
  - rewrite Ec. intros k' c [[<- <-]|[_ Hc]]%lookup_insert_Some; [done | by apply (inv_code_key d HI)].
  - rewrite Ec, Eo. intros i n Hi. destruct (decide (rechargeCodeOf i n = k)) as [E|Hne].
    + intros _. destruct Hpay as (j & o & Ho & Ek); [by exists i, n|]. exists o. split; [|congruence].
      destruct (inv_order d HI j o Ho) as (_ & Hj & m & Em). by rewrite (rechargeCodeOf_inj i j n m) by (done || congruence).
    + rewrite lookup_insert_ne by done. by apply (inv_pay_code d HI).
  - rewrite Ec, Ecr. intros c Hc Hp. destruct (decide (k = creditCode c)) as [E|Hne].
    + rewrite E, lookup_insert_eq. by eexists.
    + rewrite lookup_insert_ne by done. apply elem_of_app in Hc as [Hc|Hc]; [by apply (inv_credit_code d HI)|].
      rewrite Forall_forall in Hcs. destruct Hne; symmetry; exact (Hcs c Hc).
  - intros i o. rewrite Eo. intros Ho. destruct (decide (RechargeCode o = k)) as [E|Hne]; [by eapply Hstate|].
    pose proof (inv_order_code d HI i o Ho) as Hold. unfold codeState, creditsOf in *.
    assert (filter (λ c, creditCode c = RechargeCode o) cs = []) as Hnil.
    { clear -Hcs Hne. induction Hcs as [|c cs Hc _ IH]; [done|]. rewrite filter_cons_False; [done | congruence]. }
    by rewrite Ec, Ecr, lookup_insert_ne, filter_app, Hnil, app_nil_r by done.
  - by apply (done_mono d).
  - unfold audited, subscribed. rewrite Ea, Es. apply (inv_assigned d HI).
  - unfold sourceRows. rewrite Es. apply (inv_subs d HI).
  - rewrite Es. apply (inv_sub_ids d HI).
  - rewrite Es. apply (inv_sub_bound d HI).
  - rewrite Ec. intros k' c [[_ <-]|[_ Hc]]%lookup_insert_Some; [lia | pose proof (inv_ids d HI k' c Hc); lia].
  - rewrite Ec. intros k1 k2 c1 c2 [[<- <-]|[N1 H1]]%lookup_insert_Some [[<- <-]|[N2 H2]]%lookup_insert_Some E; [done|..].
    + symmetry in E. by destruct (Hother k2 c2 H2 (not_eq_sym N2)).
    + by destruct (Hother k1 c1 H1 (not_eq_sym N1)).
    + by apply (inv_id_inj d HI k1 k2 c1 c2).
  - rewrite Ec. intros id user Hin. destruct (Hus id user Hin) as [Hold|[-> Hnew]].
    + destruct (inv_usages d HI id user Hold) as [Hlt Hu]. split; [lia|].
      intros k' c [[<- <-]|[Hne Hc]]%lookup_insert_Some E Hp; [|by apply (Hu k')].
      destruct Hid as [[(c0 & Hc0 & E0) _]|(_ & E0 & _)]; [|lia]. apply Hused; [done|]. exists c0. split; [done|].
      apply (Hu k); [done | congruence | done].
    + split; [lia|]. intros k' c [[<- <-]|[Hne Hc]]%lookup_insert_Some E Hp; [by apply Hnew|]. by destruct (Hother k' c Hc (not_eq_sym Hne)).
  - unfold rebatesOf, audited. rewrite Er, Ea. apply (inv_rebates d HI).
Qed.

(** The order that a program has read. *)
Definition seen (o : PaymentOrder) (d : payDB) : Prop := ∃ o', orders d !! ID o = Some o' ∧ sameOrder o' o.

Lemma stable_seen o : stable (seen o).
Proof.
  intros d d' _ _ HG (o1 & Ho1 & S1). destruct (guar_orders _ _ HG _ _ Ho1) as (o2 & Ho2 & S2).
  exists o2. split; [done | by eapply sameOrder_trans].
Qed.

Lemma stable_subscribed oid : stable (subscribed oid).
Proof. intros d d' _ _ HG. apply (guar_subs _ _ HG). Qed.

Lemma seen_payCode o d : payInv d → seen o d → isPayCode (RechargeCode o).
Proof. intros HI (o' & Ho & _ & _ & _ & _ & <- & _). exact (order_payCode d _ _ HI Ho). Qed.

Lemma stable_used_seen (φ : Prop) o : stable (λ d, seen o d ∧ (φ → used (RechargeCode o) d)).
Proof.
  intros d d' HI HI' HG [Hs Hu]. split; [exact (stable_seen o d d' HI HI' HG Hs)|]. intros Hφ.
  apply (guar_used _ _ HG); [exact (seen_payCode o d HI Hs) | by apply Hu].
Qed.

(** The order of a code is unique. *)
Lemma code_order d i j o p :
  payInv d → orders d !! i = Some o → orders d !! j = Some p → RechargeCode o = RechargeCode p → i = j ∧ o = p.
Proof.
  intros HI Ho Hp E. destruct (inv_order d HI i o Ho) as (_ & Hi & n & En), (inv_order d HI j p Hp) as (_ & Hj & m & Em).
  assert (i = j) as -> by (apply (rechargeCodeOf_inj i j n m); congruence). split; [done | congruence].
Qed.

Lemma sound_createCode o c F :
  (∀ d, F d → seen o d) → (isPayCode (RechargeCode o) → RedeemCode.Code c = RechargeCode o) →
  RedeemCode.Type_ c = RedeemCode.RedeemTypeBalance → RedeemCode.Value c = Amount o → RedeemCode.MaxUses c = 1 →
  RedeemCode.UsedCount c = 0 → RedeemCode.ExpiresAt c = None → RedeemCode.Status c = RedeemCode.StatusUnused →
  sound (createCodeTx c) F.
Proof.
  intros HF Hc Ht Hv Hm Hu He Hst t d HI Hf. specialize (Hc (seen_payCode o d HI (HF d Hf))).
  unfold createCodeTx. destruct (bool_decide _) eqn:E; zbool; cbn [snd]; [split; [done | apply payGuar_refl]|].
  rewrite <- eq_None_not_Some, Hc in E. destruct (HF d Hf) as (o' & Ho & S). pose proof S as (S1 & S2 & S3 & S4 & S5 & _).
  apply (codes_change d _ (RechargeCode o) (RedeemCode.setID (nextCodeID d) c) []);
    cbn [orders audits subs rebates codes credits setCodes setNextCodeID RedeemCode.setID RedeemCode.Code];
    rewrite ?Hc, ?app_nil_r; try done.
  - intros _. by exists (ID o), o'.
  - intros j p Hp Ek. destruct (code_order d j (ID o) p o') as [-> ->]; [done..|congruence|].
    pose proof (inv_order_code d HI _ _ Ho) as Hold. unfold codeState in *. rewrite S5 in *. rewrite E in Hold.
    cbn [codes credits setCodes setNextCodeID creditsOf]. rewrite lookup_insert_eq. cbn. rewrite Ht, Hv, Hm, Hu, He, Hst, S4.
    split; [done|]. split; [done|]. split; [done|]. split; [done|]. by left.
  - intros _ (c' & Hc' & _). congruence.
  - by right.
  - by left.
Qed.

(** *** Subscriptions *)

(** Appending a row: a row of an order only where the order has none. *)
Lemma newSub d r :
  payInv d → subID r = Z.of_nat (length (subs d)) + 1 →
  (∀ oid, subSourceOrderID r = Some oid → subDeleted r = false → sourceRows oid d = []) →
  payInv (setSubs (subs d ++ [r]) d) ∧ payGuar d (setSubs (subs d ++ [r]) d).
Proof.
  intros HI Hid Hr.
  assert (HG : payGuar d (setSubs (subs d ++ [r]) d)).
  { split; [intros i o Ho; exists o; split; [done | apply sameOrder_refl] | done | |].
    - intros r' Hin. exists r'. split; [apply elem_of_app; by left | done].
    - done. }
  split; [|done]. split; try apply HI.
  - by apply (done_mono d).
  - intros oid action Ha Hau. apply (guar_subs _ _ HG). exact (inv_assigned d HI oid action Ha Hau).
  - intros oid. pose proof (inv_subs d HI oid) as Hold. unfold sourceRows in *. cbn [subs setSubs]. rewrite filter_app, length_app.
    destruct (sourceIs oid r) eqn:E; [|rewrite (filter_cons_False _ r []) by congruence; cbn; lia].
    rewrite filter_cons_True by done. unfold sourceIs in E. apply andb_true_iff in E as [E1%bool_decide_eq_true E2%negb_true_iff].
    by rewrite (Hr oid E1 E2).
  - cbn [subs setSubs]. rewrite fmap_app. apply NoDup_app. split; [apply (inv_sub_ids d HI)|]. split; [|apply NoDup_singleton].
    intros i (x & -> & Hx)%list_elem_of_fmap Hi%list_elem_of_singleton. pose proof (inv_sub_bound d HI x Hx). lia.
  - cbn [subs setSubs]. intros x [Hx|Hx%list_elem_of_singleton]%elem_of_app; rewrite length_app; cbn [length];
      [pose proof (inv_sub_bound d HI x Hx); lia | subst x; lia].
Qed.

Lemma findSource_Some source d r : findSource source d = Some r → ∃ oid, source = Some oid ∧ r ∈ subs d ∧ subSourceOrderID r = Some oid.
Proof.
  unfold findSource. destruct source as [oid|]; [|done]. destruct (oid <=? 0); [done|]. intros H.
  apply oldest_from_spec in H as ([?|Hin] & _); [done|]. unfold sourceRows in Hin.
  apply list_elem_of_filter in Hin as [Hs Hin]. exists oid. split; [done|]. split; [done|].
  unfold sourceIs in Hs. by apply andb_true_iff in Hs as [?%bool_decide_eq_true _].
Qed.

Lemma findSource_None oid d : 0 < oid → findSource (Some oid) d = None → sourceRows oid d = [].
Proof. intros Hp. unfold findSource. destruct (oid <=? 0) eqn:E; zbool; [lia|]. by intros [_ ?]%oldest_from_None. Qed.

Lemma assign_unlocked s input template now d :
  (∀ oid, SourceOrderID input = Some oid → sourceRows oid d = []) → payInv d →
  let d' := (assignOrExtendSubscriptionUnlocked s input template now d).2 in
  payInv d' ∧ payGuar d d' ∧ ∀ oid, SourceOrderID input = Some oid → subscribed oid d'.
Proof.
  intros Hs HI. unfold assignOrExtendSubscriptionUnlocked. destruct (match latestSubscription _ _ _ with Some _ => _ | None => _ end) as [st q].
  cbn zeta. cbn [snd]. match goal with |- payInv (setSubs (_ ++ [?r]) _) ∧ _ => set (row := r) end.
  destruct (newSub d row) as [H1 H2]; [done | done | by intros oid ? _; apply Hs|]. split; [done|]. split; [done|].
  intros oid Ho. exists row. split; [apply elem_of_app; right; by constructor | exact Ho].
Qed.

Lemma sound_assignTx s input template F :
  (∀ d oid, payInv d → F d → SourceOrderID input = Some oid → 0 < oid) → sound (assignTx s input template) F.
Proof.
  intros HF t d HI Hf. unfold assignTx. destruct (negb _); [split; [done | apply payGuar_refl]|].
  destruct (findSource _ d) eqn:E; [split; [done | apply payGuar_refl]|].
  pose proof (assign_unlocked s input template t d) as Ha. destruct (assignOrExtendSubscriptionUnlocked _ _ _ _ _) as [[row q] d'].
  cbn in *. destruct Ha as (H1 & H2 & _); [|done..]. intros oid Eo. rewrite Eo in E. apply findSource_None; [by apply (HF d) | done].
Qed.

Lemma tells_assignTx s input template oid F :
  SourceOrderID input = Some oid → (∀ d, payInv d → F d → 0 < oid) →
  tells (assignTx s input template) F (λ r d, match r with Ok _ => subscribed oid d | Err _ => True end).
Proof.
  intros Es HF t d x HI Hf. unfold assignTx. destruct (negb _); [by intros [= <-]|].
  destruct (findSource _ d) as [existing|] eqn:E.
  - intros [= <-]. cbn. apply findSource_Some in E as (oid' & E1 & E2 & E3). exists existing. split; [done | congruence].
  - pose proof (assign_unlocked s input template t d) as Ha. destruct (assignOrExtendSubscriptionUnlocked _ _ _ _ _) as [[row q] d'].
    cbn in *. intros [= <-]. apply Ha; [|done|done].
    intros oid' Eo. assert (oid' = oid) as -> by congruence. rewrite Es in E. apply findSource_None; [|done]. exact (HF d HI Hf).
Qed.

Lemma assign_keeps s input template now d :
  let d' := (assignTx s input template now d).2 in orders d' = orders d ∧ codes d' = codes d ∧ credits d' = credits d ∧ usages d' = usages d ∧ nextCodeID d' = nextCodeID d.
Proof.
  unfold assignTx, assignOrExtendSubscriptionUnlocked. destruct (negb _); [done|]. destruct (findSource _ d); [done|].
  by destruct (match latestSubscription _ _ _ with Some _ => _ | None => _ end).
Qed.

(** *** Rebates *)

(** A rebate without an order. *)
Lemma newRebate d user rebate : payInv d → payInv (addRebate (None, user, rebate) d) ∧ payGuar d (addRebate (None, user, rebate) d).
Proof. intros HI. split; [|by apply payGuar_same]. split; apply HI. Qed.

Lemma sound_rebateTx s o base F : sound (rebateTx s o base) F.
Proof.
  intros t d HI _. unfold rebateTx. destruct (audited (ID o) rebateApplied d) eqn:E1; [split; [done | apply payGuar_refl]|].
  cbn [orb]. destruct (audited _ rebateSkipped d); [split; [done | apply payGuar_refl]|].
  destruct (AccrueInviteRebate _ _ _ _ _) as [rebate|e]; [|split; [done | apply payGuar_refl]].
  assert (Hn : ∀ a, a = rebateSkipped ∨ a = rebateApplied → ¬ assignedAction a) by (intros a [-> | ->] [?|?]; discriminate).
  destruct (f64_le rebate f64_zero); cbn [snd].
  - apply newAudit; [done | intros H; destruct (Hn rebateSkipped); [by left | done]].
  - destruct (newAudit d (ID o) rebateApplied None HI) as [H1 H2]; [intros H; destruct (Hn rebateApplied); [by right | done]|].
    split; [|by eapply payGuar_trans; [exact H2 | apply payGuar_same]]. split; try apply H1.
    intros oid. pose proof (inv_rebates _ H1 oid) as Hr. unfold rebatesOf in *.
    set (d1 := setAudits _ d) in *. cbn [rebates addRebate].
    destruct (decide (ID o = oid)) as [Heq|Hne].
    + subst oid. rewrite filter_cons_True by done. assert (filter (λ r : option Z * Z * float64, r.1.1 = Some (ID o)) (rebates d1) = []) as ->.
      { pose proof (inv_rebates d HI (ID o)) as Hd. rewrite E1 in Hd. apply length_zero_iff_nil. unfold rebatesOf in Hd. cbn. lia. }
      change (audited (ID o) rebateApplied (addRebate _ d1)) with (audited (ID o) rebateApplied d1). unfold d1.
      rewrite audited_insert, bool_decide_eq_true_2 by done. done.
    + rewrite filter_cons_False by (cbn; congruence). done.
Qed.

(** *** Redemptions *)

(** The code of an order with remaining uses is unused. *)
Lemma remaining_unused d o c :
  codeState o d → codes d !! RechargeCode o = Some c → RedeemCode.HasRemainingUses c = true →
  RedeemCode.Type_ c = RedeemCode.RedeemTypeBalance ∧ RedeemCode.Value c = Amount o ∧ RedeemCode.MaxUses c = 1 ∧
  RedeemCode.ExpiresAt c = None ∧ RedeemCode.UsedCount c = 0 ∧ RedeemCode.Status c = RedeemCode.StatusUnused ∧
  creditsOf (RechargeCode o) d = [].
Proof.
  unfold codeState. intros Hs Hc. rewrite Hc in Hs. destruct Hs as (H1 & H2 & H3 & H4 & Hs).
  unfold RedeemCode.HasRemainingUses, RedeemCode.HasUnlimitedUses, RedeemCode.maxUsesOrDefault. rewrite H3. cbn [Z.ltb Z.compare Z.eqb].
  intros ?%Z.ltb_lt. destruct Hs as [(? & ? & ?)|[??]]; [done | lia].
Qed.

Lemma remaining_not_used d k c :
  payInv d → isPayCode k → codes d !! k = Some c → RedeemCode.HasRemainingUses c = true → ¬ used k d.
Proof.
  intros HI (i & n & Hi & ->) Hc Hr (c' & Hc' & Hu). destruct (inv_pay_code d HI i n Hi) as (o & Ho & E); [by eexists|].
  destruct (remaining_unused d o c) as (_ & _ & _ & _ & H0 & _); [by eapply inv_order_code | by rewrite E | done|].
  assert (c' = c) as -> by congruence. lia.
Qed.

(** Who redeems the code of an order: its owner, or somebody who knows the code. *)
Definition mayRedeem (user : Z) (code : string) (d : payDB) : Prop :=
  ∀ i o, orders d !! i = Some o → RechargeCode o = code → user = UserID o ∨ knows user code.

(** The status of a single-use code after its use. *)
Lemma useCode_status user now c :
  RedeemCode.MaxUses c = 1 → RedeemCode.UsedCount c = 0 → RedeemCode.Status c = RedeemCode.StatusUnused →
  RedeemCode.Status (RedeemCode.useCode user now c) = RedeemCode.StatusUsed.
Proof.
  destruct c. cbn [RedeemCode.MaxUses RedeemCode.UsedCount RedeemCode.Status]. by intros -> -> ->.
Qed.

(** A use of the code [k] after the rows [cs] were credited for it. *)
Lemma useCode_change d d1 k c user now cs :
  payInv d → codes d !! k = Some c → RedeemCode.HasRemainingUses c = true →
  orders d1 = orders d → audits d1 = audits d → subs d1 = subs d → rebates d1 = rebates d → codes d1 = codes d →
  usages d1 = usages d → nextCodeID d1 = nextCodeID d → credits d1 = credits d ++ cs → Forall (λ x, creditCode x = k) cs →
  (∀ i o, orders d !! i = Some o → RechargeCode o = k →
     ∃ u, cs = [BalanceCredit u k (Amount o)] ∧ (u = UserID o ∨ knows u k)) →
  let d' := setCodes (<[k := RedeemCode.useCode user now c]> (codes d1)) (setUsages ({[(RedeemCode.ID c, user)]} ∪ usages d1) d1) in
  payInv d' ∧ payGuar d d' ∧ (isPayCode k → used k d').
Proof.
  intros HI Hc Hr Eo Ea Es Er Ec Eu En Ecr Hcs Hpay d'.
  assert (Huse : ∀ o i, orders d !! i = Some o → RechargeCode o = k → RedeemCode.UsedCount (RedeemCode.useCode user now c) = 1).
  { intros o i Ho Ek. destruct (remaining_unused d o c) as (_ & _ & _ & _ & H0 & _); [by eapply inv_order_code | by rewrite Ek | done|].
    cbn. by rewrite H0. }
  assert (Hord : isPayCode k → ∃ i o, orders d !! i = Some o ∧ RechargeCode o = k).
  { intros (i & n & Hi & ->). destruct (inv_pay_code d HI i n Hi) as (o & Ho & E); [by eexists | by exists i, o]. }
  destruct (codes_change d d' k (RedeemCode.useCode user now c) cs) as [H1 H2]; try done.
  - by rewrite <- Ec.
  - exact (inv_code_key d HI k c Hc).
  - intros i o Ho Ek. pose proof (inv_order_code d HI i o Ho) as Hs.
    destruct (remaining_unused d o c) as (R1 & R2 & R3 & R4 & R5 & R6 & R7); [done | by rewrite Ek | done|].
    destruct (Hpay i o Ho Ek) as (u & -> & Hu). unfold codeState, creditsOf in *.
    change (codes d') with (<[k := RedeemCode.useCode user now c]> (codes d1)). change (credits d') with (credits d1).
    rewrite Ek, lookup_insert_eq, Ecr, filter_app, <- Ek, R7. rewrite (Huse o i Ho Ek).
    split; [done|]. split; [done|]. split; [done|]. split; [done|]. right. split; [done|].
    split; [by apply useCode_status|]. exists u. split; [|by rewrite Ek].
    rewrite filter_cons_True by (cbn; congruence). by rewrite Ek.
  - intros Hk Hu. by destruct (remaining_not_used d k c HI Hk Hc Hr).
  - left. split; [by exists c | exact En].
  - intros id u'. change (usages d') with ({[(RedeemCode.ID c, user)]} ∪ usages d1).
    rewrite elem_of_union, elem_of_singleton, Eu. intros [[= -> ->]|?]; [right | by left]. split; [done|].
    intros Hk. destruct (Hord Hk) as (i & o & Ho & Ek). rewrite (Huse o i Ho Ek). lia.
  - split; [done|]. split; [done|]. intros Hk. destruct (Hord Hk) as (i & o & Ho & Ek).
    exists (RedeemCode.useCode user now c). split; [apply lookup_insert_eq | rewrite (Huse o i Ho Ek); lia].
Qed.

Lemma redeemTx_inv s user code F t d :
  payInv d → F d → (∀ d, payInv d → F d → mayRedeem user code d) →
  let '(r, d') := redeemTx s user code t d in
  payInv d' ∧ payGuar d d' ∧ ∀ c, r = Ok (Ok c) → isPayCode code → used code d'.
Proof.
  intros HI Hf Hmay. unfold redeemTx.
  assert (Hid : ∀ r : result dbError (result goError RedeemCode.RedeemCode), (∀ c, r ≠ Ok (Ok c)) →
      payInv d ∧ payGuar d d ∧ ∀ c, r = Ok (Ok c) → isPayCode code → used code d).
  { intros r Hr. split; [done|]. split; [apply payGuar_refl|]. intros c E. by destruct (Hr c). }
  destruct (codes d !! code) as [c|] eqn:Ec; [|by apply Hid].
  destruct (validateRedeemCodeForUser c user t d) eqn:Ev; [by apply Hid|].
  assert (Hr : RedeemCode.HasRemainingUses c = true).
  { revert Ev. unfold validateRedeemCodeForUser. repeat case_match; try done. by destruct (RedeemCode.HasRemainingUses c). }
  destruct (unsupportedRedeemType c) eqn:Eu; [by apply Hid|]. destruct (negb _); [by apply Hid|].
  assert (Hpaytype : ∀ i o, orders d !! i = Some o → RechargeCode o = code → RedeemCode.Type_ c = RedeemCode.RedeemTypeBalance ∧ RedeemCode.Value c = Amount o).
  { intros i o Ho Ek. destruct (remaining_unused d o c) as (R1 & R2 & _); [by eapply inv_order_code | by rewrite Ek | done | done]. }
  pose proof (inv_code_key d HI code c Ec) as Ek. unfold grantCode.
  destruct (eqs (RedeemCode.Type_ c) RedeemCode.RedeemTypeBalance) eqn:E1.
  - pose proof (usersOnly_adjustBalance s user (RedeemCode.Value c) t d) as Hu.
    destruct (adjustBalance _ _ _ t d) as [[x|e] d1]; cbn [snd orAbort mbind result_bind] in *; [|by apply Hid].
    destruct Hu as [v ->]. rewrite Ek.
    destruct (useCode_change d (addCredit (BalanceCredit user code (RedeemCode.Value c)) (setUsers v d)) code c user t
      [BalanceCredit user code (RedeemCode.Value c)]) as (H1 & H2 & H3); try done.
    + by constructor.
    + intros i o Ho Eo. exists user. split; [by rewrite (proj2 (Hpaytype i o Ho Eo)) | by apply (Hmay d HI Hf i)].
  - assert (Hno : ∀ i o, orders d !! i = Some o → RechargeCode o = code → False).
    { intros i o Ho Eo. destruct (Hpaytype i o Ho Eo) as [R _]. rewrite R in E1. by vm_compute in E1. }
    destruct (eqs (RedeemCode.Type_ c) RedeemCode.RedeemTypeConcurrency) eqn:E2.
    + pose proof (usersOnly_adjustConcurrency user (f64_trunc (RedeemCode.Value c)) t d) as Hu.
      destruct (adjustConcurrency _ _ t d) as [[x|e] d1]; cbn [snd orAbort mbind result_bind] in *; [|by apply Hid].
      destruct Hu as [v ->]. rewrite Ek.
      destruct (useCode_change d (addCredit (ConcurrencyCredit user code (f64_trunc (RedeemCode.Value c))) (setUsers v d)) code c user t
        [ConcurrencyCredit user code (f64_trunc (RedeemCode.Value c))]) as (H1 & H2 & H3); try done.
      * by constructor.
      * intros i o Ho Eo. by destruct (Hno i o).
    + set (input := mkAssignInput _ _ _ _ _ _ _ _). destruct (resolveGrantPlanTemplate s input) as [template|e] eqn:Et; cbn [mbind result_bind]; [|by apply Hid].
      pose proof (sound_assignTx s input template (λ _, True) ltac:(done) t d HI I) as Ha.
      pose proof (assign_keeps s input template t d) as Hkeep.
      destruct (assignTx s input template t d) as [[[x|e]|e] d1]; [|by apply Hid..]. cbn in Ha, Hkeep. destruct Ha as [H1 H2], Hkeep as (K1 & K2 & K3 & K4 & K5).
      destruct (useCode_change d1 d1 code c user t []) as (U1 & U2 & U3); try done.
      * by rewrite K2.
      * by rewrite app_nil_r.
      * rewrite K1. intros i o Ho Eo. by destruct (Hno i o).
      * split; [done|]. split; [by eapply payGuar_trans|]. by intros ? _.
Qed.

(** *** New orders *)

Lemma foldr_max_fresh (l : list Z) x : x ∈ l → x <= foldr Z.max 0 l.
Proof. induction l as [|y l IH]; [by intros ?%not_elem_of_nil|]. cbn. intros [->|Hin]%elem_of_cons; [lia|]. specialize (IH Hin). lia. Qed.

Lemma newOrder_inv req expiresAt t d :
  payInv d → (∀ i o, orders d !! i = Some o → OutTradeNo o = reqOutTradeNo req → reqOutTradeNo req = ""%string) → let id := 1 + foldr Z.max 0 (map fst (map_to_list (orders d))) in
  payInv (setOrders (<[id := newOrder req id expiresAt t]> (orders d)) d) ∧
  payGuar d (setOrders (<[id := newOrder req id expiresAt t]> (orders d)) d).
Proof.
  intros HI Hnum id. set (o := newOrder req id expiresAt t).
  assert (Hbound : ∀ i p, orders d !! i = Some p → i < id).
  { intros i p Hp. enough (i <= foldr Z.max 0 (map fst (map_to_list (orders d)))) by lia.
    apply foldr_max_fresh. apply list_elem_of_fmap. exists (i, p). split; [done | by apply elem_of_map_to_list]. }
  assert (Hpos : 0 < id). { clear. unfold id. generalize (map fst (map_to_list (orders d))). induction l; cbn in *; lia. }
  assert (Hfresh : orders d !! id = None).
  { destruct (orders d !! id) as [p|] eqn:E; [|done]. specialize (Hbound _ _ E). lia. }
  assert (Hrows : ∀ j p, <[id := o]> (orders d) !! j = Some p → (j = id ∧ p = o) ∨ (j ≠ id ∧ orders d !! j = Some p)).
  { intros j p. rewrite lookup_insert_Some. intros [[-> ->]|[? ?]]; [by left | right; done]. }
  assert (Hold : ∀ j p, orders d !! j = Some p → <[id := o]> (orders d) !! j = Some p).
  { intros j p Hp. rewrite lookup_insert_ne; [done | intros <-; congruence]. }
  split.
  - split; cbn [orders audits codes credits subs rebates setOrders]; try apply HI.
    + intros j p [[-> ->]|[_ Hp]]%Hrows; [|by apply (inv_order d HI)]. split; [done|]. split; [done|]. by eexists.
    + intros j1 j2 p1 p2 [[-> ->]|[N1 P1]]%Hrows [[-> ->]|[N2 P2]]%Hrows E Hne; [done|..].
      * destruct Hne. by apply (Hnum j2 p2).
      * destruct Hne. rewrite E. apply (Hnum j1 p1); [done | exact E].
      * by apply (inv_number d HI j1 j2 p1 p2).
    + intros j m Hj Hc. destruct (inv_pay_code d HI j m Hj Hc) as (p & Hp & E). exists p. split; [by apply Hold | done].
    + intros j p [[-> ->]|[_ Hp]]%Hrows; [|exact (inv_order_code d HI j p Hp)].
      assert (codes d !! RechargeCode o = None) as Hc.
      { apply eq_None_not_Some. intros Hc. destruct (inv_pay_code d HI id (UnixNano t) Hpos Hc) as (p & Hp & _). congruence. }
      unfold codeState. cbn [codes setOrders]. rewrite Hc. unfold creditsOf. cbn [credits setOrders].
      destruct (filter _ (credits d)) as [|c l] eqn:E; [done|].
      assert (c ∈ c :: l) as Hin by constructor. rewrite <- E in Hin. apply list_elem_of_filter in Hin as [Hcode Hin].
      destruct (inv_credit_code d HI c Hin) as [x Hx]; [by exists id, (UnixNano t); rewrite Hcode|]. congruence.
    + intros j p [[-> ->]|[_ Hp]]%Hrows Hg; [by vm_compute in Hg | exact (inv_done d HI j p Hp Hg)].
  - split; [|done|by apply same_rows|done]. intros i p Hp. exists p. split; [by apply Hold | apply sameOrder_refl].
Qed.

Lemma sound_insertOrder req expiresAt F : sound (insertOrder req expiresAt) F.
Proof.
  intros t d HI _. unfold insertOrder. destruct (_ && _) eqn:E; [split; [done | apply payGuar_refl]|].
  apply newOrder_inv; [done|]. intros i o Ho En. apply andb_false_iff in E as [E%negb_false_iff|E]; [by apply eqs_true in E|].
  apply bool_decide_eq_false in E. destruct E. by exists i, o.
Qed.

(** *** Changes by others *)

(** A change of subscriptions and API keys that neither creates, reassigns nor
    restores a subscription. *)
Definition keptRow (r r' : SubscriptionRow) : Prop :=
  subID r' = subID r ∧ subSourceOrderID r' = subSourceOrderID r ∧ (subDeleted r = true → subDeleted r' = true).

Definition edited (d d' : payDB) : Prop :=
  ∃ l v, d' = setApiKeys v (setSubs l d) ∧ Forall2 keptRow (subs d) l.

Lemma edited_refl d : edited d d.
Proof. exists (subs d), (apiKeys d). split; [by destruct d|]. induction (subs d) as [|x l IH]; constructor; [by repeat split | exact IH]. Qed.

Lemma edited_trans d1 d2 d3 : edited d1 d2 → edited d2 d3 → edited d1 d3.
Proof.
  intros (l1 & v1 & -> & H1) (l2 & v2 & -> & H2). exists l2, v2. split; [done|]. cbn [subs setApiKeys setSubs] in H2.
  revert l2 H2. induction H1 as [|r r' k k' (I1 & E1 & D1) _ IH]; intros l2 H2; inversion H2 as [|? r2 ? k2 (I2 & E2 & D2) H2']; subst; constructor.
  - split; [congruence|]. split; [congruence | auto].
  - by apply IH.
Qed.

Lemma edited_map d g : (∀ r, r ∈ subs d → keptRow r (g r)) → edited d (setSubs (map g (subs d)) d).
Proof.
  intros Hg. exists (map g (subs d)), (apiKeys d). split; [done|]. revert Hg. induction (subs d) as [|r l IH]; intros Hg; cbn; constructor.
  - apply Hg. constructor.
  - apply IH. intros x Hx. apply Hg. by constructor.
Qed.

Lemma edited_inv d d' : payInv d → edited d d' → payInv d' ∧ payGuar d d'.
Proof.
  intros HI (l & v & -> & Hl). set (d' := setApiKeys v (setSubs l d)). assert (HG : payGuar d d').
  { split; [intros i o Ho; exists o; split; [done | apply sameOrder_refl] | done | |done].
    intros r Hin. apply list_elem_of_lookup_1 in Hin as [j Hj].
    destruct (Forall2_lookup_l _ _ _ _ _ Hl Hj) as (r' & Hj' & Ei & Es & _). exists r'.
    split; [by eapply list_elem_of_lookup_2 | done]. }
  split; [|done]. split; try apply HI.
  - by apply (done_mono d d').
  - intros oid action Ha Hau. apply (guar_subs _ _ HG). exact (inv_assigned d HI oid action Ha Hau).
  - intros oid. etransitivity; [|exact (inv_subs d HI oid)]. unfold sourceRows. cbn [subs setSubs setApiKeys d']. clear HG HI d'.
    induction Hl as [|r r' k k' (_ & Es & Hd) _ IH]; [done|]. assert (sourceIs oid r' = true → sourceIs oid r = true) as Hi.
    { unfold sourceIs. rewrite Es. destruct (subDeleted r); [by rewrite Hd, andb_false_r | by rewrite andb_true_r; intros [-> _]%andb_true_iff]. }
    rewrite !filter_cons. repeat case_decide; cbn [length]; lia || tauto.
  - assert (E : subID <$> l = subID <$> subs d); [|cbn [subs setSubs setApiKeys d']; rewrite E; apply (inv_sub_ids d HI)].
    clear HG HI d'. induction Hl as [|r r' k k' (Ei & _) _ IH]; [done|]. by rewrite !fmap_cons, Ei, IH.
  - cbn [subs setSubs setApiKeys d']. intros r' Hin. apply list_elem_of_lookup_1 in Hin as [j Hj].
    destruct (Forall2_lookup_r _ _ _ _ _ Hl Hj) as (r & Hj' & Ei & _). rewrite Ei, <- (Forall2_length _ _ _ Hl).
    apply (inv_sub_bound d HI). by eapply list_elem_of_lookup_2.
Qed.

(** Administrators and other services change users, other codes and
    subscriptions, move orders between the statuses (but grant none), and write
    other audit entries; they do not edit the code of an order, restore a deleted
    subscription or delete audit entries. *)
Inductive outside (t : Time) (d : payDB) : payDB → Prop :=
  | out_users v : outside t d (setUsers v d)
  | out_keys v : outside t d (setApiKeys v d)
  | out_code_new r :
      ¬ isPayCode (RedeemCode.Code r) → codes d !! RedeemCode.Code r = None → RedeemCode.ID r = nextCodeID d →
      outside t d (setNextCodeID (nextCodeID d + 1) (setCodes (<[RedeemCode.Code r := r]> (codes d)) d))
  | out_code_edit r r' :
      ¬ isPayCode (RedeemCode.Code r) → codes d !! RedeemCode.Code r = Some r' → RedeemCode.ID r' = RedeemCode.ID r →
      outside t d (setCodes (<[RedeemCode.Code r := r]> (codes d)) d)
  | out_code_delete k : ¬ isPayCode k → outside t d (setCodes (delete k (codes d)) d)
  | out_sub_new r :
      subSourceOrderID r = None → subID r = Z.of_nat (length (subs d)) + 1 → outside t d (setSubs (subs d ++ [r]) d)
  | out_subs d' : edited d d' → outside t d d'
  | out_order i o o' :
      orders d !! i = Some o → sameOrder o' o → (granted (Status o') = true → granted (Status o) = true) →
      outside t d (setOrders (<[i := o']> (orders d)) d)
  | out_audit oid action detail :
      ¬ assignedAction action → outside t d (setAudits (<[(oid, action) := detail]> (audits d)) d).

Lemma deleteCode_inv d k : payInv d → ¬ isPayCode k → payInv (setCodes (delete k (codes d)) d) ∧ payGuar d (setCodes (delete k (codes d)) d).
Proof.
  intros HI Hk. assert (Hne : ∀ k', isPayCode k' → delete k (codes d) !! k' = codes d !! k').
  { intros k' Hk'. apply lookup_delete_ne. by intros <-. }
  assert (HG : payGuar d (setCodes (delete k (codes d)) d)).
  { split; [intros i o Ho; exists o; split; [done | apply sameOrder_refl] | | by apply same_rows | done].
    intros k' Hk' (c & Hc & Hu). exists c. cbn. by rewrite Hne. }
  split; [|done]. split; cbn [orders audits codes credits subs rebates setCodes]; try apply HI.
  - intros k' c [_ Hc]%lookup_delete_Some. by apply (inv_code_key d HI).
  - intros i n Hi. rewrite Hne by (by exists i, n). by apply (inv_pay_code d HI).
  - intros c Hc Hp. rewrite Hne by done. by apply (inv_credit_code d HI).
  - intros i o Ho. pose proof (inv_order_code d HI i o Ho) as Hs. unfold codeState in *. cbn [codes setCodes].
    by rewrite Hne by (by eapply order_payCode).
  - by apply (done_mono d (setCodes (delete k (codes d)) d)).
  - intros k' c [_ Hc]%lookup_delete_Some. by apply (inv_ids d HI k').
  - intros k1 k2 c1 c2 [_ Hc1]%lookup_delete_Some [_ Hc2]%lookup_delete_Some. by apply (inv_id_inj d HI).
  - intros id user Hin. destruct (inv_usages d HI id user Hin) as [Hlt Hu]. split; [done|].
    intros k' c [_ Hc]%lookup_delete_Some. by apply (Hu k').
Qed.

Lemma outside_sound t d d' : payInv d → outside t d d' → payInv d' ∧ payGuar d d'.
Proof.
  intros HI [v | v | r Hr Hnone Hid | r r' Hr Hsome Hid | k Hk | r Hr Hid | e Hl | i o o' Ho Hs Hg | oid action detail Ha].
  - split; [|by apply payGuar_same]. split; apply HI.
  - split; [|by apply payGuar_same]. split; apply HI.
  - apply (codes_change d _ (RedeemCode.Code r) r []); try done.
    + by rewrite app_nil_r.
    + intros i o Ho E. destruct Hr. rewrite <- E. exact (order_payCode d i o HI Ho).
    + by right.
    + by left.
  - apply (codes_change d _ (RedeemCode.Code r) r []); try done.
    + by rewrite app_nil_r.
    + intros i o Ho E. destruct Hr. rewrite <- E. exact (order_payCode d i o HI Ho).
    + left. split; [by exists r' | done].
    + by left.
  - by apply deleteCode_inv.
  - apply newSub; [done | done|]. intros oid E. congruence.
  - by apply edited_inv.
  - apply (replaceOrder d i o); [done..|]. intros Hg'. apply (sameOrder_delivered o); [done|]. apply (inv_done d HI i); auto.
  - apply newAudit; [done | by intros ?%Ha].
Qed.
End safety.
