(* ===== verification/PaymentSafety.v ===== *)
(** * Every payment program keeps the invariant

    Notifications, retries, cancellations, creations, reconciliation and
    redemptions are safe programs of [Transactions] for the invariant of
    [PaymentInvariant]; so every interleaving of them, with broken connections,
    crashes and the changes of others, keeps it. *)

From S2P Require Import Prelude GoRuntime Domain AppErrors Transactions PaymentOrder PaymentDB PaymentGrants PaymentFulfillment PaymentLifecycle PaymentInvariant.
From S2P Require RedeemCode.
#[local] Open Scope Z_scope.

Section programs.
Context (knows : Z → string → Prop).
Context (s : paymentService) `{UnicodeCase} `{UnicodeFold}.

Abbreviation payInv := (payInv knows).
Abbreviation stable := (stable payInv payGuar).
Abbreviation sound := (sound payInv payGuar).
Abbreviation tells := (tells payInv).
Abbreviation safe := (safe payInv payGuar payGuar).
Abbreviation yields := (yields payInv payGuar payGuar).
Abbreviation harmless := (harmless payInv payGuar payGuar).

(** A run alone keeps the invariant and the guarantee. *)
Lemma exec_keeps {A} t (p : P A) d : payInv d → harmless p → payInv (exec t p d).2 ∧ payGuar d (exec t p d).2.
Proof. intros HI Hp. apply (exec_guar _ _ payGuar_refl payGuar_trans t p d _ _ HI I (stable_True _ _) Hp). Qed.

(** *** Updates that grant nothing *)

Definition quiet (set : PaymentOrder → PaymentOrder) : Prop :=
  ∀ row, sameOrder (set row) row ∧ (granted (Status (set row)) = true → granted (Status row) = true).

Lemma quiet_compose f g : quiet f → quiet g → quiet (λ row, f (g row)).
Proof.
  intros Hf Hg row. destruct (Hf (g row)) as [F1 F2], (Hg row) as [G1 G2]. split; [by eapply sameOrder_trans | auto].
Qed.

Lemma quiet_id : quiet (λ row, row).
Proof. intros row. split; [apply sameOrder_refl | done]. Qed.

Lemma quiet_if (b : bool) f g : quiet f → quiet g → quiet (λ row, if b then f row else g row).
Proof. by destruct b. Qed.

Lemma quiet_status v : granted v = false → quiet (SetStatus v).
Proof. intros Hv row. split; [by repeat split|]. change (Status (SetStatus v row)) with v. by rewrite Hv. Qed.

Lemma quiet_setTradeNo v : quiet (setTradeNo v).
Proof. intros row. unfold setTradeNo. case_match; [apply quiet_id | by repeat split]. Qed.

Lemma quiet_setInvoice m : quiet (setInvoice m).
Proof. intros row. unfold setInvoice. cbv zeta. repeat case_match; by repeat split. Qed.

Lemma quiet_nillable {A} (f : A → PaymentOrder → PaymentOrder) v : (∀ a, quiet (f a)) → quiet (setNillable f v).
Proof. intros Hf. destruct v; [apply Hf | apply quiet_id]. Qed.

Lemma sound_quietUpdate oid cond set F : quiet set → sound (orderUpdate oid cond set) F.
Proof.
  intros Hq. apply sound_orderUpdate; [intros row; apply Hq|]. intros t d row HI _ Ho _ Hg.
  apply (inv_done knows d HI oid); [done|]. by apply Hq in Hg.
Qed.

Lemma sound_quietUpdateOne oid set F : quiet set → sound (orderUpdateOne oid set) F.
Proof.
  intros Hq. apply sound_orderUpdateOne; [intros row; apply Hq|]. intros t d row HI _ Ho Hg.
  apply (inv_done knows d HI oid); [done|]. by apply Hq in Hg.
Qed.

Lemma sound_auditOther oid action detail F : ¬ assignedAction action → sound (auditInsert oid action detail) F.
Proof. intros Ha. apply sound_auditInsert. by intros d _ ?%Ha. Qed.

(** *** Rules for the program notations *)

Lemma harmless_ok {A} (a : A) : harmless (ok a).
Proof. done. Qed.
Lemma harmless_fails {A} e : harmless (fails e : M A).
Proof. done. Qed.
Lemma harmless_failsApp {A} e : harmless (failsApp e : M A).
Proof. done. Qed.

Lemma harmless_andThen {A B} (m : M A) (f : A → M B) : harmless m → (∀ a, harmless (f a)) → harmless (andThen m f).
Proof. intros Hm Hf. apply harmless_bind; [done|]. by intros [a|e]. Qed.

Lemma harmless_text {X} text (f : txn X) : sound f (λ _, True) → harmless (query text f).
Proof. intros Hf. apply harmless_query; [done|]. by intros [x|e]. Qed.

(** A statement, and the rest of the function. *)
Lemma safe_textThen {X B} text (f : txn X) (k : X → M B) F Q :
  stable F → (∀ x, stable (Q x)) → sound f F → tells f F Q →
  (∀ x, safe (k x) (λ d, F d ∧ Q x d) (λ _ _, True)) → safe (andThen (query text f) k) F (λ _ _, True).
Proof. intros HF HQ Hs Ht Hk. apply (safe_query _ _ _ _ _ Q); done. Qed.

Lemma safe_queryOrThen {X B} e (f : txn X) (k : X → M B) F Q :
  stable F → (∀ x, stable (Q x)) → sound f F → tells f F Q →
  (∀ x, safe (k x) (λ d, F d ∧ Q x d) (λ _ _, True)) → safe (andThen (queryOr e f) k) F (λ _ _, True).
Proof. intros HF HQ Hs Ht Hk. apply (safe_query _ _ _ _ _ Q); done. Qed.

Lemma safe_thenFrame {A B} (m : M A) (f : A → M B) F :
  stable F → harmless m → (∀ a, safe (f a) F (λ _ _, True)) → safe (andThen m f) F (λ _ _, True).
Proof.
  intros HF Hm Hf. apply (yields_bind _ _ _ _ _ _ (λ _ _, True)); [by apply harmless_yields|].
  intros [a|e]; [|done]. eapply safe_weaken; [apply Hf | by intros d _ [] | done].
Qed.

Lemma safe_runFrame {A B} (m : P A) (f : A → P B) F :
  stable F → harmless m → (∀ a, safe (f a) F (λ _ _, True)) → safe (bindProg f m) F (λ _ _, True).
Proof.
  intros HF Hm Hf. apply (yields_bind _ _ _ _ _ _ (λ _ _, True)); [by apply harmless_yields|].
  intros a. eapply safe_weaken; [apply Hf | by intros d _ [] | done].
Qed.

Lemma harmless_queryOr {X} e (f : txn X) : sound f (λ _, True) → harmless (queryOr e f).
Proof. intros Hf. apply harmless_query; [done|]. by intros [x|e']. Qed.

Lemma harmless_transact {X} text (f : txn (result goError X)) : sound f (λ _, True) → harmless (transact text f).
Proof. intros Hf. apply harmless_query; [done|]. by intros [x|e]. Qed.

Lemma harmless_wrapError {A} text (m : M A) : harmless m → harmless (wrapError text m).
Proof. intros Hm. apply harmless_bind; [done|]. by intros [a|e]. Qed.

Lemma harmless_ignore {A} (m : M A) : harmless m → harmless (ignore m).
Proof. intros Hm. by apply harmless_bind. Qed.

Lemma harmless_writeAuditLog oid action : ¬ assignedAction action → harmless (writeAuditLog oid action).
Proof. intros Ha. apply harmless_query; [by apply sound_auditOther | done]. Qed.

Lemma harmless_hasAuditLog oid action : harmless (hasAuditLog oid action).
Proof. apply harmless_query; [apply sound_reading|]. by intros [b|e]. Qed.

Lemma notAssigned action : eqs action "SUBSCRIPTION_ASSIGNED" = false → eqs action "SUBSCRIPTION_SUCCESS" = false → ¬ assignedAction action.
Proof. intros H1 H2 [-> | ->]; [by vm_compute in H1 | by vm_compute in H2]. Qed.

(** *** Grants *)

Lemma harmless_rebate o : harmless (applyAffiliateRebateForOrder s o).
Proof.
  unfold applyAffiliateRebateForOrder. destruct (f64_le _ _); [done|]. destruct (negb _); [done|].
  apply harmless_bind; [apply harmless_transact, sound_rebateTx|]. intros [u|e]; [done|].
  apply harmless_bind; [by apply harmless_writeAuditLog, notAssigned | done].
Qed.

Lemma harmless_redeemRebate skip user amount : harmless (tryAccrueAffiliateRebateForRedeem s skip user amount).
Proof.
  unfold tryAccrueAffiliateRebateForRedeem. destruct (_ || _); [done|]. apply harmless_query; [|done].
  intros t d HI _. destruct (AccrueInviteRebate _ _ _ _ _) as [rebate|e]; [|split; [done | apply payGuar_refl]].
  destruct (f64_gt rebate f64_zero); [by apply newRebate | split; [done | apply payGuar_refl]].
Qed.

Lemma yields_transact {X} text (f : txn (result goError X)) F (Q : X → payDB → Prop) :
  stable F → (∀ x, stable (λ d, F d ∧ Q x d)) → sound f F →
  tells f F (λ r d, match r with Ok x => Q x d | Err _ => True end) →
  yields (transact text f) F (λ r d, match r with Ok x => Q x d | Err _ => True end).
Proof.
  intros HF HQ Hs Ht. exists (λ r d, F d ∧ match r with Ok (Ok x) => Q x d | _ => True end). split; [|split].
  - intros [[x|e]|e]; [apply HQ | by apply stable_and | by apply stable_and].
  - intros t d HI Hf. destruct (Hs t d HI Hf) as [H1 H2]. pose proof (HF d _ HI H1 H2 Hf) as Hf'.
    split; [done|]. split; [done|]. split; [|done]. split; [done|].
    destruct (f t d).1 as [x|e] eqn:E; [|done]. pose proof (Ht t d x HI Hf E). by destruct x.
  - intros [[x|e]|e]; intros d HI [Hf Hq]; (split; [exact Hf | exact Hq || done]).
Qed.

(** A redemption by somebody who may redeem the code. *)
Lemma redeem_sound user code F : (∀ d, payInv d → F d → mayRedeem knows user code d) → sound (redeemTx s user code) F.
Proof.
  intros Hm t d HI Hf. pose proof (redeemTx_inv knows s user code F t d HI Hf Hm) as Hr.
  destruct (redeemTx s user code t d) as [r d']. by destruct Hr as (? & ? & _).
Qed.

Lemma harmless_redeem env user code :
  (∀ d, payInv d → mayRedeem knows user (TrimSpace code) d) → harmless (Redeem s env user code).
Proof.
  intros Hm. unfold Redeem. repeat (case_match; [done|]).
  apply harmless_andThen; [apply harmless_transact, redeem_sound; auto|]. intros r.
  apply harmless_bind; [|intros _; apply harmless_text, sound_reading].
  case_match; [apply harmless_redeemRebate | done].
Qed.

(** The redemption of the code of an order by its owner. *)
Lemma seen_mayRedeem o d : payInv d → seen o d → mayRedeem knows (UserID o) (TrimSpace (RechargeCode o)) d.
Proof.
  intros HI Hs. destruct (seen_payCode knows o d HI Hs) as (i0 & n0 & _ & E0). rewrite E0, rechargeCodeOf_trim, <- E0.
  intros i p Hp E. destruct Hs as (o' & Ho & S). destruct (code_order knows d i (ID o) p o') as [-> ->]; [done..| |].
  - destruct S as (_ & _ & _ & _ & S5 & _). congruence.
  - left. by destruct S as (_ & S2 & _).
Qed.

Lemma redeem_order env o :
  yields (Redeem s env (UserID o) (RechargeCode o)) (seen o) (λ r d, match r with Ok _ => used (RechargeCode o) d | Err _ => True end).
Proof.
  unfold Redeem. repeat (case_match; [by apply yields_ret|]).
  apply (yields_bind _ _ _ _ _ _ (λ (r : result goError RedeemCode.RedeemCode) d, match r with Ok _ => used (RechargeCode o) d | Err _ => True end)).
  - apply yields_transact.
    + apply stable_seen.
    + intros _. intros d d' HI HI' HG Hd. destruct (stable_used_seen knows True o d d' HI HI' HG) as [? Hu]; [naive_solver|].
      split; [done | by apply Hu].
    + apply redeem_sound. by intros; apply seen_mayRedeem.
    + intros t d x HI Hs Hx. pose proof (redeemTx_inv knows s (UserID o) (TrimSpace (RechargeCode o)) (seen o) t d HI Hs) as Hr.
      destruct (redeemTx s _ _ t d) as [r d']. cbn in *. subst r. destruct x as [c|e]; [|done].
      destruct Hr as (_ & _ & Hu); [by intros; apply seen_mayRedeem|]. destruct (seen_payCode knows o d HI Hs) as (i0 & n0 & Hi & E0).
      rewrite E0 in *. rewrite rechargeCodeOf_trim in Hu. apply (Hu c); [done | by exists i0, n0].
  - intros [c|e]; [|by intros d _ [Hs _]].
    apply (safe_weaken _ _ _ _ (λ d, seen o d ∧ used (RechargeCode o) d) _ (λ r d, (seen o d ∧ used (RechargeCode o) d) ∧ True)); [|done|].
    2: { intros [?|?] d _ [[? ?] _]; done. }
    apply harmless_yields.
    + intros d d' HI HI' HG Hd. destruct (stable_used_seen knows True o d d' HI HI' HG) as [? Hu]; [naive_solver|].
      split; [done | by apply Hu].
    + apply harmless_bind; [case_match; [apply harmless_redeemRebate | done] | intros _; apply harmless_text, sound_reading].
Qed.

(** *** Fulfilment *)

Lemma stable_delivered o : stable (λ d, seen o d ∧ delivered o d).
Proof.
  intros d d' HI HI' HG [Hs Hd]. split; [exact (stable_seen knows o d d' HI HI' HG Hs)|].
  destruct Hs as (o' & Ho & S). apply (sameOrder_delivered o o' d S) in Hd as Hd'.
  apply (sameOrder_delivered o o' d' S). exact (delivered_mono knows d d' _ o' HI HG Ho Hd').
Qed.

Lemma harmless_acquire o : harmless (acquirePaymentFulfillmentLease o).
Proof.
  apply harmless_clock. intros t. apply harmless_andThen.
  - apply harmless_text, sound_quietUpdate. intros row. by repeat split.
  - intros n. case_match; (apply harmless_andThen; [apply harmless_text, sound_reading|]); intros row; repeat case_match; done.
Qed.

Lemma harmless_markFailed oid lease cause : harmless (markFailed s oid lease cause).
Proof.
  apply harmless_clock. intros t. apply harmless_query.
  - apply sound_quietUpdate. intros row. by repeat split.
  - intros [c|e]; [|done]. case_match; [by apply harmless_writeAuditLog, notAssigned | done].
Qed.

(** What must be known to complete an order and to log [action]. *)
Definition completable (o : PaymentOrder) (action : string) (d : payDB) : Prop :=
  (seen o d ∧ delivered o d) ∧ (assignedAction action → subscribed (ID o) d).

Lemma stable_completable o action : stable (completable o action).
Proof.
  apply stable_and; [apply stable_delivered|]. intros d d' HI HI' HG Hs Ha. apply (guar_subs _ _ HG), Hs, Ha.
Qed.

Lemma safe_markCompleted o lease action : safe (markCompleted o lease action) (completable o action) (λ _ _, True).
Proof.
  intros t. apply (safe_textThen _ _ _ _ (λ _ _, True)); [apply stable_completable | done | | done |].
  - apply sound_orderUpdate; [by repeat split|]. intros t' d row HI [[(o' & Ho & S) Hd] _] Hrow _ _.
    assert (row = o') as -> by congruence. by apply (sameOrder_delivered o).
  - intros n. apply (safe_weaken _ _ _ _ (completable o action) _ (λ _ _, True)); [|by intros d _ []|done].
    destruct (n =? 0).
    + apply harmless_safe, harmless_query; [apply sound_reading|]. intros [c|e]; [by case_match | done].
    + apply safe_runFrame; [apply stable_completable | apply harmless_hasAuditLog|]. intros [|]; [done|].
      apply safe_query_any; [apply stable_completable | | done].
      apply sound_auditInsert. by intros d [_ Ha].
Qed.

Lemma safe_finish o lease action :
  safe (do* applyAffiliateRebateForOrder s o in markCompleted o lease action) (completable o action) (λ _ _, True).
Proof. apply safe_thenFrame; [apply stable_completable | apply harmless_rebate | intros _; apply safe_markCompleted]. Qed.

Lemma isUsed_used c t : RedeemCode.IsUsed c t = true → 0 < RedeemCode.UsedCount c.
Proof.
  unfold RedeemCode.IsUsed, RedeemCode.EffectiveStatus, RedeemCode.PersistedStatus, RedeemCode.IsExhausted,
    RedeemCode.HasRemainingUses, RedeemCode.HasUnlimitedUses.
  assert (Hno : ∀ v, eqs v RedeemCode.StatusUsed = false → eqs v RedeemCode.StatusUsed = true → 0 < RedeemCode.UsedCount c) by congruence.
  destruct (eqs (RedeemCode.Status c) RedeemCode.StatusDisabled); [by apply Hno|].
  destruct (RedeemCode.IsExpired c t); [by apply Hno|]. destruct (eqs (RedeemCode.Status c) StatusExpired); [by apply Hno|].
  destruct (RedeemCode.maxUsesOrDefault c =? 0) eqn:E0; [cbn [negb andb]; case_match; by apply Hno|].
  destruct (RedeemCode.UsedCount c <? RedeemCode.maxUsesOrDefault c) eqn:E; [cbn [negb andb]; case_match; by apply Hno|].
  intros _. zbool. unfold RedeemCode.maxUsesOrDefault in *. case_match; zbool; lia.
Qed.

(** What is known after a call that succeeded. *)
Definition okQ {A} (Q : payDB → Prop) (r : result goError A) (d : payDB) : Prop := match r with Ok _ => Q d | Err _ => True end.

Lemma yields_wrapError {A} text (m : M A) F Q : yields m F (okQ Q) → yields (wrapError text m) F (okQ Q).
Proof. intros Hm. apply (yields_bind _ _ _ _ _ _ (okQ Q)); [exact Hm|]. intros [a|e] d _ [??]; done. Qed.

Lemma yields_then {A B} (m : M A) (f : A → M B) F Q :
  yields m F (okQ Q) → (∀ a, safe (f a) (λ d, F d ∧ Q d) (λ _ _, True)) → safe (andThen m f) F (λ _ _, True).
Proof. intros Hm Hf. apply (yields_bind _ _ _ _ _ _ (okQ Q)); [done|]. intros [a|e]; [apply Hf | done]. Qed.

(** A balance order that a program has read. *)
Definition balanceOrder (o : PaymentOrder) (d : payDB) : Prop := seen o d ∧ eqs (OrderType o) OrderTypeSubscription = false.

Lemma stable_balanceOrder o : stable (balanceOrder o).
Proof. apply stable_and; [apply stable_seen | apply stable_const]. Qed.

Lemma safe_doBalance env o lease : safe (doBalance s env o lease) (balanceOrder o) (λ _ _, True).
Proof.
  assert (Hfinish : safe (do* applyAffiliateRebateForOrder s o in markCompleted o lease "RECHARGE_SUCCESS")
                         (λ d, balanceOrder o d ∧ used (RechargeCode o) d) (λ _ _, True)).
  { eapply safe_weaken; [apply safe_finish | | done]. intros d _ [[Hs Ht] Hu]. split; [|by intros Ha%notAssigned].
    split; [done|]. unfold delivered. by rewrite Ht. }
  assert (Hredeem : safe (do* wrapError "redeem balance" (Redeem s (fulfillmentEnv env) (UserID o) (RechargeCode o)) in
                          do* applyAffiliateRebateForOrder s o in markCompleted o lease "RECHARGE_SUCCESS")
                         (balanceOrder o) (λ _ _, True)).
  { apply (yields_then _ _ _ (used (RechargeCode o))); [|intros _; exact Hfinish]. apply yields_wrapError.
    apply yields_and; [apply stable_const | apply redeem_order]. }
  apply (safe_query _ _ _ _ _ (λ c d, seen o d ∧ (0 < RedeemCode.UsedCount c → used (RechargeCode o) d)));
    [apply stable_balanceOrder | intros c; apply stable_used_seen | apply sound_reading | | |].
  - intros t d c HI [Hs _] Hc. cbn in *. split; [done|]. unfold used. destruct (codes d !! RechargeCode o) as [c'|]; [|done].
    injection Hc as ->. by exists c.
  - intros c t. cbn [resolveRedeemAction]. destruct (RedeemCode.IsUsed c t) eqn:Eu.
    + eapply safe_weaken; [exact Hfinish | | done]. intros d _ [Hb [_ Hu]]. split; [done|]. apply Hu. by apply (isUsed_used c t).
    + eapply safe_weaken; [exact Hredeem | by intros d _ [] | done].
  - intros e t. cbn [resolveRedeemAction]. apply (yields_then _ _ _ (λ _, True)).
    2: { intros u. eapply safe_weaken; [exact Hredeem | by intros d _ [] | done]. }
    apply yields_wrapError. unfold CreateCode. case_match; [by apply yields_ret|]. case_match; [by apply yields_ret|].
    apply (safe_query_any _ _ _ _ (balanceOrder o)); [apply stable_balanceOrder | | by intros [x|e'] d _ Hd].
    apply (sound_createCode knows o); try done.
    + by intros d [].
    + intros (i & n & _ & E). cbn. rewrite E. apply rechargeCodeOf_trim.
Qed.

(** A subscription order that a program has read. *)
Definition subscriptionOrder (o : PaymentOrder) (d : payDB) : Prop := seen o d ∧ eqs (OrderType o) OrderTypeSubscription = true.

Lemma stable_subscriptionOrder o : stable (subscriptionOrder o).
Proof. apply stable_and; [apply stable_seen | apply stable_const]. Qed.

Lemma seen_positive o d : payInv d → seen o d → 0 < ID o.
Proof. intros HI (o' & Ho & _). by destruct (inv_order knows d HI _ _ Ho) as (_ & ? & _). Qed.

(** The audit entries of an assignment tell that the order is subscribed. *)
Lemma yields_hasAssigned oid action F :
  stable F → assignedAction action → yields (hasAuditLog oid action) F (λ b d, b = true → subscribed oid d).
Proof.
  intros HF Ha. apply (safe_query _ _ _ _ _ (λ b d, b = true → subscribed oid d)); [done | | apply sound_reading | | |].
  - intros b d d' HI HI' HG Hs Hb. apply (guar_subs _ _ HG), Hs, Hb.
  - intros t d b HI _ [= <-] Hb. exact (inv_assigned knows d HI oid action Ha Hb).
  - by intros b d _ [].
  - by intros e d _ Hf.
Qed.

Lemma yields_assign o input :
  SourceOrderID input = Some (ID o) →
  yields (AssignOrExtendSubscription s input) (subscriptionOrder o) (okQ (subscribed (ID o))).
Proof.
  intros Es. assert (Hpos : ∀ d, payInv d → subscriptionOrder o d → 0 < ID o) by (intros d HI []; by eapply seen_positive).
  apply (safe_query _ _ _ _ _ (λ r d, r ≠ None → subscribed (ID o) d)); [apply stable_subscriptionOrder | | apply sound_reading | | |].
  - intros x d d' HI HI' HG Hs Hx. apply (guar_subs _ _ HG), Hs, Hx.
  - intros t d x HI _ [= <-] Hx. cbn. destruct (findSource _ d) as [r|] eqn:E; [|done].
    apply findSource_Some in E as (oid & E1 & E2 & E3). exists r. split; [done | congruence].
  - intros [existing|].
    + intros now d _ [Hs Hx]. split; [done | by apply Hx].
    + eapply (safe_weaken _ _ _ _ (subscriptionOrder o)); [| by intros d _ [] | by intros a d _ Ha; exact Ha].
      destruct (resolveGrantPlanTemplate s input) as [template|e]; [|by intros d _ Hs].
      apply yields_transact.
      * apply stable_subscriptionOrder.
      * intros _. apply stable_and; [apply stable_subscriptionOrder | apply stable_subscribed].
      * apply sound_assignTx. intros d oid HI Hs Eo. assert (oid = ID o) as -> by congruence. by apply (Hpos d).
      * apply tells_assignTx; [done | exact Hpos].
  - by intros e d _ Hs.
Qed.

Lemma safe_doSub o lease : safe (doSub s o lease) (subscriptionOrder o) (λ _ _, True).
Proof.
  unfold doSub. destruct (validPlan o) as [planID|]; [|done].
  set (F := subscriptionOrder o). pose proof (stable_subscriptionOrder o) as HF.
  assert (HFs : stable (λ d, F d ∧ subscribed (ID o) d)) by (apply stable_and; [done | apply stable_subscribed]).
  assert (Hfinish : safe (do* applyAffiliateRebateForOrder s o in markCompleted o lease "SUBSCRIPTION_SUCCESS")
                         (λ d, F d ∧ subscribed (ID o) d) (λ _ _, True)).
  { eapply safe_weaken; [apply safe_finish | | done]. intros d _ [[Hs Ht] Hu]. split; [|done].
    split; [done|]. unfold delivered. by rewrite Ht. }
  apply (yields_bind _ _ _ _ _ _ (λ b d, b = true → subscribed (ID o) d)); [apply yields_hasAssigned; [done | by left]|].
  intros first. apply (yields_bind _ _ _ _ _ _ (λ b d, b = true → subscribed (ID o) d)).
  { destruct first; [by apply yields_ret; intros d _ [_ ?]|].
    eapply safe_weaken; [apply yields_hasAssigned; [exact HF | by right] | by intros d _ [] | by intros b d _ []]. }
  intros assigned. apply (safe_weaken _ _ _ _ (λ d, F d ∧ (assigned = true → subscribed (ID o) d)) _ (λ _ _, True));
    [| by intros d _ [[] ?] | done].
  apply (yields_then _ _ _ (subscribed (ID o))).
  2: { intros _. eapply safe_weaken; [exact Hfinish | by intros d _ [[]] | done]. }
  destruct assigned; [apply yields_ret; intros d _ [_ Hs]; by apply Hs|].
  eapply (safe_weaken _ _ _ _ F _ (λ r d, F d ∧ okQ (subscribed (ID o)) r d)); [| by intros d _ [] | by intros r d _ []].
  eapply safe_bindProg; [apply yields_wrapError, yields_assign; unfold assignInput; by case_match|].
  intros [x|e]; [|by intros d _ [Hs _]].
  apply (safe_query_any _ _ _ _ (λ d, F d ∧ subscribed (ID o) d)); [done | | by intros r d _ []].
  apply sound_auditInsert. by intros d [].
Qed.

Lemma safe_underLease o work F :
  stable F → (∀ lease, safe (work o lease) F (λ _ _, True)) → safe (underLease s o work) F (λ _ _, True).
Proof.
  intros HF Hw. apply safe_thenFrame; [done | apply harmless_acquire|]. intros [lease|]; [|done].
  eapply safe_bindProg; [apply Hw|]. intros [u|e]; [done|]. apply harmless_bind; [apply harmless_markFailed | done].
Qed.

(** The type of an order, as the database has it. *)
Definition typedOrder (oid : Z) (isSub : bool) (d : payDB) : Prop :=
  ∃ o, orders d !! oid = Some o ∧ eqs (OrderType o) OrderTypeSubscription = isSub.

Lemma stable_typedOrder oid isSub : stable (typedOrder oid isSub).
Proof.
  intros d d' _ _ HG (o & Ho & Et). destruct (guar_orders _ _ HG _ _ Ho) as (o' & Ho' & S). exists o'. split; [done|].
  destruct S as (_ & _ & -> & _). exact Et.
Qed.

(** Reading an order whose type is known. *)
Lemma safe_getTyped {B} e oid isSub (k : PaymentOrder → M B) :
  (∀ o, safe (k o) (λ d, seen o d ∧ eqs (OrderType o) OrderTypeSubscription = isSub) (λ _ _, True)) →
  safe (andThen (queryOr e (orderGet oid)) k) (typedOrder oid isSub) (λ _ _, True).
Proof.
  intros Hk. apply (safe_queryOrThen _ _ _ _ (λ o d, seen o d ∧ eqs (OrderType o) OrderTypeSubscription = isSub)).
  - apply stable_typedOrder.
  - intros o. apply stable_and; [apply stable_seen | apply stable_const].
  - apply sound_reading.
  - intros t d o HI (o' & Ho & Et) Hx. cbn in *. rewrite Ho in Hx. injection Hx as ->. split; [|done].
    destruct (inv_order knows d HI _ _ Ho) as [Eid _]. exists o. rewrite Eid. split; [done | apply sameOrder_refl].
  - intros o. eapply safe_weaken; [apply Hk | by intros d _ [] | done].
Qed.

Lemma safe_balanceFulfillment env oid : safe (ExecuteBalanceFulfillment s env oid) (typedOrder oid false) (λ _ _, True).
Proof.
  apply safe_getTyped. intros o. case_match; [done|]. case_match; [|done].
  apply safe_underLease; [apply stable_balanceOrder | intros lease; apply safe_doBalance].
Qed.

Lemma safe_subscriptionFulfillment oid : safe (ExecuteSubscriptionFulfillment s oid) (typedOrder oid true) (λ _ _, True).
Proof.
  apply safe_getTyped. intros o. case_match; [done|]. case_match; [|done]. case_match; [|done].
  apply safe_underLease; [apply stable_subscriptionOrder | intros lease; apply safe_doSub].
Qed.

Lemma harmless_executeFulfillment env oid : harmless (executeFulfillment s env oid).
Proof.
  apply (safe_textThen _ _ _ _ (λ o d, typedOrder oid (eqs (OrderType o) OrderTypeSubscription) d)); [done | intros o; apply stable_typedOrder | apply sound_reading | |].
  - intros t d o HI _ Hx. cbn in *. exists o. by destruct (orders d !! oid); [injection Hx as ->|].
  - intros o. destruct (eqs (OrderType o) OrderTypeSubscription).
    + eapply safe_weaken; [apply safe_subscriptionFulfillment | by intros d _ [] | done].
    + eapply safe_weaken; [apply safe_balanceFulfillment | by intros d _ [] | done].
Qed.

(** *** Notifications *)

Lemma harmless_audit oid action {B} (k : P B) : ¬ assignedAction action → harmless k → harmless (run writeAuditLog oid action in k).
Proof. intros Ha Hk. by apply harmless_bind; [apply harmless_writeAuditLog|]. Qed.

Lemma harmless_retry env oid : harmless (RetryFulfillment s env oid).
Proof.
  apply harmless_andThen; [apply harmless_queryOr, sound_reading|]. intros o. repeat (case_match; [done|]).
  apply harmless_audit; [by apply notAssigned | apply harmless_executeFulfillment].
Qed.

Lemma harmless_findOrder orderID : harmless (findPaymentNotificationOrder orderID).
Proof.
  apply harmless_query; [apply sound_reading|]. intros [o|[|text]]; [done| |done]. case_match; [|done].
  apply harmless_query; [apply sound_reading|]. by intros [o|[|text]].
Qed.

Lemma harmless_validate o pk metadata : harmless (validatePaymentNotificationOrder s o pk metadata).
Proof.
  unfold validatePaymentNotificationOrder. cbv zeta.
  case_match; [by apply harmless_audit; [apply notAssigned|]|]. case_match; [done | by apply harmless_audit; [apply notAssigned|]].
Qed.

Lemma harmless_toPaidLoop env attempts o tradeNo paid metadata : harmless (toPaidLoop s env attempts o tradeNo paid metadata).
Proof.
  revert o. induction attempts as [|n IH]; intros o; [done|]. cbn [toPaidLoop].
  case_match; [|case_match; [apply harmless_executeFulfillment | done]].
  apply harmless_clock. intros now. apply harmless_andThen.
  - apply harmless_text, sound_quietUpdate. apply (quiet_compose (setInvoice metadata)); [apply quiet_setInvoice|].
    apply (quiet_compose (setTradeNo _)); [apply quiet_setTradeNo|]. intros row. by repeat split.
  - intros updated. case_match.
    + apply harmless_andThen; [apply harmless_text, sound_reading | intros o'; apply IH].
    + apply harmless_bind; [case_match; [done | by apply harmless_writeAuditLog, notAssigned]|]. intros _.
      apply harmless_audit; [by apply notAssigned | apply harmless_executeFulfillment].
Qed.

Lemma harmless_markFailedLoop attempts o tradeNo : harmless (markFailedLoop attempts o tradeNo).
Proof.
  revert o. induction attempts as [|n IH]; intros o; [done|]. cbn [markFailedLoop]. case_match; [done|].
  apply harmless_clock. intros now. apply harmless_andThen.
  - apply harmless_text, sound_quietUpdate, (quiet_compose (setTradeNo _)); [apply quiet_setTradeNo|]. intros row. by repeat split.
  - intros updated. case_match; [by apply harmless_audit; [apply notAssigned|]|].
    apply harmless_andThen; [apply harmless_text, sound_reading | intros o'; apply IH].
Qed.

Lemma harmless_markProcessing o tradeNo pk metadata : harmless (markPaymentProcessing o tradeNo pk metadata).
Proof.
  unfold markPaymentProcessing. case_match; [done|]. apply harmless_andThen.
  - apply harmless_text, sound_quietUpdate. apply (quiet_compose (setInvoice metadata)); [apply quiet_setInvoice|].
    apply (quiet_compose (setTradeNo _)); [apply quiet_setTradeNo|]. intros row. by repeat split.
  - intros updated. case_match; [by apply harmless_audit; [apply notAssigned|] | done].
Qed.

Lemma harmless_confirm env o tradeNo paid pk metadata : harmless (confirmPayment s env o tradeNo paid pk metadata).
Proof.
  unfold confirmPayment. case_match; [by apply harmless_audit; [apply notAssigned|]|].
  case_match; [by apply harmless_audit; [apply notAssigned|]|]. apply harmless_toPaidLoop.
Qed.

Lemma harmless_notification env n pk : harmless (HandlePaymentNotification s env n pk).
Proof.
  destruct n as [n|]; [|done]. cbn [HandlePaymentNotification]. cbv zeta. case_match; [done|]. case_match; [done|].
  apply harmless_andThen; [apply harmless_findOrder|]. intros o.
  apply harmless_andThen; [apply harmless_validate|]. intros _.
  case_match; [apply harmless_confirm|]. case_match; [apply harmless_markProcessing | apply harmless_markFailedLoop].
Qed.

(** *** Creation *)

Lemma harmless_create req answer : harmless (createOrder req answer).
Proof.
  apply harmless_andThen.
  - apply harmless_andThen.
    { apply harmless_andThen; [apply harmless_text, sound_reading|]. intros c. by case_match. }
    intros _. apply harmless_andThen.
    { unfold checkDailyLimit. case_match; [done|]. apply harmless_andThen; [apply harmless_text, sound_reading|]. intros c. by case_match. }
    intros _. apply harmless_clock. intros now. apply harmless_text, sound_insertOrder.
  - intros o. apply harmless_bind.
    + destruct answer as [pr|e]; [|done]. apply harmless_andThen.
      * destruct pr as [pr|]; [|done]. apply harmless_text, sound_quietUpdateOne.
        intros row. unfold setNillable. repeat case_match; by repeat split.
      * intros o'. by apply harmless_audit; [apply notAssigned|].
    + intros [o'|e]; [done|]. apply harmless_bind; [|done]. by apply harmless_ignore, harmless_text, sound_quietUpdateOne, quiet_status.
Qed.

(** *** Provider queries and cancellation *)

Section providers.
Context (env : redeemEnv) (providerOf : PaymentOrder → result goError Provider).

Lemma harmless_applyPaid o prov queryRef resp : harmless (applyPaid s env o prov queryRef resp).
Proof.
  apply harmless_andThen.
  - case_match; [|done]. apply harmless_andThen; [apply harmless_text, sound_quietUpdate; intros row; by repeat split | done].
  - intros _. apply harmless_andThen; [apply harmless_notification | done].
Qed.

Lemma harmless_applyQueried o prov queryRef resp n : harmless (applyQueriedPaymentStatus s env o prov queryRef resp n).
Proof.
  unfold applyQueriedPaymentStatus. case_match.
  - case_match; [apply harmless_applyPaid|]. apply harmless_audit; [by apply notAssigned|]. case_match; [apply harmless_applyPaid | done].
  - case_match; [|by case_match]. apply harmless_andThen; [apply harmless_notification | done].
Qed.

Lemma harmless_checkPaid o : harmless (checkPaid s env providerOf o).
Proof.
  unfold checkPaid. destruct (queryPaymentOrderProvider _ _) as [[[prov queryRef] resp]|e]; [apply harmless_applyQueried | done].
Qed.

Lemma harmless_processingResult finalStatus : harmless (processingCancellationResult finalStatus).
Proof. unfold processingCancellationResult. by case_match. Qed.

Lemma harmless_finalize o finalStatus : granted finalStatus = false → harmless (finalizePendingOrder o finalStatus).
Proof.
  intros Hg. apply harmless_andThen; [by apply harmless_text, sound_quietUpdate, quiet_status|]. intros c. case_match.
  - apply harmless_audit; [|done]. by case_match; apply notAssigned.
  - apply harmless_andThen; [apply harmless_text, sound_reading|]. intros o'. case_match; [done|].
    case_match; [apply harmless_processingResult | by case_match].
Qed.

Lemma harmless_recordFailure o : harmless (recordPaymentCancelFailure o).
Proof.
  apply harmless_bind; [apply harmless_hasAuditLog|]. intros logged. apply harmless_bind.
  - case_match; [done | by apply harmless_writeAuditLog, notAssigned].
  - intros _. apply harmless_clock. intros now. apply harmless_ignore, harmless_text, sound_quietUpdate. intros row. by repeat split.
Qed.

Lemma harmless_settle o finalStatus outcome m :
  granted finalStatus = false → settleOutcome o finalStatus outcome = Some m → harmless m.
Proof.
  intros Hg. unfold settleOutcome. repeat case_match; [intros [= <-].. | done];
    [done | apply harmless_processingResult | by apply harmless_finalize].
Qed.

Lemma harmless_cancelCore o finalStatus : granted finalStatus = false → harmless (cancelCore s env providerOf o finalStatus).
Proof.
  intros Hg. unfold cancelCore. case_match; [|by apply harmless_finalize].
  destruct (queryPaymentOrderProvider _ _) as [[[prov queryRef] resp]|e]; [|apply harmless_bind; [apply harmless_recordFailure | done]].
  apply harmless_andThen; [apply harmless_applyQueried|]. intros outcome.
  destruct (settleOutcome o finalStatus outcome) eqn:E; [by eapply harmless_settle|].
  case_match; [apply harmless_bind; [apply harmless_recordFailure | done]|].
  destruct (CancelPayment prov) as [[u|e]|]; [by apply harmless_finalize| |by apply harmless_finalize].
  unfold afterCancelFailure. case_match; [|apply harmless_bind; [apply harmless_recordFailure | done]].
  apply harmless_andThen; [apply harmless_applyQueried|]. intros outcome'.
  destruct (settleOutcome o finalStatus outcome') eqn:E'; [by eapply harmless_settle|].
  apply harmless_bind; [apply harmless_recordFailure | done].
Qed.

Lemma harmless_cancel orderID userID : harmless (CancelOrder s env providerOf orderID userID).
Proof.
  apply harmless_andThen; [apply harmless_queryOr, sound_reading|]. intros o. do 2 (case_match; [done|]). by apply harmless_cancelCore.
Qed.

Lemma harmless_adminCancel orderID : harmless (AdminCancelOrder s env providerOf orderID).
Proof.
  apply harmless_andThen; [apply harmless_queryOr, sound_reading|]. intros o. case_match; [done|]. by apply harmless_cancelCore.
Qed.

Lemma harmless_forceExpireOrder orderID reason : harmless (ForceExpireOrder orderID reason).
Proof. unfold ForceExpireOrder. case_match; [done|]. apply harmless_transact, sound_forceExpire. Qed.

Lemma harmless_verify outTradeNo userID : harmless (VerifyOrderByOutTradeNo s env providerOf outTradeNo userID).
Proof.
  unfold VerifyOrderByOutTradeNo. case_match; [|done]. apply harmless_andThen; [apply harmless_queryOr, sound_reading|].
  intros o. case_match; [done|]. case_match; [|done]. apply harmless_andThen; [apply harmless_checkPaid|]. intros r.
  case_match; [apply harmless_text, sound_reading | done].
Qed.

(** *** Reconciliation *)

Lemma harmless_countEach {X} (work : X → P bool) l : (∀ x, harmless (work x)) → harmless (countEach work l).
Proof.
  intros Hw. induction l as [|x l IH]; [done|]. apply harmless_bind; [apply Hw|]. intros counted. by apply harmless_andThen.
Qed.

Lemma harmless_wxpay created : harmless (ReconcilePendingWxpayOrders s env providerOf created).
Proof.
  apply harmless_clock. intros now. apply harmless_andThen; [apply harmless_text, sound_reading|]. intros l.
  apply harmless_countEach. intros o. apply harmless_bind; [apply harmless_checkPaid | done].
Qed.

Lemma harmless_expire rows : harmless (ExpireTimedOutOrders s env providerOf rows).
Proof.
  apply harmless_clock. intros now. apply harmless_andThen; [apply harmless_text, sound_reading|]. intros l.
  apply harmless_countEach. intros o. apply harmless_bind.
  - apply harmless_bind; [apply harmless_hasAuditLog | intros b; by case_match].
  - intros retry. case_match; [|done]. apply harmless_bind; [by apply harmless_cancelCore | done].
Qed.

Lemma harmless_auditStale o now : harmless (maybeAuditStaleProcessingOrder o now).
Proof.
  unfold maybeAuditStaleProcessingOrder. case_match; [done|]. apply harmless_bind; [apply harmless_hasAuditLog|].
  intros logged. case_match; [done | by apply harmless_writeAuditLog, notAssigned].
Qed.

Lemma harmless_reconcileProcessing cursor now : harmless (reconcileProcessingOrdersAt s env providerOf cursor now).
Proof.
  apply harmless_andThen; [apply harmless_text, sound_reading|]. intros ids. cbv zeta. case_match; [done|].
  apply harmless_andThen; [apply harmless_text, sound_reading|]. intros l. apply harmless_countEach. intros o.
  unfold reconcileProcessing.
  destruct (queryPaymentOrderProvider _ _) as [[[prov queryRef] resp]|e]; [|apply harmless_bind; [apply harmless_auditStale | done]].
  apply harmless_bind; [apply harmless_applyQueried|]. intros [outcome|e]; [|done]. case_match; [done|].
  case_match; apply harmless_bind; try done; [apply harmless_ignore, harmless_markFailedLoop | apply harmless_auditStale].
Qed.

Lemma harmless_reconcilePaid cursor now : harmless (reconcilePaidFulfillmentOrdersAt s env cursor now).
Proof.
  apply harmless_andThen; [apply harmless_text, sound_reading|]. intros ids. apply harmless_countEach. intros oid.
  apply harmless_bind; [apply harmless_executeFulfillment|]. intros [u|e]; [|done].
  apply harmless_query; [apply sound_reading | by intros [o|e]].
Qed.
End providers.
End programs.
