(* ===== verification/SubscriptionSafety.v ===== *)
(** * The administration of subscriptions keeps the payment invariant

    Changes of the period, revocations and bulk assignments neither reassign nor
    restore a subscription: they are safe programs for the invariant of
    [PaymentInvariant], also when they work on rows that were read before other
    programs changed them.  (A restoration is not: after a lost answer of an
    assignment, a revocation and a retry it makes a second live subscription of
    the order.) *)

From S2P Require Import Prelude GoRuntime Domain AppErrors Transactions PaymentOrder PaymentDB PaymentGrants SubscriptionChain SubscriptionWindows PaymentFulfillment PaymentLifecycle PaymentInvariant PaymentSafety.
From S2P Require UserSubscription.
#[local] Open Scope Z_scope.

(** What is known of a row that was read: its id and its source. *)
Definition knowsRow (x : SubscriptionRow) (d : payDB) : Prop :=
  ∃ r, r ∈ subs d ∧ subID r = subID x ∧ subSourceOrderID r = subSourceOrderID x.

Definition knowsRows (l : list SubscriptionRow) (d : payDB) : Prop := ∀ x, x ∈ l → knowsRow x d.

Lemma knowsRow_guar x d d' : payGuar d d' → knowsRow x d → knowsRow x d'.
Proof.
  intros HG (r & Hr & E1 & E2). destruct (guar_rows _ _ HG r Hr) as (r' & Hr' & F1 & F2). exists r'. split; [done|]. split; congruence.
Qed.

Lemma knowsRow_edited x d d' : edited d d' → knowsRow x d → knowsRow x d'.
Proof.
  intros (l & v & -> & Hl) (r & Hr & E1 & E2). apply list_elem_of_lookup_1 in Hr as [j Hj].
  destruct (Forall2_lookup_l _ _ _ _ _ Hl Hj) as (r' & Hj' & Ei & Es & _). exists r'.
  split; [by eapply list_elem_of_lookup_2 | split; congruence].
Qed.

Lemma edited_ids d d' : edited d d' → subID <$> subs d' = subID <$> subs d.
Proof.
  intros (l & v & -> & Hl). cbn [subs setSubs setApiKeys]. induction Hl as [|r r' k k' (Ei & _) _ IH]; [done|]. by rewrite !fmap_cons, Ei, IH.
Qed.

Lemma edited_updateRow id f d :
  (∀ r, r ∈ subs d → subID r = id → keptRow r (f r)) → edited d (updateRow id f d).2.
Proof.
  intros Hf. unfold updateRow. destruct (anyRow id d); [|apply edited_refl]. apply edited_map. intros r Hr.
  destruct (Z.eqb_spec (subID r) id); [by apply Hf | done].
Qed.

Lemma keptRow_withBody f r :
  (UserSubscription.DeletedAt (f (subBody r)) = UserSubscription.DeletedAt (subBody r)) → keptRow r (withBody f r).
Proof. intros E. unfold keptRow, subDeleted, UserSubscription.notDeleted. cbn. by rewrite E. Qed.

(** A row is written back under its own id and source, even if it is stale. *)
Lemma edited_Update item d : NoDup (subID <$> subs d) → knowsRow item d → edited d (Update item d).2.
Proof.
  intros Hnd (x & Hx & E1 & E2). apply edited_updateRow. intros r Hr Hid. assert (r = x) as ->.
  { apply list_elem_of_lookup_1 in Hr as [i Hi], Hx as [j Hj]. assert (i = j) as ->; [|congruence].
    eapply (NoDup_lookup _ i j (subID item)); [exact Hnd | rewrite list_lookup_fmap, Hi; cbn; congruence | rewrite list_lookup_fmap, Hj; cbn; congruence]. }
  split; [done|]. split; [|done]. cbn. unfold override. rewrite <- E2. by destruct (subSourceOrderID x).
Qed.

Lemma edited_shiftItems chain anchor delta now d :
  NoDup (subID <$> subs d) → knowsRows chain d → edited d (shiftItems chain anchor delta now d).2.
Proof.
  revert d. induction chain as [|item chain IH]; intros d Hnd Hk; [apply edited_refl|]. cbn [shiftItems].
  assert (Hk' : knowsRows chain d) by (intros x Hx; apply Hk; by constructor).
  destruct (shifts anchor item); [|by apply IH].
  assert (He : edited d (Update (shiftItem delta now item) d).2).
  { apply edited_Update; [done|]. destruct (Hk item) as (r & Hr); [constructor | by exists r]. }
  destruct (Update _ d) as [[u|e] d1]; cbn [snd] in *; [|done]. eapply edited_trans; [exact He|]. apply IH.
  - by rewrite (edited_ids _ _ He).
  - intros x Hx. by apply (knowsRow_edited _ d), Hk'.
Qed.

Lemma edited_shiftLaterChain chain anchor delta now d :
  NoDup (subID <$> subs d) → knowsRows chain d → edited d (shiftLaterChain chain anchor delta now d).2.
Proof. intros Hnd Hk. unfold shiftLaterChain. destruct (delta =? 0); [apply edited_refl | by apply edited_shiftItems]. Qed.

Lemma edited_Delete id now d : edited d (Delete id now d).
Proof.
  apply edited_map. intros r _. destruct (_ && _); [|done]. split; [done|]. split; done.
Qed.

Lemma edited_revokeTx chain sub delta now d :
  NoDup (subID <$> subs d) → knowsRows chain d → edited d (revokeTx chain sub delta now d).2.
Proof.
  intros Hnd Hk. pose proof (edited_Delete (subID sub) now d) as He. unfold revokeTx. eapply edited_trans; [exact He|].
  apply edited_shiftLaterChain; [by rewrite (edited_ids _ _ He)|]. intros x Hx. by apply (knowsRow_edited _ d), Hk.
Qed.

Lemma edited_periodTx chain sub e now t d :
  NoDup (subID <$> subs d) → knowsRows chain d → edited d (periodTx chain sub e now t d).2.
Proof.
  intros Hnd Hk. unfold periodTx. assert (H1 : edited d (ExtendExpiry (subID sub) e d).2).
  { apply edited_updateRow. intros r _ _. by apply keptRow_withBody. }
  destruct (ExtendExpiry _ _ d) as [[u|err] d1]; cbn [snd] in *; [|done].
  assert (H2 : edited d1 (shiftLaterChain chain sub (Sub e (subExpiresAt sub)) t d1).2).
  { apply edited_shiftLaterChain; [by rewrite (edited_ids _ _ H1)|]. intros x Hx. by apply (knowsRow_edited _ d), Hk. }
  destruct (shiftLaterChain _ _ _ _ d1) as [[u2|err] d2]; cbn [snd] in *; [|by eapply edited_trans].
  assert (H3 : edited d2 (UpdateStatus (subID sub) (windowStatus (subStartsAt sub) e now) d2).2).
  { apply edited_updateRow. intros r _ _. by apply keptRow_withBody. }
  destruct (UpdateStatus _ _ d2) as [r d3]. cbn [snd] in *. eapply edited_trans; [|exact H3]. by eapply edited_trans.
Qed.

Lemma edited_rebind oldID newID d : edited d (rebindSubscriptionAPIKeys oldID newID d).2.
Proof.
  unfold rebindSubscriptionAPIKeys. destruct (_ || _); [apply edited_refl|]. exists (subs d), (rebindKey oldID newID <$> apiKeys d).
  split; [by destruct d|]. by apply Forall_Forall2_diag, Forall_forall.
Qed.

Section programs.
Context (knows : Z → string → Prop).
Context (s : paymentService) `{Calendar}.

Abbreviation payInv := (payInv knows).
Abbreviation stable := (stable payInv payGuar).
Abbreviation sound := (sound payInv payGuar).
Abbreviation tells := (tells payInv).
Abbreviation safe := (safe payInv payGuar payGuar).
Abbreviation harmless := (harmless payInv payGuar payGuar).

Lemma stable_knowsRow x : stable (knowsRow x).
Proof. intros d d' _ _ HG. by apply knowsRow_guar. Qed.

Lemma stable_knowsRows l : stable (knowsRows l).
Proof. intros d d' _ _ HG Hk x Hx. by apply (knowsRow_guar _ d), Hk. Qed.

(** A transaction that edits the subscriptions, or aborts. *)
Lemma sound_atomically {X} (f : Time → payDB → result goError X * payDB) F :
  (∀ t d, payInv d → F d → edited d (f t d).2) → sound (atomically f) F.
Proof.
  intros Hf t d HI HF. unfold atomically. specialize (Hf t d HI HF).
  destruct (f t d) as [[x|e] d']; cbn [snd] in *; [by apply edited_inv | split; [done | apply payGuar_refl]].
Qed.

Lemma tells_getByID id F : tells (GetByID id) F (λ r d, knowsRow r d).
Proof.
  intros t d r _ _. unfold GetByID, reading, liveRow, anyRow. cbn. destruct (List.find _ _) as [x|] eqn:E; [|done].
  destruct (subDeleted x); [done|]. intros [= <-]. apply find_some in E as [Hin _]. exists x. split; [by apply list_elem_of_In | done].
Qed.

Lemma tells_readChain u p F : tells (reading (λ _ d, Ok (ListByUserIDAndPlanID u p d))) F (λ l d, knowsRows l d).
Proof.
  intros t d l _ _ [= <-] x [Hx _]%elem_of_ListByUserIDAndPlanID. by exists x.
Qed.

(** A read of the service, and the rest of the function. *)
Lemma safe_fetchThen {X B} (f : txn X) (k : X → M B) F Q :
  stable F → (∀ x, stable (Q x)) → sound f F → tells f F Q →
  (∀ x, safe (k x) (λ d, F d ∧ Q x d) (λ _ _, True)) → safe (andThen (fetch f) k) F (λ _ _, True).
Proof. intros HF HQ Hs Ht Hk. apply (safe_query _ _ _ _ _ Q); done. Qed.

Lemma safe_transactThen {X B} text (f : txn (result goError X)) (k : X → M B) F :
  stable F → sound f F → (∀ x, harmless (k x)) → safe (andThen (transact text f) k) F (λ _ _, True).
Proof.
  intros HF Hs Hk. apply safe_query_any; [done | done|]. intros [[x|e]|e]; cbn; [|done..]. by apply harmless_safe.
Qed.

Lemma harmless_fetch {X} (f : txn X) : sound f (λ _, True) → harmless (fetch f).
Proof. intros Hf. apply harmless_query; [done|]. by intros [x|e]. Qed.

Lemma stable_True' : stable (λ _, True).
Proof. apply stable_True. Qed.

Lemma harmless_changePeriod expiry id : harmless (changePeriod expiry id).
Proof.
  unfold changePeriod. apply (safe_queryOrThen knows _ _ _ _ (λ r, knowsRow r)); [done | intros; apply stable_knowsRow | apply sound_reading | apply tells_getByID|].
  intros sub now. destruct (expiry sub now) as [e|err]; [|done].
  apply (safe_fetchThen _ _ _ (λ l, knowsRows l)); [apply stable_and; [done | apply stable_knowsRow] | intros; apply stable_knowsRows | apply sound_reading | apply tells_readChain|].
  intros chain. apply safe_transactThen.
  - apply stable_and; [apply stable_and; [done | apply stable_knowsRow] | apply stable_knowsRows].
  - apply sound_atomically. intros t d HI [_ Hk]. apply edited_periodTx; [apply (inv_sub_ids knows d HI) | done].
  - intros _. apply harmless_fetch, sound_reading.
Qed.

Lemma harmless_extend id days : harmless (ExtendSubscription s id days).
Proof. apply harmless_changePeriod. Qed.

Lemma harmless_validity id days : harmless (SetSubscriptionValidityDays s id days).
Proof. apply harmless_changePeriod. Qed.

Lemma harmless_revoke id : harmless (RevokeSubscription id).
Proof.
  unfold RevokeSubscription. apply (safe_fetchThen _ _ _ (λ r, knowsRow r)); [done | intros; apply stable_knowsRow | apply sound_reading | apply tells_getByID|].
  intros sub. apply (safe_fetchThen _ _ _ (λ l, knowsRows l)); [apply stable_and; [done | apply stable_knowsRow] | intros; apply stable_knowsRows | apply sound_reading | apply tells_readChain|].
  intros chain now. apply safe_query_any.
  - apply stable_and; [apply stable_and; [done | apply stable_knowsRow] | apply stable_knowsRows].
  - apply sound_atomically. intros t d HI [_ Hk]. apply edited_revokeTx; [apply (inv_sub_ids knows d HI) | done].
  - by intros [r|e].
Qed.

Lemma edited_revokeOwn userID id now d :
  NoDup (subID <$> subs d) → edited d (revokeOwnExhaustedSubscriptionInTx userID id now d).2.
Proof.
  intros Hnd. unfold revokeOwnExhaustedSubscriptionInTx. destruct (anyRow id d) as [sub|]; [|apply edited_refl].
  destruct (negb _); [apply edited_refl|]. destruct (subDeleted sub); [apply edited_refl|]. destruct (negb _); [apply edited_refl|].
  destruct (negb _); [apply edited_refl|].
  assert (H1 : edited d (updateRow id (withBody (λ b, UserSubscription.EnsureWindowMaintenance b (subBody sub) now)) d).2).
  { apply edited_updateRow. intros r _ _. apply keptRow_withBody. apply maintenance_terms. }
  destruct (updateRow id _ d) as [u d1]. cbn [snd] in H1. destruct (liveRow id d1) as [sub1|]; [|done].
  destruct (negb _); [done|]. destruct (negb _); [done|]. destruct (negb _); [done|].
  assert (H2 : ∀ p delta, edited d1 (revokeTx (ListByUserIDAndPlanID (subUserID sub1) p d1) sub1 delta now d1).2).
  { intros p delta. apply edited_revokeTx; [by rewrite (edited_ids _ _ H1)|]. intros x [Hx _]%elem_of_ListByUserIDAndPlanID. by exists x. }
  specialize (H2 (subPlanID sub1) (revokeChainDelta sub1 now)).
  destruct (revokeTx _ _ _ _ d1) as [[u2|e] d2]; cbn [snd] in *; [|by eapply edited_trans].
  destruct (replacementOf _ _ _) as [r|]; [|by eapply edited_trans].
  pose proof (edited_rebind (subID sub1) (subID r) d2) as H3. destruct (rebindSubscriptionAPIKeys _ _ d2) as [c d3]. cbn [snd] in *.
  eapply edited_trans; [exact H1|]. by eapply edited_trans.
Qed.

Lemma harmless_revokeOwn userID id : harmless (RevokeOwnExhaustedSubscription userID id).
Proof.
  unfold RevokeOwnExhaustedSubscription. destruct (_ || _); [done|]. apply harmless_transact, sound_atomically.
  intros t d HI _. apply edited_revokeOwn, (inv_sub_ids knows d HI).
Qed.

(** An assignment that belongs to no order. *)
Lemma harmless_assign input : SourceOrderID input = None → harmless (AssignOrExtendSubscription s input).
Proof.
  intros Hs. unfold AssignOrExtendSubscription. apply harmless_query; [apply sound_reading|].
  intros [[existing|]|e]; [done | | done]. destruct (resolveGrantPlanTemplate s input) as [template|e]; [|done].
  apply harmless_transact. apply (sound_assignTx knows s input template (λ _, True)). intros d oid _ _. congruence.
Qed.

Lemma harmless_bulk users planID days daily weekly monthly :
  harmless (BulkAssignSubscription s users planID days daily weekly monthly).
Proof.
  unfold BulkAssignSubscription. generalize emptyBulkResult. induction users as [|u users IH]; intros acc; [done|]. cbn [bulkAssign].
  apply harmless_bind; [by apply harmless_assign | intros r; apply IH].
Qed.
End programs.
