(* ===== verification/RefundSafety.v ===== *)
(** * Refunds keep the payment invariant

    A refund is only executed for an order that was granted: the conditional
    update that starts it shows this, and it stays true.  The later updates of
    the order, which have no condition on the status, are safe because of it. *)

From S2P Require Import Prelude GoRuntime Domain AppErrors Transactions PaymentOrder PaymentDB PaymentGrants SubscriptionChain PaymentFulfillment PaymentRefund PaymentLifecycle PaymentInvariant PaymentSafety SubscriptionSafety.
From S2P Require BillingDB.
#[local] Open Scope Z_scope.

Section programs.
Context (knows : Z → string → Prop).
Context (s : paymentService) `{UnicodeCase} `{UnicodeFold} `{DecimalLib} `{CAL : Calendar} (gw : refundGateway).

Abbreviation payInv := (payInv knows).
Abbreviation stable := (stable payInv payGuar).
Abbreviation sound := (sound payInv payGuar).
Abbreviation tells := (tells payInv).
Abbreviation safe := (safe payInv payGuar payGuar).
Abbreviation harmless := (harmless payInv payGuar payGuar).
Abbreviation maintains := (maintains payInv payGuar payGuar).
Abbreviation yields := (yields payInv payGuar payGuar).

(** The order exists and was granted. *)
Definition paidOut (oid : Z) (d : payDB) : Prop := ∃ o, orders d !! oid = Some o ∧ delivered o d.

Lemma stable_paidOut oid : stable (paidOut oid).
Proof.
  intros d d' HI HI' HG (o & Ho & Hd). destruct (guar_orders _ _ HG oid o Ho) as (o' & Ho' & S). exists o'. split; [done|].
  apply (sameOrder_delivered o); [done|]. exact (delivered_mono knows d d' oid o HI HG Ho Hd).
Qed.

#[local] Hint Resolve stable_paidOut : core.

Lemma sound_users {X} (f : txn X) F : usersOnly f → sound f F.
Proof.
  intros Hf t d HI _. destruct (Hf t d) as [v ->]. split; [|by apply payGuar_same]. split; apply HI.
Qed.

Lemma sound_paidOut oid set : (∀ row, sameOrder (set row) row) → sound (orderUpdateOne oid set) (paidOut oid).
Proof.
  intros Hset. apply sound_orderUpdateOne; [done|]. intros t d row HI (o & Ho & Hd) Hrow _. by assert (row = o) as -> by congruence.
Qed.

Lemma statusIn_refundable row : statusIn refundable row = true → granted (Status row) = true.
Proof.
  unfold statusIn, refundable. cbn [existsb]. rewrite !orb_true_iff, !eqs_true. unfold granted. intros [E|[E|[E|[E|?]]]]; [| | | |done]; by rewrite E.
Qed.

(** *** Rules *)

Lemma keeps_then {A B} F (m : M A) (f : A → M B) : maintains F m → (∀ a, maintains F (f a)) → maintains F (andThen m f).
Proof. intros Hm Hf. apply maintains_bind; [done|]. intros [a|e]; [apply Hf | by apply maintains_ret]. Qed.

Lemma keeps_text {X} F text (f : txn X) : stable F → sound f F → maintains F (query text f).
Proof. intros HF Hs. apply maintains_query; [done | done|]. by intros [x|e]; apply maintains_ret. Qed.

Lemma keeps_update oid text set : (∀ row, sameOrder (set row) row) → maintains (paidOut oid) (query text (orderUpdateOne oid set)).
Proof. intros Hset. apply keeps_text; [done | by apply sound_paidOut]. Qed.

Lemma keeps_audit F oid action {B} (k : P B) : stable F → ¬ assignedAction action → maintains F k → maintains F (run writeAuditLog oid action in k).
Proof. intros HF Ha Hk. apply maintains_bind; [|done]. apply maintains_harmless; [done | by apply harmless_writeAuditLog]. Qed.

(** *** The parts of a refund *)

Lemma keeps_restore p : maintains (paidOut (planOrderID p)) (restoreStatus p).
Proof. apply maintains_bind; [by apply keeps_update | intros r; by apply maintains_ret]. Qed.

Lemma harmless_rollback p : harmless (RollbackRefund s p).
Proof.
  assert (Hf : harmless (run writeAuditLog (planOrderID p) REFUND_ROLLBACK_FAILED in Ret false)).
  { apply harmless_bind; [by apply harmless_writeAuditLog, notAssigned | done]. }
  unfold RollbackRefund. cbv zeta.
  match goal with |- harmless (if _ then Query _ (λ r, match r with Ok _ => ?k | _ => _ end) else _) => assert (Hd : harmless k) end.
  { destruct (takesDays p); [|done]. apply harmless_bind; [apply harmless_extend|]. by intros [r|e]. }
  destruct (takesBalance p); [|exact Hd]. apply harmless_query; [apply sound_users, usersOnly_UpdateBalance|]. by intros [u|e].
Qed.

Lemma keeps_gwFail p e : maintains (paidOut (planOrderID p)) (handleGwFail s p e).
Proof.
  apply maintains_bind; [apply maintains_harmless, harmless_rollback; done|]. intros [|].
  - apply maintains_bind; [apply keeps_restore|]. intros _. apply keeps_audit; [done | by apply notAssigned | by apply maintains_ret].
  - apply maintains_clock. intros now. apply maintains_bind.
    + apply maintains_bind; [by apply keeps_update | intros r; by apply maintains_ret].
    + intros _. apply keeps_audit; [done | by apply notAssigned | by apply maintains_ret].
Qed.

Lemma keeps_refundOk p : maintains (paidOut (planOrderID p)) (markRefundOk p).
Proof.
  apply maintains_clock. intros now. apply keeps_then; [by apply keeps_update|]. intros o.
  apply keeps_audit; [done | by apply notAssigned | by apply maintains_ret].
Qed.

Lemma keeps_refundPending p resp : maintains (paidOut (planOrderID p)) (markRefundPending s p resp).
Proof.
  apply maintains_bind; [apply maintains_harmless, harmless_rollback; done|]. intros ok. apply keeps_then; [by apply keeps_update|]. intros o.
  apply maintains_bind; [|intros u; by apply maintains_ret]. apply maintains_query; [done | | intros r; by apply maintains_ret].
  by apply sound_auditOther, notAssigned.
Qed.

Lemma keeps_finish p resp : maintains (paidOut (planOrderID p)) (finishRefund s p resp).
Proof.
  unfold finishRefund. destruct (validateRefundProviderResponse resp); [|apply keeps_gwFail].
  destruct (isRefunded resp); [apply keeps_refundOk|]. destruct (isRefundPending resp); [apply keeps_refundPending | apply keeps_gwFail].
Qed.

Lemma harmless_gateway p : harmless (gwRefund gw p).
Proof.
  unfold gwRefund. cbv zeta. case_match; [by apply harmless_audit; [apply notAssigned|]|].
  destruct (getRefundProvider gw (planOrder p)) as [prov|e]; [|done].
  destruct (validateProviderSnapshotMetadata _ _ _); [|by apply harmless_audit; [apply notAssigned|]].
  destruct (Refund prov _) as [resp [e|]]; [by case_match | by destruct (validateRefundProviderResponse resp)].
Qed.

(** What the deductions leave of the plan. *)
Definition samePlan (oid : Z) (r : result goError RefundPlan) (d : payDB) : Prop :=
  match r with Ok q => planOrderID q = oid | Err _ => True end.

(** The rest of a refund, with the plan as it is after a deduction. *)
Lemma keeps_planThen {B} p (m : M RefundPlan) (k : RefundPlan → M B) :
  yields m (paidOut (planOrderID p)) (samePlan (planOrderID p)) →
  (∀ q, planOrderID q = planOrderID p → maintains (paidOut (planOrderID p)) (k q)) → maintains (paidOut (planOrderID p)) (andThen m k).
Proof.
  intros Hm Hk. apply (yields_bind _ _ _ _ _ _ (samePlan (planOrderID p))); [exact Hm|]. intros [q|e]; [|by intros d _ []].
  apply (safe_pure payInv payGuar payGuar (planOrderID q = planOrderID p)). intros E. by apply Hk.
Qed.

Lemma yields_restoreThen p e Q : (∀ d, Q (Err e) d) → yields (run restoreStatus p in (fails e : M RefundPlan)) (paidOut (planOrderID p)) Q.
Proof.
  intros HQ. apply (yields_bind _ _ _ _ _ _ (λ _ _, True)); [apply keeps_restore|]. intros u d _ [? _]. split; [done | apply HQ].
Qed.

Lemma yields_unlessFailed {B} p (k : bool → M B) Q :
  (∀ b, yields (k b) (paidOut (planOrderID p)) Q) →
  yields (bindProg k (hasAuditLog (planOrderID p) REFUND_ROLLBACK_FAILED)) (paidOut (planOrderID p)) Q.
Proof.
  intros Hk. apply (yields_bind _ _ _ _ _ _ (λ _ _, True)); [apply harmless_yields; [done | apply harmless_hasAuditLog]|].
  intros b. eapply safe_weaken; [apply Hk | by intros d _ [] | done].
Qed.

Lemma yields_deductBalance p : yields (deductBalance s p) (paidOut (planOrderID p)) (samePlan (planOrderID p)).
Proof.
  unfold deductBalance. destruct (takesBalance p); [|by apply yields_ret]. apply yields_unlessFailed. intros [|]; [by apply yields_ret|].
  apply safe_query_any; [done | apply sound_users, usersOnly_DeductBalance|].
  intros [v|e]; [by apply yields_ret | by apply yields_restoreThen].
Qed.

Lemma yields_shorten p F onError :
  planOrderID p = F → (∀ text e, yields (onError text e) (paidOut F) (samePlan F)) →
  yields (shortenOrRevoke s p onError) (paidOut F) (samePlan F).
Proof.
  intros E Hfail.
  assert (Hok : ∀ {X} (m : M X) (k : result goError X → M RefundPlan), harmless m →
      (∀ r, yields (k r) (paidOut F) (samePlan F)) → yields (bindProg k m) (paidOut F) (samePlan F)).
  { intros X m k Hm Hk. apply (yields_bind _ _ _ _ _ _ (λ _ _, True)); [by apply harmless_yields|].
    intros r. eapply safe_weaken; [apply Hk | by intros d _ [] | done]. }
  apply Hok; [apply harmless_extend|]. intros [r|e]; [by apply yields_ret|]. destruct (Is _ _); [|apply Hfail].
  apply Hok; [apply harmless_revoke|]. intros [u|e']; [by apply yields_ret | apply Hfail].
Qed.

Lemma yields_deductDays p : yields (deductDays s p) (paidOut (planOrderID p)) (samePlan (planOrderID p)).
Proof.
  unfold deductDays. destruct (takesDays p); [|by apply yields_ret]. apply yields_unlessFailed. intros [|]; [by apply yields_ret|].
  apply yields_shorten; [done|]. intros text e. by apply yields_restoreThen.
Qed.

(** The conditional update that starts a refund shows that the order was granted. *)
Lemma claim_sound oid cond F : (∀ row, cond row = true → granted (Status row) = true) → sound (orderUpdate oid cond (SetStatus OrderStatusRefunding)) F.
Proof.
  intros Hc. apply sound_orderUpdate; [intros row; by repeat split|]. intros t d row HI _ Ho Er _. eapply (inv_done knows d HI oid); auto.
Qed.

Lemma claim_tells oid cond set :
  (∀ row, cond row = true → granted (Status row) = true) → (∀ row, sameOrder (set row) row) →
  tells (orderUpdate oid cond set) (λ _, True) (λ n d, n ≠ 0 → paidOut oid d).
Proof.
  intros Hc Hset t d n HI _. unfold orderUpdate. destruct (orders d !! oid) as [row|] eqn:Eo; [|by intros [= <-]].
  destruct (cond row) eqn:Er; [|by intros [= <-]]. intros _ _. eexists. split; [apply lookup_insert_eq|].
  assert (Hs : sameOrder (set (SetUpdatedAt t row)) row) by (eapply sameOrder_trans; [apply Hset | by repeat split]).
  apply (sameOrder_delivered row); [done|]. eapply (inv_done knows d HI oid); auto.
Qed.

(** A program inside of a transaction. *)
Lemma sound_nested {X} (m : M X) F : harmless m → sound (atomically (λ t d, exec t m d)) F.
Proof.
  intros Hm t d HI _. unfold atomically. pose proof (exec_keeps knows t m d HI Hm) as Hk.
  destruct (exec t m d) as [[x|e] d']; cbn [snd] in *; [exact Hk | split; [done | apply payGuar_refl]].
Qed.

(** A refund that is started by a claim. *)
Lemma harmless_claimed {B} text oid cond (k : M B) e :
  (∀ row, cond row = true → granted (Status row) = true) → maintains (paidOut oid) k →
  harmless (let* n := query text (orderUpdate oid cond (SetStatus OrderStatusRefunding)) in if n =? 0 then failsApp e else k).
Proof.
  intros Hc Hk. apply (safe_textThen knows _ _ _ _ (λ n d, n ≠ 0%Z → paidOut oid d)); [done | | | |].
  - intros n d d' HI HI' HG Hp Hn. by eapply stable_paidOut; [| | |apply Hp].
  - by apply claim_sound.
  - apply claim_tells; [done | intros row; by repeat split].
  - intros n. destruct (Z.eqb_spec n 0) as [_|Hn]; [done|].
    eapply safe_weaken; [by apply maintains_safe|by intros d _ [_ Hp]; apply Hp, Hn|done].
Qed.

Lemma harmless_executeRefund p : harmless (ExecuteRefund s gw p).
Proof.
  apply harmless_claimed; [apply statusIn_refundable|].
  apply keeps_planThen; [apply yields_deductBalance|]. intros q1 E1. rewrite <- E1.
  apply keeps_planThen; [apply yields_deductDays|]. intros q2 E2. rewrite <- E2.
  apply maintains_bind; [apply maintains_harmless; [done | apply harmless_gateway]|]. intros [resp|e]; [apply keeps_finish | apply keeps_gwFail].
Qed.

Lemma yields_finalDeduction p : yields (applyRefundFinalDeduction s p) (paidOut (planOrderID p)) (samePlan (planOrderID p)).
Proof.
  unfold applyRefundFinalDeduction. apply (yields_bind _ _ _ _ _ _ (samePlan (planOrderID p))).
  - destruct (takesBalance p); [|by apply yields_ret]. apply safe_query_any; [done | apply sound_users, usersOnly_DeductBalance|].
    by intros [v|e]; apply yields_ret.
  - intros [q|e]; [|by intros d _ []]. apply (safe_pure payInv payGuar payGuar (planOrderID q = planOrderID p)). intros E.
    destruct (takesDays q); [|by apply yields_ret]. apply yields_shorten; [exact E|]. intros text e. by apply yields_ret.
Qed.

Lemma harmless_finalizeTx p : harmless (finalizeTx s p).
Proof.
  apply harmless_claimed; [by intros row [= ->%eqs_true]|].
  apply keeps_planThen; [apply yields_finalDeduction|]. intros q E. rewrite <- E.
  apply maintains_clock. intros now. apply keeps_then; [by apply keeps_update|]. intros o.
  apply keeps_then; [|intros u; by apply maintains_ret]. apply keeps_text; [done|]. by apply sound_auditOther, notAssigned.
Qed.

Lemma harmless_finalizePending p : harmless (finalizePendingRefundSuccess s p).
Proof. apply harmless_transact, sound_nested, harmless_finalizeTx. Qed.

Lemma keeps_finalizeFailed o e : maintains (paidOut (ID o)) (finalizeRefundFailed s o e).
Proof.
  apply maintains_clock. intros now. apply maintains_bind.
  - apply maintains_bind; [by apply keeps_update | intros r; by apply maintains_ret].
  - intros _. apply keeps_audit; [done | by apply notAssigned | by apply maintains_ret].
Qed.

Lemma harmless_latestDetail oid : harmless (latestRefundPendingDetail oid).
Proof. apply harmless_query; [apply sound_reading|]. by intros [[det|]|e]. Qed.

(** An order that was read in a status that grants was granted. *)
Lemma tells_granted oid : tells (orderGet oid) (λ _, True) (λ o d, granted (Status o) = true → paidOut (ID o) d).
Proof.
  intros t d o HI _ Ho Hg. cbn in *. destruct (orders d !! oid) as [o'|] eqn:E; [injection Ho as ->|done].
  destruct (inv_order knows d HI oid o E) as [-> _]. exists o. split; [done | by eapply inv_done].
Qed.

Lemma harmless_queryRefund oid : harmless (QueryAndFinalizeRefund s gw oid).
Proof.
  apply (safe_queryOrThen knows _ _ _ _ (λ o d, granted (Status o) = true → paidOut (ID o) d)); [done | | apply sound_reading | apply tells_granted|].
  - intros o d d' HI HI' HG Hp Hg. by eapply stable_paidOut; [| | |apply Hp].
  - intros o. destruct (eqs (Status o) OrderStatusRefundPending) eqn:Es; [|done]. cbn [negb].
    apply eqs_true in Es. eapply safe_weaken; [|by intros d _ [_ Hp]; apply Hp; rewrite Es|done]. apply maintains_safe.
    assert (Hret : ∀ e, maintains (paidOut (ID o)) (fails e : M RefundResult)) by (intros e; apply maintains_ret).
    destruct (getRefundProvider gw o) as [prov|e]; [|apply Hret]. destruct (QueryRefund prov) as [ask|]; [|apply Hret].
    apply maintains_bind; [apply maintains_harmless; [done | apply harmless_latestDetail]|]. intros detail.
    destruct (ask _) as [resp|e]; [|apply Hret]. destruct (validateRefundProviderResponse resp); [|apply keeps_finalizeFailed].
    destruct (isRefunded resp); [apply maintains_harmless; [done | apply harmless_finalizePending]|].
    destruct (isRefundPending resp); [|apply keeps_finalizeFailed].
    apply keeps_audit; [done | by apply notAssigned | by apply maintains_ret].
Qed.

Lemma harmless_requestRefund oid uid reason : harmless (RequestRefund s gw oid uid reason).
Proof.
  apply harmless_andThen.
  - apply harmless_andThen; [apply harmless_queryOr, sound_reading|]. intros o. repeat (case_match; [done|]).
    destruct (getRefundOrderProviderInstance gw o) as [[inst|]|e]; [by case_match | done | done].
  - intros o. apply harmless_andThen; [apply harmless_text, sound_reading|]. intros held. case_match; [done|].
    apply harmless_clock. intros now. apply harmless_andThen.
    + apply harmless_text, sound_orderUpdate; [intros row; by repeat split|]. intros t d row HI _ Hrow Hc _.
      apply andb_true_iff in Hc as [[_ Hc]%andb_true_iff _]. apply eqs_true in Hc.
      apply (inv_done knows d HI oid); [done | by rewrite Hc].
    + intros n. case_match; [done|]. by apply harmless_audit; [apply notAssigned|].
Qed.

Lemma harmless_prepDeduct o p force : harmless (prepDeduct s o p force).
Proof.
  unfold prepDeduct. cbv zeta. destruct (eqs _ _).
  - apply harmless_query; [apply sound_reading|]. intros r. apply harmless_clock. intros now. by destruct (_ && _).
  - apply harmless_query; [apply sound_reading|]. intros [held|e]; [by destruct (_ && _) | by destruct force].
Qed.

Lemma harmless_prepareRefund oid amt reason force deduct : harmless (PrepareRefund s gw oid amt reason force deduct).
Proof.
  apply harmless_andThen; [apply harmless_queryOr, sound_reading|]. intros o. destruct (negb _); [done|].
  destruct (getRefundOrderProviderInstance gw o) as [[inst|]|e]; [|done..]. destruct (negb _); [done|]. destruct (_ || _); [done|].
  cbv zeta. match goal with |- harmless (if ?b then _ else _) => destruct b end; [done|]. destruct deduct; [|done].
  by apply harmless_bind; [apply harmless_prepDeduct|].
Qed.
End programs.
