(* ===== verification/PaymentSystem.v ===== *)
(** * The payment system

    Every program that writes the tables of payments (refunds included), run in
    any interleaving with the changes of others: what holds of every reachable database.  Then
    what one undisturbed run achieves from such a database. *)

From S2P Require Import Prelude GoRuntime Domain AppErrors Transactions PaymentOrder PaymentDB PaymentGrants SubscriptionChain PaymentFulfillment PaymentRefund PaymentLifecycle PaymentInvariant PaymentSafety SubscriptionSafety RefundSafety.
From S2P Require RedeemCode BillingDB.
#[local] Open Scope Z_scope.

Section system.
Context (knows : Z → string → Prop).
Context (s : paymentService) `{UnicodeCase} `{UnicodeFold} `{CAL : Calendar} `{DEC : DecimalLib}.

(** The calls: of webhooks, of users, of administrators, of background jobs. *)
Inductive paymentEntry : P unit → Prop :=
  | entry_notification env n pk : paymentEntry (ignore (HandlePaymentNotification s env n pk))
  | entry_retry env oid : paymentEntry (ignore (RetryFulfillment s env oid))
  | entry_create req answer : paymentEntry (ignore (createOrder req answer))
  | entry_cancel env providerOf oid userID : paymentEntry (ignore (CancelOrder s env providerOf oid userID))
  | entry_adminCancel env providerOf oid : paymentEntry (ignore (AdminCancelOrder s env providerOf oid))
  | entry_forceExpire oid reason : paymentEntry (ignore (ForceExpireOrder oid reason))
  | entry_verify env providerOf outTradeNo userID : paymentEntry (ignore (VerifyOrderByOutTradeNo s env providerOf outTradeNo userID))
  | entry_wxpay env providerOf created : paymentEntry (ignore (ReconcilePendingWxpayOrders s env providerOf created))
  | entry_expire env providerOf rows : paymentEntry (ignore (ExpireTimedOutOrders s env providerOf rows))
  | entry_processing env providerOf cursor now : paymentEntry (ignore (reconcileProcessingOrdersAt s env providerOf cursor now))
  | entry_paid env cursor now : paymentEntry (ignore (reconcilePaidFulfillmentOrdersAt s env cursor now))
  | entry_assign input : SourceOrderID input = None → paymentEntry (ignore (AssignOrExtendSubscription s input))
  | entry_bulk users planID days daily weekly monthly :
      paymentEntry (bindProg (λ _, Ret tt) (BulkAssignSubscription s users planID days daily weekly monthly))
  | entry_extend id days : paymentEntry (ignore (ExtendSubscription s id days))
  | entry_validity id days : paymentEntry (ignore (SetSubscriptionValidityDays s id days))
  | entry_revoke id : paymentEntry (ignore (RevokeSubscription id))
  | entry_revokeOwn userID id : paymentEntry (ignore (RevokeOwnExhaustedSubscription userID id))
  | entry_requestRefund gw oid uid reason : paymentEntry (ignore (RequestRefund s gw oid uid reason))
  | entry_prepareRefund gw oid amt reason force deduct : paymentEntry (ignore (PrepareRefund s gw oid amt reason force deduct))
  | entry_executeRefund gw p : paymentEntry (ignore (ExecuteRefund s gw p))
  | entry_queryRefund gw oid : paymentEntry (ignore (QueryAndFinalizeRefund s gw oid))
  | entry_redeem env user code : knows user (TrimSpace code) → paymentEntry (ignore (Redeem s env user code)).

(** No order yet, and nothing that could belong to one. *)
Definition noPayments (d : payDB) : Prop :=
  orders d = ∅ ∧ audits d = ∅ ∧
  (∀ k c, codes d !! k = Some c → RedeemCode.Code c = k ∧ ¬ isPayCode k) ∧
  (∀ c, c ∈ credits d → ¬ isPayCode (creditCode c)) ∧
  (∀ k c, codes d !! k = Some c → RedeemCode.ID c < nextCodeID d) ∧
  (∀ k k' c c', codes d !! k = Some c → codes d !! k' = Some c' → RedeemCode.ID c = RedeemCode.ID c' → k = k') ∧
  (∀ id user, (id, user) ∈ usages d → id < nextCodeID d) ∧
  (∀ r, r ∈ subs d → subSourceOrderID r = None ∧ subID r <= Z.of_nat (length (subs d))) ∧ NoDup (subID <$> subs d) ∧
  (∀ r, r ∈ rebates d → r.1.1 = None).

Definition paymentInit (x : system payDB) : Prop := noPayments (db x) ∧ pool x = [].

(** The databases that the system reaches. *)
Definition paymentReachable : system payDB → Prop := reachable paymentInit (systemStep paymentEntry outside).

Lemma entry_harmless p : paymentEntry p → harmless (payInv knows) payGuar payGuar p.
Proof.
  intros [env n pk|env oid|req answer|env pr oid u|env pr oid|oid reason|env pr no u|env pr f|env pr f|env pr c now|env c now|input Hi|us pl ds da we mo|id days|id days|id|u id|gw oid u re|gw oid a re f de|gw pl|gw oid|env u code Hk];
    try apply harmless_ignore; try by auto using harmless_notification, harmless_retry, harmless_create, harmless_cancel,
      harmless_adminCancel, harmless_forceExpireOrder, harmless_verify, harmless_wxpay, harmless_expire,
      harmless_reconcileProcessing, harmless_reconcilePaid, harmless_assign, harmless_extend, harmless_validity,
      harmless_revoke, harmless_revokeOwn, harmless_requestRefund, harmless_prepareRefund, harmless_executeRefund, harmless_queryRefund.
  - apply harmless_bind; [apply harmless_bulk | done].
  - apply harmless_redeem. intros d _ i o _ _. by right.
Qed.

Lemma filter_nil_iff {X} (Q : X → Prop) `{∀ x, Decision (Q x)} l : (∀ x, x ∈ l → ¬ Q x) → filter Q l = [].
Proof.
  induction l as [|x l IH]; intros Hl; [done|]. rewrite filter_cons_False by (apply Hl; constructor).
  apply IH. intros y Hy. apply Hl. by constructor.
Qed.

Lemma noPayments_inv d : noPayments d → payInv knows d.
Proof.
  intros (Eo & Ea & Hc & Hcr & Hid & Hinj & Hu & Hs & Hnd & Hr). assert (Hau : ∀ oid action, audited oid action d = false).
  { intros oid action. unfold audited. rewrite Ea, lookup_empty. by apply bool_decide_eq_false_2; intros []. }
  split.
  - intros i o. by rewrite Eo, lookup_empty.
  - intros i j o p. by rewrite Eo, lookup_empty.
  - intros k c Hk. by apply (Hc k c).
  - intros i n Hi [c Hk]. destruct (Hc _ _ Hk) as [_ []]. by exists i, n.
  - intros c Hin Hp. by destruct (Hcr c Hin).
  - intros i o. by rewrite Eo, lookup_empty.
  - intros i o. by rewrite Eo, lookup_empty.
  - intros oid action _. by rewrite Hau.
  - intros oid. unfold sourceRows. rewrite filter_nil_iff; [cbn; lia|]. intros r Hin. unfold sourceIs. by rewrite (proj1 (Hs r Hin)).
  - exact Hnd.
  - intros r Hin. by apply Hs.
  - exact Hid.
  - exact Hinj.
  - intros id user Hin. split; [by eapply Hu|]. intros k c Hk _ Hp. by destruct (Hc k c Hk).
  - intros oid. unfold rebatesOf. rewrite filter_nil_iff; [cbn; lia|]. intros r Hin. by rewrite (Hr r Hin).
Qed.

Lemma paymentReachable_keeps x : paymentReachable x → keepsSafe (payInv knows) payGuar x.
Proof.
  apply (reachable_keepsSafe paymentEntry outside); [apply entry_harmless | apply outside_sound | apply payGuar_refl|].
  intros x0 [Hn Hp]. split; [by apply noPayments_inv | done].
Qed.

Lemma paymentReachable_inv x : paymentReachable x → payInv knows (db x).
Proof. by intros [HI _]%paymentReachable_keeps. Qed.

(** The guarantee holds between any two databases of a run. *)
Lemma paymentReachable_guar x x' : paymentReachable x → rtc (systemStep paymentEntry outside) x x' → payGuar (db x) (db x').
Proof.
  intros Hx. apply (steps_guar paymentEntry outside (payInv knows)); [apply entry_harmless | apply outside_sound | apply payGuar_refl | apply payGuar_trans|].
  by apply paymentReachable_keeps.
Qed.

(** C1: However the programs interleave, and whatever breaks, the code of an
    order is credited at most once: for the amount of the order, to its owner
    or to somebody who knew the code. *)
Theorem order_credited_once x i o :
  paymentReachable x → orders (db x) !! i = Some o →
  creditsOf (RechargeCode o) (db x) = [] ∨
  ∃ user, creditsOf (RechargeCode o) (db x) = [BalanceCredit user (RechargeCode o) (Amount o)] ∧
    (user = UserID o ∨ knows user (RechargeCode o)).
Proof.
  intros Hx Ho. pose proof (inv_order_code knows _ (paymentReachable_inv x Hx) i o Ho) as Hs. unfold codeState in Hs.
  destruct (codes (db x) !! RechargeCode o) as [c|]; [|by left].
  destruct Hs as (_ & _ & _ & _ & [(_ & _ & Hn)|(_ & _ & user & Hu)]); [by left | right; by exists user].
Qed.

(** C7: An order that is completed, or was and is being refunded, has been
    granted: a balance order credited its amount exactly once, a subscription
    order got a subscription of its own. *)
Theorem completed_order_granted x i o :
  paymentReachable x → orders (db x) !! i = Some o → granted (Status o) = true →
  if eqs (OrderType o) OrderTypeSubscription then ∃ r, r ∈ subs (db x) ∧ subSourceOrderID r = Some i
  else ∃ user, creditsOf (RechargeCode o) (db x) = [BalanceCredit user (RechargeCode o) (Amount o)].
Proof.
  intros Hx Ho Hg. pose proof (paymentReachable_inv x Hx) as HI. pose proof (inv_done knows _ HI i o Ho Hg) as Hd.
  destruct (inv_order knows _ HI i o Ho) as [Hid _]. unfold delivered in Hd. rewrite Hid in Hd.
  destruct (eqs _ _); [exact Hd|]. destruct Hd as (c & Hc & Hu).
  pose proof (inv_order_code knows _ HI i o Ho) as Hs. unfold codeState in Hs. rewrite Hc in Hs.
  destruct Hs as (_ & _ & _ & _ & [[H0' _]|(_ & _ & user & Hcr & _)]); [lia | by exists user].
Qed.


(** The affiliate of the buyer is paid at most once for an order. *)
Theorem order_rebated_once x i : paymentReachable x → (length (rebatesOf i (db x)) ≤ 1)%nat.
Proof. intros Hx. pose proof (inv_rebates knows _ (paymentReachable_inv x Hx) i). case_match; lia. Qed.

(** ** One undisturbed run *)

(** What an order needs from its surroundings to be fulfilled. *)
Record fulfillmentWorks (env : redeemEnv) (o : PaymentOrder) (d : payDB) : Prop := {
  works_rate : rateLimited env = false;
  works_lock : lockAcquired env = true;
  works_user : is_Some (liveUser (UserID o) d);
  works_amount : f64_gt (Amount o) f64_zero = true;
  works_numeric : is_Some (BillingDB.sqlParam (SQLNumeric := payNumeric s) (Amount o));
  works_affiliate : ∀ now user amount source e, AccrueInviteRebate s now user amount source ≠ Err e;
}.

Lemma exec_rebate t o d :
  (∀ now user amount source e, AccrueInviteRebate s now user amount source ≠ Err e) →
  ∃ d', exec t (applyAffiliateRebateForOrder s o) d = (Ok tt, d') ∧ orders d' = orders d ∧ users d' = users d.
Proof.
  intros Ha. unfold applyAffiliateRebateForOrder. destruct (f64_le _ _); [by exists d|]. destruct (negb _); [by exists d|].
  rewrite exec_bindProg. cbn. unfold rebateTx. destruct (_ || _); [by exists d|].
  destruct (AccrueInviteRebate _ _ _ _ _) as [rebate|e] eqn:E; [|by destruct (Ha _ _ _ _ _ E)].
  destruct (f64_le rebate f64_zero); by eexists.
Qed.

Lemma exec_markCompleted t o lease action d row :
  orders d !! ID o = Some row → holdsLease lease row = true →
  ∃ d' o', exec t (markCompleted o lease action) d = (Ok tt, d') ∧ orders d' !! ID o = Some o' ∧
    Status o' = OrderStatusCompleted ∧ users d' = users d.
Proof.
  intros Ho Hl. unfold markCompleted. cbn [exec]. rewrite exec_andThen, exec_query. unfold orderUpdate. rewrite Ho, Hl.
  cbn [Z.eqb]. set (d1 := setOrders _ d). set (o1 := SetStatus _ _) in d1.
  assert (Ho1 : orders d1 !! ID o = Some o1) by apply lookup_insert_eq.
  rewrite exec_bindProg, exec_hasAuditLog. destruct (audited _ _ d1); [by exists d1, o1|].
  rewrite exec_bindProg. pose proof (exec_audit t (ID o) action d1) as Ha.
  destruct (exec t (writeAuditLog (ID o) action) d1) as [u d2]. cbn in Ha. exists d2, o1. destruct Ha as (-> & -> & _). done.
Qed.

Lemma exec_acquire t o d :
  orders d !! ID o = Some o →
  statusIn [OrderStatusPaid; OrderStatusFailed] o
  || statusEQ OrderStatusRecharging o && negb (After (UpdatedAt o) (Add (t - t mod Microsecond) (- paymentFulfillmentLeaseDuration))) = true →
  ∃ row d', exec t (acquirePaymentFulfillmentLease o) d = (Ok (Some (mkLease (UpdatedAt row))), d') ∧
    orders d' !! ID o = Some row ∧ holdsLease (mkLease (UpdatedAt row)) row = true ∧ sameOrder row o ∧
    codes d' = codes d ∧ users d' = users d ∧ usages d' = usages d ∧ nextCodeID d' = nextCodeID d ∧ credits d' = credits d.
Proof.
  intros Ho Hs. unfold acquirePaymentFulfillmentLease. cbn [exec]. rewrite exec_andThen, exec_query. unfold orderUpdate.
  rewrite Ho, Hs. cbn [Z.eqb]. set (d1 := setOrders _ d). set (row := SetStatus _ _) in d1.
  assert (Ho1 : orders d1 !! ID o = Some row) by apply lookup_insert_eq.
  rewrite exec_andThen, exec_query. unfold orderGet, reading. rewrite Ho1. cbn [found].
  exists row, d1. split; [done|]. split; [done|]. split.
  { unfold holdsLease, statusEQ. cbn [version]. by rewrite Z.eqb_refl, andb_true_r. }
  split; [by repeat split | done].
Qed.

(** A code as [doBalance] creates it. *)
Definition freshCode (value : float64) (c : RedeemCode.RedeemCode) : Prop :=
  RedeemCode.Value c = value ∧ RedeemCode.Type_ c = RedeemCode.RedeemTypeBalance ∧ RedeemCode.MaxUses c = 1 ∧ RedeemCode.ExpiresAt c = None ∧
  RedeemCode.UsedCount c = 0 ∧ RedeemCode.Status c = RedeemCode.StatusUnused.

Lemma exec_createCode t code value d :
  TrimSpace code = code → eqs code "" = false → f64_eq value f64_zero = false → codes d !! code = None →
  ∃ c d', exec t (CreateCode (newBalanceCode code value)) d = (Ok tt, d') ∧ codes d' !! code = Some c ∧ freshCode value c ∧
    RedeemCode.ID c = nextCodeID d ∧ orders d' = orders d ∧ users d' = users d ∧ usages d' = usages d.
Proof.
  intros Ht Hne Hv Hc. unfold CreateCode. cbn [RedeemCode.Code newBalanceCode]. rewrite Ht, Hne.
  change (RedeemCode.Value _) with value. rewrite Hv, andb_false_r, exec_query. unfold createCodeTx.
  set (c := RedeemCode.normalizeNewCode _). change (RedeemCode.Code c) with code.
  rewrite (bool_decide_eq_false_2 (is_Some _)) by (by apply eq_None_not_Some).
  exists (RedeemCode.setID (nextCodeID d) c). eexists. split; [done|]. split; [apply lookup_insert_eq|]. done.
Qed.

(** The users after one credit of [amount]. *)
Definition creditedUsers (user : Z) (amount : float64) (d : payDB) : gmap Z userRow :=
  match BillingDB.sqlParam (SQLNumeric := payNumeric s) amount, users d !! user with
  | Some q, Some u => <[user := topUp amount q u]> (users d)
  | _, _ => users d
  end.

Lemma gt_zero_not_lt x : f64_gt x f64_zero = true → f64_lt x f64_zero = false ∧ f64_eq x f64_zero = false.
Proof. by destruct x as [[]|[]| |[]]. Qed.

Lemma exec_adjustBalance t user amount d :
  f64_gt amount f64_zero = true → is_Some (liveUser user d) → is_Some (BillingDB.sqlParam (SQLNumeric := payNumeric s) amount) →
  adjustBalance s user amount t d = (Ok tt, setUsers (creditedUsers user amount d) d).
Proof.
  intros Hpos [u Hu] [q Hq]. unfold adjustBalance, UpdateBalance, creditedUsers, numericOf.
  destruct (gt_zero_not_lt amount Hpos) as [-> _]. rewrite Hq. unfold liveUser in Hu. by destruct (users d !! user).
Qed.

Lemma exec_redeem env t user code c amount d :
  rateLimited env = false → lockAcquired env = true → TrimSpace code = code → eqs code "" = false →
  codes d !! code = Some c → freshCode amount c → (RedeemCode.ID c, user) ∉ usages d → is_Some (liveUser user d) →
  f64_gt amount f64_zero = true → is_Some (BillingDB.sqlParam (SQLNumeric := payNumeric s) amount) →
  ∃ r d', exec t (Redeem s (fulfillmentEnv env) user code) d = (Ok r, d') ∧ orders d' = orders d ∧
    users d' = creditedUsers user amount d.
Proof.
  intros Hr Hl Ht Hne Hc (Fv & F1 & F2 & F3 & F4 & F5) Hu Huser Hpos Hnum. unfold Redeem. rewrite Ht, Hne. cbn [rateLimited lockAcquired fulfillmentEnv skipAffiliate].
  rewrite Hr, Hl. cbn [negb]. rewrite exec_andThen.
  assert (Hv : validateRedeemCodeForUser c user t d = None).
  { unfold validateRedeemCodeForUser, RedeemCode.IsExpired, RedeemCode.IsNaturallyExpired, RedeemCode.HasRemainingUses,
      RedeemCode.HasUnlimitedUses, RedeemCode.maxUsesOrDefault.
    rewrite F2, F3, F4, F5, bool_decide_eq_false_2 by done. done. }
  assert (Htx : ∃ d1, redeemTx s user code t d = (Ok (Ok (RedeemCode.useCode user t c)), d1) ∧ orders d1 = orders d ∧
      codes d1 !! code = Some (RedeemCode.useCode user t c) ∧ users d1 = creditedUsers user amount d).
  { unfold redeemTx. rewrite Hc, Hv. unfold unsupportedRedeemType, grantCode.
    rewrite F1, Fv, (bool_decide_eq_true_2 _ Huser), exec_adjustBalance by done.
    eexists. split; [reflexivity|]. split; [done|]. split; [apply lookup_insert_eq | done]. }
  destruct Htx as (d1 & E & Eo & Ec & Eu). cbn [exec transact]. rewrite E. cbn [exec].
  change (RedeemCode.Type_ (RedeemCode.useCode user t c)) with (RedeemCode.Type_ c). rewrite exec_bindProg.
  assert (∃ d2, exec t (if eqs (RedeemCode.Type_ c) RedeemCode.RedeemTypeBalance && f64_gt (RedeemCode.Value (RedeemCode.useCode user t c)) f64_zero
    then tryAccrueAffiliateRebateForRedeem s true user (RedeemCode.Value (RedeemCode.useCode user t c)) else Ret tt) d1 = (tt, d2) ∧ d2 = d1) as (d2 & -> & ->).
  { exists d1. by destruct (_ && _). }
  rewrite exec_query. unfold codeByID, reading.
  destruct (filter _ (map_to_list (codes d1))) as [|[k c'] l] eqn:Ef; [|by exists c', d1].
  assert ((code, RedeemCode.useCode user t c) ∈ ([] : list (string * RedeemCode.RedeemCode))) as []%not_elem_of_nil.
  rewrite <- Ef. apply list_elem_of_filter. split; [done | by apply elem_of_map_to_list].
Qed.

(** The code of a stored order is absent, fresh, or used. *)
Lemma code_cases d i o t :
  payInv knows d → orders d !! i = Some o →
  TrimSpace (RechargeCode o) = RechargeCode o ∧ eqs (RechargeCode o) "" = false ∧
  match codes d !! RechargeCode o with
  | None => creditsOf (RechargeCode o) d = [] ∧ ∀ user, (nextCodeID d, user) ∉ usages d
  | Some c => RedeemCode.IsUsed c t = true ∧ creditsOf (RechargeCode o) d ≠ [] ∨
      RedeemCode.IsUsed c t = false ∧ freshCode (Amount o) c ∧ creditsOf (RechargeCode o) d = [] ∧
      ∀ user, (RedeemCode.ID c, user) ∉ usages d
  end.
Proof.
  intros HI Ho. destruct (inv_order knows d HI i o Ho) as (_ & _ & n & En). split; [by rewrite En, rechargeCodeOf_trim|].
  split; [by rewrite En|]. pose proof (inv_order_code knows d HI i o Ho) as Hs. unfold codeState in Hs.
  destruct (codes d !! RechargeCode o) as [c|] eqn:Ec.
  - destruct Hs as (H1 & Hv & H3 & H4 & [(H5 & H6 & Hc)|(H5 & H6 & user & Hc & _)]); [right | left].
    + split; [|split; [|split; [done|]]].
      * clear -H1 H3 H4 H5 H6. destruct c. cbn in *. by subst.
      * by repeat split.
      * intros user Hin. destruct (inv_usages knows d HI _ _ Hin) as [_ Hu].
        pose proof (Hu _ _ Ec eq_refl (order_payCode knows d i o HI Ho)). lia.
    + split; [|by rewrite Hc]. clear -H1 H3 H4 H5 H6. destruct c. cbn in *. by subst.
  - split; [done|]. intros user Hin. destruct (inv_usages knows d HI _ _ Hin). lia.
Qed.

(** The fulfilment of [o] credits its owner, unless an earlier run did. *)
Definition paysOut (o : PaymentOrder) (d d' : payDB) : Prop :=
  users d' = match creditsOf (RechargeCode o) d with [] => creditedUsers (UserID o) (Amount o) d | _ => users d end.

Lemma exec_doBalance env t o row lease d :
  payInv knows d → orders d !! ID o = Some row → sameOrder row o → holdsLease lease row = true → fulfillmentWorks env o d →
  ∃ d' o', exec t (doBalance s env o lease) d = (Ok tt, d') ∧ orders d' !! ID o = Some o' ∧ Status o' = OrderStatusCompleted ∧
    paysOut o d d'.
Proof.
  intros HI Ho S Hl [Hr Hk Hu Ha Hn Haff]. destruct (code_cases d _ row t HI Ho) as (Ht & Hne & Hc).
  destruct S as (_ & _ & _ & S4 & S5 & _). rewrite S4, S5 in *. unfold paysOut.
  assert (Hfinish : ∀ d1, orders d1 = orders d → ∃ d' o',
      exec t (do* applyAffiliateRebateForOrder s o in markCompleted o lease "RECHARGE_SUCCESS") d1 = (Ok tt, d') ∧
      orders d' !! ID o = Some o' ∧ Status o' = OrderStatusCompleted ∧ users d' = users d1).
  { intros d1 E1. destruct (exec_rebate t o d1 Haff) as (d2 & E2 & Eo & Eu). rewrite exec_andThen, E2.
    destruct (exec_markCompleted t o lease "RECHARGE_SUCCESS" d2 row) as (d' & o' & E3 & Ho' & Hs & Eu'); [by rewrite Eo, E1 | done|].
    exists d', o'. split; [done|]. split; [done|]. split; [done | congruence]. }
  assert (Hredeem : ∀ d1 c, orders d1 = orders d → users d1 = users d → codes d1 !! RechargeCode o = Some c → freshCode (Amount o) c →
      (RedeemCode.ID c, UserID o) ∉ usages d1 → ∃ d' o',
      exec t (do* wrapError "redeem balance" (Redeem s (fulfillmentEnv env) (UserID o) (RechargeCode o)) in
              do* applyAffiliateRebateForOrder s o in markCompleted o lease "RECHARGE_SUCCESS") d1 = (Ok tt, d') ∧
      orders d' !! ID o = Some o' ∧ Status o' = OrderStatusCompleted ∧ users d' = creditedUsers (UserID o) (Amount o) d).
  { intros d1 c E1 E2 Ec Hf Hus.
    destruct (exec_redeem env t (UserID o) (RechargeCode o) c (Amount o) d1) as (r & d2 & E & Eo & Eu); try done; [by unfold liveUser; rewrite E2|].
    rewrite exec_andThen, (exec_wrapError _ _ _ _ _ _ E). destruct (Hfinish d2) as (d' & o' & E3 & Ho' & Hs & Eu'); [congruence|].
    exists d', o'. split; [done|]. split; [done|]. split; [done|]. rewrite Eu', Eu. unfold creditedUsers. by rewrite E2. }
  unfold doBalance. cbn [exec GetByCode reading]. destruct (codes d !! RechargeCode o) as [c|] eqn:Ec; cbn [found resolveRedeemAction].
  - destruct Hc as [[-> Hcr]|(-> & Hf & -> & Hus)]; [|by apply (Hredeem d c)].
    destruct (creditsOf _ d); [done|]. by apply Hfinish.
  - destruct Hc as [-> Hus]. destruct (gt_zero_not_lt _ Ha) as [_ Ha'].
    destruct (exec_createCode t (RechargeCode o) (Amount o) d Ht Hne Ha' Ec) as (c & d1 & E & Ec1 & Hf & Hid & Eo & Eu & Es).
    rewrite exec_andThen, (exec_wrapError _ _ _ _ _ _ E). apply (Hredeem d1 c); try done. rewrite Es, Hid. apply Hus.
Qed.

(** The order is paid and nobody else is fulfilling it. *)
Definition fulfillableAt (t : Time) (o : PaymentOrder) : bool :=
  statusIn [OrderStatusPaid; OrderStatusFailed] o
  || statusEQ OrderStatusRecharging o && negb (After (UpdatedAt o) (Add (t - t mod Microsecond) (- paymentFulfillmentLeaseDuration))).

Lemma fulfillableAt_status t o :
  fulfillableAt t o = true → eqs (Status o) OrderStatusCompleted = false ∧ fulfillable o = Ok tt.
Proof.
  unfold fulfillableAt, statusIn, statusEQ, fulfillable, psIsRefundStatus. cbn [existsb]. rewrite orb_false_r. intros H1.
  assert (Status o = OrderStatusPaid ∨ Status o = OrderStatusFailed ∨ Status o = OrderStatusRecharging) as Hs.
  { apply orb_true_iff in H1 as [[E|E]%orb_true_iff|[E _]%andb_true_iff]; apply eqs_true in E; auto. }
  by destruct Hs as [-> |[-> | ->]].
Qed.

Lemma exec_fulfillment env t i o d :
  payInv knows d → orders d !! i = Some o → eqs (OrderType o) OrderTypeSubscription = false → fulfillableAt t o = true →
  fulfillmentWorks env o d →
  ∃ d' o', exec t (executeFulfillment s env i) d = (Ok tt, d') ∧ orders d' !! i = Some o' ∧ Status o' = OrderStatusCompleted ∧
    paysOut o d d'.
Proof.
  intros HI Ho Ht Hf Hw. destruct (inv_order knows d HI i o Ho) as [Hid _]. destruct (fulfillableAt_status t o Hf) as [Hnc Hok].
  unfold executeFulfillment. rewrite exec_andThen, exec_query. unfold orderGet at 1, reading. rewrite Ho. cbn [found]. rewrite Ht.
  unfold ExecuteBalanceFulfillment. rewrite exec_andThen. cbn [queryOr exec orderGet reading]. rewrite Ho. cbn [found exec ok].
  rewrite Hnc, Hok. unfold underLease. rewrite exec_andThen.
  destruct (exec_acquire t o d) as (row & d1 & E & Ho1 & Hl & S & Ec & Eu & Es & En & Ecr); [by rewrite Hid | done|].
  assert (HI1 : payInv knows d1).
  { pose proof (exec_safe _ _ t (acquirePaymentFulfillmentLease o) d _ _ HI I (stable_True _ _) (harmless_acquire knows o)) as [H1 _].
    by rewrite E in H1. }
  destruct Hw as [W1 W2 W3 W4 W5 W6].
  destruct (exec_doBalance env t o row (mkLease (UpdatedAt row)) d1 HI1 Ho1 S Hl) as (d2 & o' & E2 & Ho2 & Hs & Hp).
  { split; try done. unfold liveUser. by rewrite Eu. }
  rewrite E, exec_bindProg, E2. exists d2, o'. rewrite <- Hid. split; [done|]. split; [done|]. split; [done|].
  unfold paysOut, creditedUsers in *. unfold creditsOf in *. by rewrite Ecr, Eu in Hp.
Qed.

(** A completed balance order has its one credit. *)
Lemma completed_credit d i o :
  payInv knows d → orders d !! i = Some o → Status o = OrderStatusCompleted → eqs (OrderType o) OrderTypeSubscription = false →
  ∃ user, creditsOf (RechargeCode o) d = [BalanceCredit user (RechargeCode o) (Amount o)] ∧ (user = UserID o ∨ knows user (RechargeCode o)).
Proof.
  intros HI Ho Hs Ht. assert (granted (Status o) = true) as Hg by by rewrite Hs.
  pose proof (inv_done knows _ HI i o Ho Hg) as Hd. unfold delivered in Hd. rewrite Ht in Hd. destruct Hd as (c & Hc & Hu).
  pose proof (inv_order_code knows _ HI i o Ho) as Hst. unfold codeState in Hst. rewrite Hc in Hst.
  destruct Hst as (_ & _ & _ & _ & [[H0' _]|(_ & _ & Hx)]); [lia | exact Hx].
Qed.

(** C8: Whatever was interrupted before, one undisturbed fulfilment of a paid
    balance order completes it: the call succeeds, the order is COMPLETED and its
    amount has been credited exactly once. *)
Theorem paid_order_completes x env t i o :
  paymentReachable x → orders (db x) !! i = Some o → eqs (OrderType o) OrderTypeSubscription = false →
  fulfillableAt t o = true → fulfillmentWorks env o (db x) →
  let '(r, d') := exec t (executeFulfillment s env i) (db x) in
  r = Ok tt ∧ ∃ o', orders d' !! i = Some o' ∧ Status o' = OrderStatusCompleted ∧
    (∃ user, creditsOf (RechargeCode o) d' = [BalanceCredit user (RechargeCode o) (Amount o)]) ∧ paysOut o (db x) d'.
Proof.
  intros Hx Ho Ht Hf Hw. pose proof (paymentReachable_inv x Hx) as HI.
  destruct (exec_fulfillment env t i o (db x) HI Ho Ht Hf Hw) as (d' & o' & E & Ho' & Hs & Hp).
  pose proof (exec_keeps knows t (executeFulfillment s env i) (db x) HI (harmless_executeFulfillment knows s env i)) as [HI' HG].
  rewrite E in *. cbn [snd] in *. split; [done|]. exists o'. split; [done|]. split; [done|].
  destruct (guar_orders _ _ HG i o Ho) as (o2 & Ho2 & S). assert (o2 = o') as -> by congruence.
  destruct S as (_ & _ & S3 & S4 & S5 & _).
  destruct (completed_credit d' i o' HI' Ho' Hs) as (user & Hc & _); [by rewrite S3|]. split; [|exact Hp]. exists user. by rewrite <- S4, <- S5.
Qed.

(** The statuses in which an order has not been paid. *)
Definition unpaid (o : PaymentOrder) : bool :=
  statusIn [OrderStatusPending; OrderStatusProcessing; OrderStatusExpired; OrderStatusCancelled] o.

Lemma orderByOutTradeNo_found d i o t :
  payInv knows d → orders d !! i = Some o → OutTradeNo o ≠ ""%string → fst (orderByOutTradeNo (OutTradeNo o) t d) = Ok o.
Proof.
  intros HI Ho Hne. cbn. destruct (filter _ (map_to_list (orders d))) as [|[j p] l] eqn:Ef.
  - assert ((i, o) ∈ ([] : list (Z * PaymentOrder))) as []%not_elem_of_nil.
    rewrite <- Ef. apply list_elem_of_filter. split; [done | by apply elem_of_map_to_list].
  - assert ((j, p) ∈ (j, p) :: l) as Hin by constructor. rewrite <- Ef in Hin.
    apply list_elem_of_filter in Hin as [Hno Hin%elem_of_map_to_list]. cbn in *.
    assert (j = i) as -> by (by apply (inv_number knows d HI j i p o); rewrite ?Hno). by rewrite Ho in Hin; injection Hin as ->.
Qed.

(** A step that leaves the rows alone that a fulfilment reads. *)
Lemma exec_auditThen {A} t oid action (k : P A) d :
  ¬ assignedAction action → payInv knows d →
  ∃ d', exec t (run writeAuditLog oid action in k) d = exec t k d' ∧ payInv knows d' ∧ orders d' = orders d ∧ users d' = users d ∧
    credits d' = credits d.
Proof.
  intros Ha HI. rewrite exec_bindProg. pose proof (exec_audit t oid action d) as (E1 & E2 & _ & _ & E3).
  destruct (exec_keeps knows t (writeAuditLog oid action) d HI) as [HI' _]; [by apply harmless_writeAuditLog|].
  destruct (exec t (writeAuditLog oid action) d) as [u d']. by exists d'.
Qed.

Lemma exec_toPaid env t o tradeNo paid metadata n d :
  payInv knows d → orders d !! ID o = Some o → eqs (OrderType o) OrderTypeSubscription = false → unpaid o = true →
  fulfillmentWorks env o d →
  ∃ d' o', exec t (toPaidLoop s env (S n) o tradeNo paid metadata) d = (Ok tt, d') ∧
    orders d' !! ID o = Some o' ∧ Status o' = OrderStatusCompleted ∧ paysOut o d d'.
Proof.
  intros HI Ho Ht Hu Hw. cbn [toPaidLoop]. unfold unpaid in Hu. rewrite Hu. cbn [exec]. rewrite exec_andThen, exec_query.
  set (set := λ row, setInvoice metadata (setTradeNo (TrimSpace tradeNo) (SetStatus OrderStatusPaid (SetPayAmount paid (SetPaidAt (Some t) (SetFailedAt None (SetFailedReason None row))))))).
  assert (Hq : quiet set).
  { apply (quiet_compose (setInvoice metadata)); [apply quiet_setInvoice|].
    apply (quiet_compose (setTradeNo _)); [apply quiet_setTradeNo|]. intros row. by repeat split. }
  assert (HI1 : payInv knows (snd (orderUpdate (ID o) (statusEQ (Status o)) set t d))) by by apply (sound_quietUpdate knows _ _ _ (λ _, True) Hq t d HI I).
  unfold orderUpdate in *. rewrite Ho in *. unfold statusEQ at 1 in HI1. unfold statusEQ at 1. rewrite eqs_refl in *. cbn [Z.eqb snd] in *.
  set (o1 := set (SetUpdatedAt t o)) in *. set (d1 := setOrders _ d) in *.
  assert (Ho1 : orders d1 !! ID o = Some o1) by apply lookup_insert_eq.
  assert (Hs1 : Status o1 = OrderStatusPaid).
  { unfold o1, set, setInvoice, setTradeNo. cbv zeta. by repeat case_match. }
  assert (S1 : sameOrder o1 o) by (eapply sameOrder_trans; [apply Hq | by repeat split]).
  assert (Hfirst : ∃ d2, exec t (run (if eqs (Status o) OrderStatusPending then Ret tt else writeAuditLog (ID o) "ORDER_RECOVERED") in
                    run writeAuditLog (ID o) "ORDER_PAID" in executeFulfillment s env (ID o)) d1 =
                    exec t (run writeAuditLog (ID o) "ORDER_PAID" in executeFulfillment s env (ID o)) d2 ∧
                    payInv knows d2 ∧ orders d2 = orders d1 ∧ users d2 = users d1 ∧ credits d2 = credits d1).
  { destruct (eqs (Status o) OrderStatusPending); [by exists d1 | apply exec_auditThen; [by apply notAssigned | done]]. }
  destruct Hfirst as (d2 & -> & HI2 & E2 & U2 & C2).
  destruct (exec_auditThen t (ID o) "ORDER_PAID" (executeFulfillment s env (ID o)) d2) as (d3 & -> & HI3 & E3 & U3 & C3); [by apply notAssigned | done|].
  destruct Hw as [W1 W2 W3 W4 W5 W6]. destruct S1 as (_ & S2 & S3 & S4 & S5 & _).
  destruct (exec_fulfillment env t (ID o) o1 d3 HI3) as (d' & o' & E & Ho' & Hs & Hp).
  - by rewrite E3, E2.
  - by rewrite S3.
  - unfold fulfillableAt, statusIn. cbn [existsb]. by rewrite Hs1.
  - split; try done; [unfold liveUser; by rewrite U3, U2, S2 | by rewrite S4..].
  - exists d', o'. split; [done|]. split; [done|]. split; [done|]. unfold paysOut, creditedUsers, creditsOf in *.
    by rewrite C3, C2, U3, U2, S2, S4, S5 in Hp.
Qed.

(** C9: A payment is never lost: the success notification of a provider for an
    unpaid balance order (also one that was cancelled or has expired meanwhile)
    makes it COMPLETED and credits its amount exactly once. *)
Theorem payment_completes_order x env t i o n pk :
  paymentReachable x → orders (db x) !! i = Some o → eqs (OrderType o) OrderTypeSubscription = false → unpaid o = true →
  fulfillmentWorks env o (db x) → isSuccess (NotifiedStatus n) = true →
  OrderID n = OutTradeNo o → OutTradeNo o ≠ ""%string → validatePaymentNotificationOrder s o pk (Metadata n) = ok tt →
  isValidProviderAmount (NotifiedAmount n) = true →
  f64_gt (f64_abs (f64_sub (NotifiedAmount n) (PayAmount o))) (paymentAmountToleranceForCurrency (PaymentOrderCurrency o)) = false →
  let '(r, d') := exec t (HandlePaymentNotification s env (Some n) pk) (db x) in
  r = Ok tt ∧ ∃ o', orders d' !! i = Some o' ∧ Status o' = OrderStatusCompleted ∧
    (∃ user, creditsOf (RechargeCode o) d' = [BalanceCredit user (RechargeCode o) (Amount o)]) ∧ paysOut o (db x) d'.
Proof.
  intros Hx Ho Ht Hu Hw Hsucc Hnum Hne Hval Hamt Htol. pose proof (paymentReachable_inv x Hx) as HI.
  destruct (inv_order knows _ HI i o Ho) as [<- _].
  assert (∃ d' o', exec t (HandlePaymentNotification s env (Some n) pk) (db x) = (Ok tt, d') ∧
      orders d' !! ID o = Some o' ∧ Status o' = OrderStatusCompleted ∧ paysOut o (db x) d') as (d' & o' & E & Ho' & Hs & Hp).
  { cbn [HandlePaymentNotification]. cbv zeta. rewrite Hsucc. cbn [orb negb].
    replace (eqs (NotifiedStatus n) ProviderStatusFailed) with false.
    2: { symmetry. apply eqs_false. intros E. by rewrite E in Hsucc. }
    cbn [andb]. rewrite exec_andThen. unfold findPaymentNotificationOrder. cbn [exec].
    pose proof (orderByOutTradeNo_found (db x) (ID o) o t HI Ho Hne) as Hf. rewrite <- Hnum in Hf.
    unfold orderByOutTradeNo, reading in *. cbn [fst] in Hf. rewrite Hf. cbn [exec ok]. rewrite exec_andThen, Hval. cbn [exec ok].
    unfold confirmPayment. rewrite Hamt, Htol. cbn [negb]. by apply exec_toPaid. }
  pose proof (exec_keeps knows t (HandlePaymentNotification s env (Some n) pk) (db x) HI (harmless_notification knows s env (Some n) pk)) as [HI' HG].
  rewrite E in *. cbn [snd] in *. split; [done|]. exists o'. split; [done|]. split; [done|].
  destruct (guar_orders _ _ HG (ID o) o Ho) as (o2 & Ho2 & S). assert (o2 = o') as -> by congruence.
  destruct S as (_ & _ & S3 & S4 & S5 & _).
  destruct (completed_credit d' (ID o) o' HI' Ho' Hs) as (user & Hc & _); [by rewrite S3|]. split; [|exact Hp]. exists user. by rewrite <- S4, <- S5.
Qed.
End system.

(** ** Example runs

    User 1 buys 100 points; the first fulfilment is refused by the lock of the
    code, later ones complete the order. *)

Definition demoService : paymentService :=
  mkPaymentService None (λ _, ""%string) true (λ _ _ amount _, Ok amount) (λ _, None) (λ t days, t + days * 24 * Hour) (λ _, "error"%string)
    (BillingDB.Build_SQLNumeric (λ x, match x with S754_zero _ => Some (QArith_base.inject_Z 0) | S754_finite n m e =>
        Some (QArith_base.Qmult (QArith_base.inject_Z (if n then Zneg m else Zpos m))
          (if e <? 0 then QArith_base.Qmake 1 (Z.to_pos (2 ^ (- e))) else QArith_base.inject_Z (2 ^ e))) | _ => None end)
      (λ q, f64_div (f64_of_Z (QArith_base.Qnum q)) (f64_of_Z (Zpos (QArith_base.Qden q))))).

#[local] Instance demoCalendar : Calendar := {| StartOfDay := λ t, t; NextDay := λ t, t + 24 * Hour |}.
#[local] Instance demoCase : UnicodeCase := ascii_case.
#[local] Instance demoFold : UnicodeFold := {| unicodeEqualFold := eqs |}.

(** Rounded floating point in place of decimals, printed without a fraction. *)
#[local] Instance demoDecimal : DecimalLib := {|
  NewFromFloat := λ v, v; DecimalMul := f64_mul; DecimalDiv := f64_div;
  DecimalRound := λ v n, f64_div (f64_round (f64_mul v (f64_of_Z (10 ^ n)))) (f64_of_Z (10 ^ n));
  InexactFloat64 := λ v, v; StringFixed := λ v _, Itoa (f64_trunc v) |}.

Definition demoEnv (free : bool) : redeemEnv := mkRedeemEnv false free false.

Definition demoRequest : orderRequest :=
  mkRequest 1 OrderTypeBalance TypeAlipay (f64_of_Z 100) (f64_of_Z 100) (f64_of_Z 100) None "7" TypeAlipay ∅ "sub2_20260101"
    3 f64_zero 30 0.

Definition demoPaid : PaymentNotification := mkNotification "T1" "sub2_20260101" (f64_of_Z 100) NotificationStatusSuccess ∅.

Definition demoEmpty : payDB := mkPayDB ∅ ∅ ∅ ∅ 1 {[1 := mkUserRow 0 0 5 false]} [] [] [] ∅.
Definition demoTime : Time := (unixToInternal + 1700000000) * Second.
Definition demoKnows (user : Z) (code : string) : Prop := False.

Definition demoStart : system payDB := mkSystem demoTime demoEmpty [].

(** The entries of the example, in their order. *)
Definition demoCreate : P unit := ignore (createOrder demoRequest (Ok (Some (mkCreateResponse "" "" "" "" "" 0)))).
Definition demoNotify (free : bool) : P unit := ignore (HandlePaymentNotification demoService (demoEnv free) (Some demoPaid) TypeAlipay).

Definition demoCreated : payDB := snd (exec demoTime demoCreate demoEmpty).
Definition demoRefused : payDB := snd (exec demoTime (demoNotify false) demoCreated).
Definition demoCompleted : payDB := snd (exec demoTime (demoNotify true) demoRefused).

Lemma demoStart_reachable : paymentReachable demoKnows demoService demoStart.
Proof.
  apply reach_init. split; [|done]. unfold noPayments. cbn. setoid_rewrite lookup_empty. split_and!; try done.
  - by intros c ?%not_elem_of_nil.
  - by intros r ?%not_elem_of_nil.
  - constructor.
  - by intros r ?%not_elem_of_nil.
Qed.

Lemma demoCreated_reachable : ∃ l, paymentReachable demoKnows demoService (mkSystem demoTime demoCreated l).
Proof.
  destruct (run_reachable _ _ demoCreate demoStart demoStart_reachable) as [q Hq]; [constructor|]. by exists [q].
Qed.

Lemma demoRefused_reachable : ∃ l, paymentReachable demoKnows demoService (mkSystem demoTime demoRefused l).
Proof.
  destruct demoCreated_reachable as [l Hl]. destruct (run_reachable _ _ (demoNotify false) _ Hl) as [q Hq]; [constructor|].
  by exists (q :: l).
Qed.

Lemma demoCompleted_reachable : ∃ l, paymentReachable demoKnows demoService (mkSystem demoTime demoCompleted l).
Proof.
  destruct demoRefused_reachable as [l Hl]. destruct (run_reachable _ _ (demoNotify true) _ Hl) as [q Hq]; [constructor|].
  by exists (q :: l).
Qed.

(** [CreateOrder] marks the order as failed without a condition on its status:
    when the answer of the provider is lost, but the payment arrives before the
    error is recorded, the completed order becomes FAILED. *)
Definition demoCreateLost : P unit := ignore (createOrder demoRequest (Err (OtherErr "timeout" []))).

Lemma create_overwrites_completion :
  ∃ x o, paymentReachable demoKnows demoService x ∧ orders (db x) !! 1 = Some o ∧ Status o = OrderStatusFailed ∧
    CompletedAt o = Some demoTime ∧ creditsOf (RechargeCode o) (db x) = [BalanceCredit 1 (RechargeCode o) (Amount o)].
Proof.
  assert (H0 : paymentReachable demoKnows demoService (mkSystem demoTime demoEmpty [demoCreateLost])).
  { eapply reach_step; [apply demoStart_reachable|]. apply (step_start _ _ demoStart). constructor. }
  assert (H1 := advance_reachable _ _ _ _ _ 0%nat _ H0 eq_refl ltac:(done)).
  assert (H2 := advance_reachable _ _ _ _ _ 0%nat _ H1 eq_refl ltac:(done)).
  assert (H3 := advance_reachable _ _ _ _ _ 0%nat _ H2 eq_refl ltac:(done)).
  destruct (run_reachable _ _ (demoNotify true) _ H3) as [q H4]; [constructor|].
  assert (H5 := advance_reachable _ _ _ _ _ 1%nat _ H4 eq_refl ltac:(done)).
  eexists _, _. split; [exact H5|]. split; [by vm_compute|]. by vm_compute.
Qed.

Lemma order_credited_once_witness :
  ∃ x o, paymentReachable demoKnows demoService x ∧ orders (db x) !! 1 = Some o ∧
    creditsOf (RechargeCode o) (db x) = [BalanceCredit 1 (RechargeCode o) (f64_of_Z 100)].
Proof.
  destruct demoCompleted_reachable as [l Hl]. exists (mkSystem demoTime demoCompleted l).
  destruct (orders demoCompleted !! 1) as [o|] eqn:Ho; [|by vm_compute in Ho]. exists o. split; [exact Hl|]. split; [exact Ho|].
  destruct (order_credited_once demoKnows demoService _ 1 o Hl Ho) as [H|(user & H & _)]; cbn [db] in *;
    vm_compute in Ho; injection Ho as <-; [by vm_compute in H | by vm_compute].
Defined.

Lemma completed_order_granted_witness :
  ∃ x o, paymentReachable demoKnows demoService x ∧ orders (db x) !! 1 = Some o ∧ Status o = OrderStatusCompleted ∧
    ∃ user, creditsOf (RechargeCode o) (db x) = [BalanceCredit user (RechargeCode o) (Amount o)].
Proof.
  destruct demoCompleted_reachable as [l Hl]. exists (mkSystem demoTime demoCompleted l).
  destruct (orders demoCompleted !! 1) as [o|] eqn:Ho; [|by vm_compute in Ho]. exists o. split; [exact Hl|]. split; [exact Ho|].
  pose proof (completed_order_granted demoKnows demoService _ 1 o Hl Ho) as H.
  vm_compute in Ho; injection Ho as <-. split; [done | by apply H].
Defined.


Lemma order_rebated_once_witness :
  ∃ x, paymentReachable demoKnows demoService x ∧ rebatesOf 1 (db x) ≠ [] ∧ (length (rebatesOf 1 (db x)) ≤ 1)%nat.
Proof.
  destruct demoCompleted_reachable as [l Hl]. exists (mkSystem demoTime demoCompleted l). split; [exact Hl|].
  split; [by vm_compute | exact (order_rebated_once demoKnows demoService _ 1 Hl)].
Defined.

(** The refused order is completed by the next fulfilment. *)
Lemma paid_order_completes_witness :
  ∃ x o, paymentReachable demoKnows demoService x ∧ orders (db x) !! 1 = Some o ∧ Status o = OrderStatusFailed ∧
    fst (exec (demoTime + Minute) (executeFulfillment demoService (demoEnv true) 1) (db x)) = Ok tt.
Proof.
  destruct demoRefused_reachable as [l Hl]. exists (mkSystem demoTime demoRefused l).
  destruct (orders demoRefused !! 1) as [o|] eqn:Ho; [|by vm_compute in Ho]. exists o. split; [exact Hl|]. split; [exact Ho|].
  pose proof (paid_order_completes demoKnows demoService _ (demoEnv true) (demoTime + Minute) 1 o Hl Ho) as H.
  vm_compute in Ho; injection Ho as <-. split; [done|].
  destruct (exec _ _ _) as [r d']. apply H; done.
Defined.

(** A payment of the pending order. *)
Lemma payment_completes_order_witness :
  ∃ x o, paymentReachable demoKnows demoService x ∧ orders (db x) !! 1 = Some o ∧ Status o = OrderStatusPending ∧
    fst (exec (demoTime + Minute) (HandlePaymentNotification demoService (demoEnv true) (Some demoPaid) TypeAlipay) (db x)) = Ok tt.
Proof.
  destruct demoCreated_reachable as [l Hl]. exists (mkSystem demoTime demoCreated l).
  destruct (orders demoCreated !! 1) as [o|] eqn:Ho; [|by vm_compute in Ho]. exists o. split; [exact Hl|]. split; [exact Ho|].
  pose proof (payment_completes_order demoKnows demoService _ (demoEnv true) (demoTime + Minute) 1 o demoPaid TypeAlipay Hl Ho) as H.
  vm_compute in Ho; injection Ho as <-. split; [done|].
  destruct (exec _ _ _) as [r d']. apply H; done.
Defined.
