(* ===== verification/RefundOutcome.v ===== *)
(** * What refunds do

    A pending refund is finalised once, in every interleaving; the outcome of an
    undisturbed refund of a balance order for each answer of the gateway, and of
    the query that ends a pending one; and two refunds of one order that both
    take the amount, because the failure of a query overwrites the status of a
    refund that has been started meanwhile. *)

From S2P Require Import Prelude GoRuntime Domain AppErrors Transactions PaymentOrder PaymentDB PaymentGrants SubscriptionChain PaymentFulfillment PaymentRefund PaymentLifecycle PaymentInvariant PaymentSafety RefundSafety PaymentSystem.
From S2P Require BillingDB.
#[local] Open Scope Z_scope.

Abbreviation onScale8 := BillingDB.onScale8.
Abbreviation col8 := BillingDB.col8.

Section refunds.
Context (knows : Z → string → Prop).
Context (s : paymentService) `{UnicodeCase} `{UnicodeFold} `{CAL : Calendar} `{DEC : DecimalLib}.
#[local] Instance outcomeNumeric : BillingDB.SQLNumeric := payNumeric s.

Abbreviation paymentReachable := (paymentReachable knows s).

Definition refundSuccess : string := "REFUND_SUCCESS".

(** ** A pending refund is finalised once *)

Lemma shorten_plan t p onError d q d' :
  (∀ text e d, exists e', (exec t (onError text e) d).1 = Err e') →
  exec t (shortenOrRevoke s p onError) d = (Ok q, d') → q = p.
Proof.
  intros He. unfold shortenOrRevoke. rewrite exec_bindProg. destruct (exec t (ExtendSubscription _ _ _) d) as [[r|e] d1]; [by intros [= <-]|].
  destruct (Is _ _); [|by destruct (He "deduct subscription days"%string e d1) as [e' E]; destruct (exec t _ d1); cbn in E; subst].
  rewrite exec_bindProg. destruct (exec t (RevokeSubscription _) d1) as [[r|e'] d2]; [by intros [= <-]|].
  destruct (He "revoke subscription"%string e' d2) as [e'' E]. destruct (exec t _ d2). cbn in E. by subst.
Qed.

Lemma finalDeduction_plan t p d q d' : exec t (applyRefundFinalDeduction s p) d = (Ok q, d') → ∃ v, q = setBalanceToDeduct v p.
Proof.
  assert (Hid : ∃ v, p = setBalanceToDeduct v p) by (exists (BalanceToDeduct p); by destruct p).
  assert (Hdays : ∀ p1 d1, exec t (if takesDays p1 then shortenOrRevoke s p1 (λ text e, fails (OtherErr text [e])) else ok p1) d1 = (Ok q, d') → q = p1).
  { intros p1 d1. destruct (takesDays p1); [|by intros [= <-]]. apply shorten_plan. intros text e d2. by eexists. }
  unfold applyRefundFinalDeduction. rewrite exec_andThen. destruct (takesBalance p); cbn [exec ok].
  - destruct (DeductBalance _ _ t d) as [[v|e] d1]; cbn [exec ok fails]; [|done]. intros ->%Hdays. by exists v.
  - by intros ->%Hdays.
Qed.

Lemma audited_orders d oid action m : audited oid action (setOrders m d) = audited oid action d.
Proof. done. Qed.

(** The update of the order and the entry of the success, or an error. *)
Lemma exec_refundOkTx t p d o :
  orders d !! planOrderID p = Some o →
  let row := setRefunded p t (SetUpdatedAt t o) in
  exec t (markRefundOkTx p) d =
  let d1 := setOrders (<[planOrderID p := row]> (orders d)) d in
  if audited (planOrderID p) refundSuccess d then (Err (OtherErr "write refund audit" [OtherErr "duplicate key" []]), d1)
  else (Ok (refundSucceeded p), setAudits (<[(planOrderID p, refundSuccess) := None]> (audits d)) d1).
Proof.
  intros Ho row. unfold markRefundOkTx. cbn [exec]. rewrite exec_andThen, exec_query. unfold orderUpdateOne. rewrite Ho.
  rewrite exec_andThen, exec_query. unfold auditInsert. rewrite audited_orders. by destruct (audited _ _ d).
Qed.

Lemma setRefunded_same p t row : sameOrder (setRefunded p t row) row.
Proof. by repeat split. Qed.

(** A finalisation that commits found the refund pending, and ended it. *)
Lemma finalizeTx_inv t p d res d' :
  payInv knows d → exec t (finalizeTx s p) d = (Ok res, d') →
  (∃ o o', orders d !! planOrderID p = Some o ∧ Status o = OrderStatusRefundPending ∧
     orders d' !! planOrderID p = Some o' ∧ Status o' = refundedStatus p ∧ sameOrder o' o) ∧
  audited (planOrderID p) refundSuccess d = false ∧ audited (planOrderID p) refundSuccess d' = true.
Proof.
  intros HI. unfold finalizeTx. rewrite exec_andThen, exec_query.
  assert (Hc : ∀ row, statusEQ OrderStatusRefundPending row = true → granted (Status row) = true) by by intros row ->%eqs_true.
  pose proof (claim_sound knows (planOrderID p) _ (λ _, True) Hc t d HI I) as [HI1 HG1].
  pose proof (claim_tells knows (planOrderID p) _ (SetStatus OrderStatusRefunding) Hc ltac:(by repeat split) t d) as Hp.
  unfold orderUpdate in *. destruct (orders d !! planOrderID p) as [o|] eqn:Eo; [|done].
  destruct (statusEQ OrderStatusRefundPending o) eqn:Es; [|done]. apply eqs_true in Es. cbn [Z.eqb fst snd] in *.
  specialize (Hp 1 HI I eq_refl ltac:(done)). set (d1 := setOrders _ d) in *. rewrite exec_andThen.
  pose proof (exec_guar _ _ payGuar_refl payGuar_trans t (applyRefundFinalDeduction s p) d1 _ _ HI1 Hp
    (stable_paidOut knows (planOrderID p)) (yields_finalDeduction knows s p)) as [HI2 HG2].
  destruct (exec t (applyRefundFinalDeduction s p) d1) as [[q|e] d2] eqn:Ed; [|done]. cbn [snd] in *.
  apply finalDeduction_plan in Ed as [v ->].
  destruct (guar_orders _ _ (payGuar_trans _ _ _ HG1 HG2) _ _ Eo) as (o2 & Ho2 & S2).
  rewrite (exec_refundOkTx t (setBalanceToDeduct v p) d2 o2 Ho2). cbn zeta.
  change (planOrderID (setBalanceToDeduct v p)) with (planOrderID p).
  destruct (audited (planOrderID p) refundSuccess d2) eqn:Ea; [done|]. intros [= _ <-]. split; [|split].
  - exists o, (setRefunded (setBalanceToDeduct v p) t (SetUpdatedAt t o2)). split; [done|]. split; [done|].
    split; [by cbn [orders setAudits setOrders]; rewrite lookup_insert_eq|]. split; [done|]. eapply sameOrder_trans; [|exact S2].
    eapply sameOrder_trans; [apply setRefunded_same | by repeat split].
  - apply not_true_iff_false. intros Hb. by rewrite (guar_audits _ _ (payGuar_trans _ _ _ HG1 HG2) _ _ Hb) in Ea.
  - unfold audited. cbn [audits setAudits]. by rewrite lookup_insert_eq.
Qed.

(** C5: A pending refund is finalised once: when a finalisation commits, the
    order was REFUND_PENDING, and it is refunded from then on in the tables;
    whatever runs and breaks afterwards (also when the order has become
    REFUND_PENDING again), no other finalisation of the order can commit, so the
    granted amount is not taken a second time, and a finalisation that fails
    changes nothing. *)
Theorem pending_refund_finalized_once x t p res d1 x1 x2 t2 p2 :
  paymentReachable x → finalization s p t (db x) = (Ok (Ok res), d1) →
  paymentReachable x1 → db x1 = d1 → rtc (systemStep (paymentEntry knows s) outside) x1 x2 →
  planOrderID p2 = planOrderID p →
  (∃ o o', orders (db x) !! planOrderID p = Some o ∧ Status o = OrderStatusRefundPending ∧
     orders d1 !! planOrderID p = Some o' ∧ Status o' = refundedStatus p ∧ sameOrder o' o) ∧
  ∃ e, finalization s p2 t2 (db x2) = (Ok (Err e), db x2).
Proof.
  intros Hx Hf Hx1 <- Hr Eid. unfold finalization, atomically in Hf.
  destruct (exec t (finalizeTx s p) (db x)) as [[r|e] d'] eqn:E; [|done]. injection Hf as -> ->.
  destruct (finalizeTx_inv _ _ _ _ _ (paymentReachable_inv knows s x Hx) E) as (Ho & _ & Ha). split; [exact Ho|].
  pose proof (guar_audits _ _ (paymentReachable_guar knows s x1 x2 Hx1 Hr) _ _ Ha) as Ha2.
  assert (HI2 : payInv knows (db x2)).
  { apply (paymentReachable_inv knows s). clear -Hx1 Hr. induction Hr as [|x1 x2 x3 H1 _ IH]; [done|]. apply IH. by eapply reach_step. }
  unfold finalization, atomically. destruct (exec t2 (finalizeTx s p2) (db x2)) as [[r|e] d2] eqn:E2; [|by exists e].
  destruct (finalizeTx_inv _ _ _ _ _ HI2 E2) as (_ & Hb & _). rewrite Eid in Hb. congruence.
Qed.

(** ** An undisturbed refund of a balance order *)

(** A balance of up to 10^15 units (15 digits) survives its way through a float64. *)
Class RefundNumericLaws := {
  scan_param q k : onScale8 q k → 0 < k <= 10 ^ 15 → ∃ q', BillingDB.sqlParam (BillingDB.sqlScan q) = Some q' ∧ onScale8 q' k;
  scan_positive q k : onScale8 q k → 0 < k → f64_gt (BillingDB.sqlScan q) f64_zero = true;
}.
Context `{RNL : RefundNumericLaws}.

(** The user after [k] units were taken, and after they were given back: the
    statement of the rollback counts them as recharged. *)
Definition took (k : Z) (u : userRow) : userRow := mkUserRow (balance u - k) (totalRecharged u) (concurrency u) (userDeleted u).
Definition gaveBack (k : Z) (u : userRow) : userRow := mkUserRow (balance u) (totalRecharged u + k) (concurrency u) (userDeleted u).

(** [k] units are all that an amount of [n] units can take. *)
Definition takes (u : userRow) (n k : Z) : Prop := 0 < n <= 10 ^ 15 ∧ 0 < balance u ∧ k = Z.min n (balance u).

Lemma exec_deduct t uid amount q n k u d :
  BillingDB.sqlParam amount = Some q → onScale8 q n → liveUser uid d = Some u → takes u n k →
  ∃ q', onScale8 q' k ∧ DeductBalance uid amount t d = (Ok (BillingDB.sqlScan q'), setUsers (<[uid := took k u]> (users d)) d).
Proof.
  intros Hq Hn Hu (Hr & Hb & ->). unfold DeductBalance. rewrite Hq, Hu. destruct (Z.leb_spec (balance u) 0); [lia|].
  cbv zeta. rewrite (BillingDB.onScale8_ge (balance u) n q Hn). destruct (Z.leb_spec (balance u) n).
  - exists (col8 (balance u)). rewrite Z.min_r by lia. split; [done|]. unfold took. by rewrite Z.sub_diag.
  - exists q. rewrite Z.min_l by lia. split; [done|]. unfold took, plus8.
    pose proof (BillingDB.store8_sub (balance u) n q Hn) as E. unfold QArith_base.Qminus in E. by rewrite E.
Qed.

Lemma exec_giveBack t uid q k u m d :
  onScale8 q k → 0 < k <= 10 ^ 15 → m !! uid = Some (took k u) → users d = m →
  UpdateBalance uid (BillingDB.sqlScan q) t d = (Ok tt, setUsers (<[uid := gaveBack k u]> m) d).
Proof.
  intros Hq Hk Hm <-. unfold UpdateBalance. destruct (scan_param q k Hq Hk) as (q' & -> & Hq'). rewrite Hm.
  unfold topUp, gaveBack, plus8. rewrite (scan_positive q k Hq) by lia. cbn [balance totalRecharged concurrency userDeleted took].
  rewrite !(BillingDB.store8_add _ k q' Hq'). do 5 f_equal. lia.
Qed.

(** The plan takes [k] of [n] units from user [u], who owns the order [o]. *)
Record refundRuns (p : RefundPlan) (d : payDB) (o : PaymentOrder) (u : userRow) (n k : Z) : Prop := {
  rr_order : orders d !! planOrderID p = Some o;
  rr_status : statusIn refundable o = true;
  rr_takes : takesBalance p = true;
  rr_fresh : audited (planOrderID p) REFUND_ROLLBACK_FAILED d = false;
  rr_user : liveUser (UserID (planOrder p)) d = Some u;
  rr_units : ∃ q, BillingDB.sqlParam (BalanceToDeduct p) = Some q ∧ onScale8 q n;
  rr_amount : takes u n k;
}.

(** What refunds leave alone. *)
Definition restKept (d d' : payDB) : Prop :=
  codes d' = codes d ∧ credits d' = credits d ∧ subs d' = subs d ∧ usages d' = usages d ∧ rebates d' = rebates d ∧ apiKeys d' = apiKeys d.

Definition refundTo (d : payDB) (p : RefundPlan) (o : PaymentOrder) (status : string) (u : userRow) (d' : payDB) : Prop :=
  (∃ o', orders d' = <[planOrderID p := o']> (orders d) ∧ sameOrder o' o ∧ Status o' = status) ∧
  users d' = <[UserID (planOrder p) := u]> (users d) ∧ restKept d d'.

(** The refund is under way: claimed, and the amount taken. *)
Record underWay (d : payDB) (p : RefundPlan) (o : PaymentOrder) (u : userRow) (k : Z) (d2 : payDB) (p2 : RefundPlan) : Prop := {
  uw_state : refundTo d p o OrderStatusRefunding (took k u) d2;
  uw_audits : audits d2 = audits d;
  uw_plan : ∃ q, onScale8 q k ∧ 0 < k <= 10 ^ 15 ∧ p2 = setBalanceToDeduct (BillingDB.sqlScan q) p;
}.

Lemma balance_noDays p v : DeductionType p = DeductionTypeBalance → takesDays (setBalanceToDeduct v p) = false.
Proof. unfold takesDays. intros E. cbn. by rewrite E. Qed.

Lemma takesBalance_type p : takesBalance p = true → DeductionType p = DeductionTypeBalance.
Proof. unfold takesBalance. by intros [E%eqs_true _]%andb_true_iff. Qed.

Lemma takesBalance_set v p : takesBalance p = true → takesBalance (setBalanceToDeduct v p) = f64_gt v f64_zero.
Proof.
  unfold takesBalance. intros [E _]%andb_true_iff. change (DeductionType (setBalanceToDeduct v p)) with (DeductionType p). by rewrite E.
Qed.

Lemma exec_start t gw p d o u n k :
  refundRuns p d o u n k →
  ∃ d2 p2, underWay d p o u k d2 p2 ∧
    exec t (ExecuteRefund s gw p) d =
    exec t (bindProg (λ r, match r with Ok resp => finishRefund s p2 resp | Err e => handleGwFail s p2 e end) (gwRefund gw p2)) d2.
Proof.
  intros [Ho Hs Ht Hf Hu (q & Hq & Hn) Hk]. unfold ExecuteRefund. rewrite exec_andThen, exec_query. unfold orderUpdate. rewrite Ho, Hs.
  cbn [Z.eqb]. set (d1 := setOrders _ d). rewrite exec_andThen. unfold deductBalance. rewrite Ht, exec_bindProg, exec_hasAuditLog.
  change (audited (planOrderID p) REFUND_ROLLBACK_FAILED d1) with (audited (planOrderID p) REFUND_ROLLBACK_FAILED d). rewrite Hf. cbn [exec].
  destruct (exec_deduct t (UserID (planOrder p)) (BalanceToDeduct p) q n k u d1 Hq Hn Hu Hk) as (q' & Hq' & E).
  unfold refundNumeric, outcomeNumeric in *. rewrite E. cbn [exec ok]. rewrite exec_andThen. unfold deductDays. rewrite balance_noDays by by apply takesBalance_type. cbn [exec ok].
  eexists _, _. split; [|reflexivity]. split; [|done|].
  - split; [by eexists|]. split; done.
  - exists q'. split; [done|]. split; [|done]. destruct Hk as (Hr & Hb & ->). lia.
Qed.

Lemma exec_rollback t d p o u k d2 p2 :
  takesBalance p = true → underWay d p o u k d2 p2 →
  ∃ d3, exec t (RollbackRefund s p2) d2 = (true, d3) ∧ refundTo d p o OrderStatusRefunding (gaveBack k u) d3 ∧ audits d3 = audits d.
Proof.
  intros Ht [(Ho & Eu & Hr) Ea (q & Hq & Hk & ->)]. unfold RollbackRefund. cbv zeta. rewrite balance_noDays by by apply takesBalance_type.
  rewrite takesBalance_set, (scan_positive q k Hq) by (done || lia).
  cbn [exec]. change (UserID (planOrder (setBalanceToDeduct _ p))) with (UserID (planOrder p)).
  change (BalanceToDeduct (setBalanceToDeduct ?v p)) with v.
  pose proof (exec_giveBack t (UserID (planOrder p)) q k u _ d2 Hq Hk (lookup_insert_eq _ _ _) Eu) as E.
  unfold refundNumeric, outcomeNumeric in *. rewrite E. cbn [exec].
  eexists. split; [done|]. split; [|done]. split; [done|]. split; [|done]. cbn [users setUsers]. by rewrite insert_insert_eq.
Qed.

(** The update of the order that ends a refund. *)
Lemma exec_settle t text p d o u status set d1 :
  refundTo d p o OrderStatusRefunding u d1 → (∀ row, sameOrder (set row) row) → (∀ row, Status (set row) = status) →
  ∃ row d2, exec t (query text (orderUpdateOne (planOrderID p) set)) d1 = (Ok row, d2) ∧ refundTo d p o status u d2 ∧ audits d2 = audits d1.
Proof.
  intros ((o1 & Eo & S & _) & Eu & Hr) Hset Hst. rewrite exec_query. unfold orderUpdateOne. rewrite Eo, lookup_insert_eq.
  eexists _, _. split; [done|]. split; [|done]. split; [|done]. exists (set (SetUpdatedAt t o1)).
  cbn [orders setOrders]. rewrite insert_insert_eq. split; [done|]. split; [|apply Hst].
  eapply sameOrder_trans; [apply Hset|]. eapply sameOrder_trans; [|exact S]. by repeat split.
Qed.

Lemma refundTo_audits d p o status u d1 v : refundTo d p o status u d1 → refundTo d p o status u (setAudits v d1).
Proof. done. Qed.

Lemma exec_auditRest t oid action detail {A} (k : P A) d :
  ∃ v, exec t (run writeAuditDetail oid action detail in k) d = exec t k (setAudits v d) ∧
    (audited oid action d = false → v = <[(oid, action) := detail]> (audits d)).
Proof.
  rewrite exec_bindProg. cbn. unfold auditInsert. destruct (audited oid action d) eqn:E.
  - exists (audits d). split; [by destruct d | done].
  - by eexists.
Qed.

(** The three answers of a gateway. *)
Definition refuses (r : result goError (option RefundResponse)) : bool := match r with Err _ => true | Ok _ => false end.
Definition confirms (r : result goError (option RefundResponse)) : bool := match r with Ok resp => isRefunded resp | Err _ => false end.
Definition defers (r : result goError (option RefundResponse)) : bool :=
  match r with Ok resp => negb (isRefunded resp) && isRefundPending resp | Err _ => false end.

Definition restoredStatus (p : RefundPlan) : string :=
  if statusEQ OrderStatusRefundRequested (planOrder p) then OrderStatusRefundRequested else OrderStatusCompleted.

Lemma isRefunded_valid resp : isRefunded resp || isRefundPending resp = true → validateRefundProviderResponse resp = Ok tt.
Proof. destruct resp as [r|]; [|done]. cbn. by intros ->. Qed.


(** *** The query of a pending refund *)

(** A pending refund of a balance order, whose audit entry says that [n] units
    were taken and given back. *)
Record refundPending (d : payDB) (o : PaymentOrder) (u : userRow) (n k : Z) : Prop := {
  rp_order : orders d !! ID o = Some o;
  rp_status : Status o = OrderStatusRefundPending;
  rp_type : OrderType o = OrderTypeBalance;
  rp_open : audited (ID o) refundSuccess d = false;
  rp_entry : ∃ det q, audits d !! (ID o, REFUND_PENDING) = Some (Some det) ∧ DeductionRollbackOK det = true ∧
    detDeductBalance det = true ∧ BalanceDeducted det = BillingDB.sqlScan q ∧ onScale8 q n;
  rp_user : liveUser (UserID o) d = Some u;
  rp_amount : takes u n k;
}.

(** What the finalisation writes. *)
Definition finalStatus (o : PaymentOrder) : string :=
  if f64_lt (RefundAmount o) (Amount o) then OrderStatusPartiallyRefunded else OrderStatusRefunded.

Lemma exec_finalization t p d o u n k q :
  orders d !! planOrderID p = Some o → Status o = OrderStatusRefundPending → DeductionType p = DeductionTypeBalance →
  BalanceToDeduct p = BillingDB.sqlScan q → onScale8 q n → takes u n k → liveUser (UserID (planOrder p)) d = Some u →
  audited (planOrderID p) refundSuccess d = false →
  ∃ q' d', onScale8 q' k ∧ finalization s p t d = (Ok (Ok (refundSucceeded (setBalanceToDeduct (BillingDB.sqlScan q') p))), d') ∧
    refundTo d p o (refundedStatus p) (took k u) d'.
Proof.
  intros Ho Hs Ht Hb Hq Hk Hu Ha. unfold finalization, atomically, finalizeTx. rewrite exec_andThen, exec_query. unfold orderUpdate.
  rewrite Ho. unfold statusEQ. rewrite Hs, eqs_refl. cbn [Z.eqb]. set (d1 := setOrders _ d). rewrite exec_andThen.
  unfold applyRefundFinalDeduction. rewrite exec_andThen. unfold takesBalance. rewrite Ht, eqs_refl, Hb, (scan_positive q n Hq) by (destruct Hk; lia).
  cbn [andb exec]. destruct (scan_param q n Hq) as (qn & Hqn & Hsn); [by destruct Hk|].
  destruct (exec_deduct t (UserID (planOrder p)) (BillingDB.sqlScan q) qn n k u d1 Hqn Hsn Hu Hk) as (q' & Hq' & E).
  unfold refundNumeric, outcomeNumeric in *. rewrite E. cbn [exec ok].
  rewrite balance_noDays by done. cbn [exec ok]. set (p' := setBalanceToDeduct _ p). set (d2 := setUsers _ d1).
  rewrite (exec_refundOkTx t p' d2 (SetStatus OrderStatusRefunding (SetUpdatedAt t o))) by apply lookup_insert_eq. cbn zeta.
  change (audited (planOrderID p') refundSuccess d2) with (audited (planOrderID p) refundSuccess d). rewrite Ha.
  exists q'. eexists. split; [done|]. split; [done|]. split; [|split; [done | by repeat split]].
  eexists. cbn [orders setAudits setOrders d2 setUsers d1]. rewrite insert_insert_eq. split; [done|]. split; [|done]. by repeat split.
Qed.

Lemma finalizePlan_balance o det :
  OrderType o = OrderTypeBalance → DeductionRollbackOK det = true → detDeductBalance det = true →
  let p := refundFinalizePlan o det in
  planOrderID p = ID o ∧ planOrder p = o ∧ DeductionType p = DeductionTypeBalance ∧ BalanceToDeduct p = BalanceDeducted det ∧
  planRefundAmount p = RefundAmount o ∧ SubDaysToDeduct p = 0.
Proof. intros Ht Hr Hd. unfold refundFinalizePlan. rewrite Hr, Hd, Ht. done. Qed.

End refunds.

(** ** Examples

    User 1 has 300 units and buys 100 points; amounts are floats that count
    units of the NUMERIC columns, which satisfy the laws. *)

Definition unitNumeric : BillingDB.SQLNumeric :=
  BillingDB.Build_SQLNumeric
    (λ v, match v with
          | S754_zero _ => Some (col8 0)
          | S754_finite n m e => let k := if e <? 0 then Zpos m / 2 ^ (- e) else Zpos m * 2 ^ e in Some (col8 (if n then - k else k))
          | _ => None
          end)
    (λ q, match BillingDB.store8 q with Z0 => S754_zero false | Zpos m => S754_finite false m 0 | Zneg m => S754_finite true m 0 end).

Definition refundService : paymentService :=
  mkPaymentService (registryProviderKey demoService) (instanceProviderKey demoService) (affiliateEnabled demoService)
    (AccrueInviteRebate demoService) (planOf demoService) (AddDays demoService) (errorText demoService) unitNumeric.

Lemma store8_onScale q k : onScale8 q k → BillingDB.store8 q = k.
Proof.
  intros E. rewrite <- (BillingDB.roundHalfAway_int k). unfold BillingDB.store8. apply BillingDB.roundHalfAway_proper.
  unfold BillingDB.onScale8, BillingDB.col8, BillingDB.units8, QArith_base.Qeq, QArith_base.Qmult, QArith_base.inject_Z in *. cbn in *. lia.
Qed.

#[local] Instance unitLaws : RefundNumericLaws refundService.
Proof.
  split.
  - intros q k E [Hk _]. unfold outcomeNumeric. cbn. rewrite (store8_onScale q k E). destruct k as [|m|m]; [lia| |lia].
    eexists. split; [done|]. unfold onScale8. cbn. by rewrite Z.mul_1_r.
  - intros q k E Hk. unfold outcomeNumeric. cbn. rewrite (store8_onScale q k E). by destruct k.
Qed.

#[local] Existing Instance demoCase.
#[local] Existing Instance demoFold.
#[local] Existing Instance demoCalendar.
#[local] Existing Instance demoDecimal.

(** A gateway that always answers with one status. *)
Definition demoAnswer (status : string) : option RefundResponse := Some (mkRefundResponse "R1" status).
Definition demoProvider (status : string) : RefundProvider :=
  mkRefundProvider TypeAlipay None (λ _, (demoAnswer status, None)) (Some (λ _, Ok (demoAnswer status))).
Definition demoGateway (status : string) : refundGateway :=
  mkRefundGateway (λ id, if id =? 7 then Ok (mkProviderInstance TypeAlipay true true) else Err RowNotFound) (λ _, Ok (demoProvider status)).

Definition refundEmpty : payDB := mkPayDB ∅ ∅ ∅ ∅ 1 {[1 := mkUserRow 300 0 5 false]} [] [] [] ∅.
Definition refundStart : system payDB := mkSystem demoTime refundEmpty [].

Definition refundReachable : system payDB → Prop := paymentReachable demoKnows refundService.

Lemma refundStart_reachable : refundReachable refundStart.
Proof.
  apply reach_init. split; [|done]. unfold noPayments. cbn. setoid_rewrite lookup_empty. split_and!; try done.
  - by intros c ?%not_elem_of_nil.
  - by intros r ?%not_elem_of_nil.
  - constructor.
  - by intros r ?%not_elem_of_nil.
Qed.

(** The entries of the examples, each run alone. *)
Definition runs (p : P unit) (d : payDB) : payDB := snd (exec demoTime p d).

Definition refundNotify : P unit := ignore (HandlePaymentNotification refundService (demoEnv true) (Some demoPaid) TypeAlipay).
Definition boughtTable : payDB := runs refundNotify (runs demoCreate refundEmpty).

(** The plan of an administrator for the whole amount. *)
Definition planAt (d : payDB) : option RefundPlan :=
  match fst (exec demoTime (PrepareRefund refundService (demoGateway "") 1 f64_zero "" false true) d) with
  | Ok (inr p) => Some p
  | _ => None
  end.

Definition refundWith (status : string) (d : payDB) : P unit :=
  match planAt d with Some p => ignore (ExecuteRefund refundService (demoGateway status) p) | None => Ret tt end.

Definition pendingTable : payDB := runs (refundWith ProviderStatusPending boughtTable) boughtTable.

Lemma runs_reachable p l d :
  refundReachable (mkSystem demoTime d l) → paymentEntry demoKnows refundService p → ∃ l', refundReachable (mkSystem demoTime (runs p d) l').
Proof. intros Hx He. destruct (run_reachable _ _ p _ Hx He) as [q Hq]. by exists (q :: l). Qed.

Example bought_refunded :
  Status <$> orders boughtTable !! 1 = Some OrderStatusCompleted ∧ balance <$> users boughtTable !! 1 = Some 400 ∧
  Status <$> orders pendingTable !! 1 = Some OrderStatusRefundPending ∧ balance <$> users pendingTable !! 1 = Some 400.
Proof. vm_compute. by split_and!. Qed.

Definition boughtUser : userRow := mkUserRow 400 100 5 false.



Definition refundQuery (status : string) : P unit := ignore (QueryAndFinalizeRefund refundService (demoGateway status) 1).
Definition finalTable : payDB := runs (refundQuery ProviderStatusSuccess) pendingTable.

Definition finalPlan : option RefundPlan :=
  match orders pendingTable !! 1 with
  | Some o => Some (refundFinalizePlan o (fst (exec demoTime (latestRefundPendingDetail 1) pendingTable)))
  | None => None
  end.

Lemma bought_reachable : ∃ l, refundReachable (mkSystem demoTime boughtTable l).
Proof.
  destruct (runs_reachable demoCreate [] refundEmpty refundStart_reachable) as [l Hl]; [constructor|].
  apply (runs_reachable refundNotify l _ Hl). constructor.
Qed.

Lemma refundWith_entry status d : planAt d ≠ None → paymentEntry demoKnows refundService (refundWith status d).
Proof. unfold refundWith. destruct (planAt d) as [p|]; [constructor | done]. Qed.

Lemma pending_reachable : ∃ l, refundReachable (mkSystem demoTime pendingTable l).
Proof.
  destruct bought_reachable as [l Hl]. apply (runs_reachable (refundWith ProviderStatusPending boughtTable) l _ Hl).
  apply refundWith_entry. by vm_compute.
Qed.

(** A second finalisation of the same plan. *)
Lemma pending_refund_finalized_once_witness :
  ∃ p e, finalPlan = Some p ∧ finalization refundService p demoTime finalTable = (Ok (Err e), finalTable).
Proof.
  destruct finalPlan as [p|] eqn:Ep; [|by vm_compute in Ep].
  destruct pending_reachable as [l Hl]. destruct (runs_reachable (refundQuery ProviderStatusSuccess) l _ Hl) as [l' Hl']; [constructor|].
  assert (Hf : ∃ res, finalization refundService p demoTime pendingTable = (Ok (Ok res), finalTable)).
  { vm_compute in Ep. injection Ep as <-. eexists. vm_compute. reflexivity. }
  destruct Hf as [res Hf].
  destruct (pending_refund_finalized_once demoKnows refundService _ demoTime p res finalTable _ _ demoTime p Hl Hf Hl' eq_refl (rtc_refl _ _) eq_refl)
    as [_ [e He]].
  exists p, e. split; [reflexivity | exact He].
Defined.

(** ** Two refunds of one order

    The query of a pending refund has been answered with a failure; before it
    records this, a second refund is started and confirmed by the gateway; the
    record of the failure then makes the order REFUND_FAILED, so that a third
    refund can start.  Both take the whole amount of the order. *)
Definition failingQuery : P unit * payDB := advances 2 demoTime (refundQuery ProviderStatusFailed) pendingTable.
Definition secondRefund : P unit * payDB :=
  advances 3 demoTime (refundWith ProviderStatusSuccess (snd failingQuery)) (snd failingQuery).
Definition failedQuery : P unit * payDB := advances 5 demoTime (fst failingQuery) (snd secondRefund).
Definition thirdRefund : payDB := runs (refundWith ProviderStatusSuccess (snd failedQuery)) (snd failedQuery).
Definition refundedTwice : P unit * payDB := advances 5 demoTime (fst secondRefund) thirdRefund.

Lemma order_refunded_twice :
  ∃ x o, refundReachable x ∧ orders (db x) !! 1 = Some o ∧ Status o = OrderStatusRefunded ∧
    balance <$> users (db x) !! 1 = Some 200 ∧ creditsOf (RechargeCode o) (db x) = [BalanceCredit 1 (RechargeCode o) (f64_of_Z 100)].
Proof.
  destruct pending_reachable as [l Hl].
  assert (Hstart : ∀ d l p, refundReachable (mkSystem demoTime d l) → paymentEntry demoKnows refundService p → refundReachable (mkSystem demoTime d (p :: l))).
  { intros d k p Hk Hp. eapply reach_step; [exact Hk|]. by apply (step_start _ _ (mkSystem demoTime d k)). }
  pose proof (Hstart _ _ (refundQuery ProviderStatusFailed) Hl ltac:(constructor)) as H1.
  pose proof (advances_reachable _ _ 2 _ _ _ 0 _ H1 eq_refl) as H2. fold failingQuery in H2. cbn [list_insert insert] in H2.
  assert (He2 : paymentEntry demoKnows refundService (refundWith ProviderStatusSuccess (snd failingQuery))) by (apply refundWith_entry; by vm_compute).
  pose proof (Hstart _ _ _ H2 He2) as H3.
  pose proof (advances_reachable _ _ 3 _ _ _ 0 _ H3 eq_refl) as H4. fold secondRefund in H4. cbn [list_insert insert] in H4.
  pose proof (advances_reachable _ _ 5 _ _ _ 1 _ H4 eq_refl) as H5. fold failedQuery in H5. cbn [list_insert insert] in H5.
  assert (He5 : paymentEntry demoKnows refundService (refundWith ProviderStatusSuccess (snd failedQuery))) by (apply refundWith_entry; by vm_compute).
  destruct (run_reachable _ _ _ _ H5 He5) as [q H6]. cbn [clock db pool] in H6.
  pose proof (advances_reachable _ _ 5 _ _ _ 1 _ H6 eq_refl) as H7. cbn [list_insert insert] in H7.
  destruct (orders (snd refundedTwice) !! 1) as [o|] eqn:Eo; [|by vm_compute in Eo].
  eexists _, o. split; [exact H7|]. cbn [db]. split; [exact Eo|]. vm_compute in Eo. injection Eo as <-. split_and!; vm_compute; reflexivity.
Qed.
