(* ===== verification/SubscriptionLifecycle.v ===== *)
(** * At most one subscription of a plan is effective

    Every sequence of whole calls (assignments, redemptions, changes of the
    period, revocations, restorations, maintenance and charges) keeps the windows
    of a user's subscriptions of a plan apart.  Calls that overlap in time do
    not, and neither does an extension of an expired subscription that was
    restored: two reachable tables show it. *)

From S2P Require Import Prelude GoRuntime Domain AppErrors Transactions PaymentOrder PaymentDB PaymentGrants SubscriptionChain SubscriptionWindows.
From S2P Require RedeemCode UserSubscription.
#[local] Open Scope Z_scope.

Section lifecycle.
Context (s : paymentService) `{Calendar}.

(** Changes of a body that leave its window and its deletion alone: charges,
    maintenance and resets of the quota. *)
Definition termsKept (f : UserSubscription.UserSubscription → UserSubscription.UserSubscription) : Prop :=
  ∀ b, UserSubscription.StartsAt (f b) = UserSubscription.StartsAt b ∧ UserSubscription.ExpiresAt (f b) = UserSubscription.ExpiresAt b ∧
    UserSubscription.DeletedAt (f b) = UserSubscription.DeletedAt b.

(** Up to when windows may have overlapped: a restoration puts back windows of
    the past. *)
Definition horizon (restores : bool) (t : Time) : Time := if restores then t else 0.

(** One call that runs alone. *)
Inductive chainCall (restores : bool) (t : Time) (d : payDB) : payDB → Prop :=
  | call_assign input : chainCall restores t d (exec t (AssignOrExtendSubscription s input) d).2
  | call_bulk users planID days daily weekly monthly :
      chainCall restores t d (exec t (BulkAssignSubscription s users planID days daily weekly monthly) d).2
  | call_redeem user code : chainCall restores t d (redeemTx s user code t d).2
  | call_extend id days :
      periodFits (horizon restores t) (λ sub now, extendedExpiry s sub days now) t id d →
      chainCall restores t d (exec t (ExtendSubscription s id days) d).2
  | call_validity id days :
      periodFits (horizon restores t) (λ sub now, validityExpiry s sub days now) t id d →
      chainCall restores t d (exec t (SetSubscriptionValidityDays s id days) d).2
  | call_revoke id : chainCall restores t d (exec t (RevokeSubscription id) d).2
  | call_revokeOwn user id : chainCall restores t d (exec t (RevokeOwnExhaustedSubscription user id) d).2
  | call_restore id : restores = true → chainCall restores t d (exec t (RestoreSubscription id) d).2
  | call_expire : chainCall restores t d (BatchUpdateExpiredStatus t d).2
  | call_body id f : termsKept f → chainCall restores t d (updateRow id (withBody f) d).2.

Inductive chainStep (restores : bool) : Time * payDB → Time * payDB → Prop :=
  | chain_call t d d' : chainCall restores t d d' → chainStep restores (t, d) (t, d')
  | chain_tick t t' d : t <= t' <= MaxExpiresAt → chainStep restores (t, d) (t', d).

Definition chainInit (x : Time * payDB) : Prop := epoch <= x.1 <= MaxExpiresAt ∧ subs x.2 = [].

Definition chainReachable (restores : bool) : Time * payDB → Prop := reachable chainInit (chainStep restores).

(** [AddDate] with a positive number of days does not go back. *)
Context (AddDays_later : ∀ t days, 0 < days → t <= AddDays s t days).

Lemma windows_redeem T user code t d :
  windows T d → T <= t → epoch <= t <= MaxExpiresAt → windows T (redeemTx s user code t d).2.
Proof.
  intros HW HT Ht. unfold redeemTx. destruct (codes d !! code) as [r|]; [|done]. destruct (validateRedeemCodeForUser _ _ _ _); [done|].
  destruct (unsupportedRedeemType r); [done|]. destruct (negb _); [done|].
  destruct (grantCode s r user t d) as [d1|e] eqn:E; [|done]. cbn [snd]. apply (windows_subs T d1); [done|].
  unfold grantCode in E. destruct (eqs _ RedeemCode.RedeemTypeBalance).
  - pose proof (usersOnly_adjustBalance s user (RedeemCode.Value r) t d) as [v Hv].
    destruct (adjustBalance _ _ _ t d) as [[x|e] d2]; [|done]. cbn in E, Hv. injection E as <-. by apply (windows_subs T d); [rewrite Hv|].
  - destruct (eqs _ RedeemCode.RedeemTypeConcurrency).
    + pose proof (usersOnly_adjustConcurrency user (f64_trunc (RedeemCode.Value r)) t d) as [v Hv].
      destruct (adjustConcurrency _ _ t d) as [[x|e] d2]; [|done]. cbn in E, Hv. injection E as <-. by apply (windows_subs T d); [rewrite Hv|].
    + set (input := mkAssignInput _ _ _ _ _ _ _ _) in E.
      destruct (resolveGrantPlanTemplate s input) as [template|e] eqn:Et; [|done]. cbn [mbind result_bind] in E.
      pose proof (windows_assignTx s AddDays_later T input template t d HW (template_days s _ _ Et) HT Ht) as Ha.
      destruct (assignTx s input template t d) as [[[x|e]|e] d2]; try done. by injection E as <-.
Qed.

Lemma windows_updateRow T id f d : termsKept f → windows T d → windows T (updateRow id (withBody f) d).2.
Proof.
  intros Hf HW. unfold updateRow. destruct (anyRow id d); [|done]. apply windows_sameRows; [done | intros r; by case_match|].
  intros r. destruct (subID r =? id); [|done]. destruct (Hf (subBody r)) as (E1 & E2 & E3).
  unfold subStartsAt, subExpiresAt, subDeleted, UserSubscription.notDeleted. cbn. by rewrite E1, E2, E3.
Qed.

Lemma windows_expire T t d : windows T d → windows T (BatchUpdateExpiredStatus t d).2.
Proof.
  intros HW. unfold BatchUpdateExpiredStatus. cbn [snd]. apply windows_sameRows; [done | intros r; by case_match|].
  intros r. by destruct (_ && _).
Qed.

Lemma exec_atomically {X} t text (f : Time → payDB → result goError X * payDB) d :
  (exec t (transact text (atomically f)) d).2 = match f t d with (Ok _, d') => d' | (Err _, _) => d end.
Proof. cbn. unfold atomically. by destruct (f t d) as [[x|e] d']. Qed.

Lemma windows_revokeOwn T user id t d :
  windows T d → T <= t → epoch <= t → windows T (exec t (RevokeOwnExhaustedSubscription user id) d).2.
Proof.
  intros HW HT Ht. unfold RevokeOwnExhaustedSubscription. destruct (_ || _); [done|]. rewrite exec_atomically.
  pose proof (revokeOwn_cases T user id t d HW) as Hc.
  destruct (revokeOwnExhaustedSubscriptionInTx user id t d) as [[res|e] d']; [|done].
  destruct Hc as (sub & Ha & _ & Hlive & _ & _ & _ & _ & Hs & _). destruct (anyRow_Some d id sub Ha) as [Hin _].
  destruct (liveRow_Some _ _ _ (liveRow_maintained T d sub t HW Hin Hlive)) as (Hm1 & _ & Hm2).
  apply (windows_subs T (setSubs (map (revokedRow (maintained sub t) t) (subs (maintainedTable sub t d))) (maintainedTable sub t d))); [done|].
  apply windows_revoke; [by apply windows_maintained | done..].
Qed.

(** The restored row does not overlap an unexpired one. *)
Lemma windows_restore id t d : windows t d → windows t (exec t (RestoreSubscription id) d).2.
Proof.
  intros HW. unfold RestoreSubscription. rewrite exec_atomically. unfold restoreSubscriptionInTx, restoreSubscriptionUnlocked.
  destruct (anyRow id d) as [sub|] eqn:Ea; [|done]. destruct (negb (bool_decide _)); [done|].
  destruct (negb (subDeleted sub)); [done|]. destruct (_ && _) eqn:Eo; [done|].
  unfold Restore. rewrite (updateRow_map id _ d sub Ea). destruct (anyRow_Some d id sub Ea) as [Hin <-].
  set (g := λ r, _). destruct (found _) as [r'|e']; [|done]. cbn [translated].
  assert (Hg : ∀ r, subID (g r) = subID r ∧ subUserID (g r) = subUserID r ∧ subPlanID (g r) = subPlanID r ∧
    subStartsAt (g r) = subStartsAt r ∧ subExpiresAt (g r) = subExpiresAt r) by (intros r; unfold g; by case_match).
  assert (Hother : ∀ r, subID r ≠ subID sub → subDeleted (g r) = subDeleted r).
  { intros r Hne. unfold g. by rewrite (proj2 (Z.eqb_neq _ _) Hne). }
  assert (Hfree : ∀ r, r ∈ subs d → subID r ≠ subID sub → sameChain (g sub) (g r) → apart t (g sub) (g r)).
  { intros r Hr Hne (E1 & E2 & _ & E4). rewrite (Hother r Hne) in E4. destruct (Hg sub) as (_ & U1 & P1 & S1 & X1), (Hg r) as (_ & U2 & P2 & S2 & X2).
    rewrite U1, U2 in E1. rewrite P1, P2 in E2. unfold apart. rewrite S1, S2, X1, X2.
    destruct (Z.le_gt_cases (subExpiresAt sub) t) as [?|Hgt]; [by left|]. right.
    destruct (Z.le_gt_cases (subExpiresAt r) t) as [?|Hgr]; [by left|]. right.
    apply andb_false_iff in Eo as [Eo|Eo].
    - apply negb_false_iff, eqs_true in Eo. unfold restoredSubscriptionStatus, effectiveStatus, UserSubscription.EffectiveStatus in Eo.
      cbn in Eo. unfold After in Eo. change (UserSubscription.ExpiresAt (subBody sub)) with (subExpiresAt sub) in Eo.
      destruct (Z.ltb_spec t (subExpiresAt sub)); [|lia]. cbn in Eo. repeat case_match; by vm_compute in Eo.
    - unfold subscriptionRestoreWouldOverlap in Eo. assert (Hx : r ∈ ListByUserIDAndPlanID (subUserID sub) (subPlanID sub) d).
      { apply elem_of_ListByUserIDAndPlanID. split; [done|]. unfold inChain. by rewrite <- E1, <- E2, E4, !Z.eqb_refl. }
      apply list_elem_of_In in Hx. destruct (Z.le_gt_cases (subExpiresAt sub) (subStartsAt r)) as [?|Hs1]; [by left|].
      destruct (Z.le_gt_cases (subExpiresAt r) (subStartsAt sub)) as [?|Hs2]; [by right|].
      apply not_true_iff_false in Eo. destruct Eo. apply existsb_exists. exists r. split; [done|].
      rewrite (proj2 (Z.eqb_neq _ _) Hne), E4. unfold After, Before. by rewrite !(proj2 (Z.ltb_lt _ _)) by lia. }
  apply windows_map; [done | intros r; apply Hg | |].
  - intros r Hr. unfold inRange. destruct (Hg r) as (_ & _ & _ & -> & ->). by apply (win_range t d HW).
  - intros r1 r2 H1 H2 Hne Hs. destruct (decide (subID r1 = subID sub)) as [E1|N1].
    { rewrite (row_eq t d r1 sub HW H1 Hin E1) in *. apply Hfree; [done | congruence | done]. }
    destruct (decide (subID r2 = subID sub)) as [E2|N2].
    { rewrite (row_eq t d r2 sub HW H2 Hin E2) in *. apply apart_sym, Hfree; [done | congruence | by apply sameChain_sym]. }
    unfold sameChain in Hs. rewrite (Hother r1 N1), (Hother r2 N2) in Hs.
    destruct (Hg r1) as (_ & U1 & P1 & S1 & X1), (Hg r2) as (_ & U2 & P2 & S2 & X2). rewrite U1, U2, P1, P2 in Hs.
    unfold apart. rewrite S1, S2, X1, X2. by apply (win_apart t d HW).
Qed.

Lemma horizon_le restores t : epoch <= t → horizon restores t <= t.
Proof. unfold horizon, epoch, unixToInternal, Second. destruct restores; lia. Qed.

Lemma chainReachable_windows restores t d :
  chainReachable restores (t, d) → epoch <= t <= MaxExpiresAt ∧ windows (horizon restores t) d.
Proof.
  intros Hr. remember (t, d) as x eqn:Ex. revert t d Ex. induction Hr as [[t0 d0] [Ht He]|x y Hx IH Hstep]; intros t d Ex.
  - injection Ex as -> ->. cbn in Ht, He. split; [done|]. split; rewrite He; [apply NoDup_nil_2 | by intros ? ?%not_elem_of_nil.. | by intros ? ? ?%not_elem_of_nil].
  - subst y. inversion Hstep as [t0 d0 d' Hc|t0 t' d0 Htick]; subst.
    + destruct (IH t d0 eq_refl) as [Ht HW]. split; [done|]. pose proof (horizon_le restores t (proj1 Ht)) as HT.
      inversion Hc as [input|users plan days da w m|user code|id days Hf|id days Hf|id|user id|id Hal| |id f Hf]; subst; clear Hc.
      * by apply windows_assign.
      * unfold BulkAssignSubscription. by apply windows_bulkAssign.
      * by apply windows_redeem.
      * apply windows_changePeriod; [done | | done]. intros sub e. apply extendedExpiry_Ok.
      * apply windows_changePeriod; [done | | done]. intros sub e. apply validityExpiry_Ok.
      * apply windows_revokeCall; [done | done | lia].
      * apply windows_revokeOwn; [done | done | lia].
      * by apply windows_restore.
      * by apply windows_expire.
      * by apply windows_updateRow.
    + destruct (IH t0 d eq_refl) as [Ht HW]. split; [lia|]. eapply windows_later; [|exact HW]. unfold horizon. destruct restores; lia.
Qed.

Lemma active_window r t : effectiveStatus r t = SubscriptionStatusActive → subDeleted r = false ∧ subStartsAt r <= t < subExpiresAt r.
Proof.
  unfold effectiveStatus, UserSubscription.EffectiveStatus, subDeleted. destruct (UserSubscription.notDeleted (subBody r)); [|done].
  change (UserSubscription.ExpiresAt (subBody r)) with (subExpiresAt r). change (UserSubscription.StartsAt (subBody r)) with (subStartsAt r).
  unfold After, Before. destruct (Z.ltb_spec t (subExpiresAt r)); [|done]. destruct (Z.ltb_spec t (subStartsAt r)); [done|]. done.
Qed.


(** ** Self-service revocation *)

Lemma replacementOf_spec chain sub now r :
  replacementOf chain sub now = Some r → r ∈ chain ∧ follows sub now r = true.
Proof.
  unfold replacementOf. enough (Hgen : ∀ best,
    (∀ b, best = Some b → b ∈ chain ∧ follows sub now b = true) → ∀ l, (∀ x, x ∈ l → x ∈ chain) →
    ∀ r, fold_left (λ best item, if follows sub now item then
      match best with Some b => if Before (subStartsAt item) (subStartsAt b) then Some item else best | None => Some item end
      else best) l best = Some r → r ∈ chain ∧ follows sub now r = true) by (apply (Hgen None); [done | done]).
  intros best Hb l. revert best Hb. induction l as [|x l IH]; intros best Hb Hl; cbn [fold_left]; [auto|].
  apply IH; [|intros y Hy; apply Hl; by constructor]. assert (Hx : x ∈ chain) by (apply Hl; constructor).
  intros b. destruct (follows sub now x) eqn:E; [|by apply Hb]. destruct best as [b0|]; [|by intros [= <-]].
  destruct (Before _ _); [by intros [= <-] | by apply Hb].
Qed.

Lemma follows_spec sub now r :
  follows sub now r = true → subID r ≠ subID sub ∧ shifts sub r = true ∧ now < subExpiresAt r ∧
    subStatus r = SubscriptionStatusPending.
Proof.
  unfold follows, shifts, After. intros [[[[H1 H2]%andb_true_iff H3]%andb_true_iff H4]%andb_true_iff _]%andb_true_iff.
  apply negb_true_iff, Z.eqb_neq in H1. rewrite (proj2 (Z.eqb_neq _ _) H1), H2. apply eqs_true in H4. zbool. done.
Qed.

(** The window of a later row after the revocation of an active one. *)
Lemma revoked_later T d sub now r :
  windows T d → sub ∈ subs d → r ∈ subs d → subStartsAt sub <= now → epoch <= now < subExpiresAt sub →
  subID r ≠ subID sub → inChainOf sub r = true → shifts sub r = true →
  let r' := revokedRow sub now r in
  subStartsAt r' = subStartsAt r - (subExpiresAt sub - now) ∧ subExpiresAt r' = subExpiresAt r - (subExpiresAt sub - now) ∧
  subDeleted r' = false ∧ subStatus r' = windowStatus (subStartsAt r') (subExpiresAt r') now.
Proof.
  intros HW Hs Hr Hst Hnow Hne Hc Hsh r'. pose proof (win_range T d HW sub Hs) as Rs. pose proof (win_range T d HW r Hr) as Rr.
  unfold inRange in *. unfold r', revokedRow, revokeChainDelta, Before, After.
  rewrite (proj2 (Z.eqb_neq _ _) Hne), (proj2 (Z.ltb_ge now (subStartsAt sub))), (proj2 (Z.ltb_lt now (subExpiresAt sub))) by lia.
  rewrite Sub_range by lia. rewrite (proj2 (Z.eqb_neq (now - subExpiresAt sub) 0)) by lia. unfold shiftRow. rewrite Hc, Hsh. cbn [andb].
  assert (Hcap : capExpiry (Add (subExpiresAt r) (now - subExpiresAt sub)) = subExpiresAt r + (now - subExpiresAt sub)).
  { unfold capExpiry, After, Add. by rewrite (proj2 (Z.ltb_ge _ _)) by lia. }
  unfold shiftItem. rewrite Hcap. change (subStartsAt (withBody _ r)) with (subStartsAt r + (now - subExpiresAt sub)).
  change (subExpiresAt (withBody _ r)) with (subExpiresAt r + (now - subExpiresAt sub)).
  change (subDeleted (withBody _ r)) with (subDeleted r). unfold inChainOf, inChain in Hc.
  apply andb_true_iff in Hc as [_ Hd%negb_true_iff]. split; [lia|]. split; [lia|]. split; done.
Qed.

(** The keys of a rebinding. *)
Lemma rebind_lookup oldID newID d k key :
  0 < oldID → 0 < newID → apiKeys d !! k = Some key → boundTo oldID key = true →
  (rebindSubscriptionAPIKeys oldID newID d).2.(apiKeys) !! k = Some (mkApiKeyRow (billingMode key) (Some newID) (keyDeleted key)).
Proof.
  intros Ho Hn Hk Hb. unfold rebindSubscriptionAPIKeys. rewrite !(proj2 (Z.leb_gt _ _)) by done. cbn [orb snd apiKeys setApiKeys].
  rewrite lookup_fmap, Hk. cbn. unfold rebindKey. by rewrite Hb.
Qed.

End lifecycle.

(** ** Example runs

    User 1 has plan 7 for 30 days at a time, with a monthly limit; API key 5 is
    bound to the first subscription. *)

Definition exampleService : paymentService :=
  mkPaymentService None (λ _, ""%string) false (λ _ _ amount _, Ok amount) (λ _, None) (λ t days, t + days * 24 * Hour) (λ _, "error"%string)
    (BillingDB.Build_SQLNumeric (λ _, None) (λ _, f64_zero)).

#[local] Instance exampleCalendar : Calendar := UserSubscription.shanghai.

Definition dayAt (n : Z) : Time := epoch + (20000 + n) * 24 * Hour.

Definition emptyTable : payDB :=
  mkPayDB ∅ ∅ ∅ ∅ 1 {[1 := mkUserRow 0 0 5 false]} [] [] [] {[5 := mkApiKeyRow APIKeyBillingModeSubscription (Some 1) false]}.

Definition thirtyDays : AssignSubscriptionInput := mkAssignInput 1 7 30 None None (Some (f64_of_Z 10)) true None.

Definition assigned (t : Time) (d : payDB) : payDB := (exec t (AssignOrExtendSubscription exampleService thirtyDays) d).2.
Definition charged (id : Z) (d : payDB) : payDB := (updateRow id (withBody (λ b, UserSubscription.IncrementUsage b (f64_of_Z 10))) d).2.

(** Two subscriptions in a row; the first is used up. *)
Definition queuedTable : payDB := assigned (dayAt 0) (assigned (dayAt 0) emptyTable).
Definition exhaustedTable : payDB := charged 1 queuedTable.

Lemma example_later t days : 0 < days → t <= AddDays exampleService t days.
Proof. cbn. unfold Hour, Minute, Second. lia. Qed.

Lemma termsKept_increment cost : termsKept (λ b, UserSubscription.IncrementUsage b cost).
Proof. intros b. unfold UserSubscription.IncrementUsage. by destruct (UserSubscription.notDeleted b). Qed.

Lemma queuedTable_reachable restores : chainReachable exampleService restores (dayAt 0, queuedTable).
Proof.
  assert (H0 : chainReachable exampleService restores (dayAt 0, emptyTable)).
  { apply reach_init. split; [vm_compute; by split|done]. }
  do 2 (eapply reach_step; [|apply chain_call, call_assign]). exact H0.
Qed.

Lemma exhaustedTable_reachable restores n :
  dayAt 0 <= dayAt n <= MaxExpiresAt → chainReachable exampleService restores (dayAt n, exhaustedTable).
Proof.
  intros Hn. eapply reach_step; [|apply chain_tick, Hn]. eapply reach_step; [|apply chain_call, call_body, termsKept_increment].
  apply queuedTable_reachable.
Qed.

Lemma reach_call restores t d d' :
  chainReachable exampleService restores (t, d) → chainCall exampleService restores t d d' → chainReachable exampleService restores (t, d').
Proof. intros Hr Hc. eapply reach_step; [exact Hr | by apply chain_call]. Qed.

Lemma reach_tick restores t t' d :
  t <= t' <= MaxExpiresAt → chainReachable exampleService restores (t, d) → chainReachable exampleService restores (t', d).
Proof. intros Ht Hr. eapply reach_step; [exact Hr | by apply chain_tick]. Qed.

(** The windows of the live rows, in days. *)
Definition liveWindows (d : payDB) : list (Z * Z * Z) :=
  map (λ r, (subID r, (subStartsAt r - dayAt 0) / (24 * Hour), (subExpiresAt r - dayAt 0) / (24 * Hour)))
    (filter (λ r, subDeleted r = false) (subs d)).

Example queued_windows : liveWindows queuedTable = [(1, 0, 30); (2, 30, 60)].
Proof. vm_compute. reflexivity. Qed.



(** *** What does not hold *)

(** Overlapping windows of two rows that can both be used at a time. *)
Definition overlapping (d : payDB) (t : Time) : Prop :=
  ∃ r1 r2, r1 ∈ subs d ∧ r2 ∈ subs d ∧ subID r1 ≠ subID r2 ∧ subUserID r1 = subUserID r2 ∧ subPlanID r1 = subPlanID r2 ∧
    effectiveStatus r1 t = SubscriptionStatusActive ∧ effectiveStatus r2 t = SubscriptionStatusActive.

Definition bothActive (t : Time) (r1 r2 : SubscriptionRow) : bool :=
  negb (subID r1 =? subID r2) && (subUserID r1 =? subUserID r2) && (subPlanID r1 =? subPlanID r2)
  && eqs (effectiveStatus r1 t) SubscriptionStatusActive && eqs (effectiveStatus r2 t) SubscriptionStatusActive.

Lemma overlapping_bool d t : existsb (λ r1, existsb (bothActive t r1) (subs d)) (subs d) = true → overlapping d t.
Proof.
  intros He. apply existsb_exists in He as (r1 & H1%list_elem_of_In & He). apply existsb_exists in He as (r2 & H2%list_elem_of_In & Hb).
  exists r1, r2.
  unfold bothActive in Hb. apply andb_true_iff in Hb as [[[[E1 E2]%andb_true_iff E3]%andb_true_iff E4]%andb_true_iff E5].
  apply negb_true_iff, Z.eqb_neq in E1. apply eqs_true in E4, E5. zbool. by split_and!.
Qed.

(** Subscription 1 is revoked on day 5 and restored, as expired, on day 33; its
    extension then overlaps subscription 2, whose window starts before the end
    of subscription 1 and is not shifted. *)
Definition restoredTable : payDB :=
  (exec (dayAt 33) (RestoreSubscription 1) (exec (dayAt 5) (RevokeSubscription 1) queuedTable).2).2.

Lemma restored_extension_overlaps :
  chainReachable exampleService true (dayAt 33, restoredTable) ∧
  overlapping (exec (dayAt 33) (ExtendSubscription exampleService 1 10) restoredTable).2 (dayAt 34).
Proof.
  split.
  - assert (T1 : dayAt 0 <= dayAt 5 <= MaxExpiresAt) by by vm_compute. assert (T2 : dayAt 5 <= dayAt 33 <= MaxExpiresAt) by by vm_compute.
    pose proof (reach_call _ _ _ _ (reach_tick _ _ _ _ T1 (queuedTable_reachable true)) (call_revoke _ _ _ _ 1)) as H2.
    exact (reach_call _ _ _ _ (reach_tick _ _ _ _ T2 H2) (call_restore _ _ _ _ 1 eq_refl)).
  - apply overlapping_bool. by vm_compute.
Qed.

(** The calls that administrators and payments run concurrently. *)
Inductive chainEntry : P unit → Prop :=
  | chain_assign input : chainEntry (ignore (AssignOrExtendSubscription exampleService input))
  | chain_extend id days : chainEntry (ignore (ExtendSubscription exampleService id days))
  | chain_revoke id : chainEntry (ignore (RevokeSubscription id)).

Definition concurrentChain : system payDB → Prop :=
  reachable (λ x, x = mkSystem (dayAt 0) (assigned (dayAt 0) emptyTable) []) (systemStep chainEntry (λ _ _ _, False)).

(** An extension reads the chain before its transaction and does not lock the
    user: an assignment in between starts inside the extended window. *)
Lemma stale_extension_overlaps : ∃ x, concurrentChain x ∧ overlapping (db x) (dayAt 31).
Proof.
  set (d1 := assigned (dayAt 0) emptyTable).
  assert (H0 : concurrentChain (mkSystem (dayAt 0) d1 [ignore (ExtendSubscription exampleService 1 10)])).
  { eapply reach_step; [by apply reach_init|]. apply (step_start _ _ (mkSystem (dayAt 0) d1 [])). constructor. }
  assert (H1 := advance_reachable _ _ _ _ _ 0%nat _ H0 eq_refl ltac:(done)).
  assert (H2 := advance_reachable _ _ _ _ _ 0%nat _ H1 eq_refl ltac:(done)).
  assert (H3 := advance_reachable _ _ _ _ _ 0%nat _ H2 eq_refl ltac:(done)).
  destruct (run_reachable _ _ (ignore (AssignOrExtendSubscription exampleService thirtyDays)) _ H3) as [q H4]; [constructor|].
  assert (H5 := advance_reachable _ _ _ _ _ 1%nat _ H4 eq_refl ltac:(done)).
  eexists. split; [exact H5|]. cbn [db].
  apply overlapping_bool. by vm_compute.
Qed.

(** Extending subscription 1 after both have expired revives subscription 2 for
    its full length. *)
Example extension_revives :
  let d := (exec (dayAt 70) (ExtendSubscription exampleService 1 5) queuedTable).2 in
  liveWindows d = [(1, 0, 75); (2, 75, 105)].
Proof. vm_compute. reflexivity. Qed.
