(* ===== verification/RedisStore.v ===== *)
(** * Redis: keys, sorted sets, counters and strings

    The part of Redis that the admission of requests uses
    ([repository/concurrency_cache.go], [repository/session_limit_cache.go],
    [repository/user_msg_queue_cache.go], [repository/rpm_cache.go]).  A command, a Lua script or a
    transaction is one function on the store; the server clock is a field of it.
    A key with an expiry exists until its millisecond has passed, and a sorted
    set without members does not exist.

    [granted] records, for each member of a set and each owner of a lock, until
    which millisecond the code promised it; no code reads it. *)

From S2P Require Import Prelude GoRuntime Transactions.
#[local] Open Scope Z_scope.

(** ** Keys *)

(** The functions that build keys, and the keys that are constants. *)
Inductive redisKey :=
  | accountSlotKey (accountID : Z)
  | userSlotKey (userID : Z)
  | apiKeySlotKey (apiKeyID : Z)
  | liveAccountSlotKey (accountID : Z)
  | liveUserSlotKey (userID : Z)
  | liveAPIKeySlotKey (apiKeyID : Z)
  | openAIWSIngressLeaseKey (apiKeyID : Z)
  | waitQueueKey (userID : Z)
  | accountWaitKey (accountID : Z)
  | accountActiveIndexKey
  | userActiveIndexKey
  | legacyWaitSweepMarkerKey
  | sessionLimitKey (accountID : Z)
  | umqLockKey (accountID : Z)
  | umqLastKey (accountID : Z)
  | umqLockIndexKey
  | rpmKey (accountID minute : Z).

#[global] Instance redisKey_eq : EqDecision redisKey.
Proof. solve_decision. Defined.

Definition keyCode (k : redisKey) : nat * (Z * Z) :=
  match k with
  | accountSlotKey id => (0%nat, (id, 0))
  | userSlotKey id => (1%nat, (id, 0))
  | apiKeySlotKey id => (2%nat, (id, 0))
  | liveAccountSlotKey id => (3%nat, (id, 0))
  | liveUserSlotKey id => (4%nat, (id, 0))
  | liveAPIKeySlotKey id => (5%nat, (id, 0))
  | openAIWSIngressLeaseKey id => (6%nat, (id, 0))
  | waitQueueKey id => (7%nat, (id, 0))
  | accountWaitKey id => (8%nat, (id, 0))
  | accountActiveIndexKey => (9%nat, (0, 0))
  | userActiveIndexKey => (10%nat, (0, 0))
  | legacyWaitSweepMarkerKey => (11%nat, (0, 0))
  | sessionLimitKey id => (12%nat, (id, 0))
  | umqLockKey id => (13%nat, (id, 0))
  | umqLastKey id => (14%nat, (id, 0))
  | umqLockIndexKey => (15%nat, (0, 0))
  | rpmKey id minute => (16%nat, (id, minute))
  end.

Definition keyOfCode (c : nat * (Z * Z)) : option redisKey :=
  let '(n, (id, m)) := c in
  nth_error [accountSlotKey id; userSlotKey id; apiKeySlotKey id; liveAccountSlotKey id; liveUserSlotKey id; liveAPIKeySlotKey id;
    openAIWSIngressLeaseKey id; waitQueueKey id; accountWaitKey id; accountActiveIndexKey; userActiveIndexKey; legacyWaitSweepMarkerKey;
    sessionLimitKey id; umqLockKey id; umqLastKey id; umqLockIndexKey; rpmKey id m] n.

#[global] Instance redisKey_countable : Countable redisKey.
Proof. apply (inj_countable keyCode keyOfCode). by intros []. Defined.

(** The texts of the keys. *)
Definition keyName (k : redisKey) : string :=
  match k with
  | accountSlotKey id => "concurrency:account:" +:+ Itoa id
  | userSlotKey id => "concurrency:user:" +:+ Itoa id
  | apiKeySlotKey id => "concurrency:api_key:" +:+ Itoa id
  | liveAccountSlotKey id => "concurrency:live:account:" +:+ Itoa id
  | liveUserSlotKey id => "concurrency:live:user:" +:+ Itoa id
  | liveAPIKeySlotKey id => "concurrency:live:api_key:" +:+ Itoa id
  | openAIWSIngressLeaseKey id => "concurrency:openai_ws_ingress:api_key:" +:+ Itoa id
  | waitQueueKey id => "concurrency:wait:" +:+ Itoa id
  | accountWaitKey id => "wait:account:" +:+ Itoa id
  | accountActiveIndexKey => "concurrency:account:active_index"
  | userActiveIndexKey => "concurrency:user:active_index"
  | legacyWaitSweepMarkerKey => "concurrency:startup:legacy_wait_sweep:v1"
  | sessionLimitKey id => "session_limit:account:" +:+ Itoa id
  | umqLockKey id => "umq:{" +:+ Itoa id +:+ "}:lock"
  | umqLastKey id => "umq:{" +:+ Itoa id +:+ "}:last"
  | umqLockIndexKey => "umq:lock:index"
  | rpmKey id minute => "rpm:" +:+ Itoa id +:+ ":" +:+ Itoa minute
  end.

(** ** The store *)

Record zset := mkZSet { zmembers : gmap string Z; zexpiry : option Z }.

Record redis := mkRedis {
  millis : Z;                                    (* the clock of the server, Unix milliseconds *)
  zsets : gmap redisKey zset;
  counters : gmap redisKey (Z * option Z);       (* value, expiry *)
  strings : gmap redisKey (string * option Z);
  granted : gmap (redisKey * string) Z;
}.

Definition etaRedis (d : redis) : redis := mkRedis (millis d) (zsets d) (counters d) (strings d) (granted d).
Definition setMillis v d : redis := ltac:(set_field etaRedis d millis v).
Definition setZSets v d : redis := ltac:(set_field etaRedis d zsets v).
Definition setCounters v d : redis := ltac:(set_field etaRedis d counters v).
Definition setStrings v d : redis := ltac:(set_field etaRedis d strings v).
Definition setGranted v d : redis := ltac:(set_field etaRedis d granted v).

(** [TIME], in whole seconds. *)
Definition seconds (d : redis) : Z := millis d / 1000.

Definition alive (d : redis) (expiry : option Z) : bool := match expiry with Some e => millis d <=? e | None => true end.

(** *** Sorted sets *)

Definition setOf (d : redis) (k : redisKey) : option zset :=
  match zsets d !! k with Some z => if alive d (zexpiry z) then Some z else None | None => None end.
Definition members (d : redis) (k : redisKey) : gmap string Z := match setOf d k with Some z => zmembers z | None => ∅ end.
Definition expiryOf (d : redis) (k : redisKey) : option Z := match setOf d k with Some z => zexpiry z | None => None end.

Definition store (k : redisKey) (ms : gmap string Z) (e : option Z) (d : redis) : redis :=
  setZSets (if decide (ms = ∅) then delete k (zsets d) else <[k := mkZSet ms e]> (zsets d)) d.

Definition ZADD (k : redisKey) (score : Z) (m : string) (d : redis) : redis := store k (<[m := score]> (members d k)) (expiryOf d k) d.
Definition ZREM (k : redisKey) (m : string) (d : redis) : redis := store k (delete m (members d k)) (expiryOf d k) d.
(** From minus infinity to [bound]. *)
Definition ZREMRANGEBYSCORE (k : redisKey) (bound : Z) (d : redis) : redis :=
  store k (filter (λ ms, bound < ms.2) (members d k)) (expiryOf d k) d.
Definition ZSCORE (k : redisKey) (m : string) (d : redis) : option Z := members d k !! m.
Definition ZCARD (k : redisKey) (d : redis) : Z := zsize (members d k).
Definition DEL (k : redisKey) (d : redis) : redis := setZSets (delete k (zsets d)) d.
(** A time in the past deletes the key. *)
Definition EXPIRE (k : redisKey) (ttl : Z) (d : redis) : redis :=
  match setOf d k with
  | Some z => store k (if ttl <=? 0 then ∅ else zmembers z) (Some (millis d + 1000 * ttl)) d
  | None => d
  end.

(** [ZRANGEBYSCORE key -inf bound LIMIT 0 limit]: by score, then by member. *)
Definition scoreBefore (x y : Z * string) : Prop := x.1 < y.1 ∨ x.1 = y.1 ∧ String.leb x.2 y.2 = true.
#[global] Instance scoreBefore_dec : RelDecision scoreBefore.
Proof. intros x y. unfold scoreBefore. apply _. Defined.

Definition ZRANGE (k : redisKey) (d : redis) : list string :=
  snd <$> merge_sort scoreBefore ((λ ms, (ms.2, ms.1)) <$> map_to_list (members d k)).
Definition ZRANGEBYSCORE (k : redisKey) (bound limit : Z) (d : redis) : list string :=
  snd <$> take (Z.to_nat limit) (merge_sort scoreBefore (filter (λ x, x.1 <= bound) ((λ ms, (ms.2, ms.1)) <$> map_to_list (members d k)))).

(** *** Counters and strings *)

Definition GETInt (k : redisKey) (d : redis) : option Z :=
  match counters d !! k with Some (v, e) => if alive d e then Some v else None | None => None end.
Definition putCounter (k : redisKey) (v : Z) (e : option Z) (d : redis) : redis := setCounters (<[k := (v, e)]> (counters d)) d.
Definition counterExpiry (k : redisKey) (d : redis) : option Z :=
  match counters d !! k with Some (v, e) => if alive d e then e else None | None => None end.
Definition INCR (k : redisKey) (d : redis) : redis := putCounter k (default 0 (GETInt k d) + 1) (counterExpiry k d) d.
Definition DECR (k : redisKey) (d : redis) : redis := putCounter k (default 0 (GETInt k d) - 1) (counterExpiry k d) d.
Definition EXPIRECounter (k : redisKey) (ttl : Z) (d : redis) : redis :=
  match GETInt k d with
  | Some v => if ttl <=? 0 then setCounters (delete k (counters d)) d else putCounter k v (Some (millis d + 1000 * ttl)) d
  | None => d
  end.
Definition DELCounter (k : redisKey) (d : redis) : redis := setCounters (delete k (counters d)) d.

Definition stringOf (d : redis) (k : redisKey) : option (string * option Z) :=
  match strings d !! k with Some (v, e) => if alive d e then Some (v, e) else None | None => None end.
Definition GETString (k : redisKey) (d : redis) : option string := fst <$> stringOf d k.
Definition SETString (k : redisKey) (v : string) (e : option Z) (d : redis) : redis := setStrings (<[k := (v, e)]> (strings d)) d.
Definition DELString (k : redisKey) (d : redis) : redis := setStrings (delete k (strings d)) d.
(** [-2] for a key that does not exist, [-1] for one that does not expire. *)
Definition PTTL (k : redisKey) (d : redis) : Z :=
  match stringOf d k with Some (_, Some e) => e - millis d | Some (_, None) => -1 | None => -2 end.

(** *** Promises *)

Definition grant (k : redisKey) (m : string) (until : Z) (d : redis) : redis := setGranted (<[(k, m) := until]> (granted d)) d.
Definition giveBack (k : redisKey) (m : string) (d : redis) : redis := setGranted (delete (k, m) (granted d)) d.

(** ** Programs *)

Abbreviation P := (Prog redis).
Definition call {X} (f : redis → X * redis) : P (result dbError X) :=
  Query (λ _ d, let '(x, d) := f d in (Ok x, d)) Ret.
(** A call whose error ends the function. *)
Definition R (X : Type) : Type := P (result dbError X).
Definition okR {X} (x : X) : R X := Ret (Ok x).
Definition errR {X} (e : dbError) : R X := Ret (Err e).
Definition thenR {X Y} (m : R X) (f : X → R Y) : R Y := bindProg (λ r, match r with Ok x => f x | Err e => errR e end) m.
(** A call whose error is only logged. *)
Definition logged {X Y} (m : R X) (f : P Y) : P Y := bindProg (λ _, f) m.

(** ** Lemmas *)

Lemma members_store k ms e d k' :
  alive d e = true → members (store k ms e d) k' = if decide (k' = k) then ms else members d k'.
Proof.
  intros He. unfold members, setOf, store. cbn [zsets setZSets etaRedis]. destruct (decide (ms = ∅)) as [->|Hne].
  - destruct (decide (k' = k)) as [->|Hk]; [by rewrite lookup_delete_eq | by rewrite lookup_delete_ne].
  - destruct (decide (k' = k)) as [->|Hk]; [rewrite lookup_insert_eq | by rewrite lookup_insert_ne].
    cbn. change (alive (setZSets _ d) e) with (alive d e). by rewrite He.
Qed.

Lemma expiryOf_alive d k : alive d (expiryOf d k) = true.
Proof. unfold expiryOf, setOf. destruct (zsets d !! k) as [z|]; [|done]. by destruct (alive d (zexpiry z)) eqn:E. Qed.

Lemma members_ZADD k s m d k' : members (ZADD k s m d) k' = if decide (k' = k) then <[m := s]> (members d k) else members d k'.
Proof. apply members_store, expiryOf_alive. Qed.

Lemma members_ZREM k m d k' : members (ZREM k m d) k' = if decide (k' = k) then delete m (members d k) else members d k'.
Proof. apply members_store, expiryOf_alive. Qed.

Lemma members_ZREMRANGE k bound d k' :
  members (ZREMRANGEBYSCORE k bound d) k' = if decide (k' = k) then filter (λ ms, bound < ms.2) (members d k) else members d k'.
Proof. apply members_store, expiryOf_alive. Qed.

Lemma members_EXPIRE k ttl d k' : 0 < ttl → members (EXPIRE k ttl d) k' = members d k'.
Proof.
  intros Ht. unfold EXPIRE. destruct (setOf d k) as [z|] eqn:E; [|done]. destruct (Z.leb_spec ttl 0); [lia|].
  rewrite members_store by (apply Z.leb_le; lia). destruct (decide (k' = k)) as [->|]; [|done]. unfold members. by rewrite E.
Qed.

Lemma members_DEL k d k' : members (DEL k d) k' = if decide (k' = k) then ∅ else members d k'.
Proof.
  unfold members, setOf, DEL. cbn [zsets setZSets etaRedis].
  destruct (decide (k' = k)) as [->|Hk]; [by rewrite lookup_delete_eq | by rewrite lookup_delete_ne].
Qed.
