(* ===== verification/ConcurrencySlots.v ===== *)
(** * Concurrency slots

    [repository/concurrency_cache.go], [service/concurrency_service.go]: the
    requests in flight of an account, a user and an API key are members of sorted
    sets whose scores are the second of their last sign of life; live sessions
    have sets of their own with a shorter lifetime, and connections of WebSocket
    clients a third kind.  Counters hold how many requests wait.  Two index sets
    name the accounts and users that the background tasks look at.

    A Lua script is one function; a pipeline is several commands between which
    others may run. *)

From S2P Require Import Prelude GoRuntime Transactions RedisStore.
#[local] Open Scope Z_scope.

(** A new score, the expiry of the key, and the promise that goes with it. *)
Definition enter (k : redisKey) (m : string) (lifetime expire : Z) (d : redis) : redis :=
  grant k m ((seconds d + lifetime) * 1000) (EXPIRE k expire (ZADD k (seconds d) m d)).

Definition leave (k : redisKey) (m : string) (d : redis) : redis := giveBack k m (ZREM k m d).

Definition defaultSlotTTLMinutes : Z := 15.
Definition openAIWSIngressLeaseTTLSeconds : Z := 60.
Definition liveLeaseTTLSeconds : Z := 60.
Definition activeIndexCleanupBatchSize : Z := 1000.
Definition activeIndexPipelineChunkSize : nat := 500.

(** ** The scripts *)

Definition acquireScript (key liveKey : redisKey) (maxConcurrency ttl : Z) (requestID : string) (d : redis) : (Z * Z) * redis :=
  let now := seconds d in
  let d := ZREMRANGEBYSCORE liveKey (now - 60) (ZREMRANGEBYSCORE key (now - ttl) d) in
  if bool_decide (is_Some (ZSCORE key requestID d)) then ((1, now), enter key requestID ttl ttl d)
  else if ZCARD key d + ZCARD liveKey d <? maxConcurrency then ((1, now), enter key requestID ttl ttl d)
  else ((0, now), d).

Definition getCountScript (key liveKey : redisKey) (ttl : Z) (d : redis) : Z * redis :=
  let now := seconds d in
  let d := ZREMRANGEBYSCORE liveKey (now - 60) (ZREMRANGEBYSCORE key (now - ttl) d) in
  (ZCARD key d + ZCARD liveKey d, d).

Definition acquireLiveLeaseScript (accountRegular accountLive userRegular userLive apiLive : redisKey)
    (accountMax userMax ttl : Z) (leaseID : string) (replacing : bool) (d : redis) : Z * redis :=
  let bound := seconds d - ttl in
  let d := ZREMRANGEBYSCORE apiLive bound (ZREMRANGEBYSCORE userLive bound (ZREMRANGEBYSCORE accountLive bound d)) in
  if bool_decide (is_Some (ZSCORE accountLive leaseID d)) then (1, d) else
  let accountCount := ZCARD accountRegular d + ZCARD accountLive d in
  let userCount := ZCARD userRegular d + ZCARD userLive d in
  let allowance := if replacing then 1 else 0 in
  if (0 <? accountMax) && (accountMax + allowance <=? accountCount) then (0, d)
  else if (0 <? userMax) && (userMax + allowance <=? userCount) then (0, d)
  else (1, enter apiLive leaseID ttl ttl (enter userLive leaseID ttl ttl (enter accountLive leaseID ttl ttl d))).

(** The first loop: whether every set still has the lease. *)
Fixpoint leaseKept (keys : list redisKey) (bound : Z) (leaseID : string) (d : redis) : bool * redis :=
  match keys with
  | [] => (true, d)
  | key :: keys =>
      let d := ZREMRANGEBYSCORE key bound d in
      if bool_decide (ZSCORE key leaseID d = None) then (false, d) else leaseKept keys bound leaseID d
  end.

Definition refreshLiveLeaseScript (keys : list redisKey) (ttl : Z) (leaseID : string) (d : redis) : Z * redis :=
  let '(kept, d) := leaseKept keys (seconds d - ttl) leaseID d in
  if (kept : bool) then (1, fold_left (λ d key, enter key leaseID ttl ttl d) keys d) else (0, d).

Definition trackSlotScript (key : redisKey) (ttl : Z) (requestID : string) (d : redis) : Z * redis :=
  (1, enter key requestID ttl ttl (ZREMRANGEBYSCORE key (seconds d - ttl) d)).

Definition acquireOpenAIWSIngressLeaseScript (key : redisKey) (maxConnections ttl : Z) (leaseID : string) (d : redis) : Z * redis :=
  let d := ZREMRANGEBYSCORE key (seconds d - ttl) d in
  if bool_decide (is_Some (ZSCORE key leaseID d)) then (1, enter key leaseID ttl ttl d)
  else if ZCARD key d <? maxConnections then (1, enter key leaseID ttl ttl d)
  else (0, d).

Definition refreshOpenAIWSIngressLeaseScript (key : redisKey) (ttl : Z) (leaseID : string) (d : redis) : Z * redis :=
  let d := ZREMRANGEBYSCORE key (seconds d - ttl) d in
  if bool_decide (ZSCORE key leaseID d = None) then (0, d) else (1, enter key leaseID ttl ttl d).

(** [incrementWaitScript] and [incrementAccountWaitScript], which are the same. *)
Definition incrementWaitScript (key : redisKey) (maxWait ttl : Z) (d : redis) : (Z * Z) * redis :=
  let now := seconds d in
  if maxWait <=? default 0 (GETInt key d) then ((0, now), d)
  else ((1, now), EXPIRECounter key ttl (INCR key d)).

Definition decrementWaitScript (key : redisKey) (d : redis) : Z * redis :=
  (1, match GETInt key d with Some current => if 0 <? current then DECR key d else d | None => d end).

(** Delete an empty set, renew the expiry of another. *)
Definition expireOrDelete (key : redisKey) (ttl : Z) (d : redis) : redis :=
  if ZCARD key d =? 0 then DEL key d else EXPIRE key ttl d.

Definition cleanupExpiredSlotsScript (key : redisKey) (ttl : Z) (d : redis) : Z * redis :=
  (1, expireOrDelete key ttl (ZREMRANGEBYSCORE key (seconds d - ttl) d)).

(** The loop over the members, with the number of those that were removed. *)
Fixpoint removeOthers (key : redisKey) (activePrefix : string) (ms : list string) (removed : Z) (d : redis) : Z * redis :=
  match ms with
  | [] => (removed, d)
  | m :: ms =>
      if HasPrefix m activePrefix then removeOthers key activePrefix ms removed d
      else removeOthers key activePrefix ms (removed + 1) (ZREM key m d)
  end.

Definition startupCleanupSlotScript (key : redisKey) (activePrefix : string) (slotTTL : Z) (d : redis) : (Z * Z) * redis :=
  let '(removed, d) := removeOthers key activePrefix (ZRANGE key d) 0 d in
  ((removed, ZCARD key d), expireOrDelete key slotTTL d).

(** ** The cache *)

Record concurrencyCache := mkCache { slotTTLSeconds : Z; waitQueueTTLSeconds : Z }.

Definition NewConcurrencyCache (slotTTLMinutes waitQueueTTL : Z) : concurrencyCache :=
  let minutes := if slotTTLMinutes <=? 0 then defaultSlotTTLMinutes else slotTTLMinutes in
  mkCache (wrap64 (minutes * 60)) (if waitQueueTTL <=? 0 then wrap64 (minutes * 60) else waitQueueTTL).

Record slotIndexSpec := mkSpec { indexKey : redisKey; slotKey : Z → redisKey; waitKey : Z → redisKey }.
Definition accountSlotIndex : slotIndexSpec := mkSpec accountActiveIndexKey accountSlotKey accountWaitKey.
Definition userSlotIndex : slotIndexSpec := mkSpec userActiveIndexKey userSlotKey waitQueueKey.

Record activeIndexLoad := mkLoad { loadID : Z; loadMember : string; slotCount : Z; waitCount : Z }.

Record AccountWithConcurrency := mkWith { accID : Z; MaxConcurrency : Z }.
Record AccountLoadInfo := mkLoadInfo { AccountID : Z; CurrentConcurrency : Z; WaitingCount : Z; LoadRate : Z }.

(** Commands of which nothing but success is used. *)
Definition write (f : redis → redis) : R unit := call (λ d, (tt, f d)).
Definition read {X} (f : redis → X) : R X := call (λ d, (f d, d)).

(** A pipeline sends all its commands; one error is enough for it to fail. *)
Definition both {X Y} (m : R X) (n : R Y) : R (X * Y) :=
  bindProg (λ r, bindProg (λ r', match r, r' with Ok x, Ok y => okR (x, y) | Err e, _ | _, Err e => errR e end) n) m.

Fixpoint pipeline {X} (ms : list (R X)) : R (list X) :=
  match ms with
  | [] => okR []
  | m :: ms => thenR (both m (pipeline ms)) (λ r, okR (r.1 :: r.2))
  end.

Section cache.
Context (c : concurrencyCache).

Definition redisUnixSeconds : R Z := read seconds.

Definition touchActiveIndexAt (index : redisKey) (id expireAt : Z) : P unit :=
  if (id <=? 0) || (expireAt <=? 0) then Ret tt else logged (write (ZADD index expireAt (Itoa id))) (Ret tt).

Definition activeIndexTTL (slots waits : Z) : Z :=
  let ttl := if 0 <? slots then slotTTLSeconds c else 0 in
  if (0 <? waits) && (ttl <? waitQueueTTLSeconds c) then waitQueueTTLSeconds c else ttl.

Definition positiveCount (v : option Z) : Z := match v with Some v => if 0 <? v then v else 0 | None => 0 end.

(** The commands of a pipeline for one candidate. *)
Definition pipelineLoad (id : Z) (member : string) (slot wait : redisKey) (cutoffTime : Z) : R activeIndexLoad :=
  thenR (both (both (write (ZREMRANGEBYSCORE slot cutoffTime)) (read (ZCARD slot))) (read (GETInt wait))) (λ r,
    let '((_, slots), waits) := r in okR (mkLoad id member slots (positiveCount waits))).

Definition readActiveLoadForKey (id : Z) (slot wait : redisKey) (now : Z) : R activeIndexLoad :=
  pipelineLoad id (Itoa id) slot wait (now - slotTTLSeconds c).

Definition refreshActiveIndex (index : redisKey) (id : Z) (slot wait : redisKey) : P unit :=
  if id <=? 0 then Ret tt else
  bindProg (λ r, match r with
    | Err _ => Ret tt
    | Ok now =>
        bindProg (λ r, match r with
          | Err _ => Ret tt
          | Ok load =>
              if (slotCount load =? 0) && (waitCount load <=? 0) then logged (write (ZREM index (Itoa id))) (Ret tt)
              else
                let ttl := activeIndexTTL (slotCount load) (waitCount load) in
                if ttl <=? 0 then Ret tt else touchActiveIndexAt index id (now + ttl)
          end) (readActiveLoadForKey id slot wait now)
    end) redisUnixSeconds.

Definition refreshAccountActiveIndex (accountID : Z) : P unit :=
  refreshActiveIndex accountActiveIndexKey accountID (accountSlotKey accountID) (accountWaitKey accountID).
Definition refreshUserActiveIndex (userID : Z) : P unit :=
  refreshActiveIndex userActiveIndexKey userID (userSlotKey userID) (waitQueueKey userID).

(** *** Slots *)

Definition acquireSlot (slot live index : redisKey) (id maxConcurrency : Z) (requestID : string) : R bool :=
  thenR (call (acquireScript slot live maxConcurrency (slotTTLSeconds c) requestID)) (λ r,
    let '(result, now) := r in
    if result =? 1 then bindProg (λ _, okR true) (touchActiveIndexAt index id (now + slotTTLSeconds c))
    else okR false).

Definition releaseSlot (slot : redisKey) (requestID : string) (refresh : P unit) : R unit :=
  thenR (write (leave slot requestID)) (λ _, bindProg (λ _, okR tt) refresh).

Definition AcquireAccountSlot (accountID maxConcurrency : Z) (requestID : string) : R bool :=
  acquireSlot (accountSlotKey accountID) (liveAccountSlotKey accountID) accountActiveIndexKey accountID maxConcurrency requestID.
Definition ReleaseAccountSlot (accountID : Z) (requestID : string) : R unit :=
  releaseSlot (accountSlotKey accountID) requestID (refreshAccountActiveIndex accountID).
Definition GetAccountConcurrency (accountID : Z) : R Z :=
  call (getCountScript (accountSlotKey accountID) (liveAccountSlotKey accountID) (slotTTLSeconds c)).

Definition AcquireUserSlot (userID maxConcurrency : Z) (requestID : string) : R bool :=
  acquireSlot (userSlotKey userID) (liveUserSlotKey userID) userActiveIndexKey userID maxConcurrency requestID.
Definition ReleaseUserSlot (userID : Z) (requestID : string) : R unit :=
  releaseSlot (userSlotKey userID) requestID (refreshUserActiveIndex userID).
Definition GetUserConcurrency (userID : Z) : R Z :=
  call (getCountScript (userSlotKey userID) (liveUserSlotKey userID) (slotTTLSeconds c)).

Definition TrackAPIKeySlot (apiKeyID : Z) (requestID : string) : R unit :=
  thenR (call (trackSlotScript (apiKeySlotKey apiKeyID) (slotTTLSeconds c) requestID)) (λ _, okR tt).
Definition ReleaseAPIKeySlot (apiKeyID : Z) (requestID : string) : R unit := write (leave (apiKeySlotKey apiKeyID) requestID).

(** *** Leases *)

Definition isOne (m : R Z) : R bool := thenR m (λ r, okR (r =? 1)).

Definition AcquireOpenAIWSIngressLease (apiKeyID maxConnections : Z) (leaseID : string) : R bool :=
  if (apiKeyID <=? 0) || (maxConnections <=? 0) || String.eqb leaseID "" then okR false
  else isOne (call (acquireOpenAIWSIngressLeaseScript (openAIWSIngressLeaseKey apiKeyID) maxConnections openAIWSIngressLeaseTTLSeconds leaseID)).
Definition RefreshOpenAIWSIngressLease (apiKeyID : Z) (leaseID : string) : R bool :=
  if (apiKeyID <=? 0) || String.eqb leaseID "" then okR false
  else isOne (call (refreshOpenAIWSIngressLeaseScript (openAIWSIngressLeaseKey apiKeyID) openAIWSIngressLeaseTTLSeconds leaseID)).
Definition ReleaseOpenAIWSIngressLease (apiKeyID : Z) (leaseID : string) : R unit :=
  if (apiKeyID <=? 0) || String.eqb leaseID "" then okR tt else write (leave (openAIWSIngressLeaseKey apiKeyID) leaseID).

Definition AcquireLiveLease (accountID accountMax userID userMax apiKeyID : Z) (leaseID : string) (replacingRegularSlots : bool) : R bool :=
  if (accountID <=? 0) || (userID <=? 0) || (apiKeyID <=? 0) || String.eqb leaseID "" then okR false
  else isOne (call (acquireLiveLeaseScript (accountSlotKey accountID) (liveAccountSlotKey accountID) (userSlotKey userID)
                      (liveUserSlotKey userID) (liveAPIKeySlotKey apiKeyID) accountMax userMax liveLeaseTTLSeconds leaseID replacingRegularSlots)).

Definition liveKeys (accountID userID apiKeyID : Z) : list redisKey :=
  [liveAccountSlotKey accountID; liveUserSlotKey userID; liveAPIKeySlotKey apiKeyID].

Definition RefreshLiveLease (accountID userID apiKeyID : Z) (leaseID : string) : R bool :=
  if String.eqb leaseID "" then okR false
  else isOne (call (refreshLiveLeaseScript (liveKeys accountID userID apiKeyID) liveLeaseTTLSeconds leaseID)).
(** A transaction of three commands. *)
Definition ReleaseLiveLease (accountID userID apiKeyID : Z) (leaseID : string) : R unit :=
  if String.eqb leaseID "" then okR tt else write (λ d, fold_left (λ d key, leave key leaseID d) (liveKeys accountID userID apiKeyID) d).

(** *** Batches *)

(** The answer of a pipeline as a map: the last command of an identifier counts. *)
Definition mapOf {X} (l : list (Z * X)) : gmap Z X := fold_left (λ m x, <[x.1 := x.2]> m) l ∅.

(** The commands for one identifier, with cutoffs from one reading of the clock. *)
Definition countSlots (slot live : redisKey) (now : Z) : R Z :=
  thenR (both (both (write (ZREMRANGEBYSCORE slot (now - slotTTLSeconds c))) (write (ZREMRANGEBYSCORE live (now - liveLeaseTTLSeconds))))
              (both (read (ZCARD slot)) (read (ZCARD live)))) (λ r,
    let '(_, (slots, leases)) := r in okR (slots + leases)).

Definition concurrencyBatch (slot live : Z → redisKey) (ids : list Z) : R (gmap Z Z) :=
  match ids with
  | [] => okR ∅
  | _ => thenR redisUnixSeconds (λ now,
           thenR (pipeline ((λ id, thenR (countSlots (slot id) (live id) now) (λ n, okR (id, n))) <$> ids)) (λ l, okR (mapOf l)))
  end.

Definition GetAccountConcurrencyBatch (accountIDs : list Z) : R (gmap Z Z) := concurrencyBatch accountSlotKey liveAccountSlotKey accountIDs.
Definition GetAPIKeyConcurrencyBatch (apiKeyIDs : list Z) : R (gmap Z Z) := concurrencyBatch apiKeySlotKey liveAPIKeySlotKey apiKeyIDs.

(** Waiting requests count towards the load. *)
Definition loadInfo (id maxConcurrency current : Z) (waiting : option Z) : AccountLoadInfo :=
  let waitingCount := default 0 waiting in
  mkLoadInfo id current waitingCount
    (if 0 <? maxConcurrency then goQuot (wrap64 (wrap64 (current + waitingCount) * 100)) maxConcurrency else 0).

Definition loadBatch (slot live wait : Z → redisKey) (xs : list AccountWithConcurrency) : R (gmap Z AccountLoadInfo) :=
  match xs with
  | [] => okR ∅
  | _ => thenR redisUnixSeconds (λ now,
           thenR (pipeline ((λ x, thenR (both (countSlots (slot (accID x)) (live (accID x)) now) (read (GETInt (wait (accID x)))))
                                        (λ r, okR (accID x, loadInfo (accID x) (MaxConcurrency x) r.1 r.2))) <$> xs)) (λ l, okR (mapOf l)))
  end.

Definition GetAccountsLoadBatch : list AccountWithConcurrency → R (gmap Z AccountLoadInfo) := loadBatch accountSlotKey liveAccountSlotKey accountWaitKey.
Definition GetUsersLoadBatch : list AccountWithConcurrency → R (gmap Z AccountLoadInfo) := loadBatch userSlotKey liveUserSlotKey waitQueueKey.

(** *** Waiting requests *)

Definition incrementWait (wait index : redisKey) (id maxWait : Z) : R bool :=
  thenR (call (incrementWaitScript wait maxWait (waitQueueTTLSeconds c))) (λ r,
    let '(result, now) := r in
    if result =? 1 then bindProg (λ _, okR true) (touchActiveIndexAt index id (now + waitQueueTTLSeconds c))
    else okR false).

Definition decrementWait (wait : redisKey) (refresh : P unit) : R unit :=
  thenR (call (decrementWaitScript wait)) (λ _, bindProg (λ _, okR tt) refresh).

Definition IncrementWaitCount (userID maxWait : Z) : R bool := incrementWait (waitQueueKey userID) userActiveIndexKey userID maxWait.
Definition DecrementWaitCount (userID : Z) : R unit := decrementWait (waitQueueKey userID) (refreshUserActiveIndex userID).
Definition IncrementAccountWaitCount (accountID maxWait : Z) : R bool :=
  incrementWait (accountWaitKey accountID) accountActiveIndexKey accountID maxWait.
Definition DecrementAccountWaitCount (accountID : Z) : R unit := decrementWait (accountWaitKey accountID) (refreshAccountActiveIndex accountID).
Definition GetAccountWaitingCount (accountID : Z) : R Z := thenR (read (GETInt (accountWaitKey accountID))) (λ r, okR (default 0 r)).

(** *** Background cleanup *)

Definition CleanupExpiredAccountSlots (accountID : Z) : R unit :=
  thenR (call (cleanupExpiredSlotsScript (accountSlotKey accountID) (slotTTLSeconds c))) (λ _,
    bindProg (λ _, okR tt) (refreshAccountActiveIndex accountID)).

Definition removeActiveIndexMembers (index : redisKey) (ms : list string) : P unit :=
  match ms with [] => Ret tt | _ => logged (write (λ d, fold_left (λ d m, ZREM index m d) ms d)) (Ret tt) end.

Definition addActiveIndexMembers (index : redisKey) (ms : list (Z * string)) : P unit :=
  match ms with [] => Ret tt | _ => logged (write (λ d, fold_left (λ d x, ZADD index x.1 x.2 d) ms d)) (Ret tt) end.

(** The identifier of a member, when it is one. *)
Definition memberID (m : string) : option Z := match Atoi m with Some id => if id <=? 0 then None else Some id | None => None end.

Fixpoint chunks {X} (n : nat) (fuel : nat) (l : list X) : list (list X) :=
  match fuel, l with S fuel, _ :: _ => take n l :: chunks n fuel (drop n l) | _, _ => [] end.

Fixpoint inChunks {X Y} (f : X → R Y) (ls : list (list X)) : R (list Y) :=
  match ls with
  | [] => okR []
  | l :: ls => thenR (pipeline (f <$> l)) (λ ys, thenR (inChunks f ls) (λ zs, okR (ys ++ zs)))
  end.

Definition readIndexLoads (spec : slotIndexSpec) (ms : list string) (now : Z) : R (list activeIndexLoad * list string) :=
  let stale := filter (λ m, memberID m = None) ms in
  let candidates := omap (λ m, (λ id, (id, m)) <$> memberID m) ms in
  thenR (inChunks (λ x, pipelineLoad x.1 x.2 (slotKey spec x.1) (waitKey spec x.1) (now - slotTTLSeconds c))
           (chunks activeIndexPipelineChunkSize (length candidates) candidates)) (λ loads, okR (loads, stale)).

Definition idle (load : activeIndexLoad) : bool := (slotCount load =? 0) && (waitCount load <=? 0).

Definition reconcileExpiredIndexCandidates (spec : slotIndexSpec) : R unit :=
  thenR redisUnixSeconds (λ now,
  thenR (read (ZRANGEBYSCORE (indexKey spec) now activeIndexCleanupBatchSize)) (λ ms,
  thenR (readIndexLoads spec ms now) (λ r,
    let '(loads, stale) := r in
    let refreshed := (λ load, (now + activeIndexTTL (slotCount load) (waitCount load), loadMember load)) <$> filter (λ load, idle load = false) loads in
    bindProg (λ _, bindProg (λ _, okR tt)
      (removeActiveIndexMembers (indexKey spec) (stale ++ (loadMember <$> filter (λ load, idle load = true) loads))))
      (addActiveIndexMembers (indexKey spec) refreshed)))).

Definition CleanupExpiredAccountSlotKeys : R unit :=
  thenR (reconcileExpiredIndexCandidates accountSlotIndex) (λ _, reconcileExpiredIndexCandidates userSlotIndex).

(** *** Cleanup at start *)

Definition deleteCounters (keys : list redisKey) : redis → redis := λ d, fold_left (λ d k, DELCounter k d) keys d.

(** The answers to [SCAN] are the server's: pages of identifiers until its cursor is zero. *)
Fixpoint sweepPages (key : Z → redisKey) (pages : list (list Z)) : R unit :=
  match pages with
  | [] => okR tt
  | page :: pages =>
      thenR (read (λ _, tt)) (λ _,
      thenR (match page with [] => okR tt | _ => write (deleteCounters (key <$> page)) end) (λ _, sweepPages key pages))
  end.

Definition sweepLegacyWaitKeysOnce (accountPages userPages : list (list Z)) : R unit :=
  thenR (read (GETString legacyWaitSweepMarkerKey)) (λ r,
    match r with
    | Some _ => okR tt
    | None =>
        thenR (sweepPages accountWaitKey accountPages) (λ _,
        thenR (sweepPages waitQueueKey userPages) (λ _,
          write (SETString legacyWaitSweepMarkerKey "1" None)))
    end).

(** The loop over the members of an index: what stays in it and what goes. *)
Fixpoint cleanMembers (spec : slotIndexSpec) (activeRequestPrefix : string) (now : Z) (ms : list string)
    (refreshed : list (Z * string)) (stale : list string) : R (list (Z * string) * list string) :=
  match ms with
  | [] => okR (refreshed, stale)
  | m :: ms =>
      match memberID m with
      | None => cleanMembers spec activeRequestPrefix now ms refreshed (stale ++ [m])
      | Some id =>
          thenR (call (startupCleanupSlotScript (slotKey spec id) activeRequestPrefix (slotTTLSeconds c))) (λ r,
          thenR (write (DELCounter (waitKey spec id))) (λ _,
            if 0 <? r.2 then cleanMembers spec activeRequestPrefix now ms (refreshed ++ [(now + slotTTLSeconds c, m)]) stale
            else cleanMembers spec activeRequestPrefix now ms refreshed (stale ++ [m])))
      end
  end.

Definition cleanupStaleProcessSlotsForIndex (spec : slotIndexSpec) (ms : list string) (activeRequestPrefix : string) (now : Z) : R unit :=
  thenR (cleanMembers spec activeRequestPrefix now ms [] []) (λ r,
    bindProg (λ _, bindProg (λ _, okR tt) (removeActiveIndexMembers (indexKey spec) r.2)) (addActiveIndexMembers (indexKey spec) r.1)).

Definition CleanupStaleProcessSlots (activeRequestPrefix : string) (accountPages userPages : list (list Z)) : R unit :=
  if String.eqb activeRequestPrefix "" then okR tt else
  thenR (sweepLegacyWaitKeysOnce accountPages userPages) (λ _,
  thenR redisUnixSeconds (λ now,
  thenR (read (ZRANGE accountActiveIndexKey)) (λ ms,
  thenR (cleanupStaleProcessSlotsForIndex accountSlotIndex ms activeRequestPrefix now) (λ _,
  thenR (read (ZRANGE userActiveIndexKey)) (λ ms,
    cleanupStaleProcessSlotsForIndex userSlotIndex ms activeRequestPrefix now))))).
End cache.
