(* ===== verification/ConcurrencyService.v ===== *)
(** * The concurrency service

    [service/concurrency_service.go]: identifiers of requests, slots with their
    release functions, the counters of waiting requests, the leases of WebSocket
    clients with their refresh loop, and the short-lived cache of account loads.

    The sequence number of a request is the answer of the atomic counter of the
    process, an argument here.  A nil cache is the one configuration that is left
    out. *)

From S2P Require Import Prelude GoRuntime Transactions RedisStore ConcurrencySlots.
#[local] Open Scope Z_scope.

(** ** Identifiers *)

Definition digit36 (d : Z) : ascii := Ascii.ascii_of_nat (Z.to_nat (if d <? 10 then 48 + d else 87 + d)).

(** The digits before [acc]; 13 of them are enough for 64 bits. *)
Fixpoint formatDigits (fuel : nat) (n : Z) (acc : string) : string :=
  match fuel with
  | O => acc
  | S fuel =>
      let acc := String (digit36 (n mod 36)) acc in
      if n / 36 =? 0 then acc else formatDigits fuel (n / 36) acc
  end.

(** [strconv.FormatUint(n, 36)]. *)
Definition FormatUint36 (n : Z) : string := formatDigits 13 n "".

(** [requestIDPrefix] of the eight random bytes, or of the clock and the process. *)
Definition initRequestIDPrefix (random : option Z) (fallback : Z) : string := "r" +:+ FormatUint36 (default fallback random).

Definition generateRequestID (requestIDPrefix : string) (seq : Z) : string := requestIDPrefix +:+ ("-" +:+ FormatUint36 seq).

(** ** Slots *)

Record AcquireResult := mkAcquire { Acquired : bool; ReleaseFunc : option (P unit) }.

Definition ignore {X} (m : R X) : P unit := logged m (Ret tt).

Section service.
Context (c : concurrencyCache) (requestIDPrefix : string).

(** The three outcomes of an attempt with a limit. *)
Definition acquireWith (maxConcurrency : Z) (acquire : R bool) (release : R unit) : R AcquireResult :=
  if maxConcurrency <=? 0 then okR (mkAcquire true (Some (Ret tt)))
  else thenR acquire (λ acquired, okR (if (acquired : bool) then mkAcquire true (Some (ignore release)) else mkAcquire false None)).

Definition AcquireAccountSlot (accountID maxConcurrency seq : Z) : R AcquireResult :=
  let requestID := generateRequestID requestIDPrefix seq in
  acquireWith maxConcurrency (ConcurrencySlots.AcquireAccountSlot c accountID maxConcurrency requestID)
    (ConcurrencySlots.ReleaseAccountSlot c accountID requestID).

Definition AcquireUserSlot (userID maxConcurrency seq : Z) : R AcquireResult :=
  let requestID := generateRequestID requestIDPrefix seq in
  acquireWith maxConcurrency (ConcurrencySlots.AcquireUserSlot c userID maxConcurrency requestID)
    (ConcurrencySlots.ReleaseUserSlot c userID requestID).

(** Counting only: an error is as good as a slot. *)
Definition TrackAPIKeySlot (apiKeyID seq : Z) : P (P unit) :=
  if apiKeyID <=? 0 then Ret (Ret tt) else
  let requestID := generateRequestID requestIDPrefix seq in
  bindProg (λ r, match r with
    | Err _ => Ret (Ret tt)
    | Ok _ => Ret (ignore (ReleaseAPIKeySlot apiKeyID requestID))
    end) (ConcurrencySlots.TrackAPIKeySlot c apiKeyID requestID).

Definition zeroAPIKeyConcurrencyMap (apiKeyIDs : list Z) : gmap Z Z := mapOf ((λ id, (id, 0)) <$> apiKeyIDs).

Definition GetAPIKeyConcurrencyBatch (apiKeyIDs : list Z) : P (gmap Z Z) :=
  let result := zeroAPIKeyConcurrencyMap apiKeyIDs in
  match apiKeyIDs with
  | [] => Ret result
  | _ => bindProg (λ r, match r with
           | Err _ => Ret result
           | Ok counts => Ret (fold_left (λ m id, <[id := default 0 (counts !! id)]> m) apiKeyIDs result)
           end) (ConcurrencySlots.GetAPIKeyConcurrencyBatch c apiKeyIDs)
  end.

(** ** Waiting requests *)

Definition defaultExtraWaitSlots : Z := 20.

(** An error lets the request pass. *)
Definition failOpen (m : R bool) : P bool := bindProg (λ r, Ret (match r with Ok b => b | Err _ => true end)) m.

Definition IncrementWaitCount (userID maxWait : Z) : P bool := failOpen (ConcurrencySlots.IncrementWaitCount c userID maxWait).
Definition DecrementWaitCount (userID : Z) : P unit := ignore (ConcurrencySlots.DecrementWaitCount c userID).
Definition IncrementAccountWaitCount (accountID maxWait : Z) : P bool := failOpen (ConcurrencySlots.IncrementAccountWaitCount c accountID maxWait).
Definition DecrementAccountWaitCount (accountID : Z) : P unit := ignore (ConcurrencySlots.DecrementAccountWaitCount c accountID).

Definition CalculateMaxWait (userConcurrency : Z) : Z :=
  wrap64 ((if userConcurrency <=? 0 then 1 else userConcurrency) + defaultExtraWaitSlots).

Definition CleanupStaleProcessSlots (accountPages userPages : list (list Z)) : R unit :=
  ConcurrencySlots.CleanupStaleProcessSlots c requestIDPrefix accountPages userPages.

(** ** Leases of WebSocket clients *)

Definition openAIWSIngressLeaseTTL : Duration := 60 * Second.
Definition openAIWSIngressLeaseRefreshInterval : Duration := 20 * Second.

Inductive leaseAnswer :=
  | LeaseNotLimited                     (* no lease, but the connection may go on *)
  | LeaseTaken (leaseID : string)
  | LeaseRefused
  | LeaseFailed.

Definition AcquireOpenAIWSIngressLease (apiKeyID maxConnections seq : Z) : P leaseAnswer :=
  if maxConnections <=? 0 then Ret LeaseNotLimited
  else if apiKeyID <=? 0 then Ret LeaseFailed
  else
    let leaseID := generateRequestID requestIDPrefix seq in
    bindProg (λ r, Ret (match r with Ok true => LeaseTaken leaseID | Ok false => LeaseRefused | Err _ => LeaseFailed end))
      (ConcurrencySlots.AcquireOpenAIWSIngressLease apiKeyID maxConnections leaseID).

(** [lastConfirmedAt] and whether the lease is lost. *)
Definition refresh (apiKeyID : Z) (leaseID : string) (lastConfirmedAt : Time) : P (Time * bool) :=
  bindProg (λ r, Clock (λ now, Ret (match r with
    | Ok true => (now, false)
    | Ok false => (lastConfirmedAt, true)
    | Err _ => (lastConfirmedAt, openAIWSIngressLeaseTTL <=? now - lastConfirmedAt)
    end))) (RefreshOpenAIWSIngressLease apiKeyID leaseID).

(** The loop while the connection lasts, [ticks] of the ticker: whether the lease was lost. *)
Fixpoint refreshLoop (ticks : nat) (apiKeyID : Z) (leaseID : string) (lastConfirmedAt : Time) : P bool :=
  match ticks with
  | O => Ret false
  | S ticks => bindProg (λ r, if (snd r : bool) then Ret true else refreshLoop ticks apiKeyID leaseID (fst r)) (refresh apiKeyID leaseID lastConfirmedAt)
  end.

Definition Release (apiKeyID : Z) (leaseID : string) : P unit :=
  if (apiKeyID <=? 0) || String.eqb leaseID "" then Ret tt else ignore (ReleaseOpenAIWSIngressLease apiKeyID leaseID).
End service.

(** ** The cache of account loads *)

Definition maxAccountLoadBatchCacheEntries : Z := 256.

Record cachedAccountLoadBatch := mkCached { loadMap : gmap Z AccountLoadInfo; expiresAt : Time }.

Definition getCachedAccountLoadBatch (key : string) (now : Time) (cache : gmap string cachedAccountLoadBatch) :
    option (gmap Z AccountLoadInfo) * gmap string cachedAccountLoadBatch :=
  match cache !! key with
  | None => (None, cache)
  | Some cached => if negb (now <? expiresAt cached) then (None, delete key cache) else (Some (loadMap cached), cache)
  end.

(** The second loop: entries go in the order in which Go iterates over the map. *)
Fixpoint evict (order : list string) (cache : gmap string cachedAccountLoadBatch) : gmap string cachedAccountLoadBatch :=
  match order with
  | [] => cache
  | key :: order => if maxAccountLoadBatchCacheEntries <=? zsize cache then evict order (delete key cache) else cache
  end.

Definition storeCachedAccountLoadBatch (order : list string) (key : string) (loads : gmap Z AccountLoadInfo) (expires now : Time)
    (cache : gmap string cachedAccountLoadBatch) : gmap string cachedAccountLoadBatch :=
  let cache := if maxAccountLoadBatchCacheEntries <=? zsize cache
               then evict order (filter (λ kv, now <? expiresAt kv.2 = true) cache) else cache in
  <[key := mkCached loads expires]> cache.

(** ** Lemmas *)

(** The string of the digits determines the number: its value read from the left. *)
Definition value36 (a : ascii) : Z := 
  let n := Z.of_nat (Ascii.nat_of_ascii a) in if n <? 58 then n - 48 else n - 87.
Fixpoint read36 (acc : Z) (s : string) : Z :=
  match s with EmptyString => acc | String a s => read36 (acc * 36 + value36 a) s end.

Lemma value36_digit36 d : 0 <= d < 36 → value36 (digit36 d) = d.
Proof.
  intros Hd. unfold value36, digit36. rewrite Ascii.nat_ascii_embedding by (case_match; lia).
  destruct (Z.ltb_spec d 10).
  - destruct (Z.ltb_spec (Z.of_nat (Z.to_nat (48 + d))) 58); lia.
  - destruct (Z.ltb_spec (Z.of_nat (Z.to_nat (87 + d))) 58); lia.
Qed.

Lemma read36_formatDigits fuel n acc :
  0 <= n < 36 ^ Z.of_nat fuel → (0 < fuel)%nat → read36 0 (formatDigits fuel n acc) = read36 n acc.
Proof.
  revert n acc. induction fuel as [|fuel IH]; intros n acc Hn Hf; [lia|]. cbn [formatDigits].
  assert (Hm : 0 <= n mod 36 < 36) by (apply Z.mod_pos_bound; lia). pose proof (Z.div_mod n 36 ltac:(lia)) as Hdm.
  destruct (Z.eqb_spec (n / 36) 0) as [E|E].
  - cbn [read36]. rewrite value36_digit36 by done. f_equal. lia.
  - rewrite Nat2Z.inj_succ, Z.pow_succ_r in Hn by lia. assert (H1 : 0 < n / 36) by (pose proof (Z.div_pos n 36); lia).
    assert (H2 : n / 36 < 36 ^ Z.of_nat fuel) by (apply Z.div_lt_upper_bound; lia).
    rewrite IH; [|lia|].
    + cbn [read36]. rewrite value36_digit36 by done. f_equal. lia.
    + destruct fuel; [cbn in H2; lia | lia].
Qed.

Lemma FormatUint36_inj n m : 0 <= n < 2 ^ 64 → 0 <= m < 2 ^ 64 → FormatUint36 n = FormatUint36 m → n = m.
Proof.
  intros Hn Hm E%(f_equal (read36 0)). assert (Hp : 2 ^ 64 < 36 ^ Z.of_nat 13) by reflexivity.
  unfold FormatUint36 in E. rewrite !read36_formatDigits in E by lia. exact E.
Qed.

Lemma prefix_app (p s : string) : HasPrefix (p +:+ s) p = true.
Proof. unfold HasPrefix. induction p as [|a p IH]; [by destruct s|]. change (String a p +:+ s) with (String a (p +:+ s)). unfold String.prefix; fold String.prefix. by destruct (Ascii.ascii_dec a a). Qed.

Lemma generateRequestID_prefix p seq : HasPrefix (generateRequestID p seq) p = true.
Proof. apply prefix_app. Qed.

Lemma generateRequestID_inj p seq seq' :
  0 <= seq < 2 ^ 64 → 0 <= seq' < 2 ^ 64 → generateRequestID p seq = generateRequestID p seq' → seq = seq'.
Proof.
  intros H1 H2 E. apply FormatUint36_inj; [done..|]. unfold generateRequestID in E.
  induction p as [|a p IH]; [by injection E | injection E; apply IH].
Qed.

Lemma evict_size order cache :
  (∀ key, key ∈ dom cache → key ∈ order) → NoDup order → zsize (evict order cache) < maxAccountLoadBatchCacheEntries.
Proof.
  revert cache. induction order as [|key order IH]; intros cache Hin Hnd; cbn [evict].
  - assert (cache = ∅) as ->; [|rewrite zsize_empty; unfold maxAccountLoadBatchCacheEntries; lia].
    apply map_empty. intros i. apply not_elem_of_dom. by intros ?%Hin%not_elem_of_nil.
  - destruct (Z.leb_spec maxAccountLoadBatchCacheEntries (zsize cache)); [|done]. inversion_clear Hnd. apply IH; [|done].
    intros k. rewrite dom_delete, elem_of_difference, elem_of_singleton. intros [[->|?]%Hin%elem_of_cons ?]; done.
Qed.

(** The cache never has more entries than its limit, whatever order Go iterates in. *)
Lemma storeCached_bounded order key loads expires now cache :
  (∀ k, k ∈ dom cache → k ∈ order) → NoDup order → zsize cache <= maxAccountLoadBatchCacheEntries →
  zsize (storeCachedAccountLoadBatch order key loads expires now cache) <= maxAccountLoadBatchCacheEntries.
Proof.
  intros Hin Hnd Hc. unfold storeCachedAccountLoadBatch.
  destruct (Z.leb_spec maxAccountLoadBatchCacheEntries (zsize cache)).
  - pose proof (zsize_insert_le (evict order (filter (λ kv, now <? expiresAt kv.2 = true) cache)) key (mkCached loads expires)).
    assert (zsize (evict order (filter (λ kv, now <? expiresAt kv.2 = true) cache)) < maxAccountLoadBatchCacheEntries); [|lia].
    apply evict_size; [|done]. intros k Hk. apply Hin. pose proof (dom_filter_subseteq (λ kv, now <? expiresAt kv.2 = true) cache). set_solver.
  - pose proof (zsize_insert_le cache key (mkCached loads expires)). lia.
Qed.
