(* ===== verification/SessionLimit.v ===== *)
(** * Sessions of an account

    [repository/session_limit_cache.go]: the sessions that use an account are
    members of a sorted set whose scores are the second of their last request; a
    session that is idle for longer than the account's timeout is forgotten.  Also
    the counter of requests per minute ([repository/rpm_cache.go]). *)

From S2P Require Import Prelude GoRuntime Transactions RedisStore ConcurrencySlots.
#[local] Open Scope Z_scope.

(** ** The scripts *)

Definition registerSessionScript (key : redisKey) (maxSessions idleTimeout : Z) (sessionUUID : string) (d : redis) : Z * redis :=
  let d := ZREMRANGEBYSCORE key (seconds d - idleTimeout) d in
  if bool_decide (is_Some (ZSCORE key sessionUUID d)) then (1, enter key sessionUUID idleTimeout (idleTimeout + 60) d)
  else if ZCARD key d <? maxSessions then (1, enter key sessionUUID idleTimeout (idleTimeout + 60) d)
  else (0, d).

Definition refreshSessionScript (key : redisKey) (idleTimeout : Z) (sessionUUID : string) (d : redis) : Z * redis :=
  (1, if bool_decide (is_Some (ZSCORE key sessionUUID d)) then enter key sessionUUID idleTimeout (idleTimeout + 60) d else d).

Definition getActiveSessionCountScript (key : redisKey) (idleTimeout : Z) (d : redis) : Z * redis :=
  let d := ZREMRANGEBYSCORE key (seconds d - idleTimeout) d in (ZCARD key d, d).

Definition isSessionActiveScript (key : redisKey) (idleTimeout : Z) (sessionUUID : string) (d : redis) : Z :=
  match ZSCORE key sessionUUID d with
  | None => 0
  | Some score => if score <=? seconds d - idleTimeout then 0 else 1
  end.

(** ** The cache *)

Record sessionLimitCache := mkSessions { defaultIdleTimeout : Duration }.

Definition NewSessionLimitCache (defaultIdleTimeoutMinutes : Z) : sessionLimitCache :=
  mkSessions (wrap64 ((if defaultIdleTimeoutMinutes <=? 0 then 5 else defaultIdleTimeoutMinutes) * Minute)).

(** [int(d.Seconds())]. *)
Definition wholeSeconds (d : Duration) : Z := f64_trunc (Seconds d).

Section sessions.
Context (c : sessionLimitCache).

Definition idleTimeoutSeconds (idleTimeout : Duration) : Z :=
  if wholeSeconds idleTimeout <=? 0 then wholeSeconds (defaultIdleTimeout c) else wholeSeconds idleTimeout.

(** An error comes with the answer that lets the request pass. *)
Definition RegisterSession (accountID : Z) (sessionUUID : string) (maxSessions : Z) (idleTimeout : Duration) : P (bool * option dbError) :=
  if String.eqb sessionUUID "" || (maxSessions <=? 0) then Ret (true, None) else
  bindProg (λ r, Ret (match r with Ok result => (result =? 1, None) | Err e => (true, Some e) end))
    (call (registerSessionScript (sessionLimitKey accountID) maxSessions (idleTimeoutSeconds idleTimeout) sessionUUID)).

Definition RefreshSession (accountID : Z) (sessionUUID : string) (idleTimeout : Duration) : R unit :=
  if String.eqb sessionUUID "" then okR tt else
  thenR (call (refreshSessionScript (sessionLimitKey accountID) (idleTimeoutSeconds idleTimeout) sessionUUID)) (λ _, okR tt).

Definition GetActiveSessionCount (accountID : Z) : R Z :=
  call (getActiveSessionCountScript (sessionLimitKey accountID) (wholeSeconds (defaultIdleTimeout c))).

(** The timeout of the account, or the default. *)
Definition batchTimeout (idleTimeouts : gmap Z Duration) (accountID : Z) : Z :=
  wholeSeconds (match idleTimeouts !! accountID with Some t => if 0 <? t then t else defaultIdleTimeout c | None => defaultIdleTimeout c end).

(** A command that fails leaves its account out. *)
Fixpoint GetActiveSessionCountBatch (accountIDs : list Z) (idleTimeouts : gmap Z Duration) : P (gmap Z Z) :=
  match accountIDs with
  | [] => Ret ∅
  | id :: accountIDs =>
      bindProg (λ r, bindProg (λ m, Ret (match r with Ok n => if bool_decide (id ∈ accountIDs) then m else <[id := n]> m | Err _ => m end))
                 (GetActiveSessionCountBatch accountIDs idleTimeouts))
        (call (getActiveSessionCountScript (sessionLimitKey id) (batchTimeout idleTimeouts id)))
  end.

Definition IsSessionActive (accountID : Z) (sessionUUID : string) : R bool :=
  if String.eqb sessionUUID "" then okR false else
  thenR (read (isSessionActiveScript (sessionLimitKey accountID) (wholeSeconds (defaultIdleTimeout c)) sessionUUID)) (λ r, okR (r =? 1)).
End sessions.

(** ** Requests per minute *)

Definition rpmKeyTTL : Z := 120.

Definition currentMinuteKey (accountID : Z) : R redisKey := thenR (read seconds) (λ now, okR (rpmKey accountID (goQuot now 60))).

(** [INCR] and [EXPIRE] in one transaction. *)
Definition IncrementRPM (accountID : Z) : R Z :=
  thenR (currentMinuteKey accountID) (λ key,
    call (λ d, let d := EXPIRECounter key rpmKeyTTL (INCR key d) in (default 0 (GETInt key d), d))).

Definition GetRPM (accountID : Z) : R Z :=
  thenR (currentMinuteKey accountID) (λ key, thenR (read (GETInt key)) (λ v, okR (default 0 v))).

Definition GetRPMBatch (accountIDs : list Z) : R (gmap Z Z) :=
  match accountIDs with
  | [] => okR ∅
  | _ => thenR (read seconds) (λ now,
           thenR (pipeline ((λ id, thenR (read (GETInt (rpmKey id (goQuot now 60)))) (λ v, okR (id, default 0 v))) <$> accountIDs)) (λ l, okR (mapOf l)))
  end.
