(* ===== verification/UserMessageQueue.v ===== *)
(** * The serial queue of user messages

    [repository/user_msg_queue_cache.go], [service/user_msg_queue_service.go]: one
    user message at a time on an account, under a lock with an expiry; the next
    one waits for a delay that grows with the load of the account.  An index of
    the locks replaces a scan when locks without an expiry are removed.

    A pause is a result here ([EnforceDelay] answers for how long it waits);
    randomness is an argument. *)

From S2P Require Import Prelude GoRuntime Transactions RedisStore ConcurrencySlots SessionLimit.
#[local] Open Scope Z_scope.

Definition umqLockIndexCleanupBatchSize : Z := 1000.

(** ** The scripts *)

Definition acquireLockScript (key : redisKey) (requestID : string) (ttl : Z) (d : redis) : (Z * Z) * redis :=
  let ms := millis d in
  match GETString key d with
  | Some cur =>
      if String.eqb cur requestID then ((1, ms + ttl), grant key requestID (ms + ttl) (SETString key cur (Some (ms + ttl)) d))
      else let pttl := PTTL key d in ((0, if 0 <? pttl then ms + pttl else ms), d)
  | None => ((1, ms + ttl), grant key requestID (ms + ttl) (SETString key requestID (Some (ms + ttl)) d))
  end.

Definition releaseLockScript (key lastKey : redisKey) (requestID : string) (d : redis) : Z * redis :=
  if bool_decide (GETString key d = Some requestID)
  then (1, SETString lastKey (Itoa (millis d)) (Some (millis d + 60 * 1000)) (giveBack key requestID (DELString key d)))
  else (0, d).

Definition reconcileLockScript (key : redisKey) (d : redis) : (Z * Z) * redis :=
  let pttl := PTTL key d in
  if pttl =? -2 then ((-2, 0), d)
  else if pttl =? -1 then ((-1, 0), DELString key d)
  else ((1, pttl), d).

(** ** The cache *)

Definition AcquireLock (accountID : Z) (requestID : string) (lockTtlMs : Z) : R bool :=
  thenR (call (acquireLockScript (umqLockKey accountID) requestID lockTtlMs)) (λ r,
    let '(acquired, expireAtMs) := r in
    bindProg (λ _, okR (acquired =? 1))
      (if 0 <? expireAtMs then logged (write (ZADD umqLockIndexKey expireAtMs (Itoa accountID))) (Ret tt) else Ret tt)).

Definition removeLockIndexMember (m : string) : P unit := logged (write (ZREM umqLockIndexKey m)) (Ret tt).

Definition ReleaseLock (accountID : Z) (requestID : string) : R bool :=
  thenR (call (releaseLockScript (umqLockKey accountID) (umqLastKey accountID) requestID)) (λ result,
    bindProg (λ _, okR (result =? 1)) (if result =? 1 then removeLockIndexMember (Itoa accountID) else Ret tt)).

Definition GetLastCompletedMs (accountID : Z) : R Z :=
  thenR (read (GETString (umqLastKey accountID))) (λ r,
    match r with
    | None => okR 0
    | Some val => match Atoi val with Some ms => okR ms | None => errR (DBError "umq parse last completed") end
    end).

Definition GetCurrentTimeMs : R Z := read millis.

(** The loop over the candidates with the number of locks that were removed. *)
Fixpoint reconcileMembers (nowMs : Z) (ms : list string) (cleaned : Z) : R Z :=
  match ms with
  | [] => okR cleaned
  | m :: ms =>
      match memberID m with
      | None => bindProg (λ _, reconcileMembers nowMs ms cleaned) (removeLockIndexMember m)
      | Some accountID =>
          thenR (call (reconcileLockScript (umqLockKey accountID))) (λ r,
            let '(status, pttl) := r in
            if status =? -2 then bindProg (λ _, reconcileMembers nowMs ms cleaned) (removeLockIndexMember m)
            else if status =? -1 then bindProg (λ _, reconcileMembers nowMs ms (cleaned + 1)) (removeLockIndexMember m)
            else if status =? 1 then bindProg (λ _, reconcileMembers nowMs ms cleaned) (logged (write (ZADD umqLockIndexKey (nowMs + pttl) m)) (Ret tt))
            else reconcileMembers nowMs ms cleaned)
      end
  end.

Definition ReconcileExpiredLockCandidates (maxCount : Z) : R Z :=
  let maxCount := if maxCount <=? 0 then umqLockIndexCleanupBatchSize else maxCount in
  thenR GetCurrentTimeMs (λ nowMs,
  thenR (read (ZRANGEBYSCORE umqLockIndexKey nowMs maxCount)) (λ ms, reconcileMembers nowMs ms 0)).

(** ** The service *)

Record UserMessageQueueConfig := mkUMQ { LockTTLMs : Z; MinDelayMs : Z; MaxDelayMs : Z }.

Record QueueLockResult := mkLockResult { LockAcquired : bool; LockRequestID : string }.

Section service.
Context (cfg : UserMessageQueueConfig).

Definition lockTTL : Z := if LockTTLMs cfg <=? 0 then 120000 else LockTTLMs cfg.

(** With an error the message passes without a lock. *)
Definition TryAcquire (accountID : Z) (requestID : string) : P QueueLockResult :=
  bindProg (λ r, Ret (match r with Ok acquired => mkLockResult acquired requestID | Err _ => mkLockResult true "" end))
    (AcquireLock accountID requestID lockTTL).

Definition Release (accountID : Z) (requestID : string) : R unit :=
  if String.eqb requestID "" then okR tt else thenR (ReleaseLock accountID requestID) (λ _, okR tt).

(** [random] is a number from [0] up to [1]. *)
Definition applyJitter (d : Duration) (jitterPct random : float64) : Duration :=
  if (d <=? 0) || f64_le jitterPct f64_zero then d
  else
    let jitter := f64_mul (f64_sub (f64_mul random (f64_of_Z 2)) (f64_of_Z 1)) jitterPct in
    f64_trunc (f64_mul (f64_of_Z d) (f64_add (f64_of_Z 1) jitter)).

Definition tenths (n : Z) : float64 := f64_div (f64_of_Z n) (f64_of_Z 10).

(** The delay for a load, before the jitter. *)
Definition baseDelayFor (minDelay maxDelay : Duration) (currentRPM baseRPM : Z) : Duration :=
  let ratio := f64_div (f64_of_Z currentRPM) (f64_of_Z baseRPM) in
  if f64_lt ratio (tenths 5) then minDelay
  else if f64_ge ratio (tenths 8) then maxDelay
  else
    let t := f64_div (f64_sub ratio (tenths 5)) (tenths 3) in
    let interpolated := f64_add (f64_of_Z minDelay) (f64_mul t (f64_sub (f64_of_Z maxDelay) (f64_of_Z minDelay))) in
    f64_trunc (f64_round interpolated).

Definition CalculateRPMAwareDelay (accountID baseRPM : Z) (random : float64) : P Duration :=
  let minDelay := wrap64 (MinDelayMs cfg * Millisecond) in
  let maxDelay := wrap64 (MaxDelayMs cfg * Millisecond) in
  let minDelay := if minDelay <=? 0 then 200 * Millisecond else minDelay in
  let maxDelay := if maxDelay <=? 0 then 2000 * Millisecond else maxDelay in
  let '(minDelay, maxDelay) := if maxDelay <? minDelay then (maxDelay, minDelay) else (minDelay, maxDelay) in
  let jittered d := applyJitter d (f64_div (f64_of_Z 15) (f64_of_Z 100)) random in
  if baseRPM <=? 0 then Ret (jittered minDelay)
  else bindProg (λ r, Ret (jittered (match r with Ok currentRPM => baseDelayFor minDelay maxDelay currentRPM baseRPM | Err _ => minDelay end)))
         (GetRPM accountID).

(** For how long the caller waits. *)
Definition EnforceDelay (accountID baseRPM : Z) (random : float64) : P Duration :=
  bindProg (λ r, match r with
    | Err _ => Ret 0
    | Ok lastMs =>
        if lastMs =? 0 then Ret 0
        else bindProg (λ delay,
          if delay <=? 0 then Ret 0
          else bindProg (λ r, Ret (match r with
            | Err _ => 0
            | Ok nowMs =>
                let elapsed := wrap64 ((nowMs - lastMs) * Millisecond) in
                if elapsed <? 0 then 0
                else let remaining := wrap64 (delay - elapsed) in if remaining <=? 0 then 0 else remaining
            end)) GetCurrentTimeMs) (CalculateRPMAwareDelay accountID baseRPM random)
    end) (GetLastCompletedMs accountID).

(** One round of the cleanup worker. *)
Definition runCleanup : P unit := logged (ReconcileExpiredLockCandidates 1000) (Ret tt).
End service.
