(* ===== verification/AdmissionInvariant.v ===== *)
(** * What admission promises

    The promises of slots, sessions, leases and message locks as invariants of the
    Redis store, and that every script keeps them.  A promise that has not run
    out is backed by a member of its set (or by its lock); a set is within the
    limit of its account, user or key. *)

From S2P Require Import Prelude GoRuntime Transactions RedisStore ConcurrencySlots SessionLimit UserMessageQueue.
#[local] Open Scope Z_scope.

(** ** What has been promised *)

(** The members of a set, or the owners of a lock, whose promise has not run out. *)
Definition holders (d : redis) (k : redisKey) : gset string :=
  set_map snd (dom (filter (λ g, g.1.1 = k ∧ millis d < g.2) (granted d))).

Definition inFlight (d : redis) (k : redisKey) : Z := Z.of_nat (size (holders d k)).

Lemma elem_of_holders d k m : m ∈ holders d k ↔ ∃ u, granted d !! (k, m) = Some u ∧ millis d < u.
Proof.
  unfold holders. rewrite elem_of_map. split.
  - intros ([k' m'] & -> & Hin). apply elem_of_dom in Hin as [u Hu]. apply map_lookup_filter_Some in Hu as [Hu [Hk Hm]].
    cbn in *. subst k'. by exists u.
  - intros (u & Hu & Hm). exists (k, m). split; [done|]. apply elem_of_dom. exists u. by apply map_lookup_filter_Some.
Qed.

(** ** Configuration *)

(** The settings do not change while the system runs. *)
Record admissionConfig := mkConfig {
  cfgCache : concurrencyCache;
  cfgSessions : sessionLimitCache;
  cfgQueue : UserMessageQueueConfig;
  cfgLimit : redisKey → Z;          (* of the set under a key *)
  cfgMaxWait : redisKey → Z;
  cfgIdle : Z → Z;                  (* idle timeout of an account, in seconds *)
  cfgPrefix : string;               (* of the identifiers of the process *)
}.

Record goodConfig (g : admissionConfig) : Prop := mkGood {
  slotTTL_pos : 0 < slotTTLSeconds (cfgCache g);
  waitTTL_pos : 0 < waitQueueTTLSeconds (cfgCache g);
  idle_pos : ∀ a, 0 < cfgIdle g a;
  maxWait_nonneg : ∀ k, 0 <= cfgMaxWait g k;
}.

(** The set of live leases that shares the limit of a set of slots. *)
Definition liveKeyOf (k : redisKey) : option redisKey :=
  match k with
  | accountSlotKey a => Some (liveAccountSlotKey a)
  | userSlotKey u => Some (liveUserSlotKey u)
  | _ => None
  end.

(** The sets with a limit. *)
Definition limited (k : redisKey) : bool :=
  match k with accountSlotKey _ | userSlotKey _ | openAIWSIngressLeaseKey _ | sessionLimitKey _ => true | _ => false end.

Definition isWait (k : redisKey) : bool := match k with waitQueueKey _ | accountWaitKey _ => true | _ => false end.
Definition isLock (k : redisKey) : bool := match k with umqLockKey _ => true | _ => false end.

Section invariant.
Context (g : admissionConfig).

(** For how many seconds a member counts after its last sign of life. *)
Definition lifetime (k : redisKey) : Z :=
  match k with
  | accountSlotKey _ | userSlotKey _ | apiKeySlotKey _ => slotTTLSeconds (cfgCache g)
  | liveAccountSlotKey _ | liveUserSlotKey _ | liveAPIKeySlotKey _ => liveLeaseTTLSeconds
  | openAIWSIngressLeaseKey _ => openAIWSIngressLeaseTTLSeconds
  | sessionLimitKey a => cfgIdle g a
  | _ => 0
  end.

(** A promise is kept by a member that is young enough, under a key that lives long enough. *)
Definition backed (d : redis) (k : redisKey) (m : string) (until : Z) : Prop :=
  (∃ score, members d k !! m = Some score ∧ until <= (score + lifetime k) * 1000) ∧
  (∀ e, expiryOf d k = Some e → until <= e) ∧ until <= millis d + lifetime k * 1000.

Definition promisesKept (d : redis) : Prop :=
  ∀ k m until, 0 < lifetime k → granted d !! (k, m) = Some until → millis d < until → backed d k m until.

Definition scoresPast (d : redis) : Prop := ∀ k m score, 0 < lifetime k → members d k !! m = Some score → score <= seconds d.

Definition withinLimits (d : redis) : Prop :=
  ∀ k, limited k = true →
    ZCARD k d <= Z.max 0 (cfgLimit g k) ∧
    ∀ live, liveKeyOf k = Some live → 0 < cfgLimit g k → ZCARD k d + ZCARD live d <= cfgLimit g k + 1.

Definition waitsWithin (d : redis) : Prop := ∀ k, isWait k = true → 0 <= default 0 (GETInt k d) <= cfgMaxWait g k.

Definition locksHeld (d : redis) : Prop :=
  ∀ k owner until, isLock k = true → granted d !! (k, owner) = Some until → millis d < until →
    ∃ e, strings d !! k = Some (owner, Some e) ∧ until <= e.

Definition ownPrefix (d : redis) : Prop :=
  ∀ k m until, is_Some (liveKeyOf k) → granted d !! (k, m) = Some until → HasPrefix m (cfgPrefix g) = true.

Record admissionInv (d : redis) : Prop := mkInv {
  inv_promises : promisesKept d;
  inv_scores : scoresPast d;
  inv_limits : withinLimits d;
  inv_waits : waitsWithin d;
  inv_locks : locksHeld d;
  inv_prefix : ownPrefix d;
}.

(** ** The commands *)

(** The part of the invariant that is about the sets. *)
Record setsInv (d : redis) : Prop := mkSets { sets_promises : promisesKept d; sets_scores : scoresPast d }.

Lemma expiryOf_store k ms e d k' :
  alive d e = true → expiryOf (store k ms e d) k' = if decide (k' = k) then (if decide (ms = ∅) then None else e) else expiryOf d k'.
Proof.
  intros He. unfold expiryOf, setOf, store. cbn [zsets setZSets etaRedis]. destruct (decide (ms = ∅)) as [->|Hne].
  - destruct (decide (k' = k)) as [->|Hk]; [by rewrite lookup_delete_eq | by rewrite lookup_delete_ne].
  - destruct (decide (k' = k)) as [->|Hk]; [rewrite lookup_insert_eq | by rewrite lookup_insert_ne].
    cbn. change (alive (setZSets _ d) e) with (alive d e). by rewrite He.
Qed.

(** New members and expiry of one set: the promises on it have to be looked at. *)
Lemma setsInv_store k ms e d :
  setsInv d → alive d e = true →
  (∀ m score, 0 < lifetime k → ms !! m = Some score → members d k !! m = Some score ∨ score = seconds d) →
  (∀ m until, 0 < lifetime k → granted d !! (k, m) = Some until → millis d < until → backed d k m until →
     (∃ score, ms !! m = Some score ∧ until <= (score + lifetime k) * 1000) ∧ ∀ e', e = Some e' → until <= e') →
  setsInv (store k ms e d).
Proof.
  intros [Hp Hs] He Hms Hb. split.
  - intros k' m until Hl Hg Hm. change (granted (store k ms e d)) with (granted d) in Hg. change (millis (store k ms e d)) with (millis d) in Hm.
    pose proof (Hp k' m until Hl Hg Hm) as Hbk. unfold backed. rewrite members_store, expiryOf_store by done.
    destruct (decide (k' = k)) as [->|Hk]; [|exact Hbk]. destruct (Hb m until Hl Hg Hm Hbk) as [H1 H2].
    split; [exact H1|]. split; [|apply Hbk]. destruct (decide (ms = ∅)); [done | exact H2].
  - intros k' m score Hl. rewrite members_store by done. change (seconds (store k ms e d)) with (seconds d).
    destruct (decide (k' = k)) as [->|Hk]; [|by apply Hs]. intros E. destruct (Hms m score Hl E) as [H| ->]; [by apply (Hs k m) | done].
Qed.

Lemma setsInv_purge k bound d : setsInv d → bound <= seconds d - lifetime k → setsInv (ZREMRANGEBYSCORE k bound d).
Proof.
  intros Hd Hb. apply setsInv_store; [done | apply expiryOf_alive | |].
  - intros m score _ [E _]%map_lookup_filter_Some. by left.
  - intros m until _ Hg Hm [(score & E & Hu) [He _]]. split; [|done]. exists score. split; [|done]. apply map_lookup_filter_Some.
    split; [done|]. cbn. unfold seconds in Hb. pose proof (Z.mul_div_le (millis d) 1000). lia.
Qed.

Lemma setsInv_giveBack k m d : setsInv d → setsInv (giveBack k m d).
Proof.
  intros [Hp Hs]. split; [|exact Hs]. intros k' m' until Hl Hg Hm. apply (Hp k' m' until Hl); [|done].
  cbn in Hg. by apply lookup_delete_Some in Hg as [_ Hg].
Qed.

Lemma setsInv_grant k m until d : setsInv d → (0 < lifetime k → backed d k m until) → setsInv (grant k m until d).
Proof.
  intros [Hp Hs] Hb. split; [|exact Hs]. intros k' m' u Hl Hg Hm. cbn in Hg.
  apply lookup_insert_Some in Hg as [[E ->]|[_ Hg]]; [injection E as -> ->; by apply Hb | by apply (Hp k' m' u)].
Qed.

Lemma setsInv_ZREM k m d :
  setsInv d → (∀ until, 0 < lifetime k → granted d !! (k, m) = Some until → until <= millis d) → setsInv (ZREM k m d).
Proof.
  intros Hd Hno. apply setsInv_store; [done | apply expiryOf_alive | |].
  - intros m' score _ [_ E]%lookup_delete_Some. by left.
  - intros m' until Hl Hg Hm [(score & E & Hu) [He _]]. split; [|done]. exists score. split; [|done].
    rewrite lookup_delete_ne; [done|]. intros <-. pose proof (Hno until Hl Hg). lia.
Qed.

Lemma setsInv_ZADD_ungranted k m d :
  setsInv d → granted d !! (k, m) = None → setsInv (ZADD k (seconds d) m d).
Proof.
  intros Hd Hno. apply setsInv_store; [done | apply expiryOf_alive | |].
  - intros m' score _ [[_ <-]|[_ E]]%lookup_insert_Some; [by right | by left].
  - intros m' until _ Hg Hm [(score & E & Hu) [He _]]. split; [|done]. exists score. split; [|done].
    rewrite lookup_insert_ne; [done|]. intros <-. by rewrite Hno in Hg.
Qed.

Lemma setsInv_EXPIRE k ttl d : setsInv d → lifetime k <= ttl → 0 < ttl → setsInv (EXPIRE k ttl d).
Proof.
  intros Hd Hl Ht. unfold EXPIRE. destruct (setOf d k) as [z|] eqn:Ez; [|done]. destruct (Z.leb_spec ttl 0); [lia|].
  assert (Em : members d k = zmembers z) by (unfold members; by rewrite Ez). apply setsInv_store; [done | apply Z.leb_le; lia | |].
  - intros m score _ E. rewrite Em. by left.
  - intros m until _ Hg Hm [(score & E & Hu) [_ Hlt]]. rewrite Em in E. split; [by exists score|]. intros e' [= <-]. lia.
Qed.

Lemma setsInv_DEL k d : setsInv d → (0 < lifetime k → members d k = ∅) → setsInv (DEL k d).
Proof.
  intros [Hp Hs] Hno. split.
  - intros k' m until Hl Hg Hm. pose proof (Hp k' m until Hl Hg Hm) as Hb. destruct (decide (k' = k)) as [->|Hk].
    { destruct Hb as [(score & E & _) _]. by rewrite Hno in E. }
    unfold backed. rewrite members_DEL. destruct (decide (k' = k)); [done|]. destruct Hb as (H1 & H2 & H3). split; [done|]. split; [|done].
    unfold expiryOf, setOf, DEL. cbn [zsets setZSets etaRedis]. by rewrite lookup_delete_ne.
  - intros k' m score Hl. rewrite members_DEL. change (seconds (DEL k d)) with (seconds d). destruct (decide (k' = k)); [done | by apply Hs].
Qed.

(** ** Steps on the sets *)

(** Nothing but the sets changes, and only a promise of a set may be new, of the
    own process where the set is one of slots. *)
Record setStep (d d' : redis) : Prop := mkSetStep {
  step_millis : millis d' = millis d;
  step_counters : counters d' = counters d;
  step_strings : strings d' = strings d;
  step_granted k m until : granted d' !! (k, m) = Some until →
    granted d !! (k, m) = Some until ∨ 0 < lifetime k ∧ (is_Some (liveKeyOf k) → HasPrefix m (cfgPrefix g) = true);
}.

Definition evolves (d d' : redis) : Prop := setStep d d' ∧ (setsInv d → setsInv d').

Lemma evolves_refl d : evolves d d.
Proof. split; [|done]. split; auto. Qed.

Lemma evolves_trans d1 d2 d3 : evolves d1 d2 → evolves d2 d3 → evolves d1 d3.
Proof.
  intros [[H1 H2 H3 H4] Hi] [[H1' H2' H3' H4'] Hi']. split; [|auto]. split; [congruence..|].
  intros k m until [E|E]%H4'; [by apply H4 | by right].
Qed.

Lemma evolves_seconds d d' : evolves d d' → seconds d' = seconds d.
Proof. intros [[E _ _ _] _]. unfold seconds. by rewrite E. Qed.

Lemma setStep_same d d' : millis d' = millis d → counters d' = counters d → strings d' = strings d → granted d' = granted d → setStep d d'.
Proof. intros H1 H2 H3 H4. split; [done..|]. rewrite H4. by left. Qed.

Lemma evolves_purge k bound d : bound <= seconds d - lifetime k → evolves d (ZREMRANGEBYSCORE k bound d).
Proof. intros Hb. split; [by apply setStep_same|]. intros Hd. by apply setsInv_purge. Qed.

Lemma giveBack_ZREM k m d : leave k m d = ZREM k m (giveBack k m d).
Proof. reflexivity. Qed.

Lemma evolves_leave k m d : evolves d (leave k m d).
Proof.
  split.
  - split; [done..|]. intros k' m' until E. cbn in E. apply lookup_delete_Some in E as [_ E]. by left.
  - intros Hd. rewrite giveBack_ZREM. apply setsInv_ZREM; [by apply setsInv_giveBack|]. intros u _ E. cbn in E. by rewrite lookup_delete_eq in E.
Qed.

(** A member without a promise goes. *)
Lemma evolves_ZREM k m d :
  (∀ until, 0 < lifetime k → granted d !! (k, m) = Some until → until <= millis d) → evolves d (ZREM k m d).
Proof. intros H. split; [by apply setStep_same|]. intros Hd. by apply setsInv_ZREM. Qed.

Lemma EXPIRE_same k ttl d : millis (EXPIRE k ttl d) = millis d ∧ counters (EXPIRE k ttl d) = counters d ∧
  strings (EXPIRE k ttl d) = strings d ∧ granted (EXPIRE k ttl d) = granted d.
Proof. unfold EXPIRE. by destruct (setOf d k). Qed.

Lemma evolves_EXPIRE k ttl d : lifetime k <= ttl → 0 < ttl → evolves d (EXPIRE k ttl d).
Proof. intros Hl Ht. split; [by apply setStep_same; apply EXPIRE_same|]. intros Hd. by apply setsInv_EXPIRE. Qed.

Lemma evolves_expireOrDelete k ttl d : lifetime k <= ttl → 0 < ttl → evolves d (expireOrDelete k ttl d).
Proof.
  intros Hl Ht. unfold expireOrDelete. destruct (Z.eqb_spec (ZCARD k d) 0) as [E|_]; [|by apply evolves_EXPIRE].
  split; [by apply setStep_same|]. intros Hd. apply setsInv_DEL; [done|]. intros _. apply map_size_empty_inv. unfold ZCARD, zsize in E. lia.
Qed.

(** Sets that carry no promise may change in any way. *)
Lemma evolves_store_other k ms e d : lifetime k <= 0 → alive d e = true → evolves d (store k ms e d).
Proof. intros Hl He. split; [by apply setStep_same|]. intros Hd. apply setsInv_store; [done | done | intros; lia..]. Qed.

Lemma members_admit k m life expire d k' :
  0 < expire → members (enter k m life expire d) k' = if decide (k' = k) then <[m := seconds d]> (members d k) else members d k'.
Proof.
  intros He. change (members (enter k m life expire d) k') with (members (EXPIRE k expire (ZADD k (seconds d) m d)) k').
  by rewrite members_EXPIRE, members_ZADD.
Qed.

Lemma expiryOf_EXPIRE k ttl d : 0 < ttl → members d k ≠ ∅ → expiryOf (EXPIRE k ttl d) k = Some (millis d + 1000 * ttl).
Proof.
  unfold EXPIRE, members. intros Ht Hne. destruct (setOf d k) as [z|]; [|done]. destruct (Z.leb_spec ttl 0); [lia|].
  rewrite expiryOf_store by (apply Z.leb_le; lia). rewrite decide_True by done. by rewrite decide_False.
Qed.

Lemma evolves_admit k m life expire d :
  lifetime k = life → 0 < life → life <= expire → (is_Some (liveKeyOf k) → HasPrefix m (cfgPrefix g) = true) →
  evolves d (enter k m life expire d).
Proof.
  intros <- Hl He Hp. set (d1 := EXPIRE k expire (ZADD k (seconds d) m (giveBack k m d))).
  assert (Hm : members d1 k = <[m := seconds d]> (members d k)).
  { unfold d1. rewrite members_EXPIRE, members_ZADD, decide_True by (done || lia). done. }
  assert (Ed : enter k m (lifetime k) expire d = grant k m ((seconds d + lifetime k) * 1000) d1).
  { assert (Ez : EXPIRE k expire (ZADD k (seconds d) m (giveBack k m d)) = giveBack k m (EXPIRE k expire (ZADD k (seconds d) m d))).
    { unfold EXPIRE. change (setOf (ZADD k (seconds d) m (giveBack k m d)) k) with (setOf (ZADD k (seconds d) m d) k).
      by destruct (setOf (ZADD k (seconds d) m d) k). }
    unfold enter, d1. rewrite Ez. unfold grant, giveBack, setGranted, etaRedis. cbn. f_equal. by rewrite insert_delete_eq. }
  assert (E1 : millis d1 = millis d) by (unfold d1; rewrite (proj1 (EXPIRE_same _ _ _)); done).
  rewrite Ed. split.
  - destruct (EXPIRE_same k expire (ZADD k (seconds d) m (giveBack k m d))) as (H1 & H2 & H3 & H4). split; [done..|].
    intros k' m' until E. cbn in E. apply lookup_insert_Some in E as [[E _]|[_ E]]; [injection E as <- <-; by right|].
    unfold d1 in E. rewrite H4 in E. cbn in E. apply lookup_delete_Some in E as [_ E]. by left.
  - intros Hd. pose proof (Z.mul_div_le (millis d) 1000). apply setsInv_grant.
    + unfold d1. apply setsInv_EXPIRE; [|lia..]. apply (setsInv_ZADD_ungranted k m (giveBack k m d)); [by apply setsInv_giveBack|].
      cbn. by rewrite lookup_delete_eq.
    + intros _. split; [|split].
      * exists (seconds d). rewrite Hm, lookup_insert_eq. split; [done|lia].
      * unfold d1. rewrite expiryOf_EXPIRE; [|lia|].
        -- intros e [= <-]. cbn. unfold seconds. lia.
        -- rewrite members_ZADD, decide_True by done. apply insert_non_empty.
      * rewrite E1. unfold seconds. lia.
Qed.

(** ** From the sets to the invariant *)

Lemma admissionInv_evolves d d' : admissionInv d → evolves d d' → withinLimits d' → admissionInv d'.
Proof.
  intros [H1 H2 H3 H4 H5 H6] [[E1 E2 E3 E4] Hs] Hw. destruct Hs as [Hp Hsc]; [done|].
  split; [done..| | |].
  - intros k Hk. unfold GETInt, alive. rewrite E1, E2. by apply H4.
  - intros k owner until Hk Hg Hm. rewrite E3. rewrite E1 in Hm. destruct (E4 k owner until Hg) as [Hg'|[Hl _]]; [by apply (H5 k)|].
    by destruct k.
  - intros k m until Hk Hg. destruct (E4 k m until Hg) as [Hg'|[_ Hp']]; [by apply (H6 k m until) | by apply Hp'].
Qed.

(** Sets that become smaller stay within their limits. *)
Definition fewer (d d' : redis) : Prop := ∀ k, ZCARD k d' <= ZCARD k d.

Lemma withinLimits_fewer d d' : withinLimits d → (∀ k, 0 < lifetime k → ZCARD k d' <= ZCARD k d) →
  (∀ k, limited k = true → 0 < lifetime k) → withinLimits d'.
Proof.
  intros Hw Hf Hl k Hk. destruct (Hw k Hk) as [H1 H2]. pose proof (Hf k (Hl k Hk)). split; [lia|].
  intros live Hv Hc. pose proof (H2 live Hv Hc). assert (0 < lifetime live) by (by destruct k; simplify_eq/=). pose proof (Hf live ltac:(done)). lia.
Qed.

(** ** Sizes *)

Lemma ZCARD_nonneg k d : 0 <= ZCARD k d.
Proof. apply zsize_nonneg. Qed.

Lemma ZCARD_purge k bound d k' : ZCARD k' (ZREMRANGEBYSCORE k bound d) <= ZCARD k' d.
Proof.
  unfold ZCARD. rewrite members_ZREMRANGE. destruct (decide (k' = k)) as [->|]; [|done].
  unfold zsize. apply inj_le, map_subseteq_size, map_filter_subseteq.
Qed.

Lemma ZCARD_ZREM k m d k' : ZCARD k' (ZREM k m d) <= ZCARD k' d.
Proof. unfold ZCARD. rewrite members_ZREM. destruct (decide (k' = k)) as [->|]; [apply zsize_delete_le | done]. Qed.

Lemma ZCARD_leave k m d k' : ZCARD k' (leave k m d) <= ZCARD k' d.
Proof. apply ZCARD_ZREM. Qed.

Lemma ZCARD_expireOrDelete k ttl d k' : 0 < ttl → ZCARD k' (expireOrDelete k ttl d) <= ZCARD k' d.
Proof.
  intros Ht. unfold expireOrDelete. destruct (ZCARD k d =? 0).
  - unfold ZCARD. rewrite members_DEL. destruct (decide (k' = k)) as [->|]; [|done]. rewrite zsize_empty. apply zsize_nonneg.
  - unfold ZCARD. by rewrite members_EXPIRE.
Qed.

Lemma ZCARD_admit_other k m life expire d k' : 0 < expire → k' ≠ k → ZCARD k' (enter k m life expire d) = ZCARD k' d.
Proof. intros He Hk. unfold ZCARD. by rewrite members_admit, decide_False. Qed.

Lemma ZCARD_admit k m life expire d : 0 < expire →
  ZCARD k (enter k m life expire d) = if decide (is_Some (ZSCORE k m d)) then ZCARD k d else ZCARD k d + 1.
Proof.
  intros He. unfold ZCARD, ZSCORE. rewrite members_admit, decide_True by done. destruct (decide _) as [Hs|Hs].
  - by apply zsize_insert_Some.
  - apply zsize_insert_None. by apply eq_None_not_Some.
Qed.

(** There is room for one more member. *)
Definition room (k : redisKey) (d : redis) : Prop :=
  (limited k = true → ZCARD k d < cfgLimit g k) ∧
  (∀ live, liveKeyOf k = Some live → ZCARD k d + ZCARD live d <= cfgLimit g k) ∧
  (∀ base, liveKeyOf base = Some k → 0 < cfgLimit g base → ZCARD base d + ZCARD k d <= cfgLimit g base).

Lemma liveKeyOf_limited k live : liveKeyOf k = Some live → limited k = true ∧ limited live = false ∧ liveKeyOf live = None.
Proof. by destruct k; intros [= <-]. Qed.

Lemma withinLimits_admit k m life expire d :
  withinLimits d → 0 < expire → is_Some (ZSCORE k m d) ∨ room k d → withinLimits (enter k m life expire d).
Proof.
  intros Hw He Hr k' Hk'. destruct (Hw k' Hk') as [H1 H2]. pose proof (ZCARD_admit k m life expire d He) as Ha.
  destruct (decide (k' = k)) as [->|Hne].
  - split.
    + destruct (decide _) in Ha; [lia|]. destruct Hr as [?|(Hr & _)]; [done|]. specialize (Hr Hk'). lia.
    + intros live Hv Hl. pose proof (H2 live Hv Hl). rewrite (ZCARD_admit_other k m life expire d live) by (done || by intros ->; destruct k).
      destruct (decide _) in Ha; [lia|]. destruct Hr as [?|(_ & Hr & _)]; [done|]. specialize (Hr live Hv). lia.
  - rewrite (ZCARD_admit_other k m life expire d k') by done. split; [done|]. intros live Hv Hl. pose proof (H2 live Hv Hl).
    destruct (decide (live = k)) as [->|Hlk]; [|by rewrite (ZCARD_admit_other k m life expire d live)].
    destruct (decide _) in Ha; [lia|]. destruct Hr as [?|(_ & _ & Hr)]; [done|]. specialize (Hr k' Hv Hl). lia.
Qed.

(** ** The scripts *)

Context (good : goodConfig g).

Lemma lifetime_limited k : limited k = true → 0 < lifetime k.
Proof. destruct good. destruct k; intros E; try discriminate E; unfold lifetime; try done; apply idle_pos0. Qed.

Lemma admissionInv_fewer d d' : admissionInv d → evolves d d' → fewer d d' → admissionInv d'.
Proof.
  intros Hd He Hf. apply (admissionInv_evolves d); [done..|]. apply (withinLimits_fewer d); [apply Hd | by intros; apply Hf | apply lifetime_limited].
Qed.

(** Both purges of the scripts on slots. *)
Definition purged (key live : redisKey) (d : redis) : redis :=
  ZREMRANGEBYSCORE live (seconds d - 60) (ZREMRANGEBYSCORE key (seconds d - slotTTLSeconds (cfgCache g)) d).

Lemma fewer_trans d1 d2 d3 : fewer d1 d2 → fewer d2 d3 → fewer d1 d3.
Proof. intros H1 H2 k. specialize (H1 k). specialize (H2 k). lia. Qed.

Lemma purged_evolves key live d :
  lifetime key = slotTTLSeconds (cfgCache g) → lifetime live = 60 → evolves d (purged key live d) ∧ fewer d (purged key live d).
Proof.
  intros E1 E2. split.
  - eapply evolves_trans; apply evolves_purge; [rewrite E1; done | rewrite E2; done].
  - eapply fewer_trans; intros k; apply ZCARD_purge.
Qed.

Lemma slotKey_lifetimes key live : liveKeyOf key = Some live → lifetime key = slotTTLSeconds (cfgCache g) ∧ lifetime live = 60.
Proof. by destruct key; intros [= <-]. Qed.

(** Admission of one member after a purge, as the scripts do it. *)
Lemma admissionInv_admit k m life expire d :
  admissionInv d → lifetime k = life → 0 < life → life <= expire → (is_Some (liveKeyOf k) → HasPrefix m (cfgPrefix g) = true) →
  is_Some (ZSCORE k m d) ∨ room k d → admissionInv (enter k m life expire d).
Proof.
  intros Hd Hl H0 He Hp Hr. apply (admissionInv_evolves d); [done | by apply evolves_admit|].
  apply withinLimits_admit; [apply Hd | lia | done].
Qed.

Lemma acquireScript_keeps key live requestID d :
  admissionInv d → liveKeyOf key = Some live → HasPrefix requestID (cfgPrefix g) = true →
  admissionInv (snd (acquireScript key live (cfgLimit g key) (slotTTLSeconds (cfgCache g)) requestID d)).
Proof.
  intros Hd Hv Hp. destruct (slotKey_lifetimes key live Hv) as [E1 E2]. destruct (purged_evolves key live d E1 E2) as [He Hf].
  pose proof (admissionInv_fewer d _ Hd He Hf) as H1. pose proof (slotTTL_pos g good).
  unfold acquireScript. fold (purged key live d). case_bool_decide as Hs; [apply admissionInv_admit; auto; lia|].
  destruct (Z.ltb_spec (ZCARD key (purged key live d) + ZCARD live (purged key live d)) (cfgLimit g key)); [|done].
  apply admissionInv_admit; [done..|lia|lia|auto|]. right. pose proof (ZCARD_nonneg live (purged key live d)).
  destruct (liveKeyOf_limited key live Hv) as (Hk & _ & _). split; [lia|]. split.
  - intros live' [= <-]%(eq_trans (eq_sym Hv)). lia.
  - intros base Hb _. by destruct base; simplify_eq/=.
Qed.

Lemma getCountScript_keeps key live d :
  admissionInv d → lifetime key = slotTTLSeconds (cfgCache g) → lifetime live = 60 →
  admissionInv (snd (getCountScript key live (slotTTLSeconds (cfgCache g)) d)).
Proof. intros Hd E1 E2. destruct (purged_evolves key live d E1 E2). by apply (admissionInv_fewer d). Qed.

(** A set of one key with its own limit: sessions and connections. *)
Lemma admissionInv_single k bound d :
  admissionInv d → bound <= seconds d - lifetime k → admissionInv (ZREMRANGEBYSCORE k bound d).
Proof. intros Hd Hb. apply (admissionInv_fewer d); [done | by apply evolves_purge | intros k'; apply ZCARD_purge]. Qed.

Lemma room_single k d : liveKeyOf k = None → (∀ base, liveKeyOf base ≠ Some k) → ZCARD k d < cfgLimit g k → room k d.
Proof. intros H1 H2 H3. split; [done|]. split; [by rewrite H1 | by intros base E; destruct (H2 base)]. Qed.

Lemma room_unlimited k d : limited k = false → (∀ base, liveKeyOf base ≠ Some k) → room k d.
Proof.
  intros H1 H2. split; [by rewrite H1|]. split; [intros live E; destruct (liveKeyOf_limited k live E) as [E' _]; congruence|].
  intros base E. by destruct (H2 base).
Qed.

(** The common shape of a registration: purge, renew, or enter while there is room. *)
Lemma register_keeps k m life expire d :
  admissionInv d → lifetime k = life → 0 < life → life <= expire → liveKeyOf k = None → (∀ base, liveKeyOf base ≠ Some k) →
  let d1 := ZREMRANGEBYSCORE k (seconds d - life) d in
  admissionInv d1 ∧ (is_Some (ZSCORE k m d1) ∨ (limited k = true → ZCARD k d1 < cfgLimit g k) → admissionInv (enter k m life expire d1)).
Proof.
  intros Hd Hl H0 He Hk Hb d1. assert (H1 : admissionInv d1) by (apply admissionInv_single; [done | lia]). split; [done|].
  intros Hr. apply admissionInv_admit; [done..|by rewrite Hk; intros [? [=]]|]. destruct Hr as [Hs|Hr]; [by left|]. right.
  destruct (limited k) eqn:El; [by apply room_single; auto | by apply room_unlimited].
Qed.

Lemma trackSlotScript_keeps apiKeyID requestID d :
  admissionInv d → admissionInv (snd (trackSlotScript (apiKeySlotKey apiKeyID) (slotTTLSeconds (cfgCache g)) requestID d)).
Proof.
  intros Hd. pose proof (slotTTL_pos g good).
  apply (register_keeps (apiKeySlotKey apiKeyID) requestID _ (slotTTLSeconds (cfgCache g)) d Hd eq_refl); try lia; try done; [by intros [] | by right].
Qed.

Lemma acquireIngress_keeps apiKeyID leaseID d :
  let key := openAIWSIngressLeaseKey apiKeyID in
  admissionInv d → admissionInv (snd (acquireOpenAIWSIngressLeaseScript key (cfgLimit g key) openAIWSIngressLeaseTTLSeconds leaseID d)).
Proof.
  intros key Hd. unfold acquireOpenAIWSIngressLeaseScript.
  destruct (register_keeps key leaseID openAIWSIngressLeaseTTLSeconds openAIWSIngressLeaseTTLSeconds d Hd) as [H1 H2]; [done..|by intros []|].
  case_bool_decide; [by apply H2; left|]. destruct (Z.ltb_spec (ZCARD key (ZREMRANGEBYSCORE key (seconds d - openAIWSIngressLeaseTTLSeconds) d)) (cfgLimit g key)); [|done].
  apply H2. by right.
Qed.

Lemma refreshIngress_keeps apiKeyID leaseID d :
  let key := openAIWSIngressLeaseKey apiKeyID in
  admissionInv d → admissionInv (snd (refreshOpenAIWSIngressLeaseScript key openAIWSIngressLeaseTTLSeconds leaseID d)).
Proof.
  intros key Hd. unfold refreshOpenAIWSIngressLeaseScript.
  destruct (register_keeps key leaseID openAIWSIngressLeaseTTLSeconds openAIWSIngressLeaseTTLSeconds d Hd) as [H1 H2]; [done..|by intros []|].
  case_bool_decide as Hs; [done|]. apply H2. left. by destruct (ZSCORE _ _ _).
Qed.

Lemma registerSession_keeps a sessionUUID d :
  let key := sessionLimitKey a in
  admissionInv d → admissionInv (snd (registerSessionScript key (cfgLimit g key) (cfgIdle g a) sessionUUID d)).
Proof.
  intros key Hd. unfold registerSessionScript. pose proof (idle_pos g good a).
  destruct (register_keeps key sessionUUID (cfgIdle g a) (cfgIdle g a + 60) d Hd) as [H1 H2]; [done..|lia|done|by intros []|].
  case_bool_decide; [by apply H2; left|]. destruct (Z.ltb_spec (ZCARD key (ZREMRANGEBYSCORE key (seconds d - cfgIdle g a) d)) (cfgLimit g key)); [|done].
  apply H2. by right.
Qed.

Lemma refreshSession_keeps a sessionUUID d :
  admissionInv d → admissionInv (snd (refreshSessionScript (sessionLimitKey a) (cfgIdle g a) sessionUUID d)).
Proof.
  intros Hd. unfold refreshSessionScript. cbn [snd]. case_bool_decide; [|done]. pose proof (idle_pos g good a).
  apply admissionInv_admit; [done | done | lia | lia | by intros [? [=]] | by left].
Qed.

Lemma cleanupExpired_keeps key live d :
  admissionInv d → liveKeyOf key = Some live → admissionInv (snd (cleanupExpiredSlotsScript key (slotTTLSeconds (cfgCache g)) d)).
Proof.
  intros Hd Hv. destruct (slotKey_lifetimes key live Hv) as [E1 _]. pose proof (slotTTL_pos g good). cbn [snd cleanupExpiredSlotsScript].
  apply (admissionInv_fewer (ZREMRANGEBYSCORE key (seconds d - slotTTLSeconds (cfgCache g)) d)).
  - apply admissionInv_single; [done | lia].
  - apply evolves_expireOrDelete; lia.
  - intros k. apply ZCARD_expireOrDelete. lia.
Qed.

Lemma leave_keeps k m d : admissionInv d → admissionInv (leave k m d).
Proof. intros Hd. apply (admissionInv_fewer d); [done | apply evolves_leave | intros k'; apply ZCARD_leave]. Qed.

(** *** Live leases *)

Definition liveKeyKind (k : redisKey) : bool :=
  match k with liveAccountSlotKey _ | liveUserSlotKey _ | liveAPIKeySlotKey _ => true | _ => false end.

Lemma liveKey_facts k : liveKeyKind k = true → lifetime k = 60 ∧ liveKeyOf k = None ∧ limited k = false.
Proof. by destruct k. Qed.

(** Entering one of the live sets: the regular set and this one are below the limit together. *)
Lemma live_admit_keeps k m d :
  admissionInv d → liveKeyKind k = true →
  (∀ base, liveKeyOf base = Some k → 0 < cfgLimit g base → ZCARD base d + ZCARD k d <= cfgLimit g base) →
  admissionInv (enter k m liveLeaseTTLSeconds liveLeaseTTLSeconds d).
Proof.
  intros Hd Hk Hr. destruct (liveKey_facts k Hk) as (E1 & E2 & E3). apply admissionInv_admit; [done..| |].
  - rewrite E2. by intros [? [=]].
  - right. split; [by rewrite E3|]. split; [by rewrite E2 | done].
Qed.

Lemma acquireLiveLease_keeps a u k leaseID replacing d :
  admissionInv d →
  admissionInv (snd (acquireLiveLeaseScript (accountSlotKey a) (liveAccountSlotKey a) (userSlotKey u) (liveUserSlotKey u) (liveAPIKeySlotKey k)
                       (cfgLimit g (accountSlotKey a)) (cfgLimit g (userSlotKey u)) liveLeaseTTLSeconds leaseID replacing d)).
Proof.
  intros Hd. unfold acquireLiveLeaseScript.
  set (d1 := ZREMRANGEBYSCORE (liveAPIKeySlotKey k) _ _).
  assert (H1 : admissionInv d1) by (unfold d1; do 3 (apply admissionInv_single; [|done]); done). clearbody d1. clear Hd d.
  case_bool_decide; [done|]. set (allowance := if replacing then 1 else 0). assert (Ha : allowance <= 1) by (by destruct replacing).
  set (A := ZCARD (accountSlotKey a) d1 + ZCARD (liveAccountSlotKey a) d1). set (U := ZCARD (userSlotKey u) d1 + ZCARD (liveUserSlotKey u) d1).
  destruct ((0 <? _) && _) eqn:E1; [done|]. destruct ((0 <? cfgLimit g (userSlotKey u)) && _) eqn:E2; [done|]. cbn [snd].
  assert (HA : 0 < cfgLimit g (accountSlotKey a) → A <= cfgLimit g (accountSlotKey a)).
  { intros Hp. apply Z.ltb_lt in Hp. rewrite Hp in E1. cbn in E1. apply Z.leb_gt in E1. lia. }
  assert (HU : 0 < cfgLimit g (userSlotKey u) → U <= cfgLimit g (userSlotKey u)).
  { intros Hp. apply Z.ltb_lt in Hp. rewrite Hp in E2. cbn in E2. apply Z.leb_gt in E2. lia. }
  assert (H2 : admissionInv (enter (liveAccountSlotKey a) leaseID liveLeaseTTLSeconds liveLeaseTTLSeconds d1)).
  { apply live_admit_keeps; [done..|]. intros base Hb Hp. destruct base; simplify_eq/=; by apply HA. }
  apply live_admit_keeps; [|done|].
  - apply live_admit_keeps; [done..|]. intros base Hb Hp. destruct base; simplify_eq/=.
    rewrite !ZCARD_admit_other by done. by apply HU.
  - intros base Hb. by destruct base.
Qed.

Lemma leaseKept_keeps keys leaseID d b d' :
  admissionInv d → Forall (λ k, liveKeyKind k = true) keys → leaseKept keys (seconds d - liveLeaseTTLSeconds) leaseID d = (b, d') →
  admissionInv d' ∧ seconds d' = seconds d ∧
  (NoDup keys → b = true → Forall (λ k, is_Some (ZSCORE k leaseID d')) keys) ∧
  ∀ k, k ∉ keys → ZSCORE k leaseID d' = ZSCORE k leaseID d.
Proof.
  intros Hd Hk. revert d Hd b d'. induction Hk as [|key keys Hkey Hks IH]; intros d Hd b d'; cbn [leaseKept].
  { intros [= <- <-]. by split_and!. }
  set (d1 := ZREMRANGEBYSCORE key (seconds d - liveLeaseTTLSeconds) d).
  assert (H1 : admissionInv d1) by (apply admissionInv_single; [done|]; by rewrite (proj1 (liveKey_facts key Hkey))).
  assert (Hz : ∀ k, k ≠ key → ZSCORE k leaseID d1 = ZSCORE k leaseID d) by (intros k Hne; unfold ZSCORE, d1; by rewrite members_ZREMRANGE, decide_False).
  case_bool_decide as Hs.
  - intros [= <- <-]. split_and!; [done | done | done|]. intros k [? ?]%not_elem_of_cons. by apply Hz.
  - intros E. destruct (IH d1 H1 b d' E) as (G1 & G2 & G3 & G4). split_and!; [done | done | |].
    + intros Hnd Hb. inversion_clear Hnd. constructor; [|by apply G3]. rewrite G4 by done. by destruct (ZSCORE key leaseID d1).
    + intros k [? ?]%not_elem_of_cons. rewrite G4 by done. by apply Hz.
Qed.

Lemma admit_all_keeps keys leaseID d :
  admissionInv d → Forall (λ k, liveKeyKind k = true) keys → Forall (λ k, is_Some (ZSCORE k leaseID d)) keys →
  admissionInv (fold_left (λ d key, enter key leaseID liveLeaseTTLSeconds liveLeaseTTLSeconds d) keys d).
Proof.
  intros Hd Hk. revert d Hd. induction Hk as [|key keys Hkey Hks IH]; intros d Hd Hs; cbn [fold_left]; [done|].
  inversion_clear Hs. destruct (liveKey_facts key Hkey) as (E1 & E2 & _). apply IH.
  - apply admissionInv_admit; [done..|rewrite E2; by intros [? [=]] | by left].
  - eapply Forall_impl; [done|]. intros k Hz. unfold ZSCORE. rewrite members_admit by done. destruct (decide (k = key)) as [->|]; [|done].
    rewrite lookup_insert_eq. by eexists.
Qed.

Lemma refreshLiveLease_keeps a u k leaseID d :
  admissionInv d → admissionInv (snd (refreshLiveLeaseScript (liveKeys a u k) liveLeaseTTLSeconds leaseID d)).
Proof.
  intros Hd. unfold refreshLiveLeaseScript. destruct (leaseKept _ _ _ _) as [b d'] eqn:E.
  assert (Hk : Forall (λ k, liveKeyKind k = true) (liveKeys a u k)) by (by repeat constructor).
  destruct (leaseKept_keeps _ leaseID d b d' Hd Hk E) as (H1 & _ & H3 & _). destruct b; [|done]. cbn [snd].
  apply admit_all_keeps; [done..|]. apply H3; [|done]. unfold liveKeys.
  repeat (apply NoDup_cons_2; [rewrite ?elem_of_cons, elem_of_nil; intuition discriminate|]). apply NoDup_nil_2.
Qed.

Lemma releaseLiveLease_keeps keys leaseID d : admissionInv d → admissionInv (fold_left (λ d key, leave key leaseID d) keys d).
Proof. revert d. induction keys as [|k keys IH]; intros d Hd; cbn; [done|]. by apply IH, leave_keeps. Qed.

(** *** Cleanup at start *)

(** Members of the own process stay, and only they have promises. *)
Lemma removeOthers_keeps key live ms removed d :
  admissionInv d → liveKeyOf key = Some live → admissionInv (snd (removeOthers key (cfgPrefix g) ms removed d)).
Proof.
  intros Hd Hv. revert removed d Hd. induction ms as [|m ms IH]; intros removed d Hd; cbn [removeOthers]; [done|].
  destruct (HasPrefix m (cfgPrefix g)) eqn:Hp; [by apply IH|]. apply IH.
  apply (admissionInv_fewer d); [done | | intros k; apply ZCARD_ZREM]. apply evolves_ZREM. intros u _ Hg.
  pose proof (inv_prefix d Hd key m u ltac:(by rewrite Hv) Hg). congruence.
Qed.

Lemma startupCleanup_keeps key live d :
  admissionInv d → liveKeyOf key = Some live → admissionInv (snd (startupCleanupSlotScript key (cfgPrefix g) (slotTTLSeconds (cfgCache g)) d)).
Proof.
  intros Hd Hv. unfold startupCleanupSlotScript. pose proof (removeOthers_keeps key live (ZRANGE key d) 0 d Hd Hv) as H1.
  destruct (removeOthers _ _ _ _ _) as [removed d']. cbn [snd] in *. pose proof (slotTTL_pos g good).
  destruct (slotKey_lifetimes key live Hv) as [E1 _]. apply (admissionInv_fewer d'); [done | apply evolves_expireOrDelete; lia|].
  intros k. apply ZCARD_expireOrDelete. lia.
Qed.

(** *** Indexes *)

Lemma index_store_keeps k ms e d : lifetime k = 0 → limited k = false → (∀ base, liveKeyOf base ≠ Some k) → alive d e = true →
  admissionInv d → admissionInv (store k ms e d).
Proof.
  intros Hl Hk Hb He Hd. apply (admissionInv_evolves d); [done | apply evolves_store_other; [lia | done]|].
  apply (withinLimits_fewer d); [apply Hd | | apply lifetime_limited]. intros k' Hk'. unfold ZCARD. rewrite members_store by done.
  destruct (decide (k' = k)) as [->|]; [lia | done].
Qed.

Definition isIndex (k : redisKey) : bool :=
  match k with accountActiveIndexKey | userActiveIndexKey | umqLockIndexKey => true | _ => false end.

Lemma index_ZADD_keeps k score m d : isIndex k = true → admissionInv d → admissionInv (ZADD k score m d).
Proof. intros Hk. apply index_store_keeps; [by destruct k | by destruct k | by destruct k; intros [] | apply expiryOf_alive]. Qed.

Lemma index_ZREM_keeps k m d : isIndex k = true → admissionInv d → admissionInv (ZREM k m d).
Proof. intros Hk. apply index_store_keeps; [by destruct k | by destruct k | by destruct k; intros [] | apply expiryOf_alive]. Qed.

Lemma index_fold_keeps {X} (f : redis → X → redis) xs d :
  (∀ d x, admissionInv d → admissionInv (f d x)) → admissionInv d → admissionInv (fold_left f xs d).
Proof. intros Hf. revert d. induction xs as [|x xs IH]; intros d Hd; cbn; [done | by apply IH, Hf]. Qed.

(** *** Counters *)

Lemma counters_keep d cs :
  admissionInv d → waitsWithin (setCounters cs d) → admissionInv (setCounters cs d).
Proof. intros [H1 H2 H3 _ H5 H6] H4. by split. Qed.

Lemma GETInt_put k v e d k' : alive d e = true → GETInt k' (putCounter k v e d) = if decide (k' = k) then Some v else GETInt k' d.
Proof.
  intros He. unfold GETInt, putCounter. cbn [counters setCounters etaRedis].
  destruct (decide (k' = k)) as [->|]; [rewrite lookup_insert_eq | by rewrite lookup_insert_ne].
  change (alive (setCounters _ d) e) with (alive d e). by rewrite He.
Qed.

Lemma counterExpiry_alive k d : alive d (counterExpiry k d) = true.
Proof. unfold counterExpiry. destruct (counters d !! k) as [[v e]|]; [|done]. by destruct (alive d e) eqn:E. Qed.

Lemma putCounter_keeps k v e d :
  admissionInv d → alive d e = true → (isWait k = true → 0 <= v <= cfgMaxWait g k) → admissionInv (putCounter k v e d).
Proof.
  intros Hd He Hv. apply counters_keep; [done|]. intros k' Hk'. fold (putCounter k v e d). rewrite GETInt_put by done.
  destruct (decide (k' = k)) as [->|]; [by apply Hv | by apply (inv_waits d Hd)].
Qed.

Lemma DELCounter_keeps k d : admissionInv d → admissionInv (DELCounter k d).
Proof.
  intros Hd. apply counters_keep; [done|]. intros k' Hk'. pose proof (inv_waits d Hd k' Hk') as Hw. unfold GETInt in *. cbn [counters setCounters etaRedis].
  destruct (decide (k' = k)) as [->|]; [rewrite lookup_delete_eq; cbn; pose proof (maxWait_nonneg g good k); lia | by rewrite lookup_delete_ne].
Qed.

Lemma EXPIRECounter_keeps k ttl d : admissionInv d → 0 < ttl → admissionInv (EXPIRECounter k ttl d).
Proof.
  intros Hd Ht. unfold EXPIRECounter. destruct (GETInt k d) as [v|] eqn:E; [|done]. destruct (Z.leb_spec ttl 0); [lia|].
  apply putCounter_keeps; [done | apply Z.leb_le; lia|]. intros Hk. pose proof (inv_waits d Hd k Hk) as Hw. by rewrite E in Hw.
Qed.

Lemma incrementWait_keeps k d :
  admissionInv d → isWait k = true → admissionInv (snd (incrementWaitScript k (cfgMaxWait g k) (waitQueueTTLSeconds (cfgCache g)) d)).
Proof.
  intros Hd Hk. unfold incrementWaitScript. pose proof (inv_waits d Hd k Hk). pose proof (waitTTL_pos g good).
  destruct (Z.leb_spec (cfgMaxWait g k) (default 0 (GETInt k d))); [done|]. cbn [snd]. apply EXPIRECounter_keeps; [|done].
  apply putCounter_keeps; [done | apply counterExpiry_alive | lia].
Qed.

Lemma decrementWait_keeps k d : admissionInv d → isWait k = true → admissionInv (snd (decrementWaitScript k d)).
Proof.
  intros Hd Hk. unfold decrementWaitScript. cbn [snd]. pose proof (inv_waits d Hd k Hk) as Hw. destruct (GETInt k d) as [v|] eqn:E; [|done].
  destruct (Z.ltb_spec 0 v); [|done]. apply putCounter_keeps; [done | apply counterExpiry_alive|]. rewrite E. cbn in *. lia.
Qed.

Lemma INCR_other_keeps k d : admissionInv d → isWait k = false → admissionInv (INCR k d).
Proof. intros Hd Hk. apply putCounter_keeps; [done | apply counterExpiry_alive | by rewrite Hk]. Qed.

(** *** Locks *)

Lemma strings_keep d ss gr :
  admissionInv d → (∀ k m, isLock k = false → gr !! (k, m) = granted d !! (k, m)) →
  locksHeld (setStrings ss (setGranted gr d)) → admissionInv (setStrings ss (setGranted gr d)).
Proof.
  intros [H1 H2 H3 H4 H5 H6] Hg Hl. split; [|done..|]; cbn.
  - intros k m u Hk E. cbn in E. rewrite Hg in E by (by destruct k). by apply H1.
  - intros k m u Hk E. cbn in E. rewrite Hg in E by (by destruct k; try (by destruct Hk)). by apply (H6 k m u).
Qed.

Lemma setGranted_same d : setGranted (granted d) d = d.
Proof. by destruct d. Qed.

(** Other strings. *)
Lemma SETString_other_keeps k v e d : admissionInv d → isLock k = false → admissionInv (SETString k v e d).
Proof.
  intros Hd Hk. rewrite <- (setGranted_same d) at 1. unfold SETString. apply strings_keep; [done..|].
  intros k' owner u Hk' Hg Hm. destruct (inv_locks d Hd k' owner u Hk' Hg Hm) as (e' & E & Hu). exists e'. split; [|done].
  cbn. rewrite lookup_insert_ne; [done | congruence].
Qed.

(** Taking a lock that nobody else holds. *)
Lemma takeLock_keeps k owner ttl d :
  admissionInv d → isLock k = true → GETString k d = None ∨ GETString k d = Some owner →
  admissionInv (grant k owner (millis d + ttl) (SETString k owner (Some (millis d + ttl)) d)).
Proof.
  intros Hd Hk Hfree. set (e := millis d + ttl).
  change (grant k owner e (SETString k owner (Some e) d))
    with (setStrings (<[k := (owner, Some e)]> (strings d)) (setGranted (<[(k, owner) := e]> (granted d)) d)).
  apply strings_keep; [done | |].
  - intros k' m Hk'. rewrite lookup_insert_ne; [done | intros [= <- <-]; congruence].
  - intros k' owner' u Hk' Hg Hm. cbn in Hg, Hm |- *. apply lookup_insert_Some in Hg as [[E <-]|[Hne Hg]].
    { injection E as <- <-. exists e. by rewrite lookup_insert_eq. }
    destruct (inv_locks d Hd k' owner' u Hk' Hg Hm) as (e' & E & Hu). exists e'. split; [|done].
    rewrite lookup_insert_ne; [done|]. intros <-. unfold GETString, stringOf in Hfree. rewrite E in Hfree. cbn in Hfree.
    rewrite (proj2 (Z.leb_le (millis d) e')) in Hfree by lia. cbn in Hfree. destruct Hfree as [[=]|[= ->]]. done.
Qed.

Lemma acquireLock_keeps a owner ttl d :
  admissionInv d → admissionInv (snd (acquireLockScript (umqLockKey a) owner ttl d)).
Proof.
  intros Hd. unfold acquireLockScript. destruct (GETString (umqLockKey a) d) as [cur|] eqn:E; [|apply takeLock_keeps; auto].
  destruct (String.eqb_spec cur owner) as [->|]; [apply takeLock_keeps; auto | done].
Qed.

Lemma dropLock_keeps k owner d :
  admissionInv d → GETString k d = Some owner → isLock k = true → admissionInv (giveBack k owner (DELString k d)).
Proof.
  intros Hd E Hk. change (giveBack k owner (DELString k d)) with (setStrings (delete k (strings d)) (setGranted (delete (k, owner) (granted d)) d)).
  apply strings_keep; [done | |].
  - intros k' m Hk'. rewrite lookup_delete_ne; [done | intros [= <- <-]; congruence].
  - intros k' owner' u Hk' Hg Hm. cbn in Hg, Hm |- *. apply lookup_delete_Some in Hg as [Hne Hg].
    destruct (inv_locks d Hd k' owner' u Hk' Hg Hm) as (e & E' & Hu). exists e. split; [|done].
    rewrite lookup_delete_ne; [done|]. intros <-. unfold GETString, stringOf in E. rewrite E' in E. cbn in E.
    rewrite (proj2 (Z.leb_le (millis d) e)) in E by lia. injection E as ->. done.
Qed.

Lemma releaseLock_keeps a owner d : admissionInv d → admissionInv (snd (releaseLockScript (umqLockKey a) (umqLastKey a) owner d)).
Proof.
  intros Hd. unfold releaseLockScript. case_bool_decide as E; [|done]. cbn [snd]. apply SETString_other_keeps; [|done]. by apply dropLock_keeps.
Qed.

(** A lock without an expiry is nobody's. *)
Lemma reconcileLock_keeps a d : admissionInv d → admissionInv (snd (reconcileLockScript (umqLockKey a) d)).
Proof.
  intros Hd. unfold reconcileLockScript. destruct (Z.eqb_spec (PTTL (umqLockKey a) d) (-2)); [done|].
  destruct (Z.eqb_spec (PTTL (umqLockKey a) d) (-1)) as [E|]; [|done]. cbn [snd]. unfold DELString. rewrite <- (setGranted_same d) at 1.
  apply strings_keep; [done..|]. intros k' owner u Hk' Hg Hm. destruct (inv_locks d Hd k' owner u Hk' Hg Hm) as (e & E' & Hu).
  exists e. split; [|done]. cbn. rewrite lookup_delete_ne; [done|]. intros <-. unfold PTTL, stringOf in E. rewrite E' in E. cbn in Hm, E.
  rewrite (proj2 (Z.leb_le (millis d) e)) in E by lia. lia.
Qed.

(** *** The clock *)

Lemma members_tick t d k : millis d <= t →
  members (setMillis t d) k = ∅ ∨ members (setMillis t d) k = members d k ∧ expiryOf (setMillis t d) k = expiryOf d k.
Proof.
  intros Ht. unfold members, expiryOf, setOf. cbn [zsets setMillis etaRedis]. destruct (zsets d !! k) as [z|]; [|by left].
  destruct (alive (setMillis t d) (zexpiry z)) eqn:E; [|by left]. right.
  assert (Ea : alive d (zexpiry z) = true); [|by rewrite Ea]. unfold alive in *. destruct (zexpiry z); [|done].
  apply Z.leb_le in E. apply Z.leb_le. cbn in E. lia.
Qed.

(** A key with an unexpired promise does not expire. *)
Lemma members_tick_backed t d k m u : millis d <= t → t < u → backed d k m u →
  members (setMillis t d) k = members d k ∧ expiryOf (setMillis t d) k = expiryOf d k.
Proof.
  intros Ht Hu [(score & E & _) [He _]]. revert E He. unfold members, expiryOf, setOf. cbn [zsets setMillis etaRedis].
  destruct (zsets d !! k) as [z|]; [|done]. destruct (alive d (zexpiry z)) eqn:Ea; [|done]. intros _ He.
  assert (Et : alive (setMillis t d) (zexpiry z) = true); [|by rewrite Et]. unfold alive. destruct (zexpiry z) as [e|]; [|done].
  cbn. apply Z.leb_le. pose proof (He e eq_refl). lia.
Qed.

Lemma tick_keeps t d : admissionInv d → millis d <= t → admissionInv (setMillis t d).
Proof.
  intros Hd Ht. pose proof Hd as [H1 H2 H3 H4 H5 H6]. assert (Hs : seconds d <= seconds (setMillis t d)) by (apply Z.div_le_mono; [done|exact Ht]).
  assert (Hc : ∀ k, ZCARD k (setMillis t d) <= ZCARD k d).
  { intros k. unfold ZCARD. destruct (members_tick t d k Ht) as [-> | [-> _]]; [rewrite zsize_empty; apply zsize_nonneg | done]. }
  split.
  - intros k m u Hl Hg Hm. cbn in Hm. pose proof (H1 k m u Hl Hg ltac:(lia)) as Hb. pose proof Hb as (Hb1 & Hb2 & Hb3).
    destruct (members_tick_backed t d k m u Ht Hm Hb) as [E1 E2]. unfold backed. rewrite E1, E2. cbn. split; [done|]. split; [done|lia].
  - intros k m score Hl E. destruct (members_tick t d k Ht) as [E0 | [E0 _]]; [by rewrite E0 in E|]. rewrite E0 in E.
    pose proof (H2 k m score Hl E). lia.
  - apply (withinLimits_fewer d); [done | by intros; apply Hc | apply lifetime_limited].
  - intros k Hk. pose proof (H4 k Hk) as Hw. unfold GETInt in *. cbn [counters setMillis etaRedis]. destruct (counters d !! k) as [[v e]|]; [|done].
    pose proof (maxWait_nonneg g good k). destruct (alive (setMillis t d) e) eqn:E; [|by cbn]. destruct (alive d e) eqn:Ea; [done|].
    unfold alive in *. destruct e; [|done]. apply Z.leb_le in E. apply Z.leb_gt in Ea. cbn in E. lia.
  - intros k owner u Hk Hg Hm. cbn in Hm. apply (H5 k owner u Hk Hg). lia.
  - exact H6.
Qed.

(** ** What the invariant means *)

Lemma inFlight_le d k : admissionInv d → 0 < lifetime k → inFlight d k <= ZCARD k d.
Proof.
  intros Hd Hl. unfold inFlight, ZCARD, zsize. rewrite <- size_dom. apply inj_le, subseteq_size. intros m (u & Hg & Hm)%elem_of_holders.
  destruct (inv_promises d Hd k m u Hl Hg Hm) as [(score & E & _) _]. apply elem_of_dom. by exists score.
Qed.
End invariant.
