(* ===== verification/AdmissionPrograms.v ===== *)
(** * Admission under concurrency: the programs

    Every operation of the slots, sessions and message locks keeps the invariant
    of [AdmissionInvariant.v] between any two of its commands, whatever other
    programs do in between: the rely/guarantee rules of [Transactions.v] with the
    guarantee that the clock of the server does not go back. *)

From S2P Require Import Prelude GoRuntime Transactions RedisStore ConcurrencySlots ConcurrencyService SessionLimit UserMessageQueue.
From S2P Require Import AdmissionInvariant.
#[local] Open Scope Z_scope.

(** ** The clock in the scripts *)

Lemma millis_EXPIRE k ttl d : millis (EXPIRE k ttl d) = millis d.
Proof. apply EXPIRE_same. Qed.
Lemma millis_admit k m life expire d : millis (enter k m life expire d) = millis d.
Proof. exact (millis_EXPIRE k expire (ZADD k (seconds d) m d)). Qed.
Lemma millis_expireOrDelete k ttl d : millis (expireOrDelete k ttl d) = millis d.
Proof. unfold expireOrDelete. destruct (_ =? 0); [done | apply millis_EXPIRE]. Qed.
Lemma millis_EXPIRECounter k ttl d : millis (EXPIRECounter k ttl d) = millis d.
Proof. unfold EXPIRECounter. destruct (GETInt k d); [|done]. by destruct (ttl <=? 0). Qed.
Lemma millis_purge k bound d : millis (ZREMRANGEBYSCORE k bound d) = millis d.
Proof. done. Qed.

Lemma millis_fold {X} (f : redis → X → redis) xs d : (∀ d x, millis (f d x) = millis d) → millis (fold_left f xs d) = millis d.
Proof. intros Hf. revert d. induction xs as [|x xs IH]; intros d; cbn; [done|]. by rewrite IH. Qed.

Lemma millis_leaseKept keys bound leaseID d : millis (snd (leaseKept keys bound leaseID d)) = millis d.
Proof. revert d. induction keys as [|k keys IH]; intros d; cbn [leaseKept]; [done|]. case_bool_decide; [done | by rewrite IH]. Qed.

Lemma millis_removeOthers key prefix ms removed d : millis (snd (removeOthers key prefix ms removed d)) = millis d.
Proof. revert removed d. induction ms as [|m ms IH]; intros removed d; cbn [removeOthers]; [done|]. destruct (HasPrefix m prefix); by rewrite IH. Qed.

(** A script leaves the clock alone. *)
Ltac same_clock := repeat case_match; cbn [snd]; rewrite ?millis_admit, ?millis_expireOrDelete, ?millis_EXPIRECounter, ?millis_purge; try done.

(** ** Rules *)

Section programs.
Context (g : admissionConfig) (good : goodConfig g).
Abbreviation inv := (admissionInv g).

Definition onward (d d' : redis) : Prop := millis d <= millis d'.

(** What a program knows: a time that has passed. *)
Definition since (o : option Z) (d : redis) : Prop := match o with Some now => now <= seconds d | None => True end.

Lemma since_stable o : stable inv onward (since o).
Proof.
  intros d d' _ _ Ho. destruct o as [now|]; [|done]. unfold since, seconds. intros Hs. pose proof (Z.div_le_mono _ _ 1000 ltac:(done) Ho). lia.
Qed.

Definition admissible (o : option Z) {A} (p : P A) : Prop := safe inv onward onward p (since o) (λ _ _, True).

Lemma admissible_ret o {A} (a : A) : admissible o (Ret a).
Proof. done. Qed.

Lemma admissible_bind o {A B} (f : A → P B) (p : P A) : admissible o p → (∀ a, admissible o (f a)) → admissible o (bindProg f p).
Proof.
  intros Hp Hf. eapply safe_bindProg.
  - eapply safe_weaken; [apply (safe_frame _ _ _ _ _ _ (since_stable o) Hp) | done | by intros a d _ [_ H]; exact H].
  - intros a. apply Hf.
Qed.

Lemma admissible_weaken o {A} (p : P A) : admissible None p → admissible o p.
Proof. intros Hp. by eapply safe_weaken. Qed.

Lemma admissible_clock o {A} (k : Time → P A) : (∀ t, admissible o (k t)) → admissible o (Clock k).
Proof. done. Qed.

(** A script that keeps the invariant where the known time has passed. *)
Lemma admissible_call o {X} (f : redis → X * redis) :
  (∀ d, inv d → since o d → inv (snd (f d)) ∧ millis (snd (f d)) = millis d) → admissible o (call f).
Proof.
  intros Hf. unfold admissible, call. apply safe_query_any; [apply since_stable | | done]. intros t d Hd Ho.
  destruct (Hf d Hd Ho) as [H1 H2]. destruct (f d) as [x d']. cbn in *. split; [done|]. unfold onward. lia.
Qed.

Lemma admissible_read o {X} (f : redis → X) : admissible o (read f).
Proof. by apply admissible_call. Qed.

Lemma admissible_write o f : (∀ d, inv d → since o d → inv (f d) ∧ millis (f d) = millis d) → admissible o (write f).
Proof. intros Hf. by apply admissible_call. Qed.

Lemma admissible_then o {X Y} (m : R X) (f : X → R Y) : admissible o m → (∀ x, admissible o (f x)) → admissible o (thenR m f).
Proof. intros Hm Hf. apply admissible_bind; [done|]. by intros [x|e]. Qed.

Lemma admissible_both o {X Y} (m : R X) (n : R Y) : admissible o m → admissible o n → admissible o (both m n).
Proof. intros Hm Hn. apply admissible_bind; [done|]. intros r. apply admissible_bind; [done|]. intros r'. by destruct r, r'. Qed.

Lemma admissible_logged o {X Y} (m : R X) (p : P Y) : admissible o m → admissible o p → admissible o (logged m p).
Proof. intros Hm Hp. by apply admissible_bind. Qed.

Lemma admissible_pipeline o {X} (ms : list (R X)) : Forall (admissible o) ms → admissible o (pipeline ms).
Proof.
  induction 1 as [|m ms Hm Hms IH]; cbn [pipeline]; [done|]. apply admissible_then; [by apply admissible_both|]. done.
Qed.

Lemma admissible_map o {X Y} (f : X → R Y) xs : (∀ x, admissible o (f x)) → admissible o (pipeline (f <$> xs)).
Proof. intros Hf. apply admissible_pipeline, Forall_fmap, Forall_true. intros x. apply Hf. Qed.

(** After a reading of the clock its time has passed. *)
Lemma admissible_now o {A} (k : result dbError Z → P A) :
  (∀ now, admissible (Some now) (k (Ok now))) → (∀ e, admissible None (k (Err e))) → admissible o (bindProg k redisUnixSeconds).
Proof.
  intros Hk He. unfold admissible, redisUnixSeconds, read, call. cbn [bindProg].
  exists (λ r, match r with Ok now => since (Some now) | Err _ => since None end). split; [|split].
  - intros [now|e]; apply since_stable.
  - intros t d Hd _. cbn. split; [done|]. split; [unfold onward; lia|]. by split.
  - intros [now|e]; [apply Hk | apply He].
Qed.

Lemma admissible_thenNow o {Y} (f : Z → R Y) : (∀ now, admissible (Some now) (f now)) → admissible o (thenR redisUnixSeconds f).
Proof. intros Hf. by apply admissible_now. Qed.

#[local] Hint Resolve admissible_ret admissible_bind admissible_then admissible_both admissible_logged admissible_read admissible_clock
  admissible_map : core.
#[local] Hint Extern 1 (admissible _ (okR _)) => apply admissible_ret : core.
#[local] Hint Extern 1 (admissible _ (errR _)) => apply admissible_ret : core.

(** ** The operations *)

(** A call of the script [f] that [H] shows to keep the invariant. *)
#[local] Tactic Notation "script" reference(f) constr(H) :=
  apply admissible_call; intros d Hd _; split; [by apply H | unfold f; same_clock].

Abbreviation cache := (cfgCache g).

Lemma admissible_touch o index id at_ : isIndex index = true → admissible o (touchActiveIndexAt index id at_).
Proof.
  intros Hi. unfold touchActiveIndexAt. destruct (_ || _); [done|]. apply admissible_logged; [|done].
  apply admissible_write. intros d Hd _. split; [by apply index_ZADD_keeps | done].
Qed.

(** The purge of a pipeline: its cutoff is older than the lifetime of the set. *)
Lemma admissible_purge now k life :
  lifetime g k = life → admissible (Some now) (write (ZREMRANGEBYSCORE k (now - life))).
Proof.
  intros <-. apply admissible_write. intros d Hd Hn. split; [|done]. cbn in Hn. apply admissionInv_single; [done..|lia].
Qed.

Lemma admissible_pipelineLoad now id m slot live wait :
  liveKeyOf slot = Some live → admissible (Some now) (pipelineLoad id m slot wait (now - slotTTLSeconds cache)).
Proof.
  intros Hv. unfold pipelineLoad. apply admissible_then; [|by intros [[??] ?]].
  apply admissible_both; [|done]. apply admissible_both; [|done]. apply admissible_purge. by apply (slotKey_lifetimes g slot live).
Qed.

Lemma admissible_refreshIndex o index id slot live wait :
  isIndex index = true → liveKeyOf slot = Some live → admissible o (refreshActiveIndex cache index id slot wait).
Proof.
  intros Hi Hv. unfold refreshActiveIndex. destruct (id <=? 0); [done|]. apply admissible_now; [|done]. intros now.
  apply admissible_bind; [by eapply admissible_pipelineLoad|]. intros [load|e]; [|done]. destruct (_ && _).
  - apply admissible_logged; [|done]. apply admissible_write. intros d Hd _. split; [by apply index_ZREM_keeps | done].
  - destruct (_ <=? 0); [done | by apply admissible_touch].
Qed.

(** *** Slots *)

Lemma admissible_acquire o slot live index id requestID :
  isIndex index = true → liveKeyOf slot = Some live → HasPrefix requestID (cfgPrefix g) = true →
  admissible o (acquireSlot cache slot live index id (cfgLimit g slot) requestID).
Proof.
  intros Hi Hv Hp. unfold acquireSlot. apply admissible_then.
  - script acquireScript acquireScript_keeps.
  - intros [result now]. destruct (result =? 1); [|done]. apply admissible_bind; [by apply admissible_touch | done].
Qed.

Lemma admissible_leave o k m : admissible o (write (leave k m)).
Proof. apply admissible_write. intros d Hd _. split; [by apply leave_keeps | done]. Qed.

Lemma admissible_release o slot requestID refresh :
  (∀ o, admissible o refresh) → admissible o (releaseSlot slot requestID refresh).
Proof. intros Hr. apply admissible_then; [apply admissible_leave|]. intros _. by apply admissible_bind. Qed.

Lemma admissible_getCount o key live :
  liveKeyOf key = Some live → admissible o (call (getCountScript key live (slotTTLSeconds cache))).
Proof. intros Hv. destruct (slotKey_lifetimes g key live Hv). apply admissible_call. intros d Hd _. split; [by apply getCountScript_keeps | done]. Qed.

Lemma admissible_track o apiKeyID requestID : admissible o (ConcurrencySlots.TrackAPIKeySlot cache apiKeyID requestID).
Proof. apply admissible_then; [|done]. script trackSlotScript trackSlotScript_keeps. Qed.

(** *** Counting many *)

Lemma admissible_countSlots now slot live :
  lifetime g slot = slotTTLSeconds cache → lifetime g live = liveLeaseTTLSeconds → admissible (Some now) (countSlots cache slot live now).
Proof.
  intros E1 E2. apply admissible_then; [|by intros [? [??]]]. apply admissible_both; [|by apply admissible_both].
  apply admissible_both; by apply admissible_purge.
Qed.

Lemma admissible_concurrencyBatch o slot live ids :
  (∀ id, lifetime g (slot id) = slotTTLSeconds cache ∧ lifetime g (live id) = liveLeaseTTLSeconds) →
  admissible o (concurrencyBatch cache slot live ids).
Proof.
  intros Hl. unfold concurrencyBatch. destruct ids; [done|]. apply admissible_thenNow. intros now. apply admissible_then; [|done].
  apply admissible_map. intros id. apply admissible_then; [by apply admissible_countSlots; apply Hl | done].
Qed.

Lemma admissible_loadBatch o slot live wait xs :
  (∀ id, lifetime g (slot id) = slotTTLSeconds cache ∧ lifetime g (live id) = liveLeaseTTLSeconds) →
  admissible o (loadBatch cache slot live wait xs).
Proof.
  intros Hl. unfold loadBatch. destruct xs; [done|]. apply admissible_thenNow. intros now. apply admissible_then; [|done].
  apply admissible_map. intros x. apply admissible_then; [|done]. apply admissible_both; [by apply admissible_countSlots; apply Hl | done].
Qed.

(** *** Leases *)

Lemma admissible_isOne o m : admissible o m → admissible o (isOne m).
Proof. intros Hm. by apply admissible_then. Qed.

Lemma admissible_acquireIngress o k leaseID :
  admissible o (ConcurrencySlots.AcquireOpenAIWSIngressLease k (cfgLimit g (openAIWSIngressLeaseKey k)) leaseID).
Proof.
  unfold ConcurrencySlots.AcquireOpenAIWSIngressLease. destruct (_ || _); [done|]. apply admissible_isOne.
  script acquireOpenAIWSIngressLeaseScript acquireIngress_keeps.
Qed.

Lemma admissible_refreshIngress o k leaseID : admissible o (RefreshOpenAIWSIngressLease k leaseID).
Proof.
  unfold RefreshOpenAIWSIngressLease. destruct (_ || _); [done|]. apply admissible_isOne.
  script refreshOpenAIWSIngressLeaseScript refreshIngress_keeps.
Qed.

Lemma admissible_acquireLive o a u k leaseID replacing :
  admissible o (AcquireLiveLease a (cfgLimit g (accountSlotKey a)) u (cfgLimit g (userSlotKey u)) k leaseID replacing).
Proof.
  unfold AcquireLiveLease. destruct (_ || _); [done|]. apply admissible_isOne.
  script acquireLiveLeaseScript acquireLiveLease_keeps.
Qed.

Lemma admissible_refreshLive o a u k leaseID : admissible o (RefreshLiveLease a u k leaseID).
Proof.
  unfold RefreshLiveLease. destruct (String.eqb _ _); [done|]. apply admissible_isOne.
  apply admissible_call. intros d Hd _. split; [by apply refreshLiveLease_keeps|]. unfold refreshLiveLeaseScript.
  pose proof (millis_leaseKept (liveKeys a u k) (seconds d - liveLeaseTTLSeconds) leaseID d) as E.
  destruct (leaseKept _ _ _ _) as [[] d']; cbn [snd] in *; [|done]. rewrite millis_fold; [done|]. intros; apply millis_admit.
Qed.

Lemma admissible_releaseLive o a u k leaseID : admissible o (ReleaseLiveLease a u k leaseID).
Proof.
  unfold ReleaseLiveLease. destruct (String.eqb _ _); [done|]. apply admissible_write. intros d Hd _.
  split; [by apply releaseLiveLease_keeps | by apply millis_fold].
Qed.

(** *** Waiting *)

Lemma admissible_incrementWait o wait index id :
  isWait wait = true → isIndex index = true → admissible o (incrementWait cache wait index id (cfgMaxWait g wait)).
Proof.
  intros Hw Hi. apply admissible_then.
  - script incrementWaitScript incrementWait_keeps.
  - intros [result now]. destruct (result =? 1); [|done]. apply admissible_bind; [by apply admissible_touch | done].
Qed.

Lemma admissible_decrementWait o wait refresh :
  isWait wait = true → (∀ o, admissible o refresh) → admissible o (decrementWait wait refresh).
Proof.
  intros Hw Hr. apply admissible_then; [|intros _; by apply admissible_bind].
  script decrementWaitScript decrementWait_keeps.
Qed.

(** *** Cleanup *)

Definition goodSpec (spec : slotIndexSpec) : Prop :=
  isIndex (indexKey spec) = true ∧ ∀ id, is_Some (liveKeyOf (slotKey spec id)) ∧ isWait (waitKey spec id) = true.

Lemma admissible_removeIndex o index ms : isIndex index = true → admissible o (removeActiveIndexMembers index ms).
Proof.
  intros Hi. unfold removeActiveIndexMembers. destruct ms; [done|]. apply admissible_logged; [|done]. apply admissible_write. intros d Hd _.
  split; [|by apply millis_fold]. apply index_fold_keeps; [|done]. intros; by apply index_ZREM_keeps.
Qed.

Lemma admissible_addIndex o index ms : isIndex index = true → admissible o (addActiveIndexMembers index ms).
Proof.
  intros Hi. unfold addActiveIndexMembers. destruct ms; [done|]. apply admissible_logged; [|done]. apply admissible_write. intros d Hd _.
  split; [|by apply millis_fold]. apply index_fold_keeps; [|done]. intros; by apply index_ZADD_keeps.
Qed.

Lemma admissible_inChunks o {X Y} (f : X → R Y) ls : (∀ x, admissible o (f x)) → admissible o (inChunks f ls).
Proof.
  intros Hf. induction ls as [|l ls IH]; cbn [inChunks]; [done|]. apply admissible_then; [by apply admissible_map|]. intros ys. by apply admissible_then.
Qed.

Lemma admissible_reconcile o spec : goodSpec spec → admissible o (reconcileExpiredIndexCandidates cache spec).
Proof.
  intros [Hi Hs]. unfold reconcileExpiredIndexCandidates. apply admissible_thenNow. intros now.
  apply admissible_then; [done|]. intros ms. apply admissible_then.
  - apply admissible_then; [|done]. apply admissible_inChunks. intros x. destruct (Hs x.1) as [[live Hv] _]. by eapply admissible_pipelineLoad.
  - intros [loads stale]. apply admissible_bind; [by apply admissible_addIndex|]. intros _. apply admissible_bind; [by apply admissible_removeIndex | done].
Qed.

Lemma admissible_deleteCounters o keys : admissible o (write (deleteCounters keys)).
Proof.
  apply admissible_write. intros d Hd _. split; [|by apply millis_fold]. apply index_fold_keeps; [|done]. intros; by apply DELCounter_keeps.
Qed.

Lemma admissible_sweepPages o key pages : admissible o (sweepPages key pages).
Proof.
  induction pages as [|page pages IH]; cbn [sweepPages]; [done|]. apply admissible_then; [done|]. intros _.
  apply admissible_then; [|done]. destruct page; [done | apply admissible_deleteCounters].
Qed.

Lemma admissible_sweep o accountPages userPages : admissible o (sweepLegacyWaitKeysOnce accountPages userPages).
Proof.
  apply admissible_then; [done|]. intros [?|]; [done|]. apply admissible_then; [apply admissible_sweepPages|]. intros _.
  apply admissible_then; [apply admissible_sweepPages|]. intros _. apply admissible_write. intros d Hd _. split; [by apply SETString_other_keeps | done].
Qed.

Lemma admissible_cleanMembers o spec now ms refreshed stale :
  goodSpec spec → admissible o (cleanMembers cache spec (cfgPrefix g) now ms refreshed stale).
Proof.
  intros [Hi Hs]. revert refreshed stale. induction ms as [|m ms IH]; intros refreshed stale; cbn [cleanMembers]; [done|].
  destruct (memberID m) as [id|]; [|apply IH]. destruct (Hs id) as [[live Hv] _]. apply admissible_then.
  - apply admissible_call. intros d Hd _. split; [by eapply startupCleanup_keeps|]. unfold startupCleanupSlotScript.
    pose proof (millis_removeOthers (slotKey spec id) (cfgPrefix g) (ZRANGE (slotKey spec id) d) 0 d) as E.
    destruct (removeOthers _ _ _ _ _). cbn [snd] in *. by rewrite millis_expireOrDelete.
  - intros r. apply admissible_then; [|intros _; by destruct (0 <? r.2)]. apply admissible_write. intros d Hd _. split; [by apply DELCounter_keeps | done].
Qed.

Lemma admissible_cleanIndex o spec ms now :
  goodSpec spec → admissible o (cleanupStaleProcessSlotsForIndex cache spec ms (cfgPrefix g) now).
Proof.
  intros Hs. apply admissible_then; [by apply admissible_cleanMembers|]. destruct Hs as [Hi _]. intros r.
  apply admissible_bind; [by apply admissible_addIndex|]. intros _. apply admissible_bind; [by apply admissible_removeIndex | done].
Qed.

Lemma accountIndex_good : goodSpec accountSlotIndex.
Proof. split; [done|]. intros id. split; [by eexists | done]. Qed.
Lemma userIndex_good : goodSpec userSlotIndex.
Proof. split; [done|]. intros id. split; [by eexists | done]. Qed.

Lemma admissible_startup o accountPages userPages :
  admissible o (ConcurrencySlots.CleanupStaleProcessSlots cache (cfgPrefix g) accountPages userPages).
Proof.
  unfold ConcurrencySlots.CleanupStaleProcessSlots. destruct (String.eqb _ _); [done|]. apply admissible_then; [apply admissible_sweep|].
  intros _. apply admissible_then; [apply admissible_read|]. intros now. apply admissible_then; [done|]. intros ms.
  apply admissible_then; [apply admissible_cleanIndex, accountIndex_good|]. intros _. apply admissible_then; [done|]. intros ms'.
  apply admissible_cleanIndex, userIndex_good.
Qed.

Lemma admissible_cleanupExpired o a : admissible o (CleanupExpiredAccountSlots cache a).
Proof.
  apply admissible_then.
  - apply admissible_call. intros d Hd _. split; [by apply (cleanupExpired_keeps g good (accountSlotKey a) (liveAccountSlotKey a))|].
    unfold cleanupExpiredSlotsScript. same_clock.
  - intros _. apply admissible_bind; [|done]. by eapply admissible_refreshIndex.
Qed.

(** *** Sessions and requests per minute *)

Lemma admissible_register o a sessionUUID idleTimeout :
  idleTimeoutSeconds (cfgSessions g) idleTimeout = cfgIdle g a →
  admissible o (RegisterSession (cfgSessions g) a sessionUUID (cfgLimit g (sessionLimitKey a)) idleTimeout).
Proof.
  intros E. unfold RegisterSession. destruct (_ || _); [done|]. apply admissible_bind; [|done]. rewrite E.
  script registerSessionScript registerSession_keeps.
Qed.

Lemma admissible_refreshSession o a sessionUUID idleTimeout :
  idleTimeoutSeconds (cfgSessions g) idleTimeout = cfgIdle g a → admissible o (RefreshSession (cfgSessions g) a sessionUUID idleTimeout).
Proof.
  intros E. unfold RefreshSession. destruct (String.eqb _ _); [done|]. apply admissible_then; [|done]. rewrite E.
  script refreshSessionScript refreshSession_keeps.
Qed.

Lemma admissible_sessionCount o a idle : idle = cfgIdle g a → admissible o (call (getActiveSessionCountScript (sessionLimitKey a) idle)).
Proof. intros ->. apply admissible_call. intros d Hd _. split; [|done]. by apply admissionInv_single. Qed.

Lemma admissible_sessionBatch o ids timeouts :
  (∀ a, a ∈ ids → batchTimeout (cfgSessions g) timeouts a = cfgIdle g a) → admissible o (GetActiveSessionCountBatch (cfgSessions g) ids timeouts).
Proof.
  induction ids as [|a ids IH]; intros E; cbn [GetActiveSessionCountBatch]; [done|].
  apply admissible_bind; [apply admissible_sessionCount, E, list_elem_of_here|]. intros r. apply admissible_bind; [|done].
  apply IH. intros b Hb. apply E. by apply list_elem_of_further.
Qed.

Lemma admissible_currentMinute o a {X} (f : redisKey → R X) :
  (∀ minute, admissible o (f (rpmKey a minute))) → admissible o (thenR (currentMinuteKey a) f).
Proof.
  intros Hf. unfold admissible, currentMinuteKey, thenR, read, call. cbn [bindProg]. apply safe_query_any; [apply since_stable | |].
  - intros t d Hd _. cbn. split; [done | unfold onward; lia].
  - intros [now|e]; [apply Hf | done].
Qed.

Lemma admissible_IncrementRPM o a : admissible o (IncrementRPM a).
Proof.
  apply admissible_currentMinute. intros minute. apply admissible_call. intros d Hd _. split; [|cbn [snd]; by rewrite millis_EXPIRECounter].
  apply EXPIRECounter_keeps; [|done]. by apply INCR_other_keeps.
Qed.

Lemma admissible_GetRPM o a : admissible o (GetRPM a).
Proof. apply admissible_currentMinute. intros minute. by apply admissible_then. Qed.

Lemma admissible_GetRPMBatch o ids : admissible o (GetRPMBatch ids).
Proof.
  unfold GetRPMBatch. destruct ids; [done|]. apply admissible_then; [done|]. intros now. apply admissible_then; [|done].
  apply admissible_map. intros id. by apply admissible_then.
Qed.

(** *** Message locks *)

Lemma admissible_AcquireLock o a requestID ttl : admissible o (AcquireLock a requestID ttl).
Proof.
  apply admissible_then; [script acquireLockScript acquireLock_keeps|]. intros [acquired expireAtMs]. apply admissible_bind; [|done].
  destruct (0 <? expireAtMs); [|done]. apply admissible_logged; [|done]. apply admissible_write. intros d Hd _. split; [by apply index_ZADD_keeps | done].
Qed.

Lemma admissible_removeLockIndex o m : admissible o (removeLockIndexMember m).
Proof. apply admissible_logged; [|done]. apply admissible_write. intros d Hd _. split; [by apply index_ZREM_keeps | done]. Qed.

Lemma admissible_ReleaseLock o a requestID : admissible o (ReleaseLock a requestID).
Proof.
  apply admissible_then; [script releaseLockScript releaseLock_keeps|]. intros result. apply admissible_bind; [|done].
  destruct (result =? 1); [apply admissible_removeLockIndex | done].
Qed.

Lemma admissible_reconcileMembers o now ms cleaned : admissible o (reconcileMembers now ms cleaned).
Proof.
  revert cleaned. induction ms as [|m ms IH]; intros cleaned; cbn [reconcileMembers]; [done|].
  destruct (memberID m) as [a|]; [|apply admissible_bind; [apply admissible_removeLockIndex | done]].
  apply admissible_then; [script reconcileLockScript reconcileLock_keeps|]. intros [status pttl].
  destruct (status =? -2); [apply admissible_bind; [apply admissible_removeLockIndex | done]|].
  destruct (status =? -1); [apply admissible_bind; [apply admissible_removeLockIndex | done]|]. destruct (status =? 1); [|done].
  apply admissible_bind; [|done]. apply admissible_logged; [|done]. apply admissible_write. intros d Hd _. split; [by apply index_ZADD_keeps | done].
Qed.

Lemma admissible_reconcileLocks o maxCount : admissible o (ReconcileExpiredLockCandidates maxCount).
Proof.
  apply admissible_then; [apply admissible_read|]. intros now. apply admissible_then; [done|]. intros ms. apply admissible_reconcileMembers.
Qed.

Lemma admissible_delay o a baseRPM random : admissible o (EnforceDelay (cfgQueue g) a baseRPM random).
Proof.
  apply admissible_bind.
  - apply admissible_then; [done|]. intros [val|]; [|done]. by destruct (Atoi val).
  - intros [lastMs|e]; [|done]. destruct (lastMs =? 0); [done|]. apply admissible_bind.
    + unfold CalculateRPMAwareDelay. destruct (if _ <? _ then _ else _) as [minDelay maxDelay]. destruct (baseRPM <=? 0); [done|].
      apply admissible_bind; [apply admissible_GetRPM | done].
    + intros delay. destruct (delay <=? 0); [done|]. apply admissible_bind; [apply admissible_read | done].
Qed.
End programs.
