(* ===== verification/AdmissionSystem.v ===== *)
(** * Admission under concurrency: the system

    All operations on slots, waiting counters, leases, sessions and message locks
    run concurrently on one Redis server, whose clock advances; connections break,
    and a process may stop at any point and leave its members behind.  The limits
    hold for what has been promised and not given back: requests that a process
    believes to be admitted. *)

From S2P Require Import Prelude GoRuntime Transactions RedisStore ConcurrencySlots ConcurrencyService SessionLimit UserMessageQueue.
From S2P Require Import AdmissionInvariant AdmissionPrograms.
#[local] Open Scope Z_scope.

Definition anyResult {A} (p : P A) : P unit := bindProg (λ _, Ret tt) p.

(** The operations with the limits of the configuration.  An identifier is one
    of the process where it decides what the cleanup at start removes; a release
    may name any identifier. *)
Inductive admissionEntry (g : admissionConfig) : P unit → Prop :=
  | entry_AcquireAccount a seq :
      admissionEntry g (anyResult (AcquireAccountSlot (cfgCache g) (cfgPrefix g) a (cfgLimit g (accountSlotKey a)) seq))
  | entry_AcquireUser u seq :
      admissionEntry g (anyResult (AcquireUserSlot (cfgCache g) (cfgPrefix g) u (cfgLimit g (userSlotKey u)) seq))
  | entry_ReleaseAccount a m : admissionEntry g (ignore (ReleaseAccountSlot (cfgCache g) a m))
  | entry_ReleaseUser u m : admissionEntry g (ignore (ReleaseUserSlot (cfgCache g) u m))
  | entry_AccountCount a : admissionEntry g (ignore (GetAccountConcurrency (cfgCache g) a))
  | entry_UserCount u : admissionEntry g (ignore (GetUserConcurrency (cfgCache g) u))
  | entry_AccountBatch ids : admissionEntry g (ignore (GetAccountConcurrencyBatch (cfgCache g) ids))
  | entry_AccountsLoad xs : admissionEntry g (ignore (GetAccountsLoadBatch (cfgCache g) xs))
  | entry_UsersLoad xs : admissionEntry g (ignore (GetUsersLoadBatch (cfgCache g) xs))
  | entry_TrackKey k seq : admissionEntry g (anyResult (TrackAPIKeySlot (cfgCache g) (cfgPrefix g) k seq))
  | entry_ReleaseKey k m : admissionEntry g (ignore (ReleaseAPIKeySlot k m))
  | entry_KeyBatch ids : admissionEntry g (anyResult (GetAPIKeyConcurrencyBatch (cfgCache g) ids))
  | entry_AcquireIngress k seq :
      admissionEntry g (anyResult (AcquireOpenAIWSIngressLease (cfgPrefix g) k (cfgLimit g (openAIWSIngressLeaseKey k)) seq))
  | entry_RefreshLoop ticks k m t : admissionEntry g (anyResult (refreshLoop ticks k m t))
  | entry_ReleaseIngress k m : admissionEntry g (ConcurrencyService.Release k m)
  | entry_AcquireLive a u k m replacing :
      admissionEntry g (ignore (AcquireLiveLease a (cfgLimit g (accountSlotKey a)) u (cfgLimit g (userSlotKey u)) k m replacing))
  | entry_RefreshLive a u k m : admissionEntry g (ignore (RefreshLiveLease a u k m))
  | entry_ReleaseLive a u k m : admissionEntry g (ignore (ReleaseLiveLease a u k m))
  | entry_Wait u : admissionEntry g (anyResult (IncrementWaitCount (cfgCache g) u (cfgMaxWait g (waitQueueKey u))))
  | entry_StopWaiting u : admissionEntry g (DecrementWaitCount (cfgCache g) u)
  | entry_WaitAccount a : admissionEntry g (anyResult (IncrementAccountWaitCount (cfgCache g) a (cfgMaxWait g (accountWaitKey a))))
  | entry_StopWaitingAccount a : admissionEntry g (DecrementAccountWaitCount (cfgCache g) a)
  | entry_CleanupAccount a : admissionEntry g (ignore (CleanupExpiredAccountSlots (cfgCache g) a))
  | entry_CleanupIndexes : admissionEntry g (ignore (CleanupExpiredAccountSlotKeys (cfgCache g)))
  | entry_Start accountPages userPages :
      admissionEntry g (ignore (CleanupStaleProcessSlots (cfgCache g) (cfgPrefix g) accountPages userPages))
  | entry_Session a m timeout :
      idleTimeoutSeconds (cfgSessions g) timeout = cfgIdle g a →
      admissionEntry g (anyResult (RegisterSession (cfgSessions g) a m (cfgLimit g (sessionLimitKey a)) timeout))
  | entry_RefreshSession a m timeout :
      idleTimeoutSeconds (cfgSessions g) timeout = cfgIdle g a →
      admissionEntry g (ignore (RefreshSession (cfgSessions g) a m timeout))
  | entry_SessionCounts ids timeouts :
      (∀ a, a ∈ ids → batchTimeout (cfgSessions g) timeouts a = cfgIdle g a) →
      admissionEntry g (anyResult (GetActiveSessionCountBatch (cfgSessions g) ids timeouts))
  | entry_SessionActive a m : admissionEntry g (ignore (IsSessionActive (cfgSessions g) a m))
  | entry_RPM a : admissionEntry g (ignore (IncrementRPM a))
  | entry_RPMBatch ids : admissionEntry g (ignore (GetRPMBatch ids))
  | entry_TryAcquire a m : admissionEntry g (anyResult (TryAcquire (cfgQueue g) a m))
  | entry_ReleaseLock a m : admissionEntry g (ignore (UserMessageQueue.Release a m))
  | entry_Delay a baseRPM random : admissionEntry g (anyResult (EnforceDelay (cfgQueue g) a baseRPM random))
  | entry_LockCleanup : admissionEntry g runCleanup.

(** The clock of the server goes on. *)
Definition clockAdvances (t : Time) (d d' : redis) : Prop := ∃ ms, millis d <= ms ∧ d' = setMillis ms d.

Definition emptyRedis (ms : Z) : redis := mkRedis ms ∅ ∅ ∅ ∅.
Definition admissionInit (s : system redis) : Prop := ∃ ms, db s = emptyRedis ms ∧ pool s = [].

Definition admissionReachable (g : admissionConfig) : system redis → Prop :=
  reachable admissionInit (systemStep (admissionEntry g) clockAdvances).

Section system.
Context (g : admissionConfig) (good : goodConfig g).
Abbreviation ok := (admissible g None).

Lemma ok_any {A} (p : P A) : ok p → ok (anyResult p).
Proof. intros Hp. by apply admissible_bind. Qed.

Lemma ok_ignore {X} (m : R X) : ok m → ok (ignore m).
Proof. intros Hm. by apply admissible_logged. Qed.

Lemma ok_acquireWith maxConcurrency acquire release : ok acquire → ok (acquireWith maxConcurrency acquire release).
Proof. intros Ha. unfold acquireWith. destruct (_ <=? _); [done | by apply admissible_then]. Qed.

Lemma ok_failOpen (m : R bool) : ok m → ok (failOpen m).
Proof. intros Hm. by apply admissible_bind. Qed.

Lemma ok_releaseAccount a m : ok (ReleaseAccountSlot (cfgCache g) a m).
Proof. apply admissible_release; [done|]. intros o. by eapply admissible_refreshIndex. Qed.
Lemma ok_releaseUser u m : ok (ReleaseUserSlot (cfgCache g) u m).
Proof. apply admissible_release; [done|]. intros o. by eapply admissible_refreshIndex. Qed.

Lemma ok_refreshLoop ticks k m t : ok (refreshLoop ticks k m t).
Proof.
  revert t. induction ticks as [|n IH]; intros t; cbn [refreshLoop]; [done|]. apply admissible_bind.
  - apply admissible_bind; [by apply admissible_refreshIngress|]. intros r. by apply admissible_clock.
  - intros [t' []]; [done | apply IH].
Qed.

(** ** Every operation keeps what was promised *)

Lemma entry_ok p : admissionEntry g p → ok p.
Proof.
  assert (Hg := generateRequestID_prefix (cfgPrefix g)).
  intros []; try (apply ok_any); try (apply ok_ignore).
  - apply ok_acquireWith. apply (admissible_acquire g good None (accountSlotKey a) (liveAccountSlotKey a)); [done | done | apply Hg].
  - apply ok_acquireWith. apply (admissible_acquire g good None (userSlotKey u) (liveUserSlotKey u)); [done | done | apply Hg].
  - apply ok_releaseAccount.
  - apply ok_releaseUser.
  - by apply admissible_getCount.
  - by apply admissible_getCount.
  - by apply (admissible_concurrencyBatch g good None accountSlotKey liveAccountSlotKey).
  - by apply (admissible_loadBatch g good None accountSlotKey liveAccountSlotKey accountWaitKey).
  - by apply (admissible_loadBatch g good None userSlotKey liveUserSlotKey waitQueueKey).
  - unfold TrackAPIKeySlot. destruct (_ <=? _); [done|]. apply admissible_bind; [by apply admissible_track | by intros []].
  - by apply admissible_leave.
  - unfold GetAPIKeyConcurrencyBatch. destruct ids; [done|]. apply admissible_bind; [|by intros []].
    by apply (admissible_concurrencyBatch g good None apiKeySlotKey liveAPIKeySlotKey).
  - unfold AcquireOpenAIWSIngressLease. destruct (_ <=? _); [done|]. destruct (_ <=? _); [done|].
    apply admissible_bind; [by apply admissible_acquireIngress | done].
  - apply ok_refreshLoop.
  - unfold ConcurrencyService.Release. destruct (_ || _) eqn:E; [done|]. apply ok_ignore. unfold ReleaseOpenAIWSIngressLease. rewrite E. by apply admissible_leave.
  - by apply admissible_acquireLive.
  - by apply admissible_refreshLive.
  - by apply admissible_releaseLive.
  - by apply ok_failOpen, (admissible_incrementWait g good None (waitQueueKey u)).
  - apply admissible_decrementWait; [done..|]. intros o. by eapply admissible_refreshIndex.
  - by apply ok_failOpen, (admissible_incrementWait g good None (accountWaitKey a)).
  - apply admissible_decrementWait; [done..|]. intros o. by eapply admissible_refreshIndex.
  - by apply admissible_cleanupExpired.
  - apply admissible_then; [by apply admissible_reconcile, accountIndex_good|]. intros _. by apply admissible_reconcile, userIndex_good.
  - by apply admissible_startup.
  - by apply admissible_register.
  - by apply admissible_refreshSession.
  - by apply admissible_sessionBatch.
  - unfold IsSessionActive. destruct (String.eqb _ _); [done|]. apply admissible_then; [apply admissible_read; done | done].
  - by apply admissible_IncrementRPM.
  - apply admissible_GetRPMBatch.
  - apply admissible_bind; [by apply admissible_AcquireLock | by intros []].
  - unfold UserMessageQueue.Release. destruct (String.eqb _ _); [done|]. apply admissible_then; [by apply admissible_ReleaseLock | done].
  - by apply admissible_delay.
  - by apply admissible_reconcileLocks.
Qed.

Lemma emptyRedis_inv ms : admissionInv g (emptyRedis ms).
Proof.
  assert (Hm : ∀ k, members (emptyRedis ms) k = ∅) by done. split.
  - intros k m u _ E. cbn in E. by rewrite lookup_empty in E.
  - intros k m score _ E. by rewrite Hm in E.
  - intros k Hk. assert (Hc : ∀ k, ZCARD k (emptyRedis ms) = 0) by done. rewrite !Hc. split; [lia|]. intros live _ Hl. rewrite Hc. lia.
  - intros k Hk. unfold GETInt. cbn [counters emptyRedis]. rewrite lookup_empty. cbn. pose proof (maxWait_nonneg g good k). lia.
  - intros k m u _ E. cbn in E. by rewrite lookup_empty in E.
  - intros k m u _ E. cbn in E. by rewrite lookup_empty in E.
Qed.

Lemma admissionReachable_inv s : admissionReachable g s → admissionInv g (db s).
Proof.
  apply (reachable_safe (admissionEntry g) clockAdvances (admissionInv g) onward).
  - intros p Hp. by apply entry_ok.
  - intros t d d' Hd (ms & Ht & ->). split; [by apply tick_keeps | exact Ht].
  - intros d. unfold onward. lia.
  - intros s0 (ms & -> & ->). split; [apply emptyRedis_inv | done].
Qed.
End system.

(** ** The limits *)


(** C38: at most one request owns the message lock of an account at a time, in every
    interleaving; while it does, nobody else can take the lock or release it, and
    the cleanup of locks leaves it alone. *)
Theorem message_lock_exclusive (g : admissionConfig) (s : system redis) a owner :
  goodConfig g → admissionReachable g s → owner ∈ holders (db s) (umqLockKey a) →
  ∀ other, other ≠ owner →
    other ∉ holders (db s) (umqLockKey a) ∧
    (∀ ttl, acquireLockScript (umqLockKey a) other ttl (db s) = ((0, millis (db s) + PTTL (umqLockKey a) (db s)), db s)) ∧
    releaseLockScript (umqLockKey a) (umqLastKey a) other (db s) = (0, db s) ∧
    reconcileLockScript (umqLockKey a) (db s) = ((1, PTTL (umqLockKey a) (db s)), db s).
Proof.
  intros good Hs Ho other Hne. pose proof (admissionReachable_inv g good s Hs) as Hd. apply elem_of_holders in Ho as (u & Hg & Hm).
  destruct (inv_locks g _ Hd (umqLockKey a) owner u eq_refl Hg Hm) as (e & E & Hu).
  assert (Es : stringOf (db s) (umqLockKey a) = Some (owner, Some e)).
  { unfold stringOf. rewrite E. cbn. by rewrite (proj2 (Z.leb_le (millis (db s)) e)) by lia. }
  assert (Eg : GETString (umqLockKey a) (db s) = Some owner) by (unfold GETString; by rewrite Es).
  assert (Ep : PTTL (umqLockKey a) (db s) = e - millis (db s)) by (unfold PTTL; by rewrite Es). split_and!.
  - intros (u' & Hg' & Hm')%elem_of_holders. destruct (inv_locks g _ Hd (umqLockKey a) other u' eq_refl Hg' Hm') as (e' & E' & _). congruence.
  - intros ttl. unfold acquireLockScript. rewrite Eg, (proj2 (String.eqb_neq owner other)) by congruence. rewrite Ep.
    by rewrite (proj2 (Z.ltb_lt 0 _)) by lia.
  - unfold releaseLockScript. rewrite Eg. rewrite bool_decide_false; [done | congruence].
  - unfold reconcileLockScript. rewrite Ep. destruct (Z.eqb_spec (e - millis (db s)) (-2)); [lia|]. destruct (Z.eqb_spec (e - millis (db s)) (-1)); [lia | done].
Qed.
