(* ===== verification/AdmissionOutcome.v ===== *)
(** * Admission: what one call does

    The outcome of an undisturbed attempt to get a slot, of its release and of the
    count, on every branch; the slots of a process that has stopped come free with
    time; and what the cleanup at start does to the slots of another process. *)

From S2P Require Import Prelude GoRuntime Transactions RedisStore ConcurrencySlots ConcurrencyService SessionLimit UserMessageQueue.
From S2P Require Import AdmissionInvariant AdmissionPrograms AdmissionSystem.
#[local] Open Scope Z_scope.

(** The members that have given a sign of life in the last [ttl] seconds. *)
Definition young (d : redis) (k : redisKey) (ttl : Z) : gmap string Z := filter (λ ms, seconds d - ttl < ms.2) (members d k).

(** What an attempt compares with the limit. *)
Definition occupied (c : concurrencyCache) (d : redis) (slot live : redisKey) : Z :=
  zsize (young d slot (slotTTLSeconds c)) + zsize (young d live 60).

Section outcome.
Context (c : concurrencyCache) (ttl_pos : 0 < slotTTLSeconds c).

(** The two purges at the start of the scripts. *)
Definition swept (slot live : redisKey) (d : redis) : redis :=
  ZREMRANGEBYSCORE live (seconds d - 60) (ZREMRANGEBYSCORE slot (seconds d - slotTTLSeconds c) d).

Lemma members_swept slot live d k : slot ≠ live →
  members (swept slot live d) k =
    if decide (k = slot) then young d slot (slotTTLSeconds c) else if decide (k = live) then young d live 60 else members d k.
Proof.
  intros Hne. unfold swept. rewrite !members_ZREMRANGE. destruct (decide (live = slot)); [congruence|].
  destruct (decide (k = live)) as [->|]; destruct (decide (_ = slot)); done || congruence.
Qed.

Lemma ZCARD_swept slot live d : slot ≠ live →
  ZCARD slot (swept slot live d) + ZCARD live (swept slot live d) = occupied c d slot live.
Proof.
  intros Hne. unfold ZCARD, occupied. rewrite !members_swept by done. rewrite decide_True by done.
  destruct (decide (live = slot)); [congruence|]. by rewrite decide_True.
Qed.

(** Whether a request gets a slot. *)
Definition admitted (d : redis) (slot live : redisKey) (maxConcurrency : Z) (requestID : string) : bool :=
  bool_decide (is_Some (young d slot (slotTTLSeconds c) !! requestID)) || (occupied c d slot live <? maxConcurrency).

Lemma acquireScript_outcome slot live maxConcurrency requestID d : slot ≠ live →
  acquireScript slot live maxConcurrency (slotTTLSeconds c) requestID d =
    if admitted d slot live maxConcurrency requestID
    then ((1, seconds d), enter slot requestID (slotTTLSeconds c) (slotTTLSeconds c) (swept slot live d))
    else ((0, seconds d), swept slot live d).
Proof.
  intros Hne. unfold acquireScript, admitted. fold (swept slot live d). rewrite ZCARD_swept by done. unfold ZSCORE.
  rewrite members_swept, decide_True by done. case_bool_decide; cbn [orb]; [done|]. by destruct (occupied c d slot live <? maxConcurrency).
Qed.

(** What an attempt leaves behind. *)
Record attemptEffect (d d' : redis) (slot live : redisKey) (requestID : string) (got : bool) : Prop := mkEffect {
  effect_slot : members d' slot = (if got then <[requestID := seconds d]> (young d slot (slotTTLSeconds c)) else young d slot (slotTTLSeconds c));
  effect_live : members d' live = young d live 60;
  effect_granted : granted d' =
    (if got then <[(slot, requestID) := (seconds d + slotTTLSeconds c) * 1000]> (granted d) else granted d);
}.

Lemma granted_admit k m life expire d : granted (enter k m life expire d) = <[(k, m) := (seconds d + life) * 1000]> (granted d).
Proof. unfold enter, grant. cbn. f_equal. exact (proj2 (proj2 (proj2 (EXPIRE_same k expire (ZADD k (seconds d) m d))))). Qed.

Lemma touch_exec t index id at_ d : ∃ d', exec t (touchActiveIndexAt index id at_) d = (tt, d') ∧
  granted d' = granted d ∧ millis d' = millis d ∧ ∀ k, k ≠ index → members d' k = members d k.
Proof.
  unfold touchActiveIndexAt. destruct (_ || _); [by eexists|]. cbn. eexists. split; [done|]. split; [done|]. split; [done|].
  intros k Hk. rewrite members_ZADD. by rewrite decide_False.
Qed.

Lemma acquireSlot_exec t slot live index id maxConcurrency requestID d :
  slot ≠ live → index ≠ slot → index ≠ live →
  ∃ d', exec t (acquireSlot c slot live index id maxConcurrency requestID) d = (Ok (admitted d slot live maxConcurrency requestID), d') ∧
    millis d' = millis d ∧ attemptEffect d d' slot live requestID (admitted d slot live maxConcurrency requestID).
Proof.
  intros H1 H2 H3. unfold acquireSlot, thenR. rewrite exec_bindProg. unfold call. cbn [exec].
  rewrite (acquireScript_outcome slot live maxConcurrency requestID d H1). destruct (admitted _ _ _ _ _) eqn:Ea.
  - cbn [exec]. destruct (touch_exec t index id (seconds d + slotTTLSeconds c) (enter slot requestID (slotTTLSeconds c) (slotTTLSeconds c) (swept slot live d)))
      as (d' & Et & Eg & Em & Ek). cbn [Z.eqb Pos.eqb]. rewrite exec_bindProg, Et. exists d'. split; [done|].
    split; [by rewrite Em, millis_admit|]. split; cbn.
    + rewrite Ek, members_admit, decide_True by done. f_equal. by rewrite members_swept, decide_True.
    + rewrite Ek, members_admit, decide_False, members_swept by done. rewrite decide_False by done. by rewrite decide_True.
    + rewrite Eg. exact (granted_admit slot requestID (slotTTLSeconds c) (slotTTLSeconds c) (swept slot live d)).
  - cbn. eexists. split; [done|]. split; [done|]. split; [| |done]; rewrite members_swept by done.
    + by rewrite decide_True.
    + rewrite decide_False by done. by rewrite decide_True.
Qed.

(** *** Release *)

Lemma refresh_exec t index id slot wait d : index ≠ slot →
  ∃ d', exec t (refreshActiveIndex c index id slot wait) d = (tt, d') ∧ granted d' = granted d ∧
    (members d' slot = members d slot ∨ members d' slot = young d slot (slotTTLSeconds c)).
Proof.
  intros Hi. unfold refreshActiveIndex. destruct (id <=? 0); [exists d; auto|].
  set (d1 := ZREMRANGEBYSCORE slot (seconds d - slotTTLSeconds c) d).
  assert (E1 : members d1 slot = young d slot (slotTTLSeconds c)) by (unfold d1; by rewrite members_ZREMRANGE, decide_True).
  rewrite exec_bindProg. change (exec t redisUnixSeconds d) with (Ok (E := dbError) (seconds d), d). cbv iota beta.
  rewrite exec_bindProg.
  change (exec t (readActiveLoadForKey c id slot wait (seconds d)) d)
    with (Ok (E := dbError) (mkLoad id (Itoa id) (ZCARD slot d1) (positiveCount (GETInt wait d1))), d1).
  cbv iota beta. cbn [slotCount waitCount].
  destruct ((ZCARD slot d1 =? 0) && (positiveCount (GETInt wait d1) <=? 0)).
  - eexists. split; [done|]. split; [done|]. right. cbn [snd]. by rewrite members_ZREM, decide_False.
  - destruct (activeIndexTTL c _ _ <=? 0); [exists d1; auto|].
    match goal with |- ∃ d', exec t (touchActiveIndexAt ?i ?x ?a) ?e = _ ∧ _ => destruct (touch_exec t i x a e) as (d' & Et & Eg & _ & Ek) end.
    exists d'. split; [exact Et|]. split; [exact Eg|]. right. by rewrite Ek.
Qed.

Lemma release_exec t slot index id wait requestID d : index ≠ slot →
  ∃ d', exec t (ignore (releaseSlot slot requestID (refreshActiveIndex c index id slot wait))) d = (tt, d') ∧
    granted d' = delete (slot, requestID) (granted d) ∧
    (members d' slot = delete requestID (members d slot) ∨
     members d' slot = filter (λ ms, seconds d - slotTTLSeconds c < ms.2) (delete requestID (members d slot))).
Proof.
  intros Hi. unfold ignore, logged, releaseSlot, thenR, write, call. cbn [bindProg exec]. rewrite exec_bindProg, exec_bindProg.
  destruct (refresh_exec t index id slot wait (leave slot requestID d) Hi) as (d' & E & Eg & Em). rewrite E. exists d'.
  split; [done|]. split; [by rewrite Eg|].
  assert (El : members (leave slot requestID d) slot = delete requestID (members d slot)).
  { change (members (leave slot requestID d) slot) with (members (ZREM slot requestID d) slot). by rewrite members_ZREM, decide_True. }
  unfold young in Em. rewrite El in Em. exact Em.
Qed.
End outcome.

(** C37: an undisturbed attempt to get a slot of an account: without a limit it gets
    one that nobody counts; otherwise exactly when the request has a slot already
    or the requests and live sessions with a recent sign of life are fewer than
    the limit.  It is then promised for the lifetime of a slot and is the only new
    promise, and its release takes the promise and the member away again; a refusal
    promises nothing.  The reported count is the one that is compared. *)
Theorem slot_outcome (c : concurrencyCache) (requestIDPrefix : string) accountID maxConcurrency seq t d :
  0 < slotTTLSeconds c →
  let slot := accountSlotKey accountID in
  let live := liveAccountSlotKey accountID in
  let requestID := generateRequestID requestIDPrefix seq in
  let got := admitted c d slot live maxConcurrency requestID in
  let release := ignore (ReleaseAccountSlot c accountID requestID) in
  let (r, d') := exec t (AcquireAccountSlot c requestIDPrefix accountID maxConcurrency seq) d in
  (if maxConcurrency <=? 0 then r = Ok (mkAcquire true (Some (Ret tt))) ∧ d' = d
   else
     r = Ok (if got then mkAcquire true (Some release) else mkAcquire false None) ∧
     attemptEffect c d d' slot live requestID got ∧
     (got = true →
        let d2 := snd (exec t release d') in
        granted d2 = delete (slot, requestID) (granted d) ∧
        members d2 slot = delete requestID (young d slot (slotTTLSeconds c)))) ∧
  fst (exec t (GetAccountConcurrency c accountID) d) = Ok (occupied c d slot live).
Proof.
  intros Ht slot live requestID got release. unfold AcquireAccountSlot, acquireWith.
  assert (Hcount : fst (exec t (GetAccountConcurrency c accountID) d) = Ok (occupied c d slot live)).
  { cbn. f_equal. by apply (ZCARD_swept c (accountSlotKey accountID) (liveAccountSlotKey accountID)). }
  destruct (maxConcurrency <=? 0); [by cbn|].
  destruct (acquireSlot_exec c Ht t slot live accountActiveIndexKey accountID maxConcurrency requestID d) as (d' & E & Em & He); [done..|].
  unfold thenR. rewrite exec_bindProg. unfold ConcurrencySlots.AcquireAccountSlot. fold slot live requestID. rewrite E. cbn [exec okR].
  split; [|done]. split; [done|]. split; [done|]. fold got in He |- *. intros Hgot. set (d2 := snd (exec t release d')).
  destruct (release_exec c t slot accountActiveIndexKey accountID (accountWaitKey accountID) requestID d') as (e & Er & Eg & Es); [done|].
  assert (Ed : d2 = e) by (unfold d2, release, ReleaseAccountSlot, refreshAccountActiveIndex; fold slot; by rewrite Er).
  destruct He as [H1 _ H3]. rewrite Hgot in H1, H3. rewrite Ed, Eg, H3. split; [by rewrite delete_insert_eq|].
  assert (Hs : seconds d' = seconds d) by (unfold seconds; by rewrite Em). rewrite H1, delete_insert_eq, Hs in Es.
  destruct Es as [-> | ->]; [done|]. apply map_filter_id. intros m score [_ Hm]%lookup_delete_Some.
  unfold young in Hm. by apply map_lookup_filter_Some in Hm as [_ Hm].
Qed.

(** ** Slots of a process that has stopped *)

Lemma young_old g d k ttl ms :
  admissionInv g d → 0 < lifetime g k → 0 < ttl → millis d + 1000 * ttl <= ms → young (setMillis ms d) k ttl = ∅.
Proof.
  intros Hd Hl Ht Hms. unfold young. apply map_empty. intros m. apply map_lookup_filter_None. right. intros score E. cbn. intros Hlt.
  assert (H0 : millis d <= ms) by lia. destruct (members_tick ms d k H0) as [E0 | [E0 _]]; rewrite E0 in E; [by rewrite lookup_empty in E|].
  pose proof (inv_scores g d Hd k m score Hl E) as Hs. unfold seconds in Hs, Hlt. cbn [millis setMillis etaRedis] in Hlt.
  assert (Hdiv : (millis d + ttl * 1000) / 1000 <= ms / 1000) by (apply Z.div_le_mono; lia). rewrite Z.div_add in Hdiv by lia. lia.
Qed.

(** Whatever has happened, and whichever processes have stopped with slots in
    their hands: once the lifetime of a slot has gone by without another request,
    an attempt succeeds. *)
Theorem crashed_slots_expire (g : admissionConfig) (s : system redis) accountID seq t ms :
  goodConfig g → admissionReachable g s → 0 < cfgLimit g (accountSlotKey accountID) →
  millis (db s) + 1000 * Z.max 60 (slotTTLSeconds (cfgCache g)) <= ms →
  let (r, d') := exec t (AcquireAccountSlot (cfgCache g) (cfgPrefix g) accountID (cfgLimit g (accountSlotKey accountID)) seq) (setMillis ms (db s)) in
  (∃ release, r = Ok (mkAcquire true (Some release))) ∧
  generateRequestID (cfgPrefix g) seq ∈ holders d' (accountSlotKey accountID).
Proof.
  intros good Hs Hl Hms. pose proof (admissionReachable_inv g good s Hs) as Hd. pose proof (slotTTL_pos g good) as Ht.
  set (d := setMillis ms (db s)). set (slot := accountSlotKey accountID). set (live := liveAccountSlotKey accountID).
  set (requestID := generateRequestID (cfgPrefix g) seq).
  assert (Ha : admitted (cfgCache g) d slot live (cfgLimit g slot) requestID = true).
  { unfold admitted, occupied, d. 
    rewrite (young_old g (db s) slot _ ms Hd), (young_old g (db s) live _ ms Hd)
      by (unfold lifetime, liveLeaseTTLSeconds, slot, live; lia).
    apply orb_true_iff. right. apply Z.ltb_lt. change (0 + 0 < cfgLimit g slot). unfold slot. lia. }
  unfold AcquireAccountSlot, acquireWith, thenR. destruct (Z.leb_spec (cfgLimit g slot) 0); [unfold slot in *; lia|].
  destruct (acquireSlot_exec (cfgCache g) Ht t slot live accountActiveIndexKey accountID (cfgLimit g slot) requestID d) as (d' & E & Em & He); [done..|].
  rewrite exec_bindProg. unfold ConcurrencySlots.AcquireAccountSlot. fold slot live requestID. rewrite E, Ha. cbn [exec okR].
  split; [by eexists|]. apply elem_of_holders. rewrite Ha in He. destruct He as [_ _ Hg]. rewrite Hg. eexists. rewrite lookup_insert_eq. split; [done|].
  rewrite Em. unfold seconds. pose proof (Z.div_mod (millis d) 1000 ltac:(done)). pose proof (Z.mod_pos_bound (millis d) 1000 ltac:(done)). lia.
Qed.

(** ** Examples *)

(** One slot for each account and user, 21 may wait. *)
Definition demoConfig (processPrefix : string) : admissionConfig :=
  mkConfig (NewConcurrencyCache 15 0) (NewSessionLimitCache 5) (mkUMQ 0 0 0) (λ _, 1) (λ _, 21) (λ _, 300) processPrefix.

Lemma admissionDemo_good p : goodConfig (demoConfig p).
Proof. by split. Qed.

Definition demoAttempt (processPrefix : string) (seq : Z) : R AcquireResult :=
  AcquireAccountSlot (cfgCache (demoConfig processPrefix)) processPrefix 7 1 seq.

Definition emptyStart : redis := emptyRedis 1700000000000.

Lemma emptyStart_reachable p : admissionReachable (demoConfig p) (mkSystem 0 emptyStart []).
Proof. apply reach_init. by eexists. Qed.

(** The store after the first request has been admitted and after a message lock was taken. *)
Definition demoAdmitted : redis := snd (exec 0 (demoAttempt "ra" 1) emptyStart).
Definition demoLocked : redis := snd (exec 0 (anyResult (TryAcquire (cfgQueue (demoConfig "ra")) 7 "m1")) emptyStart).

Lemma demoAdmitted_reachable : ∃ q, admissionReachable (demoConfig "ra") (mkSystem 0 demoAdmitted q).
Proof.
  destruct (run_reachable (admissionEntry (demoConfig "ra")) clockAdvances (anyResult (demoAttempt "ra" 1)) _ (emptyStart_reachable "ra")) as [q Hq].
  - apply (entry_AcquireAccount (demoConfig "ra")).
  - exists [q]. exact Hq.
Qed.


Lemma message_lock_exclusive_witness :
  ∃ s, admissionReachable (demoConfig "ra") s ∧ "m1" ∈ holders (db s) (umqLockKey 7) ∧ "m2" ∉ holders (db s) (umqLockKey 7).
Proof.
  destruct (run_reachable (admissionEntry (demoConfig "ra")) clockAdvances (anyResult (TryAcquire (cfgQueue (demoConfig "ra")) 7 "m1")) _
    (emptyStart_reachable "ra") (entry_TryAcquire (demoConfig "ra") 7 "m1")) as [q Hq].
  exists (mkSystem 0 demoLocked [q]). assert (Ho : "m1" ∈ holders demoLocked (umqLockKey 7)) by (apply (bool_decide_unpack _); vm_compute; exact I).
  split; [exact Hq|]. split; [exact Ho|].
  exact (proj1 (message_lock_exclusive (demoConfig "ra") _ 7 "m1" (admissionDemo_good _) Hq Ho "m2" ltac:(done))).
Defined.

(** One slot: the first request gets it, and the second one does not. *)
Lemma slot_outcome_witness :
  fst (exec 0 (demoAttempt "ra" 2) demoAdmitted) = Ok (mkAcquire false None) ∧
  attemptEffect (NewConcurrencyCache 15 0) demoAdmitted (snd (exec 0 (demoAttempt "ra" 2) demoAdmitted))
    (accountSlotKey 7) (liveAccountSlotKey 7) (generateRequestID "ra" 2) false.
Proof.
  pose proof (slot_outcome (NewConcurrencyCache 15 0) "ra" 7 1 2 0 demoAdmitted ltac:(done)) as H. cbv zeta in H.
  change (AcquireAccountSlot (NewConcurrencyCache 15 0) "ra" 7 1 2) with (demoAttempt "ra" 2) in H.
  destruct (exec 0 (demoAttempt "ra" 2) demoAdmitted) as [r d'].
  assert (E : admitted (NewConcurrencyCache 15 0) demoAdmitted (accountSlotKey 7) (liveAccountSlotKey 7) 1 (generateRequestID "ra" 2) = false)
    by (vm_compute; reflexivity).
  rewrite E in H. destruct H as [(H1 & H2 & _) _]. split; [exact H1 | exact H2].
Defined.

(** ** Several processes *)

(** The cleanup at start knows no other process: when a second process (prefix
    "rb") starts, it removes the slot of the request that the first one still
    serves, and admits another: two requests where the limit is one.  With the
    prefix of the process itself nothing is removed. *)
Theorem second_process_exceeds_limit :
  let started p := snd (exec 0 (CleanupStaleProcessSlots (cfgCache (demoConfig p)) p [] []) demoAdmitted) in
  let next p := exec 0 (demoAttempt p 2) (started p) in
  cfgLimit (demoConfig "ra") (accountSlotKey 7) = 1 ∧
  inFlight (snd (next "rb")) (accountSlotKey 7) = 2 ∧ inFlight (snd (next "ra")) (accountSlotKey 7) = 1.
Proof. vm_compute. by split_and!. Qed.
