(* ===== verification/BatchImageQueue.v ===== *)
(** * The Redis queue of batch image jobs

    [repository/batch_image_queue.go], [service/batch_image_queue.go]: a list of
    jobs that are ready, a sorted set of delayed jobs, a sorted set of jobs in
    work, a key per job that is in the queue at all, and a lock per job.  A Lua
    script or a transaction of Redis is one function on these structures.

    Times of Redis are milliseconds ([UnixMilli]).  The names of the keys only
    keep the structures apart, which are separate fields here. *)

From S2P Require Import Prelude GoRuntime Domain AppErrors.
#[local] Open Scope Z_scope.

Definition ErrBatchImageQueueEmpty := New 404 "BATCH_IMAGE_QUEUE_EMPTY" "batch image queue is empty".
Definition ErrBatchImageAlreadyQueued := New 409 "BATCH_IMAGE_ALREADY_QUEUED" "batch image job is already queued".
Definition ErrInvalidBatchImageQueuePayload := New 400 "BATCH_IMAGE_QUEUE_INVALID_PAYLOAD" "invalid batch image queue payload".

Definition IsValidBatchImageID (batchID : string) : bool := HasPrefix batchID "imgbatch_" && (len "imgbatch_" <? len batchID).

(** [Time.UnixMilli] and [Duration.Milliseconds]. *)
Definition UnixMilli (t : Time) : Z := (t - unixToInternal * Second) / Millisecond.
Definition Milliseconds (d : Duration) : Z := goQuot d Millisecond.

(** ** The structures *)

Record batchQueue := mkQueue {
  ready : list string;                   (* the head is the left end *)
  delayed : gmap string Z;               (* member, score *)
  active : gmap string Z;
  inflight : gmap string Z;              (* job, expiry of the key *)
  jobLocks : gmap string (string * Z);   (* job, token and expiry *)
}.

Definition etaQueue (q : batchQueue) : batchQueue := mkQueue (ready q) (delayed q) (active q) (inflight q) (jobLocks q).
Definition setReady v q : batchQueue := ltac:(set_field etaQueue q ready v).
Definition setDelayed v q : batchQueue := ltac:(set_field etaQueue q delayed v).
Definition setActive v q : batchQueue := ltac:(set_field etaQueue q active v).
Definition setInflight v q : batchQueue := ltac:(set_field etaQueue q inflight v).
Definition setLocks v q : batchQueue := ltac:(set_field etaQueue q jobLocks v).

(** A key with an expiry exists until its millisecond has passed. *)
Definition live (now expiry : Z) : bool := now <=? expiry.

Definition queued (now : Z) (job : string) (q : batchQueue) : bool :=
  match inflight q !! job with Some expiry => live now expiry | None => false end.

Definition lockHolder (now : Z) (job : string) (q : batchQueue) : option string :=
  match jobLocks q !! job with Some (token, expiry) => if live now expiry then Some token else None | None => None end.

(** [ZRANGEBYSCORE key -inf max LIMIT 0 limit]: by score, then by member. *)
Definition memberBefore (x y : Z * string) : Prop :=
  x.1 < y.1 ∨ x.1 = y.1 ∧ String.leb x.2 y.2 = true.

#[global] Instance memberBefore_dec : RelDecision memberBefore.
Proof. intros x y. unfold memberBefore. apply _. Defined.

Definition rangeByScore (bound limit : Z) (zset : gmap string Z) : list string :=
  let due := filter (λ x, x.1 <= bound) ((λ kv, (kv.2, kv.1)) <$> map_to_list zset) in
  snd <$> take (Z.to_nat limit) (merge_sort memberBefore due).

(** The loop of the two moving scripts: [ZREM] from the set, [LPUSH] to the list. *)
Fixpoint moveJobs (jobs : list string) (zset : gmap string Z) (list : list string) : gmap string Z * List.list string :=
  match jobs with
  | [] => (zset, list)
  | job :: jobs => moveJobs jobs (delete job zset) (job :: list)
  end.

(** ** The scripts *)

Definition batchImageMoveDueDelayedScript (bound limit : Z) (q : batchQueue) : Z * batchQueue :=
  let jobs := rangeByScore bound limit (delayed q) in
  let '(zset, list) := moveJobs jobs (delayed q) (ready q) in
  (Z.of_nat (length jobs), setReady list (setDelayed zset q)).

Definition batchImageRecoverStaleActiveScript (bound limit : Z) (q : batchQueue) : Z * batchQueue :=
  let jobs := rangeByScore bound limit (active q) in
  let '(zset, list) := moveJobs jobs (active q) (ready q) in
  (Z.of_nat (length jobs), setReady list (setActive zset q)).

(** [RPOP]: the right end of the list. *)
Definition batchImageReserveScript (score : Z) (q : batchQueue) : option string * batchQueue :=
  match last (ready q) with
  | None => (None, q)
  | Some job => (Some job, setActive (<[job := score]> (active q)) (setReady (take (pred (length (ready q))) (ready q)) q))
  end.

(** [SET key value NX PX ttl], then [LPUSH]. *)
Definition batchImageEnqueueScript (now ttl : Z) (job : string) (q : batchQueue) : Z * batchQueue :=
  if queued now job q then (0, q)
  else (1, setReady (job :: ready q) (setInflight (<[job := now + ttl]> (inflight q)) q)).

Definition batchImageReleaseLockScript (now : Z) (job token : string) (q : batchQueue) : batchQueue :=
  if bool_decide (lockHolder now job q = Some token) then setLocks (delete job (jobLocks q)) q else q.

Definition batchImageRefreshLockScript (now : Z) (job token : string) (ttl : Z) (q : batchQueue) : batchQueue :=
  if bool_decide (lockHolder now job q = Some token) then setLocks (<[job := (token, now + ttl)]> (jobLocks q)) q else q.

(** [SetNX] with an expiry. *)
Definition setNXLock (now : Z) (job token : string) (ttl : Z) (q : batchQueue) : bool * batchQueue :=
  match lockHolder now job q with
  | Some _ => (false, q)
  | None => (true, setLocks (<[job := (token, now + ttl)]> (jobLocks q)) q)
  end.

(** ** The operations *)

Record batchImageQueueOptions := mkQueueOptions {
  ReadyKey : string;
  DelayedKey : string;
  ActiveKey : string;
  InflightPrefix : string;
  LockPrefix : string;
  InflightTTL : Duration;
  LockTTL : Duration;
}.

Definition defaultBatchImageInflightTTL : Duration := 7 * 24 * Hour.
Definition defaultBatchImageJobLockTTL : Duration := 5 * Minute.

Definition orKey (v d : string) : string := if eqs v "" then d else v.
Definition orPositive (v d : Z) : Z := if v <=? 0 then d else v.

Definition normalizeBatchImageQueueOptions (o : batchImageQueueOptions) : batchImageQueueOptions :=
  mkQueueOptions (orKey (ReadyKey o) "batch_image:queue:ready") (orKey (DelayedKey o) "batch_image:queue:delayed")
    (orKey (ActiveKey o) "batch_image:queue:active") (orKey (InflightPrefix o) "batch_image:queue:inflight:")
    (orKey (LockPrefix o) "batch_image:queue:lock:")
    (orPositive (InflightTTL o) defaultBatchImageInflightTTL) (orPositive (LockTTL o) defaultBatchImageJobLockTTL).

(** A call of the queue: the answer and the structures afterwards, at an instant. *)
Definition queueCall (X : Type) : Type := Time → batchQueue → result goError X * batchQueue.

Definition refuse {X} (e : ApplicationError) : queueCall X := λ _ q, (Err (AppErr e), q).

(** An operation on one job refuses an identifier that is not one of a job. *)
Definition onJob {X} (batchID : string) (f : queueCall X) : queueCall X :=
  if IsValidBatchImageID batchID then f else refuse ErrInvalidBatchImageQueuePayload.

Section operations.
Context (o : batchImageQueueOptions).

Definition Enqueue (batchID : string) : queueCall unit := onJob batchID (λ t q,
  let '(applied, q) := batchImageEnqueueScript (UnixMilli t) (Milliseconds (InflightTTL o)) batchID q in
  (if applied =? 0 then Err (AppErr ErrBatchImageAlreadyQueued) else Ok tt, q)).

Definition reserveOnce : queueCall string := λ t q,
  match batchImageReserveScript (UnixMilli t) q with
  | (None, q) => (Err (AppErr ErrBatchImageQueueEmpty), q)
  | (Some batchID, q) =>
      if IsValidBatchImageID batchID then (Ok batchID, q)
      else (Err (AppErr ErrInvalidBatchImageQueuePayload),
            if eqs batchID "" then q else setActive (delete batchID (active q)) q)
  end.

Definition RequeueAfter (batchID : string) (delay : Duration) : queueCall unit := onJob batchID (λ t q,
  let q := setDelayed (delete batchID (delayed q)) (setActive (delete batchID (active q)) q) in
  (Ok tt, if delay <=? 0 then setReady (batchID :: ready q) q
          else setDelayed (<[batchID := UnixMilli (Add t delay)]> (delayed q)) q)).

Definition Ack (batchID : string) : queueCall unit := onJob batchID (λ _ q,
  (Ok tt, setInflight (delete batchID (inflight q)) (setDelayed (delete batchID (delayed q)) (setActive (delete batchID (active q)) q)))).

(** [ZADD XX]: only a member that is there. *)
Definition Heartbeat (batchID : string) : queueCall unit := onJob batchID (λ t q,
  (Ok tt, if bool_decide (is_Some (active q !! batchID)) then setActive (<[batchID := UnixMilli t]> (active q)) q else q)).

Definition MoveDueDelayedToReady (limit : Z) : queueCall Z := λ t q,
  let '(n, q) := batchImageMoveDueDelayedScript (UnixMilli t) (orPositive limit 100) q in (Ok n, q).

Definition RecoverStaleActive (staleAfter : Duration) (limit : Z) : queueCall Z := λ t q,
  if staleAfter <=? 0 then (Err (AppErr ErrInvalidBatchImageQueuePayload), q) else
  let '(n, q) := batchImageRecoverStaleActiveScript (UnixMilli (Add t (- staleAfter))) (orPositive limit 100) q in (Ok n, q).

(** The lock, or [None] when it is held; [token] is drawn by the caller. *)
Definition TryAcquireJobLock (batchID token : string) (ttl : Duration) : queueCall (option string) := onJob batchID (λ t q,
  let '(ok, q) := setNXLock (UnixMilli t) batchID token (Milliseconds (orPositive ttl (LockTTL o))) q in
  (Ok (if ok then Some token else None), q)).

Definition Release (batchID token : string) : queueCall unit := λ t q,
  (Ok tt, batchImageReleaseLockScript (UnixMilli t) batchID token q).

Definition Refresh (batchID token : string) (ttl : Duration) : queueCall unit := λ t q,
  (Ok tt, batchImageRefreshLockScript (UnixMilli t) batchID token (Milliseconds (orPositive ttl defaultBatchImageJobLockTTL)) q).
End operations.

(** ** No job is lost *)

(** The job is in one of the three structures. *)
Definition present (job : string) (q : batchQueue) : Prop :=
  job ∈ ready q ∨ is_Some (delayed q !! job) ∨ is_Some (active q !! job).

(** A job that cannot be enqueued, because it counts as queued, is in the queue. *)
Definition tracked (q : batchQueue) : Prop :=
  ∀ job, is_Some (inflight q !! job) → IsValidBatchImageID job = true → present job q.

(** A change of the structures that loses none of the valid jobs. *)
Definition keepsJobs (q q' : batchQueue) : Prop :=
  ∀ job, IsValidBatchImageID job = true → present job q → present job q'.

Lemma tracked_keeps q q' :
  inflight q' = inflight q → keepsJobs q q' → tracked q → tracked q'.
Proof. intros Hi Hk Ht job Hq Hv. apply Hk; [done|]. apply Ht; [by rewrite <- Hi | done]. Qed.

Lemma moveJobs_present jobs zset list job :
  job ∈ list ∨ is_Some (zset !! job) →
  job ∈ (moveJobs jobs zset list).2 ∨ is_Some ((moveJobs jobs zset list).1 !! job).
Proof.
  revert zset list. induction jobs as [|j jobs IH]; intros zset list Hp; cbn [moveJobs]; [done|].
  apply IH. destruct Hp as [Hp|Hp]; [left; by right|]. destruct (decide (j = job)) as [->|Hn]; [left; by left|].
  right. by rewrite lookup_delete_ne.
Qed.

Lemma keeps_move bound limit q : keepsJobs q (batchImageMoveDueDelayedScript bound limit q).2.
Proof.
  intros job _ Hp. unfold batchImageMoveDueDelayedScript.
  pose proof (moveJobs_present (rangeByScore bound limit (delayed q)) (delayed q) (ready q) job) as Hm.
  destruct (moveJobs _ _ _) as [zset list]. unfold present in *. cbn in *. tauto.
Qed.

Lemma keeps_recover bound limit q : keepsJobs q (batchImageRecoverStaleActiveScript bound limit q).2.
Proof.
  intros job _ Hp. unfold batchImageRecoverStaleActiveScript.
  pose proof (moveJobs_present (rangeByScore bound limit (active q)) (active q) (ready q) job) as Hm.
  destruct (moveJobs _ _ _) as [zset list]. unfold present in *. cbn in *. tauto.
Qed.

Lemma keeps_reserve score q : keepsJobs q (batchImageReserveScript score q).2.
Proof.
  intros job _ Hp. unfold batchImageReserveScript. destruct (last (ready q)) as [j|] eqn:El; [|done].
  destruct (last_Some (ready q) j) as [H1 _]. destruct (H1 El) as [l Hl]. clear H1.
  unfold present in *. cbn. rewrite Hl, length_app in *. cbn [length].
  replace (pred (length l + 1)) with (length l) by lia. rewrite take_app_length.
  destruct Hp as [[Hp|Hp%list_elem_of_singleton]%elem_of_app|[Hp|Hp]]; [by left | | by right; left |].
  - right; right. subst. by rewrite lookup_insert_eq.
  - right; right. destruct (decide (j = job)) as [->|Hn]; [by rewrite lookup_insert_eq|]. by rewrite lookup_insert_ne.
Qed.

(** Every call keeps [tracked]; all calls but [Ack] keep the other jobs. *)
Definition keepsTracked {X} (f : queueCall X) : Prop := ∀ t q, tracked q → tracked (f t q).2.

Lemma keeps_onJob {X} batchID (f : queueCall X) :
  (IsValidBatchImageID batchID = true → keepsTracked f) → keepsTracked (onJob batchID f).
Proof. intros Hf t q Hq. unfold onJob. destruct (IsValidBatchImageID batchID); [by apply Hf | done]. Qed.

Section kept.
Context (o : batchImageQueueOptions).

Lemma kept_Enqueue batchID : keepsTracked (Enqueue o batchID).
Proof.
  apply keeps_onJob. intros _ t q Hq. unfold batchImageEnqueueScript. destruct (queued _ _ _); cbn [snd]; [done|].
  intros job Hi Hv. unfold present. cbn in *. destruct (decide (batchID = job)) as [->|Hn]; [left; by left|].
  rewrite lookup_insert_ne in Hi by done. destruct (Hq job Hi Hv) as [?|?]; [left; by right | by right].
Qed.

Lemma kept_reserveOnce : keepsTracked reserveOnce.
Proof.
  intros t q Hq. unfold reserveOnce. pose proof (keeps_reserve (UnixMilli t) q) as Hk.
  assert (Hi : inflight (batchImageReserveScript (UnixMilli t) q).2 = inflight q).
  { unfold batchImageReserveScript. by destruct (last (ready q)). }
  destruct (batchImageReserveScript _ _) as [[batchID|] q1]; cbn [snd] in *; [|by eapply tracked_keeps].
  assert (Ht : tracked q1) by by eapply tracked_keeps.
  destruct (IsValidBatchImageID batchID) eqn:Ev; cbn [snd]; [done|]. destruct (eqs batchID ""); [done|].
  apply (tracked_keeps q1); [done| |exact Ht]. intros job Hv Hp. unfold present in *. cbn.
  rewrite lookup_delete_ne by congruence. done.
Qed.

Lemma kept_RequeueAfter batchID delay : keepsTracked (RequeueAfter batchID delay).
Proof.
  apply keeps_onJob. intros _ t q Hq. apply (tracked_keeps q); [| |exact Hq]; cbn; destruct (delay <=? 0); [done..| |];
    intros job Hv Hp; unfold present in *; cbn.
  - destruct (decide (batchID = job)) as [->|Hn]; [left; by left|]. rewrite !lookup_delete_ne by done.
    destruct Hp; [left; by right | by right].
  - destruct (decide (batchID = job)) as [->|Hn]; [right; left; by rewrite lookup_insert_eq|].
    by rewrite lookup_insert_ne, !lookup_delete_ne.
Qed.

Lemma kept_Ack batchID : keepsTracked (Ack batchID).
Proof.
  apply keeps_onJob. intros _ t q Hq job Hi Hv. unfold present. cbn in *.
  destruct (decide (batchID = job)) as [->|Hn]; [by rewrite lookup_delete_eq in Hi; destruct Hi|].
  rewrite lookup_delete_ne in Hi |- * by done. rewrite lookup_delete_ne by done. by apply Hq.
Qed.

Lemma kept_Heartbeat batchID : keepsTracked (Heartbeat batchID).
Proof.
  apply keeps_onJob. intros _ t q Hq. cbn. case_bool_decide as Ha; [|done]. apply (tracked_keeps q); [done| |exact Hq].
  intros job Hv Hp. unfold present in *. cbn. destruct (decide (batchID = job)) as [->|Hn]; [|by rewrite lookup_insert_ne].
  rewrite lookup_insert_eq. naive_solver.
Qed.

Lemma kept_move limit : keepsTracked (MoveDueDelayedToReady limit).
Proof.
  intros t q Hq. unfold MoveDueDelayedToReady. pose proof (keeps_move (UnixMilli t) (orPositive limit 100) q) as Hk.
  assert (Hi : inflight (batchImageMoveDueDelayedScript (UnixMilli t) (orPositive limit 100) q).2 = inflight q).
  { unfold batchImageMoveDueDelayedScript. by destruct (moveJobs _ _ _). }
  destruct (batchImageMoveDueDelayedScript _ _ _) as [n q']. by eapply tracked_keeps.
Qed.

Lemma kept_recover staleAfter limit : keepsTracked (RecoverStaleActive staleAfter limit).
Proof.
  intros t q Hq. unfold RecoverStaleActive. destruct (staleAfter <=? 0); [done|].
  pose proof (keeps_recover (UnixMilli (Add t (- staleAfter))) (orPositive limit 100) q) as Hk.
  assert (Hi : inflight (batchImageRecoverStaleActiveScript (UnixMilli (Add t (- staleAfter))) (orPositive limit 100) q).2 = inflight q).
  { unfold batchImageRecoverStaleActiveScript. by destruct (moveJobs _ _ _). }
  destruct (batchImageRecoverStaleActiveScript _ _ _) as [n q']. by eapply tracked_keeps.
Qed.

(** The calls on locks touch nothing else. *)
Lemma kept_locks {X} (f : queueCall X) : (∀ t q, ∃ v, (f t q).2 = setLocks v q) → keepsTracked f.
Proof. intros Hf t q Hq. destruct (Hf t q) as [v ->]. apply (tracked_keeps q); [done | by intros job _ Hp | done]. Qed.

Lemma locks_same q : q = setLocks (jobLocks q) q.
Proof. by destruct q. Qed.

Lemma kept_TryAcquire batchID token ttl : keepsTracked (TryAcquireJobLock o batchID token ttl).
Proof.
  apply keeps_onJob. intros _. apply kept_locks. intros t q. unfold setNXLock.
  destruct (lockHolder _ _ _); cbn; eauto using locks_same.
Qed.

Lemma kept_Release batchID token : keepsTracked (Release batchID token).
Proof. apply kept_locks. intros t q. unfold Release, batchImageReleaseLockScript. cbn. destruct (bool_decide _); cbn; eauto using locks_same. Qed.

Lemma kept_Refresh batchID token ttl : keepsTracked (Refresh batchID token ttl).
Proof. apply kept_locks. intros t q. unfold Refresh, batchImageRefreshLockScript. cbn. destruct (bool_decide _); cbn; eauto using locks_same. Qed.
End kept.

(** A job whose worker stopped comes back: it is older than [staleAfter], and the
    limit covers the jobs in work. *)
Lemma stale_recovered t staleAfter limit q job score :
  0 < staleAfter → active q !! job = Some score → score <= UnixMilli (Add t (- staleAfter)) →
  Z.of_nat (size (active q)) <= orPositive limit 100 →
  job ∈ ready (RecoverStaleActive staleAfter limit t q).2.
Proof.
  intros Hs Ha Hold Hlim. unfold RecoverStaleActive. rewrite (proj2 (Z.leb_gt _ _)) by done.
  unfold batchImageRecoverStaleActiveScript. set (bound := UnixMilli _) in *.
  assert (Hin : job ∈ rangeByScore bound (orPositive limit 100) (active q)).
  { unfold rangeByScore. set (due := filter _ _). rewrite take_ge.
    - apply list_elem_of_fmap. exists (score, job). split; [done|]. rewrite merge_sort_Permutation. apply list_elem_of_filter.
      split; [done|]. apply list_elem_of_fmap. exists (job, score). split; [done|]. by apply elem_of_map_to_list.
    - rewrite merge_sort_Permutation. unfold due. etrans; [apply length_filter|]. rewrite length_fmap, length_map_to_list. lia. }
  assert (Hmove : ∀ jobs zset list, job ∈ jobs ∨ job ∈ list → job ∈ (moveJobs jobs zset list).2).
  { induction jobs as [|j jobs IH]; intros zset list [H|H]; cbn [moveJobs]; try done; [by apply not_elem_of_nil in H | |]; apply IH.
    - apply elem_of_cons in H as [->|H]; [right; by left | by left].
    - right; by right. }
  specialize (Hmove (rangeByScore bound (orPositive limit 100) (active q)) (active q) (ready q) (or_introl Hin)).
  by destruct (moveJobs _ _ _).
Qed.

(** While a lock is held, nobody else acquires, releases or extends it. *)
Lemma lock_excludes o t q job holder token ttl :
  IsValidBatchImageID job = true → lockHolder (UnixMilli t) job q = Some holder → token ≠ holder →
  TryAcquireJobLock o job token ttl t q = (Ok None, q) ∧ (Release job token t q).2 = q ∧ (Refresh job token ttl t q).2 = q.
Proof.
  intros Hv Hh Hn. unfold TryAcquireJobLock, onJob, setNXLock, Release, batchImageReleaseLockScript, Refresh, batchImageRefreshLockScript.
  rewrite Hv, Hh. cbn [snd]. rewrite bool_decide_false by congruence. done.
Qed.

Create HintDb queue discriminated.
#[export] Hint Resolve kept_Enqueue kept_reserveOnce kept_RequeueAfter kept_Ack kept_Heartbeat kept_move kept_recover
  kept_TryAcquire kept_Release kept_Refresh : queue.
