(* ===== verification/BatchImage.v ===== *)
(** * Batch image jobs: rows, statuses and billing commands

    [service/batch_image.go], [service/batch_image_billing_hold.go] (the
    commands) and the pure helpers of [service/batch_image_public.go] and
    [service/batch_image_processor.go].

    The struct [BatchImageJob] is split: the columns that the creation fixes
    ([BatchImageJobInfo]), those that later statements write
    ([BatchImageJobState]) and those of the hold, which the ledger writes
    ([BatchImageHold]).  A NUMERIC column holds the float64 that the driver
    reads.  The payloads of events are left out. *)

From S2P Require Import Prelude GoRuntime Domain AppErrors UsageBilling BillingDB BillingLedger BatchImageQueue.
#[local] Open Scope Z_scope.

(** ** Constants *)

Definition BatchImageProviderGeminiAPI : string := "gemini_api".
Definition BatchImageProviderVertex : string := "vertex".

Definition BatchImageJobStatusCreated : string := "created".
Definition BatchImageJobStatusUploading : string := "uploading".
Definition BatchImageJobStatusSubmitted : string := "submitted".
Definition BatchImageJobStatusRunning : string := "running".
Definition BatchImageJobStatusIndexing : string := "indexing".
Definition BatchImageJobStatusSettling : string := "settling".
Definition BatchImageJobStatusCompleted : string := "completed".
Definition BatchImageJobStatusFailed : string := "failed".
Definition BatchImageJobStatusCancelled : string := "cancelled".
Definition BatchImageJobStatusOutputDeleted : string := "output_deleted".

Definition BatchImageItemStatusPending : string := "pending".
Definition BatchImageItemStatusSuccess : string := "success".
Definition BatchImageItemStatusFailed : string := "failed".
Definition BatchImageItemStatusCancelled : string := "cancelled".

Definition ErrBatchImageJobExists := New 409 "BATCH_IMAGE_JOB_EXISTS" "batch image job already exists".
Definition ErrBatchImageItemExists := New 409 "BATCH_IMAGE_ITEM_EXISTS" "batch image item already exists".
Definition ErrBatchImageInvalidTransition := New 400 "BATCH_IMAGE_INVALID_TRANSITION" "invalid batch image job status transition".
Definition ErrBatchImageInvalidProvider := New 400 "BATCH_IMAGE_INVALID_PROVIDER" "invalid batch image provider".
Definition ErrBatchImageMissingProviderJobName := New 400 "BATCH_IMAGE_MISSING_PROVIDER_JOB_NAME" "batch image provider job name is missing".
Definition ErrBatchImageMissingAccountID := New 400 "BATCH_IMAGE_MISSING_ACCOUNT_ID" "batch image account id is missing".
Definition ErrBatchImageUnsupportedProvider := New 400 "BATCH_IMAGE_UNSUPPORTED_PROVIDER" "unsupported batch image provider".
Definition ErrBatchImageIndexOutputMissing := New 502 "BATCH_IMAGE_INDEX_OUTPUT_MISSING" "batch image provider output is missing".
Definition ErrBatchImageIndexParseFailed := New 502 "BATCH_IMAGE_INDEX_PARSE_FAILED" "batch image provider output parse failed".
Definition ErrBatchImageIndexNoResultLines := New 502 "BATCH_IMAGE_INDEX_NO_RESULT_LINES" "batch image provider output has no result lines".
Definition ErrBatchImageDuplicateCustomID := New 502 "DUPLICATE_CUSTOM_ID_IN_OUTPUT" "batch image provider output contains duplicate custom id".
Definition ErrBatchImageIndexStateConflict := New 409 "BATCH_IMAGE_INDEX_STATE_CONFLICT" "batch image job is no longer in indexing state".
Definition ErrBatchImageSettlementInvalidStatus := New 400 "BATCH_IMAGE_SETTLEMENT_INVALID_STATUS" "batch image job is not ready for settlement".
Definition ErrBatchImageSettlementManifestConflict := New 409 "BATCH_IMAGE_SETTLEMENT_MANIFEST_CONFLICT" "batch image settlement manifest hash conflict".
Definition ErrBatchImageSettlementPricingMissing := New 400 "BATCH_IMAGE_SETTLEMENT_PRICING_MISSING" "batch image settlement pricing is missing".
Definition ErrBatchImageSettlementBillingFailed := New 502 "BATCH_IMAGE_SETTLEMENT_BILLING_FAILED" "batch image settlement billing failed".
Definition ErrBatchImageAlreadySettled := New 409 "BATCH_IMAGE_ALREADY_SETTLED" "batch image job is already settled".
Definition ErrBatchImageSettlementMissingAPIKeyID := New 400 "BATCH_IMAGE_SETTLEMENT_MISSING_API_KEY_ID" "batch image settlement api key id is missing".
Definition ErrBatchImageSettlementMissingAccountID := New 400 "BATCH_IMAGE_SETTLEMENT_MISSING_ACCOUNT_ID" "batch image settlement account id is missing".
Definition ErrBatchImageSettlementInvalidCounts := New 400 "BATCH_IMAGE_SETTLEMENT_INVALID_COUNTS" "batch image settlement counts are invalid".
Definition ErrBatchImageBillingHoldFailed := New 502 "BATCH_IMAGE_BILLING_HOLD_FAILED" "batch image balance hold failed".
Definition ErrBatchImageDisabled := New 404 "BATCH_IMAGE_DISABLED" "batch image API is disabled".
Definition ErrBatchImageInvalidModel := New 400 "BATCH_IMAGE_INVALID_MODEL" "batch image model is required".
Definition ErrBatchImageInvalidItems := New 400 "BATCH_IMAGE_INVALID_ITEMS" "batch image items are invalid".
Definition ErrBatchImageDuplicateCustomIDInRequest := New 400 "BATCH_IMAGE_DUPLICATE_CUSTOM_ID" "batch image custom ids must be unique".
Definition ErrBatchImagePromptTooLong := New 400 "BATCH_IMAGE_PROMPT_TOO_LONG" "batch image prompt is too long".
Definition ErrBatchImageInvalidReferenceImage := New 400 "BATCH_IMAGE_INVALID_REFERENCE_IMAGE" "batch image reference image is invalid".
Definition ErrBatchImageTooManyReferenceImages := New 400 "BATCH_IMAGE_TOO_MANY_REFERENCE_IMAGES" "too many batch image reference images for this model".
Definition ErrBatchImageReferenceImagesTooLarge := New 400 "BATCH_IMAGE_REFERENCE_IMAGES_TOO_LARGE" "batch image reference images are too large".
Definition ErrBatchImageTooManyOutputImages := New 400 "BATCH_IMAGE_TOO_MANY_OUTPUT_IMAGES" "too many batch image output images".
Definition ErrBatchImageProviderSubmitFailed := New 502 "BATCH_IMAGE_PROVIDER_SUBMIT_FAILED" "batch image provider submit failed".
Definition ErrBatchImageQueueFailed := New 502 "BATCH_IMAGE_QUEUE_FAILED" "batch image queue failed".
Definition ErrBatchImageIdempotencyConflict := New 409 "BATCH_IMAGE_IDEMPOTENCY_CONFLICT" "idempotency key reused with different batch image request".
Definition ErrBatchImageCancelFailed := New 502 "BATCH_IMAGE_CANCEL_FAILED" "batch image cancel failed".
Definition ErrBatchImageVertexGCSBucketMissing := New 502 "BATCH_IMAGE_VERTEX_GCS_BUCKET_MISSING" "Vertex managed GCS bucket is not configured".
Definition ErrBatchImageItemNotFound := New 404 "BATCH_IMAGE_ITEM_NOT_FOUND" "batch image item not found".
Definition ErrBatchImageOutputDeleteNotReady := New 409 "BATCH_IMAGE_OUTPUT_DELETE_NOT_READY" "batch image output can only be deleted after completion".
Definition ErrBatchImageRecordDeleteNotReady := New 409 "BATCH_IMAGE_RECORD_DELETE_NOT_READY" "batch image record can only be deleted after the job finishes".
Definition ErrBatchImageCleanupFailed := New 502 "BATCH_IMAGE_CLEANUP_FAILED" "batch image cleanup failed".
Definition ErrBatchImageCleanupUnsafePath := New 400 "BATCH_IMAGE_CLEANUP_UNSAFE_PATH" "batch image cleanup path is unsafe".
Definition ErrBatchImageProviderCleanupFailed := New 502 "BATCH_IMAGE_PROVIDER_CLEANUP_FAILED" "batch image provider cleanup failed".

(** ** Rows *)

Record BatchImageJobInfo := mkJobInfo {
  ID : Z;
  BatchID : string;
  UserID : Z;
  BillingUserID : Z;
  TeamID : option Z;
  APIKeyID : option Z;
  AccountID : option Z;
  GroupID : option Z;
  BillingMode : string;
  PreferredSubscriptionID : option Z;
  Provider : string;
  Model : string;
  RequestedModel : string;
  InternalModel : string;
  TaskName : string;
  ParentBatchID : option string;
  ItemCount : Z;
  CancelledCount : Z;
  SubscriptionRateMultiplier : float64;
  BalanceRateMultiplier : float64;
  PlanGroupRateEnabled : bool;
  BaseUnitPrice : float64;
  GroupRateMultiplier : float64;
  AccountRateMultiplier : float64;
  BatchDiscountMultiplier : float64;
  HoldMultiplier : float64;
  BillableUnitPrice : float64;
  HoldUnitPrice : float64;
  PricingSnapshotVersion : Z;
  Currency : string;
  HoldID : option string;
  IdempotencyKey : option string;
  RequestHash : option string;
  SessionID : option string;
  CreatedAt : Time;
}.

Record BatchImageJobState := mkJobState {
  Status : string;
  ProviderJobName : option string;
  ProviderInputRef : option string;
  ProviderOutputRef : option string;
  GCSInputURI : option string;
  GCSOutputURI : option string;
  SuccessCount : Z;
  FailCount : Z;
  ActualCost : option float64;
  ManifestHash : option string;
  RetryCount : Z;
  Version : Z;
  OutputExpiresAt : option Time;
  InputDeletedAt : option Time;
  OutputDeletedAt : option Time;
  DownloadedAt : option Time;
  UserDeletedAt : option Time;
  LastErrorCode : option string;
  LastErrorMessage : option string;
  UpdatedAt : Time;
  SubmittedAt : option Time;
  StartedAt : option Time;
  FinishedAt : option Time;
  SettledAt : option Time;
}.

Record BatchImageHold := mkHold {
  EstimatedCost : float64;
  HoldAmount : option float64;
  BalanceHoldAmount : float64;
  SubscriptionHoldAllocations : list BillingAllocation;
  AllowanceReserved : bool;
}.

Record BatchImageJob := mkJob { info : BatchImageJobInfo; state : BatchImageJobState; hold : BatchImageHold }.

Definition etaState (s : BatchImageJobState) : BatchImageJobState :=
  mkJobState (Status s) (ProviderJobName s) (ProviderInputRef s) (ProviderOutputRef s) (GCSInputURI s) (GCSOutputURI s) (SuccessCount s) (FailCount s) (ActualCost s) (ManifestHash s) (RetryCount s) (Version s) (OutputExpiresAt s) (InputDeletedAt s) (OutputDeletedAt s) (DownloadedAt s) (UserDeletedAt s) (LastErrorCode s) (LastErrorMessage s) (UpdatedAt s) (SubmittedAt s) (StartedAt s) (FinishedAt s) (SettledAt s).
Definition SetStatus (v : string) (s : BatchImageJobState) : BatchImageJobState := ltac:(set_field etaState s Status v).
Definition SetProviderJobName (v : option string) (s : BatchImageJobState) : BatchImageJobState := ltac:(set_field etaState s ProviderJobName v).
Definition SetProviderInputRef (v : option string) (s : BatchImageJobState) : BatchImageJobState := ltac:(set_field etaState s ProviderInputRef v).
Definition SetProviderOutputRef (v : option string) (s : BatchImageJobState) : BatchImageJobState := ltac:(set_field etaState s ProviderOutputRef v).
Definition SetGCSInputURI (v : option string) (s : BatchImageJobState) : BatchImageJobState := ltac:(set_field etaState s GCSInputURI v).
Definition SetGCSOutputURI (v : option string) (s : BatchImageJobState) : BatchImageJobState := ltac:(set_field etaState s GCSOutputURI v).
Definition SetSuccessCount (v : Z) (s : BatchImageJobState) : BatchImageJobState := ltac:(set_field etaState s SuccessCount v).
Definition SetFailCount (v : Z) (s : BatchImageJobState) : BatchImageJobState := ltac:(set_field etaState s FailCount v).
Definition SetActualCost (v : option float64) (s : BatchImageJobState) : BatchImageJobState := ltac:(set_field etaState s ActualCost v).
Definition SetManifestHash (v : option string) (s : BatchImageJobState) : BatchImageJobState := ltac:(set_field etaState s ManifestHash v).
Definition SetRetryCount (v : Z) (s : BatchImageJobState) : BatchImageJobState := ltac:(set_field etaState s RetryCount v).
Definition SetVersion (v : Z) (s : BatchImageJobState) : BatchImageJobState := ltac:(set_field etaState s Version v).
Definition SetOutputExpiresAt (v : option Time) (s : BatchImageJobState) : BatchImageJobState := ltac:(set_field etaState s OutputExpiresAt v).
Definition SetInputDeletedAt (v : option Time) (s : BatchImageJobState) : BatchImageJobState := ltac:(set_field etaState s InputDeletedAt v).
Definition SetOutputDeletedAt (v : option Time) (s : BatchImageJobState) : BatchImageJobState := ltac:(set_field etaState s OutputDeletedAt v).
Definition SetDownloadedAt (v : option Time) (s : BatchImageJobState) : BatchImageJobState := ltac:(set_field etaState s DownloadedAt v).
Definition SetUserDeletedAt (v : option Time) (s : BatchImageJobState) : BatchImageJobState := ltac:(set_field etaState s UserDeletedAt v).
Definition SetLastErrorCode (v : option string) (s : BatchImageJobState) : BatchImageJobState := ltac:(set_field etaState s LastErrorCode v).
Definition SetLastErrorMessage (v : option string) (s : BatchImageJobState) : BatchImageJobState := ltac:(set_field etaState s LastErrorMessage v).
Definition SetUpdatedAt (v : Time) (s : BatchImageJobState) : BatchImageJobState := ltac:(set_field etaState s UpdatedAt v).
Definition SetSubmittedAt (v : option Time) (s : BatchImageJobState) : BatchImageJobState := ltac:(set_field etaState s SubmittedAt v).
Definition SetStartedAt (v : option Time) (s : BatchImageJobState) : BatchImageJobState := ltac:(set_field etaState s StartedAt v).
Definition SetFinishedAt (v : option Time) (s : BatchImageJobState) : BatchImageJobState := ltac:(set_field etaState s FinishedAt v).
Definition SetSettledAt (v : option Time) (s : BatchImageJobState) : BatchImageJobState := ltac:(set_field etaState s SettledAt v).

Definition withState (f : BatchImageJobState → BatchImageJobState) (job : BatchImageJob) : BatchImageJob :=
  mkJob (info job) (f (state job)) (hold job).
Definition withHold (h : BatchImageHold) (job : BatchImageJob) : BatchImageJob := mkJob (info job) (state job) h.
Definition setReserved (reserved : bool) (h : BatchImageHold) : BatchImageHold :=
  mkHold (EstimatedCost h) (HoldAmount h) (BalanceHoldAmount h) (SubscriptionHoldAllocations h) reserved.

Definition jobStatus (job : BatchImageJob) : string := Status (state job).
Definition jobID (job : BatchImageJob) : string := BatchID (info job).

(** A row of [batch_image_items] is the parameters of its insertion; the table
    of a job is the list of its rows in the order of their identifiers. *)
Record BatchImageItem := mkItem {
  JobID : string;
  CustomID : string;
  itemStatus : string;
  itemRequestHash : option string;
  PromptPreview : option string;
  ProviderSourceObject : option string;
  SourceLineNumber : option Z;
  SourceByteOffset : option Z;
  SourceByteLength : option Z;
  MimeType : option string;
  FileExtension : option string;
  ImageCount : Z;
  itemErrorCode : option string;
  itemErrorMessage : option string;
  BilledAmount : option float64;
  IndexedAt : option Time;
}.

Abbreviation CreateBatchImageItemParams := BatchImageItem.

Record BatchImageCounts := mkCounts { countSuccess : Z; countFail : Z }.

(** ** Identifiers *)

Definition hexDigit (n : N) : ascii := default Ascii.zero (String.list_ascii_of_string "0123456789abcdef" !! N.to_nat n).

(** [hex.EncodeToString]. *)
Definition hexEncode (bytes : list ascii) : string :=
  String.string_of_list_ascii (bytes ≫= λ b, [hexDigit (byteOf b / 16); hexDigit (byteOf b mod 16)]%N).

(** The bytes of [rand.Read]. *)
Definition NewBatchImageID (bytes : list ascii) : string := "imgbatch_" +:+ hexEncode bytes.

(** ** The status graph *)

Definition IsSupportedBatchImageProvider (provider : string) : bool :=
  eqs provider BatchImageProviderGeminiAPI || eqs provider BatchImageProviderVertex.

Definition IsTerminalBatchImageJobStatus (status : string) : bool :=
  eqs status BatchImageJobStatusCompleted || eqs status BatchImageJobStatusFailed
  || eqs status BatchImageJobStatusCancelled || eqs status BatchImageJobStatusOutputDeleted.

(** The map [allowed]. *)
Definition allowedTransition (from to : string) : bool :=
  if eqs from BatchImageJobStatusCreated then
    eqs to BatchImageJobStatusUploading || eqs to BatchImageJobStatusSubmitted || eqs to BatchImageJobStatusCancelled
  else if eqs from BatchImageJobStatusUploading then
    eqs to BatchImageJobStatusSubmitted || eqs to BatchImageJobStatusCancelled
  else if eqs from BatchImageJobStatusSubmitted then
    eqs to BatchImageJobStatusRunning || eqs to BatchImageJobStatusIndexing || eqs to BatchImageJobStatusFailed
    || eqs to BatchImageJobStatusCancelled
  else if eqs from BatchImageJobStatusRunning then
    eqs to BatchImageJobStatusRunning || eqs to BatchImageJobStatusIndexing || eqs to BatchImageJobStatusFailed
    || eqs to BatchImageJobStatusCancelled
  else if eqs from BatchImageJobStatusIndexing then
    eqs to BatchImageJobStatusSettling || eqs to BatchImageJobStatusFailed
  else if eqs from BatchImageJobStatusSettling then eqs to BatchImageJobStatusCompleted
  else false.

Definition CanTransitionBatchImageJob (from to : string) : bool :=
  if eqs from "" || eqs to "" then false else
  if IsTerminalBatchImageJobStatus from then
    eqs to BatchImageJobStatusOutputDeleted && negb (eqs from BatchImageJobStatusOutputDeleted)
    && (eqs from BatchImageJobStatusCompleted || eqs from BatchImageJobStatusFailed || eqs from BatchImageJobStatusCancelled)
  else if eqs to BatchImageJobStatusFailed then true
  else allowedTransition from to.

Definition isBatchImageProcessorDoneStatus (status : string) : bool :=
  eqs status BatchImageJobStatusSettling || IsTerminalBatchImageJobStatus status.

Definition PublicBatchImageStatus (status : string) : string :=
  if eqs status BatchImageJobStatusCreated || eqs status BatchImageJobStatusUploading || eqs status BatchImageJobStatusSubmitted
  then "queued"
  else if eqs status BatchImageJobStatusRunning then "running"
  else if eqs status BatchImageJobStatusIndexing then "processing_results"
  else if eqs status BatchImageJobStatusSettling then "settling"
  else if eqs status BatchImageJobStatusCompleted then "completed"
  else if eqs status BatchImageJobStatusFailed then "failed"
  else if eqs status BatchImageJobStatusCancelled then "cancelled"
  else if eqs status BatchImageJobStatusOutputDeleted then "output_deleted"
  else status.

(** ** Text helpers *)

Definition batchImageDerefString (v : option string) : string := match v with Some v => TrimSpace v | None => "" end.

Definition batchImageOptionalStringPtr (v : string) : option string :=
  let v := TrimSpace v in if eqs v "" then None else Some v.

Definition truncateBytes (limit : Z) (v : string) : string := String.substring 0 (Z.to_nat limit) v.

Definition truncateBatchImageMessage (message : string) (limit : Z) : string :=
  let message := TrimSpace message in
  if (limit <=? 0) || (len message <=? limit) then message else truncateBytes limit message.

Definition batchImageMaxErrorMessageLength : Z := 1000.
Definition maxBatchImagePublicErrorChars : Z := 500.

Definition sanitizeBatchImagePublicMessage (message : string) : string :=
  let message := TrimSpace message in
  let message := if existsb (Contains message) ["gs://"; "files/"; "projects/"] then "upstream provider operation failed"%string
                 else message in
  if maxBatchImagePublicErrorChars <? len message then truncateBytes maxBatchImagePublicErrorChars message else message.

Definition batchImageFirstNonEmptyString (values : list string) : string :=
  match List.find (λ v, negb (eqs (TrimSpace v) "")) values with Some v => TrimSpace v | None => "" end.

Definition batchImageGCSRef (provider ref : string) : string :=
  if eqs provider BatchImageProviderVertex && HasPrefix (TrimSpace ref) "gs://" then TrimSpace ref else "".

Definition batchImageRequestedModel (job : BatchImageJob) : string :=
  let requestedModel := TrimSpace (RequestedModel (info job)) in
  if eqs requestedModel "" then Model (info job) else requestedModel.

Definition batchImageInternalModel (job : BatchImageJob) : string :=
  let internalModel := TrimSpace (InternalModel (info job)) in
  if eqs internalModel "" then TrimSpace (Model (info job)) else internalModel.

(** The order of [sort.Strings]. *)
Definition stringLe (a b : string) : Prop := String.leb a b = true.
#[global] Instance stringLe_dec : RelDecision stringLe.
Proof. intros a b. unfold stringLe. apply _. Defined.

(** ** The view of the client *)

Record BatchImagePublicBatch := mkPublicBatch {
  pubID : string;
  pubTaskName : string;
  pubParentBatchID : option string;
  pubStatus : string;
  pubModel : string;
  pubProvider : string;
  pubItemCount : Z;
  pubSuccessCount : Z;
  pubFailCount : Z;
  pubEstimatedCost : float64;
  pubHoldAmount : float64;
  pubActualCost : option float64;
  pubCreatedAt : Z;
  pubSubmittedAt : option Z;
  pubSettledAt : option Z;
  pubDownloadedAt : option Z;
  pubOutputDeletedAt : option Z;
}.

(** [now.Format("2006-01-02 15:04:05")] is the argument. *)
Definition batchImagePublicTaskName (formatTaskName : Time → string) (job : BatchImageJob) : string :=
  let name := TrimSpace (TaskName (info job)) in
  if eqs name "" then formatTaskName (CreatedAt (info job)) else name.

Definition holdAmountOf (h : BatchImageHold) : float64 := default (EstimatedCost h) (HoldAmount h).

Definition BatchImageJobToPublic (formatTaskName : Time → string) (job : BatchImageJob) : BatchImagePublicBatch :=
  let i := info job in let s := state job in
  mkPublicBatch (BatchID i) (batchImagePublicTaskName formatTaskName job) (ParentBatchID i) (PublicBatchImageStatus (Status s))
    (batchImageRequestedModel job) (Provider i) (ItemCount i) (SuccessCount s) (FailCount s) (EstimatedCost (hold job))
    (holdAmountOf (hold job)) (ActualCost s) (Unix (CreatedAt i)) (Unix <$> SubmittedAt s) (Unix <$> SettledAt s)
    (Unix <$> DownloadedAt s) (Unix <$> OutputDeletedAt s).

Record BatchImagePublicError := mkPublicError { errCode : string; errMessage : string; errSource : string }.

Record BatchImagePublicItem := mkPublicItem {
  piCustomID : string;
  piStatus : string;
  piPromptPreview : option string;
  piMimeType : option string;
  piFileExtension : option string;
  piImageCount : Z;
  piError : option BatchImagePublicError;
}.

Definition batchImageItemErrorSource (item : BatchImageItem) : string :=
  match itemErrorCode item with
  | None => ""
  | Some c =>
      let code := TrimSpace c in
      if negb (eqs (batchImageDerefString (ProviderSourceObject item)) "") then "provider"
      else if eqs code "EMPTY_IMAGE_OUTPUT" || eqs code "PROVIDER_ITEM_FAILED" then "provider"
      else if eqs code "INDEX_OUTPUT_MISSING" || eqs code "INDEX_PARSE_FAILED" || eqs code "DUPLICATE_CUSTOM_ID_IN_OUTPUT"
      then "system" else ""
  end.

Definition BatchImageItemToPublic (item : BatchImageItem) : BatchImagePublicItem :=
  let view status err := mkPublicItem (CustomID item) status (PromptPreview item) (MimeType item) (FileExtension item)
                           (ImageCount item) err in
  if eqs (itemStatus item) BatchImageItemStatusPending then view "pending" None
  else if eqs (itemStatus item) BatchImageItemStatusSuccess then view "succeeded" None
  else view "failed" (Some (mkPublicError (batchImageDerefString (itemErrorCode item))
                              (sanitizeBatchImagePublicMessage (batchImageDerefString (itemErrorMessage item)))
                              (batchImageItemErrorSource item))).

(** ** Billing commands *)

Definition batchImageCaptureRequestPrefix : string := "batch_image_capture:".
Definition batchImageReleaseRequestPrefix : string := "batch_image_release:".
Definition BatchImageCaptureRequestID (batchID : string) : string := (batchImageCaptureRequestPrefix +:+ TrimSpace batchID)%string.
Definition BatchImageReleaseRequestID (batchID : string) : string := (batchImageReleaseRequestPrefix +:+ TrimSpace batchID)%string.

Definition batchImageBillingUserID (job : BatchImageJob) : Z :=
  if 0 <? BillingUserID (info job) then BillingUserID (info job) else UserID (info job).

Definition positiveID (id : option Z) : option Z := match id with Some i => if 0 <? i then Some i else None | None => None end.

Definition atLeastZero (x : float64) : float64 := if f64_lt x f64_zero then f64_zero else x.

Definition holdCommandOf (job : BatchImageJob) (apiKeyID : Z) (requestID : string) (actualAmount : float64) (payloadHash : string)
    : BatchImageBalanceHoldCommand :=
  let i := info job in let h := hold job in
  let holdAmount := atLeastZero (holdAmountOf h) in
  let actualAmount := atLeastZero actualAmount in
  let base := 2 <=? PricingSnapshotVersion i in
  let ifBase (x : float64) := if base then x else f64_zero in
  let scale := f64_mul (f64_max (AccountRateMultiplier i) f64_zero) (f64_max (HoldMultiplier i) f64_zero) in
  let settlementScale := if f64_gt (HoldMultiplier i) f64_zero
                         then f64_div (f64_max (BatchDiscountMultiplier i) f64_zero) (HoldMultiplier i) else f64_zero in
  mkHoldCommand requestID apiKeyID "" (TrimSpace payloadHash) (batchImageBillingUserID job) (UserID i) (TeamID i) None
    (BillingMode i) (PreferredSubscriptionID i) (BatchID i) holdAmount (if base then f64_zero else actualAmount)
    (if base then PricingSnapshotVersion i else 0)
    (ifBase (f64_mul (f64_max (BaseUnitPrice i) f64_zero) (f64_of_Z (Z.max (ItemCount i) 0))))
    (ifBase (f64_max actualAmount f64_zero))
    (ifBase (f64_mul (f64_max (SubscriptionRateMultiplier i) f64_zero) scale)) (ifBase scale)
    (ifBase (f64_mul (f64_max (BalanceRateMultiplier i) f64_zero) scale)) (ifBase settlementScale)
    (base && negb (PlanGroupRateEnabled i)) (BalanceHoldAmount h) (SubscriptionHoldAllocations h) (AllowanceReserved h) false
    (CreatedAt i).

Definition buildBatchImageHoldCommand (job : BatchImageJob) (requestID : string) (actualAmount : float64) (payloadHash : string)
    : result ApplicationError BatchImageBalanceHoldCommand :=
  match positiveID (APIKeyID (info job)) with
  | None => Err ErrBatchImageSettlementMissingAPIKeyID
  | Some apiKeyID => Ok (holdCommandOf job apiKeyID requestID actualAmount payloadHash)
  end.

Definition batchImageSubscriptionAllocations (allocations : list BillingAllocation) : list BillingAllocation :=
  List.filter (λ a, negb (skipped a)) allocations.
