(* ===== verification/BatchImageRequest.v ===== *)
(** * Batch image jobs: the request

    [service/batch_image_public.go]: [validateSubmitRequest] and what it calls,
    the expansion of an item into the images it asks for, the hash of a request,
    and the input of the provider.

    The limits of the configuration are a record; [now.Format] and the JSON text
    of a request are parameters. *)

From S2P Require Import Prelude GoRuntime Domain AppErrors UsageBilling BillingDB BatchImage.
#[local] Open Scope Z_scope.

Definition defaultBatchImageMaxItems : Z := 200.
Definition defaultBatchImageMaxOutputImages : Z := 200.
Definition defaultBatchImageMaxOutputCount : Z := 4.
Definition defaultBatchImageMaxPromptChars : Z := 8000.
Definition defaultBatchImageResponseMime : string := "image/png".
Definition defaultBatchImageImageSize : string := "1K".
Definition maxBatchImageReferenceImageBytes : Z := 10 * 1024 * 1024.
Definition defaultBatchImageMaxReferenceImages : Z := 1000.
Definition defaultBatchImageMaxReferenceBytes : Z := 128 * 1024 * 1024.

(** The fields of [Config.BatchImage] that the validation reads. *)
Record BatchImageLimits := mkLimits {
  MaxItemsPerJobDefault : Z;
  MaxOutputImagesPerJob : Z;
  MaxOutputImagesPerItem : Z;
  MaxPromptCharsPerItem : Z;
  MaxReferenceImagesPerJob : Z;
  MaxReferenceInlineBytesPerJob : Z;
  DefaultResponseMimeType : string;
  DefaultImageSize : string;
}.

Record BatchImageReferenceInput := mkReference {
  refID : string;
  refType : string;
  refMimeType : string;
  refData : string;
  FileURI : string;
}.

Record BatchImageSubmitItem := mkSubmitItem {
  itemCustomID : string;
  Prompt : string;
  OutputCount : Z;
  ReferenceImages : list BatchImageReferenceInput;
}.

Record BatchImageSubmitRequest := mkSubmitRequest {
  reqModel : string;
  reqTaskName : string;
  reqParentBatchID : string;
  reqProvider : string;
  Items : list BatchImageSubmitItem;
  ResponseMimeType : string;
  AspectRatio : string;
  ImageSize : string;
  reqMetadata : option (gmap string string);
  reqSessionID : option string;
}.

(** [BatchImageInput] and its items; a reference of the provider has the fields
    of the reference of the request. *)
Record BatchImageInputItem := mkInputItem {
  inCustomID : string;
  inPrompt : string;
  inReferences : list BatchImageReferenceInput;
}.

Record BatchImageInput := mkInput {
  inBatchID : string;
  inModel : string;
  inDisplayName : string;
  inItems : list BatchImageInputItem;
  inResponseMimeType : string;
  inAspectRatio : string;
  inImageSize : string;
  inMetadata : option (gmap string string);
}.

(** ** Texts *)

(** [fmt] with the verb [%0*d] on a number that is not negative. *)
Definition padZero (width : Z) (n : Z) : string :=
  let digits := Itoa n in String.concat "" (replicate (Z.to_nat (width - len digits)) "0") +:+ digits.

Definition batchImageRepeatSuffixWidth (count : Z) : Z := if count <? 10 then 2 else len (Itoa count).

(** The keys in their order; the map that is built holds at most 20. *)
Fixpoint sanitizeKeys (m : gmap string string) (keys : list string) (out : gmap string string) : gmap string string :=
  match keys with
  | [] => out
  | k :: keys =>
      let key := TrimSpace k in
      if eqs key "" || (64 <? len key) then sanitizeKeys m keys out else
      let value := TrimSpace (default "" (m !! k)) in
      let value := if 256 <? len value then truncateBytes 256 value else value in
      let out := <[key := value]> out in
      if 20 <=? Z.of_nat (size out) then out else sanitizeKeys m keys out
  end.

Definition sanitizeBatchImageMetadata (m : option (gmap string string)) : option (gmap string string) :=
  match m with
  | None => None
  | Some m => if bool_decide (m = ∅) then None else Some (sanitizeKeys m (merge_sort stringLe (map_to_list m).*1) ∅)
  end.

Class RequestJSON := {
  marshalSubmitRequest : BatchImageSubmitRequest → string;
  marshalCompositeRequest : BatchImageSubmitRequest → option Z → string;
}.

Section request.
Context `{UC : UnicodeCase} `{BT : BillingText} `{RJ : RequestJSON}.
Context (formatTaskName : Time → string) (limits : BatchImageLimits).

Definition setMetadata (m : option (gmap string string)) (req : BatchImageSubmitRequest) : BatchImageSubmitRequest :=
  mkSubmitRequest (reqModel req) (reqTaskName req) (reqParentBatchID req) (reqProvider req) (Items req) (ResponseMimeType req)
    (AspectRatio req) (ImageSize req) m (reqSessionID req).

Definition HashBatchImageSubmitRequest (req : BatchImageSubmitRequest) : string :=
  sha256Hex (marshalSubmitRequest (setMetadata (sanitizeBatchImageMetadata (reqMetadata req)) req)).

Definition hashCompositeBatchImageSubmitRequest (req : BatchImageSubmitRequest) (groupID : option Z) : string :=
  sha256Hex (marshalCompositeRequest (setMetadata (sanitizeBatchImageMetadata (reqMetadata req)) req) groupID).

(** ** Limits *)

Definition orLimit (v fallback : Z) : Z := if 0 <? v then v else fallback.
Definition maxItems : Z := orLimit (MaxItemsPerJobDefault limits) defaultBatchImageMaxItems.
Definition maxOutputImagesPerJob : Z := orLimit (MaxOutputImagesPerJob limits) defaultBatchImageMaxOutputImages.
Definition maxOutputImagesPerItem : Z := orLimit (MaxOutputImagesPerItem limits) defaultBatchImageMaxOutputCount.
Definition maxPromptChars : Z := orLimit (MaxPromptCharsPerItem limits) defaultBatchImageMaxPromptChars.
Definition maxReferenceImagesPerJob : Z := orLimit (MaxReferenceImagesPerJob limits) defaultBatchImageMaxReferenceImages.
Definition maxReferenceInlineBytesPerJob : Z := orLimit (MaxReferenceInlineBytesPerJob limits) defaultBatchImageMaxReferenceBytes.
Definition orText (v fallback : string) : string := if eqs (TrimSpace v) "" then fallback else TrimSpace v.
Definition defaultResponseMimeType : string := orText (DefaultResponseMimeType limits) defaultBatchImageResponseMime.
Definition defaultImageSize : string := orText (DefaultImageSize limits) defaultBatchImageImageSize.

Definition maxBatchImageReferenceImagesForModel (model : string) : Z :=
  let model := ToLower (TrimSpace model) in
  if Contains model "pro-image" then 14 else if Contains model "flash-image" then 3 else 0.

(** ** Reference images *)

Definition normalizeBatchImageReferenceMimeType (v : string) : string :=
  let v := ToLower (TrimSpace v) in
  if eqs v "image/jpeg" || eqs v "image/jpg" then "image/jpeg"
  else if eqs v "image/png" then "image/png"
  else if eqs v "image/webp" then "image/webp" else "".

Definition normalizeReference (ref : BatchImageReferenceInput) : result ApplicationError BatchImageReferenceInput :=
  let ref := mkReference (truncateBatchImageMessage (TrimSpace (refID ref)) 80) (truncateBatchImageMessage (TrimSpace (refType ref)) 40)
               (normalizeBatchImageReferenceMimeType (refMimeType ref)) (refData ref) (TrimSpace (FileURI ref)) in
  let data := len (refData ref) in
  if eqs (refMimeType ref) "" || (data =? 0) && eqs (FileURI ref) "" || (0 <? data) && negb (eqs (FileURI ref) "")
     || (maxBatchImageReferenceImageBytes <? data) || negb (eqs (FileURI ref) "") && negb (HasPrefix (FileURI ref) "gs://")
  then Err ErrBatchImageInvalidReferenceImage else Ok ref.

(** The references and the bytes inside of them. *)
Fixpoint normalizeReferences (inlineBytes : Z) (refs : list BatchImageReferenceInput)
    : result ApplicationError (list BatchImageReferenceInput * Z) :=
  match refs with
  | [] => Ok ([], inlineBytes)
  | ref :: refs =>
      match normalizeReference ref with
      | Err e => Err e
      | Ok ref =>
          match normalizeReferences (wrap64 (inlineBytes + len (refData ref))) refs with
          | Err e => Err e
          | Ok (out, n) => Ok (ref :: out, n)
          end
      end
  end.

Definition normalizeBatchImageReferenceInputs (model : string) (item : BatchImageSubmitItem)
    : result ApplicationError (BatchImageSubmitItem * Z * Z) :=
  if bool_decide (ReferenceImages item = []) then Ok (item, 0, 0) else
  let maxRefs := maxBatchImageReferenceImagesForModel model in
  let n := Z.of_nat (length (ReferenceImages item)) in
  if (maxRefs <=? 0) || (maxRefs <? n) then Err ErrBatchImageTooManyReferenceImages else
  match normalizeReferences 0 (ReferenceImages item) with
  | Err e => Err e
  | Ok (out, inlineBytes) =>
      Ok (mkSubmitItem (itemCustomID item) (Prompt item) (OutputCount item) out, Z.of_nat (length out), inlineBytes)
  end.

(** ** Items *)

(** The variables of the loop over the items. *)
Record expandLoop := mkExpand {
  seenIDs : gset string;
  totalReferenceImages : Z;
  totalInlineReferenceBytes : Z;
  totalOutputImages : Z;
  expandedItems : list BatchImageSubmitItem;
}.

Definition startExpand : expandLoop := mkExpand ∅ 0 0 0 [].

(** The copies [repeatIndex], ... of an item, [copies] of them. *)
Fixpoint expandCopies (item : BatchImageSubmitItem) (outputCount repeatIndex : Z) (copies : nat) (l : expandLoop)
    : result ApplicationError expandLoop :=
  match copies with
  | O => Ok l
  | S copies =>
      let customID := if 1 <? outputCount
                      then itemCustomID item +:+ "_" +:+ padZero (batchImageRepeatSuffixWidth outputCount) repeatIndex
                      else itemCustomID item in
      if bool_decide (customID ∈ seenIDs l) then Err ErrBatchImageDuplicateCustomIDInRequest else
      expandCopies item outputCount (repeatIndex + 1) copies
        (mkExpand ({[customID]} ∪ seenIDs l) (totalReferenceImages l) (totalInlineReferenceBytes l) (totalOutputImages l)
           (expandedItems l ++ [mkSubmitItem customID (Prompt item) 0 (ReferenceImages item)]))
  end.

(** The item at [index]. *)
Definition expandItem (model : string) (index : Z) (item : BatchImageSubmitItem) (l : expandLoop)
    : result ApplicationError expandLoop :=
  let customID := TrimSpace (itemCustomID item) in
  let customID := if eqs customID "" then "item_" +:+ padZero 6 (index + 1) else customID in
  let outputCount := if OutputCount item =? 0 then 1 else OutputCount item in
  if (outputCount <? 1) || (maxOutputImagesPerItem <? outputCount) then Err ErrBatchImageInvalidItems else
  let outputs := wrap64 (totalOutputImages l + outputCount) in
  if maxOutputImagesPerJob <? outputs then Err ErrBatchImageTooManyOutputImages else
  let prompt := TrimSpace (Prompt item) in
  if eqs prompt "" then Err ErrBatchImageInvalidItems else
  if maxPromptChars <? len prompt then Err ErrBatchImagePromptTooLong else
  match normalizeBatchImageReferenceInputs model (mkSubmitItem customID prompt (OutputCount item) (ReferenceImages item)) with
  | Err e => Err e
  | Ok (item, referenceCount, inlineReferenceBytes) =>
      let references := wrap64 (totalReferenceImages l + wrap64 (referenceCount * outputCount)) in
      if maxReferenceImagesPerJob <? references then Err ErrBatchImageTooManyReferenceImages else
      let inline := wrap64 (totalInlineReferenceBytes l + wrap64 (inlineReferenceBytes * outputCount)) in
      if maxReferenceInlineBytesPerJob <? inline then Err ErrBatchImageReferenceImagesTooLarge else
      expandCopies item outputCount 1 (Z.to_nat outputCount) (mkExpand (seenIDs l) references inline outputs (expandedItems l))
  end.

Fixpoint expandItems (model : string) (index : Z) (items : list BatchImageSubmitItem) (l : expandLoop)
    : result ApplicationError expandLoop :=
  match items with
  | [] => Ok l
  | item :: items => match expandItem model index item l with Ok l => expandItems model (index + 1) items l | Err e => Err e end
  end.

Definition validateSubmitRequest (now : Time) (req : BatchImageSubmitRequest) : result ApplicationError BatchImageSubmitRequest :=
  let model := TrimSpace (reqModel req) in
  let taskName := TrimSpace (reqTaskName req) in
  let provider := TrimSpace (reqProvider req) in
  if eqs model "" then Err ErrBatchImageInvalidModel else
  let taskName := if eqs taskName "" then formatTaskName now else taskName in
  let taskName := if 255 <? len taskName then truncateBatchImageMessage taskName 255 else taskName in
  if negb (eqs provider "") && negb (IsSupportedBatchImageProvider provider) then Err ErrBatchImageUnsupportedProvider else
  if bool_decide (Items req = []) || (maxItems <? Z.of_nat (length (Items req))) then Err ErrBatchImageInvalidItems else
  let mime := TrimSpace (ResponseMimeType req) in
  let mime := if eqs mime "" then defaultResponseMimeType else mime in
  let size := TrimSpace (ImageSize req) in
  let size := if eqs size "" then defaultImageSize else size in
  if negb (EqualFold size defaultBatchImageImageSize) then Err ErrBatchImageInvalidItems else
  match expandItems model 0 (Items req) startExpand with
  | Err e => Err e
  | Ok l =>
      Ok (mkSubmitRequest model taskName (TrimSpace (reqParentBatchID req)) provider (expandedItems l) mime
            (TrimSpace (AspectRatio req)) defaultBatchImageImageSize (sanitizeBatchImageMetadata (reqMetadata req)) (reqSessionID req))
  end.

(** The input of the provider. *)
Definition providerInput (batchID model : string) (req : BatchImageSubmitRequest) : BatchImageInput :=
  mkInput batchID model batchID
    ((λ item, mkInputItem (itemCustomID item) (Prompt item) (ReferenceImages item)) <$> Items req)
    (ResponseMimeType req) (AspectRatio req) (ImageSize req) (reqMetadata req).

(** ** What an accepted request satisfies *)

(** Exactly one of the data and the address, of a known type. *)
Record goodReference (ref : BatchImageReferenceInput) : Prop := {
  good_mime : refMimeType ref ∈ ["image/jpeg"; "image/png"; "image/webp"];
  good_size : len (refData ref) <= maxBatchImageReferenceImageBytes;
  good_source : refData ref ≠ "" ∧ FileURI ref = "" ∨ refData ref = "" ∧ HasPrefix (FileURI ref) "gs://" = true;
}.

Record goodItem (model : string) (item : BatchImageSubmitItem) : Prop := {
  good_prompt : Prompt item ≠ "" ∧ len (Prompt item) <= maxPromptChars;
  good_count : Z.of_nat (length (ReferenceImages item)) <= maxBatchImageReferenceImagesForModel model;
  good_references : Forall goodReference (ReferenceImages item);
}.

Definition inlineBytesOf (refs : list BatchImageReferenceInput) : Z := foldr (λ ref n, len (refData ref) + n) 0 refs.
Definition referencesOf (items : list BatchImageSubmitItem) : Z := foldr (λ item n, Z.of_nat (length (ReferenceImages item)) + n) 0 items.
Definition bytesOf (items : list BatchImageSubmitItem) : Z := foldr (λ item n, inlineBytesOf (ReferenceImages item) + n) 0 items.

Lemma len_nonneg s : 0 <= len s.
Proof. unfold len. lia. Qed.

Lemma len_zero s : len s = 0 → s = "".
Proof. destruct s; [done|]. unfold len. cbn. lia. Qed.

Lemma mime_known v : normalizeBatchImageReferenceMimeType v ≠ "" →
  normalizeBatchImageReferenceMimeType v ∈ ["image/jpeg"; "image/png"; "image/webp"].
Proof.
  unfold normalizeBatchImageReferenceMimeType. cbv zeta. repeat case_match; intros; try done; set_solver.
Qed.

Lemma normalizeReference_good ref ref' : normalizeReference ref = Ok ref' → goodReference ref'.
Proof.
  unfold normalizeReference. cbv zeta. set (r := mkReference _ _ _ _ _). destruct (_ || _) eqn:E; [done|]. intros [= <-].
  apply orb_false_iff in E as [E E5]. apply orb_false_iff in E as [E E4]. apply orb_false_iff in E as [E E3].
  apply orb_false_iff in E as [E1 E2]. apply eqs_false in E1. apply Z.ltb_ge in E4. split; [by apply mime_known | exact E4 |].
  destruct (Z.eqb_spec (len (refData r)) 0) as [Hz|Hz].
  - right. split; [by apply len_zero|]. cbn [andb] in E2. rewrite E2 in E5. cbn [negb andb] in E5. by apply negb_false_iff in E5.
  - left. split; [by intros E; rewrite E in Hz|]. pose proof (len_nonneg (refData r)).
    replace (0 <? len (refData r)) with true in E3 by (symmetry; apply Z.ltb_lt; lia). cbn [andb] in E3.
    by apply negb_false_iff, eqs_true in E3.
Qed.

Lemma inlineBytes_bounds refs :
  Forall goodReference refs → 0 <= inlineBytesOf refs <= Z.of_nat (length refs) * maxBatchImageReferenceImageBytes.
Proof.
  induction 1 as [|ref refs [_ Hs _] _ IH]; cbn [inlineBytesOf foldr length]; [lia|]. fold (inlineBytesOf refs).
  pose proof (len_nonneg (refData ref)). lia.
Qed.

Lemma normalizeReferences_good n refs out total :
  0 <= n → n + Z.of_nat (length refs) * maxBatchImageReferenceImageBytes <= 2 ^ 40 → normalizeReferences n refs = Ok (out, total) →
  Forall goodReference out ∧ length out = length refs ∧ total = n + inlineBytesOf out.
Proof.
  revert n out total. induction refs as [|ref refs IH]; intros n out total Hn Hb; cbn [normalizeReferences].
  { intros [= <- <-]. cbn. split_and!; [constructor | done | lia]. }
  destruct (normalizeReference ref) as [r|e] eqn:Er; [|done]. apply normalizeReference_good in Er as Hg.
  pose proof (good_size _ Hg) as Hsize. pose proof (len_nonneg (refData r)) as Hpos. cbn [length] in Hb.
  unfold maxBatchImageReferenceImageBytes in *. rewrite wrap64_id by (unfold in_int64, minInt64, maxInt64; lia).
  destruct (normalizeReferences _ refs) as [[out' m]|e] eqn:E; [|done]. intros [= <- <-].
  destruct (IH (n + len (refData r)) out' m ltac:(lia) ltac:(lia) E) as (H1 & H2 & H3). cbn [inlineBytesOf foldr length]. fold (inlineBytesOf out').
  split_and!; [by constructor | by rewrite H2 | lia].
Qed.

Lemma modelReferences model : 0 <= maxBatchImageReferenceImagesForModel model <= 14.
Proof. unfold maxBatchImageReferenceImagesForModel. cbv zeta. repeat case_match; lia. Qed.

Lemma normalizeInputs_good model item item' n bytes :
  normalizeBatchImageReferenceInputs model item = Ok (item', n, bytes) →
  itemCustomID item' = itemCustomID item ∧ Prompt item' = Prompt item ∧ n = Z.of_nat (length (ReferenceImages item')) ∧
  bytes = inlineBytesOf (ReferenceImages item') ∧ n <= maxBatchImageReferenceImagesForModel model ∧
  Forall goodReference (ReferenceImages item').
Proof.
  unfold normalizeBatchImageReferenceInputs. pose proof (modelReferences model) as Hm. case_bool_decide as Hr.
  { intros [= <- <- <-]. rewrite Hr. split_and!; [done..|lia|constructor]. }
  destruct (_ || _) eqn:El; [done|]. apply orb_false_iff in El as [_ El%Z.ltb_ge].
  destruct (normalizeReferences 0 _) as [[out total]|e] eqn:E; [|done]. intros [= <- <- <-]. cbn [itemCustomID Prompt ReferenceImages].
  destruct (normalizeReferences_good 0 (ReferenceImages item) out total ltac:(lia) ltac:(unfold maxBatchImageReferenceImageBytes; lia) E) as (H1 & H2 & H3).
  split_and!; [done..|lia|lia|done].
Qed.

(** Limits that the counters can hold. *)
Definition moderate : Prop :=
  maxOutputImagesPerItem <= 2 ^ 31 ∧ maxOutputImagesPerJob <= 2 ^ 31 ∧ maxReferenceImagesPerJob <= 2 ^ 31 ∧
  maxReferenceInlineBytesPerJob <= 2 ^ 31.

(** The loop so far. *)
Record expandInv (model : string) (l : expandLoop) : Prop := {
  ex_unique : NoDup (itemCustomID <$> expandedItems l);
  ex_seen : ∀ id, id ∈ itemCustomID <$> expandedItems l → id ∈ seenIDs l;
  ex_good : Forall (goodItem model) (expandedItems l);
  ex_references : referencesOf (expandedItems l) <= maxReferenceImagesPerJob;
  ex_bytes : bytesOf (expandedItems l) <= maxReferenceInlineBytesPerJob;
  ex_outputs : Z.of_nat (length (expandedItems l)) <= maxOutputImagesPerJob;
}.

(** ... and its counters between two items. *)
Definition counted (l : expandLoop) : Prop :=
  totalOutputImages l = Z.of_nat (length (expandedItems l)) ∧ totalReferenceImages l = referencesOf (expandedItems l) ∧
  totalInlineReferenceBytes l = bytesOf (expandedItems l).

Lemma orLimit_positive v fallback : 0 < fallback → 0 < orLimit v fallback.
Proof. unfold orLimit. destruct (Z.ltb_spec 0 v); lia. Qed.

Lemma startExpand_inv model : expandInv model startExpand.
Proof.
  split; cbn; [constructor | by intros ? ?%not_elem_of_nil | constructor | | |]; apply Z.lt_le_incl, orLimit_positive; done.
Qed.

Lemma referencesOf_app l item : referencesOf (l ++ [item]) = referencesOf l + Z.of_nat (length (ReferenceImages item)).
Proof. induction l as [|x l IH]; cbn [referencesOf foldr app]; [lia|]. fold (referencesOf (l ++ [item])) (referencesOf l). lia. Qed.

Lemma bytesOf_app l item : bytesOf (l ++ [item]) = bytesOf l + inlineBytesOf (ReferenceImages item).
Proof. induction l as [|x l IH]; cbn [bytesOf foldr app]; [lia|]. fold (bytesOf (l ++ [item])) (bytesOf l). lia. Qed.

Lemma expandCopies_good model item count index copies l l' :
  goodItem model item → expandCopies item count index copies l = Ok l' →
  referencesOf (expandedItems l) + Z.of_nat copies * Z.of_nat (length (ReferenceImages item)) <= maxReferenceImagesPerJob →
  bytesOf (expandedItems l) + Z.of_nat copies * inlineBytesOf (ReferenceImages item) <= maxReferenceInlineBytesPerJob →
  Z.of_nat (length (expandedItems l) + copies) <= maxOutputImagesPerJob →
  expandInv model l →
  expandInv model l' ∧ length (expandedItems l') = (length (expandedItems l) + copies)%nat ∧
  referencesOf (expandedItems l') = referencesOf (expandedItems l) + Z.of_nat copies * Z.of_nat (length (ReferenceImages item)) ∧
  bytesOf (expandedItems l') = bytesOf (expandedItems l) + Z.of_nat copies * inlineBytesOf (ReferenceImages item) ∧
  totalOutputImages l' = totalOutputImages l ∧ totalReferenceImages l' = totalReferenceImages l ∧
  totalInlineReferenceBytes l' = totalInlineReferenceBytes l.
Proof.
  intros Hg. pose proof (inlineBytes_bounds _ (good_references _ _ Hg)) as [Hbytes _].
  revert index l. induction copies as [|copies IH]; intros index l; cbn [expandCopies].
  { intros [= <-] _ _ _ Hi. split_and!; [done | lia..]. }
  set (id := if 1 <? count then _ else _). case_bool_decide as Hseen; [done|]. intros E Hrefs Hb Hn [Hu Hs Hgood _ _ _].
  set (l1 := mkExpand _ _ _ _ _) in E. set (copy := mkSubmitItem id _ _ _) in l1.
  assert (Eref : referencesOf (expandedItems l1) = referencesOf (expandedItems l) + Z.of_nat (length (ReferenceImages item))) by exact (referencesOf_app _ copy).
  assert (Ebytes : bytesOf (expandedItems l1) = bytesOf (expandedItems l) + inlineBytesOf (ReferenceImages item)) by exact (bytesOf_app _ copy).
  assert (Elen : length (expandedItems l1) = S (length (expandedItems l))) by (cbn [l1 expandedItems]; rewrite length_app; cbn; lia).
  destruct (IH _ l1 E) as (H1 & H2 & H3 & H4 & H5 & H6 & H7); [lia | lia | lia | |].
  - assert (Hids : itemCustomID <$> expandedItems l1 = (itemCustomID <$> expandedItems l) ++ [id]) by (cbn [l1 expandedItems]; by rewrite fmap_app).
    split; rewrite ?Hids; [| | | lia..].
    + apply NoDup_app. split_and!; [done| |by repeat constructor; intros ?%not_elem_of_nil].
      intros x Hx ->%list_elem_of_singleton. by apply Hseen, Hs.
    + intros x. cbn [l1 seenIDs]. rewrite elem_of_app, list_elem_of_singleton. set_solver.
    + cbn [l1 expandedItems]. apply Forall_app. split; [done|]. constructor; [|constructor]. destruct Hg. by split.
  - split_and!; [done | lia..| rewrite H5; done | rewrite H6; done | rewrite H7; done].
Qed.

Lemma referencesOf_nonneg items : 0 <= referencesOf items.
Proof. induction items as [|x items IH]; cbn [referencesOf foldr]; [lia|]. fold (referencesOf items). lia. Qed.

Lemma inlineBytesOf_nonneg refs : 0 <= inlineBytesOf refs.
Proof. induction refs as [|r refs IH]; cbn [inlineBytesOf foldr]; [lia|]. fold (inlineBytesOf refs). pose proof (len_nonneg (refData r)). lia. Qed.

Lemma bytesOf_nonneg items : 0 <= bytesOf items.
Proof.
  induction items as [|x items IH]; cbn [bytesOf foldr]; [lia|]. fold (bytesOf items). pose proof (inlineBytesOf_nonneg (ReferenceImages x)). lia.
Qed.

Lemma expandItem_good model index item l l' :
  moderate → expandInv model l → counted l → expandItem model index item l = Ok l' →
  expandInv model l' ∧ counted l' ∧ (length (expandedItems l) < length (expandedItems l'))%nat.
Proof.
  intros (Hm1 & Hm2 & Hm3 & Hm4) Hi (Hc1 & Hc2 & Hc3) E. unfold expandItem in E. cbv zeta in E.
  pose proof (referencesOf_nonneg (expandedItems l)) as Hp1. pose proof (bytesOf_nonneg (expandedItems l)) as Hp2.
  pose proof (ex_references _ _ Hi) as Hr. pose proof (ex_bytes _ _ Hi) as Hb. pose proof (ex_outputs _ _ Hi) as Ho.
  set (count := if OutputCount item =? 0 then 1 else OutputCount item) in E.
  destruct ((count <? 1) || _) eqn:E1; [done|]. apply orb_false_iff in E1 as [E1%Z.ltb_ge E1'%Z.ltb_ge].
  rewrite Hc1, Hc2, Hc3 in E. rewrite (wrap64_id (_ + count)) in E by (unfold in_int64, minInt64, maxInt64; lia).
  destruct (maxOutputImagesPerJob <? _) eqn:E2; [done|]. apply Z.ltb_ge in E2.
  destruct (eqs (TrimSpace (Prompt item)) "") eqn:E3; [done|]. apply eqs_false in E3.
  destruct (maxPromptChars <? _) eqn:E4; [done|]. apply Z.ltb_ge in E4.
  destruct (normalizeBatchImageReferenceInputs _ _) as [[[item' n] bytes]|e] eqn:E5; [|done].
  destruct (normalizeInputs_good _ _ _ _ _ E5) as (F1 & F2 & F3 & F4 & F5 & F6). pose proof (modelReferences model) as Hmodel.
  pose proof (inlineBytes_bounds _ F6) as Hbytes. unfold maxBatchImageReferenceImageBytes in Hbytes.
  assert (Hn : 0 <= n * count <= 14 * 2 ^ 31) by nia. assert (Hx : 0 <= bytes * count <= 2 ^ 59) by nia.
  rewrite (wrap64_id (n * count)), (wrap64_id (_ + n * count)) in E by (unfold in_int64, minInt64, maxInt64; lia).
  destruct (maxReferenceImagesPerJob <? _) eqn:E6; [done|]. apply Z.ltb_ge in E6.
  rewrite (wrap64_id (bytes * count)), (wrap64_id (_ + bytes * count)) in E by (unfold in_int64, minInt64, maxInt64; lia).
  destruct (maxReferenceInlineBytesPerJob <? _) eqn:E7; [done|]. apply Z.ltb_ge in E7.
  assert (Hgood : goodItem model item').
  { split; [rewrite F2; done | lia | done]. }
  set (l0 := mkExpand _ _ _ _ _) in E.
  assert (Hi0 : expandInv model l0) by (destruct Hi; by split).
  assert (Ec : Z.of_nat (Z.to_nat count) = count) by lia.
  destruct (expandCopies_good model item' count 1 (Z.to_nat count) l0 l' Hgood E) as (H1 & H2 & H3 & H4 & H5 & H6 & H7);
    [cbn [l0 expandedItems]; rewrite ?Nat2Z.inj_add, Ec, <- ?F3, <- ?F4; lia.. | done |].
  cbn [l0 expandedItems totalOutputImages totalReferenceImages totalInlineReferenceBytes] in *. rewrite Ec, <- ?F3, <- ?F4 in *.
  split; [done|]. split; [|lia]. unfold counted. rewrite H5, H6, H7. split_and!; lia.
Qed.

Lemma expandItems_good model index items l l' :
  moderate → expandInv model l → counted l → expandItems model index items l = Ok l' →
  expandInv model l' ∧ counted l' ∧ (length (expandedItems l) + length items <= length (expandedItems l'))%nat.
Proof.
  intros Hm. revert index l. induction items as [|item items IH]; intros index l Hi Hc; cbn [expandItems length].
  { intros [= <-]. split_and!; [done..|lia]. }
  destruct (expandItem model index item l) as [l1|e] eqn:E; [|done]. intros E'.
  destruct (expandItem_good _ _ _ _ _ Hm Hi Hc E) as (H1 & H2 & H3). destruct (IH _ _ H1 H2 E') as (H4 & H5 & H6). split_and!; [done..|lia].
Qed.

(** The items of an accepted request are not empty, whatever the limits. *)
(** The identifiers are distinct, whatever the counters hold. *)
Definition distinctIDs (l : expandLoop) : Prop :=
  NoDup (itemCustomID <$> expandedItems l) ∧ ∀ id, id ∈ itemCustomID <$> expandedItems l → id ∈ seenIDs l.

Lemma expandCopies_grows item count index copies l l' :
  expandCopies item count index copies l = Ok l' →
  length (expandedItems l') = (length (expandedItems l) + copies)%nat ∧ (distinctIDs l → distinctIDs l').
Proof.
  revert index l. induction copies as [|copies IH]; intros index l; cbn [expandCopies]; [intros [= <-]; split; [lia | done]|].
  case_bool_decide as Hseen; [done|]. intros E. apply IH in E as [-> Hd]. cbn [expandedItems]. rewrite length_app. split; [cbn; lia|].
  intros [Hu Hs]. apply Hd. unfold distinctIDs. cbn [expandedItems seenIDs]. rewrite fmap_app. cbn [fmap list_fmap itemCustomID]. split.
  - apply NoDup_app. split_and!; [done| |by repeat constructor; intros ?%not_elem_of_nil].
    intros x Hx ->%list_elem_of_singleton. by apply Hseen, Hs.
  - intros x. rewrite elem_of_app, list_elem_of_singleton. set_solver.
Qed.

Lemma expandItem_grows model index item l l' :
  expandItem model index item l = Ok l' →
  (length (expandedItems l) < length (expandedItems l'))%nat ∧ (distinctIDs l → distinctIDs l').
Proof.
  unfold expandItem. cbv zeta. set (count := if OutputCount item =? 0 then 1 else OutputCount item).
  destruct ((count <? 1) || _) eqn:E1; [done|]. apply orb_false_iff in E1 as [E1%Z.ltb_ge _]. clearbody count.
  do 3 (destruct (_ : bool); [done|]). destruct (normalizeBatchImageReferenceInputs _ _) as [[[item' n] bytes]|e]; [|done].
  do 2 (destruct (_ : bool); [done|]).
  intros [E Hd]%expandCopies_grows. cbn [expandedItems] in E. split; [lia | exact Hd].
Qed.

Lemma expandItems_grows model k items l l' :
  expandItems model k items l = Ok l' →
  (length (expandedItems l) + length items <= length (expandedItems l'))%nat ∧ (distinctIDs l → distinctIDs l').
Proof.
  revert k l. induction items as [|item items IH]; intros k l; cbn [expandItems length]; [intros [= <-]; split; [lia | done]|].
  destruct (expandItem _ k item l) as [l1|e] eqn:E1; [|done]. apply expandItem_grows in E1 as [? ?]. intros [? ?]%IH. split; [lia | auto].
Qed.

Lemma validate_items now req req' :
  validateSubmitRequest now req = Ok req' → Items req' ≠ [] ∧ NoDup (itemCustomID <$> Items req').
Proof.
  unfold validateSubmitRequest. cbv zeta. destruct (eqs (TrimSpace (reqModel req)) ""); [done|]. destruct (_ && _); [done|].
  destruct (bool_decide (Items req = []) || _) eqn:Ei; [done|]. apply orb_false_iff in Ei as [Ei%bool_decide_eq_false _].
  destruct (negb (EqualFold _ _)); [done|]. destruct (expandItems _ 0 _ startExpand) as [l|e] eqn:E; [|done]. intros [= <-].
  cbn [Items]. apply expandItems_grows in E as [E Hd]. split.
  - intros Hn. rewrite Hn in E. destruct (Items req); [done | cbn in E; lia].
  - apply Hd. split; [constructor | by intros ? ?%not_elem_of_nil].
Qed.

Lemma validate_nonempty now req req' : validateSubmitRequest now req = Ok req' → Items req' ≠ [].
Proof. by intros [? _]%validate_items. Qed.

End request.

(** ** Concrete requests *)

Section demo.
#[local] Existing Instance ascii_case.

Definition demoLimits : BatchImageLimits := mkLimits 10 6 3 40 4 64 "" "1K".

Definition demoRequest : BatchImageSubmitRequest :=
  mkSubmitRequest " gemini-flash-image " "" "" ""
    [mkSubmitItem "cat" " a cat " 2 [mkReference "r1" "style" "IMAGE/JPG" "abcd" ""]; mkSubmitItem "" "a dog" 0 []]
    "" "" "1k" None None.

(** The first item asks for two images, the second one takes its name from its place. *)
Example demo_request :
  match validateSubmitRequest (λ _, "task") demoLimits 0 demoRequest with
  | Ok req => itemCustomID <$> Items req = ["cat_01"; "cat_02"; "item_000002"] ∧ ResponseMimeType req = "image/png"
  | Err _ => False
  end.
Proof. vm_compute. split; reflexivity. Qed.

(** A name given twice is refused, and so is one image more than the limit. *)
Example demo_refused :
  validateSubmitRequest (λ _, "task") demoLimits 0
    (mkSubmitRequest "m" "" "" "" [mkSubmitItem "x" "p" 1 []; mkSubmitItem " x" "q" 1 []] "" "" "" None None)
    = Err ErrBatchImageDuplicateCustomIDInRequest ∧
  validateSubmitRequest (λ _, "task") demoLimits 0
    (mkSubmitRequest "m" "" "" "" [mkSubmitItem "x" "p" 3 []; mkSubmitItem "y" "q" 3 []; mkSubmitItem "z" "q" 1 []] "" "" "" None None)
    = Err ErrBatchImageTooManyOutputImages.
Proof. split; vm_compute; reflexivity. Qed.

End demo.
