(* ===== verification/BatchImageIndex.v ===== *)
(** * Batch image results: the output of the provider

    [service/batch_image_processor.go]: [ParseBatchImageResultLine] and its
    helpers, and the reconciliation of the output with the submitted items
    ([Index]; the queries around it are in [BatchImageFlow]).

    [json.Unmarshal] is an argument ([JSONDecoder]); a document is a [json] whose
    objects have no key twice. *)

From S2P Require Import Prelude GoRuntime Domain AppErrors UsageBilling BatchImageQueue BatchImage.
#[local] Open Scope Z_scope.

(** ** Documents *)

Inductive json :=
  | JNull
  | JBool (b : bool)
  | JNumber (f : float64)
  | JString (s : string)
  | JArray (l : list json)
  | JObject (fields : list (string * json)).

Abbreviation object := (list (string * json)).

Class JSONDecoder := { unmarshalObject : string → result goError object }.

(** [m[key]]; [JNull] also stands for an absent key, as [nil] does. *)
Fixpoint fieldOf (m : object) (key : string) : option json :=
  match m with
  | [] => None
  | (k, v) :: m => if eqs k key then Some v else fieldOf m key
  end.

Definition at_key (m : object) (key : string) : json := default JNull (fieldOf m key).

Definition batchImageMapString (m : object) (key : string) : string :=
  match at_key m key with
  | JString v => TrimSpace v
  | JNumber v => Itoa (f64_trunc v)
  | _ => ""
  end.

Fixpoint batchImageNestedAny (current : json) (keys : list string) : json :=
  match keys with
  | [] => current
  | key :: keys => match current with JObject m => batchImageNestedAny (at_key m key) keys | _ => JNull end
  end.

Definition batchImageNestedString (m : object) (keys : list string) : string :=
  match batchImageNestedAny (JObject m) keys with JString v => TrimSpace v | _ => "" end.

Fixpoint firstMap (values : list json) : option object :=
  match values with
  | [] => None
  | JObject m :: _ => Some m
  | _ :: values => firstMap values
  end.

(** ** One line *)

Definition BatchImageParsedStatusSucceeded : string := "succeeded".
Definition BatchImageParsedStatusFailed : string := "failed".

Record ParsedBatchImageResult := mkParsed {
  parsedCustomID : string;
  parsedStatus : string;
  parsedMimeType : string;
  parsedFileExtension : string;
  parsedImageCount : Z;
  parsedErrorCode : string;
  parsedErrorMessage : string;
  parsedLineNumber : Z;
}.

Section parse.
Context `{UnicodeCase} `{JSONDecoder}.

Definition batchImageFileExtension (mimeType : string) : string :=
  let m := ToLower (TrimSpace mimeType) in
  if eqs m "image/png" then "png" else if eqs m "image/jpeg" || eqs m "image/jpg" then "jpg"
  else if eqs m "image/webp" then "webp" else "".

(** The image of one part, if it has one: its media type. *)
Definition imagePart (part : json) : option string :=
  match part with
  | JObject part =>
      match firstMap [at_key part "inlineData"; at_key part "inline_data"] with
      | Some inline =>
          let data := TrimSpace (batchImageMapString inline "data") in
          let mime := batchImageFirstNonEmptyString [batchImageMapString inline "mimeType"; batchImageMapString inline "mime_type"] in
          if eqs data "" || negb (HasPrefix (ToLower (TrimSpace mime)) "image/") then None else Some (TrimSpace mime)
      | None => None
      end
  | _ => None
  end.

Definition partsOf (candidate : json) : list json :=
  match candidate with
  | JObject c => match batchImageNestedAny (JObject c) ["content"; "parts"] with JArray parts => parts | _ => [] end
  | _ => []
  end.

(** The number of images, and the first media type that is not empty. *)
Definition batchImageFindImagePartsInCandidates (raw : json) : Z * string :=
  match raw with
  | JArray candidates =>
      let mimes := omap imagePart (candidates ≫= partsOf) in
      (Z.of_nat (length mimes), default "" (List.find (λ m, negb (eqs m "")) mimes))
  | _ => (0, "")
  end.

Definition batchImageFindImageParts (obj : object) : Z * string :=
  let '(count, mime) := batchImageFindImagePartsInCandidates (batchImageNestedAny (JObject obj) ["response"; "candidates"]) in
  if 0 <? count then (count, mime) else batchImageFindImagePartsInCandidates (at_key obj "candidates").

Definition batchImageMapFailureCode (code message : string) : string :=
  let text := ToLower (TrimSpace (code +:+ " " +:+ message)) in
  let any := existsb (Contains text) in
  if any ["safety"; "policy"; "blocked"; "prohibited"] then "SAFETY_BLOCKED"
  else if any ["invalid_argument"; "invalid argument"; "bad request"] then "INVALID_ARGUMENT"
  else if any ["quota"; "rate"; "resource_exhausted"; "too many requests"] then "PROVIDER_RATE_LIMITED"
  else "PROVIDER_ITEM_FAILED".

(** The fields of an error object: a code and a message. *)
Definition failureFields (o : object) : string * string :=
  let message := batchImageFirstNonEmptyString [batchImageMapString o "message"; batchImageMapString o "details"] in
  let code := batchImageFirstNonEmptyString [batchImageMapString o "code"; batchImageMapString o "status"] in
  (batchImageMapFailureCode code message, message).

Definition batchImageFailureFromProviderFields (obj : object) : option (string * string) :=
  match at_key obj "status" with
  | JObject status => Some (failureFields status)
  | _ => match at_key obj "error" with JObject errObj => Some (failureFields errObj) | _ => None end
  end.

Definition batchImageHasCandidates (obj : object) : bool :=
  match fieldOf obj "candidates" with
  | Some _ => true
  | None => match batchImageNestedAny (JObject obj) ["response"; "candidates"] with JArray _ => true | _ => false end
  end.

Definition parseFailed (text : string) (causes : list goError) : goError :=
  AppErr (WithCause ErrBatchImageIndexParseFailed (Some (OtherErr text causes))).

Definition lineText (lineNumber : Z) (text : string) : string := "line " +:+ Itoa lineNumber +:+ ": " +:+ text.

Definition ParseBatchImageResultLine (line : string) (lineNumber : Z) : result goError ParsedBatchImageResult :=
  match unmarshalObject line with
  | Err e => Err (parseFailed ("line " +:+ Itoa lineNumber) [e])
  | Ok obj =>
      let customID := batchImageFirstNonEmptyString
        [batchImageMapString obj "key"; batchImageMapString obj "custom_id"; batchImageMapString obj "customId";
         batchImageNestedString obj ["request"; "key"]] in
      if eqs customID "" then Err (parseFailed (lineText lineNumber "missing custom id") []) else
      let '(imageCount, mimeType) := batchImageFindImageParts obj in
      let failed code message :=
        Ok (mkParsed customID BatchImageParsedStatusFailed "" "" 0 code message lineNumber) in
      if 0 <? imageCount then
        Ok (mkParsed customID BatchImageParsedStatusSucceeded mimeType (batchImageFileExtension mimeType) imageCount "" "" lineNumber)
      else match batchImageFailureFromProviderFields obj with
           | Some (code, message) => failed code (truncateBatchImageMessage message batchImageMaxErrorMessageLength)
           | None =>
               if bool_decide (is_Some (fieldOf obj "response")) || batchImageHasCandidates obj
               then failed "EMPTY_IMAGE_OUTPUT" "provider response contained no image output"
               else failed "PROVIDER_ITEM_FAILED" "provider result line contained no image output"
           end
  end.

(** ** The whole output *)

Record BatchImageIndexResult := mkIndexResult { resSuccessCount : Z; resFailCount : Z; resTotalCount : Z }.

(** The variables of the loop over the lines. *)
Record indexLoop := mkIndexLoop {
  lineNumber : Z;
  seen : gmap string Z;
  unknownCount : Z;
  indexed : list CreateBatchImageItemParams;
  loopResult : BatchImageIndexResult;
}.

Definition startIndex : indexLoop := mkIndexLoop 0 ∅ 0 [] (mkIndexResult 0 0 0).

Section lines.
Context (batchID source : string) (now : Time) (expected : gset string).

Definition indexedItem (parsed : ParsedBatchImageResult) : CreateBatchImageItemParams :=
  let success := eqs (parsedStatus parsed) BatchImageParsedStatusSucceeded in
  let on {A} (b : bool) (v : option A) : option A := if b then v else None in
  mkItem batchID (parsedCustomID parsed) (if success then BatchImageItemStatusSuccess else BatchImageItemStatusFailed)
    None None (batchImageOptionalStringPtr source) (Some (parsedLineNumber parsed)) None None
    (on success (batchImageOptionalStringPtr (parsedMimeType parsed)))
    (on success (batchImageOptionalStringPtr (parsedFileExtension parsed)))
    (parsedImageCount parsed)
    (on (negb success) (batchImageOptionalStringPtr (parsedErrorCode parsed)))
    (on (negb success) (batchImageOptionalStringPtr (parsedErrorMessage parsed))) None (Some now).

Definition missingItem (customID : string) : CreateBatchImageItemParams :=
  mkItem batchID customID BatchImageItemStatusFailed None None (batchImageOptionalStringPtr source) None None None None None 0
    (Some "PROVIDER_RESULT_MISSING"%string) (Some "provider output did not include a result for this item"%string) None (Some now).

Definition isSuccess (item : BatchImageItem) : bool := eqs (itemStatus item) BatchImageItemStatusSuccess.

Definition countItem (item : BatchImageItem) (r : BatchImageIndexResult) : BatchImageIndexResult :=
  if isSuccess item then mkIndexResult (resSuccessCount r + 1) (resFailCount r) (resTotalCount r + 1)
  else mkIndexResult (resSuccessCount r) (resFailCount r + 1) (resTotalCount r + 1).

Definition duplicated (customID : string) (first second : Z) : goError :=
  AppErr (WithCause ErrBatchImageDuplicateCustomID
    (Some (OtherErr ("custom id " +:+ customID +:+ " duplicated at lines " +:+ Itoa first +:+ " and " +:+ Itoa second) []))).

Definition indexLine (l : indexLoop) (text : string) : result goError indexLoop :=
  let n := lineNumber l + 1 in
  let l := mkIndexLoop n (seen l) (unknownCount l) (indexed l) (loopResult l) in
  let line := TrimSpace text in
  if eqs line "" then Ok l else
  match ParseBatchImageResultLine line n with
  | Err e => Err e
  | Ok parsed =>
      let customID := parsedCustomID parsed in
      if negb (bool_decide (expected = ∅)) && negb (bool_decide (customID ∈ expected))
      then Ok (mkIndexLoop n (seen l) (unknownCount l + 1) (indexed l) (loopResult l))
      else match seen l !! customID with
           | Some firstLine => Err (duplicated customID firstLine n)
           | None =>
               let item := indexedItem parsed in
               Ok (mkIndexLoop n (<[customID := n]> (seen l)) (unknownCount l) (indexed l ++ [item])
                     (countItem item (loopResult l)))
           end
  end.

Fixpoint indexLines (l : indexLoop) (lines : list string) : result goError indexLoop :=
  match lines with
  | [] => Ok l
  | text :: lines => match indexLine l text with Ok l => indexLines l lines | Err e => Err e end
  end.

(** The submitted items that the output does not mention, sorted; none when the
    submitted items are not known. *)
Definition missingIDs (l : indexLoop) : list string :=
  merge_sort stringLe (elements (filter (λ id, seen l !! id = None) expected)).

Definition addMissing (l : indexLoop) : indexLoop :=
  fold_left (λ l id, mkIndexLoop (lineNumber l) (seen l) (unknownCount l) (indexed l ++ [missingItem id])
                       (countItem (missingItem id) (loopResult l))) (missingIDs l) l.

(** An error of the scanner after the last line. *)
Inductive scanError :=
  | ErrUnexpectedEOF (e : goError)
  | ScanError (e : goError).

Definition scanFailure (e : scanError) : goError :=
  match e with
  | ErrUnexpectedEOF e => AppErr (WithCause ErrBatchImageIndexParseFailed (Some e))
  | ScanError e => e
  end.

(** Lines, then [scanner.Err()]. *)
Definition reconcile (lines : list string) (scanErr : option scanError) : result goError indexLoop :=
  match indexLines startIndex lines with
  | Err e => Err e
  | Ok l =>
      match scanErr with
      | Some e => Err (scanFailure e)
      | None =>
          let l := addMissing l in
          if resTotalCount (loopResult l) =? 0 then Err (AppErr ErrBatchImageIndexNoResultLines) else Ok l
      end
  end.

(** ** What the reconciliation gives *)

Definition ids (items : list BatchImageItem) : list string := CustomID <$> items.
Definition successes (items : list BatchImageItem) : Z := Z.of_nat (length (List.filter isSuccess items)).
Definition failures (items : list BatchImageItem) : Z := Z.of_nat (length (List.filter (λ i, negb (isSuccess i)) items)).

(** An item with its final status. *)
Definition finished (item : BatchImageItem) : Prop :=
  itemStatus item = BatchImageItemStatusSuccess ∨ itemStatus item = BatchImageItemStatusFailed.

Definition counted (items : list BatchImageItem) (r : BatchImageIndexResult) : Prop :=
  resSuccessCount r = successes items ∧ resFailCount r = failures items ∧ resTotalCount r = Z.of_nat (length items).

Lemma counted_app items item r : counted items r → counted (items ++ [item]) (countItem item r).
Proof.
  unfold counted, countItem, successes, failures. rewrite !List.filter_app, !length_app. cbn [List.filter length].
  intros (H1 & H2 & H3). destruct (isSuccess item) eqn:E; cbn [negb length resSuccessCount resFailCount resTotalCount]; lia.
Qed.

Lemma counted_total items r : counted items r → resSuccessCount r + resFailCount r = Z.of_nat (length items).
Proof.
  intros (-> & -> & _). unfold successes, failures. induction items as [|i items IH]; [done|].
  cbn [List.filter]. destruct (isSuccess i); cbn [negb length] in *; lia.
Qed.

(** The loop so far: each item once, of the expected ones when they are known. *)
Record indexInv (l : indexLoop) : Prop := {
  inv_nodup : NoDup (ids (indexed l));
  inv_seen : ∀ id, id ∈ ids (indexed l) ↔ is_Some (seen l !! id);
  inv_counted : counted (indexed l) (loopResult l);
  inv_final : Forall finished (indexed l);
  inv_expected : expected ≠ ∅ → ∀ id, id ∈ ids (indexed l) → id ∈ expected;
}.

Lemma indexInv_start : indexInv startIndex.
Proof.
  split; cbn; [by constructor | | done | done | by intros _ ? ?%not_elem_of_nil].
  intros id. rewrite lookup_empty. split; [by intros ?%not_elem_of_nil | by intros []].
Qed.

Lemma finished_indexed parsed : finished (indexedItem parsed).
Proof. unfold finished, indexedItem. cbn. destruct (eqs _ _); auto. Qed.

Lemma indexInv_line l text l' : indexInv l → indexLine l text = Ok l' → indexInv l'.
Proof.
  intros [Hn Hs Hc Hf He]. unfold indexLine. cbv zeta. cbn [seen unknownCount indexed loopResult].
  destruct (eqs _ _); [by intros [= <-]|].
  destruct (ParseBatchImageResultLine _ _) as [parsed|e]; [|done].
  destruct (negb _ && negb _) eqn:Ee; [by intros [= <-]|].
  destruct (seen l !! parsedCustomID parsed) as [first|] eqn:El; [done|]. intros [= <-].
  assert (Hfresh : parsedCustomID parsed ∉ ids (indexed l)) by (rewrite Hs, El; by intros []).
  assert (Hids : ids (indexed l ++ [indexedItem parsed]) = ids (indexed l) ++ [parsedCustomID parsed]) by (unfold ids; by rewrite fmap_app).
  split; cbn [seen indexed loopResult]; rewrite ?Hids.
  - apply NoDup_app. split_and!; [done | | by repeat constructor; intros ?%not_elem_of_nil].
    intros x Hx ->%list_elem_of_singleton. done.
  - intros id. rewrite elem_of_app, list_elem_of_singleton, lookup_insert_is_Some, Hs.
    split; [intros [?| ->]; [|by left] | intros [->|[_ ?]]; [by right | by left]].
    destruct (decide (parsedCustomID parsed = id)); [by left | by right].
  - by apply counted_app.
  - apply Forall_app. split; [done|]. constructor; [apply finished_indexed | done].
  - intros Hne id [Hid|Hid%list_elem_of_singleton]%elem_of_app; [by apply He|]. subst id.
    apply andb_false_iff in Ee as [Ee|Ee]; apply negb_false_iff, bool_decide_eq_true in Ee; done.
Qed.

Lemma indexInv_lines l lines l' : indexInv l → indexLines l lines = Ok l' → indexInv l'.
Proof.
  revert l. induction lines as [|text lines IH]; cbn [indexLines]; intros l Hi; [by intros [= <-]|].
  destruct (indexLine l text) as [l1|e] eqn:E; [|done]. apply IH. by eapply indexInv_line.
Qed.

(** The missing items are added, whatever order they come in. *)
Lemma addMissing_items l : indexed (addMissing l) = indexed l ++ (missingItem <$> missingIDs l).
Proof.
  unfold addMissing. generalize (missingIDs l). intros ms. revert l. induction ms as [|m ms IH]; intros l; cbn; [by rewrite app_nil_r|].
  rewrite IH. cbn [indexed]. by rewrite <- app_assoc.
Qed.

Lemma addMissing_counted l : counted (indexed l) (loopResult l) → counted (indexed (addMissing l)) (loopResult (addMissing l)).
Proof.
  unfold addMissing. generalize (missingIDs l). intros ms. revert l. induction ms as [|m ms IH]; intros l Hc; cbn [fold_left]; [done|].
  apply IH. cbn [indexed loopResult]. by apply counted_app.
Qed.

Lemma elem_of_missing l id : id ∈ missingIDs l ↔ id ∈ expected ∧ seen l !! id = None.
Proof. unfold missingIDs. rewrite merge_sort_Permutation, elem_of_elements, elem_of_filter. tauto. Qed.

Lemma missing_nodup l : NoDup (missingIDs l).
Proof. unfold missingIDs. rewrite merge_sort_Permutation. apply NoDup_elements. Qed.

(** Every item once; the counts are those of the items; when the submitted items
    are known, exactly these have a result. *)
Lemma reconcile_spec lines scanErr l :
  reconcile lines scanErr = Ok l →
  NoDup (ids (indexed l)) ∧ counted (indexed l) (loopResult l) ∧ Forall finished (indexed l) ∧ indexed l ≠ [] ∧
  (expected ≠ ∅ → ∀ id, id ∈ ids (indexed l) ↔ id ∈ expected).
Proof.
  unfold reconcile. destruct (indexLines startIndex lines) as [l0|e] eqn:E; [|done].
  destruct (indexInv_lines _ _ _ indexInv_start E) as [Hn Hs Hc Hf He]. destruct scanErr; [done|]. cbv zeta.
  destruct (resTotalCount _ =? 0) eqn:Et; [done|]. intros [= <-]. apply Z.eqb_neq in Et.
  assert (Hids : ids (indexed (addMissing l0)) = ids (indexed l0) ++ missingIDs l0).
  { rewrite addMissing_items. unfold ids. rewrite fmap_app. f_equal. rewrite <- list_fmap_compose.
    transitivity (id <$> missingIDs l0); [done | apply list_fmap_id]. }
  pose proof (addMissing_counted l0 Hc) as Hcount. rewrite Hids. split_and!; try done.
  - apply NoDup_app. split_and!; [done | | apply missing_nodup]. intros x [y Hy]%Hs [_ Hx]%elem_of_missing. congruence.
  - rewrite addMissing_items. apply Forall_app. split; [done|]. apply Forall_fmap, Forall_forall. intros x _. by right.
  - intros Hnil. destruct Hcount as (_ & _ & Htot). rewrite Hnil in Htot. done.
  - intros Hne id. rewrite elem_of_app, elem_of_missing, Hs. split.
    + intros [Hid|[? _]]; [apply He; [done | by apply Hs] | done].
    + intros Hid. destruct (seen l0 !! id) eqn:El; [left; by eexists | by right].
Qed.
End lines.
End parse.
