(* ===== verification/BatchImageDB.v ===== *)
(** * Batch image jobs: tables and statements

    [repository/batch_image_repo.go]: the tables [batch_image_jobs],
    [batch_image_items] and [batch_image_events].  The columns of the hold are
    those that the ledger writes ([BillingDB.entities]); the Redis queue is part
    of the state, too.

    A statement, or a transaction of several, is a [Transactions.transaction];
    a repository function is a program over them.  [time.Now] inside of a
    statement is the clock of the transaction. *)

From S2P Require Import Prelude GoRuntime Domain AppErrors Transactions UsageBilling BillingDB BillingLedger BatchImageQueue BatchImage BatchImageIndex.
#[local] Open Scope Z_scope.

(** ** The tables *)

(** The columns of [usage_logs] that a settlement fills in. *)
Record UsageLog := mkUsageLog {
  logUserID : Z;
  logBillingUserID : Z;
  logTeamID : option Z;
  logAPIKeyID : Z;
  logAccountID : Z;
  logRequestID : string;
  logModel : string;
  logRequestedModel : string;
  logUpstreamModel : option string;
  logModelMappingChain : option string;
  logImageCount : Z;
  logActualCost : float64;
  logSubscriptionAmountUSD : float64;
  logBalanceAmountUSD : float64;
  logBillingAllocations : list BillingAllocation;
  logSubscriptionID : option Z;
  logRateMultiplier : float64;
  logAccountRateMultiplier : float64;
  logSubscriptionBilling : bool;         (* the billing type *)
  logSessionID : option string;
  logCreatedAt : Time;
}.

(** [requested] records the custom identifiers with which a job was submitted;
    no code reads it. *)
Record batchDB := mkBatchDB {
  jobs : gmap string (BatchImageJobInfo * BatchImageJobState);
  nextJobID : Z;
  items : gmap string (list BatchImageItem);
  batchEvents : list (string * string);        (* job, event type *)
  ledger : billingDB;
  queue : batchQueue;
  usageLogs : gmap (string * Z) UsageLog;      (* by request and API key *)
  requested : gmap string (gset string);
}.

Definition etaDB (d : batchDB) : batchDB :=
  mkBatchDB (jobs d) (nextJobID d) (items d) (batchEvents d) (ledger d) (queue d) (usageLogs d) (requested d).
Definition setJobs v d : batchDB := ltac:(set_field etaDB d jobs v).
Definition setNextJobID v d : batchDB := ltac:(set_field etaDB d nextJobID v).
Definition setItems v d : batchDB := ltac:(set_field etaDB d items v).
Definition setEvents v d : batchDB := ltac:(set_field etaDB d batchEvents v).
Definition setLedger v d : batchDB := ltac:(set_field etaDB d ledger v).
Definition setQueue v d : batchDB := ltac:(set_field etaDB d queue v).
Definition setUsageLogs v d : batchDB := ltac:(set_field etaDB d usageLogs v).
Definition setRequested v d : batchDB := ltac:(set_field etaDB d requested v).

Abbreviation txn := (transaction batchDB).

(** ** Programs *)

Definition M (A : Type) : Type := Prog batchDB (result goError A).
Abbreviation P := (Prog batchDB).

Definition ok {A} (a : A) : M A := Ret (Ok a).
Definition fails {A} (e : goError) : M A := Ret (Err e).
Definition failsApp {A} (e : ApplicationError) : M A := Ret (Err (AppErr e)).
Definition andThen {A B} (m : M A) (f : A → M B) : M B :=
  bindProg (λ r, match r with Ok a => f a | Err e => fails e end) m.

Declare Scope batch_scope.
Delimit Scope batch_scope with batch.
Notation "'let*' x ':=' m 'in' f" := (andThen m (λ x, f))
  (at level 200, x name, m at level 100, f at level 200, right associativity) : batch_scope.
Notation "'do*' m 'in' f" := (andThen m (λ _, f))
  (at level 200, m at level 100, f at level 200, right associativity) : batch_scope.
(** Run [m] and ignore its answer. *)
Notation "'run' m 'in' f" := (bindProg (λ _, f) m)
  (at level 200, m at level 100, f at level 200, right associativity) : batch_scope.
#[global] Open Scope batch_scope.

Definition dbGoError (e : dbError) : goError :=
  match e with RowNotFound => OtherErr "sql: no rows in result set" [] | DBError text => OtherErr text [] end.

(** A statement whose error is passed on. *)
Definition query {X} (f : txn X) : M X :=
  Query f (λ r, match r with Ok x => ok x | Err e => fails (dbGoError e) end).

(** [translatePersistenceError] with a business error for a missing row. *)
Definition queryFound {X} (notFound : ApplicationError) (f : txn X) : M X :=
  Query f (λ r, match r with
                | Ok x => ok x
                | Err RowNotFound => failsApp (WithCause notFound (Some (dbGoError RowNotFound)))
                | Err e => fails (dbGoError e)
                end).

(** A transaction that may also end with an error of the application. *)
Definition transact {X} (f : txn (result goError X)) : M X :=
  Query f (λ r, match r with Ok r => Ret r | Err e => fails (dbGoError e) end).

(** A call of the queue, and a call of the ledger. *)
Definition redis {X} (f : queueCall X) : M X :=
  transact (λ t d, let '(r, q) := f t (queue d) in (Ok r, setQueue q d)).

Section statements.
Context `{UnicodeCase} `{BillingText} `{SQLNumeric} `{Calendar} `{SQLCalendar} `{GoWeek}.

Definition holdCall (w : retryWorld) (operation : batchImageAllowanceOperation) (c : BatchImageBalanceHoldCommand)
    : M BatchImageBalanceHoldResult :=
  transact (λ t d,
    let '(r, l) := applyBatchImageBalanceHold t t w operation c (ledger d) in
    (Ok (match r with Ok (x, _) => Ok x | Err e => Err e end), setLedger l d)).

(** ** Reading *)

Definition read10 (v : Z) : float64 := sqlScan (col10 v).

Definition holdOf (e : entityRow) : BatchImageHold :=
  mkHold (read10 (entEstimated e)) (read10 <$> entHold e) (read10 (entBalanceHold e)) (entAllocations e) (entAllowanceReserved e).

(** The row of a job with the columns of its hold. *)
Definition jobRow (d : batchDB) (batchID : string) : option BatchImageJob :=
  match jobs d !! batchID, entities (ledger d) !! (false, batchID) with
  | Some (i, s), Some e => Some (mkJob i s (holdOf e))
  | _, _ => None
  end.

Definition reading {X} (f : Time → batchDB → result dbError X) : txn X := λ t d, (f t d, d).
Definition found {X} (o : option X) : result dbError X := match o with Some x => Ok x | None => Err RowNotFound end.

(** The rows of the table that satisfy a condition, in the order of [id]. *)
Definition byID (x y : BatchImageJob) : Prop := ID (info x) <= ID (info y).
#[local] Instance byID_dec : RelDecision byID.
Proof. intros x y. unfold byID. apply _. Defined.

Definition selectJobs (cond : BatchImageJob → bool) (d : batchDB) : list BatchImageJob :=
  merge_sort byID (List.filter cond (omap (λ kv, jobRow d kv.1) (map_to_list (jobs d)))).

Definition GetBatchImageJobByBatchID (batchID : string) : M BatchImageJob :=
  queryFound ErrBatchImageJobNotFound (reading (λ _ d, found (jobRow d batchID))).

Definition ownedBy (userID apiKeyID : Z) (job : BatchImageJob) : bool :=
  (UserID (info job) =? userID) && bool_decide (APIKeyID (info job) = Some apiKeyID).

(** The newest row with the key. *)
Definition GetBatchImageJobByIdempotencyKey (userID apiKeyID : Z) (key : string) : M BatchImageJob :=
  queryFound ErrBatchImageJobNotFound (reading (λ _ d,
    found (last (selectJobs (λ job, ownedBy userID apiKeyID job && bool_decide (IdempotencyKey (info job) = Some key)) d)))).

Definition GetBatchImageJobByBatchIDForOwner (userID apiKeyID : Z) (batchID : string) : M BatchImageJob :=
  queryFound ErrBatchImageJobNotFound (reading (λ _ d,
    found (job ← jobRow d batchID;
           if ownedBy userID apiKeyID job && bool_decide (UserDeletedAt (state job) = None) then Some job else None))).

Definition clampLimit (limit upper fallback : Z) : nat := Z.to_nat (if (limit <=? 0) || (upper <? limit) then fallback else limit).

Record BatchImageItemFilter := mkItemFilter { filterStatus : string; filterLimit : Z; filterOffset : Z }.

Definition itemsOf (d : batchDB) (batchID : string) : list BatchImageItem := default [] (items d !! batchID).

Definition ListBatchImageItems (batchID : string) (f : BatchImageItemFilter) : M (list BatchImageItem) :=
  query (reading (λ _ d,
    let rows := List.filter (λ i, eqs (filterStatus f) "" || eqs (itemStatus i) (filterStatus f)) (itemsOf d batchID) in
    Ok (take (clampLimit (filterLimit f) 500 100) (drop (Z.to_nat (Z.max (filterOffset f) 0)) rows)))).

Definition firstTime (l : list (option Time)) : option Time := List.find (λ _, true) (omap id l).

Definition dueForInput (cutoff : Time) (job : BatchImageJob) : bool :=
  let s := state job in
  bool_decide (InputDeletedAt s = None) && bool_decide (is_Some (ProviderInputRef s)) && IsTerminalBatchImageJobStatus (Status s)
  && match firstTime [FinishedAt s; SettledAt s; Some (UpdatedAt s)] with Some t => t <=? cutoff | None => false end.

Definition ListBatchImageJobsDueForInputCleanup (cutoff : Time) (limit : Z) : M (list BatchImageJob) :=
  query (reading (λ _ d, Ok (take (clampLimit limit 1000 100) (selectJobs (dueForInput cutoff) d)))).

Definition dueForOutput (now : Time) (job : BatchImageJob) : bool :=
  let s := state job in
  bool_decide (OutputDeletedAt s = None) && bool_decide (is_Some (ProviderOutputRef s)) && eqs (Status s) BatchImageJobStatusCompleted
  && match OutputExpiresAt s with Some t => t <=? now | None => false end.

Definition unsubmitted (s : BatchImageJobState) : bool :=
  eqs (Status s) BatchImageJobStatusCreated || eqs (Status s) BatchImageJobStatusUploading.

Definition staleUnsubmitted (cutoff : Time) (job : BatchImageJob) : bool :=
  let s := state job in
  unsubmitted s && bool_decide (ProviderJobName s = None) && f64_gt (holdAmountOf (hold job)) f64_zero && (UpdatedAt s <=? cutoff).

Definition byExpiry (x y : BatchImageJob) : Prop :=
  default 0 (OutputExpiresAt (state x)) <= default 0 (OutputExpiresAt (state y)).
#[local] Instance byExpiry_dec : RelDecision byExpiry.
Proof. intros x y. unfold byExpiry. apply _. Defined.

Definition byUpdate (x y : BatchImageJob) : Prop := UpdatedAt (state x) <= UpdatedAt (state y).
#[local] Instance byUpdate_dec : RelDecision byUpdate.
Proof. intros x y. unfold byUpdate. apply _. Defined.

Definition ListBatchImageJobsDueForOutputCleanup (now : Time) (limit : Z) : M (list BatchImageJob) :=
  query (reading (λ _ d, Ok (take (clampLimit limit 1000 100) (merge_sort byExpiry (selectJobs (dueForOutput now) d))))).

Definition ListStaleUnsubmittedBatchImageJobs (cutoff : Time) (limit : Z) : M (list BatchImageJob) :=
  query (reading (λ _ d, Ok (take (clampLimit limit 1000 100) (merge_sort byUpdate (selectJobs (staleUnsubmitted cutoff) d))))).

(** ** Statements on jobs *)

Definition putJob (batchID : string) (i : BatchImageJobInfo) (s : BatchImageJobState) (d : batchDB) : batchDB :=
  setJobs (<[batchID := (i, s)]> (jobs d)) d.

(** [UPDATE ... WHERE batch_id = $1 AND cond]: the number of rows. *)
Definition jobUpdate (batchID : string) (cond : BatchImageJobInfo → BatchImageJobState → bool)
    (set : Time → BatchImageJobState → BatchImageJobState) : txn Z := λ t d,
  match jobs d !! batchID with
  | Some (i, s) => if cond i s then (Ok 1, putJob batchID i (set t s) d) else (Ok 0, d)
  | None => (Ok 0, d)
  end.

Definition always (i : BatchImageJobInfo) (s : BatchImageJobState) : bool := true.

(** The foreign key of [batch_image_events] and of [batch_image_items]. *)
Definition eventInsert (batchID eventType : string) : txn unit := λ _ d,
  if bool_decide (is_Some (jobs d !! batchID)) then (Ok tt, setEvents ((batchID, eventType) :: batchEvents d) d)
  else (Err (DBError "foreign key violation"), d).

Definition AppendBatchImageEvent (batchID eventType : string) : M unit := query (eventInsert batchID eventType).

(** A statement, then its event in a statement of its own. *)
Definition thenEvent (batchID eventType : string) {A} (m : M A) : M unit :=
  do* m in AppendBatchImageEvent batchID eventType.

(** [CASE WHEN old IS NULL THEN now ELSE old END], under a condition. *)
Definition stampIf (cond : bool) (now : Time) (old : option Time) : option Time :=
  if cond then Some (default now old) else old.

Definition bumpVersion (s : BatchImageJobState) : BatchImageJobState := SetVersion (Version s + 1) s.

Record BatchImageTransitionOptions := mkTransitionOptions {
  EventType : string;
  ErrorCode : option string;
  ErrorMessage : option string;
  Now : option Time;
}.

Definition eventOnly (eventType : string) : BatchImageTransitionOptions := mkTransitionOptions eventType None None None.

Definition transitionState (toStatus : string) (opts : BatchImageTransitionOptions) (now : Time) (s : BatchImageJobState)
    : BatchImageJobState :=
  let to_ status := eqs toStatus status in
  let failed := to_ BatchImageJobStatusFailed in
  let s := bumpVersion (SetUpdatedAt now (SetStatus toStatus s)) in
  let s := SetLastErrorMessage (if failed then ErrorMessage opts else LastErrorMessage s)
             (SetLastErrorCode (if failed then ErrorCode opts else LastErrorCode s) s) in
  let s := SetStartedAt (stampIf (to_ BatchImageJobStatusRunning) now (StartedAt s))
             (SetSubmittedAt (stampIf (to_ BatchImageJobStatusSubmitted) now (SubmittedAt s)) s) in
  let s := SetFinishedAt (stampIf (to_ BatchImageJobStatusCompleted || failed || to_ BatchImageJobStatusCancelled) now (FinishedAt s)) s in
  SetOutputDeletedAt (stampIf (to_ BatchImageJobStatusOutputDeleted) now (OutputDeletedAt s))
    (SetSettledAt (stampIf (to_ BatchImageJobStatusCompleted) now (SettledAt s)) s).

Definition jobNotFound {X} : result goError X := Err (AppErr (WithCause ErrBatchImageJobNotFound (Some (dbGoError RowNotFound)))).

Definition TransitionBatchImageJobStatus (batchID toStatus : string) (opts : BatchImageTransitionOptions) : M unit :=
  transact (λ t d,
    match jobs d !! batchID with
    | None => (Ok jobNotFound, d)
    | Some (i, s) =>
        if negb (CanTransitionBatchImageJob (Status s) toStatus) then (Ok (Err (AppErr ErrBatchImageInvalidTransition)), d) else
        let d := putJob batchID i (transitionState toStatus opts (default t (Now opts)) s) d in
        (Ok (Ok tt), if eqs (EventType opts) "" then d else setEvents ((batchID, EventType opts) :: batchEvents d) d)
    end).

Definition TouchBatchImageJobSubmitting (batchID : string) : M unit :=
  do* query (jobUpdate batchID (λ _ s, unsubmitted s) SetUpdatedAt) in ok tt.

(** The answer: whether the job was failed, and the error of its event. *)
Definition failStale (code message : string) (now : Time) (s : BatchImageJobState) : BatchImageJobState :=
  bumpVersion (SetUpdatedAt now (SetFinishedAt (stampIf true now (FinishedAt s))
    (SetLastErrorMessage (Some message) (SetLastErrorCode (Some code) (SetStatus BatchImageJobStatusFailed s))))).

Definition FailStaleUnsubmittedBatchImageJob (batchID : string) (cutoff : Time) (code message : string) : P (bool * option goError) :=
  bindProg (λ r,
    match r with
    | Err e => Ret (false, Some e)
    | Ok affected =>
        if affected =? 0 then Ret (false, None) else
        bindProg (λ r, Ret (true, match r with Ok _ => None | Err e => Some e end))
          (AppendBatchImageEvent batchID "billing_hold_recovery_failed_unsubmitted")
    end)
    (query (jobUpdate batchID
       (λ _ s, unsubmitted s && bool_decide (ProviderJobName s = None) && (UpdatedAt s <=? cutoff)) (failStale code message))).

Definition orNotFound (m : M Z) : M unit :=
  let* affected := m in if affected =? 0 then failsApp ErrBatchImageJobNotFound else ok tt.

Definition UpdateBatchImageJobProviderOutputRef (batchID ref : string) : M unit :=
  orNotFound (query (jobUpdate batchID always (λ t s, SetUpdatedAt t (SetProviderOutputRef (Some ref) s)))).

Record UpdateBatchImageJobProviderSubmitParams := mkProviderSubmit {
  psBatchID : string;
  psProviderJobName : string;
  psProviderInputRef : string;
  psProviderOutputRef : string;
  psGCSInputURI : string;
  psGCSOutputURI : string;
}.

Definition nullIfEmpty (v : string) : option string := if eqs v "" then None else Some v.

Definition submitState (p : UpdateBatchImageJobProviderSubmitParams) (now : Time) (s : BatchImageJobState) : BatchImageJobState :=
  bumpVersion (SetUpdatedAt now (SetSubmittedAt (stampIf true now (SubmittedAt s))
    (SetGCSOutputURI (nullIfEmpty (psGCSOutputURI p)) (SetGCSInputURI (nullIfEmpty (psGCSInputURI p))
    (SetProviderOutputRef (nullIfEmpty (psProviderOutputRef p)) (SetProviderInputRef (nullIfEmpty (psProviderInputRef p))
    (SetProviderJobName (Some (psProviderJobName p)) (SetStatus BatchImageJobStatusSubmitted s)))))))).

Definition UpdateBatchImageJobProviderSubmit (p : UpdateBatchImageJobProviderSubmitParams) : M unit :=
  transact (λ t d,
    match jobs d !! psBatchID p with
    | None => (Ok jobNotFound, d)
    | Some (i, s) =>
        if negb (CanTransitionBatchImageJob (Status s) BatchImageJobStatusSubmitted)
        then (Ok (Err (AppErr ErrBatchImageInvalidTransition)), d) else
        let d := putJob (psBatchID p) i (submitState p t s) d in
        (Ok (Ok tt), setEvents ((psBatchID p, "provider_submitted"%string) :: batchEvents d) d)
    end).

Definition submitFailure (code message : string) (markFailed : bool) (now : Time) (s : BatchImageJobState) : BatchImageJobState :=
  let status := if markFailed then BatchImageJobStatusFailed else Status s in
  bumpVersion (SetUpdatedAt now (SetFinishedAt (stampIf (eqs status BatchImageJobStatusFailed) now (FinishedAt s))
    (SetLastErrorMessage (Some message) (SetLastErrorCode (Some code) (SetStatus status s))))).

Definition RecordBatchImageJobSubmitFailure (batchID code message : string) (markFailed : bool) : M unit :=
  thenEvent batchID (if markFailed then "submit_failed" else "queue_failed")
    (query (jobUpdate batchID always (submitFailure code message markFailed))).

Record MarkBatchImageJobSettledParams := mkSettledParams {
  msBatchID : string;
  msActualCost : float64;
  msManifestHash : string;
  msNow : option Time;
  msOutputExpiresAt : option Time;
}.

(** What the driver reads after a value was stored in a DECIMAL(20,10) column. *)
Definition stored10 (x : float64) : option float64 := (λ q, read10 (store10 q)) <$> sqlParam x.

Definition settledState (p : MarkBatchImageJobSettledParams) (cost : float64) (now : Time) (s : BatchImageJobState) : BatchImageJobState :=
  bumpVersion (SetUpdatedAt now (SetOutputExpiresAt (match OutputExpiresAt s with None => msOutputExpiresAt p | Some t => Some t end)
    (SetFinishedAt (stampIf true now (FinishedAt s)) (SetSettledAt (stampIf true now (SettledAt s))
    (SetManifestHash (Some (msManifestHash p)) (SetActualCost (Some cost) (SetStatus BatchImageJobStatusCompleted s))))))).

Definition manifestFits (hash : string) (s : BatchImageJobState) : bool :=
  match ManifestHash s with None => true | Some h => eqs h "" || eqs h hash end.

Definition MarkBatchImageJobSettled (p : MarkBatchImageJobSettledParams) : M unit :=
  transact (λ t d,
    match stored10 (msActualCost p), jobs d !! msBatchID p with
    | None, _ => (Err (DBError "numeric"), d)
    | Some _, None => (Ok jobNotFound, d)
    | Some cost, Some (i, s) =>
        if eqs (Status s) BatchImageJobStatusSettling && manifestFits (msManifestHash p) s then
          let d := putJob (msBatchID p) i (settledState p cost (default t (msNow p)) s) d in
          (Ok (Ok tt), setEvents ((msBatchID p, "settlement_completed"%string) :: batchEvents d) d)
        else
          let e := if eqs (Status s) BatchImageJobStatusSettling then ErrBatchImageSettlementManifestConflict
                   else if eqs (Status s) BatchImageJobStatusCompleted then ErrBatchImageAlreadySettled
                   else ErrBatchImageSettlementInvalidStatus in
          (Ok (Err (AppErr e)), d)
    end).

Definition recordFailure (code message : string) (now : Time) (s : BatchImageJobState) : BatchImageJobState :=
  SetUpdatedAt now (SetRetryCount (RetryCount s + 1) (SetLastErrorMessage (Some message) (SetLastErrorCode (Some code) s))).

(** [UPDATE ... RETURNING retry_count], then the event. *)
Definition SetBatchImageJobSettlementFailed (batchID code message : string) : M Z :=
  let* retryCount := transact (λ t d,
    match jobs d !! batchID with
    | None => (Ok jobNotFound, d)
    | Some (i, s) => (Ok (Ok (RetryCount s + 1)), putJob batchID i (recordFailure code message t s) d)
    end) in
  do* AppendBatchImageEvent batchID "settlement_failed" in ok retryCount.

Definition MarkBatchImageInputDeleted (batchID : string) (deletedAt : Time) : M unit :=
  thenEvent batchID "input_cleanup_completed" (orNotFound (query (jobUpdate batchID always (λ _ s,
    bumpVersion (SetUpdatedAt deletedAt (SetInputDeletedAt (stampIf true deletedAt (InputDeletedAt s)) s)))))).

Definition MarkBatchImageOutputDeleted (batchID : string) (deletedAt : Time) : M unit :=
  thenEvent batchID "output_cleanup_completed" (orNotFound (query (jobUpdate batchID always (λ _ s,
    let completed := eqs (Status s) BatchImageJobStatusCompleted in
    bumpVersion (SetUpdatedAt deletedAt (SetFinishedAt (stampIf completed deletedAt (FinishedAt s))
      (SetOutputDeletedAt (stampIf true deletedAt (OutputDeletedAt s))
      (SetStatus (if completed then BatchImageJobStatusOutputDeleted else Status s) s)))))))).

Definition MarkBatchImageDownloaded (batchID : string) (downloadedAt : Time) : M unit :=
  thenEvent batchID "download_completed" (orNotFound (query (jobUpdate batchID always (λ _ s,
    SetUpdatedAt downloadedAt (SetDownloadedAt (stampIf true downloadedAt (DownloadedAt s)) s))))).

Definition MarkBatchImageJobUserDeleted (userID apiKeyID : Z) (batchID : string) (deletedAt : Time) : M unit :=
  let* affected := query (jobUpdate batchID
    (λ i s, (UserID i =? userID) && bool_decide (APIKeyID i = Some apiKeyID) && bool_decide (UserDeletedAt s = None)
            && IsTerminalBatchImageJobStatus (Status s))
    (λ _ s, SetUpdatedAt deletedAt (SetUserDeletedAt (Some deletedAt) s))) in
  if affected =? 0 then failsApp ErrBatchImageRecordDeleteNotReady else AppendBatchImageEvent batchID "user_record_deleted".

Definition RecordBatchImageCleanupFailure (batchID code message : string) : M unit :=
  thenEvent batchID "output_cleanup_failed" (query (jobUpdate batchID always (recordFailure code message))).

(** [usageLogRepo.Create]: [ON CONFLICT (request_id, api_key_id) DO NOTHING]. *)
Definition createUsageLog (l : UsageLog) : txn unit := λ _ d,
  let key := (logRequestID l, logAPIKeyID l) in
  (Ok tt, match usageLogs d !! key with Some _ => d | None => setUsageLogs (<[key := l]> (usageLogs d)) d end).

Definition writeUsageLogBestEffort (l : UsageLog) : P unit := Query (createUsageLog l) (λ _, Ret tt).

(** ** The creation of a job *)

Definition units4 : positive := 10000.
Definition read4 (v : Z) : float64 := sqlScan (v # units4).
Definition stored4 (x : float64) : option float64 :=
  (λ q, read4 (roundHalfAway (q * inject_Z (Zpos units4)))) <$> sqlParam x.

(** The fixed columns as they are read back: a serial, the time of the database,
    numbers with the digits of their columns. *)
Definition insertedInfo (id : Z) (now : Time) (i : BatchImageJobInfo) : option BatchImageJobInfo :=
  subscriptionRate ← stored10 (SubscriptionRateMultiplier i);
  balanceRate ← stored10 (BalanceRateMultiplier i);
  basePrice ← stored10 (BaseUnitPrice i);
  groupRate ← stored4 (GroupRateMultiplier i);
  accountRate ← stored4 (AccountRateMultiplier i);
  discount ← stored4 (BatchDiscountMultiplier i);
  holdRate ← stored4 (HoldMultiplier i);
  billable ← stored10 (BillableUnitPrice i);
  holdPrice ← stored10 (HoldUnitPrice i);
  let orModel m := let m := TrimSpace m in if eqs m "" then Model i else m in
  Some (mkJobInfo id (BatchID i) (UserID i) (BillingUserID i) (TeamID i) (APIKeyID i) (AccountID i) (GroupID i) (BillingMode i)
    (PreferredSubscriptionID i) (Provider i) (Model i) (orModel (RequestedModel i)) (orModel (InternalModel i)) (TaskName i)
    (ParentBatchID i) (ItemCount i) (CancelledCount i) subscriptionRate balanceRate (PlanGroupRateEnabled i) basePrice groupRate
    accountRate discount holdRate billable holdPrice (PricingSnapshotVersion i) (Currency i) (HoldID i) (IdempotencyKey i)
    (RequestHash i) (SessionID i) now).

(** The columns without a parameter start empty. *)
Definition insertedState (now : Time) (s : BatchImageJobState) : option BatchImageJobState :=
  cost ← (match ActualCost s with None => Some None | Some c => Some <$> stored10 c end);
  Some (mkJobState (Status s) (ProviderJobName s) (ProviderInputRef s) (ProviderOutputRef s) (GCSInputURI s) (GCSOutputURI s)
    (SuccessCount s) (FailCount s) cost (ManifestHash s) (RetryCount s) 0 (OutputExpiresAt s) None None None None None None now
    None None None None).

Definition insertedHold (h : BatchImageHold) : option entityRow :=
  estimated ← sqlParam (EstimatedCost h);
  amount ← (match HoldAmount h with None => Some None | Some a => Some <$> sqlParam a end);
  balanceHold ← sqlParam (BalanceHoldAmount h);
  Some (mkEntityRow (store10 balanceHold) (SubscriptionHoldAllocations h) (store10 <$> amount) (store10 estimated) false).

Definition insertJob (params : BatchImageJob) : txn (result goError BatchImageJob) := λ t d,
  let batchID := BatchID (info params) in
  match insertedInfo (nextJobID d) t (info params), insertedState t (state params), insertedHold (hold params) with
  | Some i, Some s, Some e =>
      match jobs d !! batchID with
      | Some _ => (Ok (Err (AppErr (WithCause ErrBatchImageJobExists (Some (OtherErr "unique violation" []))))), d)
      | None =>
          (Ok (Ok (mkJob i s (holdOf e))),
           setNextJobID (nextJobID d + 1)
             (setLedger (withEntities (<[(false, batchID) := e]> (entities (ledger d))) (ledger d)) (putJob batchID i s d)))
      end
  | _, _, _ => (Err (DBError "numeric"), d)
  end.

Definition ErrInvalidAPIKeyBillingMode := BadRequest "INVALID_API_KEY_BILLING_MODE" "invalid API key billing mode".
Definition ErrPreferredSubscriptionRequired :=
  BadRequest "PREFERRED_SUBSCRIPTION_REQUIRED" "subscription billing mode requires a subscription".

Definition etaInfo (i : BatchImageJobInfo) : BatchImageJobInfo :=
  mkJobInfo (ID i) (BatchID i) (UserID i) (BillingUserID i) (TeamID i) (APIKeyID i) (AccountID i) (GroupID i) (BillingMode i)
    (PreferredSubscriptionID i) (Provider i) (Model i) (RequestedModel i) (InternalModel i) (TaskName i) (ParentBatchID i)
    (ItemCount i) (CancelledCount i) (SubscriptionRateMultiplier i) (BalanceRateMultiplier i) (PlanGroupRateEnabled i)
    (BaseUnitPrice i) (GroupRateMultiplier i) (AccountRateMultiplier i) (BatchDiscountMultiplier i) (HoldMultiplier i)
    (BillableUnitPrice i) (HoldUnitPrice i) (PricingSnapshotVersion i) (Currency i) (HoldID i) (IdempotencyKey i) (RequestHash i)
    (SessionID i) (CreatedAt i).
Definition SetBillingUserID (v : Z) (i : BatchImageJobInfo) : BatchImageJobInfo := ltac:(set_field etaInfo i BillingUserID v).
Definition SetBillingModeColumn (v : string) (i : BatchImageJobInfo) : BatchImageJobInfo := ltac:(set_field etaInfo i BillingMode v).
Definition SetPreferredID (v : option Z) (i : BatchImageJobInfo) : BatchImageJobInfo := ltac:(set_field etaInfo i PreferredSubscriptionID v).
Definition SetCurrency (v : string) (i : BatchImageJobInfo) : BatchImageJobInfo := ltac:(set_field etaInfo i Currency v).
Definition SetBatchIDColumn (v : string) (i : BatchImageJobInfo) : BatchImageJobInfo := ltac:(set_field etaInfo i BatchID v).

(** The parameters are the columns of the job; [newID] is the answer of
    [NewBatchImageID], a random identifier, for parameters without one. *)
Definition CreateBatchImageJob (newID : result goError string) (params : BatchImageJob) : M BatchImageJob :=
  let i := info params in
  if negb (IsSupportedBatchImageProvider (Provider i)) then failsApp ErrBatchImageInvalidProvider else
  let withID batchID : M BatchImageJob :=
    let i := SetBatchIDColumn batchID i in
    let s := if eqs (Status (state params)) "" then SetStatus BatchImageJobStatusCreated (state params) else state params in
    let i := if eqs (Currency i) "" then SetCurrency "USD" i else i in
    let i := if BillingUserID i <=? 0 then SetBillingUserID (UserID i) i else i in
    match NormalizeAPIKeyBillingMode (BillingMode i) with
    | None => failsApp ErrInvalidAPIKeyBillingMode
    | Some mode =>
        let i := SetBillingModeColumn mode i in
        let create i := transact (insertJob (mkJob i s (hold params))) in
        if negb (eqs mode APIKeyBillingModeSubscription) then create (SetPreferredID None i)
        else match positiveID (PreferredSubscriptionID i) with
             | None => failsApp ErrPreferredSubscriptionRequired
             | Some _ => create i
             end
    end in
  if eqs (BatchID i) "" then match newID with Ok batchID => withID batchID | Err e => fails e end else withID (BatchID i).

(** ** Statements on items *)

Definition itemExists : goError := AppErr (WithCause ErrBatchImageItemExists (Some (OtherErr "unique violation" []))).

(** The unique index on job and custom identifier, and the foreign key. *)
Fixpoint insertItems (new : list BatchImageItem) (d : batchDB) : result goError batchDB :=
  match new with
  | [] => Ok d
  | item :: new =>
      let rows := itemsOf d (JobID item) in
      if negb (bool_decide (is_Some (jobs d !! JobID item))) then Err (OtherErr "foreign key violation" [])
      else if bool_decide (CustomID item ∈ ids rows) then Err itemExists
      else insertItems new (setItems (<[JobID item := rows ++ [item]]> (items d)) d)
  end.

(** Which identifiers a job was submitted with. *)
Definition noteRequested (new : list BatchImageItem) (d : batchDB) : batchDB :=
  fold_left (λ d item, setRequested (<[JobID item := {[CustomID item]} ∪ default ∅ (requested d !! JobID item)]> (requested d)) d) new d.

Definition BulkCreateBatchImageItems (params : list CreateBatchImageItemParams) : M unit :=
  if bool_decide (params = []) then ok tt else
  transact (λ _ d, match insertItems params d with Ok d' => (Ok (Ok tt), noteRequested params d') | Err e => (Ok (Err e), d) end).

Definition batchImageItemPromptPreviews (rows : list BatchImageItem) (customID : string) : option string :=
  match List.find (λ i, eqs (CustomID i) customID) rows with
  | Some i => match PromptPreview i with Some p => if eqs p "" then None else Some p | None => None end
  | None => None
  end.

Definition withPreview (batchID : string) (rows : list BatchImageItem) (i : BatchImageItem) : BatchImageItem :=
  mkItem batchID (CustomID i) (itemStatus i) (itemRequestHash i)
    (match PromptPreview i with Some p => Some p | None => batchImageItemPromptPreviews rows (CustomID i) end)
    (ProviderSourceObject i) (SourceLineNumber i) (SourceByteOffset i) (SourceByteLength i) (MimeType i) (FileExtension i)
    (ImageCount i) (itemErrorCode i) (itemErrorMessage i) (BilledAmount i) (IndexedAt i).

Definition ReplaceBatchImageItemsForJob (batchID : string) (new : list CreateBatchImageItemParams) (counts : BatchImageCounts) : M unit :=
  transact (λ t d,
    match jobs d !! batchID with
    | None => (Ok jobNotFound, d)
    | Some (i, s) =>
        if negb (eqs (Status s) BatchImageJobStatusIndexing) then (Ok (Err (AppErr ErrBatchImageIndexStateConflict)), d) else
        let rows := itemsOf d batchID in
        match insertItems (withPreview batchID rows <$> new) (setItems (delete batchID (items d)) d) with
        | Err e => (Ok (Err e), d)
        | Ok d' => (Ok (Ok tt), putJob batchID i (SetUpdatedAt t (SetFailCount (countFail counts) (SetSuccessCount (countSuccess counts) s))) d')
        end
    end).
End statements.
