(* ===== verification/BatchImageFlow.v ===== *)
(** * Batch image jobs: the services

    [service/batch_image_public.go] (Submit after the validation, Cancel,
    records), [service/batch_image_billing_hold.go],
    [service/batch_image_settlement.go], [service/batch_image_processor.go],
    [service/batch_image_billing_recovery.go], [service/batch_image_cleanup.go],
    [service/batch_image_worker.go] (one round).

    A service function is a program over the statements of [BatchImageDB]; the
    answers of the providers, of the choice of an account and its prices, and of
    the draw of identifiers are arguments ([batchWorld]).  The services are
    wired as [main] does it; caches and logs are left out.  The heartbeats that
    run beside a submission or a round of the worker are programs of their own. *)

From S2P Require Import Prelude GoRuntime Domain AppErrors Transactions UsageBilling BillingDB BillingAllowance BillingLedger BatchImageQueue BatchImage BatchImageRequest BatchImageIndex BatchImageDB.
#[local] Open Scope Z_scope.

Definition ErrPreferredSubscriptionGroup :=
  Forbidden "PREFERRED_SUBSCRIPTION_GROUP_NOT_ALLOWED" "preferred subscription does not allow this group".
Definition ErrBatchImageProviderUnsupportedAccount :=
  New 400 "BATCH_IMAGE_PROVIDER_UNSUPPORTED_ACCOUNT" "batch image provider does not support this account".
Definition ErrBatchImageProviderMissingAPIKey :=
  New 400 "BATCH_IMAGE_PROVIDER_MISSING_API_KEY" "batch image provider account is missing api key".
Definition ErrBatchImageProviderMissingServiceAccount :=
  New 400 "BATCH_IMAGE_PROVIDER_MISSING_SERVICE_ACCOUNT" "batch image provider account is missing service account credentials".
Definition ErrBatchImageProviderUnsafeCleanupPath := New 400 "VERTEX_UNSAFE_CLEANUP_PATH" "unsafe batch image cleanup path".
Definition ErrUnsupportedCleanupTarget :=
  New 400 "BATCH_IMAGE_PROVIDER_UNSUPPORTED_CLEANUP_TARGET" "unsupported batch image cleanup target".

(** ** Providers *)

Record BatchProviderJob := mkProviderJob { pjJobName : string; pjInputRef : string; pjOutputRef : string }.

Inductive BatchProviderInternalState :=
  | BatchProviderStateQueued
  | BatchProviderStateRunning
  | BatchProviderStateSucceeded
  | BatchProviderStateFailed
  | BatchProviderStateCancelled
  | BatchProviderStateExpired
  | BatchProviderStateOther.

Record BatchProviderStatus := mkProviderStatus {
  InternalState : BatchProviderInternalState;
  statusOutputRef : string;
  statusErrorCode : string;
  statusErrorMessage : string;
  SuggestedRequeueAfter : Duration;
}.

Inductive CleanupTarget :=
  | CleanupTargetInput
  | CleanupTargetOutput
  | CleanupTargetAll.

Record BatchImageProvider (Account : Type) := mkProvider {
  SupportsAccount : Account → bool;
  Submit_ : BatchImageJob → Account → BatchImageInput → result goError (option BatchProviderJob);
  Get_ : BatchImageJob → Account → result goError (option BatchProviderStatus);
  Cancel_ : BatchImageJob → Account → result goError unit;
  OpenResult : BatchImageJob → Account → result goError (list string * option scanError);
  Cleanup : BatchImageJob → Account → CleanupTarget → result goError unit;
}.
Arguments SupportsAccount {Account}. Arguments Submit_ {Account}. Arguments Get_ {Account}. Arguments Cancel_ {Account}.
Arguments OpenResult {Account}. Arguments Cleanup {Account}.

(** ** Options of the worker *)

Record BatchImageWorkerOptions := mkWorkerOptions {
  ReserveBlockTimeout : Duration;
  JobLockTTL : Duration;
  LockConflictDelay : Duration;
  DefaultRequeueDelay : Duration;
  ErrorRetryDelay : Duration;
  ErrorBackoff : Duration;
  DelayedPollInterval : Duration;
  RecoveryInterval : Duration;
  StaleActiveAfter : Duration;
  DelayedMoveLimit : Z;
  RecoverLimit : Z;
}.

Definition normalizeBatchImageWorkerOptions (o : BatchImageWorkerOptions) : BatchImageWorkerOptions :=
  mkWorkerOptions (orPositive (ReserveBlockTimeout o) (5 * Second)) (orPositive (JobLockTTL o) (5 * Minute))
    (orPositive (LockConflictDelay o) (5 * Second)) (orPositive (DefaultRequeueDelay o) (30 * Second))
    (orPositive (ErrorRetryDelay o) Minute) (orPositive (ErrorBackoff o) Second) (orPositive (DelayedPollInterval o) (5 * Second))
    (orPositive (RecoveryInterval o) (5 * Minute)) (orPositive (StaleActiveAfter o) (10 * Minute))
    (orPositive (DelayedMoveLimit o) 100) (orPositive (RecoverLimit o) 100).

Definition heartbeatInterval (o : BatchImageWorkerOptions) : Duration :=
  Z.max Second (goQuot (Z.min (JobLockTTL o) (StaleActiveAfter o)) 3).

(** What a run of a program meets outside of the database. *)
Record batchWorld (Account : Type) := mkWorld {
  retries : retryWorld;
  provider : string → option (BatchImageProvider Account);
  resolveAccount : Z → result goError Account;
  unitPriceOf : BatchImageJob → result goError float64;
  errorText : goError → string;
  outputRetention : Duration;
  inputRetention : Duration;
  cleanupLimit : Z;
  limits : BatchImageLimits;
  queueOptions : batchImageQueueOptions;
  lockToken : result goError string;
  workerOptions : BatchImageWorkerOptions;
  formatTaskName : Time → string;
}.
Arguments retries {Account}. Arguments provider {Account}. Arguments resolveAccount {Account}. Arguments unitPriceOf {Account}.
Arguments errorText {Account}. Arguments outputRetention {Account}. Arguments inputRetention {Account}.
Arguments cleanupLimit {Account}. Arguments limits {Account}. Arguments queueOptions {Account}. Arguments lockToken {Account}. Arguments formatTaskName {Account}.
Arguments workerOptions {Account}.

(** [errors.Is(err, ErrUsageBillingRequestConflict)]. *)
Fixpoint isRequestConflict (e : goError) : bool :=
  match e with
  | OtherErr text wrapped => eqs text "usage billing request fingerprint conflict" || existsb isRequestConflict wrapped
  | AppErr (mkAppError _ cause) => match cause with Some e => isRequestConflict e | None => false end
  end.

Definition handled {A} (m : M A) (f : result goError A → P unit) : P unit := bindProg f m.

Section services.
Context {Account : Type} `{UnicodeCase} `{JSONDecoder} `{BillingText} `{SQLNumeric} `{Calendar} `{SQLCalendar} `{GoWeek}.
Context (w : batchWorld Account).

Definition Enqueue_ (batchID : string) : M unit := redis (Enqueue (queueOptions w) batchID).

(** [err != nil && !errors.Is(err, ErrBatchImageAlreadyQueued)]. *)
Definition enqueued (r : result goError unit) : result goError unit :=
  match r with
  | Ok _ => Ok tt
  | Err e => if errorsIs ErrBatchImageAlreadyQueued e then Ok tt else Err e
  end.

Definition tryEnqueue (batchID : string) : P (result goError unit) := bindProg (λ r, Ret (enqueued r)) (Enqueue_ batchID).

(** ** Holds *)

Definition strictHoldErrors : list ApplicationError :=
  [ErrPreferredSubscriptionInvalid; ErrPreferredSubscriptionGroup; ErrPreferredSubscriptionInsufficient;
   ErrAPIKeyQuotaExhausted; ErrAPIKeyRateLimit5hExceeded; ErrAPIKeyRateLimit1dExceeded; ErrAPIKeyRateLimit7dExceeded;
   ErrTeamMemberDailyExceeded; ErrTeamMemberWeeklyExceeded; ErrTeamMemberMonthlyExceeded].

Definition reserveError (e : goError) : goError :=
  if errorsIs ErrBatchImageInsufficientBalance e then AppErr ErrBatchImageInsufficientBalance
  else if existsb (λ target, errorsIs target e) strictHoldErrors then e
  else AppErr (WithCause ErrBatchImageBillingHoldFailed (Some e)).

Definition SetGroup (groupID : option Z) (c : BatchImageBalanceHoldCommand) : BatchImageBalanceHoldCommand :=
  ltac:(set_field etaHold c cGroupID groupID).

(** The job with the columns of the answer. *)
Definition reservedHold (job : BatchImageJob) (r : BatchImageBalanceHoldResult) : BatchImageHold :=
  let h := hold job in
  let base := 2 <=? PricingSnapshotVersion (info job) in
  mkHold (if base then EstimatedAmountUSD r else EstimatedCost h) (if base then Some (HoldAmountUSD r) else HoldAmount h)
    (BalanceAmountUSD r) (batchImageSubscriptionAllocations (BillingAllocations r)) true.

Definition reserveBatchImageBalanceHold (job : BatchImageJob) (groupID : option Z) (payloadHash : string) : M BatchImageJob :=
  match buildBatchImageHoldCommand job (BatchImageHoldRequestID (jobID job)) f64_zero payloadHash with
  | Err e => failsApp e
  | Ok cmd =>
      if f64_le (cHoldAmount cmd) f64_zero && f64_le (cBaseAmountUSD cmd) f64_zero then ok job else
      bindProg (λ r, match r with
                     | Err e => fails (reserveError e)
                     | Ok r => ok (withHold (reservedHold job r) job)
                     end)
        (holdCall (retries w) batchImageAllowanceReserve (SetGroup groupID cmd))
  end.

Definition settlementBillingFailed (e : goError) : goError := AppErr (WithCause ErrBatchImageSettlementBillingFailed (Some e)).

Definition captureBatchImageBalanceHold (job : BatchImageJob) (actualAmount : float64) (payloadHash : string)
    : M BatchImageBalanceHoldResult :=
  match buildBatchImageHoldCommand job (BatchImageCaptureRequestID (jobID job)) actualAmount payloadHash with
  | Err e => failsApp e
  | Ok cmd =>
      bindProg (λ r, match r with Err e => fails (settlementBillingFailed e) | Ok r => ok r end)
        (holdCall (retries w) batchImageAllowanceCapture cmd)
  end.

Definition releaseBatchImageBalanceHold (job : BatchImageJob) (payloadHash : string) : M unit :=
  match buildBatchImageHoldCommand job (BatchImageReleaseRequestID (jobID job)) f64_zero payloadHash with
  | Err e => failsApp e
  | Ok cmd =>
      if f64_le (cHoldAmount cmd) f64_zero then ok tt else
      bindProg (λ r, match r with
                     | Err e => if isRequestConflict e then ok tt
                                else failsApp (WithCause ErrBatchImageBillingHoldFailed (Some e))
                     | Ok _ => ok tt
                     end)
        (holdCall (retries w) batchImageAllowanceRelease cmd)
  end.

(** Every release of a job that has a row sends the hash of its request. *)
Definition releaseHold (job : BatchImageJob) : M unit :=
  releaseBatchImageBalanceHold job (batchImageDerefString (RequestHash (info job))).

(** ** Settlement *)

Definition batchImageSettlementMaxRetries : Z := 5.
Definition batchImageSettlementRetryDelay : Duration := Minute.

Definition BuildBatchImageSettlementManifestHash (job : BatchImageJob) : string :=
  let i := info job in let s := state job in
  sha256Hex (JoinByte Ascii.zero
    [TrimSpace (BatchID i); TrimSpace (Provider i); TrimSpace (Model i); batchImageDerefString (ProviderJobName s);
     batchImageDerefString (ProviderOutputRef s); Itoa (SuccessCount s); Itoa (FailCount s); Itoa (ItemCount i)]).

Record BatchImageSettlementResult := mkSettlement {
  setBatchID : string;
  setSuccessCount : Z;
  setFailCount : Z;
  setActualCost : float64;
  setManifestHash : string;
  setRequestID : string;
  setSubscriptionAmountUSD : float64;
  setBalanceAmountUSD : float64;
  setAllocations : list BillingAllocation;
  setAlreadySettled : bool;
}.

Definition isBatchImageSettlementRetryExhausted (job : BatchImageJob) : bool :=
  let s := state job in
  eqs (Status s) BatchImageJobStatusSettling && (batchImageSettlementMaxRetries <=? RetryCount s)
  && HasPrefix (batchImageDerefString (LastErrorCode s)) "SETTLEMENT_".

Definition truncated (text : string) : string := truncateBatchImageMessage text batchImageMaxErrorMessageLength.

(** The error that the settlement answers. *)
Definition failExhaustedSettlement (job : BatchImageJob) (message : string) : P goError :=
  bindProg (λ r,
    match r with
    | Err e =>
        run SetBatchImageJobSettlementFailed (jobID job) "SETTLEMENT_RELEASE_FAILED" (truncated (errorText w e)) in
        Ret (settlementBillingFailed e)
    | Ok _ =>
        let msg := TrimSpace message in
        let msg := if eqs msg "" then "settlement billing retry limit reached"%string else msg in
        bindProg (λ r, Ret (match r with Err e => e | Ok _ => AppErr ErrBatchImageSettlementBillingFailed end))
          (TransitionBatchImageJobStatus (jobID job) BatchImageJobStatusFailed
             (mkTransitionOptions "settlement_retry_exhausted" (Some "SETTLEMENT_BILLING_RETRY_EXHAUSTED"%string) (Some msg) None))
    end) (releaseHold job).

(** [None]: the caller goes on to report its own error. *)
Definition recordSettlementFailure (job : BatchImageJob) (code message : string) : P (option goError) :=
  bindProg (λ r,
    match r with
    | Err _ => Ret None
    | Ok retryCount =>
        if batchImageSettlementMaxRetries <=? retryCount
        then bindProg (λ e, Ret (Some e)) (failExhaustedSettlement job message)
        else Ret None
    end) (SetBatchImageJobSettlementFailed (jobID job) code (truncated message)).

Definition failSettlement {A} (job : BatchImageJob) (code message : string) (e : goError) : M A :=
  bindProg (λ failErr, fails (default e failErr)) (recordSettlementFailure job code message).

Definition settlementUnitPrice (job : BatchImageJob) : result goError float64 :=
  if 1 <=? PricingSnapshotVersion (info job) then
    if f64_lt (BillableUnitPrice (info job)) f64_zero then Err (AppErr ErrBatchImageSettlementPricingMissing)
    else Ok (BillableUnitPrice (info job))
  else unitPriceOf w job.

(** The [if err == nil && unitPrice < 0] after it. *)
Definition checkedUnitPrice (job : BatchImageJob) : result goError float64 :=
  match settlementUnitPrice job with
  | Ok p => if f64_lt p f64_zero then Err (AppErr ErrBatchImageSettlementPricingMissing) else Ok p
  | Err e => Err e
  end.

Definition BillingTypeIsSubscription (subscriptionAmount : float64) : bool := f64_gt subscriptionAmount batchImageCostEpsilon.

Fixpoint distinct (seen l : list string) : list string :=
  match l with
  | [] => []
  | x :: l => if existsb (eqs x) seen then distinct seen l else x :: distinct (x :: seen) l
  end.

Definition arrow : string := String (ascii_of_N 226) (String (ascii_of_N 134) (String (ascii_of_N 146) "")).

Definition buildModelMappingChain (models : list string) : string :=
  let stages := distinct [] (List.filter (λ m, negb (eqs m "")) (TrimSpace <$> models)) in
  if (length stages <? 2)%nat then "" else String.concat arrow stages.

Definition firstAllocatedSubscriptionID (allocations : list BillingAllocation) : option Z :=
  match List.find (λ a, eqs (AllocationType a) BillingAllocationTypeSubscription && bool_decide (is_Some (SubscriptionID a))) allocations with
  | Some a => SubscriptionID a
  | None => None
  end.

Definition settlementUsageLog (job : BatchImageJob) (apiKeyID accountID : Z) (actualCost : float64) (requestID : string)
    (createdAt : Time) (r : BatchImageBalanceHoldResult) : UsageLog :=
  let i := info job in let s := state job in
  let allocations := BillingAllocations r in
  let allocations := if bool_decide (allocations = []) && f64_gt actualCost f64_zero
                     then [balanceAllocation actualCost f64_zero f64_zero] else allocations in
  let rate :=
    if (2 <=? PricingSnapshotVersion i) && (0 <? SuccessCount s) && f64_gt (BaseUnitPrice i) f64_zero
       && f64_gt (AccountRateMultiplier i) f64_zero
    then f64_div actualCost (f64_mul (f64_mul (BaseUnitPrice i) (f64_of_Z (SuccessCount s))) (AccountRateMultiplier i))
    else f64_mul (GroupRateMultiplier i) (BatchDiscountMultiplier i) in
  let requestedModel := batchImageRequestedModel job in
  let internalModel := batchImageInternalModel job in
  mkUsageLog (UserID i) (BillingUserID i) (TeamID i) apiKeyID accountID (TrimSpace requestID) internalModel requestedModel
    (batchImageOptionalStringPtr (Model i))
    (batchImageOptionalStringPtr (buildModelMappingChain [requestedModel; internalModel; Model i])) (SuccessCount s) actualCost
    (SubscriptionAmountUSD r) (BalanceAmountUSD r) allocations (firstAllocatedSubscriptionID allocations) rate
    (AccountRateMultiplier i) (BillingTypeIsSubscription (SubscriptionAmountUSD r)) (SessionID i) createdAt.

Definition countsInvalid (job : BatchImageJob) : bool :=
  let s := state job in
  (SuccessCount s <? 0) || (FailCount s <? 0) || (ItemCount (info job) <? 0) || (ItemCount (info job) <? SuccessCount s + FailCount s).

Definition manifestConflict (job : BatchImageJob) (hash : string) : bool :=
  let stored := batchImageDerefString (ManifestHash (state job)) in negb (eqs stored "") && negb (eqs stored hash).

(** From the capture on. *)
Definition settleCapture (job : BatchImageJob) (apiKeyID accountID : Z) (hash : string) (billingInput cost : float64)
    : M BatchImageSettlementResult :=
  bindProg (λ r,
    match r with
    | Err e => failSettlement job "SETTLEMENT_BILLING_FAILED" (truncated (errorText w e)) e
    | Ok r =>
        let cost := if 2 <=? PricingSnapshotVersion (info job) then ActualAmountUSD r else cost in
        let requestID := BatchImageCaptureRequestID (jobID job) in
        Clock (λ now,
          do* MarkBatchImageJobSettled (mkSettledParams (jobID job) cost hash (Some now) (Some (Add now (outputRetention w)))) in
          run writeUsageLogBestEffort (settlementUsageLog job apiKeyID accountID cost requestID now r) in
          ok (mkSettlement (jobID job) (SuccessCount (state job)) (FailCount (state job)) cost hash requestID
                (SubscriptionAmountUSD r) (BalanceAmountUSD r) (BillingAllocations r) false))
    end) (captureBatchImageBalanceHold job billingInput hash).

(** From the check of the price on. *)
Definition settlePriced (job : BatchImageJob) (apiKeyID accountID : Z) (hash : string) : M BatchImageSettlementResult :=
  match checkedUnitPrice job with
  | Err e => failSettlement job "SETTLEMENT_PRICING_MISSING" (errorText w e) e
  | Ok unitPrice =>
      let base := 2 <=? PricingSnapshotVersion (info job) in
      let n := f64_of_Z (SuccessCount (state job)) in
      let cost := f64_mul n unitPrice in
      if base && f64_lt (BaseUnitPrice (info job)) f64_zero then failsApp ErrBatchImageSettlementPricingMissing else
      let billingInput := if base then f64_mul n (BaseUnitPrice (info job)) else cost in
      let held := holdAmountOf (hold job) in
      if negb base && f64_gt (f64_sub cost held) batchImageCostEpsilon
      then failSettlement job "SETTLEMENT_COST_EXCEEDS_HOLD"
             ("actual cost " +:+ formatF10 cost +:+ " exceeds held amount " +:+ formatF10 held) (AppErr ErrBatchImageSettlementCostExceedsHold)
      else settleCapture job apiKeyID accountID hash billingInput cost
  end.

Definition countsText (job : BatchImageJob) : string :=
  "success=" +:+ Itoa (SuccessCount (state job)) +:+ " fail=" +:+ Itoa (FailCount (state job))
  +:+ " item_count=" +:+ Itoa (ItemCount (info job)).

Definition Settle (batchID : string) : M BatchImageSettlementResult :=
  let* job := GetBatchImageJobByBatchID batchID in
  let hash := BuildBatchImageSettlementManifestHash job in
  if eqs (jobStatus job) BatchImageJobStatusCompleted then
    ok (mkSettlement (jobID job) (SuccessCount (state job)) (FailCount (state job)) (default f64_zero (ActualCost (state job))) hash
          (BatchImageCaptureRequestID (jobID job)) f64_zero f64_zero [] true)
  else if negb (eqs (jobStatus job) BatchImageJobStatusSettling) then failsApp ErrBatchImageSettlementInvalidStatus
  else match positiveID (APIKeyID (info job)), positiveID (AccountID (info job)) with
  | None, _ => failsApp ErrBatchImageSettlementMissingAPIKeyID
  | _, None => failsApp ErrBatchImageSettlementMissingAccountID
  | Some apiKeyID, Some accountID =>
      if isBatchImageSettlementRetryExhausted job then
        bindProg fails (failExhaustedSettlement job
          ("settlement retry limit reached: " +:+ batchImageDerefString (LastErrorCode (state job))))
      else if countsInvalid job then
        failSettlement job "SETTLEMENT_INVALID_COUNTS" (countsText job) (AppErr ErrBatchImageSettlementInvalidCounts)
      else if manifestConflict job hash then
        failSettlement job "SETTLEMENT_MANIFEST_CONFLICT" "manifest hash conflict" (AppErr ErrBatchImageSettlementManifestConflict)
      else settlePriced job apiKeyID accountID hash
  end.

(** ** Indexing *)

Definition pageSize : Z := 500.

(** No error of the database ([pages_suffice] in [BatchImageOutcome]). *)
Definition outOfPages : goError := AppErr (New 500 "UNBOUNDED_ITEMS" "unbounded list of items").

(** The custom identifiers of the stored items, page by page.  [pages] bounds the
    number of pages. *)
Fixpoint listExpectedCustomIDs (batchID : string) (pages : nat) (offset : Z) (expected : gset string) : M (gset string) :=
  match pages with
  | O => fails outOfPages
  | S pages =>
      let* page := ListBatchImageItems batchID (mkItemFilter "" pageSize offset) in
      let expected := list_to_set (ids page) ∪ expected in
      let n := Z.of_nat (length page) in
      if n <? pageSize then ok expected else listExpectedCustomIDs batchID pages (offset + n) expected
  end.

(** Enough for the items that were submitted. *)
Definition pagesOf (job : BatchImageJob) : nat := S (Z.to_nat (ItemCount (info job) / pageSize)).

Definition Index (job : BatchImageJob) (provider : BatchImageProvider Account) (account : Account) : M BatchImageIndexResult :=
  let* expected := listExpectedCustomIDs (jobID job) (pagesOf job) 0 ∅ in
  match OpenResult provider job account with
  | Err e => failsApp (WithCause ErrBatchImageIndexOutputMissing (Some e))
  | Ok (lines, scanErr) =>
      Clock (λ now,
        let source := batchImageDerefString (ProviderOutputRef (state job)) in
        let source := if eqs source "" then batchImageDerefString (ProviderJobName (state job)) else source in
        match reconcile (jobID job) source now expected lines scanErr with
        | Err e => fails e
        | Ok l =>
            let replace :=
              do* ReplaceBatchImageItemsForJob (jobID job) (indexed l)
                    (mkCounts (resSuccessCount (loopResult l)) (resFailCount (loopResult l))) in
              ok (loopResult l) in
            if (0 <? unknownCount l) || (0 <? Z.of_nat (length (missingIDs expected l)))
            then (run AppendBatchImageEvent (jobID job) "index_reconciled" in replace)
            else replace
        end)
  end.

(** ** The processor *)

Record BatchImageProcessResult := mkProcessResult { RequeueDelay : Duration; Terminal : bool }.

Definition defaultBatchImageProcessorRequeue : Duration := 30 * Second.
Definition batchImageProviderErrorRequeue : Duration := Minute.

Definition requeue (d : Duration) : M BatchImageProcessResult := ok (mkProcessResult d false).
Definition terminal : M BatchImageProcessResult := ok (mkProcessResult 0 true).
Definition requeueDelay (suggested : Duration) : Duration := if 0 <? suggested then suggested else defaultBatchImageProcessorRequeue.

Definition releaseTerminalHold (job : BatchImageJob) : M unit :=
  if eqs (jobStatus job) BatchImageJobStatusFailed || eqs (jobStatus job) BatchImageJobStatusCancelled then releaseHold job else ok tt.

Definition withStatus (status : string) (job : BatchImageJob) : BatchImageJob := withState (SetStatus status) job.

(** A transition to a final status, then the hold. *)
Definition finishJob (job : BatchImageJob) (status : string) (opts : BatchImageTransitionOptions) : M BatchImageProcessResult :=
  do* TransitionBatchImageJobStatus (jobID job) status opts in
  do* releaseTerminalHold (withStatus status job) in terminal.

(** The job with the reference that was persisted. *)
Definition persistProviderOutputRef (job : BatchImageJob) (ref : string) : M BatchImageJob :=
  let ref := TrimSpace ref in
  if eqs ref "" || eqs (batchImageDerefString (ProviderOutputRef (state job))) ref then ok job else
  do* UpdateBatchImageJobProviderOutputRef (jobID job) ref in ok (withState (SetProviderOutputRef (Some ref)) job).

Definition indexAndSettle (job : BatchImageJob) (provider : BatchImageProvider Account) (account : Account) : M BatchImageProcessResult :=
  bindProg (λ r,
    match r with
    | Err e =>
        if errorsIs ErrBatchImageIndexOutputMissing e then fails e
        else if errorsIs ErrBatchImageIndexStateConflict e then requeue Millisecond
        else
          let code := if errorsIs ErrBatchImageDuplicateCustomID e then "DUPLICATE_CUSTOM_ID_IN_OUTPUT"%string else "INDEX_PARSE_FAILED"%string in
          finishJob job BatchImageJobStatusFailed
            (mkTransitionOptions "indexing_failed" (Some code) (batchImageOptionalStringPtr (truncated (errorText w e))) None)
    | Ok _ =>
        do* TransitionBatchImageJobStatus (jobID job) BatchImageJobStatusSettling (eventOnly "indexing_completed") in
        requeue Millisecond
    end) (Index job provider account).

Definition moveTo (job : BatchImageJob) (status eventType : string) : M BatchImageJob :=
  if eqs (jobStatus job) status then ok job else
  do* TransitionBatchImageJobStatus (jobID job) status (eventOnly eventType) in ok (withStatus status job).

Definition failureCode (s : BatchProviderStatus) : string :=
  let code := TrimSpace (statusErrorCode s) in
  let code := if eqs code "" && match InternalState s with BatchProviderStateExpired => true | _ => false end
              then "PROVIDER_BATCH_EXPIRED"%string else code in
  if eqs code "" then "PROVIDER_BATCH_FAILED"%string else code.

(** What follows the answer of the provider. *)
Definition processStatus (job : BatchImageJob) (provider : BatchImageProvider Account) (account : Account) (s : BatchProviderStatus)
    : M BatchImageProcessResult :=
  let* job := persistProviderOutputRef job (statusOutputRef s) in
  match InternalState s with
  | BatchProviderStateQueued | BatchProviderStateOther => requeue (requeueDelay (SuggestedRequeueAfter s))
  | BatchProviderStateRunning =>
      do* moveTo job BatchImageJobStatusRunning "provider_status_checked" in requeue (requeueDelay (SuggestedRequeueAfter s))
  | BatchProviderStateSucceeded =>
      let* job := moveTo job BatchImageJobStatusIndexing "indexing_started" in indexAndSettle job provider account
  | BatchProviderStateFailed | BatchProviderStateExpired =>
      finishJob job BatchImageJobStatusFailed
        (mkTransitionOptions "job_failed" (Some (failureCode s)) (batchImageOptionalStringPtr (truncated (statusErrorMessage s))) None)
  | BatchProviderStateCancelled => finishJob job BatchImageJobStatusCancelled (eventOnly "job_failed")
  end.

(** The provider and the account of a job. *)
Definition lookupProvider (job : BatchImageJob) : result goError (BatchImageProvider Account * Account) :=
  match provider w (Provider (info job)), positiveID (AccountID (info job)) with
  | None, _ => Err (AppErr ErrBatchImageUnsupportedProvider)
  | _, None => Err (AppErr ErrBatchImageMissingAccountID)
  | Some p, Some id => match resolveAccount w id with Ok account => Ok (p, account) | Err e => Err e end
  end.

Definition ProcessProvider (batchID : string) : M BatchImageProcessResult :=
  let* job := GetBatchImageJobByBatchID batchID in
  if isBatchImageProcessorDoneStatus (jobStatus job) then (do* releaseTerminalHold job in terminal) else
  match lookupProvider job with
  | Err e => fails e
  | Ok (p, account) =>
      if negb (SupportsAccount p account) then failsApp ErrBatchImageProviderUnsupportedAccount
      else if eqs (batchImageDerefString (ProviderJobName (state job))) "" then failsApp ErrBatchImageMissingProviderJobName
      else if eqs (jobStatus job) BatchImageJobStatusIndexing then indexAndSettle job p account
      else match Get_ p job account with
           | Err _ => requeue batchImageProviderErrorRequeue
           | Ok None => requeue (requeueDelay 0)
           | Ok (Some s) => processStatus job p account s
           end
  end.

(** The pipeline: settlement, or the provider. *)
Definition Process (batchID : string) : M BatchImageProcessResult :=
  let* job := GetBatchImageJobByBatchID batchID in
  if negb (eqs (jobStatus job) BatchImageJobStatusSettling) then ProcessProvider batchID else
  bindProg (λ r,
    match r with
    | Ok _ => terminal
    | Err e =>
        if negb (errorsIs ErrBatchImageSettlementBillingFailed e) then fails e else
        bindProg (λ r,
          match r with
          | Ok updated => if IsTerminalBatchImageJobStatus (jobStatus updated) then terminal else requeue batchImageSettlementRetryDelay
          | Err _ => requeue batchImageSettlementRetryDelay
          end) (GetBatchImageJobByBatchID batchID)
    end) (Settle batchID).

(** ** The worker *)

(** [polls] is the number of empty polls before the deadline. *)
Fixpoint Reserve (polls : nat) : M string :=
  bindProg (λ r,
    match r with
    | Ok batchID => ok batchID
    | Err e =>
        if negb (errorsIs ErrBatchImageQueueEmpty e) then fails e
        else match polls with O => failsApp ErrBatchImageQueueEmpty | S polls => Reserve polls end
    end) (redis reserveOnce).

Definition requeueJob (batchID : string) (delay : Duration) : M unit := redis (RequeueAfter batchID delay).

(** The round after the lock was taken. *)
Definition processReserved (batchID : string) : M unit :=
  bindProg (λ r,
    match r with
    | Err _ => requeueJob batchID (ErrorRetryDelay (workerOptions w))
    | Ok r =>
        if Terminal r then redis (Ack batchID)
        else requeueJob batchID (orPositive (RequeueDelay r) (DefaultRequeueDelay (workerOptions w)))
    end) (Process batchID).

Definition lockJob (batchID : string) : M (option string) :=
  match lockToken w with
  | Err e => fails e
  | Ok token => redis (TryAcquireJobLock (queueOptions w) batchID token (JobLockTTL (workerOptions w)))
  end.

Definition RunOnce (polls : nat) : M unit :=
  bindProg (λ r,
    match r with
    | Err e => if errorsIs ErrBatchImageQueueEmpty e then ok tt else fails e
    | Ok batchID =>
        bindProg (λ r,
          match r with
          | Err e => do* requeueJob batchID (LockConflictDelay (workerOptions w)) in fails e
          | Ok None => requeueJob batchID (LockConflictDelay (workerOptions w))
          | Ok (Some token) =>
              bindProg (λ r, run redis (Release batchID token) in Ret r) (processReserved batchID)
          end) (lockJob batchID)
    end) (Reserve polls).

(** A tick of the heartbeat of a round that holds the lock. *)
Definition workerHeartbeat (batchID token : string) : P unit :=
  run redis (Heartbeat batchID) in
  run redis (Refresh batchID token (JobLockTTL (workerOptions w))) in Ret tt.

Definition MoveDueDelayedOnce : M Z := redis (MoveDueDelayedToReady (DelayedMoveLimit (workerOptions w))).
Definition RecoverStaleActiveOnce : M Z :=
  redis (RecoverStaleActive (StaleActiveAfter (workerOptions w)) (RecoverLimit (workerOptions w))).

(** ** Recovery of submissions that stopped *)

Definition defaultBatchImageBillingRecoveryStaleAfter : Duration := 10 * Minute.
Definition defaultBatchImageBillingRecoveryLimit : Z := 100.

Definition staleMessage : string := "batch image submission did not reach provider before recovery cutoff".

(** One job: how many were released, and its error. *)
Definition releaseStale (cutoff : Time) (job : BatchImageJob) : P (Z * option goError) :=
  bindProg (λ applied,
    match applied with
    | (false, err) => Ret (0, err)
    | (true, _) =>
        bindProg (λ r,
          match r with
          | Err e => run tryEnqueue (jobID job) in Ret (0, Some e)
          | Ok _ => Ret (1, None)
          end) (releaseHold (withStatus BatchImageJobStatusFailed job))
    end) (FailStaleUnsubmittedBatchImageJob (jobID job) cutoff "SUBMIT_STALE_BEFORE_PROVIDER" staleMessage).

Fixpoint releaseStaleJobs (cutoff : Time) (jobs : list BatchImageJob) (released : Z) (lastErr : option goError) : M Z :=
  match jobs with
  | [] => match lastErr with None => ok released | Some e => fails e end
  | job :: jobs =>
      bindProg (λ r, releaseStaleJobs cutoff jobs (released + r.1) (match r.2 with Some e => Some e | None => lastErr end))
        (releaseStale cutoff job)
  end.

Definition ReleaseStaleUnsubmittedOnce : M Z :=
  let staleAfter := orPositive (StaleActiveAfter (workerOptions w)) defaultBatchImageBillingRecoveryStaleAfter in
  let limit := orPositive (RecoverLimit (workerOptions w)) defaultBatchImageBillingRecoveryLimit in
  Clock (λ now,
    let cutoff := Add now (- staleAfter) in
    let* jobs := ListStaleUnsubmittedBatchImageJobs cutoff limit in
    releaseStaleJobs cutoff jobs 0 None).

(** ** Submission *)

Record BatchImageOwner := mkOwner {
  ownerUserID : Z;
  ownerBillingUserID : Z;
  ownerTeamID : option Z;
  ownerAPIKeyID : Z;
  ownerGroupID : option Z;
  ownerBillingMode : string;
  ownerPreferredSubscriptionID : option Z;
}.

Record BatchImagePricingSnapshot := mkPricing {
  snapBaseUnitPrice : float64;
  snapGroupRateMultiplier : float64;
  snapSubscriptionRateMultiplier : float64;
  snapBalanceRateMultiplier : float64;
  snapPlanGroupRateEnabled : bool;
  snapAccountRateMultiplier : float64;
  snapBatchDiscountMultiplier : float64;
  snapHoldMultiplier : float64;
  snapBillableUnitPrice : float64;
  snapHoldUnitPrice : float64;
  snapEstimatedCost : float64;
  snapHoldAmount : float64;
}.

(** What the choice of a channel, a provider, an account and its prices gives. *)
Record submitChoice := mkChoice {
  chosenProvider : string;
  chosenService : BatchImageProvider Account;
  chosenAccount : Account;
  chosenAccountID : Z;
  chosenModel : string;
  chosenPrices : BatchImagePricingSnapshot;
}.

Record submitWorld := mkSubmitWorld {
  enabled : bool;
  groupAllows : option Z → result goError unit;
  clientModel : option string;
  choose : BatchImageSubmitRequest → result goError submitChoice;
  randomBytes : result goError (list ascii);     (* of [rand.Read] *)
}.

Definition batchImageBillingHoldFailureCode (e : goError) : string :=
  if errorsIs ErrBatchImageInsufficientBalance e then "INSUFFICIENT_BALANCE"
  else if errorsIs ErrPreferredSubscriptionInvalid e then "PREFERRED_SUBSCRIPTION_INVALID"
  else if errorsIs ErrPreferredSubscriptionGroup e then "PREFERRED_SUBSCRIPTION_GROUP_NOT_ALLOWED"
  else if errorsIs ErrPreferredSubscriptionInsufficient e then "PREFERRED_SUBSCRIPTION_EXHAUSTED"
  else "BILLING_HOLD_FAILED".

Definition batchImageProviderSubmitPublicError (e : goError) : ApplicationError :=
  let reason := TrimSpace (Reason (Some e)) in
  if eqs reason "VERTEX_MANAGED_GCS_BUCKET_MISSING" then ErrBatchImageVertexGCSBucketMissing
  else if eqs reason "BATCH_IMAGE_PROVIDER_MISSING_API_KEY" then ErrBatchImageProviderMissingAPIKey
  else if eqs reason "BATCH_IMAGE_PROVIDER_MISSING_SERVICE_ACCOUNT" then ErrBatchImageProviderMissingServiceAccount
  else if eqs reason "BATCH_IMAGE_PROVIDER_UNSUPPORTED_ACCOUNT" then ErrBatchImageProviderUnsupportedAccount
  else ErrBatchImageProviderSubmitFailed.

Definition batchImageProviderSubmitRecordCode (e : ApplicationError) : string :=
  let reason := TrimSpace (Reason (Some (AppErr e))) in
  if eqs reason "" || eqs reason "BATCH_IMAGE_PROVIDER_SUBMIT_FAILED" then "PROVIDER_SUBMIT_FAILED" else reason.

Definition publicError (e : goError) : string := sanitizeBatchImagePublicMessage (errorText w e).

Definition recordFailure_ (job : BatchImageJob) (code message : string) (markFailed : bool) : M unit :=
  RecordBatchImageJobSubmitFailure (jobID job) code message markFailed.

Definition enqueueBillingRetry (batchID : string) : P unit :=
  bindProg (λ r,
    match r with
    | Ok _ => Ret tt
    | Err _ => run AppendBatchImageEvent batchID "billing_retry_enqueue_failed" in Ret tt
    end) (tryEnqueue batchID).

Definition releaseFailedSubmitHold (job : BatchImageJob) (requestHash : string) : M unit :=
  bindProg (λ r,
    match r with
    | Ok _ => ok tt
    | Err e =>
        run recordFailure_ job "BILLING_RELEASE_FAILED" (publicError e) true in
        run enqueueBillingRetry (jobID job) in
        failsApp ErrBatchImageBillingHoldFailed
    end) (releaseBatchImageBalanceHold job requestHash).

Definition hidePreUpstreamSubmitFailure (owner : BatchImageOwner) (job : BatchImageJob) : P unit :=
  if bool_decide (is_Some (ProviderJobName (state job))) then Ret tt else
  Clock (λ now, run MarkBatchImageJobUserDeleted (ownerUserID owner) (ownerAPIKeyID owner) (jobID job) now in Ret tt).

(** A failure that is recorded on the job and hides it. *)
Definition submitFails {A} (owner : BatchImageOwner) (job : BatchImageJob) (code message : string) (e : goError) : M A :=
  run recordFailure_ job code message true in
  run hidePreUpstreamSubmitFailure owner job in
  fails e.

(** The same, after the hold was returned. *)
Definition releaseAndFail {A} (owner : BatchImageOwner) (job : BatchImageJob) (requestHash code message : string) (e : goError) : M A :=
  do* releaseFailedSubmitHold job requestHash in submitFails owner job code message e.

Definition pendingItems (batchID requestHash : string) (items : list BatchImageSubmitItem) : list CreateBatchImageItemParams :=
  (λ item, mkItem batchID (itemCustomID item) BatchImageItemStatusPending (Some requestHash)
             (Some (truncateBatchImageMessage (Prompt item) (maxPromptChars (limits w)))) None None None None None None 0 None None None
             None) <$> items.

Definition createPendingItems (batchID requestHash : string) (items : list BatchImageSubmitItem) : M unit :=
  if bool_decide (items = []) then ok tt else BulkCreateBatchImageItems (pendingItems batchID requestHash items).

(** The calls of the provider do not change the database. *)
Definition abortOrphanProviderJob (batchID : string) : P unit :=
  run AppendBatchImageEvent batchID "provider_job_aborted_after_submit" in Ret tt.

Definition submitParams (name : string) (pj : BatchProviderJob) (batchID : string) : UpdateBatchImageJobProviderSubmitParams :=
  mkProviderSubmit batchID (pjJobName pj) (pjInputRef pj) (pjOutputRef pj) (batchImageGCSRef name (pjInputRef pj))
    (batchImageGCSRef name (pjOutputRef pj)).

Definition toPublic (job : BatchImageJob) : BatchImagePublicBatch := BatchImageJobToPublic (formatTaskName w) job.

(** After the provider has taken the job. *)
Definition acceptJob (job : BatchImageJob) (name : string) (pj : BatchProviderJob) : M BatchImagePublicBatch :=
  bindProg (λ r,
    match r with
    | Err e => run abortOrphanProviderJob (jobID job) in fails e
    | Ok _ =>
        bindProg (λ r,
          match r with
          | Err e =>
              run recordFailure_ job "QUEUE_FAILED" (publicError e) false in
              failsApp ErrBatchImageQueueFailed
          | Ok _ => let* created := GetBatchImageJobByBatchID (jobID job) in ok (toPublic created)
          end) (tryEnqueue (jobID job))
    end) (UpdateBatchImageJobProviderSubmit (submitParams name pj (jobID job))).

(** From the transition on. *)
Definition uploadJob (owner : BatchImageOwner) (req : BatchImageSubmitRequest) (requestHash : string) (c : submitChoice)
    (job : BatchImageJob) : M BatchImagePublicBatch :=
  bindProg (λ r,
    match r with
    | Err e =>
        do* releaseFailedSubmitHold job requestHash in
        if errorsIs ErrBatchImageInvalidTransition e then fails e
        else submitFails owner job "UPLOAD_TRANSITION_FAILED" (publicError e) e
    | Ok _ =>
        let job := withStatus BatchImageJobStatusUploading job in
        match Submit_ (chosenService c) job (chosenAccount c) (providerInput (jobID job) (chosenModel c) req) with
        | Err e =>
            let publicErr := batchImageProviderSubmitPublicError e in
            releaseAndFail owner job requestHash (batchImageProviderSubmitRecordCode publicErr) (publicError e) (AppErr publicErr)
        | Ok None =>
            releaseAndFail owner job requestHash "PROVIDER_SUBMIT_FAILED" "provider job name missing" (AppErr ErrBatchImageProviderSubmitFailed)
        | Ok (Some pj) =>
            if eqs (TrimSpace (pjJobName pj)) "" then
              releaseAndFail owner job requestHash "PROVIDER_SUBMIT_FAILED" "provider job name missing" (AppErr ErrBatchImageProviderSubmitFailed)
            else acceptJob job (chosenProvider c) pj
        end
    end) (TransitionBatchImageJobStatus (jobID job) BatchImageJobStatusUploading (eventOnly "upload_started")).

(** The hold, then the items. *)
Definition prepareJob (owner : BatchImageOwner) (req : BatchImageSubmitRequest) (requestHash : string) (c : submitChoice)
    (job : BatchImageJob) : M BatchImagePublicBatch :=
  bindProg (λ r,
    match r with
    | Err e => submitFails owner job (batchImageBillingHoldFailureCode e) (publicError e) e
    | Ok job =>
        bindProg (λ r,
          match r with
          | Err e => releaseAndFail owner job requestHash "ITEM_CREATE_FAILED" (publicError e) (AppErr ErrBatchImageQueueFailed)
          | Ok _ => uploadJob owner req requestHash c job
          end) (createPendingItems (jobID job) requestHash (Items req))
    end) (reserveBatchImageBalanceHold job (ownerGroupID owner) requestHash).

(** The columns of a new job. *)
Definition newJob (owner : BatchImageOwner) (req : BatchImageSubmitRequest) (requestedModel requestHash idempotencyKey batchID : string)
    (parent : option string) (c : submitChoice) : BatchImageJob :=
  let p := chosenPrices c in
  mkJob
    (mkJobInfo 0 batchID (ownerUserID owner) (ownerBillingUserID owner) (ownerTeamID owner) (Some (ownerAPIKeyID owner))
       (Some (chosenAccountID c)) (ownerGroupID owner) (ownerBillingMode owner) (ownerPreferredSubscriptionID owner) (chosenProvider c)
       (chosenModel c) requestedModel (reqModel req) (reqTaskName req) parent (Z.of_nat (length (Items req))) 0
       (snapSubscriptionRateMultiplier p) (snapBalanceRateMultiplier p) (snapPlanGroupRateEnabled p) (snapBaseUnitPrice p)
       (snapGroupRateMultiplier p) (snapAccountRateMultiplier p) (snapBatchDiscountMultiplier p) (snapHoldMultiplier p)
       (snapBillableUnitPrice p) (snapHoldUnitPrice p) 3 "USD" (Some (BatchImageHoldRequestID batchID))
       (batchImageOptionalStringPtr idempotencyKey) (Some requestHash) (reqSessionID req) zeroTime)
    (mkJobState BatchImageJobStatusCreated None None None None None 0 0 None None 0 0 None None None None None None None zeroTime None None
       None None)
    (mkHold (snapEstimatedCost p) (Some (snapHoldAmount p)) f64_zero [] false).

(** The batch that a retry of a retry belongs to. *)
Definition parentOf (owner : BatchImageOwner) (req : BatchImageSubmitRequest) : M (option string) :=
  match batchImageOptionalStringPtr (reqParentBatchID req) with
  | None => ok None
  | Some parentID =>
      let* parent := GetBatchImageJobByBatchIDForOwner (ownerUserID owner) (ownerAPIKeyID owner) parentID in
      let root := match ParentBatchID (info parent) with Some p => TrimSpace p | None => "" end in
      ok (Some (if eqs root "" then parentID else root))
  end.

(** A request that is not a repetition. *)
Definition submitNew (sw : submitWorld) (owner : BatchImageOwner) (req : BatchImageSubmitRequest)
    (requestedModel requestHash idempotencyKey : string) : M BatchImagePublicBatch :=
  match choose sw req with
  | Err e => fails e
  | Ok c =>
      let* parent := parentOf owner req in
      match randomBytes sw with
      | Err e => fails e
      | Ok bytes =>
          let batchID := NewBatchImageID bytes in
          let* job := CreateBatchImageJob (Ok batchID)
                        (newJob owner req requestedModel requestHash idempotencyKey batchID parent c) in
          prepareJob owner req requestHash c job
      end
  end.

(** The job of an earlier request with the key. *)
Definition repeatSubmit (existing : BatchImageJob) (requestHash : string) : M BatchImagePublicBatch :=
  if negb (eqs (batchImageDerefString (RequestHash (info existing))) requestHash) then failsApp ErrBatchImageIdempotencyConflict
  else if negb (eqs (jobStatus existing) BatchImageJobStatusSubmitted) then ok (toPublic existing)
  else bindProg (λ r,
         match r with
         | Ok _ => ok (toPublic existing)
         | Err e =>
             run recordFailure_ existing "QUEUE_FAILED" (publicError e) false in
             failsApp ErrBatchImageQueueFailed
         end) (tryEnqueue (jobID existing)).

Definition Submit `{RequestJSON} (sw : submitWorld) (owner : BatchImageOwner) (req : BatchImageSubmitRequest) (idempotencyKey : string)
    : M BatchImagePublicBatch :=
  if negb (enabled sw) then failsApp ErrBatchImageDisabled else
  Clock (λ now,
    match validateSubmitRequest (formatTaskName w) (limits w) now req, groupAllows sw (ownerGroupID owner) with
    | Err e, _ => failsApp e
    | _, Err e => fails e
    | Ok req, Ok _ =>
        let requestedModel := match clientModel sw with
                              | Some m => if eqs (TrimSpace m) "" then reqModel req else TrimSpace m
                              | None => reqModel req
                              end in
        let requestHash := if eqs requestedModel (reqModel req) then HashBatchImageSubmitRequest req
                           else hashCompositeBatchImageSubmitRequest req (ownerGroupID owner) in
        let key := TrimSpace idempotencyKey in
        let fresh := submitNew sw owner req requestedModel requestHash key in
        if eqs key "" then fresh else
        bindProg (λ r,
          match r with
          | Ok existing => repeatSubmit existing requestHash
          | Err e => if errorsIs ErrBatchImageJobNotFound e then fresh else fails e
          end) (GetBatchImageJobByIdempotencyKey (ownerUserID owner) (ownerAPIKeyID owner) key)
    end).

(** ** Cancellation *)

Definition ownJob (owner : BatchImageOwner) (batchID : string) : M BatchImageJob :=
  GetBatchImageJobByBatchIDForOwner (ownerUserID owner) (ownerAPIKeyID owner) batchID.

(** [err] becomes [e]. *)
Definition failingWith {A} (e : ApplicationError) (m : M A) : M A :=
  bindProg (λ r, match r with Ok a => ok a | Err _ => failsApp e end) m.

Definition releaseOrRetry (job : BatchImageJob) : M unit :=
  bindProg (λ r,
    match r with
    | Ok _ => ok tt
    | Err _ => run enqueueBillingRetry (jobID job) in failsApp ErrBatchImageCancelFailed
    end) (releaseHold job).

(** A job that the provider has: the worker sees that it is cancelled. *)
Definition cancelUpstream (owner : BatchImageOwner) (batchID : string) (job : BatchImageJob) : M BatchImagePublicBatch :=
  match provider w (Provider (info job)), AccountID (info job) with
  | None, _ => failsApp ErrBatchImageUnsupportedProvider
  | _, None => failsApp ErrBatchImageCancelFailed
  | Some p, Some accountID =>
      match resolveAccount w accountID with
      | Err _ => failsApp ErrBatchImageCancelFailed
      | Ok account =>
          match Cancel_ p job account with
          | Err _ => failsApp ErrBatchImageCancelFailed
          | Ok _ =>
              run AppendBatchImageEvent (jobID job) "job_cancel_requested" in
              do* failingWith ErrBatchImageCancelFailed (tryEnqueue (jobID job)) in
              let* updated := ownJob owner batchID in ok (toPublic updated)
          end
      end
  end.

Definition Cancel (owner : BatchImageOwner) (batchID : string) : M BatchImagePublicBatch :=
  let* job := ownJob owner batchID in
  if isBatchImageProcessorDoneStatus (jobStatus job) then
    if eqs (jobStatus job) BatchImageJobStatusFailed || eqs (jobStatus job) BatchImageJobStatusCancelled
    then (do* releaseOrRetry job in ok (toPublic job))
    else ok (toPublic job)
  else if negb (eqs (batchImageDerefString (ProviderJobName (state job))) "") then cancelUpstream owner batchID job
  else
    do* TransitionBatchImageJobStatus (jobID job) BatchImageJobStatusCancelled (eventOnly "job_cancelled") in
    do* releaseOrRetry job in
    let* updated := ownJob owner batchID in ok (toPublic updated).

(** ** Records *)

Definition GetBatch (owner : BatchImageOwner) (batchID : string) : M BatchImagePublicBatch :=
  let* job := ownJob owner batchID in ok (toPublic job).

Definition MarkDownloaded (owner : BatchImageOwner) (batchID : string) : M unit :=
  let* job := ownJob owner batchID in Clock (λ now, MarkBatchImageDownloaded (jobID job) now).

Definition DeleteRecord (owner : BatchImageOwner) (batchID : string) : M unit :=
  let* job := ownJob owner batchID in
  if negb (isBatchImageProcessorDoneStatus (jobStatus job)) then failsApp ErrBatchImageRecordDeleteNotReady
  else Clock (λ now, MarkBatchImageJobUserDeleted (ownerUserID owner) (ownerAPIKeyID owner) (jobID job) now).

(** ** Cleanup *)

Definition cleanupErrorIsNotFound (e : goError) : bool :=
  Contains (ToUpper (Reason (Some e))) "NOT_FOUND" || Contains (ToUpper (errorText w e)) "NOT FOUND"
  || Contains (ToUpper (errorText w e)) "404".

Definition cleanupFailureCode (e : goError) : string :=
  if errorsIs ErrBatchImageProviderUnsafeCleanupPath e then "BATCH_IMAGE_CLEANUP_UNSAFE_PATH" else
  let reason := TrimSpace (Reason (Some e)) in
  if eqs reason "" then "BATCH_IMAGE_PROVIDER_CLEANUP_FAILED" else reason.

Definition callProviderCleanup (job : BatchImageJob) (target : CleanupTarget) : result goError unit :=
  match lookupProvider job with
  | Err e => Err e
  | Ok (p, account) =>
      match Cleanup p job account target with
      | Ok _ => Ok tt
      | Err e => if cleanupErrorIsNotFound e then Ok tt else Err e
      end
  end.

Definition targetText (target : CleanupTarget) : string :=
  match target with CleanupTargetInput => "input" | CleanupTargetOutput => "output" | CleanupTargetAll => "all" end.

Definition runCleanup (job : BatchImageJob) (target : CleanupTarget) : M unit :=
  run AppendBatchImageEvent (jobID job) (targetText target +:+ "_cleanup_started") in
  match callProviderCleanup job target with
  | Err e =>
      run RecordBatchImageCleanupFailure (jobID job) (cleanupFailureCode e) (publicError e) in
      run AppendBatchImageEvent (jobID job) (targetText target +:+ "_cleanup_failed") in
      failsApp (if errorsIs ErrBatchImageProviderUnsafeCleanupPath e then ErrBatchImageCleanupUnsafePath
                else ErrBatchImageProviderCleanupFailed)
  | Ok _ =>
      Clock (λ deletedAt,
        match target with
        | CleanupTargetInput => MarkBatchImageInputDeleted (jobID job) deletedAt
        | _ => MarkBatchImageOutputDeleted (jobID job) deletedAt
        end)
  end.

Definition cleanupJob (job : BatchImageJob) (target : CleanupTarget) : M unit :=
  match target with
  | CleanupTargetInput =>
      if bool_decide (is_Some (InputDeletedAt (state job))) then ok tt
      else if negb (IsTerminalBatchImageJobStatus (jobStatus job)) then failsApp ErrBatchImageCleanupFailed
      else runCleanup job target
  | CleanupTargetOutput =>
      if bool_decide (is_Some (OutputDeletedAt (state job))) || eqs (jobStatus job) BatchImageJobStatusOutputDeleted then ok tt
      else if negb (eqs (jobStatus job) BatchImageJobStatusCompleted || eqs (jobStatus job) BatchImageJobStatusFailed
                    || eqs (jobStatus job) BatchImageJobStatusCancelled)
      then failsApp ErrBatchImageOutputDeleteNotReady
      else runCleanup job target
  | CleanupTargetAll => failsApp ErrUnsupportedCleanupTarget
  end.

Definition DeleteOutputsForOwner (owner : BatchImageOwner) (batchID : string) : M BatchImagePublicBatch :=
  let* job := ownJob owner batchID in
  if eqs (jobStatus job) BatchImageJobStatusOutputDeleted || bool_decide (is_Some (OutputDeletedAt (state job)))
  then ok (toPublic job)
  else if negb (eqs (jobStatus job) BatchImageJobStatusCompleted) then failsApp ErrBatchImageOutputDeleteNotReady
  else
    run AppendBatchImageEvent (jobID job) "manual_output_delete_requested" in
    do* cleanupJob job CleanupTargetOutput in
    let* updated := ownJob owner batchID in ok (toPublic updated).

Definition CleanupInput (batchID : string) : M unit :=
  let* job := GetBatchImageJobByBatchID batchID in cleanupJob job CleanupTargetInput.

Definition CleanupOutput (batchID : string) : M unit :=
  let* job := GetBatchImageJobByBatchID batchID in cleanupJob job CleanupTargetOutput.

(** How many were cleaned, how many failed. *)
Fixpoint cleanupJobs (target : CleanupTarget) (jobs : list BatchImageJob) (cleaned failures : Z) : P (Z * Z) :=
  match jobs with
  | [] => Ret (cleaned, failures)
  | job :: jobs =>
      bindProg (λ r, match r with
                     | Ok _ => cleanupJobs target jobs (cleaned + 1) failures
                     | Err _ => cleanupJobs target jobs cleaned (failures + 1)
                     end) (cleanupJob job target)
  end.

Record BatchImageCleanupRunResult := mkCleanupRun { InputCleaned : Z; OutputCleaned : Z; Failures : Z }.

Definition CleanupRunOnce (now : Time) : M BatchImageCleanupRunResult :=
  let at_ now :=
    let* inputJobs := ListBatchImageJobsDueForInputCleanup (Add now (- inputRetention w)) (cleanupLimit w) in
    bindProg (λ inputs,
      let* outputJobs := ListBatchImageJobsDueForOutputCleanup now (cleanupLimit w) in
      bindProg (λ outputs, ok (mkCleanupRun inputs.1 outputs.1 outputs.2))
        (cleanupJobs CleanupTargetOutput outputJobs 0 inputs.2))
      (cleanupJobs CleanupTargetInput inputJobs 0 0) in
  if IsZero now then Clock at_ else at_ now.
End services.

Arguments mkSubmitWorld {Account}. Arguments mkChoice {Account}.
Arguments enabled {Account}. Arguments groupAllows {Account}. Arguments clientModel {Account}. Arguments choose {Account}.
Arguments randomBytes {Account}.
Arguments chosenProvider {Account}. Arguments chosenService {Account}. Arguments chosenAccount {Account}.
Arguments chosenAccountID {Account}. Arguments chosenModel {Account}. Arguments chosenPrices {Account}.
