(* ===== verification/BatchImageInvariant.v ===== *)
(** * Batch image jobs: the invariant

    What holds of the tables at every instant ([batchInv]) and how each of the
    concurrent programs may change them ([batchGuar]).  The submission of a job
    owns it: only its program accepts the job, creates its items, or marks it
    failed without regard to the status.

    Then the statements of [BatchImageDB]: each keeps the invariant and changes
    the tables along the guarantee. *)

From S2P Require Import Prelude GoRuntime Domain AppErrors Transactions Agents UsageBilling BillingDB BillingAllowance BillingLedger BillingWallet BatchImageQueue BatchImage BatchImageRequest BatchImageIndex BatchImageDB.
#[local] Open Scope Z_scope.

(** ** Statuses *)

Definition isOver (status : string) : bool := eqs status BatchImageJobStatusFailed || eqs status BatchImageJobStatusCancelled.
Definition isUnsubmitted (status : string) : bool := eqs status BatchImageJobStatusCreated || eqs status BatchImageJobStatusUploading.
Definition isPaid (status : string) : bool := eqs status BatchImageJobStatusCompleted || eqs status BatchImageJobStatusOutputDeleted.
Definition isIndexed (status : string) : bool := eqs status BatchImageJobStatusSettling || isPaid status.
Definition isAccepted (status : string) : bool :=
  eqs status BatchImageJobStatusSubmitted || eqs status BatchImageJobStatusRunning || eqs status BatchImageJobStatusIndexing
  || isIndexed status.

(** The graph, as far as the services use it. *)
Definition moves (from to : string) : bool :=
  CanTransitionBatchImageJob from to && (negb (eqs to BatchImageJobStatusOutputDeleted) || eqs from BatchImageJobStatusCompleted).

Definition edges : list (string * string) :=
  [(BatchImageJobStatusCreated, BatchImageJobStatusUploading); (BatchImageJobStatusCreated, BatchImageJobStatusSubmitted);
   (BatchImageJobStatusCreated, BatchImageJobStatusCancelled); (BatchImageJobStatusUploading, BatchImageJobStatusSubmitted);
   (BatchImageJobStatusUploading, BatchImageJobStatusCancelled); (BatchImageJobStatusSubmitted, BatchImageJobStatusRunning);
   (BatchImageJobStatusSubmitted, BatchImageJobStatusIndexing); (BatchImageJobStatusSubmitted, BatchImageJobStatusCancelled);
   (BatchImageJobStatusRunning, BatchImageJobStatusRunning); (BatchImageJobStatusRunning, BatchImageJobStatusIndexing);
   (BatchImageJobStatusRunning, BatchImageJobStatusCancelled); (BatchImageJobStatusIndexing, BatchImageJobStatusSettling);
   (BatchImageJobStatusSettling, BatchImageJobStatusCompleted); (BatchImageJobStatusCompleted, BatchImageJobStatusOutputDeleted)].

(** A move fails a job that has not ended, or follows an edge. *)
Lemma moves_edges from to :
  moves from to = true →
  to = BatchImageJobStatusFailed ∧ IsTerminalBatchImageJobStatus from = false ∨ (from, to) ∈ edges.
Proof.
  unfold moves, CanTransitionBatchImageJob. destruct (eqs from "" || eqs to ""); [done|].
  destruct (IsTerminalBatchImageJobStatus from) eqn:Et.
  - intros [(Ho & _)%andb_true_iff Hc]%andb_true_iff. apply andb_true_iff in Ho as [->%eqs_true _].
    rewrite orb_false_l in Hc. apply eqs_true in Hc as ->. right. unfold edges. set_solver.
  - destruct (eqs to BatchImageJobStatusFailed) eqn:Ef; [apply eqs_true in Ef as ->; by left|].
    intros [Ha _]%andb_true_iff. right. revert Ha. unfold allowedTransition.
    repeat match goal with
      | |- context [if eqs from ?x then _ else _] => destruct (eqs from x) eqn:?E; [apply eqs_true in E as ->|clear E]
      end; rewrite ?orb_true_iff, ?eqs_true; unfold edges; intros Hto; try done; destruct_or?; subst; set_solver.
Qed.

(** ** Requests of the ledger *)

Definition releaseKey (batchID : string) : string := batchImageReleaseRequestPrefix +:+ batchID.
Definition captureKey (batchID : string) : string := batchImageCaptureRequestPrefix +:+ batchID.

Definition released (d : batchDB) (batchID : string) : Prop := ∃ key, (releaseKey batchID, key) ∈ requestsOf (ledger d).
Definition captured (d : batchDB) (batchID : string) : Prop := ∃ key, (captureKey batchID, key) ∈ requestsOf (ledger d).

(** An identifier of the form that the queue takes, and that needs no trimming. *)
Definition clean (batchID : string) : Prop :=
  IsValidBatchImageID batchID = true ∧ TrimSpace batchID = batchID ∧ TrimSpace (releaseKey batchID) = releaseKey batchID ∧
  TrimSpace (captureKey batchID) = captureKey batchID ∧
  TrimSpace (BatchImageHoldRequestID batchID) = (batchImageHoldRequestPrefix +:+ batchID)%string.

Lemma hexDigit_solid n : (n < 16)%N → solid (hexDigit n).
Proof.
  intros Hn. assert (H : N.to_nat n ∈ seq 0 16) by (apply elem_of_seq; lia). revert H. unfold hexDigit. generalize (N.to_nat n).
  apply Forall_forall. unfold solid. repeat constructor; vm_compute; try congruence; by intros [? ?].
Qed.

(** An ASCII text between two bytes that are no spaces, after a prefix. *)
Lemma TrimSpace_prefixed p a body b s :
  String.list_ascii_of_string s = a :: body ++ [b] → solid a → solid b →
  match String.list_ascii_of_string p with [] => True | x :: _ => solid x end → TrimSpace (p +:+ s) = p +:+ s.
Proof.
  intros E Ha Hb Hp. destruct (String.list_ascii_of_string p) as [|x l] eqn:Ep.
  - apply (TrimSpace_solid _ a body b); [|done..]. by rewrite list_ascii_app, Ep.
  - apply (TrimSpace_solid _ x (l ++ a :: body) b); [|done..]. rewrite list_ascii_app, Ep, E. cbn. by rewrite <- app_assoc.
Qed.

Lemma NewBatchImageID_valid bytes : bytes ≠ [] → IsValidBatchImageID (NewBatchImageID bytes) = true.
Proof. intros Hne. destruct bytes as [|x bytes]; [done|]. apply andb_true_iff. split; [done|]. apply Z.ltb_lt, inj_lt. unfold NewBatchImageID, hexEncode, "+:+". cbn. lia. Qed.

Lemma NewBatchImageID_clean bytes : bytes ≠ [] → clean (NewBatchImageID bytes).
Proof.
  intros Hne. split; [by apply NewBatchImageID_valid|].
  assert (∃ body b, String.list_ascii_of_string (NewBatchImageID bytes) = "i"%char :: body ++ [b] ∧ solid b) as (body & b & E & Hb).
  { unfold NewBatchImageID. rewrite list_ascii_app. unfold hexEncode. rewrite String.list_ascii_of_string_of_list_ascii.
    destruct (exists_last (l := "i"%char :: bytes)) as (l & z & El); [done|]. destruct bytes as [|x bytes].
    - exists (String.list_ascii_of_string "mgbatch"), "_"%char. split; [done|]. split; [split; [done|]|done]. by intros [_ ?].
    - destruct (exists_last (l := x :: bytes)) as (l' & y & ->); [done|]. rewrite bind_app. cbn [mbind list_bind app].
      exists (String.list_ascii_of_string "mgbatch_" ++ (l' ≫= λ b, [hexDigit (byteOf b / 16); hexDigit (byteOf b mod 16)]%N) ++ [hexDigit (byteOf y / 16)]%N).
      exists (hexDigit (byteOf y mod 16)). split; [cbn; by rewrite <- !app_assoc|]. apply hexDigit_solid. by apply N.mod_lt. }
  assert (Hi : solid "i"%char) by (split; [split; [done|]; by intros [_ ?] | done]).
  assert (Hbl : solid "b"%char) by (split; [split; [done|]; by intros [_ ?] | done]).
  assert (Ht : TrimSpace (NewBatchImageID bytes) = NewBatchImageID bytes) by (by apply (TrimSpace_solid _ "i"%char body b)).
  unfold BatchImageHoldRequestID. rewrite Ht. split_and!; [done|..]; by apply (TrimSpace_prefixed _ "i"%char body b).
Qed.

(** ** The invariant *)

(** The state of one job, with its items, the identifiers it was submitted with,
    and whether its hold was returned or captured. *)
Record jobInv (i : BatchImageJobInfo) (s : BatchImageJobState) (rows : list BatchImageItem) (sent : gset string)
    (returned paid : Prop) : Prop := {
  inv_known : isUnsubmitted (Status s) = true ∨ isOver (Status s) = true ∨ isAccepted (Status s) = true;
  inv_named : ∀ name, ProviderJobName s = Some name → TrimSpace name ≠ "";
  inv_unsubmitted : isUnsubmitted (Status s) = true → ProviderJobName s = None ∧ RetryCount s = 0;
  inv_accepted : isAccepted (Status s) = true → is_Some (ProviderJobName s);
  inv_retries : 0 <= RetryCount s;
  inv_hold : is_Some (ProviderJobName s) → isOver (Status s) = false → RetryCount s < 5 → ¬ returned;
  inv_unique : NoDup (ids rows);
  inv_sent : ∀ id, id ∈ ids rows → id ∈ sent;
  inv_size : Z.of_nat (size sent) <= ItemCount i;
  inv_counts : SuccessCount s = 0 ∧ FailCount s = 0 ∧ Forall (λ r, itemStatus r = BatchImageItemStatusPending) rows ∨
               SuccessCount s = successes rows ∧ FailCount s = failures rows ∧ Forall finished rows;
  inv_nonempty : is_Some (ProviderJobName s) → rows ≠ [];
  inv_indexed : isIndexed (Status s) = true →
                SuccessCount s = successes rows ∧ FailCount s = failures rows ∧ Forall finished rows;
  inv_paid : isPaid (Status s) = true → paid ∧ is_Some (ActualCost s) ∧ is_Some (ManifestHash s);
  inv_unpaid : isPaid (Status s) = false → ManifestHash s = None;
}.

Definition sentOf (d : batchDB) (batchID : string) : gset string := default ∅ (requested d !! batchID).

Definition rowInv (d : batchDB) (batchID : string) (i : BatchImageJobInfo) (s : BatchImageJobState) : Prop :=
  jobInv i s (itemsOf d batchID) (sentOf d batchID) (released d batchID) (captured d batchID).

Record batchInv (d : batchDB) : Prop := {
  inv_id : ∀ b i s, jobs d !! b = Some (i, s) → BatchID i = b ∧ clean b;
  inv_job : ∀ b i s, jobs d !! b = Some (i, s) → rowInv d b i s;
  inv_absent : ∀ b, jobs d !! b = None → items d !! b = None ∧ requested d !! b = None ∧ ¬ released d b;
  inv_queue : tracked (queue d);
}.

(** ** The guarantee *)

(** The change of a state by a program: [owner] is its submission. *)
Record stateChange (owner : bool) (s s' : BatchImageJobState) : Prop := {
  ch_status : Status s' = Status s ∨ moves (Status s) (Status s') = true ∨
              owner = true ∧ ProviderJobName s = None ∧ Status s' = BatchImageJobStatusFailed;
  ch_name : ProviderJobName s' = ProviderJobName s ∨ owner = true ∧ ProviderJobName s = None;
  ch_version : Version s <= Version s';
  ch_bump : Status s' ≠ Status s → Version s < Version s';
  ch_retries : RetryCount s <= RetryCount s';
}.

(** When the hold of a job may be returned. *)
Definition mayRelease (owner : bool) (s : BatchImageJobState) : Prop :=
  isOver (Status s) = true ∨ is_Some (ProviderJobName s) ∧ 5 <= RetryCount s ∨ owner = true ∧ ProviderJobName s = None.

Definition owns (a : agent) (batchID : string) : bool := bool_decide (a = Some batchID).

Record jobChange (a : agent) (b : string) (d d' : batchDB) : Prop := {
  ch_row : match jobs d !! b, jobs d' !! b with
           | Some (i, s), Some (i', s') => i' = i ∧ stateChange (owns a b) s s'
           | None, Some _ => a = Some b
           | Some _, None => False
           | None, None => True
           end;
  ch_items : itemsOf d' b = itemsOf d b ∨ Forall finished (itemsOf d' b) ∧ (∃ i s, jobs d !! b = Some (i, s) ∧ is_Some (ProviderJobName s)) ∨
             a = Some b ∧ ∀ i s, jobs d !! b = Some (i, s) → ProviderJobName s = None;
  ch_sent : sentOf d' b = sentOf d b ∨ a = Some b ∧ ∀ i s, jobs d !! b = Some (i, s) → ProviderJobName s = None;
  ch_released : released d' b → released d b ∨ ∃ i s, jobs d' !! b = Some (i, s) ∧ mayRelease (owns a b) s;
}.

Definition batchGuar (a : agent) (d d' : batchDB) : Prop :=
  (∀ b, jobChange a b d d') ∧ requestsOf (ledger d) ⊆ requestsOf (ledger d').

Lemma stateChange_refl owner s : stateChange owner s s.
Proof. split; [by left | by left | lia | done | lia]. Qed.

(** A change that leaves the jobs alone. *)
Lemma jobChange_frame a b d d' :
  jobs d' !! b = jobs d !! b → itemsOf d' b = itemsOf d b → sentOf d' b = sentOf d b → (released d' b → released d b) →
  jobChange a b d d'.
Proof.
  intros E1 E2 E3 E4. split; [|by left|by left|by left; apply E4].
  rewrite E1. destruct (jobs d !! b) as [[i s]|]; [|done]. split; [done | apply stateChange_refl].
Qed.

Lemma batchGuar_refl a d : batchGuar a d d.
Proof. split; [|done]. intros b. by apply jobChange_frame. Qed.

(** What the shared programs do, the owner of a job may do. *)
Lemma stateChange_owner s s' owner : stateChange false s s' → stateChange owner s s'.
Proof.
  intros [[?|[?|(? & _)]] [?|(? & _)] ? ? ?]; try done; split; auto.
Qed.

Lemma batchGuar_shared a d d' : batchGuar None d d' → batchGuar a d d'.
Proof.
  intros [Hj Hr]. split; [|done]. intros b. destruct (Hj b) as [H1 H2 H3 H4]. split.
  - destruct (jobs d !! b) as [[i s]|], (jobs d' !! b) as [[i' s']|]; try done.
    destruct H1 as [-> H1]. split; [done | by apply stateChange_owner].
  - destruct H2 as [?|[?|[? _]]]; auto. done.
  - destruct H3 as [?|[? _]]; auto. done.
  - intros Hrel. destruct (H4 Hrel) as [?|(i & s & ? & [?|[?|[? _]]])]; [by left | right; exists i, s.. | done]; (split; [done|]).
    + by left.
    + by right; left.
Qed.

(** ** What a program may know of a job *)

Abbreviation batchRely := (anyone batchGuar).
Abbreviation stable := (stable batchInv batchRely).
Abbreviation soundBy a := (sound batchInv (batchGuar a)).
Abbreviation sound := (sound batchInv (batchGuar None)).
Abbreviation tells := (tells batchInv).

(** The row of the job satisfies [φ]. *)
Definition knows (φ : BatchImageJobInfo → BatchImageJobState → Prop) (b : string) (d : batchDB) : Prop :=
  ∃ i s, jobs d !! b = Some (i, s) ∧ φ i s.

Definition exists_ (i : BatchImageJobInfo) : string → batchDB → Prop := knows (λ i' _, i' = i).
Definition ended : string → batchDB → Prop := knows (λ _ s, isOver (Status s) = true).
Definition accepted : string → batchDB → Prop := knows (λ _ s, is_Some (ProviderJobName s)).
Definition begun : string → batchDB → Prop := knows (λ _ s, isUnsubmitted (Status s) = false).
Definition exhausted : string → batchDB → Prop := knows (λ _ s, is_Some (ProviderJobName s) ∧ 5 <= RetryCount s).
Definition settled : string → batchDB → Prop := knows (λ _ s, isIndexed (Status s) = true).

(** The statuses, by cases. *)
Ltac statuses :=
  repeat match goal with
    | H : context [eqs (Status ?s) ?x] |- _ => destruct (eqs (Status s) x) eqn:?E; [apply eqs_true in E|]
    end.

Lemma isOver_terminal status : isOver status = true → IsTerminalBatchImageJobStatus status = true.
Proof. unfold isOver. intros [->%eqs_true| ->%eqs_true]%orb_true_iff; reflexivity. Qed.

(** Along a move, class by class; by the table of edges. *)
Lemma edges_forall (φ : string → string → bool) from to :
  forallb (λ e, φ e.1 e.2) edges = true → (from, to) ∈ edges → φ from to = true.
Proof. intros H He. rewrite forallb_forall in H. apply (H (from, to)). by apply list_elem_of_In. Qed.

Ltac by_edges φ He := exact (edges_forall φ _ _ eq_refl He).

Lemma edge_over from to : (from, to) ∈ edges → isOver from = false.
Proof. intros He. apply negb_true_iff. by_edges (λ f (_ : string), negb (isOver f)) He. Qed.
Lemma edge_begun from to : (from, to) ∈ edges → isUnsubmitted to = true → isUnsubmitted from = true.
Proof.
  intros He. apply implb_true_iff. by_edges (λ f t, implb (isUnsubmitted t) (isUnsubmitted f)) He.
Qed.
Lemma edge_indexed from to : (from, to) ∈ edges → isIndexed from = true → isIndexed to = true.
Proof. intros He. apply implb_true_iff. by_edges (λ f t, implb (isIndexed f) (isIndexed t)) He. Qed.

Lemma edge_paid from to : (from, to) ∈ edges → isPaid from = true → isPaid to = true.
Proof. intros He. apply implb_true_iff. by_edges (λ f t, implb (isPaid f) (isPaid t)) He. Qed.

Lemma paid_terminal status : isPaid status = true → IsTerminalBatchImageJobStatus status = true.
Proof. unfold isPaid. intros [->%eqs_true| ->%eqs_true]%orb_true_iff; reflexivity. Qed.

(** Only a paid job stays paid, or becomes it by its settlement. *)
Lemma moves_unpaid from to : moves from to = true → isPaid to = false → isPaid from = false.
Proof.
  intros Hm Hp. apply not_true_iff_false. intros Hf. apply moves_edges in Hm as [[_ Ht]|He].
  - by rewrite (paid_terminal _ Hf) in Ht.
  - by rewrite (edge_paid _ _ He Hf) in Hp.
Qed.

Lemma edge_accepted from to :
  (from, to) ∈ edges → isAccepted to && negb (eqs to BatchImageJobStatusSubmitted) = true → isAccepted from = true.
Proof.
  intros He. apply implb_true_iff.
  by_edges (λ f t, implb (isAccepted t && negb (eqs t BatchImageJobStatusSubmitted)) (isAccepted f)) He.
Qed.

Lemma edge_submitted from to : (from, to) ∈ edges → eqs to BatchImageJobStatusSubmitted = true → isUnsubmitted from = true.
Proof. intros He. apply implb_true_iff. by_edges (λ f t, implb (eqs t BatchImageJobStatusSubmitted) (isUnsubmitted f)) He. Qed.

Lemma over_not_begun status : isOver status = true → isUnsubmitted status = false.
Proof. unfold isOver. intros [->%eqs_true| ->%eqs_true]%orb_true_iff; reflexivity. Qed.

Lemma change_over owner s s' : stateChange owner s s' → isOver (Status s) = true → isOver (Status s') = true.
Proof.
  intros [[->|[Hm|(_ & _ & ->)]] _ _ _ _] Ho; [done| |done].
  apply moves_edges in Hm as [[-> _]|He]; [done|]. by rewrite (edge_over _ _ He) in Ho.
Qed.

Lemma change_begun owner s s' : stateChange owner s s' → isUnsubmitted (Status s) = false → isUnsubmitted (Status s') = false.
Proof.
  intros [[->|[Hm|(_ & _ & ->)]] _ _ _ _] Ho; [done| |done].
  apply moves_edges in Hm as [[-> _]|He]; [done|]. apply not_true_iff_false. intros H. by rewrite (edge_begun _ _ He H) in Ho.
Qed.

Lemma change_name owner s s' : stateChange owner s s' → is_Some (ProviderJobName s) → ProviderJobName s' = ProviderJobName s.
Proof. intros [_ [?|[_ Hn]] _ _ _] Hs; [done|]. rewrite Hn in Hs. by destruct Hs. Qed.

(** A fact on the row that its changes keep is stable. *)
Lemma stable_knows φ b :
  (∀ owner i s s', stateChange owner s s' → φ i s → φ i s') → stable (knows φ b).
Proof.
  intros Hφ d d' _ _ [a [Hj _]] (i & s & E & H). destruct (Hj b) as [Hr _ _ _]. rewrite E in Hr.
  destruct (jobs d' !! b) as [[i' s']|] eqn:E'; [|done]. destruct Hr as [-> Hc]. exists i, s'. split; [done | by eapply Hφ].
Qed.

Lemma stable_exists i b : stable (exists_ i b).
Proof. by apply stable_knows. Qed.
Lemma stable_ended b : stable (ended b).
Proof. apply stable_knows. intros ? _. apply change_over. Qed.
Lemma stable_begun b : stable (begun b).
Proof. apply stable_knows. intros ? _. apply change_begun. Qed.
Lemma stable_accepted b : stable (accepted b).
Proof. apply stable_knows. intros owner _ s s' Hc Hs. by rewrite (change_name _ _ _ Hc Hs). Qed.
Lemma stable_exhausted b : stable (exhausted b).
Proof.
  apply stable_knows. intros owner _ s s' Hc [Hs Hr]. rewrite (change_name _ _ _ Hc Hs). split; [done|].
  pose proof (ch_retries _ _ _ Hc). lia.
Qed.

(** The hold of the job was captured. *)
Lemma stable_captured b : stable (λ d, captured d b).
Proof. intros d d' _ _ [a [_ Hr]] [k Hk]. exists k. by apply Hr. Qed.

(** All items of an accepted job have a result. *)
Definition allFinished (b : string) (d : batchDB) : Prop := accepted b d ∧ Forall finished (itemsOf d b).

Lemma stable_allFinished b : stable (allFinished b).
Proof.
  intros d d' HI HI' HG [Ha Hf]. split; [exact (stable_accepted b d d' HI HI' HG Ha)|]. destruct HG as [a [Hj _]].
  destruct (ch_items _ _ _ _ (Hj b)) as [->|[[? _]|[_ Hn]]]; [done..|].
  destruct Ha as (i & s & E & [n Hs]). by rewrite (Hn i s E) in Hs.
Qed.

(** Some of the identifiers that an accepted job was submitted with. *)
Definition sentAll (S : gset string) (b : string) (d : batchDB) : Prop := accepted b d ∧ S ⊆ sentOf d b.

Lemma stable_sentAll S b : stable (sentAll S b).
Proof.
  intros d d' HI HI' HG [Ha Hs]. split; [exact (stable_accepted b d d' HI HI' HG Ha)|]. destruct HG as [a [Hj _]].
  destruct (ch_sent _ _ _ _ (Hj b)) as [->|[_ Hn]]; [done|].
  destruct Ha as (i & s & E & [n Hn']). by rewrite (Hn i s E) in Hn'.
Qed.

(** ** States *)

(** The columns that the invariant reads, the retries apart. *)
Definition core (s : BatchImageJobState) : string * option string * Z * Z * option float64 * option string :=
  (Status s, ProviderJobName s, SuccessCount s, FailCount s, ActualCost s, ManifestHash s).

Lemma core_change owner s s' :
  core s' = core s → Version s <= Version s' → RetryCount s <= RetryCount s' → stateChange owner s s'.
Proof. unfold core. intros E Hv Hr. simplify_eq. split; [by left | by left | done | congruence | done]. Qed.

Lemma core_inv i s s' rows sent returned paid :
  core s' = core s → RetryCount s <= RetryCount s' → (isUnsubmitted (Status s) = true → RetryCount s' = RetryCount s) →
  jobInv i s rows sent returned paid → jobInv i s' rows sent returned paid.
Proof.
  unfold core. intros E Hr Hu []. simplify_eq. split; repeat match goal with H : _ s' = _ s |- _ => rewrite H; clear H end; auto.
  - intros Hs. rewrite Hu by done. auto.
  - lia.
  - intros ? ? ?. apply inv_hold0; [done..|lia].
Qed.

(** A status is set; the counts and the retries stay. *)
Definition counters (s : BatchImageJobState) : option string * Z * Z * Z :=
  (ProviderJobName s, SuccessCount s, FailCount s, RetryCount s).

Lemma moves_bump owner s s' :
  counters s' = counters s → Version s' = Version s + 1 → moves (Status s) (Status s') = true → stateChange owner s s'.
Proof. unfold counters. intros E Hv Hm. simplify_eq. split; [by right; left | by left | lia | lia | lia]. Qed.

(** To a status before the items are complete. *)
Lemma moved_inv i s s' rows sent returned paid :
  counters s' = counters s → ManifestHash s' = ManifestHash s → moves (Status s) (Status s') = true →
  (isUnsubmitted (Status s') = true ∨ isOver (Status s') = true ∨ isAccepted (Status s') = true) →
  (isAccepted (Status s') = true → isAccepted (Status s) = true) → isIndexed (Status s') = false →
  jobInv i s rows sent returned paid → jobInv i s' rows sent returned paid.
Proof.
  unfold counters. intros E Eh Hm Hk Ha Hi Hinv. destruct Hinv. simplify_eq.
  split; repeat match goal with H : _ s' = _ s |- _ => rewrite H; clear H end; auto.
  - intros Hu. apply inv_unsubmitted0. apply moves_edges in Hm as [[Hf _]|He]; [|by eapply edge_begun]. by rewrite Hf in Hu.
  - intros Hn Ho Hr. apply inv_hold0; [done| |done].
    apply moves_edges in Hm as [[Hf _]|He]; [by rewrite Hf in Ho | by eapply edge_over].
  - by rewrite Hi.
  - unfold isIndexed in Hi. apply orb_false_iff in Hi as [_ Hi]. by rewrite Hi.
  - intros Hp. by eapply inv_unpaid0, moves_unpaid.
Qed.

(** To settling, when the items have their results. *)
Lemma settling_inv i s s' rows sent returned paid :
  counters s' = counters s → ManifestHash s' = ManifestHash s → Status s = BatchImageJobStatusIndexing → Status s' = BatchImageJobStatusSettling →
  SuccessCount s = successes rows ∧ FailCount s = failures rows ∧ Forall finished rows →
  jobInv i s rows sent returned paid → jobInv i s' rows sent returned paid.
Proof.
  unfold counters. intros E Eh Es Es' Hf Hinv. destruct Hinv. simplify_eq.
  split; repeat match goal with H : _ s' = _ s |- _ => rewrite H; clear H end; rewrite ?Es'; auto.
  - done.
  - intros _. apply inv_accepted0. by rewrite Es.
  - intros ? _ ?. apply inv_hold0; [done| |done]. by rewrite Es.
  - done.
  - intros _. apply inv_unpaid0. by rewrite Es.
Qed.

(** From settling to completed, once the hold was captured. *)
Lemma completed_inv i s s' rows sent (returned paid : Prop) :
  counters s' = counters s → isIndexed (Status s) = true → isOver (Status s) = false → isPaid (Status s') = true →
  paid → is_Some (ActualCost s') → is_Some (ManifestHash s') →
  jobInv i s rows sent returned paid → jobInv i s' rows sent returned paid.
Proof.
  unfold counters. intros E Es Ho Es' Hp Hc Hm Hinv. destruct Hinv. simplify_eq.
  assert (Ha : isAccepted (Status s) = true) by (unfold isAccepted; by rewrite Es, orb_true_r).
  assert (Hx : isUnsubmitted (Status s') = false ∧ isAccepted (Status s') = true).
  { unfold isPaid in Es'. apply orb_true_iff in Es' as [->%eqs_true| ->%eqs_true]; done. }
  destruct Hx as [Hu Ha'].
  split; repeat match goal with H : _ s' = _ s |- _ => rewrite H; clear H end; auto.
  - by rewrite Hu.
  - by rewrite Es'.
Qed.

(** An indexing puts results in the place of the items. *)
Lemma indexed_inv i s s' rows rows' sent returned paid :
  Status s = BatchImageJobStatusIndexing → Status s' = Status s → ProviderJobName s' = ProviderJobName s → RetryCount s' = RetryCount s →
  ManifestHash s' = ManifestHash s → NoDup (ids rows') → (∀ id, id ∈ ids rows' → id ∈ sent) → rows' ≠ [] →
  SuccessCount s' = successes rows' ∧ FailCount s' = failures rows' ∧ Forall finished rows' →
  jobInv i s rows sent returned paid → jobInv i s' rows' sent returned paid.
Proof.
  intros Es E1 E2 E3 E4 Hn Hs Hne Hc Hinv. destruct Hinv.
  split; rewrite ?E1, ?E2, ?E3, ?E4; auto. all: rewrite Es; done.
Qed.

(** ** Statements that change one row *)

Lemma rowInv_same d d' b i s :
  itemsOf d' b = itemsOf d b → sentOf d' b = sentOf d b → ledger d' = ledger d → rowInv d b i s → rowInv d' b i s.
Proof. unfold rowInv, released, captured. by intros -> -> ->. Qed.

Lemma jobs_put b i s d : jobs (putJob b i s d) = <[b := (i, s)]> (jobs d).
Proof. reflexivity. Qed.

Lemma put_row a d b i s s' :
  batchInv d → jobs d !! b = Some (i, s) → stateChange (owns a b) s s' → (rowInv d b i s → rowInv d b i s') →
  batchInv (putJob b i s' d) ∧ batchGuar a d (putJob b i s' d).
Proof.
  intros [Hid Hj Hab Hq] E Hc Hr. split; [split|split; [|done]].
  - intros c j u. rewrite jobs_put. intros [(<- & [= <- <-])|[_ Ec]]%lookup_insert_Some; by eapply Hid.
  - intros c j u. rewrite jobs_put. intros [(<- & [= <- <-])|[_ Ec]]%lookup_insert_Some; [by apply Hr, Hj | by apply (Hj c j u)].
  - intros c. rewrite jobs_put. intros [Ec _]%lookup_insert_None. by apply Hab.
  - done.
  - intros c. destruct (decide (b = c)) as [<-|Hn]; [|apply jobChange_frame; [by apply lookup_insert_ne|done..]].
    split; [| by left | by left | by left]. rewrite jobs_put, E, lookup_insert_eq. done.
Qed.

(** An event does not matter. *)
Lemma put_event a d d' events :
  batchInv d' ∧ batchGuar a d d' → batchInv (setEvents events d') ∧ batchGuar a d (setEvents events d').
Proof. intros [[] [Hg Hr]]. split; [by split|]. split; [|done]. intros b. destruct (Hg b). by split. Qed.

Lemma sound_refl {X} a (f : txn X) F : (∀ t d, snd (f t d) = d) → soundBy a f F.
Proof. intros E t d Hd _. rewrite E. split; [done | apply batchGuar_refl]. Qed.

Lemma sound_batchReading {X} a (f : Time → batchDB → result dbError X) F : soundBy a (reading f) F.
Proof. by apply sound_refl. Qed.

Lemma sound_event a b e F : soundBy a (eventInsert b e) F.
Proof.
  intros t d Hd _. unfold eventInsert. case_bool_decide; cbn [snd]; [apply put_event|]; (split; [done | apply batchGuar_refl]).
Qed.

Lemma sound_jobUpdate a b cond set F :
  (∀ t d i s, batchInv d → F d → jobs d !! b = Some (i, s) → cond i s = true →
     stateChange (owns a b) s (set t s) ∧ (rowInv d b i s → rowInv d b i (set t s))) →
  soundBy a (jobUpdate b cond set) F.
Proof.
  intros H t d Hd Hf. unfold jobUpdate. destruct (jobs d !! b) as [[i s]|] eqn:E; [|split; [done | apply batchGuar_refl]].
  destruct (cond i s) eqn:Ec; cbn [snd]; [|split; [done | apply batchGuar_refl]].
  destruct (H t d i s Hd Hf E Ec) as [H1 H2]. by apply put_row with s.
Qed.

(** A statement that leaves the columns of the invariant alone. *)
Lemma sound_coreUpdate a b cond set F :
  (∀ t s, core (set t s) = core s ∧ Version s <= Version (set t s) ∧ RetryCount (set t s) = RetryCount s) →
  soundBy a (jobUpdate b cond set) F.
Proof.
  intros H. apply sound_jobUpdate. intros t d i s _ _ _ _. destruct (H t s) as (H1 & H2 & H3).
  split; [by apply core_change; [..|lia] | apply core_inv; [done|lia|done]].
Qed.

(** A row that was counted satisfies the condition as it was. *)
Lemma tells_jobUpdate b cond set F (Q : BatchImageJobInfo → BatchImageJobState → Prop) :
  (∀ t d i s, batchInv d → F d → jobs d !! b = Some (i, s) → cond i s = true → Q i (set t s)) →
  tells (jobUpdate b cond set) F (λ n d, n ≠ 0 → knows Q b d).
Proof.
  intros H t d n Hd Hf. unfold jobUpdate. destruct (jobs d !! b) as [[i s]|] eqn:E; [|by intros [= <-]].
  destruct (cond i s) eqn:Ec; cbn [fst snd]; [|by intros [= <-]]. intros _ _. exists i, (set t s).
  split; [by apply lookup_insert_eq | by apply (H t d)].
Qed.

(** ** Transitions *)

(** The targets of [TransitionBatchImageJobStatus], and what a program must know
    before it takes the last one. *)
Definition mayMoveTo (toStatus b : string) (d : batchDB) : Prop :=
  toStatus ∈ [BatchImageJobStatusUploading; BatchImageJobStatusRunning; BatchImageJobStatusIndexing; BatchImageJobStatusFailed;
              BatchImageJobStatusCancelled] ∨
  toStatus = BatchImageJobStatusSettling ∧ allFinished b d.

Lemma can_moves from to :
  CanTransitionBatchImageJob from to = true → to ≠ BatchImageJobStatusOutputDeleted → moves from to = true.
Proof. intros H Ho. unfold moves. apply eqs_false in Ho. by rewrite H, Ho. Qed.

Lemma mayMove_class to :
  to ∈ [BatchImageJobStatusUploading; BatchImageJobStatusRunning; BatchImageJobStatusIndexing; BatchImageJobStatusFailed;
        BatchImageJobStatusCancelled] →
  (isUnsubmitted to = true ∨ isOver to = true ∨ isAccepted to = true) ∧ isIndexed to = false ∧
  negb (eqs to BatchImageJobStatusSubmitted) = true ∧ eqs to BatchImageJobStatusOutputDeleted = false.
Proof.
  revert to. apply Forall_forall. repeat constructor; try reflexivity; (by left) || (by right; left) || by right; right.
Qed.

Lemma transition_counters to opts now s : counters (transitionState to opts now s) = counters s.
Proof. reflexivity. Qed.

(** Items that are not finished are pending. *)
Lemma finished_not_pending rows :
  Forall (λ r, itemStatus r = BatchImageItemStatusPending) rows → Forall finished rows → rows = [].
Proof.
  intros Hp Hf. destruct rows as [|r rows]; [done|]. apply Forall_cons in Hp as [Hp _], Hf as [Hf _].
  destruct Hf as [Hf|Hf]; rewrite Hp in Hf; done.
Qed.

Lemma all_counted d b i s :
  rowInv d b i s → Forall finished (itemsOf d b) →
  SuccessCount s = successes (itemsOf d b) ∧ FailCount s = failures (itemsOf d b) ∧ Forall finished (itemsOf d b).
Proof.
  intros Hr Hf. destruct (inv_counts _ _ _ _ _ _ Hr) as [(H1 & H2 & Hp)|H]; [|done].
  by rewrite (finished_not_pending _ Hp Hf), H1, H2.
Qed.

Lemma sound_transition a b to opts F :
  (∀ d, batchInv d → F d → mayMoveTo to b d) →
  soundBy a (λ t d,
    match jobs d !! b with
    | None => (Ok (@jobNotFound unit), d)
    | Some (i, s) =>
        if negb (CanTransitionBatchImageJob (Status s) to) then (Ok (Err (AppErr ErrBatchImageInvalidTransition)), d) else
        let d := putJob b i (transitionState to opts (default t (Now opts)) s) d in
        (Ok (Ok tt), if eqs (EventType opts) "" then d else setEvents ((b, EventType opts) :: batchEvents d) d)
    end) F.
Proof.
  intros HF t d Hd Hf. destruct (jobs d !! b) as [[i s]|] eqn:E; [|split; [done | apply batchGuar_refl]].
  destruct (negb _) eqn:Ec; [split; [done | apply batchGuar_refl]|]. apply negb_false_iff in Ec.
  set (s' := transitionState to opts (default t (Now opts)) s).
  assert (H : batchInv (putJob b i s' d) ∧ batchGuar a d (putJob b i s' d)); [|by destruct (eqs _ _); [|apply put_event]].
  assert (Hm : moves (Status s) to = true).
  { apply can_moves; [done|]. intros ->. by destruct (HF d Hd Hf) as [(_ & _ & _ & H)%mayMove_class|[H _]]. }
  apply put_row with s; [done..| by apply moves_bump |]. intros Hr.
  destruct (HF d Hd Hf) as [Hto|[-> [_ Hfin]]].
  - assert (Hacc : isAccepted to = true → isAccepted (Status s) = true).
    { intros Ha. apply moves_edges in Hm as [[-> _]|He]; [done|]. apply (edge_accepted _ _ He). rewrite Ha.
      apply (mayMove_class _ Hto). }
    apply (moved_inv i s); [done | done | exact Hm | | exact Hacc | | exact Hr].
    + change (Status s') with to. revert Hto. clear. by apply mayMove_class.
    + change (Status s') with to. revert Hto. clear. by apply mayMove_class.
  - apply (settling_inv i s); [done | done | | done | by eapply all_counted | exact Hr].
    apply moves_edges in Hm as [[? _]|He]; [done|]. revert He. unfold edges. clear. set_solver.
Qed.

(** ** The other statements on rows *)

Ltac core_update := apply sound_coreUpdate; intros; split_and!; [reflexivity | cbn; lia | reflexivity].

Lemma sound_touch a b F : soundBy a (jobUpdate b (λ _ s, unsubmitted s) SetUpdatedAt) F.
Proof. core_update. Qed.
Lemma sound_outputRef a b ref F : soundBy a (jobUpdate b always (λ t s, SetUpdatedAt t (SetProviderOutputRef (Some ref) s))) F.
Proof. core_update. Qed.
Lemma sound_submitFailure a b code message F : soundBy a (jobUpdate b always (submitFailure code message false)) F.
Proof. core_update. Qed.

Lemma failed_moves s : isUnsubmitted (Status s) = true → moves (Status s) BatchImageJobStatusFailed = true.
Proof. intros [->%eqs_true| ->%eqs_true]%orb_true_iff; reflexivity. Qed.

Lemma sound_failStale a b cutoff code message F :
  soundBy a (jobUpdate b (λ _ s, unsubmitted s && bool_decide (ProviderJobName s = None) && (UpdatedAt s <=? cutoff))
    (failStale code message)) F.
Proof.
  apply sound_jobUpdate. intros t d i s _ _ _ [[Hu _]%andb_true_iff _]%andb_true_iff.
  pose proof (failed_moves s Hu) as Hm. split; [by apply moves_bump|].
  apply moved_inv; [reflexivity | reflexivity | exact Hm | right; left; reflexivity | done | reflexivity].
Qed.

(** The submission of the job marks it failed. *)
Lemma sound_submitFailed b code message F :
  (∀ d, batchInv d → F d → ∀ i s, jobs d !! b = Some (i, s) → ProviderJobName s = None) →
  soundBy (Some b) (jobUpdate b always (submitFailure code message true)) F.
Proof.
  intros HF. apply sound_jobUpdate. intros t d i s HI Hf E _. pose proof (HF d HI Hf i s E) as Hn. split.
  - split; [right; right; split_and!; [by apply bool_decide_eq_true | done | done] | by left | cbn; lia | cbn; lia | done].
  - intros Hr. destruct Hr. split; try done; cbn -[isOver].
    + right; left. reflexivity.
    + intros _. apply inv_unpaid0, not_true_iff_false. intros Hp. destruct inv_accepted0 as [n ?]; [|congruence].
      unfold isAccepted, isIndexed. by rewrite Hp, !orb_true_r.
Qed.

(** A failure is recorded on a job that has left the submission. *)
Lemma recordFailure_ok owner b code message t d i s :
  batchInv d → isUnsubmitted (Status s) = false → stateChange owner s (recordFailure code message t s) ∧
  (rowInv d b i s → rowInv d b i (recordFailure code message t s)).
Proof.
  intros _ Hu. split; [apply core_change; [reflexivity | done | cbn; lia]|].
  apply core_inv; [reflexivity | cbn; lia | by rewrite Hu].
Qed.

Lemma begun_row b d i s : begun b d → jobs d !! b = Some (i, s) → isUnsubmitted (Status s) = false.
Proof. intros (j & u & E & H) E'. rewrite E in E'. by injection E' as <- <-. Qed.

Lemma sound_recordFailure a b code message F :
  (∀ d, batchInv d → F d → begun b d) → soundBy a (jobUpdate b always (recordFailure code message)) F.
Proof.
  intros HF. apply sound_jobUpdate. intros t d i s HI Hf E _. apply recordFailure_ok; [done|]. eapply begun_row; [by apply HF | done].
Qed.

Lemma sound_settlementFailed a b code message F :
  (∀ d, batchInv d → F d → begun b d) →
  soundBy a (λ t d,
    match jobs d !! b with
    | None => (Ok jobNotFound, d)
    | Some (i, s) => (Ok (Ok (RetryCount s + 1)), putJob b i (recordFailure code message t s) d)
    end) F.
Proof.
  intros HF t d HI Hf. destruct (jobs d !! b) as [[i s]|] eqn:E; [|split; [done | apply batchGuar_refl]].
  assert (Hu : isUnsubmitted (Status s) = false) by (eapply begun_row; [by apply HF | done]).
  destruct (recordFailure_ok (owns a b) b code message t d i s HI Hu) as [H1 H2]. by apply put_row with s.
Qed.

(** ** The marks of a job that has ended *)

Lemma sound_inputDeleted a b deletedAt F :
  soundBy a (jobUpdate b always (λ _ s,
    bumpVersion (SetUpdatedAt deletedAt (SetInputDeletedAt (stampIf true deletedAt (InputDeletedAt s)) s)))) F.
Proof. core_update. Qed.
Lemma sound_downloaded a b at_ F :
  soundBy a (jobUpdate b always (λ _ s, SetUpdatedAt at_ (SetDownloadedAt (stampIf true at_ (DownloadedAt s)) s))) F.
Proof. core_update. Qed.
Lemma sound_userDeleted a b cond deletedAt F :
  soundBy a (jobUpdate b cond (λ _ s, SetUpdatedAt deletedAt (SetUserDeletedAt (Some deletedAt) s))) F.
Proof. core_update. Qed.

Lemma sound_outputDeleted a b deletedAt F :
  soundBy a (jobUpdate b always (λ _ s,
    let completed := eqs (Status s) BatchImageJobStatusCompleted in
    bumpVersion (SetUpdatedAt deletedAt (SetFinishedAt (stampIf completed deletedAt (FinishedAt s))
      (SetOutputDeletedAt (stampIf true deletedAt (OutputDeletedAt s))
      (SetStatus (if completed then BatchImageJobStatusOutputDeleted else Status s) s)))))) F.
Proof.
  apply sound_jobUpdate. intros t d i s _ _ _ _. cbv zeta. destruct (eqs (Status s) _) eqn:E.
  - apply eqs_true in E. split; [apply moves_bump; [reflexivity | reflexivity | by rewrite E]|].
    intros Hr. assert (Hp := inv_paid _ _ _ _ _ _ Hr). rewrite E in Hp. destruct (Hp eq_refl) as (H1 & H2 & H3).
    apply (completed_inv i s); try done; by rewrite E.
  - split; [apply core_change; [reflexivity | cbn; lia | done] | apply core_inv; [reflexivity | cbn; lia | done]].
Qed.

(** ** Completion *)

Lemma sound_markSettled `{UnicodeCase} `{BillingText} `{SQLNumeric} `{Calendar} `{SQLCalendar} `{GoWeek} a p F :
  (∀ d, batchInv d → F d → captured d (msBatchID p)) →
  soundBy a (λ t d,
    match stored10 (msActualCost p), jobs d !! msBatchID p with
    | None, _ => (Err (DBError "numeric"), d)
    | Some _, None => (Ok (@jobNotFound unit), d)
    | Some cost, Some (i, s) =>
        if eqs (Status s) BatchImageJobStatusSettling && manifestFits (msManifestHash p) s then
          let d := putJob (msBatchID p) i (settledState p cost (default t (msNow p)) s) d in
          (Ok (Ok tt), setEvents ((msBatchID p, "settlement_completed"%string) :: batchEvents d) d)
        else
          let e := if eqs (Status s) BatchImageJobStatusSettling then ErrBatchImageSettlementManifestConflict
                   else if eqs (Status s) BatchImageJobStatusCompleted then ErrBatchImageAlreadySettled
                   else ErrBatchImageSettlementInvalidStatus in
          (Ok (Err (AppErr e)), d)
    end) F.
Proof.
  intros HF t d HI Hf. destruct (stored10 (msActualCost p)) as [cost|]; [|split; [done | apply batchGuar_refl]].
  destruct (jobs d !! msBatchID p) as [[i s]|] eqn:E; [|split; [done | apply batchGuar_refl]].
  destruct (_ && _) eqn:Ec; [|split; [done | apply batchGuar_refl]]. apply andb_true_iff in Ec as [Es%eqs_true _].
  cbn [snd]. apply put_event, put_row with s; [done..| |].
  - apply moves_bump; [reflexivity | reflexivity | by rewrite Es].
  - apply completed_inv; try reflexivity; rewrite ?Es; try reflexivity; [by apply HF | by eexists | by eexists].
Qed.

(** ** What the submission of a job knows *)

Abbreviation ownStable b := (Transactions.stable batchInv (rely batchGuar (Some b))).

(** The provider does not have the job, and as long as it may be accepted its
    hold was not returned. *)
Definition mine (b : string) (i : BatchImageJobInfo) (d : batchDB) : Prop :=
  ∃ s, jobs d !! b = Some (i, s) ∧ ProviderJobName s = None ∧ (isUnsubmitted (Status s) = true → ¬ released d b).

Definition unfilled (b : string) (i : BatchImageJobInfo) (d : batchDB) : Prop :=
  mine b i d ∧ itemsOf d b = [] ∧ sentOf d b = ∅.

Definition filled (b : string) (i : BatchImageJobInfo) (d : batchDB) : Prop := mine b i d ∧ itemsOf d b ≠ [].

Lemma rely_other b d d' : rely batchGuar (Some b) d d' → ∃ a, a ≠ Some b ∧ batchGuar a d d'.
Proof. intros (a & [->|Ha] & HG); [by exists None | by exists a]. Qed.

Lemma stable_mine b i : ownStable b (mine b i).
Proof.
  intros d d' _ _ (a & Ha & Hj & _)%rely_other (s & E & Hn & Hr). destruct (Hj b) as [Hrow _ _ Hrel]. rewrite E in Hrow.
  assert (Ho : owns a b = false) by (by apply bool_decide_eq_false). rewrite Ho in *.
  destruct (jobs d' !! b) as [[i' s']|] eqn:E'; [|done]. destruct Hrow as [-> Hc]. exists s'. split; [done|].
  assert (Hn' : ProviderJobName s' = None) by (by destruct (ch_name _ _ _ Hc) as [->|[? _]]). split; [done|].
  intros Hu Hd. destruct (Hrel Hd) as [Hold|(i2 & s2 & [= <- <-] & [Hover|[[[n Hs] _]|[? _]]])]; [| | congruence | done].
  - apply Hr; [|done]. destruct (isUnsubmitted (Status s)) eqn:E2; [done|]. by rewrite (change_begun _ _ _ Hc E2) in Hu.
  - by rewrite (over_not_begun _ Hover) in Hu.
Qed.

Lemma other_items b i d d' : rely batchGuar (Some b) d d' → mine b i d → itemsOf d' b = itemsOf d b ∧ sentOf d' b = sentOf d b.
Proof.
  intros (a & Ha & Hj & _)%rely_other (s & E & Hn & _). destruct (Hj b) as [_ Hi Hs _]. split.
  - destruct Hi as [?|[(_ & i' & s' & E' & [n Hs'])|[? _]]]; [done| |done]. rewrite E in E'. injection E' as <- <-. congruence.
  - by destruct Hs as [?|[? _]].
Qed.

Lemma stable_unfilled b i : ownStable b (unfilled b i).
Proof.
  intros d d' H1 H2 H3 [Hm [E1 E2]]. destruct (other_items b i d d' H3 Hm) as [E3 E4].
  split; [exact (stable_mine b i d d' H1 H2 H3 Hm) | by rewrite E3, E4].
Qed.

Lemma stable_filled b i : ownStable b (filled b i).
Proof.
  intros d d' H1 H2 H3 [Hm E1]. destruct (other_items b i d d' H3 Hm) as [E3 _].
  split; [exact (stable_mine b i d d' H1 H2 H3 Hm) | by rewrite E3].
Qed.

Lemma mine_row b i d j s : mine b i d → jobs d !! b = Some (j, s) → j = i ∧ ProviderJobName s = None.
Proof. intros (u & E & Hn & _) E'. rewrite E in E'. by injection E' as -> ->. Qed.

(** *** Creation *)

Section creation.
Context `{UnicodeCase} `{BillingText} `{SQLNumeric} `{Calendar} `{SQLCalendar} `{GoWeek}.

Lemma insertedInfo_fields id now i i' :
  insertedInfo id now i = Some i' → BatchID i' = BatchID i ∧ ItemCount i' = ItemCount i.
Proof.
  unfold insertedInfo. repeat match goal with
    | |- context [mbind _ ?x] => destruct x; cbn [mbind option_bind]; [|done] end.
  by intros [= <-].
Qed.

Lemma insertedState_fields now s s' :
  insertedState now s = Some s' →
  Status s' = Status s ∧ ProviderJobName s' = ProviderJobName s ∧ SuccessCount s' = SuccessCount s ∧ FailCount s' = FailCount s ∧
  RetryCount s' = RetryCount s ∧ ManifestHash s' = ManifestHash s.
Proof.
  unfold insertedState. destruct (match ActualCost s with None => _ | Some _ => _ end); cbn [mbind option_bind]; [|done].
  by intros [= <-].
Qed.

(** A job as the submission creates it. *)
Definition blank (b : string) (job : BatchImageJob) : Prop :=
  BatchID (info job) = b ∧ clean b ∧ 0 <= ItemCount (info job) ∧ Status (state job) = BatchImageJobStatusCreated ∧
  ProviderJobName (state job) = None ∧ SuccessCount (state job) = 0 ∧ FailCount (state job) = 0 ∧ RetryCount (state job) = 0 ∧
  ManifestHash (state job) = None.

Lemma insertJob_ok b params t d :
  blank b params → batchInv d →
  batchInv (snd (insertJob params t d)) ∧ batchGuar (Some b) d (snd (insertJob params t d)) ∧
  ∀ job, fst (insertJob params t d) = Ok (Ok job) →
    BatchID (info job) = b ∧ ItemCount (info job) = ItemCount (info params) ∧ ProviderJobName (state job) = None ∧
    unfilled b (info job) (snd (insertJob params t d)).
Proof.
  intros (Hb & Hclean & Hcount & Hs1 & Hs2 & Hs3 & Hs4 & Hs5 & Hs6) HI. unfold insertJob. rewrite Hb.
  assert (Hsame : batchInv d ∧ batchGuar (Some b) d d) by (split; [done | apply batchGuar_refl]).
  destruct (insertedInfo _ _ _) as [i|] eqn:Ei; [|by destruct Hsame].
  destruct (insertedState _ _) as [s|] eqn:Es; [|by destruct Hsame].
  destruct (insertedHold _) as [e|]; [|by destruct Hsame].
  destruct (jobs d !! b) as [row|] eqn:Ej; [by destruct Hsame|]. cbn [fst snd].
  apply insertedInfo_fields in Ei as (Ei1 & Ei2). apply insertedState_fields in Es as (Es1 & Es2 & Es3 & Es4 & Es5 & Es6).
  destruct HI as [Hid Hj Hab Hq]. destruct (Hab b Ej) as (Hi0 & Hr0 & Hrel0).
  set (d' := setNextJobID _ _). assert (Ejobs : jobs d' = <[b := (i, s)]> (jobs d)) by done.
  assert (Eitems : itemsOf d b = []) by (unfold itemsOf; by rewrite Hi0).
  assert (Esent : sentOf d b = ∅) by (unfold sentOf; by rewrite Hr0).
  split; [split|split].
  - intros c j u. rewrite Ejobs. intros [(<- & [= <- <-])|[_ Ec]]%lookup_insert_Some; [split; [congruence | done] | by eapply Hid].
  - intros c j u. rewrite Ejobs. intros [(<- & [= <- <-])|[_ Ec]]%lookup_insert_Some; [|by apply (Hj c j u)].
    change (jobInv i s (itemsOf d b) (sentOf d b) (released d b) (captured d b)). rewrite Eitems, Esent.
    split; rewrite ?Es1, ?Es2, ?Es3, ?Es4, ?Es5, ?Es6, ?Hs1, ?Hs2, ?Hs3, ?Hs4, ?Hs5, ?Hs6, ?Ei2; try done.
    + by left.
    + constructor.
    + intros id ?%not_elem_of_nil. done.
    + left. split_and!; [done..|constructor].
  - intros c. rewrite Ejobs. intros [Ec _]%lookup_insert_None. by apply Hab.
  - done.
  - split; [|done]. intros c. destruct (decide (b = c)) as [<-|Hn].
    + split; [by rewrite Ejobs, Ej, lookup_insert_eq | by left..].
    + apply jobChange_frame; [rewrite Ejobs; by apply lookup_insert_ne | done..].
  - intros job [= <-]. cbn [info state]. split_and!; [congruence | done | congruence |]. split; [|done].
    exists s. rewrite Ejobs. split; [apply lookup_insert_eq|]. split; [congruence | done].
Qed.
End creation.

(** *** Items *)

Lemma insertItems_ok b new d d' :
  Forall (λ item, JobID item = b) new → insertItems new d = Ok d' →
  jobs d' = jobs d ∧ requested d' = requested d ∧ ledger d' = ledger d ∧ queue d' = queue d ∧
  (∀ c, c ≠ b → items d' !! c = items d !! c) ∧ itemsOf d' b = itemsOf d b ++ new ∧
  (NoDup (ids (itemsOf d b)) → NoDup (ids (itemsOf d b ++ new))) ∧ (new ≠ [] → is_Some (jobs d !! b)).
Proof.
  intros Hb. revert d. induction Hb as [|item new Hi _ IH]; cbn [insertItems]; intros d.
  { intros [= <-]. rewrite app_nil_r. by split_and!. }
  rewrite Hi. case_bool_decide as Hj; cbn [negb]; [|done]. case_bool_decide as Hin; [done|]. intros E.
  destruct (IH _ E) as (H1 & H2 & H3 & H4 & H5 & H6 & H7 & _).
  assert (Hrows : itemsOf (setItems (<[b := itemsOf d b ++ [item]]> (items d)) d) b = itemsOf d b ++ [item]).
  { unfold itemsOf at 1. cbn [items setItems etaDB]. by rewrite lookup_insert_eq. }
  split_and!; [done..| | | |done].
  - intros c Hc. rewrite H5 by done. by apply lookup_insert_ne.
  - rewrite H6, Hrows. by rewrite <- app_assoc.
  - intros Hn. rewrite Hrows in H7. rewrite <- app_assoc in H7. apply H7. unfold ids. rewrite fmap_app.
    apply NoDup_app. split_and!; [done| |by repeat constructor; intros ?%not_elem_of_nil].
    intros x Hx ->%list_elem_of_singleton. by apply Hin.
Qed.

(** The change of the items and of the row of one job. *)
Lemma put_items a d d' b i s s' :
  batchInv d → jobs d !! b = Some (i, s) → jobs d' = <[b := (i, s')]> (jobs d) → ledger d' = ledger d → queue d' = queue d →
  (∀ c, c ≠ b → items d' !! c = items d !! c ∧ requested d' !! c = requested d !! c) →
  (rowInv d b i s → rowInv d' b i s') →
  jobChange a b d d' → batchInv d' ∧ batchGuar a d d'.
Proof.
  intros [Hid Hj Hab Hq] E Ejobs El Eq Hother Hrow Hc. split; [split|].
  - intros c j u. rewrite Ejobs. intros [(<- & [= <- <-])|[_ Ec]]%lookup_insert_Some; by eapply Hid.
  - intros c j u. rewrite Ejobs. intros [(<- & [= <- <-])|[Hn Ec]]%lookup_insert_Some; [by apply Hrow, Hj|].
    destruct (Hother c) as [H1 H2]; [done|].
    apply (rowInv_same d); [unfold itemsOf; by rewrite H1 | unfold sentOf; by rewrite H2 | done | by apply Hj].
  - intros c. rewrite Ejobs. intros [Ec Hn]%lookup_insert_None.
    destruct (Hother c) as [-> ->]; [done|]. unfold released. rewrite El. by apply Hab.
  - by rewrite Eq.
  - split; [|by rewrite El]. intros c. destruct (decide (c = b)) as [->|Hn]; [done|]. destruct (Hother c Hn) as [H1 H2].
    apply jobChange_frame; [rewrite Ejobs; by apply lookup_insert_ne | unfold itemsOf; by rewrite H1 | unfold sentOf; by rewrite H2 |
                            unfold released; by rewrite El].
Qed.

Lemma noteRequested_other new d c :
  Forall (λ item, JobID item ≠ c) new →
  requested (noteRequested new d) !! c = requested d !! c.
Proof.
  unfold noteRequested. intros Hf. revert d. induction Hf as [|item new Hi _ IH]; intros d; cbn [fold_left]; [done|].
  rewrite IH. cbn [requested setRequested etaDB]. by apply lookup_insert_ne.
Qed.

Lemma noteRequested_frame new d :
  jobs (noteRequested new d) = jobs d ∧ ledger (noteRequested new d) = ledger d ∧ queue (noteRequested new d) = queue d ∧
  items (noteRequested new d) = items d.
Proof. unfold noteRequested. revert d. induction new as [|item new IH]; intros d; cbn [fold_left]; [done|]. by rewrite !(proj1 (IH _)), !(proj1 (proj2 (IH _))), !(proj1 (proj2 (proj2 (IH _)))), !(proj2 (proj2 (proj2 (IH _)))). Qed.

Lemma noteRequested_sent new d b :
  Forall (λ item, JobID item = b) new → sentOf (noteRequested new d) b = list_to_set (ids new) ∪ sentOf d b.
Proof.
  unfold noteRequested. intros Hf. revert d. induction Hf as [|item new Hi _ IH]; intros d; cbn [fold_left].
  { set_solver. }
  rewrite IH. rewrite Hi. unfold sentOf at 1. cbn [requested setRequested etaDB]. rewrite lookup_insert_eq. cbn. unfold sentOf. set_solver.
Qed.

(** The items of a request, by its submission. *)
Lemma bulkCreate_ok b i new t d :
  new ≠ [] → Forall (λ item, JobID item = b) new → Forall (λ item, itemStatus item = BatchImageItemStatusPending) new →
  Z.of_nat (length new) <= ItemCount i → batchInv d → unfilled b i d →
  let f : txn (result goError unit) := λ _ d,
    match insertItems new d with Ok d' => (Ok (Ok tt), noteRequested new d') | Err e => (Ok (Err e), d) end in
  batchInv (snd (f t d)) ∧ batchGuar (Some b) d (snd (f t d)) ∧ mine b i (snd (f t d)) ∧
  (fst (f t d) = Ok (Ok tt) → filled b i (snd (f t d))).
Proof.
  intros Hne Hb Hp Hlen HI [Hm [Eitems Esent]]. cbv zeta beta.
  destruct (insertItems new d) as [d1|e] eqn:E; cbn [fst snd]; [|by split_and!; [|apply batchGuar_refl | |]].
  destruct (insertItems_ok b new d d1 Hb E) as (E1 & E2 & E3 & E4 & E5 & E6 & E7 & _). rewrite Eitems in E6, E7. cbn [app] in E6, E7.
  assert (Hnd : NoDup (ids new)) by (apply E7; constructor).
  set (d' := noteRequested new d1). destruct (noteRequested_frame new d1) as (F1 & F2 & F3 & F4). fold d' in F1, F2, F3, F4.
  assert (Hitems : itemsOf d' b = new) by (unfold itemsOf; rewrite F4; exact E6).
  assert (Hsent : sentOf d' b = list_to_set (ids new)).
  { unfold d'. rewrite noteRequested_sent by done. unfold sentOf. rewrite E2. unfold sentOf in Esent. rewrite Esent. set_solver. }
  destruct Hm as (s & Ej & Hn & Hrel).
  assert (Hmine : mine b i d').
  { exists s. rewrite F1, E1. split; [done|]. split; [done|]. intros Hu. unfold released. rewrite F2, E3. by apply Hrel. }
  assert (H : batchInv d' ∧ batchGuar (Some b) d d'); [|destruct H; split_and!; [done..|]; intros _; split; [done | by rewrite Hitems]].
  apply (put_items (Some b) d d' b i s s); [done | done | | | | | |].
  - rewrite F1, E1. by rewrite insert_id.
  - by rewrite F2.
  - by rewrite F3.
  - intros c Hc. rewrite F4, E5 by done. split; [done|]. unfold d'. rewrite noteRequested_other, E2; [done|].
    eapply Forall_impl; [exact Hb|]. by intros item -> ->.
  - unfold rowInv. rewrite Hitems, Hsent. unfold released, captured. rewrite F2, E3, Eitems. intros Hr. destruct Hr.
    split; try done.
    + intros id Hid. by apply elem_of_list_to_set.
    + rewrite size_list_to_set by done. unfold ids. rewrite length_fmap. lia.
    + left. destruct inv_counts0 as [(? & ? & _)|(H1 & H2 & _)]; [done|]. rewrite H1, H2. by split_and!.
    + intros Hx. destruct inv_accepted0 as [n ?]; [unfold isAccepted; by rewrite Hx, orb_true_r | congruence].
  - split.
    + rewrite F1, E1, Ej. split; [done | apply stateChange_refl].
    + right; right. split; [done|]. intros j u Hj. rewrite Ej in Hj. by injection Hj as <- <-.
    + right. split; [done|]. intros j u Hj. rewrite Ej in Hj. by injection Hj as <- <-.
    + unfold released. rewrite F2, E3. by left.
Qed.

(** The results in the place of the items. *)
Definition replaceable (b : string) (sent : gset string) (new : list BatchImageItem) (counts : BatchImageCounts) : Prop :=
  new ≠ [] ∧ NoDup (ids new) ∧ (∀ id, id ∈ ids new → id ∈ sent) ∧ Forall finished new ∧
  countSuccess counts = successes new ∧ countFail counts = failures new.

Lemma preview_items b rows new :
  ids (withPreview b rows <$> new) = ids new ∧ successes (withPreview b rows <$> new) = successes new ∧
  failures (withPreview b rows <$> new) = failures new ∧ (Forall finished new → Forall finished (withPreview b rows <$> new)) ∧
  Forall (λ item, JobID item = b) (withPreview b rows <$> new).
Proof.
  split_and!.
  - unfold ids. rewrite <- list_fmap_compose. by apply list_fmap_ext.
  - unfold successes. f_equal. induction new as [|x new IH]; [done|]. cbn [fmap list_fmap List.filter].
    change (isSuccess (withPreview b rows x)) with (isSuccess x). destruct (isSuccess x); cbn [length]; by rewrite ?IH.
  - unfold failures. f_equal. induction new as [|x new IH]; [done|]. cbn [fmap list_fmap List.filter].
    change (isSuccess (withPreview b rows x)) with (isSuccess x). destruct (isSuccess x); cbn [negb length]; by rewrite ?IH.
  - intros Hf. by apply Forall_fmap.
  - apply Forall_fmap, Forall_forall. done.
Qed.

Lemma replaceItems_ok a b sent new counts t d :
  replaceable b sent new counts → batchInv d → sentAll sent b d →
  let f : txn (result goError unit) := λ t d,
    match jobs d !! b with
    | None => (Ok jobNotFound, d)
    | Some (i, s) =>
        if negb (eqs (Status s) BatchImageJobStatusIndexing) then (Ok (Err (AppErr ErrBatchImageIndexStateConflict)), d) else
        let rows := itemsOf d b in
        match insertItems (withPreview b rows <$> new) (setItems (delete b (items d)) d) with
        | Err e => (Ok (Err e), d)
        | Ok d' => (Ok (Ok tt), putJob b i (SetUpdatedAt t (SetFailCount (countFail counts) (SetSuccessCount (countSuccess counts) s))) d')
        end
    end in
  batchInv (snd (f t d)) ∧ batchGuar a d (snd (f t d)) ∧ (fst (f t d) = Ok (Ok tt) → allFinished b (snd (f t d))).
Proof.
  intros (Hne & Hnd & Hsub & Hfin & Hc1 & Hc2) HI [(i & s & Ej & Hname) Hsent]. cbv zeta beta. rewrite Ej.
  destruct (negb _) eqn:Es; [by split_and!; [|apply batchGuar_refl|]|]. apply negb_false_iff, eqs_true in Es.
  destruct (preview_items b (itemsOf d b) new) as (P1 & P2 & P3 & P4 & P5). set (new' := withPreview b (itemsOf d b) <$> new) in *.
  set (d0 := setItems (delete b (items d)) d). destruct (insertItems new' d0) as [d1|e] eqn:E; [|by split_and!; [|apply batchGuar_refl|]].
  destruct (insertItems_ok b new' d0 d1 P5 E) as (E1 & E2 & E3 & E4 & E5 & E6 & _ & _). cbn [fst snd].
  assert (E0 : itemsOf d0 b = []) by (unfold itemsOf, d0; cbn [items setItems etaDB]; by rewrite lookup_delete_eq).
  rewrite E0 in E6. cbn [app] in E6.
  set (s' := SetUpdatedAt t _). set (d' := putJob b i s' d1).
  assert (Hitems : itemsOf d' b = new') by exact E6.
  assert (Hsent' : sentOf d' b = sentOf d b) by (unfold sentOf; change (requested d') with (requested d1); by rewrite E2).
  assert (Hfin' : Forall finished (itemsOf d' b)) by (rewrite Hitems; by apply P4).
  assert (Hjobs : jobs d' = <[b := (i, s')]> (jobs d)) by (unfold d'; by rewrite jobs_put, E1).
  assert (H : batchInv d' ∧ batchGuar a d d').
  2: { destruct H; split_and!; [done..|]. intros _. split; [|done]. exists i, s'. rewrite Hjobs. split; [apply lookup_insert_eq | done]. }
  apply (put_items a d d' b i s s'); [done | done | done | | | | |].
  - change (ledger d') with (ledger d1). by rewrite E3.
  - change (queue d') with (queue d1). by rewrite E4.
  - intros c Hc. change (items d') with (items d1). change (requested d') with (requested d1). rewrite E5 by done. rewrite E2.
    split; [|done]. by apply lookup_delete_ne.
  - unfold rowInv. rewrite Hitems, Hsent'. unfold released, captured. change (ledger d') with (ledger d1). rewrite E3.
    apply (indexed_inv i s); [done..| | | |].
    + by rewrite P1.
    + intros id. rewrite P1. intros Hid. by apply Hsent, Hsub.
    + unfold new'. by destruct new.
    + cbn [SuccessCount FailCount]. rewrite P2, P3, <- Hc1, <- Hc2. split_and!; [done..|]. by apply P4.
  - split.
    + rewrite Hjobs, Ej, lookup_insert_eq. split; [done|]. split; [by left | by left | cbn; lia | done | cbn; lia].
    + right; left. split; [done|]. by exists i, s.
    + by left.
    + unfold released. change (ledger d') with (ledger d1). rewrite E3. by left.
Qed.

(** ** The queue and the ledger *)

Lemma sound_redis {X} a (f : queueCall X) F :
  keepsTracked f → soundBy a (λ t d, let '(r, q) := f t (queue d) in (Ok r, setQueue q d)) F.
Proof.
  intros Hf t d [Hid Hj Hab Hq] _. pose proof (Hf t (queue d) Hq) as Hq'. destruct (f t (queue d)) as [r q]. cbn [fst snd] in *.
  split; [by split|]. split; [|done]. intros b. by apply jobChange_frame.
Qed.

Lemma ledger_ok a d l :
  batchInv d → requestsOf (ledger d) ⊆ requestsOf l →
  (∀ b, released (setLedger l d) b → released d b ∨ ∃ i s, jobs d !! b = Some (i, s) ∧ mayRelease (owns a b) s) →
  batchInv (setLedger l d) ∧ batchGuar a d (setLedger l d).
Proof.
  intros [Hid Hj Hab Hq] Hsub Hrel. split; [split|split; [|done]].
  - done.
  - intros b i s E. specialize (Hj b i s E). destruct Hj. split; try done.
    + intros Hn Ho Hr [Hold|(i' & s' & E' & Hm)]%Hrel; [by apply inv_hold0|].
      change (jobs d !! b = Some (i, s)) in E. rewrite E in E'. injection E' as <- <-.
      destruct Hm as [Hm|[[_ Hm]|[_ Hm]]]; [congruence | lia | rewrite Hm in Hn; by destruct Hn].
    + intros Hp. destruct (inv_paid0 Hp) as ([k Hk] & H1 & H2). split_and!; [|done..]. exists k. by apply Hsub.
  - intros b E. destruct (Hab b E) as (H1 & H2 & H3). split_and!; [done..|]. intros [Hold|(i & s & E' & _)]%Hrel; [done|].
    change (jobs d !! b = None) in E. congruence.
  - done.
  - intros b. split; [| by left | by left | apply Hrel].
    change (jobs (setLedger l d)) with (jobs d). destruct (jobs d !! b) as [[i s]|]; [|done]. split; [done | apply stateChange_refl].
Qed.

Lemma ledger_entities_ok a d es : batchInv d → batchInv (setLedger (withEntities es (ledger d)) d) ∧ batchGuar a d (setLedger (withEntities es (ledger d)) d).
Proof. intros HI. apply ledger_ok; [done..|]. intros b Hb. by left. Qed.

Lemma releaseKey_inj b c : releaseKey b = releaseKey c → b = c.
Proof. intros E. by apply (inj (String.append batchImageReleaseRequestPrefix)) in E. Qed.

Lemma capture_not_release b c : captureKey b ≠ releaseKey c.
Proof. done. Qed.

Lemma hold_not_release b c : (batchImageHoldRequestPrefix +:+ b)%string ≠ releaseKey c.
Proof. done. Qed.

Section holds.
Context `{UnicodeCase} `{BillingText} `{SQLNumeric} `{Calendar} `{SQLCalendar} `{GoWeek} `{!SQLNumericLaws}.

Definition holdTxn (w : retryWorld) (operation : batchImageAllowanceOperation) (c : BatchImageBalanceHoldCommand)
    : txn (result goError BatchImageBalanceHoldResult) := λ t d,
  let '(r, l) := applyBatchImageBalanceHold t t w operation c (ledger d) in
  (Ok (match r with Ok (x, _) => Ok x | Err e => Err e end), setLedger l d).

(** A call adds at most the key of its request; an answer shows the key. *)
Lemma hold_requests t w operation c l r l' :
  applyBatchImageBalanceHold t t w operation c l = (r, l') →
  let key := (TrimSpace (cRequestID c), cAPIKeyID c) in
  requestsOf l ⊆ requestsOf l' ∧ requestsOf l' ⊆ {[key]} ∪ requestsOf l ∧ ((∃ x, r = Ok x) → key ∈ requestsOf l').
Proof.
  intros E. pose proof (ledger_call_step (mkCallWorld t t w) (CallHold operation c) l) as Hs. cbn [runCall dbClock clock retries] in Hs.
  rewrite E in Hs. change (requestsOf l) with (applied (bankOf l)). change (requestsOf l') with (applied (bankOf l')).
  destruct r as [[x c']|e]; specialize (Hs _ _ eq_refl); inversion Hs; subst; cbn [applied requestKey] in *.
  all: split_and!; try set_solver.
Qed.

Lemma sound_hold a w operation c F :
  (∀ d b, batchInv d → F d → TrimSpace (cRequestID c) = releaseKey b → ∃ i s, jobs d !! b = Some (i, s) ∧ mayRelease (owns a b) s) →
  soundBy a (holdTxn w operation c) F.
Proof.
  intros HF t d HI Hf. unfold holdTxn. destruct (applyBatchImageBalanceHold _ _ _ _ _ _) as [r l] eqn:E.
  destruct (hold_requests _ _ _ _ _ _ _ E) as (Hsub & Hkey & _). cbn [snd]. apply ledger_ok; [done..|].
  intros b [k Hk]. apply Hkey, elem_of_union in Hk as [[= Hb _]%elem_of_singleton|Hk]; [right; by apply HF | left; by exists k].
Qed.

(** An answer of a capture shows that the hold was captured. *)
Lemma tells_capture w operation c b F :
  TrimSpace (cRequestID c) = captureKey b → tells (holdTxn w operation c) F (λ r d, (∃ x, r = Ok x) → captured d b).
Proof.
  intros Ek t d r _ _. unfold holdTxn. destruct (applyBatchImageBalanceHold _ _ _ _ _ _) as [r0 l] eqn:E.
  destruct (hold_requests _ _ _ _ _ _ _ E) as (_ & _ & Hok). cbn [fst snd]. intros [= <-] [x Hx]. exists (cAPIKeyID c).
  rewrite <- Ek. apply Hok. destruct r0 as [[y c']|]; [by eexists | done].
Qed.
End holds.

Lemma sound_usageLog a l F : soundBy a (createUsageLog l) F.
Proof.
  intros t d HI _. unfold createUsageLog. cbn [snd]. destruct (usageLogs d !! _); (split; [|]); try done; try apply batchGuar_refl.
  - by destruct HI.
  - split; [|done]. intros b. by apply jobChange_frame.
Qed.

(** *** The acceptance *)

Lemma providerSubmit_ok p i t d :
  TrimSpace (psProviderJobName p) ≠ "" → batchInv d → filled (psBatchID p) i d →
  let f : txn (result goError unit) := λ t d,
    match jobs d !! psBatchID p with
    | None => (Ok jobNotFound, d)
    | Some (i, s) =>
        if negb (CanTransitionBatchImageJob (Status s) BatchImageJobStatusSubmitted)
        then (Ok (Err (AppErr ErrBatchImageInvalidTransition)), d) else
        let d := putJob (psBatchID p) i (submitState p t s) d in
        (Ok (Ok tt), setEvents ((psBatchID p, "provider_submitted"%string) :: batchEvents d) d)
    end in
  batchInv (snd (f t d)) ∧ batchGuar (Some (psBatchID p)) d (snd (f t d)).
Proof.
  intros Hname HI [(s & Ej & Hn & Hrel) Hne]. cbv zeta beta. rewrite Ej.
  destruct (negb _) eqn:Ec; [by split; [|apply batchGuar_refl]|]. apply negb_false_iff in Ec. cbn [snd].
  assert (Hm : moves (Status s) BatchImageJobStatusSubmitted = true) by (by apply can_moves).
  assert (Hu : isUnsubmitted (Status s) = true).
  { apply moves_edges in Hm as [[? _]|He]; [done|]. by apply (edge_submitted _ _ He). }
  apply put_event, put_row with s; [done..| |].
  - assert (Ho : owns (Some (psBatchID p)) (psBatchID p) = true) by (by apply bool_decide_eq_true). rewrite Ho.
    split; [by right; left | by right | cbn; lia | cbn; lia | cbn; lia].
  - intros Hr. destruct Hr. destruct (inv_unsubmitted0 Hu) as [_ Hretry]. split; try done.
    + right; right. reflexivity.
    + intros name [= <-]. done.
    + intros _ _ _. by apply Hrel.
    + intros _. by eapply inv_unpaid0, moves_unpaid.
Qed.
