(* ===== verification/BatchImageSafety.v ===== *)
(** * Batch image jobs: the services are safe

    Every program of [BatchImageFlow] keeps the invariant of
    [BatchImageInvariant] and changes the tables along its guarantee, whatever
    the others do meanwhile. *)

From S2P Require Import Prelude GoRuntime Domain AppErrors Transactions Agents UsageBilling BillingDB BillingAllowance BillingLedger BillingWallet BatchImageQueue BatchImage BatchImageRequest BatchImageIndex BatchImageDB BatchImageInvariant BatchImageFlow.
#[local] Open Scope Z_scope.

Abbreviation safe := (Transactions.safe batchInv batchRely (batchGuar None)).
Abbreviation yields := (Transactions.yields batchInv batchRely (batchGuar None)).
Abbreviation maintains := (Transactions.maintains batchInv batchRely (batchGuar None)).
Abbreviation harmless := (Transactions.harmless batchInv batchRely (batchGuar None)).

Definition own_shared : ∀ d d', batchGuar None d d' → batchRely d d' := shared_anyone batchGuar.
Definition safe_query {X A} := @rely_query _ batchInv batchRely (batchGuar None) own_shared X A.
Definition maintains_query {X A} := @rely_maintains_query _ batchInv batchRely (batchGuar None) own_shared X A.
Definition harmless_query {X A} := @rely_harmless_query _ batchInv batchRely (batchGuar None) own_shared X A.
Definition maintains_harmless {A} := @rely_maintains _ batchInv batchRely (batchGuar None) own_shared A.
Definition harmless_yields {A} := @rely_harmless _ batchInv batchRely (batchGuar None) own_shared A.
Definition yields_and {A} := @rely_and _ batchInv batchRely (batchGuar None) own_shared A.

Section safety.
Context {Account : Type} `{UC : UnicodeCase} `{JD : JSONDecoder} `{BT : BillingText} `{SN : SQLNumeric} `{CAL : Calendar}
  `{SC : SQLCalendar} `{GW : GoWeek} `{RJ : RequestJSON} `{LAWS : !SQLNumericLaws}.
Implicit Types job : BatchImageJob.

(** ** What a program learns from a row *)

Record seen (job : BatchImageJob) (d : batchDB) : Prop := {
  seen_clean : clean (jobID job);
  seen_info : exists_ (info job) (jobID job) d;
  seen_over : isOver (jobStatus job) = true → ended (jobID job) d;
  seen_named : is_Some (ProviderJobName (state job)) → accepted (jobID job) d;
  seen_begun : isUnsubmitted (jobStatus job) = false → begun (jobID job) d;
  seen_exhausted : is_Some (ProviderJobName (state job)) → 5 <= RetryCount (state job) → exhausted (jobID job) d;
  seen_accepted : isAccepted (jobStatus job) = true → is_Some (ProviderJobName (state job));
}.

Lemma stable_implies (φ : Prop) P : (φ → stable P) → stable (λ d, φ → P d).
Proof. intros H d d' H1 H2 H3 Hd Hφ. by apply (H Hφ d d'); auto. Qed.

Lemma stable_seenRow job : stable (seen job).
Proof.
  intros d d' H1 H2 H3 []. split; try done.
  - by apply (stable_exists _ _ d d').
  - intros Ho. by apply (stable_ended _ d d'); auto.
  - intros Ho. by apply (stable_accepted _ d d'); auto.
  - intros Ho. by apply (stable_begun _ d d'); auto.
  - intros Hn Ho. by apply (stable_exhausted _ d d'); auto.
Qed.

Lemma row_seen d b job : batchInv d → jobRow d b = Some job → jobID job = b ∧ seen job d.
Proof.
  intros HI. unfold jobRow. destruct (jobs d !! b) as [[i s]|] eqn:E; [|done].
  destruct (entities _ !! _) as [e|]; [|done]. intros [= <-].
  destruct (inv_id d HI b i s E) as [Hb Hc]. assert (Hj := inv_job d HI b i s E).
  assert (Hid : jobID (mkJob i s (holdOf e)) = b) by exact Hb. split; [done|].
  split; rewrite ?Hid; unfold jobStatus; cbn [info state]; try done; try (intros; exists i, s; done).
  by apply (inv_accepted _ _ _ _ _ _ Hj).
Qed.

(** The answers of the statements that read. *)
Definition okSeen (b : string) (r : result goError BatchImageJob) (d : batchDB) : Prop :=
  match r with Ok job => jobID job = b ∧ seen job d | Err _ => True end.

Definition allSeen (r : result goError (list BatchImageJob)) (d : batchDB) : Prop :=
  match r with Ok jobs => Forall (λ job, seen job d) jobs | Err _ => True end.

Lemma stable_allSeen jobs : stable (λ d, Forall (λ job, seen job d) jobs).
Proof. intros d d' H1 H2 H3 Hf. eapply Forall_impl; [exact Hf|]. intros job. by apply stable_seenRow. Qed.

(** A statement that reads, and what it tells. *)
Definition okTells {A} (Q : A → batchDB → Prop) (r : result goError A) (d : batchDB) : Prop :=
  match r with Ok a => Q a d | Err _ => True end.

Lemma yields_queryFound {X} e (f : Time → batchDB → result dbError X) F (Q : X → batchDB → Prop) :
  stable F → (∀ a, stable (Q a)) → (∀ t d x, batchInv d → f t d = Ok x → Q x d) →
  yields (queryFound e (reading f)) F (okTells Q).
Proof.
  intros HF HQ Ht. apply (safe_query _ _ F Q); [done..| apply sound_batchReading | by intros t d x Hd _; apply Ht | |].
  - intros x d _ [? ?]. by split.
  - intros [|text] d _ Hf; by split.
Qed.

Lemma yields_query {X} (f : Time → batchDB → result dbError X) F (Q : X → batchDB → Prop) :
  stable F → (∀ a, stable (Q a)) → (∀ t d x, batchInv d → F d → f t d = Ok x → Q x d) → yields (query (reading f)) F (okTells Q).
Proof.
  intros HF HQ Ht. apply (safe_query _ _ F Q); [done..| apply sound_batchReading | by intros t d x Hd Hf; apply Ht | |].
  - intros x d _ [? ?]. by split.
  - intros e d _ Hf. by split.
Qed.

Definition rowOf (b : string) (job : BatchImageJob) (d : batchDB) : Prop := jobID job = b ∧ seen job d.

Lemma stable_rowOf b job : stable (rowOf b job).
Proof. apply stable_and; [apply stable_const | apply stable_seenRow]. Qed.

Lemma yields_getJob b F : stable F → yields (GetBatchImageJobByBatchID b) F (okTells (rowOf b)).
Proof.
  intros HF. apply yields_queryFound; [done | apply stable_rowOf |]. intros _ d job HI. unfold found.
  destruct (jobRow d b) as [job'|] eqn:E; [|done]. intros [= <-]. by apply row_seen.
Qed.

Lemma yields_ownJob (owner : BatchImageOwner) b F : stable F → yields (ownJob owner b) F (okTells (rowOf b)).
Proof.
  intros HF. apply yields_queryFound; [done | apply stable_rowOf |]. intros _ d job HI. unfold found.
  destruct (jobRow d b) as [job'|] eqn:E; cbn [mbind option_bind]; [|done].
  destruct (_ && _); [|done]. intros [= <-]. by apply row_seen.
Qed.

Lemma select_seen cond d job : batchInv d → job ∈ selectJobs cond d → seen job d.
Proof.
  intros HI. unfold selectJobs. rewrite merge_sort_Permutation, list_elem_of_In, filter_In, <- list_elem_of_In.
  intros [Hin _]. apply list_elem_of_omap in Hin as ([b x] & _ & Hrow). by apply (row_seen d b).
Qed.

Lemma yields_byKey userID apiKeyID key F :
  stable F → yields (GetBatchImageJobByIdempotencyKey userID apiKeyID key) F (okTells seen).
Proof.
  intros HF. apply yields_queryFound; [done | apply stable_seenRow |]. intros _ d job HI. unfold found.
  destruct (last _) as [job'|] eqn:E; [|done]. intros [= <-]. eapply select_seen; [done|].
  apply last_Some in E as [l ->]. apply elem_of_app. right. by left.
Qed.

(** The first rows of a list of jobs. *)
Lemma yields_list n (l : batchDB → list BatchImageJob) F :
  stable F → (∀ d job, batchInv d → job ∈ l d → seen job d) →
  yields (query (reading (λ _ d, Ok (take n (l d))))) F (okTells (λ jobs d, Forall (λ job, seen job d) jobs)).
Proof.
  intros HF Hl. apply yields_query; [done | apply stable_allSeen |]. intros _ d jobs HI _ [= <-].
  apply Forall_forall. intros job Hj. apply Hl; [done|]. apply elem_of_take in Hj as (i & Hi & _). by eapply list_elem_of_lookup_2.
Qed.

(** ** Rules *)

Lemma maintains_ok {A} F (a : A) : maintains F (ok a : M A).
Proof. apply maintains_ret. Qed.
Lemma maintains_fails {A} F e : maintains F (fails e : M A).
Proof. apply maintains_ret. Qed.
Lemma maintains_failsApp {A} F e : maintains F (failsApp e : M A).
Proof. apply maintains_ret. Qed.

Lemma maintains_andThen {A B} F (m : M A) (f : A → M B) : maintains F m → (∀ a, maintains F (f a)) → maintains F (andThen m f).
Proof. intros Hm Hf. apply maintains_bind; [done|]. intros [a|e]; [apply Hf | apply maintains_fails]. Qed.

(** The rest of a function may use what the answer tells. *)
Lemma maintains_bindQ {A B} F (Q : A → batchDB → Prop) (g : A → P B) (p : P A) :
  yields p F Q → (∀ a, maintains (λ d, F d ∧ Q a d) (g a)) → maintains F (bindProg g p).
Proof.
  intros Hp Hg. eapply yields_bind; [exact Hp|]. intros a. eapply safe_weaken; [apply Hg | done | by intros b d _ [[? _] _]].
Qed.

Lemma maintains_andThenQ {A B} F (Q : A → batchDB → Prop) (m : M A) (f : A → M B) :
  yields m F (okTells Q) → (∀ a, maintains (λ d, F d ∧ Q a d) (f a)) → maintains F (andThen m f).
Proof. intros Hm Hf. eapply maintains_bindQ; [exact Hm|]. intros [a|e]; [apply Hf | apply maintains_fails]. Qed.

Lemma maintains_drop {A} F F' (p : P A) : maintains F p → stable F' → maintains (λ d, F d ∧ F' d) p.
Proof. intros Hp HF. by apply yields_and. Qed.

(** Facts that do not depend on the tables. *)
Lemma maintains_pure {A} (φ : Prop) `{Decision φ} F (p : P A) : (φ → maintains F p) → maintains (λ d, F d ∧ φ) p.
Proof.
  intros Hp. destruct (decide φ); [|apply safe_false; by intros d []].
  apply maintains_drop; [by apply Hp | apply stable_const].
Qed.

Lemma maintains_weaken {A} (F F' : batchDB → Prop) (p : P A) :
  stable F → maintains F' p → (∀ d, batchInv d → F d → F' d) → maintains F p.
Proof.
  intros HF Hp H. eapply safe_weaken; [apply (yields_and _ _ F _ HF Hp)| | by intros a d _ [[? ?] ?]].
  intros d Hd Hf. split; [by apply H | done].
Qed.

Lemma maintains_transact {X} F (f : txn (result goError X)) : stable F → sound f F → maintains F (transact f).
Proof. intros HF Hf. apply maintains_query; [done..|]. intros [x|e]; apply maintains_ret. Qed.

Lemma maintains_statement {X} F (f : txn X) : stable F → sound f F → maintains F (query f).
Proof. intros HF Hf. apply maintains_query; [done..|]. intros [x|e]; apply maintains_ret. Qed.

Lemma maintains_reading {X} F (f : Time → batchDB → result dbError X) : stable F → maintains F (query (reading f)).
Proof. intros HF. apply maintains_statement; [done | apply sound_batchReading]. Qed.

Lemma maintains_queryFound {X} F e (f : Time → batchDB → result dbError X) : stable F → maintains F (queryFound e (reading f)).
Proof. intros HF. apply maintains_query; [done | apply sound_batchReading|]. intros [x|[|text]]; apply maintains_ret. Qed.

Lemma maintains_redis {X} F (f : queueCall X) : stable F → keepsTracked f → maintains F (redis f).
Proof. intros HF Hf. apply maintains_transact; [done | by apply sound_redis]. Qed.

Lemma maintains_event F b e : stable F → maintains F (AppendBatchImageEvent b e).
Proof. intros HF. apply maintains_statement; [done | apply sound_event]. Qed.

Lemma maintains_thenEvent {A} F b e (m : M A) : stable F → maintains F m → maintains F (thenEvent b e m).
Proof. intros HF Hm. apply maintains_andThen; [done|]. intros _. by apply maintains_event. Qed.

Lemma maintains_orNotFound F (m : M Z) : maintains F m → maintains F (orNotFound m).
Proof. intros Hm. apply maintains_andThen; [done|]. intros n. destruct (n =? 0); apply maintains_ret. Qed.

Lemma maintains_if {A} F (c : bool) (p q : P A) : maintains F p → maintains F q → maintains F (if c then p else q).
Proof. by destruct c. Qed.

Context (w : batchWorld Account).

(** *** The queue *)

Lemma maintains_tryEnqueue F b : stable F → maintains F (tryEnqueue w b).
Proof. intros HF. apply maintains_bind; [|intros r; apply maintains_ret]. apply maintains_redis; [done | apply kept_Enqueue]. Qed.

Lemma maintains_billingRetry F b : stable F → maintains F (enqueueBillingRetry w b).
Proof.
  intros HF. apply maintains_bind; [by apply maintains_tryEnqueue|]. intros [u|e]; [apply maintains_ret|].
  apply maintains_bind; [by apply maintains_event | intros r; apply maintains_ret].
Qed.

Lemma maintains_requeue F b delay : stable F → maintains F (requeueJob b delay).
Proof. intros HF. apply maintains_redis; [done | apply kept_RequeueAfter]. Qed.

(** *** Transitions *)

Lemma maintains_transition F b to opts :
  stable F → (∀ d, batchInv d → F d → mayMoveTo to b d) → maintains F (TransitionBatchImageJobStatus b to opts).
Proof. intros HF Hm. apply maintains_transact; [done | by apply sound_transition]. Qed.

(** A job that was moved to such a status has ended. *)
Lemma yields_ending F b to opts :
  stable F → isOver to = true → yields (TransitionBatchImageJobStatus b to opts) F (okTells (λ _, ended b)).
Proof.
  intros HF Ho. apply (safe_query _ _ F (λ r d, r = Ok tt → ended b d)); [done| | | | |].
  - intros r. apply stable_implies. intros _. apply stable_ended.
  - apply sound_transition. intros d _ _. left. unfold isOver in Ho.
    apply orb_true_iff in Ho as [->%eqs_true| ->%eqs_true]; unfold elem_of; repeat constructor.
  - intros t d r HI _. destruct (jobs d !! b) as [[i s]|] eqn:E; [|by intros [= <-]].
    destruct (negb _); [by intros [= <-]|]. cbn [fst snd]. intros _ _. exists i.
    eexists. split; [destruct (eqs (EventType opts) ""); apply lookup_insert_eq | exact Ho].
  - intros [[]|e] d _ [Hf Hq]; (split; [done|]); [by apply Hq | done].
  - intros e d _ Hf. by split.
Qed.

(** ** Holds *)

Definition releasable (b : string) (d : batchDB) : Prop := ended b d ∨ exhausted b d.

Lemma stable_releasable b : stable (releasable b).
Proof.
  intros d d' H1 H2 H3 [H|H]; [left; by apply (stable_ended b d d') | right; by apply (stable_exhausted b d d')].
Qed.

Lemma releasable_row b d : releasable b d → ∃ i s, jobs d !! b = Some (i, s) ∧ mayRelease false s.
Proof.
  intros [(i & s & E & Ho)|(i & s & E & Ho)]; exists i, s; (split; [done|]); [by left | by right; left].
Qed.

(** The keys of the requests. *)
Lemma command_key job prefix requestID amount hash c :
  buildBatchImageHoldCommand job requestID amount hash = Ok c → TrimSpace requestID = prefix → TrimSpace (cRequestID c) = prefix.
Proof. unfold buildBatchImageHoldCommand. destruct (positiveID _); [|done]. by intros [= <-]. Qed.

Lemma release_key b : clean b → TrimSpace (BatchImageReleaseRequestID b) = releaseKey b.
Proof. intros (_ & E & Hr & _). unfold BatchImageReleaseRequestID. by rewrite E. Qed.
Lemma capture_key b : clean b → TrimSpace (BatchImageCaptureRequestID b) = captureKey b.
Proof. intros (_ & E & _ & Hc & _). unfold BatchImageCaptureRequestID. by rewrite E. Qed.

Lemma maintains_releaseBalance F job hash :
  stable F → clean (jobID job) → (∀ d, batchInv d → F d → releasable (jobID job) d) →
  maintains F (releaseBatchImageBalanceHold w job hash).
Proof.
  intros HF Hc Hr. unfold releaseBatchImageBalanceHold.
  destruct (buildBatchImageHoldCommand _ _ _ _) as [c|e] eqn:E; [|apply maintains_failsApp].
  apply maintains_if; [apply maintains_ok|]. apply maintains_bind; [|intros [x|e]; [|apply maintains_if]; apply maintains_ret].
  apply maintains_transact; [done|]. apply sound_hold. intros d b HI Hf Ek.
  rewrite (command_key _ _ _ _ _ _ E (release_key _ Hc)) in Ek. apply releaseKey_inj in Ek as <-.
  by apply releasable_row, Hr.
Qed.

Lemma maintains_releaseHold F job :
  stable F → clean (jobID job) → (∀ d, batchInv d → F d → releasable (jobID job) d) → maintains F (releaseHold w job).
Proof. apply maintains_releaseBalance. Qed.

(** ** Settlement *)

Lemma accepted_begun b d : batchInv d → accepted b d → begun b d.
Proof.
  intros HI (i & s & E & [n Hn]). exists i, s. split; [done|]. apply not_true_iff_false. intros Hu.
  destruct (inv_unsubmitted _ _ _ _ _ _ (inv_job d HI b i s E) Hu) as [Hn' _]. congruence.
Qed.

(** A fact that does not depend on the tables, known from them. *)
Lemma maintains_static {A} (φ : Prop) `{Decision φ} F (p : P A) :
  stable F → (∀ d, batchInv d → F d → φ) → (φ → maintains F p) → maintains F p.
Proof.
  intros HF Hφ Hp. apply (maintains_weaken F (λ d, F d ∧ φ)); [done | by apply maintains_pure |]. intros d Hd Hf. split; [done | by eapply Hφ].
Qed.

#[local] Instance clean_dec b : Decision (clean b).
Proof. unfold clean. apply _. Defined.

Lemma yields_settlementFailed F b code message :
  stable F → (∀ d, batchInv d → F d → accepted b d) →
  yields (SetBatchImageJobSettlementFailed b code message) F (okTells (λ n d, 5 <= n → exhausted b d)).
Proof.
  intros HF Ha. eapply yields_bind.
  - apply (safe_query _ _ F (λ r d, match r with Ok n => 5 <= n → exhausted b d | Err _ => True end)); [done| | | | |].
    + intros [n|e]; [|apply stable_True]. apply stable_implies. intros _. apply stable_exhausted.
    + apply sound_settlementFailed. intros d HI Hf. apply accepted_begun; auto.
    + intros t d r HI Hf. destruct (Ha d HI Hf) as (i & s & E & Hn). rewrite E. cbn [fst snd]. intros [= <-] Hr.
      exists i. eexists. split; [apply lookup_insert_eq|]. by split.
    + intros r d _ [Hf Hq]. split; [done|]. instantiate (1 := okTells (λ n d, 5 <= n → exhausted b d)). by destruct r.
    + intros e d _ Hf. by split.
  - intros [n|e]; [|by intros d _ [Hf _]; split]. cbn [okTells].
    eapply yields_bind; [apply maintains_event|].
    + apply stable_and; [done|]. apply stable_implies. intros _. apply stable_exhausted.
    + intros [u|e] d _ [[Hf Hq] _]; by split.
Qed.

Lemma maintains_settlementFailed F b code message :
  stable F → (∀ d, batchInv d → F d → accepted b d) → maintains F (SetBatchImageJobSettlementFailed b code message).
Proof. intros HF Ha. eapply yields_weaken; [by apply yields_settlementFailed | done]. Qed.

Lemma maintains_failed F b opts : stable F → maintains F (TransitionBatchImageJobStatus b BatchImageJobStatusFailed opts).
Proof. intros HF. apply maintains_transition; [done|]. intros d _ _. left. unfold elem_of; repeat constructor. Qed.

Lemma maintains_failExhausted F job message :
  stable F → clean (jobID job) → (∀ d, batchInv d → F d → accepted (jobID job) d) → (∀ d, batchInv d → F d → releasable (jobID job) d) →
  maintains F (failExhaustedSettlement w job message).
Proof.
  intros HF Hc Ha Hr. apply maintains_bind; [by apply maintains_releaseHold|]. intros [u|e]; (apply maintains_bind; [|intros r; apply maintains_ret]).
  - by apply maintains_failed.
  - by apply maintains_settlementFailed.
Qed.

Lemma maintains_failSettlement {A} F job code message e :
  stable F → clean (jobID job) → (∀ d, batchInv d → F d → accepted (jobID job) d) → maintains F (failSettlement (A := A) w job code message e).
Proof.
  intros HF Hc Ha. apply maintains_bind; [|intros r; apply maintains_fails].
  apply (maintains_bindQ _ (okTells (λ n d, 5 <= n → exhausted (jobID job) d))); [by apply yields_settlementFailed|].
  intros [n|e']; [|apply maintains_ret]. cbn [okTells]. destruct (Z.leb_spec batchImageSettlementMaxRetries n) as [Hn|Hn]; [|apply maintains_ret].
  apply maintains_bind; [|intros r; apply maintains_ret].
  assert (Hst : stable (λ d, F d ∧ (5 <= n → exhausted (jobID job) d))).
  { apply stable_and; [done|]. apply stable_implies. intros _. apply stable_exhausted. }
  apply maintains_failExhausted; [done..| |].
  - intros d HI [Hf _]. by apply Ha.
  - intros d HI [_ Hx]. right. by apply Hx.
Qed.

Lemma yields_capture F job amount hash :
  stable F → clean (jobID job) → yields (captureBatchImageBalanceHold w job amount hash) F (okTells (λ _ d, captured d (jobID job))).
Proof.
  intros HF Hc. unfold captureBatchImageBalanceHold.
  destruct (buildBatchImageHoldCommand _ _ _ _) as [c|e] eqn:E; [|by intros d _ Hf; split].
  pose proof (command_key _ _ _ _ _ _ E (capture_key _ Hc)) as Ek.
  apply (safe_query _ _ F (λ r d, (∃ x, r = Ok x) → captured d (jobID job))); [done| | | | |].
  - intros r. apply stable_implies. intros _. apply stable_captured.
  - apply sound_hold. intros d b _ _. rewrite Ek. by intros ?%capture_not_release.
  - by apply tells_capture.
  - intros [x|e] d _ [Hf Hq]; (split; [done|]); [apply Hq; by eexists | done].
  - intros e d _ Hf. by split.
Qed.

Lemma maintains_markSettled F p :
  stable F → (∀ d, batchInv d → F d → captured d (msBatchID p)) → maintains F (MarkBatchImageJobSettled p).
Proof. intros HF Hc. apply maintains_transact; [done | by apply sound_markSettled]. Qed.

Lemma maintains_settleCapture F job apiKeyID accountID hash input cost :
  stable F → clean (jobID job) → (∀ d, batchInv d → F d → accepted (jobID job) d) →
  maintains F (settleCapture w job apiKeyID accountID hash input cost).
Proof.
  intros HF Hc Ha. eapply maintains_bindQ; [by apply yields_capture|]. intros [r|e]; cbn [okTells].
  - apply maintains_clock. intros now.
    assert (Hst : stable (λ d, F d ∧ captured d (jobID job))) by (apply stable_and; [done | apply stable_captured]).
    apply maintains_andThen; [apply maintains_markSettled; [done | by intros d _ [_ ?]]|]. intros _.
    apply maintains_bind; [|intros _; apply maintains_ok].
    apply maintains_query; [done | apply sound_usageLog | intros u; apply maintains_ret].
  - apply maintains_drop; [|apply stable_const]. by apply maintains_failSettlement.
Qed.

Lemma maintains_settlePriced F job apiKeyID accountID hash :
  stable F → clean (jobID job) → (∀ d, batchInv d → F d → accepted (jobID job) d) →
  maintains F (settlePriced w job apiKeyID accountID hash).
Proof.
  intros HF Hc Ha. unfold settlePriced. destruct (checkedUnitPrice w job) as [p|e]; [|by apply maintains_failSettlement].
  apply maintains_if; [apply maintains_failsApp|].
  apply maintains_if; [by apply maintains_failSettlement | by apply maintains_settleCapture].
Qed.

Lemma maintains_Settle F b : stable F → maintains F (Settle w b).
Proof.
  intros HF. eapply maintains_andThenQ; [by apply yields_getJob|]. intros job.
  set (F' := λ d, F d ∧ rowOf b job d). assert (HF' : stable F') by (apply stable_and; [done | apply stable_rowOf]).
  apply (maintains_static (clean (jobID job))); [done | by intros d _ [_ [_ []]] |]. intros Hc.
  apply maintains_if; [apply maintains_ok|]. destruct (eqs (jobStatus job) BatchImageJobStatusSettling) eqn:Es; cbn [negb]; [|apply maintains_failsApp].
  apply eqs_true in Es. destruct (positiveID (APIKeyID (info job))) as [k|]; [|apply maintains_failsApp].
  destruct (positiveID (AccountID (info job))) as [acc|]; [|apply maintains_failsApp].
  assert (Ha : ∀ d, batchInv d → F' d → accepted (jobID job) d).
  { intros d _ [_ [_ Hs]]. apply (seen_named _ _ Hs), (seen_accepted _ _ Hs). by rewrite Es. }
  destruct (isBatchImageSettlementRetryExhausted job) eqn:Ex.
  - apply maintains_bind; [|intros e; apply maintains_fails]. apply maintains_failExhausted; [done..|].
    intros d HI [_ [_ Hs]]. right. unfold isBatchImageSettlementRetryExhausted in Ex.
    apply andb_true_iff in Ex as [[_ Hr%Z.leb_le]%andb_true_iff _]. apply (seen_exhausted _ _ Hs); [|exact Hr].
    apply (seen_accepted _ _ Hs). by rewrite Es.
  - apply maintains_if; [by apply maintains_failSettlement|]. apply maintains_if; [by apply maintains_failSettlement|].
    by apply maintains_settlePriced.
Qed.

(** ** Indexing *)

Lemma page_rows d b offset x :
  let page := take (clampLimit pageSize 500 100) (drop (Z.to_nat (Z.max offset 0))
                (List.filter (λ i, eqs "" "" || eqs (itemStatus i) "") (itemsOf d b))) in
  (x ∈ ids page → x ∈ ids (itemsOf d b)) ∧ (offset = 0 → itemsOf d b ≠ [] → page ≠ []).
Proof.
  cbv zeta. change (λ i, eqs "" "" || eqs (itemStatus i) "") with (λ i : BatchImageItem, true).
  assert (Hall : ∀ l : list BatchImageItem, List.filter (λ _, true) l = l) by (intros l; induction l as [|z l IHl]; cbn; congruence).
  rewrite Hall.
  change (clampLimit pageSize 500 100) with 500%nat. split.
  - unfold ids. intros (i & -> & Hi)%list_elem_of_fmap. apply list_elem_of_fmap. exists i. split; [done|].
    apply elem_of_take in Hi as (n & Hi & _). rewrite lookup_drop in Hi. by eapply list_elem_of_lookup_2.
  - intros -> Hne. by destruct (itemsOf d b).
Qed.

Lemma yields_page F b offset :
  stable F → (∀ d, batchInv d → F d → accepted b d) →
  yields (ListBatchImageItems b (mkItemFilter "" pageSize offset)) F
    (okTells (λ page d, sentAll (list_to_set (ids page)) b d ∧ (offset = 0 → page ≠ []))).
Proof.
  intros HF Ha. apply yields_query; [done| |].
  - intros page. apply stable_and; [apply stable_sentAll | apply stable_const].
  - intros _ d page HI Hf [= <-]. destruct (Ha d HI Hf) as (i & s & E & Hn). assert (Hj := inv_job d HI b i s E).
    split; [split; [by exists i, s|]|].
    + intros x Hx%elem_of_list_to_set. apply (inv_sent _ _ _ _ _ _ Hj). by apply page_rows in Hx.
    + intros Ho. apply (page_rows d b offset ""); [done|]. by apply (inv_nonempty _ _ _ _ _ _ Hj).
Qed.

Lemma sentAll_union S T b d : sentAll S b d → sentAll T b d → sentAll (S ∪ T) b d.
Proof. intros [Ha H1] [_ H2]. split; [done|]. set_solver. Qed.

Lemma yields_expected pages F b offset expected :
  stable F → (∀ d, batchInv d → F d → sentAll expected b d) → offset = 0 ∨ expected ≠ ∅ →
  yields (listExpectedCustomIDs b pages offset expected) F (okTells (λ S d, sentAll S b d ∧ S ≠ ∅)).
Proof.
  revert F offset expected. induction pages as [|pages IH]; intros F offset expected HF Hs Ho; cbn [listExpectedCustomIDs].
  { by intros d _ Hf. }
  eapply yields_bind; [apply (yields_page F b offset); [done|]; intros d HI Hf; by apply Hs|].
  intros [page|e]; [|by intros d _ [Hf _]]. cbn [okTells]. set (expected' := list_to_set (ids page) ∪ expected).
  set (F' := λ d, F d ∧ sentAll (list_to_set (ids page)) b d ∧ (offset = 0 → page ≠ [])).
  assert (HF' : stable F') by (apply stable_and; [done|]; apply stable_and; [apply stable_sentAll | apply stable_const]).
  assert (Hs' : ∀ d, batchInv d → F' d → sentAll expected' b d).
  { intros d HI (Hf & Hp & _). apply sentAll_union; [done | by apply Hs]. }
  assert (Hcase : expected' ≠ ∅ ∨ ∀ d, ¬ F' d).
  { destruct page as [|x page]; [|left; unfold expected'; cbn; set_solver]. destruct Ho as [Ho|Ho]; [right | left; unfold expected'; set_solver].
    intros d (_ & _ & Hne). by apply Hne. }
  destruct Hcase as [Hne|Hno]; [|by apply safe_false].
  destruct (_ <? pageSize).
  - intros d HI HFd. split; [apply HFd|]. split; [by apply Hs' | done].
  - eapply safe_weaken; [apply (IH F' _ expected'); [done..|by right] | done|]. intros r d _ [[Hf _] Hq]. by split.
Qed.

Lemma yields_replace F b sent new counts :
  stable F → (∀ d, batchInv d → F d → sentAll sent b d) → replaceable b sent new counts →
  yields (ReplaceBatchImageItemsForJob b new counts) F (okTells (λ _, allFinished b)).
Proof.
  intros HF Hs Hr. apply (safe_query _ _ F (λ r d, r = Ok tt → allFinished b d)); [done| | | | |].
  - intros r. apply stable_implies. intros _. apply stable_allFinished.
  - intros t d HI Hf. destruct (replaceItems_ok None b sent new counts t d Hr HI (Hs d HI Hf)) as (H1 & H2 & _). by split.
  - intros t d r HI Hf E ->. destruct (replaceItems_ok None b sent new counts t d Hr HI (Hs d HI Hf)) as (_ & _ & H3). by apply H3.
  - intros [[]|e] d _ [Hf Hq]; (split; [done|]); [by apply Hq | done].
  - intros e d _ Hf. by split.
Qed.

Lemma yields_thenRun {A B} F (Q : B → batchDB → Prop) (m : P A) (p : P B) :
  maintains F m → yields p F Q → yields (bindProg (λ _, p) m) F Q.
Proof. intros Hm Hp. eapply yields_bind; [exact Hm|]. intros a. eapply safe_weaken; [exact Hp | by intros d _ [] | done]. Qed.

Lemma yields_Index F job (p : BatchImageProvider Account) account :
  stable F → (∀ d, batchInv d → F d → accepted (jobID job) d) →
  yields (Index job p account) F (okTells (λ _, allFinished (jobID job))).
Proof.
  intros HF Ha. eapply yields_bind; [apply (yields_expected _ F _ 0 ∅); [done| |by left]|].
  { intros d HI Hf. split; [by apply Ha | set_solver]. }
  intros [S|e]; [|by intros d _ [Hf _]]. cbn [okTells]. destruct (OpenResult p job account) as [[lines scanErr]|e]; [|by intros d _ [Hf _]].
  intros now. cbv zeta. set (source := if eqs _ "" then _ else _). destruct (reconcile _ source now S lines scanErr) as [l|e] eqn:E; [|by intros d _ [Hf _]].
  destruct (reconcile_spec _ _ _ _ _ _ _ E) as (Hnd & Hc & Hfin & Hne & Hids).
  set (F' := λ d, F d ∧ sentAll S (jobID job) d ∧ S ≠ ∅).
  assert (HF' : stable F') by (apply stable_and; [done|]; apply stable_and; [apply stable_sentAll | apply stable_const]).
  destruct (decide (S = ∅)) as [->|HS]; [apply safe_false; by intros d (_ & _ & ?)|].
  assert (Hr : replaceable (jobID job) S (indexed l) (mkCounts (resSuccessCount (loopResult l)) (resFailCount (loopResult l)))).
  { destruct Hc as (Hc1 & Hc2 & _). split_and!; try done. intros id. by apply Hids. }
  assert (Hreplace : yields (do* ReplaceBatchImageItemsForJob (jobID job) (indexed l)
      (mkCounts (resSuccessCount (loopResult l)) (resFailCount (loopResult l))) in ok (loopResult l)) F' (okTells (λ _, allFinished (jobID job)))).
  { eapply yields_bind; [apply (yields_replace F' _ S); [done | by intros d _ (_ & ? & _) | exact Hr]|].
    intros [u|e] d _ [Hf Hq]; by split. }
  apply (safe_weaken _ _ _ _ F' _ (λ r d, F' d ∧ okTells (λ _, allFinished (jobID job)) r d)); [|done|by intros r d _ [[Hf _] Hq]].
  destruct (_ || _); [|exact Hreplace]. apply yields_thenRun; [by apply maintains_event | exact Hreplace].
Qed.

(** ** The processor *)

Lemma maintains_terminal F : maintains F terminal.
Proof. apply maintains_ok. Qed.
Lemma maintains_requeueResult F d : maintains F (requeue d).
Proof. apply maintains_ok. Qed.

Lemma maintains_finishJob F job status opts :
  stable F → clean (jobID job) → isOver status = true → maintains F (finishJob w job status opts).
Proof.
  intros HF Hc Ho. eapply maintains_andThenQ; [by apply yields_ending|]. intros u.
  apply maintains_andThen; [|intros v; apply maintains_terminal].
  assert (HF' : stable (λ d, F d ∧ ended (jobID job) d)) by (apply stable_and; [done | apply stable_ended]).
  apply maintains_if; [|apply maintains_ok]. apply maintains_releaseHold; [done..|]. intros d _ [_ He]. by left.
Qed.

Lemma maintains_indexAndSettle F job (p : BatchImageProvider Account) account :
  stable F → clean (jobID job) → (∀ d, batchInv d → F d → accepted (jobID job) d) → maintains F (indexAndSettle w job p account).
Proof.
  intros HF Hc Ha. eapply maintains_bindQ; [by apply yields_Index|]. intros [r|e]; cbn [okTells].
  - apply maintains_andThen; [|intros u; apply maintains_requeueResult]. apply maintains_transition.
    + apply stable_and; [done | apply stable_allFinished].
    + intros d _ [_ Hf]. by right.
  - apply maintains_drop; [|apply stable_const].
    repeat (apply maintains_if; [first [apply maintains_fails | apply maintains_requeueResult]|]). by apply maintains_finishJob.
Qed.

(** The job that a step returns is the one it was given. *)
Definition sameJob (job : BatchImageJob) (job' : BatchImageJob) (d : batchDB) : Prop := jobID job' = jobID job.

Lemma yields_thenJob {A} F job f (m : M A) : maintains F m → yields (do* m in ok (withState f job)) F (okTells (sameJob job)).
Proof. intros Hm. eapply yields_bind; [exact Hm|]. intros [a|e] d _ [Hf _]; by split. Qed.

Lemma yields_persist F job ref : stable F → yields (persistProviderOutputRef job ref) F (okTells (sameJob job)).
Proof.
  intros HF. unfold persistProviderOutputRef. cbv zeta. destruct (_ || _); [by intros d _ Hf|]. apply yields_thenJob.
  apply maintains_orNotFound, maintains_statement; [done | apply sound_outputRef].
Qed.

Lemma yields_moveTo F job status eventType :
  stable F → status = BatchImageJobStatusRunning ∨ status = BatchImageJobStatusIndexing →
  yields (moveTo job status eventType) F (okTells (sameJob job)).
Proof.
  intros HF Hs. unfold moveTo. destruct (eqs _ _); [by intros d _ Hf|]. apply yields_thenJob.
  apply maintains_transition; [done|]. intros d _ _. left. destruct Hs as [-> | ->]; unfold elem_of; repeat constructor.
Qed.

Lemma maintains_sameJob {A} F job (m : M BatchImageJob) (k : BatchImageJob → M A) :
  yields m F (okTells (sameJob job)) → (∀ job', jobID job' = jobID job → maintains F (k job')) → maintains F (andThen m k).
Proof. intros Hm Hk. eapply maintains_andThenQ; [exact Hm|]. intros job'. apply (maintains_pure (jobID job' = jobID job)). apply Hk. Qed.

Lemma maintains_processStatus F job (p : BatchImageProvider Account) account s :
  stable F → clean (jobID job) → (∀ d, batchInv d → F d → accepted (jobID job) d) → maintains F (processStatus w job p account s).
Proof.
  intros HF Hc Ha. apply (maintains_sameJob _ job); [by apply yields_persist|]. intros job1 E1. rewrite <- E1 in Hc, Ha.
  destruct (InternalState s).
  - apply maintains_requeueResult.
  - apply (maintains_sameJob _ job1); [apply yields_moveTo; [done | by left]|]. intros. apply maintains_requeueResult.
  - apply (maintains_sameJob _ job1); [apply yields_moveTo; [done | by right]|]. intros job2 E2. rewrite <- E2 in Hc, Ha.
    by apply maintains_indexAndSettle.
  - by apply maintains_finishJob.
  - by apply maintains_finishJob.
  - by apply maintains_finishJob.
  - apply maintains_requeueResult.
Qed.

(** A row that was read. *)
Lemma maintains_onRow {A} F b (m : M BatchImageJob) (k : BatchImageJob → M A) :
  stable F → yields m F (okTells (rowOf b)) →
  (∀ job F', jobID job = b → clean (jobID job) → stable F' → (∀ d, F' d → seen job d) → maintains F' (k job)) →
  maintains F (andThen m k).
Proof.
  intros HF Hm Hk. eapply maintains_andThenQ; [exact Hm|]. intros job.
  set (F' := λ d, F d ∧ rowOf b job d). assert (HF' : stable F') by (apply stable_and; [done | apply stable_rowOf]).
  apply (maintains_static (clean (jobID job))); [done | by intros d _ [_ [_ []]] |]. intros Hc.
  apply (maintains_static (jobID job = b)); [done | by intros d _ [_ [? _]] |]. intros Hb.
  apply Hk; [done..|]. by intros d [_ [_ ?]].
Qed.

Lemma maintains_releaseTerminal F job :
  stable F → clean (jobID job) → (∀ d, F d → seen job d) → maintains F (releaseTerminalHold w job).
Proof.
  intros HF Hc Hs. unfold releaseTerminalHold. destruct (_ || _) eqn:Eo; [|apply maintains_ok].
  apply maintains_releaseHold; [done..|]. intros d _ Hf. left. by apply (seen_over _ _ (Hs d Hf)).
Qed.

Lemma named_some s : eqs (batchImageDerefString s) "" = false → is_Some s.
Proof. destruct s; [by eexists | done]. Qed.

Lemma maintains_ProcessProvider F b : stable F → maintains F (ProcessProvider w b).
Proof.
  intros HF. apply (maintains_onRow _ b); [done | by apply yields_getJob |]. intros job F' _ Hc HF' Hs.
  apply maintains_if; [apply maintains_andThen; [by apply maintains_releaseTerminal | intros u; apply maintains_terminal]|].
  destruct (lookupProvider w job) as [[p account]|e]; [|apply maintains_fails].
  apply maintains_if; [apply maintains_failsApp|].
  destruct (eqs (batchImageDerefString (ProviderJobName (state job))) "") eqn:En; [apply maintains_failsApp|].
  assert (Ha : ∀ d, batchInv d → F' d → accepted (jobID job) d).
  { intros d _ Hf. apply (seen_named _ _ (Hs d Hf)). by apply named_some. }
  apply maintains_if; [by apply maintains_indexAndSettle|].
  destruct (Get_ p job account) as [[s|]|e]; [by apply maintains_processStatus | apply maintains_requeueResult..].
Qed.

Lemma maintains_Process F b : stable F → maintains F (Process w b).
Proof.
  intros HF. apply (maintains_onRow _ b); [done | by apply yields_getJob |]. intros job F' _ Hc HF' _.
  apply maintains_if; [by apply maintains_ProcessProvider|]. apply maintains_bind; [by apply maintains_Settle|].
  intros [r|e]; [apply maintains_terminal|]. apply maintains_if; [apply maintains_fails|].
  apply maintains_bind; [by apply maintains_queryFound|].
  intros [u|e']; [apply maintains_if; [apply maintains_terminal|]|]; apply maintains_requeueResult.
Qed.

(** ** The worker *)

Lemma maintains_Reserve F polls : stable F → maintains F (Reserve polls).
Proof.
  intros HF. induction polls as [|polls IH]; (apply maintains_bind; [apply maintains_redis; [done | apply kept_reserveOnce]|]);
    (intros [b|e]; [apply maintains_ok|]); (apply maintains_if; [apply maintains_fails|]); [apply maintains_failsApp | exact IH].
Qed.

Lemma maintains_processReserved F b : stable F → maintains F (processReserved w b).
Proof.
  intros HF. apply maintains_bind; [by apply maintains_Process|]. intros [r|e]; [|by apply maintains_requeue].
  apply maintains_if; [apply maintains_redis; [done | apply kept_Ack] | by apply maintains_requeue].
Qed.

Lemma harmless_RunOnce polls : maintains (λ _, True) (RunOnce w polls).
Proof.
  assert (HT : stable (λ _ : batchDB, True)) by apply stable_True.
  apply maintains_bind; [by apply maintains_Reserve|]. intros [b|e]; [|apply maintains_if; apply maintains_ret].
  apply maintains_bind.
  - unfold lockJob. destruct (lockToken w); [apply maintains_redis; [done | apply kept_TryAcquire] | apply maintains_fails].
  - intros [[token|]|e].
    + apply maintains_bind; [by apply maintains_processReserved|]. intros r. apply maintains_bind; [|intros u; apply maintains_ret].
      apply maintains_redis; [done | apply kept_Release].
    + by apply maintains_requeue.
    + apply maintains_andThen; [by apply maintains_requeue | intros u; apply maintains_fails].
Qed.

Lemma harmless_heartbeat b token : maintains (λ _, True) (workerHeartbeat w b token).
Proof.
  assert (HT : stable (λ _ : batchDB, True)) by apply stable_True.
  apply maintains_bind; [apply maintains_redis; [done | apply kept_Heartbeat]|]. intros r.
  apply maintains_bind; [apply maintains_redis; [done | apply kept_Refresh]|]. intros u. apply maintains_ret.
Qed.

Lemma harmless_mover : maintains (λ _, True) (MoveDueDelayedOnce w).
Proof. apply maintains_redis; [apply stable_True | apply kept_move]. Qed.

Lemma harmless_recover : maintains (λ _, True) (RecoverStaleActiveOnce w).
Proof. apply maintains_redis; [apply stable_True | apply kept_recover]. Qed.

(** ** The recovery *)

Lemma yields_failStale F b cutoff code message :
  stable F → yields (FailStaleUnsubmittedBatchImageJob b cutoff code message) F (λ r d, r.1 = true → ended b d).
Proof.
  intros HF. eapply yields_bind.
  - apply (safe_query _ _ F (λ n d, n ≠ 0 → ended b d)); [done| | | | |].
    + intros n. apply stable_implies. intros _. apply stable_ended.
    + apply sound_failStale.
    + apply tells_jobUpdate. intros t d i s _ _ _ _. reflexivity.
    + intros n d _ Hf. instantiate (1 := okTells (λ n d, n ≠ 0 → ended b d)). exact Hf.
    + intros e d _ Hf. by split.
  - intros [n|e]; [|by intros d _ [Hf _]]. destruct (Z.eqb_spec n 0) as [_|Hn]; [by intros d _ [Hf _]|].
    eapply yields_bind; [apply maintains_event|].
    + apply stable_and; [done|]. apply stable_implies. intros _. apply stable_ended.
    + intros r d _ [[Hf He] _]. split; [done|]. intros _. by apply He.
Qed.

Lemma maintains_releaseStale F cutoff job : stable F → clean (jobID job) → maintains F (releaseStale w cutoff job).
Proof.
  intros HF Hc. eapply maintains_bindQ; [by apply yields_failStale|]. intros [[|] err]; [|apply maintains_ret].
  assert (HF' : stable (λ d, F d ∧ (true = true → ended (jobID job) d))).
  { apply stable_and; [done|]. apply stable_implies. intros _. apply stable_ended. }
  apply maintains_bind; [apply maintains_releaseHold; [done..|]; intros d _ [_ He]; left; by apply He|].
  intros [u|e]; [apply maintains_ret|]. apply maintains_bind; [by apply maintains_tryEnqueue | intros r; apply maintains_ret].
Qed.

(** A list of rows that was read. *)
Lemma maintains_onRows {A} F (m : M (list BatchImageJob)) (k : list BatchImageJob → M A) :
  stable F → yields m F (okTells (λ jobs d, Forall (λ job, seen job d) jobs)) →
  (∀ jobs F', Forall (λ job, clean (jobID job)) jobs → stable F' → (∀ d, F' d → Forall (λ job, seen job d) jobs) → maintains F' (k jobs)) →
  maintains F (andThen m k).
Proof.
  intros HF Hm Hk. eapply maintains_andThenQ; [exact Hm|]. intros jobs.
  set (F' := λ d, F d ∧ Forall (λ job, seen job d) jobs). assert (HF' : stable F') by (apply stable_and; [done | apply stable_allSeen]).
  apply (maintains_static (Forall (λ job, clean (jobID job)) jobs)); [done | |].
  - intros d _ [_ Hs]. eapply Forall_impl; [exact Hs|]. by intros job [].
  - intros Hc. apply Hk; [done..|]. by intros d [_ ?].
Qed.

Lemma harmless_recovery : maintains (λ _, True) (ReleaseStaleUnsubmittedOnce w).
Proof.
  apply maintains_clock. intros now. apply maintains_onRows; [apply stable_True | |].
  - apply (yields_list _ (λ d, merge_sort byUpdate (selectJobs _ d))); [apply stable_True|]. intros d job HI.
    rewrite merge_sort_Permutation. by apply select_seen.
  - intros jobs F' Hc HF' _. generalize 0 (@None goError). induction Hc as [|job jobs Hj _ IH]; intros n err; cbn [releaseStaleJobs].
    + destruct err; apply maintains_ret.
    + apply maintains_bind; [by apply maintains_releaseStale|]. intros r. apply IH.
Qed.

(** ** Requests of the owner *)

Lemma maintains_releaseOrRetry F job :
  stable F → clean (jobID job) → (∀ d, batchInv d → F d → releasable (jobID job) d) → maintains F (releaseOrRetry w job).
Proof.
  intros HF Hc Hr. apply maintains_bind; [by apply maintains_releaseHold|]. intros [u|e]; [apply maintains_ok|].
  apply maintains_bind; [by apply maintains_billingRetry | intros r; apply maintains_failsApp].
Qed.

Lemma maintains_reread {A} F owner b (k : BatchImageJob → A) : stable F → maintains F (let* job := ownJob owner b in ok (k job)).
Proof. intros HF. apply maintains_andThen; [by apply maintains_queryFound | intros job; apply maintains_ok]. Qed.

Lemma maintains_cancelUpstream F owner b job : stable F → maintains F (cancelUpstream w owner b job).
Proof.
  intros HF. unfold cancelUpstream. destruct (provider w _) as [p|], (AccountID (info job)) as [k|]; try apply maintains_failsApp.
  destruct (resolveAccount w k) as [account|e]; [|apply maintains_failsApp]. destruct (Cancel_ p job account); [|apply maintains_failsApp].
  apply maintains_bind; [by apply maintains_event|]. intros r. apply maintains_andThen; [|intros u; by apply maintains_reread].
  apply maintains_bind; [by apply maintains_tryEnqueue|]. intros [u|e']; apply maintains_ret.
Qed.

Lemma harmless_Cancel owner b : maintains (λ _, True) (Cancel w owner b).
Proof.
  apply (maintains_onRow _ b); [apply stable_True | apply yields_ownJob, stable_True |]. intros job F' _ Hc HF' Hs.
  apply maintains_if; [|apply maintains_if; [by apply maintains_cancelUpstream|]].
  - destruct (_ || _) eqn:Eo; [|apply maintains_ok]. apply maintains_andThen; [|intros u; apply maintains_ok].
    apply maintains_releaseOrRetry; [done..|]. intros d _ Hf. left. by apply (seen_over _ _ (Hs d Hf)).
  - eapply maintains_andThenQ; [by apply yields_ending|]. intros u.
    assert (HF2 : stable (λ d, F' d ∧ ended (jobID job) d)) by (apply stable_and; [done | apply stable_ended]).
    apply maintains_andThen; [|intros v; by apply maintains_reread].
    apply maintains_releaseOrRetry; [done..|]. intros d _ [_ He]. by left.
Qed.

Lemma harmless_GetBatch owner b : maintains (λ _, True) (GetBatch w owner b).
Proof. apply maintains_reread, stable_True. Qed.

Lemma harmless_Downloaded owner b : maintains (λ _, True) (MarkDownloaded owner b).
Proof.
  assert (HT : stable (λ _ : batchDB, True)) by apply stable_True.
  apply maintains_andThen; [by apply maintains_queryFound|]. intros job. apply maintains_clock. intros now.
  apply maintains_thenEvent, maintains_orNotFound, maintains_statement; [done..|]. apply sound_downloaded.
Qed.

Lemma maintains_userDeleted F userID apiKeyID b t : stable F → maintains F (MarkBatchImageJobUserDeleted userID apiKeyID b t).
Proof.
  intros HF. apply maintains_andThen; [apply maintains_statement; [done | apply sound_userDeleted]|]. intros n.
  apply maintains_if; [apply maintains_failsApp | by apply maintains_event].
Qed.

Lemma harmless_Delete owner b : maintains (λ _, True) (DeleteRecord owner b).
Proof.
  assert (HT : stable (λ _ : batchDB, True)) by apply stable_True.
  apply maintains_andThen; [by apply maintains_queryFound|]. intros job. apply maintains_if; [apply maintains_failsApp|].
  apply maintains_clock. intros now. by apply maintains_userDeleted.
Qed.

Lemma harmless_touch b : maintains (λ _, True) (TouchBatchImageJobSubmitting b).
Proof.
  apply maintains_andThen; [apply maintains_statement; [apply stable_True | apply sound_touch] | intros n; apply maintains_ok].
Qed.

(** ** Cleanup *)

Lemma terminal_begun status : IsTerminalBatchImageJobStatus status = true → isUnsubmitted status = false.
Proof.
  unfold IsTerminalBatchImageJobStatus. rewrite !orb_true_iff, !eqs_true. intros H. by destruct_or! H; subst.
Qed.

Lemma maintains_runCleanup F job target :
  stable F → (∀ d, F d → seen job d) → isUnsubmitted (jobStatus job) = false → maintains F (runCleanup w job target).
Proof.
  intros HF Hs Hu. apply maintains_bind; [by apply maintains_event|]. intros r.
  destruct (callProviderCleanup w job target) as [u|e].
  - apply maintains_clock. intros t.
    assert (Hout : maintains F (MarkBatchImageOutputDeleted (jobID job) t)).
    { apply maintains_thenEvent, maintains_orNotFound, maintains_statement; [done..|]. apply sound_outputDeleted. }
    destruct target; [|done..]. apply maintains_thenEvent, maintains_orNotFound, maintains_statement; [done..|]. apply sound_inputDeleted.
  - apply maintains_bind; [|intros x; apply maintains_bind; [by apply maintains_event | intros y; apply maintains_failsApp]].
    apply maintains_thenEvent, maintains_statement; [done..|]. apply sound_recordFailure. intros d _ Hf. by apply (seen_begun _ _ (Hs d Hf)).
Qed.

Lemma maintains_cleanupJob F job target : stable F → (∀ d, F d → seen job d) → maintains F (cleanupJob w job target).
Proof.
  intros HF Hs. destruct target; cbn [cleanupJob]; [| |apply maintains_failsApp]; (apply maintains_if; [apply maintains_ok|]).
  - destruct (IsTerminalBatchImageJobStatus (jobStatus job)) eqn:Et; [|apply maintains_failsApp].
    apply maintains_runCleanup; [done..|]. by apply terminal_begun.
  - destruct (_ || _) eqn:Et; [|apply maintains_failsApp]. apply maintains_runCleanup; [done..|]. apply terminal_begun.
    unfold IsTerminalBatchImageJobStatus. by rewrite Et.
Qed.

Lemma maintains_cleanupJobs F target jobs n m :
  stable F → (∀ d, F d → Forall (λ job, seen job d) jobs) → maintains F (cleanupJobs w target jobs n m).
Proof.
  intros HF. revert n m. induction jobs as [|job jobs IH]; intros n m Hs; cbn [cleanupJobs]; [apply maintains_ret|].
  apply maintains_bind.
  - apply maintains_cleanupJob; [done|]. intros d Hf. by destruct (proj1 (Forall_cons _ _ _) (Hs d Hf)).
  - assert (Hs' : ∀ d, F d → Forall (λ job, seen job d) jobs) by (intros d Hf; by apply Hs, Forall_cons in Hf as [_ ?]).
    intros [u|e]; by apply IH.
Qed.

Lemma harmless_DeleteOutputs owner b : maintains (λ _, True) (DeleteOutputsForOwner w owner b).
Proof.
  apply (maintains_onRow _ b); [apply stable_True | apply yields_ownJob, stable_True |]. intros job F' _ _ HF' Hs.
  apply maintains_if; [apply maintains_ok|]. apply maintains_if; [apply maintains_failsApp|].
  apply maintains_bind; [by apply maintains_event|]. intros r. apply maintains_andThen; [by apply maintains_cleanupJob|].
  intros u. by apply maintains_reread.
Qed.

Lemma harmless_CleanupOne target b : maintains (λ _, True) (let* job := GetBatchImageJobByBatchID b in cleanupJob w job target).
Proof.
  apply (maintains_onRow _ b); [apply stable_True | apply yields_getJob, stable_True |]. intros job F' _ _ HF' Hs.
  by apply maintains_cleanupJob.
Qed.

Lemma harmless_CleanupRun now : maintains (λ _, True) (CleanupRunOnce w now).
Proof.
  unfold CleanupRunOnce. cbv zeta. set (run_at := λ now : Time, _).
  assert (H : ∀ t, maintains (λ _, True) (run_at t)); [|destruct (IsZero now); [by apply maintains_clock | apply H]].
  intros t. apply maintains_onRows; [apply stable_True | |].
  - apply (yields_list _ (selectJobs _)); [apply stable_True|]. intros d job HI. by apply select_seen.
  - intros jobs F' _ HF' Hs. apply maintains_bind; [by apply maintains_cleanupJobs|]. intros inputs.
    apply maintains_onRows; [done| |].
    + apply (yields_list _ (λ d, merge_sort byExpiry (selectJobs _ d))); [done|]. intros d job HI.
      rewrite merge_sort_Permutation. by apply select_seen.
    + intros outs F2 _ HF2 Hs2. apply maintains_bind; [by apply maintains_cleanupJobs|]. intros outputs. apply maintains_ok.
Qed.
End safety.
