(* ===== verification/BatchImageSubmit.v ===== *)
(** * Batch image jobs: the submission is safe

    The submission of a job owns it: until the provider has taken the job only
    its program creates the items, accepts the job and marks it failed
    whatever its status is.  Here [Submit] keeps the invariant of
    [BatchImageInvariant] and changes the tables along the guarantee of the
    owner of the identifier it draws. *)

From S2P Require Import Prelude GoRuntime Domain AppErrors Transactions Agents UsageBilling BillingDB BillingAllowance BillingLedger BillingWallet BatchImageQueue BatchImage BatchImageRequest BatchImageIndex BatchImageDB BatchImageInvariant BatchImageFlow BatchImageSafety.
#[local] Open Scope Z_scope.

(** ** Rules for the owner of [b] *)

Abbreviation ownSafeBy b := (Transactions.safe batchInv (rely batchGuar (Some b)) (batchGuar (Some b))).

Section owner.
Context (b : string).

Abbreviation ownSafe := (ownSafeBy b).

Definition ownMaintains {A} (F : batchDB → Prop) (p : Prog batchDB A) : Prop := ownSafe p F (λ _, F).

(** A program of which nothing more is needed. *)
Definition ownRuns {A} (F : batchDB → Prop) (p : Prog batchDB A) : Prop := ownSafe p F (λ _ _, True).

(** A shared program keeps what the owner knows. *)
Lemma own_lift {A} (p : Prog batchDB A) P Q F :
  ownStable b F → safe p P Q → ownSafe p (λ d, P d ∧ F d) (λ a d, Q a d ∧ F d).
Proof.
  intros HF Hp. apply (safe_lift batchInv (rely batchGuar (Some b)) _ (batchGuar None)); [done | apply batchGuar_shared |].
  apply (rely_frame _ _ _ (shared_rely batchGuar (Some b))); [done|].
  apply (safe_lift batchInv batchRely _ (batchGuar None)); [apply rely_anyone | done | done].
Qed.

Lemma own_shared {A} (p : Prog batchDB A) Q F :
  ownStable b F → yields p (λ _, True) Q → ownSafe p F (λ a d, F d ∧ Q a d).
Proof.
  intros HF Hp. eapply safe_weaken; [apply (own_lift p _ _ F HF Hp) | done|]. by intros a d _ [[_ ?] ?].
Qed.

Lemma own_maintains {A} (p : Prog batchDB A) F : ownStable b F → maintains (λ _, True) p → ownMaintains F p.
Proof. intros HF Hp. eapply safe_weaken; [by apply own_shared | done|]. by intros a d _ [? _]. Qed.

Lemma own_runs {A} (p : Prog batchDB A) F : maintains (λ _, True) p → ownRuns F p.
Proof.
  intros Hp. eapply safe_weaken; [apply (own_maintains p (λ _, True)); [by apply Transactions.stable_True | done] | done | done].
Qed.

Lemma own_bind {A B} (g : A → Prog batchDB B) p F Q S : ownSafe p F Q → (∀ a, ownSafe (g a) (Q a) S) → ownSafe (bindProg g p) F S.
Proof. intros Hp Hg. by eapply safe_bindProg. Qed.

Lemma own_seq {A B} (g : A → Prog batchDB B) p F S :
  ownMaintains F p → (∀ a, ownSafe (g a) F S) → ownSafe (bindProg g p) F S.
Proof. intros Hp Hg. by eapply own_bind. Qed.

Lemma ownRuns_weaken {A} (p : Prog batchDB A) (F F' : batchDB → Prop) :
  ownRuns F p → (∀ d, batchInv d → F' d → F d) → ownRuns F' p.
Proof. intros Hp H. by eapply safe_weaken. Qed.

Lemma ownRuns_ret {A} (a : A) F : ownRuns F (Ret a).
Proof. by intros d _ _. Qed.

(** A transaction of the owner: [Q] of its answer, [F0] when its outcome is unknown. *)
Lemma own_query {X A} (f : txn X) (k : result dbError X → Prog batchDB A) F F0 (Q : X → batchDB → Prop) Post :
  ownStable b F0 → (∀ x, ownStable b (Q x)) → soundBy (Some b) f F →
  (∀ t d, batchInv d → F d → F0 d ∧ F0 (snd (f t d))) → tells f F Q →
  (∀ x, ownSafe (k (Ok x)) (Q x) Post) → (∀ e, ownSafe (k (Err e)) F0 Post) → ownSafe (Query f k) F Post.
Proof.
  intros H0 HQ Hs Hf Ht Hok Herr. exists (λ r d, match r with Ok x => Q x d | Err _ => F0 d end). split; [|split].
  - by intros [x|e].
  - intros t d Hd HF. destruct (Hs t d Hd HF), (Hf t d Hd HF). split_and!; [done..| |done].
    destruct (fst (f t d)) eqn:E; [by apply (Ht t d) | done].
  - by intros [x|e].
Qed.

Lemma own_transact {X A} (f : txn (result goError X)) (g : result goError X → Prog batchDB A) F F0
    (Q : result goError X → batchDB → Prop) Post :
  ownStable b F0 → (∀ x, ownStable b (Q x)) → soundBy (Some b) f F →
  (∀ t d, batchInv d → F d → F0 d ∧ F0 (snd (f t d))) → tells f F Q →
  (∀ r, ownSafe (g r) (Q r) Post) → (∀ e, ownSafe (g (Err e)) F0 Post) → ownSafe (bindProg g (transact f)) F Post.
Proof. intros H0 HQ Hs Hf Ht Hok Herr. apply (own_query f _ F F0 Q); [done..|exact Hok|]. intros e. apply Herr. Qed.

(** A transaction that keeps a fact. *)
Lemma own_statement {X} (f : txn X) F :
  ownStable b F → soundBy (Some b) f F → (∀ t d, batchInv d → F d → F (snd (f t d))) → ownMaintains F (query f).
Proof.
  intros HF Hs Hk. apply (own_query f _ F F (λ _, F)); [done..| | | |].
  - intros t d Hd H. split; [done | by apply Hk].
  - intros t d x Hd H _. by apply Hk.
  - by intros x d.
  - by intros e d.
Qed.

(** ** A job that the provider does not have *)

Definition unnamed : batchDB → Prop := knows (λ _ s, ProviderJobName s = None) b.

Lemma stable_unnamed : ownStable b unnamed.
Proof.
  intros d d' _ _ (a & Ha & Hj & _)%rely_other (i & s & E & Hn). destruct (Hj b) as [Hrow _ _ _]. rewrite E in Hrow.
  assert (Ho : owns a b = false) by (by apply bool_decide_eq_false). rewrite Ho in Hrow.
  destruct (jobs d' !! b) as [[i' s']|] eqn:E'; [|done]. destruct Hrow as [-> Hc]. exists i, s'. split; [done|].
  by destruct (ch_name _ _ _ Hc) as [->|[? _]].
Qed.

Lemma mine_unnamed i d : mine b i d → unnamed d.
Proof. intros (s & E & Hn & _). by exists i, s. Qed.

Lemma unnamed_row d : unnamed d → ∃ i s, jobs d !! b = Some (i, s) ∧ mayRelease (owns (Some b) b) s.
Proof.
  intros (i & s & E & Hn). exists i, s. split; [done|]. right; right. split; [by apply bool_decide_eq_true | done].
Qed.

Section failures.
Context {Account : Type} `{UC : UnicodeCase} `{JD : JSONDecoder} `{BT : BillingText} `{SN : SQLNumeric} `{CAL : Calendar}
  `{SC : SQLCalendar} `{GW : GoWeek} `{RJ : RequestJSON} `{LAWS : !SQLNumericLaws}.
Context (w : batchWorld Account).
Implicit Types job : BatchImageJob.

Lemma own_recordFailed job code message : jobID job = b → ownMaintains unnamed (recordFailure_ job code message true).
Proof.
  intros Hb. unfold recordFailure_. rewrite Hb. apply own_seq.
  - apply own_statement; [apply stable_unnamed | |].
    + apply sound_submitFailed. intros d _ (i & s & E & Hn) j u E'. rewrite E in E'. by injection E' as <- <-.
    + intros t d _ (i & s & E & Hn). unfold jobUpdate. rewrite E. cbn [always snd]. exists i. eexists.
      split; [apply lookup_insert_eq | exact Hn].
  - intros [n|e]; [|by intros d]. apply own_maintains; [apply stable_unnamed | apply maintains_event, stable_True].
Qed.

Lemma own_hold operation c :
  (∀ b', TrimSpace (cRequestID c) = releaseKey b' → b' = b) → ownMaintains unnamed (holdCall (retries w) operation c).
Proof.
  intros Hk.
  assert (Hjobs : ∀ t d, jobs (snd (holdTxn (retries w) operation c t d)) = jobs d).
  { intros t d. unfold holdTxn. by destruct (applyBatchImageBalanceHold _ _ _ _ _ _). }
  assert (Hkeep : ∀ t d, unnamed d → unnamed (snd (holdTxn (retries w) operation c t d))).
  { intros t d (i & s & E & Hn). exists i, s. by rewrite Hjobs. }
  change (ownMaintains unnamed (transact (holdTxn (retries w) operation c))). unfold transact.
  apply (own_query _ _ unnamed unnamed (λ _, unnamed)); [apply stable_unnamed | intros; apply stable_unnamed | | | | |].
  - apply sound_hold. intros d b' _ Hu E. rewrite (Hk b' E). by apply unnamed_row.
  - intros t d _ Hu. split; [done | by apply Hkeep].
  - intros t d x _ Hu _. by apply Hkeep.
  - by intros [x|e] d.
  - by intros e d.
Qed.

Lemma own_releaseBalance job hash : jobID job = b → clean b → ownMaintains unnamed (releaseBatchImageBalanceHold w job hash).
Proof.
  intros Hb Hc. unfold releaseBatchImageBalanceHold. rewrite Hb.
  destruct (buildBatchImageHoldCommand _ _ _ _) as [c|e] eqn:E; [|by intros d].
  destruct (f64_le _ _); [by intros d|]. apply own_seq.
  - apply own_hold. intros b' Ek. rewrite (command_key _ _ _ _ _ _ E (release_key _ Hc)) in Ek. by apply releaseKey_inj in Ek.
  - intros [x|e]; [by intros d|]. destruct (isRequestConflict e); by intros d.
Qed.

Lemma own_releaseFailed job hash : jobID job = b → clean b → ownMaintains unnamed (releaseFailedSubmitHold w job hash).
Proof.
  intros Hb Hc. apply own_seq; [by apply own_releaseBalance|]. intros [u|e]; [by intros d|].
  apply own_seq; [by apply own_recordFailed|]. intros _. apply own_seq; [|by intros _ d].
  apply own_maintains; [apply stable_unnamed | apply maintains_billingRetry, stable_True].
Qed.

Lemma own_submitFails {A} owner job code message e :
  jobID job = b → ownRuns unnamed (submitFails (A := A) owner job code message e).
Proof.
  intros Hb. apply own_seq; [by apply own_recordFailed|]. intros _. apply own_runs. apply maintains_bind; [|intros _; apply maintains_fails].
  unfold hidePreUpstreamSubmitFailure. apply maintains_if; [apply maintains_ret|]. apply maintains_clock. intros now.
  apply maintains_bind; [apply maintains_userDeleted, stable_True | intros _; apply maintains_ret].
Qed.

Lemma own_releaseAndFail {A} owner job hash code message e :
  jobID job = b → clean b → ownRuns unnamed (releaseAndFail (A := A) w owner job hash code message e).
Proof.
  intros Hb Hc. apply own_seq; [by apply own_releaseFailed|]. intros [u|e']; [by apply own_submitFails | by apply ownRuns_ret].
Qed.

(** ** Acceptance *)

Lemma maintains_acceptRest job F : stable F → maintains F (
    bindProg (λ r,
      match r with
      | Err e => run recordFailure_ job "QUEUE_FAILED" (publicError w e) false in failsApp ErrBatchImageQueueFailed
      | Ok _ => let* created := GetBatchImageJobByBatchID (jobID job) in ok (toPublic w created)
      end) (tryEnqueue w (jobID job))).
Proof.
  intros HF. apply maintains_bind; [by apply maintains_tryEnqueue|]. intros [u|e].
  - apply maintains_andThen; [by apply maintains_queryFound | intros created; apply maintains_ok].
  - apply maintains_bind; [|intros r; apply maintains_failsApp].
    apply maintains_thenEvent, maintains_statement; [done..|]. apply sound_submitFailure.
Qed.

Lemma own_accept job i name pj :
  jobID job = b → TrimSpace (pjJobName pj) ≠ "" → ownRuns (filled b i) (acceptJob w job name pj).
Proof.
  intros Hb Hname.
  assert (HT : ownStable b (λ _, True)) by apply Transactions.stable_True.
  apply (own_transact _ _ _ (λ _, True) (λ _ _, True)); [done..| |done|done| |].
  - intros t d HI Hf. rewrite Hb. by apply (providerSubmit_ok (submitParams name pj b) i).
  - intros [u|e]; apply own_runs; [apply maintains_acceptRest, stable_True|].
    apply maintains_bind; [|intros _; apply maintains_fails]. apply maintains_bind; [apply maintains_event, stable_True | intros r; apply maintains_ret].
  - intros e. apply own_runs. apply maintains_bind; [|intros _; apply maintains_fails].
    apply maintains_bind; [apply maintains_event, stable_True | intros r; apply maintains_ret].
Qed.

Lemma filled_unnamed {A} i (p : Prog batchDB A) : ownRuns unnamed p → ownRuns (filled b i) p.
Proof. intros Hp. eapply ownRuns_weaken; [exact Hp|]. intros d _ [Hm _]. by eapply mine_unnamed. Qed.

Lemma own_upload owner req hash (c : submitChoice (Account := Account)) job i :
  jobID job = b → clean b → ownRuns (filled b i) (uploadJob w owner req hash c job).
Proof.
  intros Hb Hc. apply own_seq.
  - apply own_maintains; [apply stable_filled|]. apply maintains_transition; [apply stable_True|]. intros d _ _. left.
    unfold elem_of; repeat constructor.
  - intros [u|e].
    + cbv zeta. destruct (Submit_ _ _ _ _) as [[pj|]|e].
      * destruct (eqs (TrimSpace (pjJobName pj)) "") eqn:En; [by apply filled_unnamed, own_releaseAndFail|].
        apply eqs_false in En. by apply own_accept.
      * by apply filled_unnamed, own_releaseAndFail.
      * by apply filled_unnamed, own_releaseAndFail.
    + apply filled_unnamed. apply own_seq; [by apply own_releaseFailed|]. intros [u|e']; [|by apply ownRuns_ret].
      destruct (errorsIs _ _); [by apply ownRuns_ret | by apply own_submitFails].
Qed.

(** ** The hold and the items *)

Lemma yields_reserve job groupID hash :
  jobID job = b → clean b → yields (reserveBatchImageBalanceHold w job groupID hash) (λ _, True) (okTells (λ job' _, jobID job' = b)).
Proof.
  intros Hb Hc. unfold reserveBatchImageBalanceHold. rewrite Hb.
  destruct (buildBatchImageHoldCommand _ _ _ _) as [cmd|e] eqn:E; [|by intros d].
  destruct (_ && _); [by intros d|]. eapply yields_bind.
  - apply (maintains_transact (λ _, True)); [apply stable_True|]. apply sound_hold. intros d b' _ _.
    change (cRequestID (SetGroup groupID cmd)) with (cRequestID cmd).
    rewrite (command_key _ _ _ _ _ _ E (proj2 (proj2 (proj2 (proj2 Hc))))). by intros ?%hold_not_release.
  - intros [r|e]; by intros d _ _.
Qed.

Lemma own_createItems hash items i {A} (g : result goError unit → P A) :
  items ≠ [] → Z.of_nat (length items) <= ItemCount i →
  (∀ u, ownRuns (filled b i) (g (Ok u))) → (∀ e, ownRuns unnamed (g (Err e))) →
  ownRuns (unfilled b i) (bindProg g (createPendingItems w b hash items)).
Proof.
  intros Hne Hlen Hok Herr. unfold createPendingItems. rewrite bool_decide_false by done. unfold BulkCreateBatchImageItems.
  set (new := pendingItems w b hash items). assert (Hnew : new ≠ []) by (unfold new; by destruct items).
  rewrite bool_decide_false by done.
  assert (Hspec := λ t d, bulkCreate_ok b i new t d Hnew).
  assert (H1 : Forall (λ item, JobID item = b) new) by (by apply Forall_fmap, Forall_forall).
  assert (H2 : Forall (λ item, itemStatus item = BatchImageItemStatusPending) new) by (by apply Forall_fmap, Forall_forall).
  assert (H3 : Z.of_nat (length new) <= ItemCount i) by (unfold new, pendingItems; by rewrite length_fmap).
  apply (own_transact _ _ _ (mine b i) (λ r, match r with Ok _ => filled b i | Err _ => mine b i end)).
  - apply stable_mine.
  - intros [u|e]; [apply stable_filled | apply stable_mine].
  - intros t d HI Hf. destruct (Hspec t d H1 H2 H3 HI Hf) as (? & ? & _). done.
  - intros t d HI Hf. destruct (Hspec t d H1 H2 H3 HI Hf) as (_ & _ & ? & _). split; [by destruct Hf | done].
  - intros t d r HI Hf E. destruct (Hspec t d H1 H2 H3 HI Hf) as (_ & _ & Hm & Hfill).
    destruct r as [[]|e]; [by apply Hfill | done].
  - intros [u|e]; [by apply Hok|]. eapply ownRuns_weaken; [apply Herr|]. intros d _. apply mine_unnamed.
  - intros e. eapply ownRuns_weaken; [apply Herr|]. intros d _. apply mine_unnamed.
Qed.

Lemma own_prepare owner req hash (c : submitChoice (Account := Account)) job i :
  jobID job = b → clean b → Items req ≠ [] → Z.of_nat (length (Items req)) <= ItemCount i →
  ownRuns (unfilled b i) (prepareJob w owner req hash c job).
Proof.
  intros Hb Hc Hne Hlen. eapply own_bind; [apply own_shared; [apply stable_unfilled | by apply yields_reserve]|].
  assert (Hun : ∀ d, unfilled b i d → unnamed d) by (intros d [Hm _]; by eapply mine_unnamed).
  intros [job'|e]; cbn [okTells].
  - apply (safe_pure batchInv _ _ (jobID job' = b)). intros Hb'. rewrite Hb'.
    apply own_createItems; [done..| |].
    + intros u. by apply own_upload.
    + intros e. by apply own_releaseAndFail.
  - eapply ownRuns_weaken; [by apply own_submitFails|]. intros d _ [Hf _]. by apply Hun.
Qed.

End failures.
End owner.

(** ** Submit *)

Section submit.
Context {Account : Type} `{UC : UnicodeCase} `{JD : JSONDecoder} `{BT : BillingText} `{SN : SQLNumeric} `{CAL : Calendar}
  `{SC : SQLCalendar} `{GW : GoWeek} `{RJ : RequestJSON} `{LAWS : !SQLNumericLaws}.
Context (w : batchWorld Account) (sw : submitWorld (Account := Account)) (owner : BatchImageOwner).
Implicit Types job : BatchImageJob.

Lemma maintains_parentOf F req : stable F → maintains F (parentOf owner req).
Proof.
  intros HF. unfold parentOf. destruct (batchImageOptionalStringPtr _); [|apply maintains_ok].
  apply maintains_andThen; [by apply maintains_queryFound | intros parent; apply maintains_ok].
Qed.

Lemma maintains_repeat F existing hash : stable F → maintains F (repeatSubmit w existing hash).
Proof.
  intros HF. apply maintains_if; [apply maintains_failsApp|]. apply maintains_if; [apply maintains_ok|].
  apply maintains_bind; [by apply maintains_tryEnqueue|]. intros [u|e]; [apply maintains_ok|].
  apply maintains_bind; [|intros r; apply maintains_failsApp].
  apply maintains_thenEvent, maintains_statement; [done..|]. apply sound_submitFailure.
Qed.

Lemma newJob_blank b req requestedModel hash key parent (c : submitChoice (Account := Account)) :
  clean b → blank b (newJob owner req requestedModel hash key b parent c).
Proof. intros Hc. unfold blank. cbn. split_and!; try done. lia. Qed.

(** The columns that the creation fills in do not matter. *)
Definition sameBlank (params params' : BatchImageJob) : Prop :=
  state params' = state params ∧ BatchID (info params') = BatchID (info params) ∧ ItemCount (info params') = ItemCount (info params).

Definition createdJob (b : string) (params : BatchImageJob) (r : result goError BatchImageJob) (d : batchDB) : Prop :=
  match r with
  | Ok job => jobID job = b ∧ ItemCount (info job) = ItemCount (info params) ∧ unfilled b (info job) d
  | Err _ => True
  end.

Lemma own_insert b params params' {A} (g : result goError BatchImageJob → P A) :
  blank b params → sameBlank params params' → (∀ r, ownSafeBy b (g r) (createdJob b params r) (λ _ _, True)) →
  ownRuns b (λ _, True) (bindProg g (transact (insertJob params'))).
Proof.
  intros (Hb & Hc & Hn & Hst) (E1 & E2 & E3) Hg.
  assert (Hblank : blank b params') by (unfold blank; rewrite E1, E2, E3; done).
  apply (own_transact _ _ _ _ (λ _, True) (createdJob b params)); [done| | |done| |exact Hg|].
  - intros [job|e]; [|done]. apply Transactions.stable_and; [apply Transactions.stable_const|].
    apply Transactions.stable_and; [apply Transactions.stable_const | apply stable_unfilled].
  - intros t d HI _. destruct (insertJob_ok b params' t d Hblank HI) as (? & ? & _). done.
  - intros t d [job|e] HI _ E; [|done]. destruct (insertJob_ok b params' t d Hblank HI) as (_ & _ & Hjob).
    destruct (Hjob job E) as (H1 & H2 & _ & H3). split_and!; [done | by rewrite H2, E3 | done].
  - intros e. eapply safe_weaken; [apply Hg | done | done].
Qed.

Lemma own_create b params {A} (g : result goError BatchImageJob → P A) :
  blank b params → (∀ r, ownSafeBy b (g r) (createdJob b params r) (λ _ _, True)) →
  ownRuns b (λ _, True) (bindProg g (CreateBatchImageJob (Ok b) params)).
Proof.
  intros Hblank Hg. assert (Hb := proj1 Hblank). assert (Hst := proj1 (proj2 (proj2 (proj2 Hblank)))).
  assert (Herr : ∀ e, ownRuns b (λ _, True) (g (Err e))) by (intros e; eapply safe_weaken; [apply Hg | done | done]).
  unfold CreateBatchImageJob. rewrite Hst. cbn [eqs]. destruct (negb _); [apply Herr|].
  cbv zeta. rewrite Hb.
  match goal with |- context [if eqs b "" then ?p else ?q] => assert (Hsame : (if eqs b "" then p else q) = p) by (by destruct (eqs b "")) end.
  rewrite Hsame. clear Hsame. destruct (NormalizeAPIKeyBillingMode _) as [mode|]; [|apply Herr].
  assert (Hins : ∀ params', sameBlank params params' → ownRuns b (λ _, True) (bindProg g (transact (insertJob params')))).
  { intros params' H. by apply (own_insert b params). }
  assert (Hbill : ∀ i, BatchID (if BillingUserID i <=? 0 then SetBillingUserID (UserID i) i else i) = BatchID i ∧
                       ItemCount (if BillingUserID i <=? 0 then SetBillingUserID (UserID i) i else i) = ItemCount i).
  { intros i. by destruct (_ <=? 0). }
  assert (Hcur : ∀ i, BatchID (if eqs (Currency i) "" then SetCurrency "USD" i else i) = BatchID i ∧
                      ItemCount (if eqs (Currency i) "" then SetCurrency "USD" i else i) = ItemCount i).
  { intros i. by destruct (eqs _ _). }
  destruct (negb _); [|destruct (positiveID _); [|apply Herr]]; apply Hins; unfold sameBlank; cbn [info state].
  all: split_and!; [done|..].
  all: cbn [BatchID ItemCount SetPreferredID SetBillingModeColumn etaInfo].
  all: rewrite ?(proj1 (Hbill _)), ?(proj2 (Hbill _)), ?(proj1 (Hcur _)), ?(proj2 (Hcur _)); by cbn.
Qed.

Lemma own_submitNew bytes req requestedModel hash key :
  randomBytes sw = Ok bytes → bytes ≠ [] → Items req ≠ [] →
  ownRuns (NewBatchImageID bytes) (λ _, True) (submitNew w sw owner req requestedModel hash key).
Proof.
  intros Hr Hbytes Hne. unfold submitNew. rewrite Hr. cbv zeta. set (b := NewBatchImageID bytes).
  assert (Hc : clean b) by (by apply NewBatchImageID_clean).
  destruct (choose sw req) as [c|e]; [|by apply ownRuns_ret].
  apply own_seq; [apply own_maintains; [done | apply maintains_parentOf, stable_True]|]. intros [parent|e]; [|by apply ownRuns_ret].
  apply own_create; [by apply newJob_blank|]. intros [job|e]; [|by apply ownRuns_ret]. cbn [createdJob].
  apply (safe_weaken _ _ _ _ (λ d, unfilled b (info job) d ∧ (jobID job = b ∧ ItemCount (info job) = Z.of_nat (length (Items req)))) _ (λ _ _, True)).
  - apply (safe_pure batchInv _ _ (jobID job = b ∧ ItemCount (info job) = Z.of_nat (length (Items req)))). intros [Hb Hn].
    apply own_prepare; [done..|]. lia.
  - by intros d _ (H1 & H2 & H3).
  - done.
Qed.

Lemma shared_submitNew req requestedModel hash key e :
  randomBytes sw = Err e → maintains (λ _, True) (submitNew w sw owner req requestedModel hash key).
Proof.
  intros Hr. unfold submitNew. rewrite Hr. destruct (choose sw req) as [c|e']; [|apply maintains_fails].
  apply maintains_andThen; [apply maintains_parentOf, stable_True | intros parent; apply maintains_fails].
Qed.

(** The submission that draws an identifier, as its owner. *)
Lemma own_Submit bytes req idempotencyKey :
  randomBytes sw = Ok bytes → bytes ≠ [] → ownRuns (NewBatchImageID bytes) (λ _, True) (Submit w sw owner req idempotencyKey).
Proof.
  intros Hr Hbytes. unfold Submit. destruct (negb (enabled sw)); [by apply ownRuns_ret|]. intros now.
  destruct (validateSubmitRequest _ _ now req) as [req'|e] eqn:Ev; [|by apply ownRuns_ret]. apply validate_nonempty in Ev.
  destruct (groupAllows sw _) as [u|e]; [|by apply ownRuns_ret]. cbv zeta.
  assert (Hnew := λ requestedModel hash key, own_submitNew bytes req' requestedModel hash key Hr Hbytes Ev).
  destruct (eqs (TrimSpace idempotencyKey) ""); [apply Hnew|].
  apply own_seq; [apply own_maintains; [done | apply maintains_queryFound, stable_True]|]. intros [existing|e].
  - apply own_runs, maintains_repeat, stable_True.
  - destruct (errorsIs _ e); [apply Hnew | by apply ownRuns_ret].
Qed.

(** Without random bytes no job is created. *)
Lemma shared_Submit req idempotencyKey e :
  randomBytes sw = Err e → maintains (λ _, True) (Submit w sw owner req idempotencyKey).
Proof.
  intros Hr. unfold Submit. destruct (negb (enabled sw)); [apply maintains_failsApp|]. apply maintains_clock. intros now.
  destruct (validateSubmitRequest _ _ now req) as [req'|e']; [|apply maintains_failsApp].
  destruct (groupAllows sw _) as [u|e']; [|apply maintains_fails]. cbv zeta.
  apply maintains_if; [by eapply shared_submitNew|]. apply maintains_bind; [apply maintains_queryFound, stable_True|]. intros [existing|e'].
  - apply maintains_repeat, stable_True.
  - apply maintains_if; [by eapply shared_submitNew | apply maintains_fails].
Qed.
End submit.
