(* ===== verification/BatchImageSystem.v ===== *)
(** * Batch image jobs: the system

    Submissions, workers, the recovery, cancellations, deletions and the cleanup
    run concurrently; other parts of the program use the ledger meanwhile.  The
    theorems hold at every instant of every run: jobs only move forward, the
    counts of an indexed job are those of its items, a job that was accepted
    keeps its hold, and a completed job is paid. *)

From S2P Require Import Prelude GoRuntime Domain AppErrors Transactions Agents UsageBilling BillingDB BillingAllowance BillingLedger BillingWallet BatchImageQueue BatchImage BatchImageRequest BatchImageIndex BatchImageDB BatchImageInvariant BatchImageFlow BatchImageSafety BatchImageSubmit.
#[local] Open Scope Z_scope.

(** Run, and forget the answer. *)
Definition discard {A} (p : P A) : P unit := bindProg (λ _, Ret tt) p.

Section system.
Context {Account : Type} `{UC : UnicodeCase} `{JD : JSONDecoder} `{BT : BillingText} `{SN : SQLNumeric} `{CAL : Calendar}
  `{SC : SQLCalendar} `{GW : GoWeek} `{RJ : RequestJSON}.

(** The programs, with every answer the world outside may give.  A submission is
    named by the identifier that it draws, of sixteen bytes; its heartbeat is
    [TouchBatchImageJobSubmitting]. *)
Inductive entry : agent → P unit → Prop :=
  | entry_Submit (w : batchWorld Account) sw owner req key bytes :
      randomBytes sw = Ok bytes → length bytes = 16%nat → entry (Some (NewBatchImageID bytes)) (discard (Submit w sw owner req key))
  | entry_SubmitWithoutID (w : batchWorld Account) sw owner req key e :
      randomBytes sw = Err e → entry None (discard (Submit w sw owner req key))
  | entry_Touch b : entry None (discard (TouchBatchImageJobSubmitting b))
  | entry_RunOnce (w : batchWorld Account) polls : entry None (discard (RunOnce w polls))
  | entry_Heartbeat (w : batchWorld Account) b token : entry None (workerHeartbeat w b token)
  | entry_MoveDueDelayed (w : batchWorld Account) : entry None (discard (MoveDueDelayedOnce w))
  | entry_RecoverStaleActive (w : batchWorld Account) : entry None (discard (RecoverStaleActiveOnce w))
  | entry_ReleaseStale (w : batchWorld Account) : entry None (discard (ReleaseStaleUnsubmittedOnce w))
  | entry_Cancel (w : batchWorld Account) owner b : entry None (discard (Cancel w owner b))
  | entry_GetBatch (w : batchWorld Account) owner b : entry None (discard (GetBatch w owner b))
  | entry_Downloaded owner b : entry None (discard (MarkDownloaded owner b))
  | entry_DeleteRecord owner b : entry None (discard (DeleteRecord owner b))
  | entry_DeleteOutputs (w : batchWorld Account) owner b : entry None (discard (DeleteOutputsForOwner w owner b))
  | entry_CleanupInput (w : batchWorld Account) b : entry None (discard (CleanupInput w b))
  | entry_CleanupOutput (w : batchWorld Account) b : entry None (discard (CleanupOutput w b))
  | entry_CleanupRun (w : batchWorld Account) now : entry None (discard (CleanupRunOnce w now)).

(** The other users of the ledger: charges and the holds of creative runs.  Their
    requests are not releases of batch images. *)
Definition outside (t : Time) (d d' : batchDB) : Prop :=
  ∃ cw call, (∀ b, (requestKey call).1 ≠ releaseKey b) ∧ d' = setLedger (snd (runCall cw call (ledger d))) d.

Definition init (x : crew batchDB) : Prop :=
  let d := crewDB x in
  Agents.members x = [] ∧ jobs d = ∅ ∧ items d = ∅ ∧ requested d = ∅ ∧ inflight (queue d) = ∅ ∧ ∀ b, ¬ released d b.

Definition batchReachable : crew batchDB → Prop := reachable init (crewStep entry outside).

Context `{LAWS : !SQLNumericLaws}.

(** ** Every program is safe *)

Lemma discard_own {A} b (p : P A) : ownRuns b (λ _, True) p → agentSafe batchInv batchGuar (Some b) (discard p).
Proof.
  intros Hp. exists (λ _, True). split; [apply Transactions.stable_True|]. split; [|done].
  eapply own_bind; [exact Hp|]. by intros a d _ _.
Qed.

Lemma shared_agent (p : P unit) : maintains (λ _, True) p → agentSafe batchInv batchGuar None p.
Proof.
  intros Hp. exists (λ _, True). split; [apply Transactions.stable_True|]. split; [|done].
  apply (safe_lift batchInv batchRely _ (batchGuar None)); [apply rely_anyone | done |]. by eapply safe_weaken.
Qed.

Lemma discard_shared {A} (p : P A) : maintains (λ _, True) p → agentSafe batchInv batchGuar None (discard p).
Proof. intros Hp. apply shared_agent, maintains_bind; [done | intros a; apply maintains_ret]. Qed.

Lemma entry_safe a p : entry a p → agentSafe batchInv batchGuar a p.
Proof.
  intros [w sw owner req key bytes Hr Hlen | w sw owner req key e Hr | b | w polls | w b token | w | w | w | w owner b | w owner b | owner b
         | owner b | w owner b | w b | w b | w now]; [apply discard_own, own_Submit; [done | by intros ->] | ..].
  all: try apply discard_shared.
  - by eapply shared_Submit.
  - apply harmless_touch.
  - apply harmless_RunOnce.
  - apply shared_agent, harmless_heartbeat.
  - apply harmless_mover.
  - apply harmless_recover.
  - apply harmless_recovery.
  - apply harmless_Cancel.
  - apply harmless_GetBatch.
  - apply harmless_Downloaded.
  - apply harmless_Delete.
  - apply harmless_DeleteOutputs.
  - apply harmless_CleanupOne.
  - apply harmless_CleanupOne.
  - apply harmless_CleanupRun.
Qed.

Lemma call_requests cw call l :
  requestsOf l ⊆ requestsOf (snd (runCall cw call l)) ∧ requestsOf (snd (runCall cw call l)) ⊆ {[requestKey call]} ∪ requestsOf l.
Proof.
  destruct (runCall cw call l) as [r l'] eqn:E. apply ledger_call_step in E. cbn [snd].
  change (requestsOf l) with (applied (bankOf l)). change (requestsOf l') with (applied (bankOf l')).
  inversion E; subst; cbn [applied]; set_solver.
Qed.

Lemma outside_safe t d d' : batchInv d → outside t d d' → batchInv d' ∧ batchGuar None d d'.
Proof.
  intros HI (cw & call & Hk & ->). destruct (call_requests cw call (ledger d)) as [H1 H2]. apply ledger_ok; [done..|].
  intros b [key Hin]. apply H2, elem_of_union in Hin as [Hin%elem_of_singleton|Hin]; [|left; by exists key].
  destruct (Hk b). by rewrite <- Hin.
Qed.

Lemma init_inv x : init x → batchInv (crewDB x) ∧ Agents.members x = [].
Proof.
  intros (Hm & Hj & Hi & Hr & Hq & Hrel). split; [|done]. split.
  - intros b i s. by rewrite Hj.
  - intros b i s. by rewrite Hj.
  - intros b _. by rewrite Hi, Hr.
  - intros job. rewrite Hq. by intros [].
Qed.

Lemma batchReachable_safe x : batchReachable x → crewSafe batchInv batchGuar x.
Proof. apply crewReachable_safe; [apply entry_safe | apply outside_safe | apply batchGuar_refl | apply init_inv]. Qed.

Lemma batchReachable_inv x : batchReachable x → batchInv (crewDB x).
Proof. intros Hx. by destruct (batchReachable_safe x Hx). Qed.

(** ** Histories *)

(** How far a job has come; the ends of a job that was not completed are last. *)
Definition stage (status : string) : Z :=
  if eqs status BatchImageJobStatusUploading then 1
  else if eqs status BatchImageJobStatusSubmitted then 2
  else if eqs status BatchImageJobStatusRunning then 3
  else if eqs status BatchImageJobStatusIndexing then 4
  else if eqs status BatchImageJobStatusSettling then 5
  else if eqs status BatchImageJobStatusCompleted then 6
  else if eqs status BatchImageJobStatusOutputDeleted then 7
  else if isOver status then 8 else 0.

Record forward (s s' : BatchImageJobState) : Prop := {
  fw_stage : stage (Status s) <= stage (Status s');
  fw_version : Version s <= Version s';
  fw_status : Version s' = Version s → Status s' = Status s;
  fw_retries : RetryCount s <= RetryCount s';
  fw_name : ∀ name, ProviderJobName s = Some name → ProviderJobName s' = Some name;
  fw_over : isOver (Status s) = true → isOver (Status s') = true;
  fw_paid : isPaid (Status s) = true → isPaid (Status s') = true;
}.

Lemma forward_trans s1 s2 s3 : forward s1 s2 → forward s2 s3 → forward s1 s3.
Proof.
  intros [] []. split; [lia | lia | | lia | auto | auto | auto]. intros E. rewrite fw_status1 by lia. apply fw_status0. lia.
Qed.

Lemma forward_refl s : forward s s.
Proof. by split. Qed.

Lemma edge_stage from to : (from, to) ∈ edges → stage from <= stage to.
Proof. intros He. apply Z.leb_le. by_edges (λ f t, stage f <=? stage t) He. Qed.
Lemma stage_bound status : stage status <= 8.
Proof. unfold stage. repeat case_match; lia. Qed.

Lemma over_not_paid status : isPaid status = true → isOver status = false.
Proof. unfold isPaid. intros [->%eqs_true| ->%eqs_true]%orb_true_iff; reflexivity. Qed.

Lemma paid_accepted status : isPaid status = true → isAccepted status = true.
Proof. unfold isAccepted, isIndexed. intros ->. by rewrite !orb_true_r. Qed.

Lemma change_forward owner d b i s s' : rowInv d b i s → stateChange owner s s' → forward s s'.
Proof.
  intros Hr Hc. destruct (ch_status _ _ _ Hc) as [Es|[Hm|(_ & Hn & Es)]].
  - split; rewrite ?Es; try done; [apply Hc | apply Hc |].
    intros name Hname. rewrite <- Hname. apply (change_name _ _ _ Hc). by exists name.
  - split; [| apply Hc | | apply Hc | | by apply (change_over _ _ _ Hc) |].
    + apply moves_edges in Hm as [[-> _]|He]; [apply stage_bound | by apply edge_stage].
    + intros Ev. destruct (decide (Status s' = Status s)) as [|Hne]; [done|]. pose proof (ch_bump _ _ _ Hc Hne). lia.
    + intros name Hname. rewrite <- Hname. apply (change_name _ _ _ Hc). by exists name.
    + intros Hp. apply moves_edges in Hm as [[_ Ht]|He]; [by rewrite (paid_terminal _ Hp) in Ht | by eapply edge_paid].
  - split; [rewrite Es; apply stage_bound | apply Hc | | apply Hc | | by apply (change_over _ _ _ Hc) |].
    + intros Ev. destruct (decide (Status s' = Status s)) as [|Hne]; [done|]. pose proof (ch_bump _ _ _ Hc Hne). lia.
    + intros name Hname. congruence.
    + intros Hp%paid_accepted. destruct (inv_accepted _ _ _ _ _ _ Hr Hp). congruence.
Qed.

Lemma step_forward x y b i s :
  crewSafe batchInv batchGuar x → crewStep entry outside x y → jobs (crewDB x) !! b = Some (i, s) →
  crewSafe batchInv batchGuar y ∧ ∃ s', jobs (crewDB y) !! b = Some (i, s') ∧ forward s s'.
Proof.
  intros Hx Hs E. destruct (crewSafe_step entry outside batchInv batchGuar entry_safe outside_safe batchGuar_refl x y Hx Hs)
    as [Hy (a & Hj & _)].
  split; [done|]. destruct (Hj b) as [Hrow _ _ _]. rewrite E in Hrow. destruct (jobs (crewDB y) !! b) as [[i' s']|]; [|done].
  destruct Hrow as [-> Hc]. exists s'. split; [done|]. eapply change_forward; [|exact Hc].
  by apply (inv_job _ (proj1 Hx)).
Qed.

(** C11: safety.  A job that exists goes on to exist with the columns it was
    created with, and only moves forward: its status never returns to an earlier
    stage, failed and cancelled jobs remain so, completed jobs remain paid, a
    change of the status raises the version, the failures are counted upwards,
    and the name of the provider's job never changes once it is set. *)
Theorem job_only_moves_forward x y b i s :
  batchReachable x → rtc (crewStep entry outside) x y → jobs (crewDB x) !! b = Some (i, s) →
  ∃ s', jobs (crewDB y) !! b = Some (i, s') ∧
    stage (Status s) <= stage (Status s') ∧ Version s <= Version s' ∧ (Version s' = Version s → Status s' = Status s) ∧
    RetryCount s <= RetryCount s' ∧ (∀ name, ProviderJobName s = Some name → ProviderJobName s' = Some name) ∧
    (isOver (Status s) = true → isOver (Status s') = true) ∧ (isPaid (Status s) = true → isPaid (Status s') = true).
Proof.
  intros Hx%batchReachable_safe Hr E.
  assert (∃ s', jobs (crewDB y) !! b = Some (i, s') ∧ forward s s') as (s' & E' & []); [|by exists s'].
  revert s E. induction Hr as [x|x y z Hs _ IH]; intros s E; [exists s; by split; [|apply forward_refl]|].
  destruct (step_forward x y b i s Hx Hs E) as (Hy & s1 & E1 & F1). destruct (IH Hy s1 E1) as (s2 & E2 & F2).
  exists s2. split; [done | by eapply forward_trans].
Qed.

(** ** What holds at every instant *)

Lemma indexed_accepted status : isIndexed status = true → isAccepted status = true.
Proof. unfold isAccepted. intros ->. by rewrite orb_true_r. Qed.

Lemma rows_bound d b i s : batchInv d → jobs d !! b = Some (i, s) → Z.of_nat (length (itemsOf d b)) <= ItemCount i.
Proof.
  intros HI E. assert (Hj := inv_job _ HI b i s E). etrans; [|apply (inv_size _ _ _ _ _ _ Hj)]. apply inj_le.
  transitivity (size (list_to_set (ids (itemsOf d b)) : gset string)).
  - rewrite size_list_to_set by apply Hj. unfold ids. by rewrite length_fmap.
  - apply subseteq_size. intros id Hid%elem_of_list_to_set. by apply (inv_sent _ _ _ _ _ _ Hj).
Qed.

(** The row of an accepted job, and its items. *)
Lemma accepted_rows d b i s :
  batchInv d → jobs d !! b = Some (i, s) → isAccepted (Status s) = true →
  let rows := itemsOf d b in
  rows ≠ [] ∧ NoDup (ids rows) ∧ Z.of_nat (length rows) <= ItemCount i ∧ (list_to_set (ids rows) : gset string) ≠ ∅.
Proof.
  intros HI E Ha. assert (Hj := inv_job _ HI b i s E). cbv zeta.
  assert (Hne : itemsOf d b ≠ []) by (apply (inv_nonempty _ _ _ _ _ _ Hj), (inv_accepted _ _ _ _ _ _ Hj), Ha).
  split_and!; [done | apply Hj | by eapply rows_bound |].
  destruct (itemsOf d b) as [|x rows]; [done|]. cbn. set_solver.
Qed.

Lemma indexed_total d b i s :
  batchInv d → jobs d !! b = Some (i, s) → isIndexed (Status s) = true →
  let rows := itemsOf d b in
  (SuccessCount s = successes rows ∧ FailCount s = failures rows ∧ Forall finished rows) ∧
  SuccessCount s + FailCount s = Z.of_nat (length rows) ∧ (∀ h, countsInvalid (mkJob i s h) = false).
Proof.
  intros HI E Hs. cbv zeta. destruct (accepted_rows d b i s HI E (indexed_accepted _ Hs)) as (_ & _ & Hlen & _).
  destruct (inv_indexed _ _ _ _ _ _ (inv_job _ HI b i s E) Hs) as (H1 & H2 & H3).
  assert (Hsum : SuccessCount s + FailCount s = Z.of_nat (length (itemsOf d b))).
  { apply (counted_total _ (mkIndexResult (SuccessCount s) (FailCount s) (Z.of_nat (length (itemsOf d b))))). by split_and!. }
  split; [done|]. split; [done|]. intros h. unfold countsInvalid. cbn [state info]. rewrite !orb_false_iff, !Z.ltb_ge.
  rewrite Hsum, H1, H2. unfold successes, failures. lia.
Qed.

(** C10: invariant.  Once a job has been indexed its counts are those of its
    items: every item has its final result and appears once, there is at least
    one and there are no more than were submitted, each of them was submitted,
    and the check of the counts in the settlement finds nothing. *)
Theorem indexed_counts_add_up x b i s h :
  batchReachable x → jobs (crewDB x) !! b = Some (i, s) → isIndexed (Status s) = true →
  let rows := itemsOf (crewDB x) b in
  SuccessCount s = successes rows ∧ FailCount s = failures rows ∧ SuccessCount s + FailCount s = Z.of_nat (length rows) ∧
  1 <= Z.of_nat (length rows) <= ItemCount i ∧ NoDup (ids rows) ∧ Forall finished rows ∧
  (∀ id, id ∈ ids rows → id ∈ sentOf (crewDB x) b) ∧ countsInvalid (mkJob i s h) = false.
Proof.
  intros Hx%batchReachable_inv E Hs. cbv zeta. assert (Hj := inv_job _ Hx b i s E).
  destruct (accepted_rows _ b i s Hx E (indexed_accepted _ Hs)) as (Hne & Hn & Hlen & _).
  destruct (indexed_total _ b i s Hx E Hs) as ((H1 & H2 & H3) & Hsum & Hcounts). split_and!; try done.
  - destruct (itemsOf (crewDB x) b); [done | cbn [length]; lia].
  - apply (inv_sent _ _ _ _ _ _ Hj).
Qed.

(** C4: safety.  The money that was held for a job stays held as long as the job
    may be delivered: from the moment the provider has taken it, and until it
    ends without a result or its settlement has failed five times, no release
    of its hold is ever applied. *)
Theorem accepted_hold_kept x b i s :
  batchReachable x → jobs (crewDB x) !! b = Some (i, s) →
  is_Some (ProviderJobName s) → isOver (Status s) = false → RetryCount s < batchImageSettlementMaxRetries →
  ∀ apiKeyID, (releaseKey b, apiKeyID) ∉ requestsOf (ledger (crewDB x)).
Proof.
  intros Hx%batchReachable_inv E Hn Ho Hr k Hk. apply (inv_hold _ _ _ _ _ _ (inv_job _ Hx b i s E)); [done..|]. by exists k.
Qed.

(** C3: safety.  A job is completed only after its hold was captured: the
    capture is among the requests that the ledger has applied, and the cost and
    the manifest are recorded. *)
Theorem completed_job_paid x b i s :
  batchReachable x → jobs (crewDB x) !! b = Some (i, s) →
  Status s = BatchImageJobStatusCompleted ∨ Status s = BatchImageJobStatusOutputDeleted →
  (∃ apiKeyID, (captureKey b, apiKeyID) ∈ requestsOf (ledger (crewDB x))) ∧ is_Some (ActualCost s) ∧ is_Some (ManifestHash s).
Proof.
  intros Hx%batchReachable_inv E Hs. apply (inv_paid _ _ _ _ _ _ (inv_job _ Hx b i s E)).
  by destruct Hs as [-> | ->].
Qed.

(** C32: invariant.  No job is lost between the lists of the queue: when it is
    refused because it is queued already, it is waiting, delayed, or in work. *)
Theorem refused_job_is_queued x o t b :
  batchReachable x → fst (Enqueue o b t (queue (crewDB x))) = Err (AppErr ErrBatchImageAlreadyQueued) →
  present b (queue (crewDB x)).
Proof.
  intros Hx%batchReachable_inv. unfold Enqueue, onJob, batchImageEnqueueScript, queued.
  destruct (IsValidBatchImageID b) eqn:Hv; [|by vm_compute].
  destruct (inflight (queue (crewDB x)) !! b) as [expiry|] eqn:E; [|by cbn]. intros _. apply (inv_queue _ Hx); [by eexists | done].
Qed.
End system.

(** ** Example runs

    A job of three images is submitted, the worker finds that the provider has
    finished, and settles it in a second round; one image has no result. *)

Section demo.
#[local] Existing Instances ascii_case plainText decimal8 utcSQL utcWeek decimal8_laws.
#[local] Instance utcCalendar : Calendar := fixedZone 0.

(** A result line is the identifier of its item. *)
#[local] Instance demoDecoder : JSONDecoder := {|
  unmarshalObject line :=
    Ok [("key", JString line);
        ("candidates", JArray [JObject [("content", JObject [("parts", JArray [JObject
          [("inlineData", JObject [("mimeType", JString "image/png"); ("data", JString "AA==")])]])])]])]
|}.

#[local] Instance demoJSON : RequestJSON := {|
  marshalSubmitRequest req := reqModel req; marshalCompositeRequest req group := reqModel req |}.

Definition demoProvider : BatchImageProvider unit :=
  mkProvider unit (λ _, true) (λ _ _ _, Ok (Some (mkProviderJob "batches/1" "gs://b/in" "gs://b/out")))
    (λ _ _, Ok (Some (mkProviderStatus BatchProviderStateSucceeded "gs://b/out" "" "" 0))) (λ _ _, Ok tt)
    (λ _ _, Ok (["cat_01"; "cat_02"], None)) (λ _ _ _, Ok tt).

Definition demoBatchWorld : batchWorld unit :=
  mkWorld unit (BillingWallet.retries sampleWorld) (λ _, Some demoProvider) (λ _, Ok tt) (λ _, Ok (cents 4)) (λ _, "error"%string)
    Hour Hour 100 demoLimits (mkQueueOptions "" "" "" "" "" Hour Minute) (Ok "token"%string)
    (mkWorkerOptions Second Minute Second Second Minute Second Second Minute Minute 100 100) (λ _, "task"%string).

Definition demoPrices : BatchImagePricingSnapshot :=
  mkPricing (cents 100) (f64_of_Z 1) (f64_of_Z 1) (f64_of_Z 1) false (f64_of_Z 1) (f64_of_Z 1) (f64_of_Z 1) (cents 100) (cents 100)
    (cents 300) (cents 300).

Definition demoSubmitWorld : submitWorld (Account := unit) :=
  mkSubmitWorld true (λ _, Ok tt) None
    (λ _, Ok (mkChoice "gemini_api" demoProvider tt 9 "gemini-flash-image" demoPrices)) (Ok (repeat "a"%char 16)).

Definition demoOwner : BatchImageOwner := mkOwner 7 7 None 5 None "balance" None.
Definition demoID : string := NewBatchImageID (repeat "a"%char 16).

Definition demoTables : batchDB :=
  mkBatchDB ∅ 1 ∅ [] sampleDB (mkQueue [] ∅ ∅ ∅ ∅) ∅ ∅.

(** The entries of the example, in their order, and the tables after each. *)
Definition demoSubmit : P unit := discard (Submit demoBatchWorld demoSubmitWorld demoOwner demoRequest "").
Definition demoRound : P unit := discard (RunOnce demoBatchWorld 0).
Definition demoMove : P unit := discard (MoveDueDelayedOnce demoBatchWorld).

Definition demoSubmitted : batchDB := snd (exec sampleDay demoSubmit demoTables).
Definition demoIndexed : batchDB := snd (exec (sampleDay + Minute) demoRound demoSubmitted).
Definition demoReady : batchDB := snd (exec (sampleDay + 2 * Minute) demoMove demoIndexed).
Definition demoCompleted : batchDB := snd (exec (sampleDay + 2 * Minute) demoRound demoReady).

Abbreviation demoReachable := (batchReachable (Account := unit)).
Abbreviation demoSteps := (crewStep (entry (Account := unit)) outside).

Lemma demoTables_reachable : demoReachable (mkCrew sampleDay demoTables []).
Proof.
  apply reach_init. split_and!; try done. intros b [k Hk]. vm_compute in Hk. done.
Qed.

(** A shared program runs next, at a later time. *)
Lemma demo_next t t' d l (p : P unit) :
  t <= t' → entry (Account := unit) None p → ∃ l', rtc demoSteps (mkCrew t d l) (mkCrew t' (snd (exec t' p d)) l').
Proof.
  intros Ht He. destruct (crew_run (entry (Account := unit)) outside None p (mkCrew t' d l) He) as [q Hq]; [by intros i r n|].
  eexists. econstructor; [by apply (crew_tick _ _ (mkCrew t d l)) | exact Hq].
Qed.

Lemma demoSubmitted_reachable : ∃ l, demoReachable (mkCrew sampleDay demoSubmitted l).
Proof.
  destruct (crew_run (entry (Account := unit)) outside (Some demoID) demoSubmit (mkCrew sampleDay demoTables [])) as [q Hq].
  - exact (entry_Submit demoBatchWorld demoSubmitWorld demoOwner demoRequest "" _ eq_refl eq_refl).
  - by intros i p n.
  - eexists. eapply reachable_steps; [apply demoTables_reachable | exact Hq].
Qed.

Lemma demo_steps l : ∃ l1 l2, rtc demoSteps (mkCrew sampleDay demoSubmitted l) (mkCrew (sampleDay + Minute) demoIndexed l1) ∧
  rtc demoSteps (mkCrew (sampleDay + Minute) demoIndexed l1) (mkCrew (sampleDay + 2 * Minute) demoCompleted l2).
Proof.
  destruct (demo_next sampleDay (sampleDay + Minute) demoSubmitted l demoRound) as [l1 H1]; [done | constructor|].
  destruct (demo_next (sampleDay + Minute) (sampleDay + 2 * Minute) demoIndexed l1 demoMove) as [l2 H2]; [done | constructor|].
  destruct (demo_next (sampleDay + 2 * Minute) (sampleDay + 2 * Minute) demoReady l2 demoRound) as [l3 H3]; [done | constructor|].
  exists l1, l3. split; [exact H1|]. by etrans.
Qed.

(** A row of the example. *)
Lemma demo_row d : jobs d !! demoID ≠ None → ∃ i s, jobs d !! demoID = Some (i, s).
Proof. destruct (jobs d !! demoID) as [[i s]|]; [by exists i, s | done]. Qed.

Lemma job_only_moves_forward_witness :
  ∃ x y i s s', demoReachable x ∧ rtc demoSteps x y ∧ jobs (crewDB x) !! demoID = Some (i, s) ∧
    jobs (crewDB y) !! demoID = Some (i, s') ∧ Status s = BatchImageJobStatusSettling ∧ Status s' = BatchImageJobStatusCompleted ∧
    Version s <= Version s'.
Proof.
  destruct demoSubmitted_reachable as [l H0], (demo_steps l) as (l1 & l2 & H1 & H2). pose proof (reachable_steps _ _ _ _ H0 H1) as Hx.
  destruct (demo_row demoIndexed) as (i & s & E); [by vm_compute|].
  destruct (job_only_moves_forward _ _ demoID i s Hx H2 E) as (s' & E' & _ & Hv & _).
  eexists _, _, i, s, s'. split_and!; [exact Hx | exact H2 | exact E | exact E' | | | exact Hv].
  - vm_compute in E. by injection E as _ <-.
  - cbn [crewDB] in E'. vm_compute in E'. by injection E' as _ <-.
Defined.

Lemma indexed_counts_add_up_witness :
  ∃ x i s, demoReachable x ∧ jobs (crewDB x) !! demoID = Some (i, s) ∧ isIndexed (Status s) = true ∧
    SuccessCount s = 2 ∧ SuccessCount s + FailCount s = Z.of_nat (length (itemsOf (crewDB x) demoID)).
Proof.
  destruct demoSubmitted_reachable as [l H0], (demo_steps l) as (l1 & l2 & H1 & _). pose proof (reachable_steps _ _ _ _ H0 H1) as Hx.
  destruct (demo_row demoIndexed) as (i & s & E); [by vm_compute|].
  assert (Hs : isIndexed (Status s) = true ∧ SuccessCount s = 2) by (vm_compute in E; by injection E as _ <-).
  destruct Hs as [Hs Hn]. destruct (indexed_counts_add_up _ demoID i s (mkHold f64_zero None f64_zero [] false) Hx E Hs) as (_ & _ & Hsum & _).
  eexists _, i, s. split_and!; [exact Hx | exact E | exact Hs | exact Hn | exact Hsum].
Defined.

Lemma accepted_hold_kept_witness :
  ∃ x i s, demoReachable x ∧ jobs (crewDB x) !! demoID = Some (i, s) ∧ Status s = BatchImageJobStatusSubmitted ∧
    (releaseKey demoID, 5) ∉ requestsOf (ledger (crewDB x)).
Proof.
  destruct demoSubmitted_reachable as [l Hx]. destruct (demo_row demoSubmitted) as (i & s & E); [by vm_compute|].
  assert (Hs : Status s = BatchImageJobStatusSubmitted ∧ is_Some (ProviderJobName s) ∧ RetryCount s = 0).
  { vm_compute in E. injection E as _ <-. split; [done|]. split; [by eexists | done]. }
  destruct Hs as (Hs & Hn & Hr).
  eexists _, i, s. split_and!; [exact Hx | exact E | exact Hs|].
  apply (accepted_hold_kept _ demoID i s Hx E Hn); [by rewrite Hs | by rewrite Hr].
Defined.

Lemma completed_job_paid_witness :
  ∃ x i s, demoReachable x ∧ jobs (crewDB x) !! demoID = Some (i, s) ∧ Status s = BatchImageJobStatusCompleted ∧
    ∃ apiKeyID, (captureKey demoID, apiKeyID) ∈ requestsOf (ledger (crewDB x)).
Proof.
  destruct demoSubmitted_reachable as [l H0], (demo_steps l) as (l1 & l2 & H1 & H2). pose proof (reachable_steps _ _ _ _ H0 H1) as Hx.
  pose proof (reachable_steps _ _ _ _ Hx H2) as Hy. destruct (demo_row demoCompleted) as (i & s & E); [by vm_compute|].
  assert (Hs : Status s = BatchImageJobStatusCompleted) by (vm_compute in E; by injection E as _ <-).
  eexists _, i, s. split_and!; [exact Hy | exact E | exact Hs|].
  exact (proj1 (completed_job_paid _ demoID i s Hy E (or_introl Hs))).
Defined.

(** The second enqueue is refused. *)
Lemma refused_job_is_queued_witness :
  ∃ x, demoReachable x ∧ fst (Enqueue (queueOptions demoBatchWorld) demoID sampleDay (queue (crewDB x))) = Err (AppErr ErrBatchImageAlreadyQueued) ∧
    present demoID (queue (crewDB x)).
Proof.
  destruct demoSubmitted_reachable as [l Hx]. exists (mkCrew sampleDay demoSubmitted l).
  assert (E : fst (Enqueue (queueOptions demoBatchWorld) demoID sampleDay (queue demoSubmitted)) = Err (AppErr ErrBatchImageAlreadyQueued)).
  { by vm_compute. }
  split; [exact Hx|]. split; [exact E|]. exact (refused_job_is_queued _ _ _ _ Hx E).
Defined.
End demo.
