(* ===== verification/BatchImageOutcome.v ===== *)
(** * Batch image jobs: what the services do

    The runs of a service that nobody disturbs, on any tables that the system
    reaches: the indexing of a finished job against a reference that reads the
    output line by line; a settlement, whatever the ledger answers, and how many
    rounds a settlement takes.  At the end, a run with a cancellation in the
    middle of a submission, which leaves the hold of the job frozen. *)

From S2P Require Import Prelude GoRuntime Domain AppErrors Transactions Agents UsageBilling BillingDB BillingAllowance BillingLedger BillingWallet BatchImageQueue BatchImage BatchImageRequest BatchImageIndex BatchImageDB BatchImageInvariant BatchImageFlow BatchImageSafety BatchImageSubmit BatchImageSystem.
#[local] Open Scope Z_scope.

(** ** The reference of the indexing *)

Section reference.
Context `{UnicodeCase} `{JSONDecoder}.
Context (batchID source : string) (now : Time) (expected : gset string).

Abbreviation indexedItem := (indexedItem batchID source now).
Abbreviation missingItem := (missingItem batchID source now).

(** The lines that are not blank, when every one of them is a result. *)
Fixpoint parsedLines (n : Z) (lines : list string) : option (list ParsedBatchImageResult) :=
  match lines with
  | [] => Some []
  | text :: lines =>
      let line := TrimSpace text in
      if eqs line "" then parsedLines (n + 1) lines
      else match ParseBatchImageResultLine line (n + 1) with
           | Ok parsed => cons parsed <$> parsedLines (n + 1) lines
           | Err _ => None
           end
  end.

Definition wanted (parsed : list ParsedBatchImageResult) : list ParsedBatchImageResult :=
  List.filter (λ p, bool_decide (parsedCustomID p ∈ expected)) parsed.

(** The results of the items that were submitted, in the order of the output,
    and a failure for each item without one, in the order of the names. *)
Definition resultItems (known : list ParsedBatchImageResult) : list BatchImageItem :=
  (indexedItem <$> known) ++
  (missingItem <$> merge_sort stringLe (elements (expected ∖ list_to_set (parsedCustomID <$> known)))).

Definition indexReference (lines : list string) (scanErr : option scanError) : option (list BatchImageItem) :=
  match scanErr, parsedLines 0 lines with
  | None, Some parsed =>
      let known := wanted parsed in
      if bool_decide (NoDup (parsedCustomID <$> known)) then Some (resultItems known) else None
  | _, _ => None
  end.

Hypothesis Hexpected : expected ≠ ∅.

Lemma ids_indexed known : ids (indexedItem <$> known) = parsedCustomID <$> known.
Proof. unfold ids. by rewrite <- list_fmap_compose. Qed.

Lemma indexLines_reference lines l :
  indexInv expected l →
  match indexLines batchID source now expected l lines, parsedLines (lineNumber l) lines with
  | Ok l', Some parsed =>
      NoDup (ids (indexed l) ++ (parsedCustomID <$> wanted parsed)) ∧ indexed l' = indexed l ++ (indexedItem <$> wanted parsed)
  | Err _, Some parsed => ¬ NoDup (ids (indexed l) ++ (parsedCustomID <$> wanted parsed))
  | Err _, None => True
  | Ok _, None => False
  end.
Proof.
  revert l. induction lines as [|text lines IH]; intros l Hi; cbn [indexLines parsedLines].
  { cbn. rewrite !app_nil_r. split; [apply Hi | done]. }
  destruct (indexLine batchID source now expected l text) as [l1|e] eqn:E.
  - specialize (IH l1 (indexInv_line _ _ _ _ _ _ _ Hi E)). revert E IH. unfold indexLine. cbv zeta. cbn [BatchImageIndex.seen unknownCount indexed loopResult].
    destruct (eqs (TrimSpace text) ""); [by intros [= <-]|]. destruct (ParseBatchImageResultLine _ _) as [p|e]; [|done].
    rewrite (bool_decide_eq_false_2 _ Hexpected). cbn [negb andb]. unfold wanted.
    destruct (bool_decide (parsedCustomID p ∈ expected)) eqn:Ep; cbn [negb].
    + destruct (BatchImageIndex.seen l !! _); [done|]. intros [= <-]. cbn [lineNumber indexed].
      destruct (parsedLines _ _) as [parsed|] eqn:Epl; cbn [fmap option_fmap option_map]; [|done]. cbn [List.filter]. rewrite Ep.
      unfold ids. rewrite !fmap_app, <- !app_assoc. cbn [app fmap list_fmap]. done.
    + intros [= <-]. cbn [lineNumber indexed]. destruct (parsedLines _ _); cbn; [|done]. by rewrite Ep.
  - revert E. unfold indexLine. cbv zeta. cbn [BatchImageIndex.seen unknownCount indexed loopResult].
    destruct (eqs (TrimSpace text) ""); [done|]. destruct (ParseBatchImageResultLine _ _) as [p|e1]; [|done].
    rewrite (bool_decide_eq_false_2 _ Hexpected). cbn [negb andb]. unfold wanted.
    destruct (bool_decide (parsedCustomID p ∈ expected)) eqn:Ep; cbn [negb]; [|done].
    destruct (BatchImageIndex.seen l !! _) as [first|] eqn:El; [|done]. intros _. destruct (parsedLines _ _); cbn [fmap option_fmap option_map]; [|done].
    cbn [List.filter]. rewrite Ep. cbn. intros [_ [Hn _]]%NoDup_app. apply (Hn (parsedCustomID p)); [|by left].
    apply (inv_seen _ _ Hi). by eexists.
Qed.

(** The reconciliation is the reference. *)
Lemma reconcile_reference lines scanErr :
  match reconcile batchID source now expected lines scanErr with
  | Ok l => indexReference lines scanErr = Some (indexed l) ∧ counted (indexed l) (loopResult l) ∧
            (∀ id, id ∈ ids (indexed l) ↔ id ∈ expected) ∧ NoDup (ids (indexed l))
  | Err _ => indexReference lines scanErr = None
  end.
Proof.
  destruct (reconcile _ _ _ _ _ _) as [l|e] eqn:E.
  - destruct (reconcile_spec _ _ _ _ _ _ _ E) as (Hn & Hc & _ & _ & He). specialize (He Hexpected). revert E.
    unfold reconcile, indexReference. pose proof (indexLines_reference lines startIndex (indexInv_start _)) as Hr. cbn [lineNumber startIndex indexed] in Hr.
    destruct (indexLines _ _ _ _ _ _) as [l0|e0] eqn:E0; [|done]. destruct scanErr; [done|]. cbv zeta.
    destruct (_ =? 0); [done|]. intros [= <-]. destruct (parsedLines 0 lines) as [parsed|]; [|done].
    destruct Hr as [Hnd Hl0]. rewrite bool_decide_eq_true_2 by exact Hnd. split; [|done]. f_equal.
    rewrite addMissing_items, Hl0. cbn [app]. unfold resultItems. f_equal. unfold missingIDs. do 3 f_equal.
    apply set_eq. intros id. rewrite elem_of_filter, elem_of_difference, elem_of_list_to_set, <- ids_indexed.
    change (indexedItem <$> wanted parsed) with ([] ++ (indexedItem <$> wanted parsed)). rewrite <- Hl0.
    rewrite (inv_seen _ _ (indexInv_lines _ _ _ _ _ _ _ (indexInv_start _) E0)), <- eq_None_not_Some. tauto.
  - revert E. unfold reconcile, indexReference. pose proof (indexLines_reference lines startIndex (indexInv_start _)) as Hr.
    cbn [lineNumber startIndex indexed] in Hr. destruct (indexLines _ _ _ _ _ _) as [l0|e0] eqn:E0.
    + destruct scanErr; [done|]. cbv zeta. destruct (_ =? 0) eqn:Et; [|done]. intros _. exfalso. apply Z.eqb_eq in Et.
      destruct (set_choose_L _ Hexpected) as [id Hid].
      assert (Hin : id ∈ ids (indexed (addMissing batchID source now expected l0))).
      { rewrite addMissing_items. unfold ids. rewrite fmap_app, elem_of_app, <- list_fmap_compose.
        assert (Hm : CustomID ∘ missingItem <$> missingIDs expected l0 = missingIDs expected l0) by apply list_fmap_id. rewrite Hm, elem_of_missing.
        destruct (BatchImageIndex.seen l0 !! id) eqn:Es; [left | by right]. apply (inv_seen _ _ (indexInv_lines _ _ _ _ _ _ _ (indexInv_start _) E0)). by eexists. }
      destruct (addMissing_counted batchID source now expected l0) as (_ & _ & Htot); [apply (indexInv_lines _ _ _ _ _ _ _ (indexInv_start _) E0)|].
      rewrite Et in Htot. revert Htot Hin. by destruct (indexed (addMissing _ _ _ _ _)); [intros _ ?%not_elem_of_nil|].
    + intros _. destruct scanErr; [done|]. destruct (parsedLines 0 lines); [|done]. by rewrite bool_decide_eq_false_2.
Qed.
End reference.

(** ** Undisturbed runs *)

Lemma run_andThen {A B} t (m : M A) (f : A → M B) d :
  exec t (andThen m f) d = match exec t m d with (Ok a, d') => exec t (f a) d' | (Err e, d') => (Err e, d') end.
Proof. unfold andThen. rewrite exec_bindProg. by destruct (exec t m d) as [[a|e] d']. Qed.

Section outcome.
Context {Account : Type} `{UC : UnicodeCase} `{JD : JSONDecoder} `{BT : BillingText} `{SN : SQLNumeric} `{CAL : Calendar}
  `{SC : SQLCalendar} `{GW : GoWeek} `{RJ : RequestJSON} `{LAWS : !SQLNumericLaws}.

Abbreviation batchReachable := (batchReachable (Account := Account)).

(** *** Indexing *)

Lemma exec_page t b offset d :
  0 <= offset →
  exec t (ListBatchImageItems b (mkItemFilter "" pageSize offset)) d = (Ok (take 500 (drop (Z.to_nat offset) (itemsOf d b))), d).
Proof.
  intros Ho. unfold ListBatchImageItems, query, reading. cbn [exec filterOffset filterLimit filterStatus].
  change (clampLimit pageSize 500 100) with 500%nat. rewrite Z.max_l by done.
  assert (Hall : ∀ l : list BatchImageItem, List.filter (λ i, eqs "" "" || eqs (itemStatus i) "") l = l).
  { intros l. induction l as [|z l IHl]; [done|]. cbn in *. by rewrite IHl. }
  by rewrite Hall.
Qed.

Lemma exec_pages t b d pages offset expected :
  0 <= offset <= Z.of_nat (length (itemsOf d b)) → Z.of_nat (length (itemsOf d b)) < offset + pageSize * Z.of_nat pages →
  exec t (listExpectedCustomIDs b pages offset expected) d =
    (Ok (list_to_set (ids (drop (Z.to_nat offset) (itemsOf d b))) ∪ expected), d).
Proof.
  revert offset expected. induction pages as [|pages IH]; intros offset expected Ho Hlen; [lia|]. cbn [listExpectedCustomIDs].
  rewrite run_andThen, exec_page by lia. cbv zeta. set (rows := itemsOf d b) in *. rewrite length_take, length_drop.
  assert (Hsplit : ∀ n, ids (drop n rows) = ids (take 500 (drop n rows)) ++ ids (drop 500 (drop n rows))).
  { intros n. unfold ids. by rewrite <- fmap_app, take_drop. }
  unfold pageSize in *. destruct (_ <? 500) eqn:E; zbool.
  - rewrite (take_ge (drop _ _)); [done|]. rewrite length_drop. lia.
  - rewrite IH by lia. f_equal. f_equal. rewrite (Hsplit (Z.to_nat offset)), drop_drop.
    replace (Z.to_nat offset + 500)%nat with (Z.to_nat (offset + Z.of_nat (500 `min` (length rows - Z.to_nat offset)))) by lia.
    rewrite list_to_set_app_L. set_solver.
Qed.

(** The pages do not run out, whatever the others do meanwhile. *)
Lemma pages_suffice pages F b i offset expected :
  stable F → (∀ d, batchInv d → F d → exists_ i b d) → 0 <= offset <= ItemCount i → ItemCount i < offset + pageSize * Z.of_nat pages →
  yields (listExpectedCustomIDs b pages offset expected) F (λ r _, r ≠ Err outOfPages).
Proof.
  intros HF He. revert offset expected. induction pages as [|pages IH]; intros offset expected Ho Hlen; [lia|]. cbn [listExpectedCustomIDs].
  unfold andThen, ListBatchImageItems, query. cbn [bindProg]. unfold pageSize in *.
  apply (safe_query _ _ F (λ page _, 500 <= Z.of_nat (length page) → offset + Z.of_nat (length page) <= ItemCount i)).
  - done.
  - intros page. apply stable_const.
  - apply sound_batchReading.
  - intros _ d page HI Hf [= <-]. destruct (He d HI Hf) as (i' & s & E & ->). pose proof (rows_bound _ _ _ _ HI E) as Hb.
    rewrite length_take, length_drop. cbn [filterStatus filterLimit filterOffset].
    pose proof (filter_length_le (λ _ : CreateBatchImageItemParams, true) (itemsOf d b)).
    change (clampLimit 500 500 100) with 500%nat. lia.
  - intros page. cbn [ok bindProg]. cbv zeta. destruct (Z.ltb_spec (Z.of_nat (length page)) 500) as [Hp|Hp].
    + by intros d _ [Hf _].
    + apply (safe_pure batchInv _ _ (500 <= Z.of_nat (length page) → offset + Z.of_nat (length page) <= ItemCount i)). intros Hq. apply IH; lia.
  - intros e d _ Hf. split; [done|]. by destruct e.
Qed.

Lemma insertItems_all b new d :
  is_Some (jobs d !! b) → Forall (λ item, JobID item = b) new → NoDup (ids (itemsOf d b ++ new)) → new ≠ [] →
  insertItems new d = Ok (setItems (<[b := itemsOf d b ++ new]> (items d)) d).
Proof.
  intros Hj Hb. revert d Hj. induction Hb as [|item new Hi Hb IH]; intros d Hj Hn Hne; [done|]. cbn [insertItems]. rewrite Hi.
  rewrite bool_decide_eq_true_2 by done. cbn [negb]. rewrite bool_decide_eq_false_2.
  2:{ unfold ids in Hn. rewrite fmap_app in Hn. apply NoDup_app in Hn as (_ & Hd & _). intros Hin. apply (Hd _ Hin). by left. }
  set (d1 := setItems _ d). assert (Hrows : itemsOf d1 b = itemsOf d b ++ [item]).
  { unfold itemsOf at 1. cbn [items d1 setItems etaDB]. by rewrite lookup_insert_eq. }
  destruct new as [|x new]; [done|]. rewrite IH; [|done| |done].
  - f_equal. rewrite Hrows. cbn [d1 setItems etaDB items]. unfold setItems. cbn [etaDB items]. rewrite insert_insert_eq, <- app_assoc. done.
  - by rewrite Hrows, <- app_assoc.
Qed.

Definition outputSource (s : BatchImageJobState) : string :=
  let source := batchImageDerefString (ProviderOutputRef s) in
  if eqs source "" then batchImageDerefString (ProviderJobName s) else source.

Definition indexedState (new : list BatchImageItem) (t : Time) (s : BatchImageJobState) : BatchImageJobState :=
  SetUpdatedAt t (SetFailCount (failures new) (SetSuccessCount (successes new) s)).

Lemma exec_replace t b i s new counts d :
  jobs d !! b = Some (i, s) → Status s = BatchImageJobStatusIndexing → NoDup (ids new) → new ≠ [] →
  countSuccess counts = successes new → countFail counts = failures new →
  exec t (ReplaceBatchImageItemsForJob b new counts) d =
    (Ok tt, putJob b i (indexedState new t s) (setItems (<[b := withPreview b (itemsOf d b) <$> new]> (items d)) d)).
Proof.
  intros E Hs Hn Hne Hc1 Hc2. unfold ReplaceBatchImageItemsForJob, transact. cbn [exec]. rewrite E, Hs, eqs_refl. cbn [negb]. cbv zeta.
  set (d0 := setItems (delete b (items d)) d). set (new' := withPreview b (itemsOf d b) <$> new).
  assert (Hrows : itemsOf d0 b = []). { unfold itemsOf. cbn [items d0 setItems etaDB]. by rewrite lookup_delete_eq. }
  assert (Hids : ids new' = ids new) by (unfold ids, new'; rewrite <- list_fmap_compose; by apply list_fmap_ext).
  rewrite (insertItems_all b new' d0); cycle 1.
  { cbn. rewrite E. by eexists. }
  { apply Forall_fmap, Forall_forall. by intros x _. }
  { by rewrite Hrows, app_nil_l, Hids. }
  { unfold new'. by destruct new. }
  rewrite Hrows, app_nil_l. cbn [exec]. f_equal. unfold indexedState. rewrite <- Hc1, <- Hc2. unfold d0, putJob, setItems, setJobs.
  cbn [etaDB items jobs nextJobID batchEvents ledger queue usageLogs requested]. by rewrite insert_delete_eq.
Qed.

(** C14: equivalence.  Indexing a finished job is the reference: when every line
    that is not blank is a result, and no item has two, the rows of the job
    become the results of the items that were submitted, each exactly once, in
    the order of the output, with a failure for every item the output does not
    mention; results of anything else are dropped, and the counts are those of
    the rows.  Every other output is an error that changes nothing. *)
Theorem index_rebuilds_items x t b i s h (p : BatchImageProvider Account) (account : Account) :
  batchReachable x → jobs (crewDB x) !! b = Some (i, s) → Status s = BatchImageJobStatusIndexing →
  let d := crewDB x in let rows := itemsOf d b in let job := mkJob i s h in
  let outcome := exec t (Index job p account) d in
  match OpenResult p job account with
  | Err e => outcome = (Err (AppErr (WithCause ErrBatchImageIndexOutputMissing (Some e))), d)
  | Ok (lines, scanErr) =>
      match indexReference b (outputSource s) t (list_to_set (ids rows)) lines scanErr with
      | None => ∃ e, outcome = (Err e, d)
      | Some new =>
          ids new ≡ₚ ids rows ∧
          ∃ events, outcome =
            (Ok (mkIndexResult (successes new) (failures new) (Z.of_nat (length rows))),
             setEvents events (putJob b i (indexedState new t s) (setItems (<[b := withPreview b rows <$> new]> (items d)) d)))
      end
  end.
Proof.
  intros Hx%batchReachable_inv E Hs. cbv zeta. set (d := crewDB x) in *. set (rows := itemsOf d b).
  destruct (accepted_rows d b i s Hx E) as (_ & Hnd & Hlen & Hex); [by rewrite Hs|]. fold rows in Hnd, Hlen, Hex.
  assert (Hb : jobID (mkJob i s h) = b) by apply (proj1 (inv_id _ Hx b i s E)).
  unfold Index. rewrite run_andThen, Hb, exec_pages; fold rows; [|split; [done | lia] |].
  2:{ unfold pagesOf, pageSize. cbn [info]. pose proof (Z.div_mod (ItemCount i) 500 ltac:(done)).
      pose proof (Z.mod_pos_bound (ItemCount i) 500 ltac:(done)). pose proof (Z.div_pos (ItemCount i) 500 ltac:(lia) ltac:(done)). lia. }
  change (drop (Z.to_nat 0) rows) with rows. rewrite (right_id_L ∅ (∪)). destruct (OpenResult p _ account) as [[lines scanErr]|e]; [|done].
  cbn [exec state]. fold (outputSource s). pose proof (reconcile_reference b (outputSource s) t _ Hex lines scanErr) as Hr.
  destruct (reconcile _ _ _ _ _ _) as [l|e]; [|rewrite Hr; by eexists]. destruct Hr as (-> & (Hc1 & Hc2 & Hc3) & Hids & Hn).
  set (new := indexed l) in *. assert (Hperm : ids new ≡ₚ ids rows).
  { apply NoDup_Permutation; [done..|]. intros id. by rewrite Hids, elem_of_list_to_set. }
  assert (Hlen' : length new = length rows) by (apply Permutation_length in Hperm; unfold ids in Hperm; by rewrite !length_fmap in Hperm).
  assert (Hne : new ≠ []).
  { intros Hnil. rewrite Hnil in Hperm. apply Permutation_nil_l in Hperm. rewrite <- Hperm in Hex. done. }
  split; [done|]. set (result := mkIndexResult _ _ _).
  assert (Hres : loopResult l = result) by (unfold result; rewrite <- Hlen', <- Hc1, <- Hc2, <- Hc3; by destruct (loopResult l)).
  assert (Hrun : ∀ d1, jobs d1 = jobs d → items d1 = items d →
            exec t (do* ReplaceBatchImageItemsForJob b new (mkCounts (resSuccessCount (loopResult l)) (resFailCount (loopResult l))) in ok (loopResult l)) d1 =
            (Ok result, putJob b i (indexedState new t s) (setItems (<[b := withPreview b rows <$> new]> (items d)) d1))).
  { intros d1 Ej Ei. rewrite run_andThen, (exec_replace t b i s); [|by rewrite Ej|done..]. unfold itemsOf. by rewrite Ei, Hres. }
  destruct (_ || _).
  - rewrite exec_bindProg. unfold AppendBatchImageEvent, query. cbn [exec]. unfold eventInsert. rewrite E, bool_decide_eq_true_2 by by eexists.
    cbn [exec ok]. rewrite Hrun by done. by eexists.
  - rewrite Hrun by done. by exists (batchEvents d).
Qed.

(** *** Calls of a settlement *)

Context (w : batchWorld Account).

Lemma run_getJob t b d job : jobRow d b = Some job → exec t (GetBatchImageJobByBatchID b) d = (Ok job, d).
Proof. intros E. unfold GetBatchImageJobByBatchID, queryFound, reading. cbn [exec]. by rewrite E. Qed.

Lemma jobRow_inv d b job : jobRow d b = Some job → jobs d !! b = Some (info job, state job).
Proof. unfold jobRow. destruct (jobs d !! b) as [[i s]|]; [|done]. destruct (entities _ !! _); [|done]. by intros [= <-]. Qed.

(** A call of the ledger changes nothing else, and nothing when it fails. *)
Lemma exec_holdCall t op c d d0 :
  ledger d0 = ledger d →
  exec t (holdCall (retries w) op c) d0 =
    (fst (exec t (holdCall (retries w) op c) d), setLedger (ledger (snd (exec t (holdCall (retries w) op c) d))) d0).
Proof. intros E. unfold holdCall, transact. cbn [exec]. rewrite E. by destruct (applyBatchImageBalanceHold _ _ _ _ _ _) as [[[r ?]|e] l]. Qed.

Lemma setLedger_same d : setLedger (ledger d) d = d.
Proof. by destruct d. Qed.

Lemma exec_holdCall_fails t op c d e d' : exec t (holdCall (retries w) op c) d = (Err e, d') → d' = d.
Proof.
  unfold holdCall, transact. cbn [exec]. destruct (applyBatchImageBalanceHold _ _ _ _ _ _) as [[[r ?]|e1] l] eqn:E; cbn [exec]; [done|].
  intros [= _ <-]. revert E. unfold applyBatchImageBalanceHold. cbv zeta. destruct (eqs _ _); [intros [= _ <-]; apply setLedger_same|].
  destruct (retry_outcome (retries w) (applyBatchImageBalanceHoldOnce t t op (Normalize c)) (ledger d)) as [->|[e2 ->]];
    [|intros [= _ <-]; apply setLedger_same].
  unfold applyBatchImageBalanceHoldOnce. destruct (claimUsageBillingRequest _ _ _ _) as [[[|] l1]|e2]; [|done|intros [= _ <-]; apply setLedger_same].
  destruct (txBind _ _ l1) as [[a l2]|e2]; [by destruct a | intros [= _ <-]; apply setLedger_same].
Qed.

Lemma exec_releaseBalance t job hash d d0 :
  ledger d0 = ledger d → let m := releaseBatchImageBalanceHold w job hash in
  exec t m d0 = (fst (exec t m d), setLedger (ledger (snd (exec t m d))) d0).
Proof.
  intros E. cbv zeta. assert (Hsame : d0 = setLedger (ledger d) d0) by (by rewrite <- E, setLedger_same).
  unfold releaseBatchImageBalanceHold. destruct (buildBatchImageHoldCommand _ _ _ _) as [c|e]; [|cbn; by rewrite <- Hsame].
  destruct (f64_le _ _); [cbn; by rewrite <- Hsame|]. rewrite !exec_bindProg, (exec_holdCall _ _ _ d d0 E).
  destruct (exec t (holdCall _ _ _) d) as [[r|e] d1]; cbn [fst snd exec ok]; [done|]. by destruct (isRequestConflict e).
Qed.

Lemma exec_release t job d d0 :
  ledger d0 = ledger d →
  exec t (releaseHold w job) d0 = (fst (exec t (releaseHold w job) d), setLedger (ledger (snd (exec t (releaseHold w job) d))) d0).
Proof. apply exec_releaseBalance. Qed.

Lemma exec_release_fails t job hash d e d' : exec t (releaseBatchImageBalanceHold w job hash) d = (Err e, d') → d' = d.
Proof.
  unfold releaseBatchImageBalanceHold. destruct (buildBatchImageHoldCommand _ _ _ _) as [c|e1]; [|by intros [= _ <-]].
  destruct (f64_le _ _); [done|]. rewrite exec_bindProg. destruct (exec t (holdCall _ _ _) d) as [[r|e1] d1] eqn:E1; cbn [exec ok]; [done|].
  destruct (isRequestConflict e1); [done|]. intros [= _ <-]. by eapply exec_holdCall_fails.
Qed.

(** A release that was applied before does nothing, whatever it names. *)
Lemma hold_known t op c d :
  requestKey (CallHold op c) ∈ requestsOf (ledger d) → snd (exec t (holdCall (retries w) op c) d) = d.
Proof.
  intros Hk. unfold holdCall, transact. cbn [exec]. set (cw := mkCallWorld t t (retries w)).
  destruct (applyBatchImageBalanceHold t t (retries w) op c (ledger d)) as [r l] eqn:E.
  assert (Er : runCall cw (CallHold op c) (ledger d) = (match r with Ok (r, _) => Ok (HoldReply r) | Err e => Err e end, l)).
  { cbn [runCall cw dbClock BillingWallet.clock BillingWallet.retries]. rewrite E. by destruct r as [[]|]. }
  assert (l = ledger d) as ->.
  { apply (unapplied_same _ _ _ _ _ Er). intros r1 E1. rewrite E1 in Er. apply ledger_call_step in Er. by eapply bankStep_known. }
  destruct r as [[]|]; apply setLedger_same.
Qed.

Lemma release_repeated t job d k :
  clean (jobID job) → positiveID (APIKeyID (info job)) = Some k → (releaseKey (jobID job), k) ∈ requestsOf (ledger d) →
  snd (exec t (releaseHold w job) d) = d.
Proof.
  intros Hc Hk Hr. unfold releaseHold, releaseBatchImageBalanceHold.
  destruct (buildBatchImageHoldCommand _ _ _ _) as [c|e] eqn:Ec; [|done]. destruct (f64_le _ _); [done|].
  assert (Hkey : requestKey (CallHold batchImageAllowanceRelease c) = (releaseKey (jobID job), k)).
  { pose proof (command_key _ _ _ _ _ _ Ec (release_key _ Hc)) as Et. revert Ec. unfold buildBatchImageHoldCommand. rewrite Hk. intros [= <-].
    cbn [requestKey cAPIKeyID holdCommandOf]. by rewrite Et. }
  rewrite <- Hkey in Hr. pose proof (hold_known t _ _ _ Hr) as H. rewrite exec_bindProg.
  destruct (exec t (holdCall _ _ _) d) as [[x|e] d']; cbn in H |- *; subst; [done|]. by destruct (isRequestConflict e).
Qed.

Lemma exec_capture_fails t job amount hash d e d' :
  exec t (captureBatchImageBalanceHold w job amount hash) d = (Err e, d') → d' = d.
Proof.
  unfold captureBatchImageBalanceHold. destruct (buildBatchImageHoldCommand _ _ _ _) as [c|e1]; [|by intros [= _ <-]].
  rewrite exec_bindProg. destruct (exec t (holdCall _ _ _) d) as [[r|e1] d1] eqn:E1; cbn [exec ok fails]; [done|].
  intros [= _ <-]. by eapply exec_holdCall_fails.
Qed.

Lemma exec_capture_ok t job amount hash d r d' :
  exec t (captureBatchImageBalanceHold w job amount hash) d = (Ok r, d') → d' = setLedger (ledger d') d.
Proof.
  unfold captureBatchImageBalanceHold. destruct (buildBatchImageHoldCommand _ _ _ _) as [c|e1]; [|done].
  rewrite exec_bindProg, (exec_holdCall _ _ _ d d) by done.
  set (q := exec t (holdCall _ _ _) d). generalize (fst q) (ledger (snd q)). clear q. intros [x|e] l; cbn [exec ok fails]; by intros [= _ <-].
Qed.

Lemma exec_recordFailed t b code msg d i s :
  jobs d !! b = Some (i, s) →
  exec t (SetBatchImageJobSettlementFailed b code msg) d =
    (Ok (RetryCount s + 1), setEvents ((b, "settlement_failed"%string) :: batchEvents d) (putJob b i (recordFailure code msg t s) d)).
Proof.
  intros E. unfold SetBatchImageJobSettlementFailed. rewrite run_andThen. unfold transact. cbn [exec]. rewrite E. cbn [exec].
  rewrite run_andThen. unfold AppendBatchImageEvent, query. cbn [exec]. unfold eventInsert.
  rewrite bool_decide_eq_true_2; [done|]. cbn [putJob setJobs etaDB jobs]. rewrite lookup_insert_eq. by eexists.
Qed.

Lemma exec_transition t b to_ opts d i s :
  jobs d !! b = Some (i, s) → CanTransitionBatchImageJob (Status s) to_ = true → eqs (EventType opts) "" = false →
  exec t (TransitionBatchImageJobStatus b to_ opts) d =
    (Ok tt, setEvents ((b, EventType opts) :: batchEvents d) (putJob b i (transitionState to_ opts (default t (Now opts)) s) d)).
Proof.
  intros E Hc He. unfold TransitionBatchImageJobStatus, transact. cbn [exec]. by rewrite E, Hc, He.
Qed.

(** *** Settlement *)

(** What the ledger is asked for, and what the price alone makes of it; [None]
    when the price is unknown or exceeds the hold. *)
Definition billable (job : BatchImageJob) : option (float64 * float64) :=
  match checkedUnitPrice w job with
  | Err _ => None
  | Ok unitPrice =>
      let base := 2 <=? PricingSnapshotVersion (info job) in
      let n := f64_of_Z (SuccessCount (state job)) in
      let cost := f64_mul n unitPrice in
      if negb base && f64_gt (f64_sub cost (holdAmountOf (hold job))) batchImageCostEpsilon then None
      else Some (if base then f64_mul n (BaseUnitPrice (info job)) else cost, cost)
  end.

Definition paidAmount (job : BatchImageJob) (cost : float64) (r : BatchImageBalanceHoldResult) : float64 :=
  if 2 <=? PricingSnapshotVersion (info job) then ActualAmountUSD r else cost.

(** Only the row of the job, the ledger, events and usage logs change. *)
Definition rowBecomes (job : BatchImageJob) (s' : BatchImageJobState) (l : billingDB) (d d' : batchDB) : Prop :=
  jobs d' = <[jobID job := (info job, s')]> (jobs d) ∧ ledger d' = l ∧
  items d' = items d ∧ queue d' = queue d ∧ requested d' = requested d ∧ nextJobID d' = nextJobID d.

(** A settlement cannot pay: it has failed too often, there is no price, or the
    ledger refuses the capture. *)
Definition cannotPay (job : BatchImageJob) (t : Time) (d : batchDB) : Prop :=
  let hash := BuildBatchImageSettlementManifestHash job in
  isBatchImageSettlementRetryExhausted job = true ∨ billable job = None ∨
  ∃ input cost e, billable job = Some (input, cost) ∧ exec t (captureBatchImageBalanceHold w job input hash) d = (Err e, d).

Inductive settles (job : BatchImageJob) (t : Time) (d : batchDB) : result goError BatchImageSettlementResult → batchDB → Prop :=
  | settles_paid input cost r d1 stored d' :
      let hash := BuildBatchImageSettlementManifestHash job in
      let requestID := BatchImageCaptureRequestID (jobID job) in
      billable job = Some (input, cost) → exec t (captureBatchImageBalanceHold w job input hash) d = (Ok r, d1) →
      stored10 (paidAmount job cost r) = Some stored →
      rowBecomes job (settledState (mkSettledParams (jobID job) (paidAmount job cost r) hash (Some t) (Some (Add t (outputRetention w)))) stored t (state job))
        (ledger d1) d d' →
      (∃ apiKeyID, positiveID (APIKeyID (info job)) = Some apiKeyID ∧ is_Some (usageLogs d' !! (TrimSpace requestID, apiKeyID))) →
      settles job t d
        (Ok (mkSettlement (jobID job) (SuccessCount (state job)) (FailCount (state job)) (paidAmount job cost r) hash requestID
               (SubscriptionAmountUSD r) (BalanceAmountUSD r) (BillingAllocations r) false)) d'
  | settles_unrecorded input cost r d1 e :
      billable job = Some (input, cost) →
      exec t (captureBatchImageBalanceHold w job input (BuildBatchImageSettlementManifestHash job)) d = (Ok r, d1) →
      stored10 (paidAmount job cost r) = None → settles job t d (Err e) d1
  | settles_retry code msg e d' :
      cannotPay job t d → RetryCount (state job) + 1 < batchImageSettlementMaxRetries → HasPrefix code "SETTLEMENT_" = true →
      rowBecomes job (recordFailure code msg t (state job)) (ledger d) d d' → settles job t d (Err e) d'
  | settles_failed msg s1 d1 e d' :
      cannotPay job t d → batchImageSettlementMaxRetries <= RetryCount (state job) + 1 →
      exec t (releaseHold w job) d = (Ok tt, d1) → Status s1 = BatchImageJobStatusSettling →
      rowBecomes job (transitionState BatchImageJobStatusFailed
        (mkTransitionOptions "settlement_retry_exhausted" (Some "SETTLEMENT_BILLING_RETRY_EXHAUSTED"%string) (Some msg) None) t s1) (ledger d1) d d' →
      settles job t d (Err e) d'
  | settles_refused msg s1 e e' d' :
      cannotPay job t d → batchImageSettlementMaxRetries <= RetryCount (state job) + 1 →
      exec t (releaseHold w job) d = (Err e', d) → Status s1 = BatchImageJobStatusSettling → RetryCount (state job) <= RetryCount s1 →
      rowBecomes job (recordFailure "SETTLEMENT_RELEASE_FAILED" msg t s1) (ledger d) d d' → settles job t d (Err e) d'.

(** The exit of a settlement that failed too often. *)
Lemma exec_failExhausted t job message d d0 s1 :
  cannotPay job t d → batchImageSettlementMaxRetries <= RetryCount (state job) + 1 → RetryCount (state job) <= RetryCount s1 →
  Status s1 = BatchImageJobStatusSettling → rowBecomes job s1 (ledger d) d d0 →
  settles job t d (Err (fst (exec t (failExhaustedSettlement w job message) d0))) (snd (exec t (failExhaustedSettlement w job message) d0)).
Proof.
  intros Hc Hn Hr Hs (Ej & El & Ei & Eq & Er & En).
  assert (E0 : jobs d0 !! jobID job = Some (info job, s1)) by (by rewrite Ej, lookup_insert_eq).
  unfold failExhaustedSettlement. rewrite exec_bindProg, (exec_release t job d d0 El).
  destruct (exec t (releaseHold w job) d) as [[[]|e] d1] eqn:E1; cbn [fst snd].
  - cbv zeta. rewrite exec_bindProg, (exec_transition t _ _ _ _ (info job) s1); [|done|by rewrite Hs|done]. cbn [exec fst snd Now default].
    eapply (settles_failed _ _ _ _ s1 d1); [done..|]. repeat split; cbn; [|done..].
    by rewrite Ej, insert_insert_eq.
  - pose proof (exec_release_fails _ _ _ _ _ _ E1) as ->. rewrite exec_bindProg, (exec_recordFailed t _ _ _ _ (info job) s1) by done.
    cbn [exec fst snd]. eapply (settles_refused _ _ _ _ s1); [done..|]. repeat split; cbn; [|done..].
    by rewrite Ej, insert_insert_eq.
Qed.

Lemma exec_failSettlement t job code message e d :
  jobs d !! jobID job = Some (info job, state job) → Status (state job) = BatchImageJobStatusSettling → HasPrefix code "SETTLEMENT_" = true →
  cannotPay job t d →
  let m : M BatchImageSettlementResult := failSettlement w job code message e in
  settles job t d (fst (exec t m d)) (snd (exec t m d)).
Proof.
  cbv zeta. intros E Hs Hp Hc. unfold failSettlement, recordSettlementFailure. rewrite !exec_bindProg, (exec_recordFailed t _ _ _ _ _ _ E).
  set (d0 := setEvents _ _). assert (H0 : rowBecomes job (recordFailure code (truncated message) t (state job)) (ledger d) d d0) by done.
  destruct (Z.leb_spec batchImageSettlementMaxRetries (RetryCount (state job) + 1)) as [Hn|Hn].
  - rewrite exec_bindProg. pose proof (exec_failExhausted t job message d d0 (recordFailure code (truncated message) t (state job)) Hc Hn ltac:(cbn; lia) Hs H0) as Hx.
    by destruct (exec t (failExhaustedSettlement w job message) d0).
  - cbn [exec fails fst snd]. by eapply settles_retry.
Qed.

Lemma run_settleCapture t job apiKeyID accountID input cost d :
  let hash := BuildBatchImageSettlementManifestHash job in
  jobs d !! jobID job = Some (info job, state job) → Status (state job) = BatchImageJobStatusSettling →
  positiveID (APIKeyID (info job)) = Some apiKeyID → ManifestHash (state job) = None → billable job = Some (input, cost) →
  let m := settleCapture w job apiKeyID accountID hash input cost in
  settles job t d (fst (exec t m d)) (snd (exec t m d)).
Proof.
  cbv zeta. intros E Hs Hk Hm Hb. set (hash := BuildBatchImageSettlementManifestHash job) in *. unfold settleCapture. rewrite exec_bindProg.
  destruct (exec t (captureBatchImageBalanceHold w job input hash) d) as [[r|e] d1] eqn:Ec.
  2:{ pose proof (exec_capture_fails _ _ _ _ _ _ _ Ec) as ->. apply exec_failSettlement; [done..|]. right; right. by eexists _, _, _. }
  pose proof (exec_capture_ok _ _ _ _ _ _ _ Ec) as Ed. cbn [exec]. cbv zeta. fold (paidAmount job cost r). rewrite run_andThen.
  unfold MarkBatchImageJobSettled, transact. cbn [exec msActualCost msBatchID msNow].
  destruct (stored10 (paidAmount job cost r)) as [stored|] eqn:Es; cbn [exec]; [|by eapply settles_unrecorded].
  assert (Ej : jobs d1 = jobs d) by (by rewrite Ed). rewrite Ej, E, Hs, eqs_refl. cbn [andb default msManifestHash].
  assert (Hfit : manifestFits hash (state job) = true).
  { unfold manifestFits. by rewrite Hm. }
  rewrite Hfit. cbn [exec]. rewrite exec_bindProg. unfold writeUsageLogBestEffort. cbn [exec ok fails]. unfold createUsageLog. cbv zeta.
  set (log := settlementUsageLog _ _ _ _ _ _ _). set (d2 := setEvents _ _).
  assert (Hd2 : ∀ v, rowBecomes job (settledState (mkSettledParams (jobID job) (paidAmount job cost r) hash (Some t) (Some (Add t (outputRetention w)))) stored t (state job))
                       (ledger d1) d (setUsageLogs v d2)).
  { intros v. unfold d2. repeat split; cbn; [by rewrite Ej | by rewrite Ed..]. }
  destruct (usageLogs d2 !! (logRequestID log, logAPIKeyID log)) as [old|] eqn:Eu; cbn [exec fst snd].
  - eapply settles_paid; [done..| |].
    + replace d2 with (setUsageLogs (usageLogs d2) d2) by by destruct d2. apply Hd2.
    + exists apiKeyID. split; [done|]. exists old. exact Eu.
  - eapply settles_paid; [done..|apply Hd2|]. exists apiKeyID. split; [done|]. exists log. apply lookup_insert_eq.
Qed.

(** A negative base price is answered at once. *)
Definition pricePositive (job : BatchImageJob) : bool :=
  negb ((2 <=? PricingSnapshotVersion (info job)) && f64_lt (BaseUnitPrice (info job)) f64_zero).

Lemma settle_settles t b job d :
  jobRow d b = Some job → jobID job = b → Status (state job) = BatchImageJobStatusSettling →
  is_Some (positiveID (APIKeyID (info job))) → is_Some (positiveID (AccountID (info job))) → pricePositive job = true →
  ManifestHash (state job) = None → countsInvalid job = false →
  settles job t d (fst (exec t (Settle w b) d)) (snd (exec t (Settle w b) d)).
Proof.
  intros E Hb Hs [k Hk] [a Ha] Hp Hm Hcv. pose proof (jobRow_inv _ _ _ E) as Ej. rewrite <- Hb in Ej. unfold Settle. rewrite run_andThen, (run_getJob _ _ _ _ E).
  cbv zeta. unfold jobStatus. rewrite Hs. cbn [eqs]. change (eqs BatchImageJobStatusSettling BatchImageJobStatusCompleted) with false.
  rewrite eqs_refl, Hk, Ha. cbn [negb]. destruct (isBatchImageSettlementRetryExhausted job) eqn:Ex.
  { rewrite exec_bindProg. assert (Hc : cannotPay job t d) by by left.
    pose proof (exec_failExhausted t job ("settlement retry limit reached: " +:+ batchImageDerefString (LastErrorCode (state job))) d d (state job) Hc) as Hx.
    apply andb_true_iff in Ex as [[_ Hr%Z.leb_le]%andb_true_iff _]. specialize (Hx ltac:(lia) ltac:(done) Hs).
    assert (H0 : rowBecomes job (state job) (ledger d) d d) by (repeat split; by rewrite insert_id). specialize (Hx H0).
    by destruct (exec t (failExhaustedSettlement w job _) d). }
  unfold manifestConflict. rewrite Hcv, Hm. cbn [batchImageDerefString]. rewrite eqs_refl. cbn [negb andb].
  unfold settlePriced. destruct (checkedUnitPrice w job) as [price|e] eqn:Eu; cycle 1.
  { apply exec_failSettlement; [done..|]. right; left. unfold billable. by rewrite Eu. }
  cbv zeta. unfold pricePositive in Hp. apply negb_true_iff in Hp. rewrite Hp. destruct (negb _ && _) eqn:Eo.
  { apply exec_failSettlement; [done..|]. right; left. unfold billable. rewrite Eu. cbv zeta. by rewrite Eo. }
  apply run_settleCapture; [done..|]. unfold billable. rewrite Eu. cbv zeta. by rewrite Eo.
Qed.

(** A job that is settled has the counts of its items. *)
Lemma settling_countsInv d b job :
  batchInv d → jobRow d b = Some job → Status (state job) = BatchImageJobStatusSettling → countsInvalid job = false.
Proof.
  intros HI E%jobRow_inv Hs. destruct (indexed_total d b _ _ HI E) as (_ & _ & H); [by rewrite Hs|]. destruct job. apply H.
Qed.

(** C12: functional.  What an undisturbed settlement of an indexed job does, by
    the answers of the ledger.  If the capture of the price of the successful
    images is accepted, the job is completed with the amount that was captured
    and a usage log exists.  Otherwise the failure is counted and nothing else
    changes; the fifth failure returns the hold and fails the job, or, when the
    ledger refuses that, leaves the job to be settled again. *)
Theorem settle_outcome x t b job :
  batchReachable x → jobRow (crewDB x) b = Some job → Status (state job) = BatchImageJobStatusSettling →
  is_Some (positiveID (APIKeyID (info job))) → is_Some (positiveID (AccountID (info job))) → pricePositive job = true →
  settles job t (crewDB x) (fst (exec t (Settle w b) (crewDB x))) (snd (exec t (Settle w b) (crewDB x))).
Proof.
  intros Hx E Hs Hk Ha Hp. pose proof (jobRow_inv _ _ _ E) as Ej. pose proof (batchReachable_inv x Hx) as HI.
  apply settle_settles; try done.
  - apply (proj1 (inv_id _ HI b _ _ Ej)).
  - apply (inv_unpaid _ _ _ _ _ _ (inv_job _ HI b _ _ Ej)). by rewrite Hs.
  - by apply (settling_countsInv (crewDB x) b).
Qed.

(** *** Rounds of settlement *)

(** A program alone keeps what it may rely on. *)
Lemma exec_yields {A} t (p : P A) F (Q : A → batchDB → Prop) d :
  stable F → yields p F Q → batchInv d → F d →
  batchInv (snd (exec t p d)) ∧ F (snd (exec t p d)) ∧ Q (fst (exec t p d)) (snd (exec t p d)).
Proof.
  intros HF Hp HI Hf. apply (exec_safe batchInv (batchGuar None) t p d F (λ a d, F d ∧ Q a d)); [done..| |].
  - intros d1 d2 H1 H2 HG. apply HF; [done..|]. by apply BatchImageSafety.own_shared.
  - eapply safe_lift; [apply BatchImageSafety.own_shared | done | exact Hp].
Qed.

Lemma exec_settle_keeps t b d :
  batchInv d → batchInv (snd (exec t (Settle w b) d)) ∧ (captured d b → captured (snd (exec t (Settle w b) d)) b).
Proof.
  intros HI. split.
  - apply (exec_yields t (Settle w b) (λ _, True) (λ _ _, True) d); [apply stable_True | by apply maintains_Settle | done..].
  - intros Hc. apply (exec_yields t (Settle w b) (λ d, captured d b) (λ _ _, True) d);
      [apply stable_captured | apply maintains_Settle, stable_captured | done..].
Qed.

Lemma exec_capture_captured t job amount hash d r d1 :
  batchInv d → clean (jobID job) → exec t (captureBatchImageBalanceHold w job amount hash) d = (Ok r, d1) → captured d1 (jobID job).
Proof.
  intros HI Hc E. destruct (exec_yields t (captureBatchImageBalanceHold w job amount hash) (λ _, True) (okTells (λ _ d, captured d (jobID job))) d)
    as (_ & _ & Hq); [apply stable_True | by apply yields_capture | done..|]. by rewrite E in Hq.
Qed.

Fixpoint settleRounds (ts : list Time) (b : string) (d : batchDB) : batchDB :=
  match ts with
  | [] => d
  | t :: ts => settleRounds ts b (snd (exec t (Settle w b) d))
  end.

(** After [n] rounds that did not end the settlement. *)
Definition unsettled (i : BatchImageJobInfo) (n : Z) (b : string) (d : batchDB) : Prop :=
  ∃ job, jobRow d b = Some job ∧ info job = i ∧ Status (state job) = BatchImageJobStatusSettling ∧ n <= RetryCount (state job) ∧
    (0 < n → 5 <= RetryCount (state job) → LastErrorCode (state job) = Some "SETTLEMENT_RELEASE_FAILED"%string).

Definition settledOver (b : string) (d : batchDB) : Prop :=
  ∃ i s, jobs d !! b = Some (i, s) ∧ (Status s = BatchImageJobStatusCompleted ∨ Status s = BatchImageJobStatusFailed).

Lemma rowBecomes_row job s' d d' b :
  jobRow d b = Some job → jobID job = b → rowBecomes job s' (ledger d) d d' → jobRow d' b = Some (mkJob (info job) s' (hold job)).
Proof.
  intros E Hb (Ej & El & _). unfold jobRow. rewrite Ej, El, Hb, lookup_insert_eq. revert E. unfold jobRow.
  destruct (jobs d !! b) as [[i s]|]; [|done]. destruct (entities _ !! _); [|done]. by intros [= <-].
Qed.

Lemma settle_round i n t b d :
  batchInv d → 0 <= n → is_Some (positiveID (APIKeyID i)) → is_Some (positiveID (AccountID i)) →
  (∀ job, info job = i → pricePositive job = true) → unsettled i n b d →
  let d' := snd (exec t (Settle w b) d) in settledOver b d' ∨ captured d' b ∨ unsettled i (n + 1) b d'.
Proof.
  intros HI Hn Hk Ha Hp (job & E & Hi & Hs & Hr & _). cbv zeta. pose proof (jobRow_inv _ _ _ E) as Ej.
  destruct (inv_id _ HI b _ _ Ej) as [Hb Hc]. assert (Hjob := inv_job _ HI b _ _ Ej).
  assert (H : settles job t d (fst (exec t (Settle w b) d)) (snd (exec t (Settle w b) d))).
  { apply settle_settles; rewrite ?Hi; try done; [by apply Hp | | by apply (settling_countsInv d b)]. apply (inv_unpaid _ _ _ _ _ _ Hjob). by rewrite Hs. }
  change (BatchID (info job)) with (jobID job) in Hb.
  destruct H as [input cost r d1 stored d' hash requestID _ _ _ (Hj & _) _|input cost r d1 e _ Ec _|code msg e d' _ Hlt _ Hrow|
                 msg s1 d1 e d' _ _ _ _ (Hj & _)|msg s1 e e' d' _ Hge _ Hs1 Hr1 Hrow].
  - left. eexists _, _. split; [rewrite Hj, Hb; apply lookup_insert_eq | by left].
  - right; left. rewrite <- Hb in Hc |- *. by eapply exec_capture_captured.
  - right; right. eexists. split; [by eapply rowBecomes_row|]. unfold batchImageSettlementMaxRetries in Hlt.
    split_and!; [done | exact Hs | cbn; lia | intros _; cbn; lia].
  - left. eexists _, _. split; [rewrite Hj, Hb; apply lookup_insert_eq | by right].
  - right; right. eexists. split; [by eapply rowBecomes_row|]. split_and!; [done | exact Hs1 | cbn; lia | done].
Qed.

Lemma settle_over t b d : settledOver b d → snd (exec t (Settle w b) d) = d.
Proof.
  intros (i & s & Ej & Hs). unfold Settle. rewrite run_andThen. unfold GetBatchImageJobByBatchID, queryFound, reading, jobRow. cbn [exec]. rewrite Ej.
  destruct (entities (ledger d) !! (false, b)); [|done]. cbn [found exec]. cbv zeta. unfold jobStatus. cbn [exec ok state].
  destruct Hs as [-> | ->]; reflexivity.
Qed.

(** C29: termination.  A settlement does not go on for ever: whatever the ledger
    answers, after five undisturbed rounds the job is completed or failed, or its
    payment was captured, or the ledger refuses to return the hold. *)
Theorem settlement_ends x b job ts :
  batchReachable x → jobRow (crewDB x) b = Some job → Status (state job) = BatchImageJobStatusSettling →
  is_Some (positiveID (APIKeyID (info job))) → is_Some (positiveID (AccountID (info job))) → pricePositive job = true →
  (5 <= length ts)%nat →
  let d := settleRounds ts b (crewDB x) in
  settledOver b d ∨ captured d b ∨
  ∃ s, jobs d !! b = Some (info job, s) ∧ LastErrorCode s = Some "SETTLEMENT_RELEASE_FAILED"%string.
Proof.
  intros Hx%batchReachable_inv E Hs Hk Ha Hp Hlen. cbv zeta.
  assert (Hp' : ∀ job', info job' = info job → pricePositive job' = true) by (intros job' Hi; unfold pricePositive; by rewrite Hi).
  assert (H : ∀ ts n d, batchInv d → 0 <= n → settledOver b d ∨ captured d b ∨ unsettled (info job) n b d →
            let d' := settleRounds ts b d in settledOver b d' ∨ captured d' b ∨ unsettled (info job) (n + Z.of_nat (length ts)) b d').
  { clear ts Hlen. induction ts as [|t ts IH]; intros n d HI Hn H; cbv zeta; cbn [settleRounds length]; [by rewrite Z.add_0_r|].
    replace (n + Z.of_nat (S (length ts))) with (n + 1 + Z.of_nat (length ts)) by lia.
    destruct (exec_settle_keeps t b d HI) as [HI' Hc]. apply IH; [done | lia|].
    destruct H as [H|[H|H]]; [left; by rewrite settle_over | right; left; by apply Hc | by apply settle_round]. }
  destruct (H ts 0 (crewDB x) Hx ltac:(done)) as [H1|[H1|(job' & E' & Hi & _ & Hr & Hl)]]; [|by left|by right; left|].
  - right; right. exists job. split_and!; try done. apply (inv_retries _ _ _ _ _ _ (inv_job _ Hx b _ _ (jobRow_inv _ _ _ E))).
  - right; right. exists (state job'). rewrite <- Hi. split; [by apply jobRow_inv|]. apply Hl; lia.
Qed.
End outcome.

(** ** Example runs *)

Section demo.
#[local] Existing Instances ascii_case plainText decimal8 utcSQL utcWeek decimal8_laws utcCalendar demoDecoder demoJSON.
Abbreviation demoReachable := (batchReachable (Account := unit)).

(** A provider whose output cannot be opened yet: the job stays in indexing. *)
Definition lateProvider : BatchImageProvider unit :=
  mkProvider unit (λ _, true) (λ _ _ _, Ok None)
    (λ _ _, Ok (Some (mkProviderStatus BatchProviderStateSucceeded "gs://b/out" "" "" 0))) (λ _ _, Ok tt)
    (λ _ _, Err (OtherErr "not found" [])) (λ _ _ _, Ok tt).

Definition lateWorld : batchWorld unit :=
  mkWorld unit (BillingWallet.retries sampleWorld) (λ _, Some lateProvider) (λ _, Ok tt) (λ _, Ok (cents 4)) (λ _, "error"%string)
    Hour Hour 100 demoLimits (mkQueueOptions "" "" "" "" "" Hour Minute) (Ok "token"%string)
    (mkWorkerOptions Second Minute Second Second Minute Second Second Minute Minute 100 100) (λ _, "task"%string).

Definition demoIndexing : batchDB := snd (exec (sampleDay + Minute) (discard (RunOnce lateWorld 0)) demoSubmitted).

Lemma demoIndexing_reachable : ∃ x, demoReachable x ∧ crewDB x = demoIndexing.
Proof.
  destruct demoSubmitted_reachable as [l H0].
  destruct (demo_next sampleDay (sampleDay + Minute) demoSubmitted l (discard (RunOnce lateWorld 0))) as [l1 H1]; [done | constructor|].
  eexists. split; [by eapply reachable_steps | done].
Qed.

(** Two of the three images have a result, in the other order; the line of an
    unknown image is dropped. *)
Definition demoOutput : list string := ["cat_02"; "dog"; ""; "item_000002"; "cat_01"]%string.

Definition outputProvider : BatchImageProvider unit :=
  mkProvider unit (λ _, true) (λ _ _ _, Ok None) (λ _ _, Ok None) (λ _ _, Ok tt) (λ _ _, Ok (demoOutput, None)) (λ _ _ _, Ok tt).

Lemma demo_reference :
  ∃ i s new, jobs demoIndexing !! demoID = Some (i, s) ∧ Status s = BatchImageJobStatusIndexing ∧
    indexReference demoID (outputSource s) sampleDay (list_to_set (ids (itemsOf demoIndexing demoID))) demoOutput None = Some new ∧
    ids new = ["cat_02"; "item_000002"; "cat_01"]%string.
Proof.
  assert (H : match jobs demoIndexing !! demoID with
              | Some (i, s) =>
                  Status s = BatchImageJobStatusIndexing ∧
                  option_map ids (indexReference demoID (outputSource s) sampleDay (list_to_set (ids (itemsOf demoIndexing demoID))) demoOutput None)
                    = Some ["cat_02"; "item_000002"; "cat_01"]%string
              | None => False
              end) by (vm_compute; split; reflexivity).
  destruct (jobs demoIndexing !! demoID) as [[i s]|]; [|done]. destruct H as [Hs H].
  destruct (indexReference _ _ _ _ _ _) as [new|] eqn:E; [|done]. injection H as H. exists i, s, new. by split_and!.
Qed.

Lemma index_rebuilds_items_witness :
  ∃ x i s new events, demoReachable x ∧ jobs (crewDB x) !! demoID = Some (i, s) ∧ Status s = BatchImageJobStatusIndexing ∧
    ids new = ["cat_02"; "item_000002"; "cat_01"]%string ∧
    exec sampleDay (Index (mkJob i s (mkHold f64_zero None f64_zero [] false)) outputProvider tt) (crewDB x) =
      (Ok (mkIndexResult (successes new) (failures new) (Z.of_nat (length (itemsOf (crewDB x) demoID)))),
       setEvents events (putJob demoID i (indexedState new sampleDay s)
         (setItems (<[demoID := withPreview demoID (itemsOf (crewDB x) demoID) <$> new]> (items (crewDB x))) (crewDB x)))).
Proof.
  destruct demoIndexing_reachable as (x & Hx & Ed), demo_reference as (i & s & new & E & Hs & Er & Hids). rewrite <- Ed in E, Er.
  pose proof (index_rebuilds_items x sampleDay demoID i s (mkHold f64_zero None f64_zero [] false) outputProvider tt Hx E Hs) as H.
  assert (Ho : OpenResult outputProvider (mkJob i s (mkHold f64_zero None f64_zero [] false)) tt = Ok (demoOutput, None)) by done.
  cbv zeta in H. rewrite Ho, Er in H. destruct H as (_ & events & H). exists x, i, s, new, events. by split_and!.
Defined.

Lemma demo_settling :
  ∃ x job, demoReachable x ∧ crewDB x = demoIndexed ∧ jobRow demoIndexed demoID = Some job ∧ Status (state job) = BatchImageJobStatusSettling ∧
    is_Some (positiveID (APIKeyID (info job))) ∧ is_Some (positiveID (AccountID (info job))) ∧ pricePositive job = true.
Proof.
  destruct demoSubmitted_reachable as [l H0], (demo_steps l) as (l1 & l2 & H1 & _). pose proof (reachable_steps _ _ _ _ H0 H1) as Hx.
  destruct (jobRow demoIndexed demoID) as [job|] eqn:E; [|by vm_compute in E].
  eexists _, job. split; [exact Hx|]. split; [done|]. split; [done|].
  vm_compute in E. injection E as <-. split_and!; [done | by eexists | by eexists | by vm_compute].
Qed.

(** Two images of a dollar each are paid of the three that were held. *)
Lemma settle_outcome_witness :
  ∃ x job, demoReachable x ∧ jobRow (crewDB x) demoID = Some job ∧
    settles demoBatchWorld job sampleDay (crewDB x) (fst (exec sampleDay (Settle demoBatchWorld demoID) (crewDB x)))
      (snd (exec sampleDay (Settle demoBatchWorld demoID) (crewDB x))) ∧
    match fst (exec sampleDay (Settle demoBatchWorld demoID) (crewDB x)) with Ok r => setActualCost r = cents 200 | Err _ => False end.
Proof.
  destruct demo_settling as (x & job & Hx & Ed & E & Hs & Hk & Ha & Hp). exists x, job. rewrite Ed. split_and!; [done | done | |].
  - rewrite <- Ed in E |- *. by apply settle_outcome.
  - by vm_compute.
Defined.

Lemma settlement_ends_witness :
  ∃ x job, demoReachable x ∧ jobRow (crewDB x) demoID = Some job ∧
    let d := settleRounds demoBatchWorld (repeat sampleDay 5) demoID (crewDB x) in
    settledOver demoID d ∨ captured d demoID ∨
    ∃ s, jobs d !! demoID = Some (info job, s) ∧ LastErrorCode s = Some "SETTLEMENT_RELEASE_FAILED"%string.
Proof.
  destruct demo_settling as (x & job & Hx & Ed & E & Hs & Hk & Ha & Hp). exists x, job. rewrite <- Ed in E. split_and!; [done | done|].
  apply (settlement_ends demoBatchWorld x demoID job (repeat sampleDay 5) Hx E Hs Hk Ha Hp). cbn. lia.
Defined.

(** ** A hold that is never returned

    The owner cancels a job between its creation and the reservation of its
    hold.  The release finds nothing to return, but its request is recorded; the
    submission then reserves the hold, finds the job cancelled, and its own
    release is a repetition.  The money stays frozen: no release of the job has
    an effect any more. *)
Definition halfSubmitted : P unit * batchDB := advances 2 sampleDay demoSubmit demoTables.
Definition cancelMeanwhile : P unit := discard (Cancel demoBatchWorld demoOwner demoID).
Definition demoCancelled : batchDB := snd (exec sampleDay cancelMeanwhile (snd halfSubmitted)).
Definition demoLeaked : P unit * batchDB := advances 20 sampleDay (fst halfSubmitted) demoCancelled.

(** [q] runs after [m] steps of [p], which then goes on. *)
Lemma run_between t d a p q m n :
  demoReachable (mkCrew t d []) → entry (Account := unit) a p → entry (Account := unit) None q →
  ∃ x, demoReachable x ∧ crewDB x = snd (advances n t (fst (advances m t p d)) (snd (exec t q (snd (advances m t p d))))).
Proof.
  intros H0 Hp Hq. pose proof (crew_advances (entry (Account := unit)) outside m 0 a p t d [(a, p)] eq_refl) as H2.
  assert (H1 : demoReachable (mkCrew t d [(a, p)])).
  { eapply reach_step; [exact H0|]. apply (crew_start _ _ (mkCrew t d []) a p); [done | by intros i r j]. }
  pose proof (reachable_steps _ _ _ _ H1 H2) as H3. clear H1 H2. cbn [list_insert insert list_lookup] in H3.
  destruct (advances m t p d) as [p' d1]. cbn [fst snd] in *.
  destruct (crew_run (entry (Account := unit)) outside None q (mkCrew t d1 [(a, p')]) Hq) as [r Hr]; [by intros i r j|].
  cbn [crewClock crewDB Agents.members] in Hr. pose proof (reachable_steps _ _ _ _ H3 Hr) as H4.
  pose proof (crew_advances (entry (Account := unit)) outside n 0 a p' t (snd (exec t q d1)) ([(a, p')] ++ [(None, r)]) eq_refl) as H5.
  eexists. split; [exact (reachable_steps _ _ _ _ H4 H5) | done].
Qed.

Lemma demoLeaked_reachable : ∃ x, demoReachable x ∧ crewDB x = snd demoLeaked.
Proof.
  apply (run_between sampleDay demoTables (Some demoID) demoSubmit cancelMeanwhile 2 20); [apply demoTables_reachable | | constructor].
  exact (entry_Submit demoBatchWorld demoSubmitWorld demoOwner demoRequest "" _ eq_refl eq_refl).
Qed.

Definition leaked (d : batchDB) : bool :=
  match jobRow d demoID, users (ledger d) !! 7 with
  | Some job, Some u =>
      eqs (jobID job) demoID && bool_decide (positiveID (APIKeyID (info job)) = Some 5) && eqs (Status (state job)) BatchImageJobStatusCancelled
      && (frozen u =? 300000000) && bool_decide ((releaseKey demoID, 5) ∈ requestsOf (ledger d))
  | _, _ => false
  end.

Lemma leaked_stuck d :
  leaked d = true →
  ∃ job u, jobRow d demoID = Some job ∧ Status (state job) = BatchImageJobStatusCancelled ∧ users (ledger d) !! 7 = Some u ∧
    frozen u = 300000000 ∧ ∀ (w : batchWorld unit) t, snd (exec t (releaseHold w job) d) = d.
Proof.
  unfold leaked. destruct (jobRow d demoID) as [job|]; [|done]. destruct (users (ledger d) !! 7) as [u|]; [|done].
  rewrite !andb_true_iff, !bool_decide_eq_true, !eqs_true, Z.eqb_eq. intros ((((Hb & Hk) & Hs) & Hf) & Hr).
  exists job, u. split_and!; try done. intros w t. apply (release_repeated w t job _ 5); [rewrite Hb; apply (NewBatchImageID_clean (repeat "a"%char 16)); discriminate | exact Hk | rewrite Hb; exact Hr].
Qed.

Theorem cancelled_hold_leaks :
  ∃ x job u, demoReachable x ∧ jobRow (crewDB x) demoID = Some job ∧ Status (state job) = BatchImageJobStatusCancelled ∧
    users (ledger (crewDB x)) !! 7 = Some u ∧ frozen u = 300000000 ∧
    ∀ (w : batchWorld unit) t, snd (exec t (releaseHold w job) (crewDB x)) = crewDB x.
Proof.
  destruct demoLeaked_reachable as (x & Hx & Ed). assert (H : leaked (snd demoLeaked) = true) by (vm_compute; reflexivity).
  rewrite <- Ed in H. destruct (leaked_stuck _ H) as (job & u & Hl). exists x, job, u. split; [exact Hx | exact Hl].
Qed.
End demo.
