(* ===== verification/BatchImageSubmission.v ===== *)
(** * Batch image jobs: what a submission does

    A submission that nobody disturbs, on any tables that the system reaches:
    every way in which it ends, with the row of the job, its items, the ledger
    and the queue that it leaves ([submit_outcome]). *)

From S2P Require Import Prelude GoRuntime Domain AppErrors Transactions Agents UsageBilling BillingDB BillingAllowance BillingLedger BillingWallet BatchImageQueue BatchImage BatchImageRequest BatchImageIndex BatchImageDB BatchImageInvariant BatchImageFlow BatchImageSafety BatchImageSubmit BatchImageSystem BatchImageOutcome.
#[local] Open Scope Z_scope.

Section submission.
Context {Account : Type} `{UC : UnicodeCase} `{JD : JSONDecoder} `{BT : BillingText} `{SN : SQLNumeric} `{CAL : Calendar}
  `{SC : SQLCalendar} `{GW : GoWeek} `{RJ : RequestJSON} `{LAWS : !SQLNumericLaws}.
Context (w : batchWorld Account) (sw : submitWorld (Account := Account)) (owner : BatchImageOwner).
Implicit Types job : BatchImageJob.

Abbreviation batchReachable := (batchReachable (Account := Account)).
Abbreviation submitAnswer := (result goError BatchImagePublicBatch).

(** ** The calls *)

Lemma run_seq {A B} t (m : P A) (f : A → P B) d : exec t (bindProg f m) d = let '(a, d') := exec t m d in exec t (f a) d'.
Proof. rewrite exec_bindProg. by destruct (exec t m d). Qed.

Lemma exec_event t b eventType d :
  is_Some (jobs d !! b) → exec t (AppendBatchImageEvent b eventType) d = (Ok tt, setEvents ((b, eventType) :: batchEvents d) d).
Proof. intros Hj. unfold AppendBatchImageEvent, query, eventInsert. cbn [exec]. by rewrite bool_decide_eq_true_2. Qed.

(** The row of the job, its items, the ledger and the queue; the rest of the
    tables is events and the record of the identifiers. *)
Record leaves (i : BatchImageJobInfo) (s : BatchImageJobState) (rows : gmap string (list BatchImageItem)) (l : billingDB) (q : batchQueue)
    (d d' : batchDB) : Prop := {
  left_row : jobs d' = <[BatchID i := (i, s)]> (jobs d);
  left_items : items d' = rows;
  left_ledger : ledger d' = l;
  left_queue : queue d' = q;
}.

Lemma leaves_row i s rows l q d d' : leaves i s rows l q d d' → jobs d' !! BatchID i = Some (i, s).
Proof. intros []. by rewrite left_row0, lookup_insert_eq. Qed.

(** A further change of the row, with an event. *)
Lemma leaves_put i s s' rows l q d d' events :
  leaves i s rows l q d d' → leaves i s' rows l q d (setEvents events (putJob (BatchID i) i s' d')).
Proof. intros []. split; try done. cbn. by rewrite left_row0, insert_insert_eq. Qed.

Lemma leaves_events i s rows l q d d' events : leaves i s rows l q d d' → leaves i s rows l q d (setEvents events d').
Proof. intros []. by split. Qed.

Lemma leaves_frame i s rows rows' l l' q d d1 d' :
  leaves i s rows l q d d1 → jobs d' = jobs d1 → items d' = rows' → ledger d' = l' → queue d' = queue d1 → leaves i s rows' l' q d d'.
Proof. intros [] E1 E2 E3 E4. split; congruence. Qed.

Lemma leaves_ledger i s rows l l' q d d' : leaves i s rows l q d d' → leaves i s rows l' q d (setLedger l' d').
Proof. intros []. by split. Qed.

Lemma exec_submitFailed t job s rows l q d d' code msg :
  leaves (info job) s rows l q d d' →
  ∃ events, exec t (recordFailure_ job code msg true) d' =
    (Ok tt, setEvents events (putJob (jobID job) (info job) (submitFailure code msg true t s) d')).
Proof.
  intros Hl. eexists. unfold recordFailure_, RecordBatchImageJobSubmitFailure, thenEvent. rewrite run_andThen. unfold query, jobUpdate. cbn [exec].
  change (jobID job) with (BatchID (info job)). rewrite (leaves_row _ _ _ _ _ _ _ Hl). cbn [always exec ok]. rewrite exec_event; [done|].
  cbn. rewrite lookup_insert_eq. by eexists.
Qed.

(** The owner of the job. *)
Definition ownRow (job : BatchImageJob) : Prop :=
  UserID (info job) = ownerUserID owner ∧ APIKeyID (info job) = Some (ownerAPIKeyID owner).

(** A job that failed and is hidden from its owner. *)
Definition closed (code : string) (t : Time) (s : BatchImageJobState) : Prop :=
  Status s = BatchImageJobStatusFailed ∧ LastErrorCode s = Some code ∧ ProviderJobName s = None ∧ UserDeletedAt s = Some t.

Lemma exec_submitFails {A} t job s rows l q d d' code msg e :
  leaves (info job) s rows l q d d' → ownRow job → ProviderJobName (state job) = None → ProviderJobName s = None → UserDeletedAt s = None →
  ∃ s' d1, exec t (submitFails (A := A) owner job code msg e) d' = (Err e, d1) ∧ leaves (info job) s' rows l q d d1 ∧ closed code t s'.
Proof.
  intros Hl [Hu Hk] Hj Hn Hd. destruct (exec_submitFailed t job s rows l q d d' code msg Hl) as [events E].
  unfold submitFails. rewrite run_seq, E. set (s1 := submitFailure code msg true t s) in *.
  apply (leaves_put _ _ s1 _ _ _ _ _ events) in Hl. set (d1 := setEvents events _) in *.
  unfold hidePreUpstreamSubmitFailure. rewrite Hj, bool_decide_eq_false_2 by (by intros []). rewrite run_seq. cbn [exec]. rewrite run_seq.
  unfold MarkBatchImageJobUserDeleted. rewrite run_andThen. unfold query, jobUpdate. cbn [exec].
  change (jobID job) with (BatchID (info job)). rewrite (leaves_row _ _ _ _ _ _ _ Hl), Hu, Z.eqb_refl, Hk, (bool_decide_eq_true_2 (Some _ = Some _)) by done.
  rewrite (bool_decide_eq_true_2 (UserDeletedAt s1 = None)) by done. change (IsTerminalBatchImageJobStatus (Status s1)) with true.
  cbn [andb exec ok Z.eqb].
  rewrite exec_event by (cbn; rewrite lookup_insert_eq; by eexists). cbn [exec fails].
  eexists _, _. split; [reflexivity|]. split; [eapply leaves_put, Hl|]. by repeat split.
Qed.

(** Whatever the queue holds, the job is in it afterwards. *)
Lemma enqueue_present o b t q :
  tracked q → IsValidBatchImageID b = true →
  let '(r, q') := Enqueue o b t q in enqueued r = Ok tt ∧ present b q' ∧ keepsJobs q q'.
Proof.
  intros Hq Hv. unfold Enqueue, onJob, batchImageEnqueueScript, queued. rewrite Hv.
  assert (Hnew : ∀ v, present b (setReady (b :: ready q) (setInflight v q)) ∧ keepsJobs q (setReady (b :: ready q) (setInflight v q))).
  { intros v. split; [left; by left|]. intros j _ [Hj|Hj]; [left; by right | by right]. }
  destruct (inflight q !! b) as [expiry|] eqn:E; [destruct (live _ expiry)|]; cbn.
  - split_and!; [done | | by intros ? _]. apply Hq; [by eexists | done].
  - split; [done | apply Hnew].
  - split; [done | apply Hnew].
Qed.

Lemma exec_enqueue t b d :
  tracked (queue d) → IsValidBatchImageID b = true →
  ∃ q, exec t (tryEnqueue w b) d = (Ok tt, setQueue q d) ∧ present b q ∧ keepsJobs (queue d) q.
Proof.
  intros Hq Hv. pose proof (enqueue_present (queueOptions w) b t (queue d) Hq Hv) as H. unfold tryEnqueue, Enqueue_, redis, transact.
  rewrite run_seq. cbn [exec]. destruct (Enqueue _ _ _ _) as [r q]. destruct H as (Hr & Hp & Hk). cbn [exec]. rewrite Hr. by exists q.
Qed.

(** A hold that cannot be returned: the job is queued, for the worker to try again. *)
Definition stuck (s : BatchImageJobState) : Prop :=
  Status s = BatchImageJobStatusFailed ∧ LastErrorCode s = Some "BILLING_RELEASE_FAILED"%string ∧ ProviderJobName s = None ∧
  UserDeletedAt s = None.

Lemma exec_releaseFailed t job hash s rows q d d0 d' :
  leaves (info job) s rows (ledger d0) q d d' → ProviderJobName s = None → UserDeletedAt s = None → tracked q → clean (jobID job) →
  let release := exec t (releaseBatchImageBalanceHold w job hash) d0 in
  let outcome := exec t (releaseFailedSubmitHold w job hash) d' in
  (∃ d1, release = (Ok tt, d1) ∧ outcome = (Ok tt, setLedger (ledger d1) d')) ∨
  (∃ e s' q' d1, release = (Err e, d0) ∧ outcome = (Err (AppErr ErrBatchImageBillingHoldFailed), d1) ∧
     leaves (info job) s' rows (ledger d0) q' d d1 ∧ stuck s' ∧ present (jobID job) q' ∧ keepsJobs q q').
Proof.
  intros Hl Hn Hd Hq [Hv _]. cbv zeta. unfold releaseFailedSubmitHold. rewrite run_seq.
  rewrite (exec_releaseBalance w t job hash d0 d') by (by rewrite (left_ledger _ _ _ _ _ _ _ Hl)).
  destruct (exec t (releaseBatchImageBalanceHold w job hash) d0) as [[[]|e] d1] eqn:E; cbn [fst snd exec ok]; [left; by exists d1|].
  right. pose proof (exec_release_fails w _ _ _ _ _ _ E) as ->.
  apply (leaves_ledger _ _ _ _ (ledger d0)) in Hl. set (d2 := setLedger (ledger d0) d') in *.
  destruct (exec_submitFailed t job s rows _ q d d2 "BILLING_RELEASE_FAILED" (publicError w e) Hl) as [events E1].
  rewrite run_seq, E1. apply (leaves_put _ _ (submitFailure "BILLING_RELEASE_FAILED" (publicError w e) true t s) _ _ _ _ _ events) in Hl.
  set (d3 := setEvents events _) in *. unfold enqueueBillingRetry. rewrite !run_seq.
  destruct (exec_enqueue t (jobID job) d3) as (q' & E2 & Hp & Hk); [by rewrite (left_queue _ _ _ _ _ _ _ Hl) | done|].
  rewrite E2. cbn [exec failsApp]. rewrite (left_queue _ _ _ _ _ _ _ Hl) in Hk.
  eexists e, _, q', _. split; [done|]. split; [reflexivity|]. split; [by destruct Hl; split|]. by repeat split.
Qed.

(** A job that the provider does not take: the hold is returned and the job
    closed, or the hold cannot be returned. *)
Lemma exec_releaseAndFail {A} t job hash code msg e s rows q d d0 d' :
  leaves (info job) s rows (ledger d0) q d d' → ProviderJobName s = None → UserDeletedAt s = None → tracked q → clean (jobID job) →
  ownRow job → ProviderJobName (state job) = None →
  let release := exec t (releaseBatchImageBalanceHold w job hash) d0 in
  let outcome := exec t (releaseAndFail (A := A) w owner job hash code msg e) d' in
  (∃ d1 s' d2, release = (Ok tt, d1) ∧ outcome = (Err e, d2) ∧ leaves (info job) s' rows (ledger d1) q d d2 ∧ closed code t s') ∨
  (∃ e' s' q' d2, release = (Err e', d0) ∧ outcome = (Err (AppErr ErrBatchImageBillingHoldFailed), d2) ∧
     leaves (info job) s' rows (ledger d0) q' d d2 ∧ stuck s' ∧ present (jobID job) q' ∧ keepsJobs q q').
Proof.
  intros Hl Hn Hd Hq Hc Ho Hj. cbv zeta. unfold releaseAndFail. rewrite run_andThen.
  destruct (exec_releaseFailed t job hash s rows q d d0 d' Hl Hn Hd Hq Hc) as [(d1 & E & ->)|(e' & s' & q' & d1 & E & -> & H)].
  - left. destruct (exec_submitFails (A := A) t job s rows (ledger d1) q d (setLedger (ledger d1) d') code msg e) as (s' & d2 & E2 & H2);
      [by eapply leaves_ledger | done..|]. exists d1, s', d2. rewrite E2. split_and!; [done | done | apply H2..].
  - right. by exists e', s', q', d1.
Qed.

(** *** The creation *)

(** A new row, with the columns of its hold. *)
Record isNew (job : BatchImageJob) (d d1 : batchDB) : Prop := {
  new_absent : jobs d !! jobID job = None;
  new_owner : ownRow job;
  new_status : Status (state job) = BatchImageJobStatusCreated;
  new_unnamed : ProviderJobName (state job) = None;
  new_visible : UserDeletedAt (state job) = None;
  new_left : leaves (info job) (state job) (items d) (ledger d1) (queue d) d d1;
  new_hold : ∃ e, hold job = BatchImageDB.holdOf e ∧ ledger d1 = withEntities (<[(false, jobID job) := e]> (entities (ledger d))) (ledger d);
}.

Lemma insertedInfo_owner id now i i' :
  insertedInfo id now i = Some i' → BatchID i' = BatchID i ∧ UserID i' = UserID i ∧ APIKeyID i' = APIKeyID i.
Proof. unfold insertedInfo. intros E. repeat (apply bind_Some in E as (? & _ & E)). by injection E as <-. Qed.

Lemma insertedState_new now s s' :
  insertedState now s = Some s' → Status s' = Status s ∧ ProviderJobName s' = ProviderJobName s ∧ UserDeletedAt s' = None.
Proof. unfold insertedState. intros (? & _ & E)%bind_Some. by injection E as <-. Qed.

(** What [insertJob] is asked to insert. *)
Lemma create_cases t b params d :
  Status (state params) = BatchImageJobStatusCreated → BatchID (info params) = b →
  (∃ e, exec t (CreateBatchImageJob (Ok b) params) d = (Err e, d)) ∨
  ∃ i, exec t (CreateBatchImageJob (Ok b) params) d = exec t (transact (insertJob (mkJob i (state params) (hold params)))) d ∧
    BatchID i = b ∧ UserID i = UserID (info params) ∧ APIKeyID i = APIKeyID (info params).
Proof.
  intros Hs Hb. unfold CreateBatchImageJob. rewrite Hs, Hb. destruct (negb (IsSupportedBatchImageProvider _)); [left; by eexists|]. cbv zeta.
  assert (Hif : ∀ (c : bool) (i i' : BatchImageJobInfo), BatchID i = b ∧ UserID i = UserID (info params) ∧ APIKeyID i = APIKeyID (info params) →
            BatchID i' = BatchID i → UserID i' = UserID i → APIKeyID i' = APIKeyID i →
            let j := if c then i' else i in BatchID j = b ∧ UserID j = UserID (info params) ∧ APIKeyID j = APIKeyID (info params)).
  { intros [] i i' (<- & <- & <-) E1 E2 E3; cbn; done. }
  match goal with |- context [if eqs b "" then ?p else ?q] => assert (Hsame : (if eqs b "" then p else q) = p) by (by destruct (eqs b "")) end.
  rewrite Hsame. clear Hsame. change (eqs BatchImageJobStatusCreated "") with false. cbv iota. set (i1 := SetBatchIDColumn b (info params)).
  pose proof (Hif (eqs (Currency i1) "") i1 (SetCurrency "USD" i1) (conj eq_refl (conj eq_refl eq_refl)) eq_refl eq_refl eq_refl) as H2.
  cbv zeta in H2. set (i2 := if eqs (Currency i1) "" then _ else _) in *.
  pose proof (Hif (BillingUserID i2 <=? 0) i2 (SetBillingUserID (UserID i2) i2) H2 eq_refl eq_refl eq_refl) as H3.
  cbv zeta in H3. set (i3 := if BillingUserID i2 <=? 0 then _ else _) in *.
  destruct (NormalizeAPIKeyBillingMode _) as [mode|]; [|left; by eexists].
  destruct (negb _); [right; eexists; split; [reflexivity | exact H3]|].
  destruct (positiveID _); [right; eexists; split; [reflexivity | exact H3] | left; by eexists].
Qed.

Lemma exec_create t b params d r d1 :
  Status (state params) = BatchImageJobStatusCreated → ProviderJobName (state params) = None → BatchID (info params) = b → ownRow params →
  exec t (CreateBatchImageJob (Ok b) params) d = (r, d1) →
  match r with Ok job => jobID job = b ∧ isNew job d d1 | Err _ => d1 = d end.
Proof.
  intros Hs Hn Hb [Hu Hk]. destruct (create_cases t b params d Hs Hb) as [[e ->]|(i & -> & Hi & Hiu & Hik)]; [by intros [= <- <-]|].
  unfold transact, insertJob. cbn [exec info state hold].
  destruct (insertedInfo _ _ _) as [i'|] eqn:Ei; [|by intros [= <- <-]]. destruct (insertedState _ _) as [s'|] eqn:Es; [|by intros [= <- <-]].
  destruct (insertedHold _) as [e|]; [|by intros [= <- <-]].
  rewrite Hi. destruct (jobs d !! b) as [row|] eqn:Ej; cbn [exec]; [by intros [= <- <-]|]. intros [= <- <-].
  apply insertedInfo_owner in Ei as (E1 & E2 & E3). apply insertedState_new in Es as (S1 & S2 & S3).
  assert (Hid : BatchID i' = b) by congruence. split; [exact Hid|]. split; unfold jobID; cbn [info state hold]; rewrite ?Hid; try congruence.
  - split; cbn [info]; congruence.
  - split; [|done..]. cbn [info state]. by rewrite Hid.
  - by exists e.
Qed.

(** *** The hold and the items *)

(** A reservation that succeeds has written the columns of its row. *)
Lemma update_present c set d a d' : updateEntity c set d = Ok (a, d') → is_Some (entities d' !! entityKey c).
Proof.
  unfold updateEntity. intros (d0 & d1 & [= <- <-] & E)%txBind_Ok. destruct (entities d !! entityKey c); [|done].
  injection E as _ <-. cbn. rewrite lookup_insert_eq. by eexists.
Qed.

Lemma allowance_present t now c d a d' :
  applyBatchImageAllowance t now c batchImageAllowanceReserve d = Ok (a, d') →
  is_Some (entities d !! entityKey c) → is_Some (entities d' !! entityKey c).
Proof.
  unfold applyBatchImageAllowance. destruct (_ && _); [by intros [= _ <-]|]. cbv zeta.
  intros (? & d1 & _ & E)%txBind_Ok _. apply txBind_Ok in E as (? & d2 & _ & E). by eapply update_present.
Qed.

Lemma reserve_present t now c d r c' d' :
  reserveUsageBillingBatchImageBilling t now c d = Ok ((r, c'), d') →
  is_Some (entities d !! entityKey c) → is_Some (entities d' !! entityKey c') ∧ entityKey c' = entityKey c.
Proof.
  unfold reserveUsageBillingBatchImageBilling. cbv zeta. destruct (_ && _); [by intros [= _ <- <-]|].
  intros ([[rest covered] allocations] & d1 & _ & E)%txBind_Ok _. destruct (_ && _); [done|].
  apply txBind_Ok in E as (h & d2 & _ & E). apply txBind_Ok in E as (estimated & d3 & _ & E). apply txBind_Ok in E as (u & d4 & E & Er).
  injection Er as _ <- <-. unfold persistBatchImageBillingHold in E. do 3 apply txBind_Ok in E as (? & ? & _ & E).
  split; [by eapply update_present | done].
Qed.

Lemma hold_present t rw c l r l' :
  applyBatchImageBalanceHold t t rw batchImageAllowanceReserve c l = (r, l') →
  let key := entityKey (Normalize c) in is_Some (entities l !! key) → is_Some (entities l' !! key).
Proof.
  intros E key. revert E. unfold applyBatchImageBalanceHold. cbv zeta. destruct (eqs _ _); [by intros [= _ <-]|].
  destruct (retry_outcome rw (applyBatchImageBalanceHoldOnce t t batchImageAllowanceReserve (Normalize c)) l) as [->|[e ->]]; [|by intros [= _ <-]].
  unfold applyBatchImageBalanceHoldOnce. destruct (claimUsageBillingRequest _ _ _ l) as [[[|] l1]|e] eqn:E1; [|by intros [= _ <-]..].
  apply claim_new in E1 as [_ ->]. destruct (txBind _ _ _) as [[a l2]|e] eqn:E2; intros [= _ <-]; [|done]. intros Hl.
  apply txBind_Ok in E2 as (? & d3 & ->%lock_same & E2). apply txBind_Ok in E2 as ([r2 c2] & d4 & E2 & E3).
  apply reserve_present in E2 as [E2 Ek]; [|exact Hl]. apply txBind_Ok in E3 as (? & d5 & E3 & [= _ <-]).
  unfold key. rewrite <- Ek. by eapply allowance_present.
Qed.

Lemma Normalize_entity c : entityKey (Normalize c) = (cCreativeEntity c, TrimSpace (TrimSpace (cBatchID c))).
Proof. unfold Normalize, entityKey. cbv zeta. repeat case_match; done. Qed.

Lemma exec_reserve t job groupID hash d r d2 :
  clean (jobID job) → is_Some (entities (ledger d) !! (false, jobID job)) →
  exec t (reserveBatchImageBalanceHold w job groupID hash) d = (r, d2) →
  match r with
  | Ok job' => info job' = info job ∧ state job' = state job ∧ d2 = setLedger (ledger d2) d ∧ is_Some (entities (ledger d2) !! (false, jobID job))
  | Err _ => d2 = d
  end.
Proof.
  intros (_ & Ht & _) He. unfold reserveBatchImageBalanceHold.
  destruct (buildBatchImageHoldCommand _ _ _ _) as [cmd|e] eqn:Ec; [|by intros [= <- <-]].
  destruct (_ && _); [intros [= <- <-]; by rewrite setLedger_same|]. rewrite run_seq.
  destruct (exec t (holdCall _ _ _) d) as [[x|e] d'] eqn:E; cbn [exec ok fails]; intros [= <- <-]; [|by eapply exec_holdCall_fails].
  revert E. unfold holdCall, transact. cbn [exec]. destruct (applyBatchImageBalanceHold _ _ _ _ _ _) as [r l] eqn:El. intros E.
  assert (d' = setLedger l d) as -> by (by destruct r as [[]|]; injection E).
  assert (Hkey : entityKey (Normalize (SetGroup groupID cmd)) = (false, jobID job)).
  { rewrite Normalize_entity. revert Ec. unfold buildBatchImageHoldCommand. destruct (positiveID _); [|done]. intros [= <-].
    transitivity (false, TrimSpace (TrimSpace (jobID job))); [done | by rewrite !Ht]. }
  pose proof (hold_present _ _ _ _ _ _ El) as Hp. cbv zeta in Hp. rewrite Hkey in Hp. split_and!; [done..|]. by apply Hp.
Qed.

Lemma exec_createItems t b hash new d :
  new ≠ [] → NoDup (itemCustomID <$> new) → is_Some (jobs d !! b) → itemsOf d b = [] →
  ∃ d', exec t (createPendingItems w b hash new) d = (Ok tt, d') ∧ jobs d' = jobs d ∧ ledger d' = ledger d ∧ queue d' = queue d ∧
    items d' = <[b := pendingItems w b hash new]> (items d).
Proof.
  intros Hne Hnd Hj Hrows. unfold createPendingItems. rewrite bool_decide_eq_false_2 by done. set (rows := pendingItems w b hash new).
  unfold BulkCreateBatchImageItems. assert (Hrne : rows ≠ []) by (unfold rows; by destruct new). rewrite bool_decide_eq_false_2 by done.
  unfold transact. cbn [exec]. rewrite (insertItems_all b rows d); [|done| | |done].
  - cbn [exec]. eexists. split; [reflexivity|]. destruct (noteRequested_frame rows (setItems (<[b := itemsOf d b ++ rows]> (items d)) d)) as (-> & -> & -> & ->).
    by rewrite Hrows.
  - apply Forall_fmap, Forall_forall. by intros x _.
  - rewrite Hrows, app_nil_l. unfold ids, rows, pendingItems. rewrite <- list_fmap_compose. by erewrite list_fmap_ext.
Qed.

(** ** The specification *)

Definition providerAnswer (req : BatchImageSubmitRequest) (c : submitChoice (Account := Account)) (job : BatchImageJob) : result goError (option BatchProviderJob) :=
  Submit_ (chosenService c) (withStatus BatchImageJobStatusUploading job) (chosenAccount c) (providerInput (jobID job) (chosenModel c) req).

(** The code of a provider that does not take the job, and the answer. *)
Definition refusal (r : result goError (option BatchProviderJob)) : option (string * goError) :=
  match r with
  | Err e => let publicErr := batchImageProviderSubmitPublicError e in Some (batchImageProviderSubmitRecordCode publicErr, AppErr publicErr)
  | Ok (Some pj) => if eqs (TrimSpace (pjJobName pj)) "" then Some ("PROVIDER_SUBMIT_FAILED"%string, AppErr ErrBatchImageProviderSubmitFailed) else None
  | Ok None => Some ("PROVIDER_SUBMIT_FAILED"%string, AppErr ErrBatchImageProviderSubmitFailed)
  end.

Definition uploading (t : Time) (s : BatchImageJobState) : BatchImageJobState :=
  transitionState BatchImageJobStatusUploading (eventOnly "upload_started") t s.

Section proceeding.
Context (t : Time) (req : BatchImageSubmitRequest) (hash : string) (c : submitChoice (Account := Account)).
Context (job : BatchImageJob) (d d1 : batchDB).

Definition reserving : result goError BatchImageJob * batchDB := exec t (reserveBatchImageBalanceHold w job (ownerGroupID owner) hash) d1.
Definition newItems : gmap string (list BatchImageItem) := <[jobID job := pendingItems w (jobID job) hash (Items req)]> (items d).

(** From the new row on: the hold is refused; the provider does not take the job
    and the hold is returned, or cannot be; the job is submitted. *)
Inductive proceeds : submitAnswer → batchDB → Prop :=
  | proceeds_unfunded e s d' :
      reserving = (Err e, d1) → leaves (info job) s (items d) (ledger d1) (queue d) d d' →
      closed (batchImageBillingHoldFailureCode e) t s → proceeds (Err e) d'
  | proceeds_returned held d2 d3 code e s d' :
      reserving = (Ok held, d2) → refusal (providerAnswer req c held) = Some (code, e) →
      exec t (releaseBatchImageBalanceHold w held hash) d2 = (Ok tt, d3) →
      leaves (info job) s newItems (ledger d3) (queue d) d d' → closed code t s → proceeds (Err e) d'
  | proceeds_stuck held d2 code e e' s q d' :
      reserving = (Ok held, d2) → refusal (providerAnswer req c held) = Some (code, e) →
      exec t (releaseBatchImageBalanceHold w held hash) d2 = (Err e', d2) →
      leaves (info job) s newItems (ledger d2) q d d' → stuck s → present (jobID job) q → keepsJobs (queue d) q →
      proceeds (Err (AppErr ErrBatchImageBillingHoldFailed)) d'
  | proceeds_submitted held d2 pj q created d' :
      reserving = (Ok held, d2) → providerAnswer req c held = Ok (Some pj) → TrimSpace (pjJobName pj) ≠ "" →
      leaves (info job) (submitState (submitParams (chosenProvider c) pj (jobID job)) t (uploading t (state job))) newItems (ledger d2) q d d' →
      present (jobID job) q → keepsJobs (queue d) q → jobRow d' (jobID job) = Some created → proceeds (Ok (toPublic w created)) d'.

(** The provider has the job. *)
Lemma exec_accept held d2 d3 name pj s :
  tracked (queue d) → clean (jobID held) → CanTransitionBatchImageJob (Status s) BatchImageJobStatusSubmitted = true →
  is_Some (entities (ledger d2) !! (false, jobID held)) → leaves (info held) s newItems (ledger d2) (queue d) d d3 →
  ∃ q created d', exec t (acceptJob w held name pj) d3 = (Ok (toPublic w created), d') ∧
    leaves (info held) (submitState (submitParams name pj (jobID held)) t s) newItems (ledger d2) q d d' ∧
    present (jobID held) q ∧ keepsJobs (queue d) q ∧ jobRow d' (jobID held) = Some created.
Proof.
  intros Hq [Hv _] Hc He Hl. unfold acceptJob. rewrite run_seq. unfold UpdateBatchImageJobProviderSubmit, transact. cbn [exec psBatchID submitParams].
  rewrite (leaves_row _ _ _ _ _ _ _ Hl : jobs d3 !! jobID held = _), Hc. cbn [negb exec].
  apply (leaves_put _ _ (submitState (submitParams name pj (jobID held)) t s) _ _ _ _ _ ((jobID held, "provider_submitted"%string) :: batchEvents d3)) in Hl.
  set (d4 := setEvents _ _) in Hl. change (setEvents _ _) with d4. rewrite run_seq.
  destruct (exec_enqueue t (jobID held) d4) as (q & -> & Hp & Hk); [by rewrite (left_queue _ _ _ _ _ _ _ Hl) | done|].
  rewrite (left_queue _ _ _ _ _ _ _ Hl) in Hk.
  assert (Hl5 : leaves (info held) (submitState (submitParams name pj (jobID held)) t s) newItems (ledger d2) q d (setQueue q d4)) by (by destruct Hl; split).
  set (d5 := setQueue q d4) in *. destruct He as [e He].
  assert (Ecreated : jobRow d5 (jobID held) = Some (mkJob (info held) (submitState (submitParams name pj (jobID held)) t s) (BatchImageDB.holdOf e))).
  { unfold jobRow. rewrite (leaves_row _ _ _ _ _ _ _ Hl5 : jobs d5 !! jobID held = _), (left_ledger _ _ _ _ _ _ _ Hl5), He. done. }
  rewrite run_andThen, (run_getJob t _ _ _ Ecreated). eexists q, _, d5. split; [reflexivity|]. split_and!; done.
Qed.

(** From the transition on. *)
Lemma upload_proceeds held d2 d3 :
  batchInv d → clean (jobID job) → isNew job d d1 → reserving = (Ok held, d2) → info held = info job → state held = state job →
  is_Some (entities (ledger d2) !! (false, jobID job)) → leaves (info job) (state job) newItems (ledger d2) (queue d) d d3 →
  let outcome := exec t (uploadJob w owner req hash c held) d3 in proceeds (fst outcome) (snd outcome).
Proof.
  intros HI Hc Hnew Er Hi Hs He Hl. cbv zeta. assert (Hid : jobID held = jobID job) by (unfold jobID; by rewrite Hi).
  assert (Hq := inv_queue _ HI). assert (Hrow := leaves_row _ _ _ _ _ _ _ Hl). pose proof (new_unnamed _ _ _ Hnew) as Hn.
  unfold uploadJob. rewrite run_seq, Hid.
  rewrite (exec_transition t (jobID job) _ _ _ (info job) (state job)); [|exact Hrow | by rewrite (new_status _ _ _ Hnew) | done].
  apply (leaves_put _ _ (uploading t (state job)) _ _ _ _ _ ((jobID job, "upload_started"%string) :: batchEvents d3)) in Hl.
  set (d4 := setEvents _ _) in Hl. change (setEvents _ _) with d4. set (held' := withStatus BatchImageJobStatusUploading held).
  assert (Href : ∀ code msg e, refusal (providerAnswer req c held) = Some (code, e) →
            let outcome := exec t (releaseAndFail (A := BatchImagePublicBatch) w owner held' hash code msg e) d4 in proceeds (fst outcome) (snd outcome)).
  { intros code msg e Hr. cbv zeta.
    assert (Hl' : leaves (info held') (uploading t (state job)) newItems (ledger d2) (queue d) d d4) by (by cbn [held' withStatus withState info]; rewrite Hi).
    destruct (exec_releaseAndFail (A := BatchImagePublicBatch) t held' hash code msg e _ _ _ d d2 d4 Hl')
      as [(d5 & s' & d6 & E & -> & Hl6 & Hs6)|(e' & s' & q' & d6 & E & -> & Hl6 & Hs6 & Hp & Hk)]; try done.
    - apply Hnew.
    - unfold held', jobID. cbn. by rewrite Hi.
    - unfold ownRow. cbn. rewrite Hi. apply Hnew.
    - cbn. by rewrite Hs.
    - cbn [held' withStatus withState info] in Hl6. rewrite Hi in Hl6. eapply proceeds_returned; [exact Er | exact Hr | exact E | exact Hl6 | exact Hs6].
    - cbn [held' withStatus withState info] in Hl6. rewrite Hi in Hl6. unfold jobID in Hp. cbn in Hp. rewrite Hi in Hp.
      eapply proceeds_stuck; [exact Er | exact Hr | exact E | exact Hl6 | exact Hs6 | exact Hp | exact Hk]. }
  assert (Hid' : jobID held' = jobID job) by exact Hid. assert (Hi' : info held' = info job) by exact Hi.
  cbv zeta. fold held'. change (Submit_ _ _ _ _) with (providerAnswer req c held).
  destruct (providerAnswer req c held) as [[pj|]|e] eqn:Ep; [|by apply Href..].
  destruct (eqs (TrimSpace (pjJobName pj)) "") eqn:Ename; [apply Href; cbn; by rewrite Ename|]. apply eqs_false in Ename.
  destruct (exec_accept held' d2 d4 (chosenProvider c) pj (uploading t (state job))) as (q & created & d' & -> & Hl' & Hp & Hk & Hj);
    rewrite ?Hid', ?Hi' in *; try done.
  by eapply proceeds_submitted.
Qed.

Lemma prepare_proceeds :
  batchInv d → clean (jobID job) → Items req ≠ [] → NoDup (itemCustomID <$> Items req) → isNew job d d1 →
  let outcome := exec t (prepareJob w owner req hash c job) d1 in proceeds (fst outcome) (snd outcome).
Proof.
  intros HI Hc Hne Hnd Hnew. cbv zeta. unfold prepareJob. rewrite run_seq. fold reserving.
  destruct (inv_absent _ HI _ (new_absent _ _ _ Hnew)) as (Hitems & _ & _). pose proof (new_left _ _ _ Hnew) as Hl.
  destruct (new_hold _ _ _ Hnew) as (row & _ & Hled).
  assert (He : is_Some (entities (ledger d1) !! (false, jobID job))) by (rewrite Hled; cbn; rewrite lookup_insert_eq; by eexists).
  destruct reserving as [[held|e] d2] eqn:Er; pose proof (exec_reserve _ _ _ _ _ _ _ Hc He Er) as H; cbv iota in H.
  2:{ subst d2. destruct (exec_submitFails (A := BatchImagePublicBatch) t job _ _ _ _ d d1 (batchImageBillingHoldFailureCode e) (publicError w e) e Hl
        (new_owner _ _ _ Hnew) (new_unnamed _ _ _ Hnew) (new_unnamed _ _ _ Hnew) (new_visible _ _ _ Hnew)) as (s & d' & -> & Hl' & Hs).
      by eapply proceeds_unfunded. }
  destruct H as (Hi & Hs & Hd2 & He2). assert (Hid : jobID held = jobID job) by (unfold jobID; by rewrite Hi). rewrite run_seq, Hid.
  assert (Hl2 : leaves (info job) (state job) (items d) (ledger d2) (queue d) d d2) by (rewrite Hd2; by eapply leaves_ledger).
  destruct (exec_createItems t (jobID job) hash (Items req) d2) as (d3 & -> & J1 & J2 & J3 & J4); [done..| | |].
  - rewrite (leaves_row _ _ _ _ _ _ _ Hl2 : jobs d2 !! jobID job = _). by eexists.
  - unfold itemsOf. by rewrite (left_items _ _ _ _ _ _ _ Hl2), Hitems.
  - apply (upload_proceeds held d2); try done. eapply leaves_frame; [exact Hl2 | done | | done | done].
    rewrite J4. by rewrite (left_items _ _ _ _ _ _ _ Hl2).
Qed.
End proceeding.

(** The request after its checks. *)
Definition checked (now : Time) (req : BatchImageSubmitRequest) : result goError BatchImageSubmitRequest :=
  if negb (enabled sw) then Err (AppErr ErrBatchImageDisabled) else
  match validateSubmitRequest (formatTaskName w) (limits w) now req, groupAllows sw (ownerGroupID owner) with
  | Err e, _ => Err (AppErr e)
  | _, Err e => Err e
  | Ok req, Ok _ => Ok req
  end.

Definition modelOf (req : BatchImageSubmitRequest) : string :=
  match clientModel sw with
  | Some m => if eqs (TrimSpace m) "" then reqModel req else TrimSpace m
  | None => reqModel req
  end.

Definition hashOf (req : BatchImageSubmitRequest) : string :=
  if eqs (modelOf req) (reqModel req) then HashBatchImageSubmitRequest req
  else hashCompositeBatchImageSubmitRequest req (ownerGroupID owner).

(** The job of an earlier submission with the key, if the request has a key. *)
Definition earlier (key : string) (d : batchDB) : option BatchImageJob :=
  if eqs (TrimSpace key) "" then None else
  last (selectJobs (λ job, ownedBy (ownerUserID owner) (ownerAPIKeyID owner) job
                           && bool_decide (IdempotencyKey (info job) = Some (TrimSpace key))) d).

Section outcome.
Context (t : Time) (d : batchDB) (req : BatchImageSubmitRequest) (key : string).

Definition creation (req' : BatchImageSubmitRequest) (c : submitChoice (Account := Account)) (parent : option string) (bytes : list ascii)
    : result goError BatchImageJob * batchDB :=
  let b := NewBatchImageID bytes in
  exec t (CreateBatchImageJob (Ok b) (newJob owner req' (modelOf req') (hashOf req') (TrimSpace key) b parent c)) d.

(** Why no job is created. *)
Inductive unavailable (req' : BatchImageSubmitRequest) : goError → Prop :=
  | no_account e : choose sw req' = Err e → unavailable req' e
  | no_parent c e : choose sw req' = Ok c → exec t (parentOf owner req') d = (Err e, d) → unavailable req' e
  | no_bytes c parent e :
      choose sw req' = Ok c → exec t (parentOf owner req') d = (Ok parent, d) → randomBytes sw = Err e → unavailable req' e
  | not_created c parent bytes e :
      choose sw req' = Ok c → exec t (parentOf owner req') d = (Ok parent, d) → randomBytes sw = Ok bytes →
      creation req' c parent bytes = (Err e, d) → unavailable req' e.

Inductive submits : submitAnswer → batchDB → Prop :=
  | submits_refused e : checked t req = Err e → submits (Err e) d
  | submits_conflict req' existing :
      checked t req = Ok req' → earlier key d = Some existing → batchImageDerefString (RequestHash (info existing)) ≠ hashOf req' →
      submits (Err (AppErr ErrBatchImageIdempotencyConflict)) d
  | submits_repeated req' existing q :
      checked t req = Ok req' → earlier key d = Some existing → batchImageDerefString (RequestHash (info existing)) = hashOf req' →
      (if eqs (jobStatus existing) BatchImageJobStatusSubmitted then present (jobID existing) q ∧ keepsJobs (queue d) q else q = queue d) →
      submits (Ok (toPublic w existing)) (setQueue q d)
  | submits_unavailable req' e :
      checked t req = Ok req' → earlier key d = None → unavailable req' e → submits (Err e) d
  | submits_new req' c parent bytes job d1 r d' :
      checked t req = Ok req' → earlier key d = None → choose sw req' = Ok c → exec t (parentOf owner req') d = (Ok parent, d) →
      randomBytes sw = Ok bytes → creation req' c parent bytes = (Ok job, d1) → jobID job = NewBatchImageID bytes → isNew job d d1 →
      proceeds t req' (hashOf req') c job d d1 r d' → submits r d'.

Lemma exec_parentOf req' r d' : exec t (parentOf owner req') d = (r, d') → d' = d.
Proof.
  unfold parentOf. destruct (batchImageOptionalStringPtr _); [|by intros [= _ <-]]. rewrite run_andThen.
  unfold GetBatchImageJobByBatchIDForOwner, queryFound, reading. cbn [exec]. destruct (found _) as [x|[|e]]; by intros [= _ <-].
Qed.

Lemma submitNew_submits req' :
  batchInv d → checked t req = Ok req' → earlier key d = None → (∀ bytes, randomBytes sw = Ok bytes → length bytes = 16%nat) →
  let outcome := exec t (submitNew w sw owner req' (modelOf req') (hashOf req') (TrimSpace key)) d in submits (fst outcome) (snd outcome).
Proof.
  intros HI Hreq He Hbytes. cbv zeta. unfold submitNew.
  assert (Hun : ∀ e, unavailable req' e → submits (Err e) d) by (intros e; by apply submits_unavailable).
  destruct (choose sw req') as [c|e] eqn:Ec; [|by apply Hun, no_account]. rewrite run_andThen.
  destruct (exec t (parentOf owner req') d) as [[parent|e] d0] eqn:Ep; pose proof (exec_parentOf _ _ _ Ep) as ->; [|by eapply Hun, no_parent].
  destruct (randomBytes sw) as [bytes|e] eqn:Eb; [|by eapply Hun, no_bytes]. specialize (Hbytes bytes eq_refl). rewrite run_andThen.
  change (exec t (CreateBatchImageJob _ _) d) with (creation req' c parent bytes).
  destruct (creation req' c parent bytes) as [[job|e] d1] eqn:Ej;
    pose proof Ej as H; (apply exec_create in H; [|done..|by split]); [|subst; by eapply Hun, not_created].
  destruct H as [Hid Hnew]. assert (Hv : validateSubmitRequest (formatTaskName w) (limits w) t (req) = Ok req').
  { unfold checked in Hreq. destruct (negb _); [done|]. destruct (validateSubmitRequest _ _ _ _); [|done]. destruct (groupAllows _ _); [congruence | done]. }
  apply validate_items in Hv as [Hne Hnd].
  assert (Hc : clean (jobID job)) by (rewrite Hid; apply NewBatchImageID_clean; by intros ->).
  eapply submits_new; [done..|]. by apply prepare_proceeds.
Qed.

Lemma earlier_row existing : batchInv d → earlier key d = Some existing → clean (jobID existing).
Proof.
  intros HI. unfold earlier. destruct (eqs _ _); [done|]. intros [l E]%last_Some. apply (seen_clean _ _ (select_seen _ d existing HI ltac:(rewrite E; apply elem_of_app; right; by left))).
Qed.

Lemma repeat_submits req' existing :
  batchInv d → checked t req = Ok req' → earlier key d = Some existing →
  let outcome := exec t (repeatSubmit w existing (hashOf req')) d in submits (fst outcome) (snd outcome).
Proof.
  intros HI Hreq He. cbv zeta. destruct (earlier_row _ HI He) as [Hv _]. unfold repeatSubmit.
  destruct (eqs (batchImageDerefString _) _) eqn:Eh; cbn [negb]; [apply eqs_true in Eh | apply eqs_false in Eh; by eapply submits_conflict].
  destruct (eqs (jobStatus existing) _) eqn:Es; cbn [negb].
  - rewrite run_seq. destruct (exec_enqueue t (jobID existing) d) as (q & -> & Hp); [apply HI | done|].
    eapply submits_repeated; [done..|]. by rewrite Es.
  - cbn [exec ok fst snd]. assert (H : submits (Ok (toPublic w existing)) (setQueue (queue d) d)) by (eapply submits_repeated; [done..|by rewrite Es]).
    by destruct d.
Qed.
End outcome.

(** C13: functional.  What one undisturbed submission does, on any tables that
    the system reaches.  A request that is refused, a request whose key belongs
    to another one, and a job that cannot be created change nothing.  A
    repetition answers with the job of the first request, and makes sure that a
    submitted job is queued.  A new job is paid for before the provider sees it:
    when the hold is refused nothing is frozen and the job fails; when the
    provider does not take the job, its hold is returned and the job fails, or
    the job is queued for another attempt to return it; otherwise the job is
    submitted with the name and the places that the provider gave, with one
    pending item for each image, its hold, and a place in the queue. *)
Theorem submit_outcome x t req key :
  batchReachable x → (∀ bytes, randomBytes sw = Ok bytes → length bytes = 16%nat) →
  let outcome := exec t (Submit w sw owner req key) (crewDB x) in
  submits t (crewDB x) req key (fst outcome) (snd outcome).
Proof.
  intros Hx%batchReachable_inv Hb. cbv zeta. set (d := crewDB x) in *. destruct (checked t req) as [req'|e] eqn:Ec.
  - assert (Hrun : exec t (Submit w sw owner req key) d = match earlier key d with
              | Some existing => exec t (repeatSubmit w existing (hashOf req')) d
              | None => exec t (submitNew w sw owner req' (modelOf req') (hashOf req') (TrimSpace key)) d
              end).
    { revert Ec. unfold checked, Submit, earlier. destruct (negb (enabled sw)); [done|]. cbn [exec].
      destruct (validateSubmitRequest _ _ t req) as [r|e]; [|done]. destruct (groupAllows sw _); [|done]. intros [= ->]. cbv zeta.
      fold (modelOf req'). fold (hashOf req'). destruct (eqs (TrimSpace key) ""); [done|]. rewrite run_seq.
      unfold GetBatchImageJobByIdempotencyKey, queryFound, reading. cbn [exec]. by destruct (last _). }
    rewrite Hrun. destruct (earlier key d) as [existing|] eqn:Ee; [by apply repeat_submits | by apply submitNew_submits].
  - assert (exec t (Submit w sw owner req key) d = (Err e, d)) as ->; [|by apply submits_refused].
    revert Ec. unfold checked, Submit. destruct (negb (enabled sw)); [by intros [= <-]|]. cbn [exec].
    destruct (validateSubmitRequest _ _ t req) as [r|e']; [|by intros [= <-]]. destruct (groupAllows sw _); [done | by intros [= <-]].
Qed.
End submission.

(** ** Example runs *)

Section demo.
#[local] Existing Instances ascii_case plainText decimal8 utcSQL utcWeek decimal8_laws utcCalendar demoDecoder demoJSON.
Abbreviation demoReachable := (batchReachable (Account := unit)).

(** A provider that does not take the job. *)
Definition refusingProvider : BatchImageProvider unit :=
  mkProvider unit (λ _, true) (λ _ _ _, Err (OtherErr "quota" [])) (λ _ _, Ok None) (λ _ _, Ok tt)
    (λ _ _, Err (OtherErr "not found" [])) (λ _ _ _, Ok tt).

Definition refusingWorld : submitWorld (Account := unit) :=
  mkSubmitWorld true (λ _, Ok tt) None
    (λ _, Ok (mkChoice "gemini_api" refusingProvider tt 9 "gemini-flash-image" demoPrices)) (Ok (repeat "a"%char 16)).

Definition submitted (sw : submitWorld (Account := unit)) := exec sampleDay (Submit demoBatchWorld sw demoOwner demoRequest "") demoTables.

(** The status of the job, whether it is hidden, and the frozen money of its user. *)
Definition shown (d : batchDB) : option (string * bool * Z) :=
  match jobs d !! demoID, users (ledger d) !! 7 with
  | Some (_, s), Some u => Some (Status s, bool_decide (is_Some (UserDeletedAt s)), frozen u)
  | _, _ => None
  end.

Lemma submitted_shown : shown (snd (submitted demoSubmitWorld)) = Some (BatchImageJobStatusSubmitted, false, 300000000).
Proof. by vm_compute. Qed.

Lemma refused_shown : shown (snd (submitted refusingWorld)) = Some (BatchImageJobStatusFailed, true, 0).
Proof. by vm_compute. Qed.

Lemma submit_outcome_witness :
  ∃ x, demoReachable x ∧
    submits demoBatchWorld demoSubmitWorld demoOwner sampleDay (crewDB x) demoRequest "" (fst (submitted demoSubmitWorld)) (snd (submitted demoSubmitWorld)) ∧
    shown (snd (submitted demoSubmitWorld)) = Some (BatchImageJobStatusSubmitted, false, 300000000) ∧
    submits demoBatchWorld refusingWorld demoOwner sampleDay (crewDB x) demoRequest "" (fst (submitted refusingWorld)) (snd (submitted refusingWorld)) ∧
    shown (snd (submitted refusingWorld)) = Some (BatchImageJobStatusFailed, true, 0).
Proof.
  exists (mkCrew sampleDay demoTables []). split; [apply demoTables_reachable|].
  split; [|split; [exact submitted_shown | split; [|exact refused_shown]]].
  - apply (submit_outcome demoBatchWorld demoSubmitWorld demoOwner (mkCrew sampleDay demoTables []) sampleDay demoRequest "" demoTables_reachable).
    by intros bytes [= <-].
  - apply (submit_outcome demoBatchWorld refusingWorld demoOwner (mkCrew sampleDay demoTables []) sampleDay demoRequest "" demoTables_reachable).
    by intros bytes [= <-].
Defined.
End demo.
